(* ===== verification/_CoqProject ===== *)
-Q . S2P
Prelude.v
CString.v
Lib.v
Dns.v
Common.v
Ring.v
Srvnode.v
Domnode.v
Qid.v
Query.v
Cache.v
Master.v
Assembly.v
Relay.v
Daemon.v
Match.v
Rinetd.v
RinetdConf.v
DmUtil.v
DmName.v
DmPacket.v
DmLru.v
DmCache.v
DmCacheInv.v
DmCacheOps.v
DmCacheAddr.v
DmAnswer.v
DmRun.v
DmFrame.v
DmMac.v
DmServers.v
DmTable.v
DmForward.v
DmForwardInv.v
DmForwardQuery.v
DmForwardReply.v
DmForwardRun.v
DmLease.v
DmLeaseInv.v
DmLeaseRun.v
DmTags.v
DmDhcp.v
DmRequest.v
DmDhcpRun.v
DmLeaseFile.v
