(* ===== verification/Prelude.v ===== *)
(** * CrossBreeder: the dnrd relay, the rinetd forwarder, dnsmasq's DNS
    forwarding and its DHCP server

    CrossBreeder bundles DNS and networking daemons for a phone.  This
    library models two of them as a whole: dnrd 2.20.3, a caching DNS relay
    (src/dnrd-2.20.3/src), and rinetd 0.62, a TCP port forwarder
    (src/rinetd); and of a third, dnsmasq 2.65
    (src/dnsmasq/dnsmasq-git/dnsmasq-2.65-release-branch-8f66986/src), the
    part that reads the packets of strangers: names and packets
    (util.c, rfc1035.c), the cache they end up in (cache.c), the
    forwarding of queries and replies over UDP (forward.c), and the leases
    that its DHCP server gives (lease.c, dhcp-common.c, dhcp.c, rfc2131.c).

    ** How the programs work

    dnrd waits in [run] (relay.c) for datagrams.  A request of a client
    ([udp_handle_request]) is checked, then offered to the local master (a
    table of hosts read from files), then to the cache of answers; otherwise
    the domain of the name is looked up in the list of domains, a server of
    that domain is chosen, and the request is forwarded with a fresh
    identifier from a socket of its own, recorded in the list of outstanding
    queries.  A reply ([udp_handle_reply]) finds its query by the socket, is
    cached and goes back to the client with the client's identifier.  Servers
    that do not answer are deactivated, probed again later, and outstanding
    queries time out.

    rinetd accepts connections on the ports of its forwarding rules, checks
    the address of the client against allow and deny patterns, opens a
    connection to the target, and copies bytes in both directions between
    two 1024-byte buffers per connection until both ends are closed.

    dnsmasq hands the reply of a server to [extract_addresses] (rfc1035.c),
    which walks through its questions, follows their answers through aliases,
    and inserts names, addresses and negative answers into the cache.  The
    cache (cache.c) is a fixed set of records that are at the same time in the
    chains of a hash table and in a list by the time of their last use; an
    insertion takes its records from the end of that list and becomes visible
    when it is committed.  A query that the cache does not answer goes to
    [forward_query] (forward.c): a server is chosen by the domain
    ([search_servers]), the query gets a record ([struct frec]) with a new
    random identifier and the checksum of its questions, and is sent from a
    socket with a random port.  [reply_query] finds the record of a reply by
    identifier and checksum, has it looked at and changed ([process_reply]),
    and sends it to the client; a refusal is asked of the next server.

    dnsmasq's DHCP server ends the leases that have expired before it looks at
    a message ([dhcp_packet], dhcp.c).  The tags of a client, and the rules
    that add more of them (dhcp-common.c), say which ranges of addresses are
    there for it and which options it is sent.  A DHCPDISCOVER is answered
    with the address of the client's host in the configuration, of its lease,
    the one it asks for, or a free one that [address_allocate] finds; a
    DHCPREQUEST is checked against all this again and makes or changes a
    lease (rfc2131.c).  The database (lease.c) keeps for each lease what the
    script of the user has still to be told, which [do_script_run] does one
    event at a time.

    ** Files

    - Prelude: machine integers, buffers with checked loads and stores, the
      error monad [comp] with its tactics and notations, list lemmas.
    - CString: C strings and the functions of the C library that the
      programs use on them ([strchr], [atoi], [inet_aton], ...).
    - Lib: dnrd's lib.c.  - Dns: dns.c and dns.h, the packet format.
    - Common: [make_cname], [cname2asc] (common.c) and check.c.
    - Ring: the circular lists with a sentinel that three components share,
      with the interface [RingNode] of a node type.
    - Srvnode, Domnode: servers and domains (srvnode.c, domnode.c).
    - Qid: the pool of identifiers (qid.c) and the ISAAC generator (rand.c).
    - Query: the list of outstanding queries (query.c).
    - Cache: the answer cache (cache.c); [qsort] is the class [Qsort] with
      the laws [QsortSpec] of the C standard.
    - Master: the local master (master.c).
    - Assembly: the local master leaves room: what its answers may weigh,
      and that looking up, refusing and reloading are safe within it.
    - Relay: udp.c and relay.c on the state [daemon] of the whole program,
      one turn of the main loop included.
    - Daemon: the invariant [dinv] of that state, its preservation by every
      part of a turn, the states [reachable] by turns, and what follows a
      query from the client to the server and back.
    - Match: rinetd's pattern matcher (match.c).
    - Rinetd: rinetd's connections and its select pass (rinetd.c).
    - RinetdConf: rinetd's configuration file and log (rinetd.c).
    - DmUtil: dnsmasq's util.c.  - DmName, DmPacket: the names and the packets
      of its rfc1035.c.
    - DmLru: the doubly linked list of its cache.c and the meaning of its
      pointers.  - DmCache: the definitions of cache.c.  - DmCacheInv: the
      invariant [wfT] of the cache, and what removing old records does to it.
      - DmCacheOps, DmCacheAddr: insertion, the searches by name and address.
    - DmAnswer: [extract_addresses].  - DmRun: histories of replies and
      searches from the start of dnsmasq on.
    - DmFrame: what the handling of a reply leaves as it was: the questions,
      and where the pseudo header goes back.  - DmMac: [add_mac].
    - DmServers: [search_servers], [check_for_local_domain] and
      [check_for_bogus_wildcard].
    - DmTable: the records of forwarded queries, the sockets they share, the
      identifiers, and the invariant [tinv] of the three.
    - DmForward: the definitions of forward.c on the state [fstate].
      - DmForwardInv: its invariant [finv], and the walk over the servers.
      - DmForwardQuery: a query.  - DmForwardReply: a reply.
      - DmForwardRun: histories of queries, replies and visits of DBus, which
      takes servers away ([cleanup_dbus] of dbus.c).
    - DmLease: the definitions of lease.c.  - DmLeaseInv: the invariant
      [linv] of the database.  - DmLeaseRun: histories of its operations, and
      what the script is told.  - DmLeaseFile: the lease file, written by
      [lease_update_file] and read by [lease_init].
    - DmTags: tags and the choice of options (dhcp-common.c).  - DmDhcp:
      ranges, hosts and the search for an address (dhcp.c).  - DmRequest: the
      messages of DHCP (rfc2131.c).  - DmDhcpRun: histories of the server.

    ** Conventions

    A function of the code is a function of the same name.  It returns in
    [comp]: [Ok] with its result and the new state, or [Fault] with what goes
    wrong: a load or store outside a buffer, a null or dangling pointer, a
    failed assertion.  A theorem that a call is [Ok] is therefore a theorem
    of memory safety.  Heaps are finite maps from addresses to nodes; an
    allocation takes the address it returns as an argument.  The clock, the
    results of system calls and the content of files are arguments.  The
    target is ILP32, little endian, with unsigned [char]; integers are [Z]
    with their wrap-around written out where the code can reach it.  The
    configuration is the one of config.h: no TCP, the local master included,
    random source ports; dnsmasq is built without IPv6, IDN and DNSSEC.

    Parameters of dnsmasq's cache: [mix_tab], the table the hash function
    mixes with (its bytes include pointers); [clobbered], what a long name
    reads as once its memory is on the free list; [can_malloc], whether there
    is memory for one more long name.  The theorems hold for all of them.
    The hash chains are lists of records (only the chain code touches
    [hash_next]); [next] and [prev] are maps, since three lists share them.
    A packet is a prefix of [qlen] bytes of a buffer that has [SLACK] (300)
    bytes more, within which the reads behind the end of a packet that the
    code makes stay.  dnsmasq's buffer has 1547 bytes, or as many as the
    longest packet that is accepted if that is more (4096 when nothing is
    configured), so this is an assumption about packets, not about the
    buffer: nearly full ones are outside of it, and examples show that they
    overflow it ([full_buffer_overread], [full_query_overflows]).  [room] asks
    for more when a refusal has an opcode that is not that of a query, and an
    example shows why ([putting_back_overflows]).  The theorems about replies
    and forwarding all have these conditions.

    The state of forwarding is [fstate]; what has been sent is its list
    [outbox].  [env] holds what the system calls of one event return: memory,
    a socket, the results of sending.  [get_id] draws random numbers until one
    is free and has fuel for it; [lucky] says that one of the next numbers is
    free.  Servers and records are addresses in maps, as pointers to them are
    compared and outlive each other.  An answer to a client names the socket
    it leaves by and the source address that [send_from] asks the kernel for:
    none with OPT_NOWILD or OPT_CLEVERBIND; the interface is not used for IPv4.

    The leases are a list of addresses and contents, in the order of the list
    of the code.  A DHCP message is a record of its fields and of what
    [dhcp_reply] finds out about the client before the part that is modelled:
    its host, its tags, and the ranges on its network, which the code links in
    a chain and the model has as a list.  The nodes of the tags are on a heap,
    as the rules link nodes of the configuration into the list of a request;
    a walk over tags has as much fuel as there are nodes.  The answers of
    [icmp_ping] are a list, and [memory] says what [whine_malloc] returns.  The
    division by the size of a range fails for a range of the whole address
    space; [range_ok] excludes it.

    Loops that are not structural take fuel and return [Fault NoFuel] when it
    runs out; the callers pass a bound that is proved to be enough where a
    theorem says the call is [Ok]: [objname_fuel] (a round of name decoding
    uses destination space or pointer depth), the number of nodes of a heap
    plus one for walks over a list, its square for [query_timeout] (a
    deletion may send the walk back to the start), the length of the text for
    loops over a text.  The only loop of dnrd that need not end is the one of
    [send2current] with [reactivate_interval] 0.  In dnsmasq, a name takes at
    most 256 jumps with at most the length of the packet in labels between
    them ([extract_fuel]), the loop of [cache_insert] at most four rounds,
    and walks over the records of the cache one round per record.

    ** What the theorems show

    - Names and packets (Dns, Common): decoding is memory safe and ends for
      every packet; it inverts the encoding, follows pointers, refuses
      pointer loops; a well-formed question parses to itself.  Exceptions are
      proved as well: the root name overwrites the flags.
    - Servers and domains: lists stay consistent, the next active server is
      found round robin, a failing server is left, the longest matching
      domain is chosen.
    - Identifiers and queries: identifiers and sockets in use are distinct
      over every history; adding, deleting and timing out keep the invariant
      [qinv]; every expired query goes away.
    - Cache: the search is the first match by question, what is stored is
      found, expiry keeps the list consistent and the marks.
    - Master: reading any configuration ends and leaves a consistent table;
      an address query is answered byte for byte.
    - Relay: a reply reaches the client that asked, a query is forwarded to
      an active server or refused, sending fails over.
    - Daemon: [daemon_never_faults] composes all of dnrd: in every reachable
      state every turn of the main loop ends without a bad access, a failed
      assertion or an endless loop.  Its hypotheses are the settings
      ([settings_ok]: servers may be deactivated, no more sockets than
      identifiers, the answers of the master fit its buffer, and the record a
      query is parsed into, which is not initialised, holds a NUL), the clock
      before 2038, fresh addresses and sockets from the system, the latter
      below [FD_SETSIZE] ([os_list_ok], [addrs_ok]), and no client using the
      identifier of an outstanding probe ([no_probe]).  What goes wrong
      without them is proved too ([root_query_overreads],
      [socket_beyond_fd_set], [probe_identifier_aborts]).
      [relayed_query_returns] follows one query to its server and the reply
      back to the client.
    - RinetdConf: [policy_of] is what the code loads from a file, with the
      patterns charged to the rules the code charges them to; [meaning_of] is
      what the manual says the file means.  The two agree when every
      forwarding line can be set up, and the listening ports then enforce the
      meaning; [patterns_change_rule] shows the case where they do not.
    - rinetd: the matcher decides glob patterns; both directions of a
      connection are pipes; a polite close delivers everything; accepting
      enforces the rules, and denied clients leak a connection.

    - dnsmasq: a name is decoded to its labels whatever pointers it is made
      of, without touching anything outside the packet but the bytes behind
      it; comparing agrees with decoding; the checksum of the questions
      tells them apart up to compression and case; a resource record is
      appended as its arguments say, and overflows the buffer in exactly one
      case.  The searches of the cache return exactly the live records that
      match and remove the expired ones they pass, an insertion finds room
      (when the name has some, and a record is left) and is found afterwards,
      and from the
      start on no reply that leaves room in the buffer, between any searches,
      breaks the cache ([any_replies_safe]).
    - dnsmasq's forwarding: after any history of queries, packets that claim
      to be replies, and visits of DBus, that leave room in the packet buffer,
      the next event is handled without a bad access or an endless loop
      ([forwarding_never_fails]), and whatever has been sent to a client
      answers a query of that client with the identifier it asked with, made
      from the query itself or from a packet with its checksum that came from
      a server's address ([answers_match_queries]).  A query is sent on
      or answered, its good reply is delivered, young queries are not dropped
      for new ones, the server with the longest domain is chosen, and the
      hardware address is appended to the options.  Examples show where the
      checks of replies are weaker than they look.
    - dnsmasq's DHCP server: after any history of messages, alarms and calls
      of the script no two leases have the same address or name, and the next
      event is handled, or it wants a lease when none is left or there is no
      memory for it, which crashes the server ([dhcp_server_sound]); an offer is free ([offer_is_free]), a client gets
      an address when there is one ([free_address_offered]), and an
      acknowledged one is recorded ([ack_is_recorded]).  The database is sound
      under any sequence of its operations, the script is told everything
      once, the options that are sent are those that the tags allow, and the
      leases in the file are the ones dnsmasq has after a restart, less those
      that have ended ([leases_survive_restart]).

    ** Not modelled

    Output (logging, dumps), process control (forking, signals, privileges,
    pid files), getopt, and dnrd's TCP code (compiled out).  The other
    programs of the repository (the rest of dnsmasq, haveged, pixelserv, popen_noshell,
    dnsc, the lock helpers) are listed in the manifest with the reasons.  Of
    dnsmasq's forward.c, [receive_query] and [tcp_request] are left out: they
    wrap system calls around [answer_request], which is not modelled;
    the events of DmForwardRun are the queries it passes on.  Of DHCP, the
    parsing of messages and the encoding of options, BOOTP, PXE and
    DHCPINFORM, and the names of leases in the DNS cache are left out; DHCPv6
    is not compiled. *)
From Stdlib Require Export ZArith Lia.
From stdpp Require Export base gmap strings numbers list.
Set Warnings "-clear-no-such-hyp".
Open Scope Z_scope.

(** * Machine integers

    The modelled target is ILP32, little endian: [int] and [long] are 32 bits
    wide and [short] is 16 bits wide. *)

Definition u8 (z : Z) : Z := z `mod` 2 ^ 8.
Definition u16 (z : Z) : Z := z `mod` 2 ^ 16.
Definition u32 (z : Z) : Z := z `mod` 2 ^ 32.
Definition s16 (z : Z) : Z := (z + 2 ^ 15) `mod` 2 ^ 16 - 2 ^ 15.
Definition s32 (z : Z) : Z := (z + 2 ^ 31) `mod` 2 ^ 32 - 2 ^ 31.

Definition is_byte (b : Z) : Prop := 0 <= b < 256.
Definition bytes (l : list Z) : Prop := Forall is_byte l.
Definition is_u16 (z : Z) : Prop := 0 <= z < 65536.

#[export] Instance is_byte_dec b : Decision (is_byte b).
Proof. unfold is_byte. apply _. Defined.
#[export] Instance bytes_dec l : Decision (bytes l).
Proof. unfold bytes. apply _. Defined.
#[export] Instance is_u16_dec z : Decision (is_u16 z).
Proof. unfold is_u16. apply _. Defined.

(** * Computations that can fault

    A C expression that reads or writes outside its buffer, follows a null
    or dangling pointer, fails an [assert], or a loop that is cut off by its
    fuel, is a [Fault]; the theorems of the components prove its absence. *)

Inductive fault := ReadOOB | WriteOOB | NullDeref | BadFree | AssertFail | NoFuel.

Inductive comp (A : Type) := Ok (a : A) | Fault (f : fault).
Arguments Ok {A} a.
Arguments Fault {A} f.

#[export] Instance comp_ret : MRet comp := fun A a => Ok a.
#[export] Instance comp_bind : MBind comp := fun A B k m =>
  match m with Ok a => k a | Fault f => Fault f end.

#[export] Instance fault_eq_dec : EqDecision fault.
Proof. solve_decision. Defined.

Definition of_option {A} (f : fault) (o : option A) : comp A :=
  match o with Some a => Ok a | None => Fault f end.

(** * Buffers: byte arrays indexed by C integers *)

Definition getb (l : list Z) (i : Z) : option Z :=
  if 0 <=? i then l !! Z.to_nat i else None.

Definition setb (l : list Z) (i v : Z) : option (list Z) :=
  if (0 <=? i) && (i <? Z.of_nat (length l))
  then Some (<[Z.to_nat i := v]> l) else None.

Definition zlen {A} (l : list A) : Z := Z.of_nat (length l).

(** [rd]/[wr]: a checked load and store. *)
Definition rd (l : list Z) (i : Z) : comp Z := of_option ReadOOB (getb l i).
Definition wr (l : list Z) (i v : Z) : comp (list Z) := of_option WriteOOB (setb l i v).

(** Big-endian 16- and 32-bit values, as [ntohs]/[ntohl] of a load. *)
Definition be16 (a b : Z) : Z := a * 256 + b.
Definition be32 (a b c d : Z) : Z := ((a * 256 + b) * 256 + c) * 256 + d.
Definition hi8 (z : Z) : Z := (z / 256) `mod` 256.
Definition lo8 (z : Z) : Z := z `mod` 256.

Definition rd16 (l : list Z) (i : Z) : comp Z :=
  a ← rd l i; b ← rd l (i + 1); mret (be16 a b).
Definition rd32 (l : list Z) (i : Z) : comp Z :=
  a ← rd l i; b ← rd l (i + 1); c ← rd l (i + 2); d ← rd l (i + 3);
  mret (be32 a b c d).

(** [memcpy] into a buffer at an offset. *)
Definition blit (l : list Z) (off : nat) (src : list Z) : list Z :=
  take off l ++ src ++ drop (off + length src) l.

(** [memcpy (dst + 2, src + 2, n - 2)] *)
Definition copy_answer (dst src : list Z) (n : Z) : comp (list Z) :=
  if n <? 2 then Fault WriteOOB
  else if zlen src <? n then Fault ReadOOB
  else if zlen dst <? n then Fault WriteOOB
  else mret (take 2 dst ++ drop 2 (take (Z.to_nat n) src) ++ drop (Z.to_nat n) dst).

(** * Automation *)

Create HintDb dnrd.

Ltac inv_comp :=
  repeat match goal with
  | H : Ok _ = Ok _ |- _ => injection H as H; subst
  | H : Ok _ = Fault _ |- _ => discriminate H
  | H : Fault _ = Ok _ |- _ => discriminate H
  | H : Fault _ = Fault _ |- _ => injection H as H; subst
  | H : (_, _) = (_, _) |- _ => injection H as ?; subst
  | H : Some _ = Some _ |- _ => injection H as H; subst
  | H : Some _ = None |- _ => discriminate H
  | H : None = Some _ |- _ => discriminate H
  end.

Ltac zbool :=
  repeat match goal with
  | H : (_ <=? _) = true |- _ => apply Z.leb_le in H
  | H : (_ <=? _) = false |- _ => apply Z.leb_gt in H
  | H : (_ <? _) = true |- _ => apply Z.ltb_lt in H
  | H : (_ <? _) = false |- _ => apply Z.ltb_ge in H
  | H : (_ =? _) = true |- _ => apply Z.eqb_eq in H
  | H : (_ =? _) = false |- _ => apply Z.eqb_neq in H
  | H : _ || _ = false |- _ => apply orb_false_iff in H as [? ?]
  | H : _ && _ = true |- _ => apply andb_true_iff in H as [? ?]
  | H : _ && _ = false |- _ => apply andb_false_iff in H as [?|?]
  | H : _ || _ = true |- _ => apply orb_true_iff in H as [?|?]
  | H : negb _ = true |- _ => apply negb_true_iff in H
  | H : negb _ = false |- _ => apply negb_false_iff in H
  end.

(** Closed decidable goals, by evaluation. *)
Ltac by_decide := refine (bool_decide_unpack _ _); vm_compute; exact I.

(** Case analysis on the innermost test of the goal. *)
Ltac case_if :=
  match goal with
  | |- context [if ?b then _ else _] =>
      lazymatch b with
      | context [if _ then _ else _] => fail
      | _ => let E := fresh "E" in destruct b eqn:E
      end
  end.

(** * Lemmas on buffers *)

Lemma rd_ok l i : 0 <= i < zlen l -> exists b, rd l i = Ok b /\ l !! Z.to_nat i = Some b.
Proof.
  unfold rd, getb, zlen. intros H.
  destruct (lookup_lt_is_Some_2 l (Z.to_nat i)) as [b Hb]; [lia|].
  exists b. rewrite Hb. case_if; [done|zbool; lia].
Qed.

Lemma rd_byte l i b : bytes l -> rd l i = Ok b -> is_byte b.
Proof.
  unfold rd, getb, bytes. intros Hl. case_if; [|done].
  destruct (l !! Z.to_nat i) eqn:Hi; cbn; [|done].
  intros ?; inv_comp. eapply Forall_lookup_1; eauto.
Qed.

Lemma rd_in l i b : rd l i = Ok b -> 0 <= i < zlen l.
Proof.
  unfold rd, getb, zlen. case_if; [|done]. zbool.
  destruct (l !! Z.to_nat i) eqn:Hi; cbn; [|done].
  intros _. apply lookup_lt_Some in Hi. lia.
Qed.

Lemma rd_app_r l k i : 0 <= i -> rd (l ++ k) (zlen l + i) = rd k i.
Proof.
  intros Hi. unfold rd, getb, zlen.
  replace (0 <=? Z.of_nat (length l) + i) with true by (symmetry; apply Z.leb_le; lia).
  replace (0 <=? i) with true by (symmetry; apply Z.leb_le; lia).
  rewrite lookup_app_r by lia. do 2 f_equal. lia.
Qed.

Lemma wr_ok l i v : 0 <= i < zlen l -> wr l i v = Ok (<[Z.to_nat i := v]> l).
Proof.
  unfold wr, setb, zlen. intros H.
  replace ((0 <=? i) && (i <? Z.of_nat (length l))) with true; [done|].
  symmetry. apply andb_true_iff; split; [apply Z.leb_le|apply Z.ltb_lt]; lia.
Qed.

Lemma wr_len l i v l' : wr l i v = Ok l' -> length l' = length l.
Proof.
  unfold wr, setb. case_if; cbn; [|done]. intros ?; inv_comp.
  apply length_insert.
Qed.

Lemma be16_split z : is_u16 z -> be16 (hi8 z) (lo8 z) = z.
Proof.
  unfold is_u16, be16, hi8, lo8. intros H.
  rewrite (Z.mod_small (z / 256)).
  - rewrite Z.mul_comm. symmetry. apply Z.div_mod. lia.
  - split; [apply Z.div_pos; lia|apply Z.div_lt_upper_bound; lia].
Qed.

Lemma be16_u16 a b : is_byte a -> is_byte b -> is_u16 (be16 a b).
Proof. unfold is_byte, is_u16, be16. lia. Qed.

Lemma hi8_byte z : is_byte (hi8 z).
Proof. unfold hi8, is_byte. apply Z.mod_pos_bound. lia. Qed.
Lemma lo8_byte z : is_byte (lo8 z).
Proof. unfold lo8, is_byte. apply Z.mod_pos_bound. lia. Qed.

Lemma length_blit l off src :
  (off + length src <= length l)%nat -> length (blit l off src) = length l.
Proof. intros H. unfold blit. rewrite !length_app, length_take, length_drop. lia. Qed.

#[export] Hint Resolve hi8_byte lo8_byte be16_u16 rd_byte : dnrd.

Lemma blit_nil l off : blit l off [] = l.
Proof. unfold blit. cbn. rewrite Nat.add_0_r. apply take_drop. Qed.

Lemma blit_cons l off b src : (off < length l)%nat ->
  blit (<[off := b]> l) (S off) src = blit l off (b :: src).
Proof.
  intros H. unfold blit. rewrite insert_take_drop by done.
  assert (length (take off l) = off) as Ht by (rewrite length_take; lia).
  replace (S off) with (off + 1)%nat by lia.
  rewrite take_app_add' by done. cbn [take].
  replace (off + 1 + length src)%nat with (off + S (length src))%nat by lia.
  rewrite drop_app_add' by done. cbn [drop].
  rewrite drop_drop. cbn [length]. rewrite <- app_assoc. cbn [app].
  rewrite take_0. cbn [app]. replace (off + 1 + length src)%nat with (off + S (length src))%nat by lia. done.
Qed.

Lemma blit_blit l off s1 s2 : (off + length s1 + length s2 <= length l)%nat ->
  blit (blit l off s1) (off + length s1) s2 = blit l off (s1 ++ s2).
Proof.
  revert off l; induction s1 as [|b s1 IH]; intros off l H; cbn [app length] in *.
  - by rewrite blit_nil, Nat.add_0_r.
  - rewrite <- !blit_cons by lia. rewrite <- (IH (S off)) by (rewrite length_insert; lia).
    f_equal. lia.
Qed.

Lemma blit_all l src : (length src <= length l)%nat -> blit l 0 src = src ++ drop (length src) l.
Proof. done. Qed.

Lemma zlen_app {A} (l k : list A) : zlen (l ++ k) = zlen l + zlen k.
Proof. unfold zlen. rewrite length_app. lia. Qed.
Lemma zlen_cons {A} (x : A) l : zlen (x :: l) = 1 + zlen l.
Proof. unfold zlen. cbn [length]. lia. Qed.
Lemma zlen_nil {A} : zlen (@nil A) = 0.
Proof. done. Qed.
Lemma zlen_nonneg {A} (l : list A) : 0 <= zlen l.
Proof. unfold zlen. lia. Qed.

Lemma rd_at pre b post : rd (pre ++ b :: post) (zlen pre) = Ok b.
Proof.
  rewrite <- (Z.add_0_r (zlen pre)). rewrite rd_app_r by lia. done.
Qed.

(** * Lemmas on lists *)

Lemma fmap_ext_in {A B} (f g : A -> B) (l : list A) : (forall a, a ∈ l -> f a = g a) -> f <$> l = g <$> l.
Proof. intros H. apply list_fmap_ext. intros i x Hx. apply H. by eapply list_elem_of_lookup_2. Qed.

Lemma sublist_filter_eq {A} (P : A -> bool) (l1 l : list A) : l1 `sublist_of` l -> NoDup l ->
  (forall a, a ∈ l -> P a -> a ∈ l1) -> filter P l1 = filter P l.
Proof.
  induction 1 as [|x l1 l Hs IH|x l1 l Hs IH]; intros Hnd Hin; [done| |];
    apply NoDup_cons in Hnd as [Hx Hnd].
  - assert (filter P l1 = filter P l) as E.
    { apply IH; [done|]. intros a Ha HP. specialize (Hin a). set_solver. }
    rewrite !filter_cons. case_decide; by rewrite E.
  - rewrite filter_cons. case_decide as HP; [|apply IH; [done|]; intros; apply Hin; [by right|done]].
    exfalso. apply Hx. apply (sublist_subseteq l1 l); [done|]. apply Hin; [by left|done].
Qed.

(** The first element with a property is in one place only. *)
Lemma first_split {A} (P : A -> Prop) (l1 : list A) x l2 k1 y k2 : l1 ++ x :: l2 = k1 ++ y :: k2 ->
  Forall (fun a => ~ P a) l1 -> Forall (fun a => ~ P a) k1 -> P x -> P y -> l1 = k1 /\ x = y.
Proof.
  intros Hl H1 H2 Hx Hy. rewrite Forall_forall in H1, H2.
  destruct (app_eq_inv l1 (x :: l2) k1 (y :: k2) Hl) as [(k & -> & Hk)|(k & -> & Hk)];
    (destruct k as [|z k]; [rewrite app_nil_r; cbn in Hk; by injection Hk as -> _|]); cbn in Hk; injection Hk as -> _;
    exfalso; [apply (H1 z)|apply (H2 z)]; set_solver.
Qed.

Lemma filter_bool_ext {A} (P Q : A -> bool) (l : list A) :
  (forall a, a ∈ l -> P a = Q a) -> filter P l = filter Q l.
Proof.
  induction l as [|x l IH]; intros H; [done|]. rewrite !filter_cons, (H x) by (by left).
  rewrite IH by (intros; apply H; by right). done.
Qed.

Lemma filter_all {A} (P : A -> bool) (l : list A) : (forall a, a ∈ l -> P a) -> filter P l = l.
Proof.
  induction l as [|x l IH]; intros H; [done|]. rewrite filter_cons.
  rewrite IH by (intros; apply H; by right). case_decide as Hx; [done|].
  exfalso. apply Hx, H. by left.
Qed.

Lemma filter_none {A} (P : A -> bool) (l : list A) : (forall a, a ∈ l -> P a = false) -> filter P l = [].
Proof.
  induction l as [|x l IH]; intros H; [done|]. rewrite filter_cons, decide_False.
  - apply IH. intros. apply H. by right.
  - rewrite H by (by left). auto.
Qed.

Lemma filter_split_length {A} (P : A -> bool) (l : list A) :
  length l = (length (filter (fun a => P a) l) + length (filter (fun a => negb (P a)) l))%nat.
Proof.
  induction l as [|x l IH]; [done|]. rewrite !filter_cons.
  destruct (P x) eqn:E; cbn [negb]; repeat case_decide; cbn [length] in *; try lia; exfalso; naive_solver.
Qed.

(** * Bits *)

Lemma land_63 c : 0 <= c < 64 -> Z.land c 0xc0 = 0.
Proof.
  intros H. assert (Z.land c 63 = c) as <-.
  { change 63 with (Z.ones 6). rewrite Z.land_ones by lia. apply Z.mod_small. lia. }
  rewrite <- Z.land_assoc. cbn. apply Z.land_0_r.
Qed.

(** Stores one after the other. *)
Fixpoint wrs (l : list Z) (i : Z) (bs : list Z) : comp (list Z) :=
  match bs with [] => Ok l | b :: bs' => l ← wr l i b; wrs l (i + 1) bs' end.

Lemma wrs_ok bs : forall l i, 0 <= i -> i + zlen bs <= zlen l -> wrs l i bs = Ok (blit l (Z.to_nat i) bs).
Proof.
  induction bs as [|b bs IH]; intros l i Hi Hl; cbn [wrs]; [by rewrite blit_nil|].
  rewrite zlen_cons in Hl. pose proof (zlen_nonneg bs). rewrite wr_ok by lia. cbn [mbind comp_bind].
  rewrite IH; [|lia|unfold zlen in *; rewrite length_insert; lia].
  replace (Z.to_nat (i + 1)) with (S (Z.to_nat i)) by lia. by rewrite blit_cons by (unfold zlen in *; lia).
Qed.

(** Lengths of appended lists as sums. *)
Ltac zlens := repeat rewrite zlen_app in *; repeat rewrite zlen_cons in *;
  change (zlen (@nil Z)) with 0 in *.
