(* ===== verification/CString.v ===== *)
(** The parts of the C library the daemons use, on the C locale: characters,
    NUL-terminated strings and dotted-quad addresses.  A [char *] that points
    to a NUL-terminated string is the list of the characters before the NUL. *)
From S2P Require Import Prelude.

(** * Characters *)

Definition isupper (c : Z) : bool := (65 <=? c) && (c <=? 90).
Definition islower (c : Z) : bool := (97 <=? c) && (c <=? 122).
Definition isdigit (c : Z) : bool := (48 <=? c) && (c <=? 57).
Definition isspace (c : Z) : bool := (c =? 32) || ((9 <=? c) && (c <=? 13)).
Definition tolower (c : Z) : Z := if isupper c then c + 32 else c.
Definition toupper (c : Z) : Z := if islower c then c - 32 else c.

(** * Strings *)

(** The string that starts at the beginning of a buffer. *)
Fixpoint cstr (l : list Z) : list Z :=
  match l with
  | [] => []
  | b :: l' => if b =? 0 then [] else b :: cstr l'
  end.

(** A NUL-terminated string: no character of it is NUL. *)
Definition nonul (s : list Z) : Prop := Forall (fun c => c <> 0) s.

Fixpoint str_eqb (a b : list Z) : bool :=
  match a, b with
  | [], [] => true
  | x :: a', y :: b' => (x =? y) && str_eqb a' b'
  | _, _ => false
  end.

(** [strcmp (a, b) == 0] and [strcasecmp (a, b) == 0]. *)
Definition strcmp0 (a b : list Z) : bool := str_eqb a b.
Definition strcasecmp0 (a b : list Z) : bool := str_eqb (tolower <$> a) (tolower <$> b).

(** [strnlen]: the length, at most [maxlen]. *)
Definition strnlen (s : list Z) (maxlen : Z) : Z := Z.min (zlen s) (Z.max 0 maxlen).

(** [strchr]: the offset of the first occurrence. *)
Fixpoint strchr (s : list Z) (c : Z) : option nat :=
  match s with
  | [] => None
  | b :: s' => if b =? c then Some O else S <$> strchr s' c
  end.

Definition lit (s : string) : list Z :=
  (fun a => Z.of_N (Ascii.N_of_ascii a)) <$> String.list_ascii_of_string s.

(** * Numbers *)

Definition clamp32 (z : Z) : Z := Z.max (- 2 ^ 31) (Z.min (2 ^ 31 - 1) z).

Fixpoint skip_space (s : list Z) : list Z :=
  match s with c :: s' => if isspace c then skip_space s' else s | [] => [] end.

Fixpoint dec_digits (acc : Z) (s : list Z) : Z :=
  match s with
  | c :: s' => if isdigit c then dec_digits (acc * 10 + (c - 48)) s' else acc
  | [] => acc
  end.

(** [atoi] is [strtol] in base 10 with its saturation. *)
Definition atoi (s : list Z) : Z :=
  match skip_space s with
  | 45 :: s' => clamp32 (- dec_digits 0 s')
  | 43 :: s' => clamp32 (dec_digits 0 s')
  | s' => clamp32 (dec_digits 0 s')
  end.

(** Decimal rendering, as [%d] of a non-negative number below 1000. *)
Definition dec_byte (n : Z) : list Z :=
  if n <? 10 then [48 + n]
  else if n <? 100 then [48 + n / 10; 48 + n `mod` 10]
  else [48 + n / 100; 48 + (n / 10) `mod` 10; 48 + n `mod` 10].

(** * Addresses: an [in_addr] is its four bytes in network order. *)

Definition in_addr : Type := Z * Z * Z * Z.

Definition inet_ntoa (a : in_addr) : list Z :=
  let '(a, b, c, d) := a in
  dec_byte a ++ [46] ++ dec_byte b ++ [46] ++ dec_byte c ++ [46] ++ dec_byte d.

Definition addr_num (a : in_addr) : Z :=
  let '(a, b, c, d) := a in be32 a b c d.
Definition num_addr (n : Z) : in_addr :=
  ((n / 2 ^ 24) `mod` 256, (n / 2 ^ 16) `mod` 256, (n / 2 ^ 8) `mod` 256, n `mod` 256).

Definition hexval (c : Z) : option Z :=
  if isdigit c then Some (c - 48)
  else if (97 <=? c) && (c <=? 102) then Some (c - 87)
  else if (65 <=? c) && (c <=? 70) then Some (c - 55) else None.

(** One number of [inet_aton] in the given base, saturating at [2^32], and
    what follows it. *)
Fixpoint aton_digits (base acc : Z) (s : list Z) : Z * list Z :=
  match s with
  | c :: s' =>
      match hexval c with
      | Some v => if v <? base then aton_digits base (Z.min (2 ^ 32) (acc * base + v)) s'
                  else (acc, s)
      | None => (acc, s)
      end
  | [] => (acc, [])
  end.

(** A part of [inet_aton]: it starts with a digit; [0x] is hexadecimal and a
    leading [0] octal. *)
Definition aton_part (s : list Z) : option (Z * list Z) :=
  match s with
  | 48 :: x :: s' =>
      if (x =? 120) || (x =? 88) then Some (aton_digits 16 0 s')
      else Some (aton_digits 8 0 (x :: s'))
  | c :: s' => if isdigit c then Some (aton_digits 10 0 (c :: s')) else None
  | [] => None
  end.

Definition aton_end (s : list Z) : bool :=
  match s with [] => true | c :: _ => isspace c end.

(** One to four parts; the last one fills the remaining bytes. *)
Fixpoint aton_parts (k : nat) (hi : Z) (s : list Z) : option Z :=
  match aton_part s with
  | None => None
  | Some (v, rest) =>
      match rest, k with
      | 46 :: rest', S k' =>
          if v <? 256 then aton_parts k' (hi * 256 + v) rest' else None
      | _, _ =>
          if aton_end rest && (v <? 256 ^ (Z.of_nat k + 1))
          then Some (hi * 256 ^ (Z.of_nat k + 1) + v) else None
      end
  end.

Definition inet_aton (s : list Z) : option in_addr := num_addr <$> aton_parts 3 0 s.

(** * Reading a file line by line *)

(** [fgets]: at most [size - 1] bytes, up to and with the first newline. *)
Fixpoint fgets (n : nat) (content : list Z) : list Z * list Z :=
  match n, content with
  | S n', c :: rest =>
      if c =? 10 then ([c], rest)
      else let '(line, rest) := fgets n' rest in (c :: line, rest)
  | _, _ => ([], content)
  end.

(** The strings that [while (fgets (line, size, fp) != NULL)] sees. *)
Fixpoint lines_of (fuel : nat) (size : Z) (content : list Z) : list (list Z) :=
  match fuel, content with
  | S fuel', _ :: _ =>
      let '(line, rest) := fgets (Z.to_nat (size - 1)) content in
      cstr line :: lines_of fuel' size rest
  | _, _ => []
  end.
Definition file_lines (size : Z) (content : list Z) : list (list Z) :=
  lines_of (length content) size content.

(** * Tokens *)

(** [strtok] with the delimiters blank, tab, carriage return and newline:
    the token and what it leaves for the next call. *)
Definition is_delim (c : Z) : bool := (c =? 32) || (c =? 9) || (c =? 13) || (c =? 10).
Fixpoint skip_delim (s : list Z) : list Z :=
  match s with c :: s' => if is_delim c then skip_delim s' else s | [] => [] end.
Fixpoint span_token (s : list Z) : list Z * list Z :=
  match s with
  | c :: s' => if is_delim c then ([], s') else let '(t, r) := span_token s' in (c :: t, r)
  | [] => ([], [])
  end.
Definition strtok (s : list Z) : option (list Z) * list Z :=
  match skip_delim s with
  | [] => (None, [])
  | s' => let '(t, r) := span_token s' in (Some t, r)
  end.

(** * Decimal output: [%d], and [%.2d] for two digits at least *)

Fixpoint dec_loop (fuel : nat) (n : Z) (acc : list Z) : list Z :=
  match fuel with
  | O => acc
  | S fuel' =>
      let acc := (48 + n `mod` 10) :: acc in
      if n <? 10 then acc else dec_loop fuel' (n / 10) acc
  end.
(** An [int] has at most ten digits. *)
Definition dec (n : Z) : list Z :=
  if n <? 0 then 45 :: dec_loop 10 (- n) [] else dec_loop 10 n [].
Definition dec2 (n : Z) : list Z := if n <? 10 then 48 :: dec n else dec n.

(** * Lemmas *)

Lemma str_eqb_eq a b : str_eqb a b = true <-> a = b.
Proof.
  revert b; induction a as [|x a IH]; intros [|y b]; cbn; try (split; congruence).
  rewrite andb_true_iff, Z.eqb_eq, IH. split; [intros [-> ->]; done|].
  intros H; injection H as -> ->; done.
Qed.

Lemma str_eqb_refl a : str_eqb a a = true.
Proof. by apply str_eqb_eq. Qed.

Lemma strcasecmp0_eq a b : strcasecmp0 a b = true <-> (tolower <$> a) = (tolower <$> b).
Proof. apply str_eqb_eq. Qed.

Lemma tolower_idem c : tolower (tolower c) = tolower c.
Proof.
  unfold tolower, isupper. repeat case_if; zbool; lia.
Qed.

Lemma tolower_byte c : is_byte c -> is_byte (tolower c).
Proof. unfold is_byte, tolower, isupper. case_if; zbool; lia. Qed.

Lemma tolower_zero c : tolower c = 0 <-> c = 0.
Proof. unfold tolower, isupper. case_if; zbool; lia. Qed.

Lemma nonul_tolower s : nonul s -> nonul (tolower <$> s).
Proof.
  unfold nonul. rewrite Forall_fmap. intros H. eapply Forall_impl; [exact H|].
  intros c Hc. cbn. by rewrite tolower_zero.
Qed.

Lemma cstr_nonul l : nonul (cstr l).
Proof.
  induction l as [|b l IH]; cbn; [constructor|].
  case_if; constructor; zbool; auto.
Qed.

Lemma cstr_id s : nonul s -> cstr s = s.
Proof.
  induction 1 as [|c s Hc _ IH]; cbn; [done|].
  case_if; zbool; [lia|]. by rewrite IH.
Qed.

Lemma cstr_app_nul s l : nonul s -> cstr (s ++ 0 :: l) = s.
Proof.
  induction 1 as [|c s Hc _ IH]; cbn; [done|].
  case_if; zbool; [lia|]. by rewrite IH.
Qed.

Lemma cstr_len l : (length (cstr l) <= length l)%nat.
Proof. induction l as [|b l IH]; cbn; [lia|]. case_if; cbn; lia. Qed.

Lemma cstr_short l : 0 ∈ l -> zlen (cstr l) < zlen l.
Proof.
  unfold zlen. induction l as [|b l IH]; [by intros ?%elem_of_nil|]. intros Hin. cbn. case_if; zbool; cbn; [lia|].
  apply elem_of_cons in Hin as [?|Hin]; [lia|]. specialize (IH Hin). lia.
Qed.

Lemma take_cstr l k : (k <= length (cstr l))%nat -> take k l = take k (cstr l).
Proof.
  revert k; induction l as [|b l IH]; intros k Hk; [done|].
  cbn [cstr] in *. case_if; cbn in Hk; [by replace k with O by lia|].
  destruct k; [done|]. cbn. f_equal. apply IH. lia.
Qed.

Lemma cstr_bytes l : bytes l -> bytes (cstr l).
Proof.
  induction 1 as [|b l Hb _ IH]; cbn; [constructor|].
  case_if; constructor; done.
Qed.

Lemma strchr_Some s c n : strchr s c = Some n ->
  s !! n = Some c /\ Forall (fun b => b <> c) (take n s).
Proof.
  revert n; induction s as [|b s IH]; intros n; cbn; [done|].
  case_if; zbool.
  - intros; inv_comp. cbn. auto.
  - destruct (strchr s c) as [m|] eqn:E'; cbn; [|done]. intros; inv_comp.
    destruct (IH m eq_refl). cbn. split; [done|]. constructor; auto.
Qed.

Lemma strchr_None s c : strchr s c = None -> Forall (fun b => b <> c) s.
Proof.
  induction s as [|b s IH]; cbn; [constructor|].
  case_if; zbool; [done|]. destruct (strchr s c); cbn; [done|].
  constructor; auto.
Qed.

Lemma strchr_at s c r : Forall (fun b => b <> c) s -> strchr (s ++ c :: r) c = Some (length s).
Proof.
  induction 1 as [|b s Hb _ IH]; cbn.
  - by rewrite Z.eqb_refl.
  - case_if; zbool; [lia|]. by rewrite IH.
Qed.

#[export] Hint Resolve cstr_nonul nonul_tolower tolower_byte cstr_bytes : dnrd.

(** * The text of an address is short *)

Lemma length_dec_byte n : (length (dec_byte n) <= 3)%nat.
Proof. unfold dec_byte. repeat case_if; cbn; lia. Qed.

Lemma inet_ntoa_len a : zlen (inet_ntoa a) <= 15.
Proof.
  destruct a as [[[a b] c] d]. unfold inet_ntoa, zlen. rewrite !length_app. cbn [length].
  pose proof (length_dec_byte a). pose proof (length_dec_byte b).
  pose proof (length_dec_byte c). pose proof (length_dec_byte d). lia.
Qed.
