(* ===== verification/Lib.v ===== *)
(** dnrd's string helpers (src/dnrd-2.20.3/src/lib.c): case conversion,
    trimming, word splitting and the string code that keys the caches. *)
From S2P Require Import Prelude CString.

Definition strnlwr (s : list Z) (maxlen : Z) : list Z :=
  let n := Z.to_nat (maxlen + 1) in (tolower <$> take n s) ++ drop n s.

Definition strnupr (s : list Z) (maxlen : Z) : list Z :=
  let n := Z.to_nat (maxlen + 1) in (toupper <$> take n s) ++ drop n s.

Fixpoint skip_ws (s : list Z) : list Z :=
  match s with
  | c :: s' => if (c =? 32) || (c =? 9) then skip_ws s' else s
  | [] => []
  end.

(** The loop of [noctrln] walks down from [len - 1] and stores NULs. *)
Fixpoint strip_down (rs : list Z) : list Z :=
  match rs with
  | c :: rs' => if c <=? 32 then strip_down rs' else rs
  | [] => []
  end.

Definition noctrln (s : list Z) (maxlen : Z) : list Z :=
  let len := strnlen s maxlen in
  let pre := take (Z.to_nat len) s in
  let q := reverse (strip_down (reverse pre)) in
  if zlen q <? len then q else s.

Fixpoint skip_ctl (s : list Z) : list Z :=
  match s with
  | c :: s' => if c <=? 32 then skip_ctl s' else s
  | [] => []
  end.

(** The copying loop of [get_word]: [k] characters are already stored. *)
Fixpoint word_loop (s : list Z) (k maxlen : Z) : list Z * list Z :=
  match s with
  | c :: s' =>
      if (c =? 32) || (c =? 9) || (c <? 32) then (s, [])
      else if k <? maxlen
           then let '(from, w) := word_loop s' (k + 1) maxlen in (from, c :: w)
           else word_loop s' k maxlen
  | [] => ([], [])
  end.

(** Returns the advanced [*from] and the word stored in [to]. *)
Definition get_word (from : list Z) (maxlen : Z) : list Z * list Z :=
  word_loop (skip_ctl from) 0 (maxlen - 2).

Fixpoint quoted_loop (s : list Z) (delim k max : Z) : list Z * list Z :=
  match s with
  | c :: s' =>
      if c =? delim then (s', [])
      else if k <? max
           then let '(from, w) := quoted_loop s' delim (k + 1) max in (from, c :: w)
           else quoted_loop s' delim k max
  | [] => ([], [])
  end.

Definition get_quoted (from : list Z) (delim max : Z) : list Z * list Z :=
  quoted_loop from delim 0 (max - 2).

(** Returns the string stored in [y] and what is left in the source buffer
    [x], whose tail is trimmed and cut in place. *)
Definition copy_string (x : list Z) (len : Z) : list Z * list Z :=
  let z := skip_ws x in
  let skipped := zlen x - zlen z in
  let z1 := noctrln z (len + skipped) in
  let len2 := len - 2 in
  let z2 := if len2 <=? zlen z1 then take (Z.to_nat len2) z1 else z1 in
  (z2, take (Z.to_nat skipped) x ++ z2).

Fixpoint code_loop (s : list Z) (code : Z) : Z :=
  match s with
  | c :: s' =>
      let c := if isupper c then tolower c else c in
      code_loop s' (u32 (code + c))
  | [] => code
  end.

Definition get_stringcode (s : list Z) : Z :=
  u32 (Z.land (code_loop s 0) 255 + u32 (Z.shiftl (zlen s) 8)).

(** * Lemmas *)

Lemma strnlwr_all s maxlen : zlen s <= maxlen -> strnlwr s maxlen = tolower <$> s.
Proof.
  unfold strnlwr, zlen. intros H. rewrite take_ge, drop_ge by lia. apply app_nil_r.
Qed.

Lemma length_strnlwr s maxlen : length (strnlwr s maxlen) = length s.
Proof.
  unfold strnlwr. rewrite length_app, length_fmap, <- length_app.
  by rewrite take_drop.
Qed.

Lemma word_loop_len s k m : 0 <= k -> zlen (snd (word_loop s k m)) <= Z.max 0 (m - k).
Proof.
  revert k; induction s as [|c s IH]; intros k Hk; cbn; [unfold zlen; cbn; lia|].
  case_if; [unfold zlen; cbn; lia|]. case_if; zbool.
  - specialize (IH (k + 1)). destruct (word_loop s (k + 1) m).
    unfold zlen in *; cbn in *. lia.
  - apply IH. lia.
Qed.

Lemma word_loop_from s k m : exists pre, s = pre ++ fst (word_loop s k m) /\
  Forall (fun c => 32 < c) pre.
Proof.
  revert k; induction s as [|c s IH]; intros k; cbn; [exists []; auto|].
  case_if; [exists []; auto|]. zbool.
  case_if.
  - destruct (IH (k + 1)) as (p & Hp & Hf).
    destruct (word_loop s (k + 1) m); cbn in *.
    exists (c :: p). subst; split; [done|]. constructor; [lia|done].
  - destruct (IH k) as (p & Hp & Hf). exists (c :: p). cbn. split; [congruence|].
    constructor; [lia|done].
Qed.

Lemma word_loop_chars s k m : Forall (fun c => 32 < c) (snd (word_loop s k m)).
Proof.
  revert k; induction s as [|c s IH]; intros k; cbn; [constructor|].
  case_if; [constructor|]. zbool. case_if; [|apply IH].
  specialize (IH (k + 1)). destruct (word_loop s (k + 1) m); cbn in *.
  constructor; [lia|done].
Qed.

Lemma code_loop_eq s code : 0 <= code < 2 ^ 32 ->
  code_loop s code = u32 (code + foldr Z.add 0 (tolower <$> s)).
Proof.
  revert code; induction s as [|c s IH]; intros code Hc.
  - cbn [code_loop fmap list_fmap foldr]. unfold u32. by rewrite Z.add_0_r, Z.mod_small.
  - cbn [code_loop fmap list_fmap foldr]. cbv zeta. rewrite IH.
    + replace (if isupper c then tolower c else c) with (tolower c)
        by (unfold tolower; by destruct (isupper c)).
      unfold u32. rewrite Zplus_mod_idemp_l. f_equal. lia.
    + unfold u32. apply Z.mod_pos_bound. lia.
Qed.
