(* ===== verification/Dns.v ===== *)
(** DNS packets (src/dnrd-2.20.3/src/dns.c and dns.h): the header flags, the
    decompression of object names, resource records and queries.  Buffers
    are explicit and every load and store is checked, so a fault of these
    functions is a memory error of the code. *)
From S2P Require Import Prelude CString Lib.

Definition DNS_CLASS_INET : Z := 1.
Definition PACKET_DATABEGIN : Z := 12.
Definition UDP_MAXSIZE : Z := 512.
Definition RR_NAMESIZE : Z := 256.

(** * Header flags *)

Definition MASK_RCODE : Z := 0x000f.
Definition MASK_Z : Z := 0x0040.
Definition MASK_RA : Z := 0x0080.
Definition MASK_RD : Z := 0x0100.
Definition MASK_TC : Z := 0x0200.
Definition MASK_AA : Z := 0x0400.
Definition MASK_OPCODE : Z := 0xe800.
Definition MASK_QR : Z := 0x8000.

Definition GET_RCODE (x : Z) : Z := Z.land x MASK_RCODE.
Definition GET_Z (x : Z) : Z := Z.shiftr (Z.land x MASK_Z) 4.
Definition GET_RA (x : Z) : Z := Z.shiftr (Z.land x MASK_RA) 7.
Definition GET_RD (x : Z) : Z := Z.shiftr (Z.land x MASK_RD) 8.
Definition GET_TC (x : Z) : Z := Z.shiftr (Z.land x MASK_TC) 9.
Definition GET_AA (x : Z) : Z := Z.shiftr (Z.land x MASK_AA) 10.
Definition GET_OPCODE (x : Z) : Z := Z.shiftr (Z.land x MASK_OPCODE) 11.
Definition GET_QR (x : Z) : Z := Z.shiftr (Z.land x MASK_QR) 15.

(** The value a [SET_*] macro stores back into the 16-bit flags. *)
Definition set_field (mask sh x y : Z) : Z :=
  u16 (Z.lor (Z.land x (Z.lnot mask)) (Z.land (Z.shiftl y sh) mask)).
Definition SET_RCODE (x y : Z) : Z := set_field MASK_RCODE 0 x y.
Definition SET_RA (x y : Z) : Z := set_field MASK_RA 7 x y.
Definition SET_RD (x y : Z) : Z := set_field MASK_RD 8 x y.
Definition SET_TC (x y : Z) : Z := set_field MASK_TC 9 x y.
Definition SET_AA (x y : Z) : Z := set_field MASK_AA 10 x y.
Definition SET_OPCODE (x y : Z) : Z := set_field MASK_OPCODE 11 x y.
Definition SET_QR (x y : Z) : Z := set_field MASK_QR 15 x y.

(** * Data *)

(** [rr_t]; [name] and [data] are the whole 256-byte arrays. *)
Record rr_t := Rr {
  rr_flags : Z; rr_name : list Z; rr_type : Z; rr_class : Z;
  rr_ttl : Z; rr_len : Z; rr_data : list Z }.

(** [dnsheader_t]; [h_here] is the offset of [here] into [packet], and
    [h_rdata] that of [rdata], [None] for the null pointer. *)
Record dnsheader_t := Hdr {
  h_id : Z; h_u : Z; h_qdcount : Z; h_ancount : Z; h_nscount : Z; h_arcount : Z;
  h_here : Z; h_packet : list Z; h_len : Z; h_rdata : option Z }.

(** The table of the characters accepted in a label. *)
Definition init_dns (tolerant_mode : Z) (c : Z) : Z :=
  if isdigit c || isupper c || islower c || (c =? 45) then 1 else tolerant_mode.

Definition tolerant_mode : Z := 1.
Definition valid_char : Z -> Z := init_dns tolerant_mode.

(** A destination buffer together with the byte in front of it. *)
Record dest := Dest { below : Z; cells : list Z }.

(** * Decoding *)

Definition alloc_packet (packet : list Z) (len : Z) : comp (list Z) :=
  if len <=? zlen packet then Ok (take (Z.to_nat len) packet ++ [0; 0])
  else Fault ReadOOB.

Definition decode_header (packet : list Z) (len : Z) : comp dnsheader_t :=
  p ← alloc_packet packet len;
  id ← rd16 p 0; u ← rd16 p 2;
  qd ← rd16 p 4; an ← rd16 p 6; ns ← rd16 p 8; ar ← rd16 p 10;
  mret (Hdr id u (s16 qd) (s16 an) (s16 ns) (s16 ar) PACKET_DATABEGIN p len None).

Definition parse_packet (packet : list Z) (len : Z) : comp dnsheader_t :=
  decode_header packet len.

(** [while (c--)]: copies a label; [false] when a character is not valid. *)
Fixpoint copy_label (vc : Z -> Z) (msg : list Z) (c : nat) (i j : Z) (d : list Z)
  : comp (bool * list Z) :=
  match c with
  | O => Ok (true, d)
  | S c' =>
      b ← rd msg i;
      if negb (vc b =? 0)
      then d' ← wr d j b; copy_label vc msg c' (i + 1) (j + 1) d'
      else Ok (false, d)
  end.

(** [compressed ? compressed : i] *)
Definition objname_ret (compressed i : Z) : Z := if compressed =? 0 then i else compressed.

(** After the terminating zero: [--j] and the NUL; for the empty name this
    stores in front of the buffer. *)
Definition objname_finish (destsize i j compressed : Z) (d : dest) : comp (Z * dest) :=
  let j := j - 1 in
  if destsize <=? j then Ok (-1, d)
  else
    let ret := objname_ret compressed i in
    if j =? -1 then Ok (ret, Dest 0 (cells d))
    else c ← wr (cells d) j 0; mret (ret, Dest (below d) c).

Fixpoint objname_loop (fuel : nat) (vc : Z -> Z) (msg : list Z) (msgsize destsize : Z)
    (i j depth compressed : Z) (d : dest) : comp (Z * dest) :=
  match fuel with
  | O => Fault NoFuel
  | S fuel' =>
      c ← rd msg i;
      let i := i + 1 in
      if c =? 0 then objname_finish destsize i j compressed d
      else if msgsize <=? i then Ok (-1, d)
      else if Z.land c 0xc0 =? 0xc0 then
        if msgsize <=? i then Ok (-1, d)
        else
          let depth := depth + 1 in
          if (msgsize <=? depth) || (UDP_MAXSIZE <? depth) then Ok (-1, d)
          else
            let compressed := if compressed =? 0 then i + 1 else compressed in
            lo ← rd msg i;
            let i := Z.shiftl (Z.land c 0x3f) 8 + lo in
            if msgsize <=? i then Ok (-1, d)
            else objname_loop fuel' vc msg msgsize destsize i j depth compressed d
      else if c <? 64 then
        if (destsize <=? j + c + 1) || (msgsize <=? i + c) then Ok (-1, d)
        else
          '(ok, cs) ← copy_label vc msg (Z.to_nat c) i j (cells d);
          if ok : bool then
            cs ← wr cs (j + c) 46;
            objname_loop fuel' vc msg msgsize destsize (i + c) (j + c + 1) depth compressed
              (Dest (below d) cs)
          else Ok (-1, Dest (below d) cs)
      else Ok (-1, d)
  end.

(** Every round consumes destination space or pointer depth. *)
Definition objname_fuel (msgsize destsize : Z) : nat := Z.to_nat (msgsize + destsize + 2).

Definition get_objname (vc : Z -> Z) (msg : list Z) (msgsize index : Z) (d : dest)
  : comp (Z * dest) :=
  let destsize := zlen (cells d) in
  if (index <? PACKET_DATABEGIN) || (msgsize <=? index) then Ok (-1, d)
  else objname_loop (objname_fuel msgsize destsize) vc msg msgsize destsize index 0 0 0 d.

Definition malformatted : list Z := lit "(malformatted)".

(** [strncpy]: copies and pads with zeros. *)
Definition strncpy (n : nat) (src : list Z) : list Z :=
  take n (src ++ replicate n 0).

Definition snprintf_cname (msg : list Z) (msgsize index : Z) (d : dest) : comp (Z * dest) :=
  '(r, d') ← get_objname valid_char msg msgsize index d;
  if r <? 0 then Ok (-1, Dest (below d') (strncpy (length (cells d')) malformatted))
  else Ok (0, d').

(** The name field of a record with the byte in front of it: the high byte
    of [flags] on a little-endian machine. *)
Definition name_dest (y : rr_t) : dest := Dest (hi8 (rr_flags y)) (rr_name y).
Definition set_name_dest (y : rr_t) (d : dest) : rr_t :=
  Rr (below d * 256 + lo8 (rr_flags y)) (cells d) (rr_type y) (rr_class y)
     (rr_ttl y) (rr_len y) (rr_data y).

Definition read_record (x : dnsheader_t) (y : rr_t) (index question packetsize : Z)
  : comp (Z * rr_t) :=
  let p := h_packet x in
  '(i, d) ← get_objname valid_char p packetsize index (name_dest y);
  let y := set_name_dest y d in
  if (i <? 0) || (packetsize <? i + 4) then Ok (-1, y)
  else
    ty ← rd16 p i; cl ← rd16 p (i + 2);
    let y := Rr (rr_flags y) (rr_name y) ty cl (rr_ttl y) (rr_len y) (rr_data y) in
    let i := i + 4 in
    if negb (question =? 0) then Ok (i, y)
    else if packetsize <? i + 6 then Ok (-1, y)
    else
      ttl ← rd32 p i; len ← rd16 p (i + 4);
      let i := i + 6 in
      let y := Rr (rr_flags y) (rr_name y) ty cl ttl len (rr_data y) in
      if packetsize <? i + len then Ok (-1, y)
      else
        let len := if RR_NAMESIZE - 4 <? len then RR_NAMESIZE - 4 else len in
        let data := <[Z.to_nat len := 0]>
                      (blit (rr_data y) 0 (take (Z.to_nat len) (drop (Z.to_nat i) p))) in
        Ok (i + len, Rr (rr_flags y) (rr_name y) ty cl ttl len data).

(** The loops of [dump_dnspacket] over the three record sections. *)
Fixpoint dump_section (n : nat) (x : dnsheader_t) (y : rr_t) (index len : Z)
  : comp (Z * rr_t) :=
  match n with
  | O => Ok (index, y)
  | S n' =>
      '(index, y) ← read_record x y index 0 len;
      if index <? 0 then Ok (-1, y) else dump_section n' x y index len
  end.

(** What [dump_dnspacket] returns; its printing is left out. *)
Definition dump_dnspacket (opt_debug : Z) (y0 : rr_t) (packet : list Z) (len : Z) : comp Z :=
  if opt_debug <? 4 then Ok 0
  else
    x ← decode_header packet len;
    '(index, y) ← read_record x y0 PACKET_DATABEGIN 1 len;
    if index <? 0 then Ok (-1) else
    '(index, y) ← dump_section (Z.to_nat (h_ancount x)) x y index len;
    if index <? 0 then Ok (-1) else
    '(index, y) ← dump_section (Z.to_nat (h_nscount x)) x y index len;
    if index <? 0 then Ok (-1) else
    '(index, y) ← dump_section (Z.to_nat (h_arcount x)) x y index len;
    if index <? 0 then Ok (-1) else Ok 0.

(** [strlen] of a string inside a fixed array. *)
Definition strlen_buf (l : list Z) : comp Z :=
  if bool_decide (0 ∈ l) then Ok (zlen (cstr l)) else Fault ReadOOB.

(** In-place update of the string at the start of an array. *)
Definition upd_str (f : list Z -> list Z) (l : list Z) : list Z :=
  f (cstr l) ++ drop (length (cstr l)) l.

Definition chop_dot (l : list Z) (k : Z) : list Z :=
  if k =? 0 then l
  else match getb l (k - 1) with
       | Some 46 => <[Z.to_nat (k - 1) := 0]> l
       | _ => l
       end.

Definition parse_query (y : rr_t) (msg : list Z) (len : Z) : comp (Z * rr_t) :=
  qd ← rd16 msg 4;
  if qd =? 0 then Ok (-1, y)
  else
    flags ← rd16 msg 2;
    let y := Rr flags (rr_name y) (rr_type y) (rr_class y) (rr_ttl y) (rr_len y) (rr_data y) in
    '(i, d) ← get_objname valid_char msg len PACKET_DATABEGIN (name_dest y);
    let y := set_name_dest y d in
    if i <? 0 then Ok (-1, y)
    else if len <? i + 4 then Ok (-1, y)
    else
      ty ← rd16 msg i; cl ← rd16 msg (i + 2);
      k ← strlen_buf (rr_name y);
      let name := chop_dot (rr_name y) k in
      let name := upd_str (fun s => strnlwr s RR_NAMESIZE) name in
      Ok (0, Rr (rr_flags y) name ty cl (rr_ttl y) (rr_len y) (rr_data y)).

(** * Safety and termination of name decoding *)

Lemma copy_label_ok vc msg c i j d :
  0 <= i -> i + Z.of_nat c <= zlen msg -> 0 <= j -> j + Z.of_nat c <= zlen d ->
  exists ok d', copy_label vc msg c i j d = Ok (ok, d') /\ length d' = length d.
Proof.
  revert i j d; induction c as [|c IH]; intros i j d Hi Hic Hj Hjc; cbn [copy_label].
  { eauto. }
  destruct (rd_ok msg i) as (b & -> & _); [lia|]. cbn [mbind comp_bind].
  case_if; [|eauto]. rewrite wr_ok by lia. cbn [mbind comp_bind].
  destruct (IH (i + 1) (j + 1) (<[Z.to_nat j:=b]> d)) as (ok & d' & -> & Hd');
    unfold zlen in *; rewrite ?length_insert in *; try lia.
  exists ok, d'. split; [done|lia].
Qed.

(** What a decoder may leave behind: the error leaves [below] alone, and a
    success that changed [below] found the empty name. *)
Definition objname_post (msgsize : Z) (d : dest) (r : Z) (d' : dest) : Prop :=
  length (cells d') = length (cells d) /\
  ((r = -1 /\ below d' = below d) \/
   (0 < r <= msgsize /\ below d' = below d /\ 0 ∈ cells d') \/
   (0 < r <= msgsize /\ d' = Dest 0 (cells d))).

Lemma objname_post_err msgsize d : objname_post msgsize d (-1) d.
Proof. split; auto. Qed.
#[local] Hint Resolve objname_post_err : dnrd.

Lemma objname_finish_ok msgsize d d0 i j compressed :
  0 < i <= msgsize -> 0 <= j -> 0 <= compressed <= msgsize ->
  length (cells d) = length (cells d0) -> below d = below d0 ->
  (j = 0 -> d = d0) ->
  exists r d', objname_finish (zlen (cells d)) i j compressed d = Ok (r, d') /\
    objname_post msgsize d0 r d'.
Proof.
  intros Hi Hj Hc Hl Hb H0. unfold objname_finish, objname_post.
  case_if; zbool; [do 2 eexists; split; [done|]; auto|].
  assert (0 < objname_ret compressed i <= msgsize)
    by (unfold objname_ret; case_if; zbool; lia).
  case_if; zbool.
  - rewrite (H0 ltac:(lia)). do 2 eexists; split; [done|]. auto.
  - rewrite wr_ok by lia. cbn. do 2 eexists; split; [done|]. cbn.
    rewrite length_insert. split; [done|]. right; left. split; [lia|]. split; [done|].
    apply list_elem_of_insert. unfold zlen in *. lia.
Qed.

Section objname_safety.
Context (vc : Z -> Z) (msg : list Z) (msgsize : Z).
Hypothesis Hmsg : bytes msg.
Hypothesis Hsize : msgsize <= zlen msg.

Lemma pointer_nonneg c lo : is_byte c -> is_byte lo -> 0 <= Z.shiftl (Z.land c 0x3f) 8 + lo.
Proof.
  unfold is_byte. intros Hc Hlo.
  assert (0 <= Z.land c 0x3f) by (apply Z.land_nonneg; lia).
  rewrite Z.shiftl_mul_pow2 by lia. lia.
Qed.

Lemma objname_loop_ok fuel i j depth compressed d d0 :
  0 <= i < msgsize -> 0 <= j <= zlen (cells d) -> 0 <= depth ->
  0 <= compressed <= msgsize ->
  length (cells d) = length (cells d0) -> below d = below d0 -> (j = 0 -> d = d0) ->
  Z.max 0 (msgsize - depth) + (zlen (cells d) - j) < Z.of_nat fuel ->
  exists r d', objname_loop fuel vc msg msgsize (zlen (cells d)) i j depth compressed d
      = Ok (r, d') /\ objname_post msgsize d0 r d'.
Proof.
  revert i j depth compressed d.
  induction fuel as [|fuel IH]; intros i j depth compressed d Hi Hj Hdep Hc Hl Hb H0 Hfuel;
    [lia|].
  assert (Herr : objname_post msgsize d0 (-1) d)
    by (unfold objname_post; rewrite Hl, Hb; auto).
  cbn [objname_loop].
  destruct (rd_ok msg i) as (c & Hrd & _); [lia|].
  pose proof (rd_byte _ _ _ Hmsg Hrd) as Hcb. rewrite Hrd. cbn [mbind comp_bind].
  case_if; zbool; [apply objname_finish_ok; auto; lia|].
  case_if; zbool; [eauto|].
  case_if; zbool.
  - case_if; zbool; eauto; [].
    destruct (rd_ok msg (i + 1)) as (lo & Hlo & _); [lia|]. rewrite Hlo. cbn [mbind comp_bind].
    pose proof (pointer_nonneg c lo Hcb (rd_byte _ _ _ Hmsg Hlo)).
    case_if; zbool; [eauto|].
    apply IH; auto; try lia. case_if; zbool; lia.
  - case_if; zbool; [|eauto]. unfold is_byte in Hcb.
    case_if; zbool; eauto; [].
    destruct (copy_label_ok vc msg (Z.to_nat c) (i + 1) j (cells d)) as (ok & cs & -> & Hcs);
      try lia. cbn [mbind comp_bind].
    destruct ok; [|do 2 eexists; split; [done|]; unfold objname_post; cbn; rewrite Hcs, Hl; auto].
    assert (zlen cs = zlen (cells d)) as Hz by (unfold zlen; lia).
    rewrite wr_ok by lia. cbn [mbind comp_bind].
    set (d1 := Dest (below d) (<[Z.to_nat (j + c):=46]> cs)).
    assert (zlen (cells d1) = zlen (cells d)) as Hz1
      by (unfold zlen, d1; cbn; rewrite length_insert; lia).
    rewrite <- Hz1. apply IH; unfold zlen in *; auto; lia.
Qed.

(** [get_objname] reads only inside the first [msgsize] bytes, stores only
    inside the destination or, for the empty name, one byte in front of it,
    and always returns. *)
Lemma get_objname_ok index d :
  exists r d', get_objname vc msg msgsize index d = Ok (r, d') /\ objname_post msgsize d r d'.
Proof.
  unfold get_objname, PACKET_DATABEGIN. case_if; zbool; eauto with dnrd.
  apply objname_loop_ok; auto; unfold objname_fuel, zlen in *; lia.
Qed.
End objname_safety.

(** * Wire format of names *)

Definition encode_labels (ls : list (list Z)) : list Z :=
  concat ((fun l => zlen l :: l) <$> ls) ++ [0].

Definition dotted (ls : list (list Z)) : list Z := concat ((fun l => l ++ [46]) <$> ls).

(** The printable name: the labels separated by dots. *)
Definition join_dots (ls : list (list Z)) : list Z :=
  take (length (dotted ls) - 1) (dotted ls).

Definition wf_label (l : list Z) : Prop :=
  0 < zlen l < 64 /\ Forall (fun c => c <> 0 /\ c <> 46) l.

#[export] Instance wf_label_dec l : Decision (wf_label l).
Proof. unfold wf_label. apply _. Defined.

Lemma copy_label_all vc pre l post j d :
  Forall (fun c => vc c <> 0) l -> 0 <= j -> j + zlen l <= zlen d ->
  copy_label vc (pre ++ l ++ post) (length l) (zlen pre) j d = Ok (true, blit d (Z.to_nat j) l).
Proof.
  revert pre j d; induction l as [|b l IH]; intros pre j d Hv Hj Hl; cbn [length copy_label app].
  { by rewrite blit_nil. }
  inversion_clear Hv as [|? ? Hb Hv']. rewrite rd_at. cbn [mbind comp_bind].
  rewrite zlen_cons in Hl. pose proof (zlen_nonneg l).
  case_if; [|zbool; congruence]. rewrite wr_ok by lia. cbn [mbind comp_bind].
  replace (pre ++ b :: l ++ post) with ((pre ++ [b]) ++ l ++ post) by (by rewrite <- app_assoc).
  replace (zlen pre + 1) with (zlen (pre ++ [b])) by (rewrite zlen_app; done).
  rewrite IH; [|done|lia|unfold zlen in *; rewrite length_insert; lia].
  replace (Z.to_nat (j + 1)) with (S (Z.to_nat j)) by lia.
  rewrite blit_cons by (unfold zlen in *; lia). done.
Qed.

Lemma insert_blit d j s v : (j + length s < length d)%nat ->
  <[(j + length s)%nat := v]> (blit d j s) = blit d j (s ++ [v]).
Proof.
  intros H. rewrite <- blit_blit by (cbn; lia).
  rewrite <- (blit_cons _ _ _ []) by (rewrite length_blit; lia).
  by rewrite blit_nil.
Qed.

Lemma encode_labels_pos ls : 0 < zlen (encode_labels ls).
Proof.
  unfold encode_labels. rewrite zlen_app. change (zlen [0]) with 1.
  pose proof (zlen_nonneg (concat ((fun l => zlen l :: l) <$> ls))). lia.
Qed.

Section decode.
Context (vc : Z -> Z) (Hvc : forall c, vc c <> 0).

Lemma objname_loop_decode ls : forall fuel pre post msgsize j depth compressed d,
  Forall wf_label ls ->
  0 <= j -> j + zlen (dotted ls) < zlen (cells d) -> 0 < j + zlen (dotted ls) ->
  zlen pre + zlen (encode_labels ls) <= msgsize ->
  (length ls < fuel)%nat ->
  objname_loop fuel vc (pre ++ encode_labels ls ++ post) msgsize (zlen (cells d))
    (zlen pre) j depth compressed d
  = Ok (objname_ret compressed (zlen pre + zlen (encode_labels ls)),
        Dest (below d)
          (<[Z.to_nat (j + zlen (dotted ls) - 1) := 0]> (blit (cells d) (Z.to_nat j) (dotted ls)))).
Proof.
  induction ls as [|l ls IH]; intros fuel pre post msgsize j depth compressed d Hwf Hj Hfit Hpos Hsz Hf;
    (destruct fuel as [|fuel]; [cbn in Hf; lia|]).
  - change (encode_labels []) with [0] in *. change (dotted []) with (@nil Z) in *.
    rewrite zlen_nil, Z.add_0_r in *. rewrite blit_nil.
    cbn [objname_loop app]. rewrite rd_at. cbn [mbind comp_bind Z.eqb].
    unfold objname_finish. case_if; zbool; [lia|].
    case_if; zbool; [lia|]. by rewrite wr_ok by lia.
  - inversion_clear Hwf as [|? ? [Hlen Hch] Hwf'].
    assert (encode_labels (l :: ls) = (zlen l :: l) ++ encode_labels ls) as He
      by (unfold encode_labels; cbn [fmap list_fmap concat]; by rewrite <- app_assoc).
    assert (dotted (l :: ls) = (l ++ [46]) ++ dotted ls) as Hd by done.
    rewrite He, Hd in *. rewrite !zlen_app, zlen_cons, zlen_nil in *.
    pose proof (encode_labels_pos ls). pose proof (zlen_nonneg (dotted ls)).
    rewrite <- app_assoc. cbn [app objname_loop]. rewrite rd_at. cbn [mbind comp_bind].
    repeat (case_if; zbool; try lia; try (rewrite land_63 in * by lia; lia)).
    replace (pre ++ zlen l :: l ++ encode_labels ls ++ post)
      with ((pre ++ [zlen l]) ++ l ++ (encode_labels ls ++ post)) by (by rewrite <- app_assoc).
    replace (zlen pre + 1) with (zlen (pre ++ [zlen l])) by (by rewrite zlen_app).
    replace (Z.to_nat (zlen l)) with (length l) by (unfold zlen; lia).
    rewrite copy_label_all; [|by apply Forall_forall; auto|lia|lia]. cbn [mbind comp_bind].
    assert (length (blit (cells d) (Z.to_nat j) l) = length (cells d)) as Hbl
      by (apply length_blit; unfold zlen in *; lia).
    rewrite wr_ok by (unfold zlen in *; lia). cbn [mbind comp_bind].
    replace (Z.to_nat (j + zlen l)) with (Z.to_nat j + length l)%nat by (unfold zlen; lia).
    rewrite insert_blit by (unfold zlen in *; lia).
    set (d1 := Dest (below d) (blit (cells d) (Z.to_nat j) (l ++ [46]))).
    assert (zlen (cells d1) = zlen (cells d)) as Hz
      by (unfold zlen, d1; cbn; rewrite length_blit; [done|rewrite length_app; cbn; unfold zlen in *; lia]).
    replace ((pre ++ [zlen l]) ++ l ++ encode_labels ls ++ post)
      with ((pre ++ [zlen l] ++ l) ++ encode_labels ls ++ post) by (by rewrite <- !app_assoc).
    replace (zlen (pre ++ [zlen l]) + zlen l) with (zlen (pre ++ [zlen l] ++ l))
      by (rewrite !zlen_app; lia).
    rewrite <- Hz. rewrite IH; try done; rewrite ?Hz, ?zlen_app, ?zlen_cons, ?zlen_nil; try (cbn in Hf; lia).
    subst d1. cbn [below cells].
    replace (Z.to_nat (j + zlen l + 1)) with (Z.to_nat j + length (l ++ [46%Z]))%nat
      by (rewrite length_app; cbn; unfold zlen; lia).
    rewrite blit_blit by (rewrite length_app; cbn; unfold zlen in *; lia).
    change (zlen (@nil Z)) with 0 in |- *. f_equal. f_equal; [f_equal; lia|]. do 2 f_equal. lia.
Qed.
End decode.

Section decode_name.
Context (vc : Z -> Z) (Hvc : forall c, vc c <> 0).

Lemma dotted_nonempty ls : ls <> [] -> Forall wf_label ls -> 0 < zlen (dotted ls).
Proof.
  destruct ls as [|l ls]; [done|]. intros _ _. change (dotted (l :: ls)) with ((l ++ [46]) ++ dotted ls).
  rewrite !zlen_app. change (zlen [46]) with 1.
  pose proof (zlen_nonneg l). pose proof (zlen_nonneg (dotted ls)). lia.
Qed.

Lemma dotted_len ls : zlen (dotted ls) + 1 = zlen (encode_labels ls).
Proof.
  unfold dotted, encode_labels. rewrite zlen_app. change (zlen [0]) with 1.
  induction ls as [|l ls IH]; [done|]. cbn [fmap list_fmap concat].
  zlens. lia.
Qed.

Lemma dotted_nonul ls : Forall wf_label ls -> nonul (dotted ls).
Proof.
  unfold nonul, dotted. induction 1 as [|l ls [_ Hl] _ IH]; cbn [fmap list_fmap concat]; [constructor|].
  apply Forall_app; split; [|done]. apply Forall_app; split; [|by constructor].
  eapply Forall_impl; [exact Hl|]. intros c [Hc _]. exact Hc.
Qed.

(** What the destination holds after a name was decoded into it. *)
Lemma cstr_decoded ls cs : ls <> [] -> Forall wf_label ls -> zlen (dotted ls) < zlen cs ->
  cstr (<[Z.to_nat (0 + zlen (dotted ls) - 1) := 0]> (blit cs (Z.to_nat 0) (dotted ls)))
  = join_dots ls.
Proof.
  intros Hne Hwf Hlen. pose proof (dotted_nonempty ls Hne Hwf).
  rewrite blit_all by (unfold zlen in *; lia).
  rewrite insert_take_drop by (rewrite length_app, length_drop; unfold zlen in *; lia).
  rewrite take_app_le by (unfold zlen in *; lia).
  unfold join_dots.
  replace (Z.to_nat (0 + zlen (dotted ls) - 1)) with (length (dotted ls) - 1)%nat
    by (unfold zlen; lia).
  apply cstr_app_nul. unfold nonul. apply Forall_take, dotted_nonul, Hwf.
Qed.

Lemma labels_le_dotted ls : (length ls <= length (dotted ls))%nat.
Proof.
  unfold dotted. induction ls as [|l ls IH]; [done|]. cbn [fmap list_fmap concat length].
  rewrite !length_app. cbn [length]. lia.
Qed.

Lemma get_objname_plain ls pre post msgsize d :
  ls <> [] -> Forall wf_label ls -> zlen (dotted ls) < zlen (cells d) ->
  PACKET_DATABEGIN <= zlen pre -> zlen pre + zlen (encode_labels ls) <= msgsize ->
  exists cs, get_objname vc (pre ++ encode_labels ls ++ post) msgsize (zlen pre) d
    = Ok (zlen pre + zlen (encode_labels ls), Dest (below d) cs) /\
    cstr cs = join_dots ls /\ length cs = length (cells d).
Proof.
  intros Hne Hwf Hlen Hpre Hsz. pose proof (dotted_nonempty ls Hne Hwf).
  pose proof (encode_labels_pos ls).
  unfold get_objname. case_if; zbool; try lia.
  rewrite objname_loop_decode; try done; try lia.
  - eexists; split; [done|]. split; [by apply cstr_decoded|].
    rewrite length_insert, length_blit; unfold zlen in *; [done|lia].
  - pose proof (labels_le_dotted ls). unfold objname_fuel, zlen in *. lia.
Qed.

(** A compression pointer: two bytes, the top bits of the first one set. *)
Definition pointer_to (p : Z) : list Z := [0xc0 + p / 256; p `mod` 256].

Lemma pointer_value p : 0 <= p < 2 ^ 14 ->
  Z.land (0xc0 + p / 256) 0xc0 = 0xc0 /\
  Z.shiftl (Z.land (0xc0 + p / 256) 0x3f) 8 + p `mod` 256 = p.
Proof.
  intros Hp. assert (0 <= p / 256 < 64) as Hq
    by (split; [apply Z.div_pos; lia|apply Z.div_lt_upper_bound; lia]).
  assert (0xc0 + p / 256 = Z.lor 0xc0 (p / 256)) as Hor.
  { assert (Z.land 0xc0 (p / 256) = 0) as Hz by (rewrite Z.land_comm; apply land_63; lia).
    rewrite <- Z.lxor_lor by exact Hz. apply Z.add_nocarry_lxor, Hz. }
  split.
  - rewrite Hor, Z.land_lor_distr_l, (land_63 (p / 256)) by lia. done.
  - rewrite Hor, Z.land_lor_distr_l. change (Z.land 0xc0 0x3f) with 0.
    rewrite Z.lor_0_l. change 0x3f with (Z.ones 6). rewrite Z.land_ones by lia.
    rewrite (Z.mod_small (p / 256)) by lia. rewrite Z.shiftl_mul_pow2 by lia.
    change (2 ^ 8) with 256. pose proof (Z.div_mod p 256). lia.
Qed.

(** One round of the loop on a pointer. *)
Lemma objname_loop_pointer fuel msg msgsize destsize i p depth d pre post :
  msg = pre ++ pointer_to p ++ post -> i = zlen pre -> 0 <= p < 2 ^ 14 -> p < msgsize ->
  i + 1 < msgsize -> depth + 1 < msgsize -> depth + 1 <= UDP_MAXSIZE ->
  forall compressed j,
  objname_loop (S fuel) vc msg msgsize destsize i j depth compressed d
  = objname_loop fuel vc msg msgsize destsize p j (depth + 1)
      (if compressed =? 0 then i + 2 else compressed) d.
Proof.
  intros Hmsg Hpre Hp Hpm Hi Hd Hu compressed j.
  destruct (pointer_value p Hp) as [Hbits Hval].
  assert (rd msg i = Ok (0xc0 + p / 256)) as H1 by (subst; apply rd_at).
  assert (rd msg (i + 1) = Ok (p `mod` 256)) as H2.
  { subst. unfold pointer_to. cbn [app].
    replace (pre ++ 0xc0 + p / 256 :: p `mod` 256 :: post)
      with ((pre ++ [0xc0 + p / 256]) ++ p `mod` 256 :: post) by (by rewrite <- app_assoc).
    replace (zlen pre + 1) with (zlen (pre ++ [0xc0 + p / 256])) by (by rewrite zlen_app).
    apply rd_at. }
  cbn [objname_loop]. rewrite H1, H2. cbn [mbind comp_bind]. rewrite Hbits, Hval.
  pose proof (Z.div_pos p 256).
  case_if; zbool; [lia|]. case_if; zbool; [lia|]. rewrite Z.eqb_refl.
  case_if; zbool; try lia. case_if; zbool; [lia|].
  by rewrite <- (Z.add_assoc i).
Qed.
End decode_name.

Lemma self_pointer_loop vc fuel msg msgsize destsize i d r d' lo c :
  rd msg i = Ok c -> rd msg (i + 1) = Ok lo -> c <> 0 -> Z.land c 0xc0 = 0xc0 ->
  Z.shiftl (Z.land c 0x3f) 8 + lo = i ->
  forall j depth compressed,
  objname_loop fuel vc msg msgsize destsize i j depth compressed d = Ok (r, d') -> r = -1.
Proof.
  intros H1 H2 Hc Hb Hi. induction fuel as [|fuel IH]; intros j depth compressed; [done|].
  cbn [objname_loop]. rewrite H1, H2. cbn [mbind comp_bind]. rewrite Hb, Hi.
  apply Z.eqb_neq in Hc. rewrite Hc, Z.eqb_refl.
  case_if; [intros; by inv_comp|]. case_if; [intros; by inv_comp|].
  case_if; [intros; by inv_comp|]. apply IH.
Qed.

Lemma strlen_buf_ok l : 0 ∈ l -> strlen_buf l = Ok (zlen (cstr l)).
Proof. intros H. unfold strlen_buf. by rewrite bool_decide_true. Qed.

Lemma rd16_ok l i : bytes l -> 0 <= i -> i + 2 <= zlen l ->
  exists z, rd16 l i = Ok z /\ is_u16 z.
Proof.
  intros Hb Hi Hl. unfold rd16.
  destruct (rd_ok l i) as (a & Ha & _); [lia|]. destruct (rd_ok l (i + 1)) as (b & Hb' & _); [lia|].
  rewrite Ha, Hb'. cbn. eexists; split; [done|]. eauto with dnrd.
Qed.

Lemma chop_dot_spec l : cstr (chop_dot l (zlen (cstr l))) `prefix_of` cstr l.
Proof.
  unfold chop_dot. case_if; [done|]. zbool. pose proof (zlen_nonneg (cstr l)).
  unfold getb. case_if; [|done]. zbool.
  destruct (l !! Z.to_nat (zlen (cstr l) - 1)) as [b|] eqn:Hl; [|done].
  assert (cstr (<[Z.to_nat (zlen (cstr l) - 1) := 0]> l) `prefix_of` cstr l) as Hp.
  { apply lookup_lt_Some in Hl. rewrite insert_take_drop by done.
    set (k := Z.to_nat (zlen (cstr l) - 1)) in *.
    rewrite take_cstr by (unfold k, zlen in *; lia).
    rewrite cstr_app_nul; [apply prefix_take|apply Forall_take, cstr_nonul]. }
  destruct b as [|b|]; try done. do 6 (destruct b as [b|b|]; try done).
Qed.

Lemma upd_str_cstr f l : 0 ∈ l -> nonul (f (cstr l)) -> cstr (upd_str f l) = f (cstr l).
Proof.
  intros H0 Hf. unfold upd_str.
  assert (exists r, drop (length (cstr l)) l = 0 :: r) as [r ->].
  { clear Hf. induction l as [|b l IH]; [by apply not_elem_of_nil in H0|].
    cbn [cstr]. case_if; zbool; [subst; cbn; eauto|]. cbn [length drop].
    apply IH. apply elem_of_cons in H0 as [?|?]; [congruence|done]. }
  by apply cstr_app_nul.
Qed.

Lemma elem_0_chop l k : 0 ∈ l -> 0 ∈ chop_dot l k.
Proof.
  intros H. unfold chop_dot. case_if; [done|]. unfold getb. case_if; [|done].
  destruct (l !! Z.to_nat (k - 1)) as [b|] eqn:Hl; [|done].
  assert (0 ∈ <[Z.to_nat (k - 1) := 0]> l)
    by (apply list_elem_of_insert; by apply lookup_lt_Some in Hl).
  destruct b as [|b|]; try done. do 6 (destruct b as [b|b|]; try done).
Qed.

Lemma elem_0_upd f l : 0 ∈ l -> 0 ∈ upd_str f l.
Proof.
  intros H. unfold upd_str. apply elem_of_app. right.
  induction l as [|b l IH]; [by apply not_elem_of_nil in H|].
  cbn [cstr]. case_if; zbool; [subst; cbn; by left|]. cbn.
  apply elem_of_cons in H as [?|?]; [congruence|auto].
Qed.

Lemma length_chop_dot l k : length (chop_dot l k) = length l.
Proof.
  unfold chop_dot. case_if; [done|]. destruct (getb l (k - 1)) as [b|]; [|done].
  destruct b as [|b|]; try done. do 6 (destruct b as [b|b|]; try done).
  apply length_insert.
Qed.

Lemma length_upd_strnlwr l n : length (upd_str (fun s => strnlwr s n) l) = length l.
Proof.
  unfold upd_str. rewrite length_app, length_strnlwr, length_drop.
  pose proof (cstr_len l). lia.
Qed.

(** What a successful [parse_query] promises about its record. *)
Definition query_wf (y : rr_t) : Prop :=
  is_u16 (rr_flags y) /\ is_u16 (rr_type y) /\ is_u16 (rr_class y) /\
  zlen (rr_name y) = RR_NAMESIZE /\ 0 ∈ rr_name y /\
  (tolower <$> cstr (rr_name y)) = cstr (rr_name y).

Lemma lower_name l : zlen l = RR_NAMESIZE -> 0 ∈ l ->
  cstr (upd_str (fun s => strnlwr s RR_NAMESIZE) l) = tolower <$> cstr l.
Proof.
  intros Hl H0. assert (strnlwr (cstr l) RR_NAMESIZE = tolower <$> cstr l) as Hs.
  { apply strnlwr_all. pose proof (cstr_len l). unfold zlen in *. lia. }
  rewrite upd_str_cstr by (rewrite ?Hs; auto with dnrd). done.
Qed.

Lemma fmap_lower_idem (s : list Z) : tolower <$> (tolower <$> s) = tolower <$> s.
Proof. rewrite <- list_fmap_compose. apply list_fmap_ext. intros. apply tolower_idem. Qed.

Lemma parse_query_ok y msg len :
  bytes msg -> 12 <= len <= zlen msg -> zlen (rr_name y) = RR_NAMESIZE -> 0 ∈ rr_name y ->
  exists r y', parse_query y msg len = Ok (r, y') /\ (r = 0 \/ r = -1) /\
    zlen (rr_name y') = RR_NAMESIZE /\ (r = 0 -> query_wf y').
Proof.
  intros Hb Hlen Hn H0. unfold parse_query.
  assert (Herr : forall y', zlen (rr_name y') = RR_NAMESIZE -> exists r y'',
    Ok (-1, y') = Ok (r, y'') /\ (r = 0 \/ r = -1) /\
    zlen (rr_name y'') = RR_NAMESIZE /\ (r = 0 -> query_wf y''))
    by (intros y' Hy'; exists (-1), y'; repeat split; try done; by right).
  destruct (rd16_ok msg 4) as (qd & -> & _); [done|lia|lia|]. cbn [mbind comp_bind].
  case_if; [by apply Herr|]. destruct (rd16_ok msg 2) as (fl & -> & Hfl); [done|lia|lia|].
  cbn [mbind comp_bind].
  set (y1 := Rr fl (rr_name y) _ _ _ _ _).
  destruct (get_objname_ok valid_char msg len Hb ltac:(lia) PACKET_DATABEGIN (name_dest y1))
    as (i & d & -> & Hlend & Hpost). cbn [mbind comp_bind].
  cbn [cells name_dest y1 rr_name] in Hlend.
  assert (zlen (cells d) = RR_NAMESIZE) as Hz by (unfold zlen in *; congruence).
  case_if; zbool; [by apply Herr|]. case_if; zbool; [by apply Herr|].
  destruct Hpost as [[? _]|Hpost]; [lia|].
  assert (0 ∈ cells d /\ 0 <= below d < 256 /\ 0 < i <= len) as (H0d & Hbel & Hi).
  { destruct Hpost as [(? & -> & ?)|[? ->]]; cbn; split_and!; try done; try lia;
      pose proof (hi8_byte fl); unfold is_byte in *; cbn; lia. }
  destruct (rd16_ok msg i) as (ty & -> & Hty); [done|lia|lia|]. cbn [mbind comp_bind].
  destruct (rd16_ok msg (i + 2)) as (cl & -> & Hcl); [done|lia|lia|]. cbn [mbind comp_bind].
  cbn [set_name_dest rr_name rr_flags y1]. rewrite strlen_buf_ok by done. cbn [mbind comp_bind].
  set (nm := chop_dot (cells d) _).
  assert (0 ∈ nm) by (by apply elem_0_chop).
  assert (zlen nm = RR_NAMESIZE) by (unfold zlen, nm in *; by rewrite length_chop_dot).
  do 2 eexists; split; [done|]. split; [auto|].
  assert (zlen (upd_str (fun s => strnlwr s RR_NAMESIZE) nm) = RR_NAMESIZE)
    by (unfold zlen in *; by rewrite length_upd_strnlwr).
  split; [done|]. intros _. unfold query_wf. cbn [rr_flags rr_name rr_type rr_class].
  split; [unfold is_u16; pose proof (lo8_byte fl); unfold is_byte in *; lia|].
  do 3 (split; [done|]). split; [by apply elem_0_upd|].
  rewrite lower_name by done. apply fmap_lower_idem.
Qed.

Lemma dotted_snoc ls l : dotted (ls ++ [l]) = (dotted ls ++ l) ++ [46].
Proof.
  unfold dotted. rewrite fmap_app, concat_app. cbn. by rewrite app_nil_r, app_assoc.
Qed.

Lemma join_dots_snoc ls l : join_dots (ls ++ [l]) = dotted ls ++ l.
Proof.
  unfold join_dots. rewrite dotted_snoc, length_app. cbn [length].
  replace (length (dotted ls ++ l) + 1 - 1)%nat with (length (dotted ls ++ l)) by lia.
  apply take_app_length.
Qed.

Lemma join_dots_last ls : ls <> [] -> Forall wf_label ls -> last (join_dots ls) <> Some 46.
Proof.
  intros Hne Hwf. destruct (exists_last Hne) as (ls' & l & ->).
  apply Forall_app in Hwf as [_ Hl]. inversion_clear Hl as [|? ? [Hlen Hch] _].
  rewrite join_dots_snoc, last_app. destruct (last l) as [c|] eqn:Hc.
  - rewrite last_lookup in Hc. intros [= ->]. eapply Forall_lookup_1 in Hch; [|done].
    by destruct Hch.
  - apply last_None in Hc. subst. change (zlen (@nil Z)) with 0 in Hlen. lia.
Qed.

Lemma chop_dot_id l : last (cstr l) <> Some 46 -> chop_dot l (zlen (cstr l)) = l.
Proof.
  intros Hlast. unfold chop_dot. case_if; [done|]. unfold getb. case_if; [|done]. zbool.
  replace (l !! Z.to_nat (zlen (cstr l) - 1)) with (last (cstr l)).
  - destruct (last (cstr l)) as [b|]; [|done]. destruct b as [|b|]; try done.
    do 6 (destruct b as [b|b|]; try done).
  - rewrite last_lookup. unfold zlen in *.
    rewrite <- (lookup_take_lt l (length (cstr l))) by lia.
    rewrite take_cstr, take_ge by lia. f_equal. lia.
Qed.

Lemma rd_app_l l k i b : rd l i = Ok b -> rd (l ++ k) i = Ok b.
Proof.
  unfold rd, getb. case_if; [|done]. destruct (l !! Z.to_nat i) eqn:Hl; cbn; [|done].
  intros ?; inv_comp. by rewrite (lookup_app_l_Some _ _ _ _ Hl).
Qed.

Lemma rd16_app_l l k i z : rd16 l i = Ok z -> rd16 (l ++ k) i = Ok z.
Proof.
  unfold rd16. destruct (rd l i) eqn:H1; cbn; [|done].
  destruct (rd l (i + 1)) eqn:H2; cbn; [|done]. intros; inv_comp.
  by rewrite (rd_app_l _ _ _ _ H1), (rd_app_l _ _ _ _ H2).
Qed.

Lemma rd16_app_r l k i : 0 <= i -> rd16 (l ++ k) (zlen l + i) = rd16 k i.
Proof.
  intros H. unfold rd16. rewrite <- Z.add_assoc, !rd_app_r by lia. done.
Qed.

Lemma hi_lo fl : is_u16 fl -> hi8 fl * 256 + lo8 fl = fl.
Proof. apply be16_split. Qed.

(** A query with one well-formed question parses to that question. *)
Lemma parse_query_question y hdr ls ty cl fl qd rest len :
  length hdr = 12%nat -> rd16 hdr 2 = Ok fl -> is_u16 fl -> rd16 hdr 4 = Ok qd -> qd <> 0 ->
  ls <> [] -> Forall wf_label ls -> zlen (dotted ls) < RR_NAMESIZE ->
  zlen (rr_name y) = RR_NAMESIZE -> is_u16 ty -> is_u16 cl ->
  12 + zlen (encode_labels ls) + 4 <= len ->
  exists y', parse_query y
      (hdr ++ encode_labels ls ++ [hi8 ty; lo8 ty; hi8 cl; lo8 cl] ++ rest) len = Ok (0, y') /\
    cstr (rr_name y') = tolower <$> join_dots ls /\
    rr_flags y' = fl /\ rr_type y' = ty /\ rr_class y' = cl.
Proof.
  intros Hh Hfl Hflu Hqd Hqn Hne Hwf Hdl Hnm Hty Hcl Hlen.
  assert (zlen hdr = 12) as Hz by (unfold zlen; rewrite Hh; done).
  unfold parse_query. rewrite (rd16_app_l _ _ _ _ Hqd). cbn [mbind comp_bind].
  apply Z.eqb_neq in Hqn. rewrite Hqn, (rd16_app_l _ _ _ _ Hfl). cbn [mbind comp_bind].
  set (y1 := Rr fl (rr_name y) _ _ _ _ _). set (q := [hi8 ty; _; _; _]).
  assert (forall c, valid_char c <> 0) as Hvc
    by (intros c; unfold valid_char, init_dns; by case_if).
  destruct (get_objname_plain valid_char Hvc ls hdr (q ++ rest) len (name_dest y1))
    as (cs & Hget & Hcs & Hlcs); try done;
    [by cbn [name_dest cells y1 rr_name]; rewrite Hnm|unfold PACKET_DATABEGIN; lia|lia|].
  change PACKET_DATABEGIN with 12. rewrite Hz in Hget. rewrite Hget. cbn [mbind comp_bind].
  pose proof (encode_labels_pos ls).
  case_if; zbool; [lia|]. case_if; zbool; [lia|].
  rewrite app_assoc. replace (12 + zlen (encode_labels ls)) with (zlen (hdr ++ encode_labels ls) + 0)
    by (rewrite zlen_app; lia).
  rewrite <- (Z.add_assoc _ 0 2), !rd16_app_r by lia.
  assert (rd16 (q ++ rest) 0 = Ok ty) as ->
    by (transitivity (Ok (be16 (hi8 ty) (lo8 ty))); [done|by rewrite be16_split]).
  assert (rd16 (q ++ rest) (0 + 2) = Ok cl) as ->
    by (transitivity (Ok (be16 (hi8 cl) (lo8 cl))); [done|by rewrite be16_split]).
  cbn [mbind comp_bind].
  assert (0 ∈ cs) as H0.
  { destruct (decide (0 ∈ cs)) as [|Hn]; [done|]. exfalso.
    assert (cstr cs = cs) as Hid by (apply cstr_id, Forall_forall; by intros x Hx ->).
    assert (zlen cs = RR_NAMESIZE) as Hzc
      by (cbn [name_dest cells y1 rr_name] in Hlcs; unfold zlen in *; congruence).
    rewrite Hid in Hcs. rewrite Hcs in Hzc. unfold join_dots, zlen in *.
    rewrite length_take in Hzc. unfold RR_NAMESIZE in *. lia. }
  cbn [set_name_dest rr_name rr_flags cells below y1].
  rewrite strlen_buf_ok by done. cbn [mbind comp_bind].
  rewrite chop_dot_id by (rewrite Hcs; by apply join_dots_last).
  eexists; split; [done|]. cbn [rr_name rr_flags rr_type rr_class].
  rewrite lower_name; [|cbn [name_dest cells y1 rr_name] in Hlcs; unfold zlen in *; congruence|done].
  rewrite Hcs. split; [done|]. split; [|done]. by apply hi_lo.
Qed.

(** The empty name: one zero byte. *)
Lemma get_objname_root vc pre post msgsize d :
  PACKET_DATABEGIN <= zlen pre < msgsize ->
  get_objname vc (pre ++ 0 :: post) msgsize (zlen pre) d = Ok (zlen pre + 1, Dest 0 (cells d)).
Proof.
  intros H. unfold get_objname. case_if; zbool; try lia. pose proof (zlen_nonneg (cells d)).
  replace (objname_fuel msgsize (zlen (cells d)))
    with (S (Z.to_nat (msgsize + zlen (cells d) + 1)))
    by (unfold objname_fuel, PACKET_DATABEGIN in *; lia).
  cbn [objname_loop]. rewrite rd_at. cbn [mbind comp_bind Z.eqb].
  unfold objname_finish. case_if; zbool; [lia|]. done.
Qed.

Lemma qr_of_byte b : is_byte b -> GET_QR (0 * 256 + b) = 0.
Proof.
  unfold is_byte, GET_QR, MASK_QR. intros H. rewrite Z.add_0_l.
  assert (Z.land b (Z.ones 8) = b) as <- by (rewrite Z.land_ones by lia; apply Z.mod_small; lia).
  by rewrite <- Z.land_assoc, Z.land_0_r.
Qed.

(** * Properties *)

(** C19: decoding a name from any packet of [msgsize] bytes, at any index and
    into any buffer, returns: it reads inside the packet, stores inside the
    buffer (apart from the byte in front of it, and only for the empty name)
    and stops on every chain of compression pointers.  The result is -1 or an
    index behind the name that is still inside the packet. *)
Theorem get_objname_memory_safe (vc : Z -> Z) msg msgsize index d :
  bytes msg -> msgsize <= zlen msg ->
  exists r d', get_objname vc msg msgsize index d = Ok (r, d') /\
    objname_post msgsize d r d'.
Proof. intros Hb Hs. by apply get_objname_ok. Qed.

Lemma get_objname_memory_safe_witness :
  exists r d', get_objname valid_char (replicate 12 0 ++ [0xc0; 12]) 14 12 (Dest 7 [1; 1; 1; 1])
    = Ok (r, d') /\ objname_post 14 (Dest 7 [1; 1; 1; 1]) r d'.
Proof.
  apply get_objname_memory_safe; [by_decide|done].
Defined.

(** C34: a name written in the wire format decodes to its labels joined by
    dots, with the index behind it. *)
Theorem get_objname_roundtrip ls pre post msgsize d :
  ls <> [] -> Forall wf_label ls -> zlen (dotted ls) < zlen (cells d) ->
  PACKET_DATABEGIN <= zlen pre -> zlen pre + zlen (encode_labels ls) <= msgsize ->
  exists cs, get_objname valid_char (pre ++ encode_labels ls ++ post) msgsize (zlen pre) d
    = Ok (zlen pre + zlen (encode_labels ls), Dest (below d) cs) /\
    cstr cs = join_dots ls.
Proof.
  intros Hne Hwf Hd Hp Hs.
  assert (forall c, valid_char c <> 0) as Hvc
    by (intros c; unfold valid_char, init_dns; by case_if).
  destruct (get_objname_plain valid_char Hvc ls pre post msgsize d) as (cs & ? & ? & _); eauto.
Qed.

Lemma get_objname_roundtrip_witness :
  exists cs, get_objname valid_char
      (replicate 12 0 ++ encode_labels [lit "yes"; lit "org"] ++ [0; 1; 0; 1]) 25 12
      (Dest 7 (replicate 20 1)) = Ok (12 + 9, Dest 7 cs) /\ cstr cs = lit "yes.org".
Proof.
  apply (get_objname_roundtrip [lit "yes"; lit "org"] (replicate 12 0)); try done.
  by_decide.
Defined.

(** A compression pointer to an earlier name decodes to that name, and
    the returned index is the one behind the two pointer bytes. *)
Theorem get_objname_pointer ls pre mid post msgsize d :
  let msg := (pre ++ encode_labels ls ++ mid) ++ pointer_to (zlen pre) ++ post in
  let index := zlen (pre ++ encode_labels ls ++ mid) in
  ls <> [] -> Forall wf_label ls -> zlen (dotted ls) < zlen (cells d) ->
  PACKET_DATABEGIN <= zlen pre < 2 ^ 14 -> index + 2 <= msgsize ->
  exists cs, get_objname valid_char msg msgsize index d = Ok (index + 2, Dest (below d) cs) /\
    cstr cs = join_dots ls.
Proof.
  intros msg index Hne Hwf Hd Hp Hs.
  assert (forall c, valid_char c <> 0) as Hvc
    by (intros c; unfold valid_char, init_dns; by case_if).
  pose proof (dotted_nonempty ls Hne Hwf). pose proof (encode_labels_pos ls).
  unfold PACKET_DATABEGIN in *.
  assert (zlen pre + zlen (encode_labels ls) <= index) as Hidx
    by (unfold index; rewrite !zlen_app; pose proof (zlen_nonneg mid); lia).
  pose proof (zlen_nonneg (cells d)).
  unfold get_objname. case_if; unfold PACKET_DATABEGIN in *; zbool; try lia.
  replace (objname_fuel msgsize (zlen (cells d)))
    with (S (Z.to_nat (msgsize + zlen (cells d) + 1))) by (unfold objname_fuel; lia).
  rewrite (objname_loop_pointer valid_char _ msg msgsize _ index (zlen pre) 0 d
    (pre ++ encode_labels ls ++ mid) post); unfold UDP_MAXSIZE; try done; try lia.
  unfold msg. rewrite <- !app_assoc.
  rewrite objname_loop_decode; try done; try lia.
  - eexists; split. { unfold objname_ret. rewrite Z.eqb_refl. case_if; zbool; [lia|done]. } by apply cstr_decoded.
  - pose proof (labels_le_dotted ls). unfold zlen in *. lia.
Qed.

Lemma get_objname_pointer_witness :
  exists cs, get_objname valid_char
      ((replicate 12 0 ++ encode_labels [lit "org"] ++ [9]) ++ pointer_to 12 ++ [0]) 20 18
      (Dest 7 (replicate 20 1)) = Ok (20, Dest 7 cs) /\ cstr cs = lit "org".
Proof.
  apply (get_objname_pointer [lit "org"] (replicate 12 0) [9] [0] 20 (Dest 7 (replicate 20 1)));
    try done.
  by_decide.
Defined.

(** A name that is a pointer to itself is refused. *)
Theorem get_objname_rejects_self_pointer pre post msgsize d :
  let index := zlen pre in let msg := pre ++ pointer_to index ++ post in
  bytes msg -> index < 2 ^ 14 -> msgsize <= zlen msg ->
  exists d', get_objname valid_char msg msgsize index d = Ok (-1, d').
Proof.
  intros index msg Hb Hi Hs.
  destruct (get_objname_ok valid_char msg msgsize Hb Hs index d) as (r & d' & Hget & _).
  rewrite Hget. exists d'. revert Hget. unfold get_objname. case_if; [intros; by inv_comp|].
  pose proof (zlen_nonneg pre). destruct (pointer_value index) as [Hbits Hval]; [lia|].
  intros Hloop. do 2 f_equal. revert Hloop.
  apply (self_pointer_loop valid_char _ _ _ _ _ _ _ _ (index `mod` 256) (0xc0 + index / 256));
    [apply rd_at| |pose proof (Z.div_pos index 256); lia|done|done].
  unfold msg, pointer_to. change ([?a; ?b] ++ post) with ([a] ++ b :: post). rewrite app_assoc.
  replace (index + 1) with (zlen (pre ++ [0xc0 + index / 256])) by (by rewrite zlen_app).
  apply rd_at.
Qed.

Lemma get_objname_rejects_self_pointer_witness :
  exists d', get_objname valid_char (replicate 12 0 ++ pointer_to 12 ++ [0]) 15 12
    (Dest 7 [1; 1]) = Ok (-1, d').
Proof.
  apply (get_objname_rejects_self_pointer (replicate 12 0) [0] 15); [by_decide|done|done].
Defined.

(** An uninitialised record whose name field holds a terminated string. *)
Definition rr_blank : rr_t := Rr 0 (replicate 256 0) 0 0 0 0 (replicate 256 0).

(** Parsing the query of any packet with a full header returns 0 or -1
    without a memory error, when the caller's name field is terminated; on
    success the name is lower case and terminated inside its array, and
    type, class and flags are 16-bit values. *)
Theorem parse_query_safe y msg len :
  bytes msg -> 12 <= len <= zlen msg -> zlen (rr_name y) = RR_NAMESIZE -> 0 ∈ rr_name y ->
  exists r y', parse_query y msg len = Ok (r, y') /\ (r = 0 \/ r = -1) /\
    (r = 0 -> query_wf y').
Proof.
  intros Hb Hl Hn H0. destruct (parse_query_ok y msg len) as (r & y' & ? & ? & _ & ?); eauto.
Qed.

Lemma parse_query_safe_witness :
  exists r y', parse_query rr_blank (replicate 40 1) 40 = Ok (r, y') /\
    (r = 0 \/ r = -1) /\ (r = 0 -> query_wf y').
Proof. apply parse_query_safe; [by_decide|done|done|by_decide]. Defined.

(** A packet that carries one well-formed question parses to that
    question: its name in lower case, its type, class and the flags. *)
Theorem parse_query_correct y hdr ls ty cl fl qd rest len :
  length hdr = 12%nat -> rd16 hdr 2 = Ok fl -> is_u16 fl -> rd16 hdr 4 = Ok qd -> qd <> 0 ->
  ls <> [] -> Forall wf_label ls -> zlen (dotted ls) < RR_NAMESIZE ->
  zlen (rr_name y) = RR_NAMESIZE -> is_u16 ty -> is_u16 cl ->
  12 + zlen (encode_labels ls) + 4 <= len ->
  exists y', parse_query y
      (hdr ++ encode_labels ls ++ [hi8 ty; lo8 ty; hi8 cl; lo8 cl] ++ rest) len = Ok (0, y') /\
    cstr (rr_name y') = tolower <$> join_dots ls /\
    rr_flags y' = fl /\ rr_type y' = ty /\ rr_class y' = cl.
Proof. intros. by eapply parse_query_question. Qed.

Lemma parse_query_correct_witness :
  exists y', parse_query rr_blank
      ([0; 1; 1; 0; 0; 1; 0; 0; 0; 0; 0; 0] ++ encode_labels [lit "WWW"; lit "org"] ++
       [hi8 12; lo8 12; hi8 1; lo8 1] ++ []) 25 = Ok (0, y') /\
    cstr (rr_name y') = lit "www.org" /\
    rr_flags y' = 256 /\ rr_type y' = 12 /\ rr_class y' = 1.
Proof.
  apply (parse_query_correct rr_blank _ [lit "WWW"; lit "org"] 12 1 256 1 [] 25);
    try done; by_decide.
Defined.

(** The query of the root name: decoding the empty name stores its NUL in
    front of the name array, over the high byte of [flags], so the parsed
    flags have lost QR, the opcode, AA, TC and RD, and the name is the stale
    content of the caller's record. *)
Theorem parse_query_root_loses_flags y hdr ty cl fl qd rest len :
  length hdr = 12%nat -> rd16 hdr 2 = Ok fl -> rd16 hdr 4 = Ok qd -> qd <> 0 ->
  zlen (rr_name y) = RR_NAMESIZE -> 0 ∈ rr_name y -> is_u16 ty -> is_u16 cl -> 17 <= len ->
  exists y', parse_query y (hdr ++ [0; hi8 ty; lo8 ty; hi8 cl; lo8 cl] ++ rest) len = Ok (0, y') /\
    rr_flags y' = lo8 fl /\ GET_QR (rr_flags y') = 0 /\
    cstr (rr_name y') `prefix_of` (tolower <$> cstr (rr_name y)).
Proof.
  intros Hh Hfl Hqd Hqn Hnm H0 Hty Hcl Hlen.
  assert (zlen hdr = 12) as Hz by (unfold zlen; rewrite Hh; done).
  unfold parse_query. rewrite (rd16_app_l _ _ _ _ Hqd). cbn [mbind comp_bind].
  apply Z.eqb_neq in Hqn. rewrite Hqn, (rd16_app_l _ _ _ _ Hfl). cbn [mbind comp_bind].
  set (y1 := Rr fl _ _ _ _ _ _). set (q := [hi8 ty; lo8 ty; hi8 cl; lo8 cl]).
  change (hdr ++ (0 :: q) ++ rest) with (hdr ++ 0 :: q ++ rest).
  pose proof (get_objname_root valid_char hdr (q ++ rest) len (name_dest y1)) as Hroot.
  rewrite Hz in Hroot. change PACKET_DATABEGIN with 12 in *. rewrite Hroot by lia.
  cbn [mbind comp_bind]. case_if; zbool; [lia|]. case_if; zbool; [lia|]. change (12 + 1) with 13.
  replace (hdr ++ 0 :: q ++ rest) with ((hdr ++ [0]) ++ q ++ rest) by (by rewrite <- app_assoc).
  replace 13 with (zlen (hdr ++ [0]) + 0) by (rewrite zlen_app, Hz; done).
  rewrite <- (Z.add_assoc _ 0 2), !rd16_app_r by lia.
  assert (rd16 (q ++ rest) 0 = Ok ty) as ->
    by (transitivity (Ok (be16 (hi8 ty) (lo8 ty))); [done|by rewrite be16_split]).
  assert (rd16 (q ++ rest) (0 + 2) = Ok cl) as ->
    by (transitivity (Ok (be16 (hi8 cl) (lo8 cl))); [done|by rewrite be16_split]).
  cbn [mbind comp_bind set_name_dest rr_name rr_flags cells below y1].
  rewrite strlen_buf_ok by done. cbn [mbind comp_bind].
  eexists; split; [done|]. cbn [rr_name rr_flags]. split; [lia|].
  split; [by apply qr_of_byte, lo8_byte|].
  rewrite lower_name; [|unfold zlen in *; by rewrite length_chop_dot|by apply elem_0_chop].
  destruct (chop_dot_spec (rr_name y)) as [k Hk].
  exists (tolower <$> k). rewrite <- fmap_app. f_equal. exact Hk.
Qed.

Lemma parse_query_root_loses_flags_witness :
  exists y', parse_query rr_blank
      ([0; 1; 0x81; 0x80; 0; 1; 0; 0; 0; 0; 0; 0] ++ [0; hi8 2; lo8 2; hi8 1; lo8 1] ++ []) 17
      = Ok (0, y') /\
    rr_flags y' = lo8 0x8180 /\ GET_QR (rr_flags y') = 0 /\
    cstr (rr_name y') `prefix_of` (tolower <$> cstr (rr_name rr_blank)).
Proof.
  apply (parse_query_root_loses_flags rr_blank _ 2 1 0x8180 1 [] 17); try done; by_decide.
Defined.

(** The opcode mask: bit 12 belongs to the opcode but not to [MASK_OPCODE],
    which has the QR bit instead.  A STATUS query (opcode 2) reads as a
    standard query, and every response as a non-standard one. *)
Example opcode_mask : GET_OPCODE (Z.shiftl 2 11) = 0 /\ GET_OPCODE MASK_QR = 16.
Proof. done. Qed.
