(* ===== verification/Common.v ===== *)
(** Domain names in wire format (src/dnrd-2.20.3/src/common.c: [make_cname],
    [cname2asc]) and the sanity checks on packets
    (src/dnrd-2.20.3/src/check.c). *)
From S2P Require Import Prelude CString Lib Dns.

(** * common.c *)

(** The loop of [make_cname]; [out] is what has been stored at [cname], whose
    allocation has [size] bytes. *)
Fixpoint make_cname_loop (fuel : nat) (text : list Z) (tlen : Z) (size : Z)
    (tptr ende : Z) (out : list Z) : comp (option (list Z)) :=
  match fuel with
  | O => Fault NoFuel
  | S fuel' =>
      if ende <? zlen text then
        let ende := match strchr (drop (Z.to_nat tptr) text) 46 with
                    | Some k => tptr + Z.of_nat k
                    | None => tlen
                    end in
        if ende <=? tptr then Ok None
        else
          let diff := ende - tptr in
          let out := out ++ u8 diff :: take (Z.to_nat diff) (drop (Z.to_nat tptr) text) in
          if size <? zlen out then Fault WriteOOB
          else make_cname_loop fuel' text tlen size (ende + 1) ende out
      else if size <? zlen out + 1 then Fault WriteOOB
      else if zlen out =? tlen + 1 then Ok (Some (out ++ [0]))
      else Fault AssertFail
  end.

Definition make_cname (text : list Z) (maxlen : Z) : comp (option (list Z)) :=
  let tlen := strnlen text maxlen in
  make_cname_loop (length text + 2) text tlen (tlen + 2) 0 0 [].

(** The text [cname2asc] leaves in its static 256-byte buffer. *)
Definition cname2asc (cname : option (list Z)) (buf : dest) : comp (list Z) :=
  match cname with
  | Some c =>
      '(_, d) ← snprintf_cname c (zlen (cstr c)) 0 buf;
      mret (cstr (cells d))
  | None => mret (cstr (strncpy (length (cells buf)) (lit "(default)")))
  end.

(** * check.c *)

Definition check_query (msg : list Z) (len : Z) : comp Z :=
  flags ← rd16 msg 2;
  if len <? 12 then Ok (-1)
  else if UDP_MAXSIZE <? len then Ok (-1)
  else if negb (Z.land flags MASK_Z =? 0) then Ok (-1)
  else if negb (Z.land flags MASK_QR =? 0) then Ok (-1)
  else Ok 0.

Definition check_reply (msg : list Z) (len : Z) : comp Z :=
  flags ← rd16 msg 2;
  if len <? 12 then Ok (-1)
  else if negb (Z.land flags MASK_Z =? 0) then Ok (-1)
  else if Z.land flags MASK_QR =? 0 then Ok (-1)
  else Ok 0.

(** * Lemmas *)

Lemma join_dots_cons2 l1 l2 ls :
  join_dots (l1 :: l2 :: ls) = l1 ++ 46 :: join_dots (l2 :: ls).
Proof.
  unfold join_dots. change (dotted (l1 :: l2 :: ls)) with ((l1 ++ [46]) ++ dotted (l2 :: ls)).
  assert (0 < length (dotted (l2 :: ls)))%nat
    by (unfold dotted; cbn [fmap list_fmap concat]; rewrite !length_app; cbn; lia).
  rewrite length_app. replace (length (l1 ++ [46%Z]) + length (dotted (l2 :: ls)) - 1)%nat
    with (length (l1 ++ [46%Z]) + (length (dotted (l2 :: ls)) - 1))%nat by lia.
  by rewrite take_app_add', <- app_assoc.
Qed.

Lemma join_dots_single l : join_dots [l] = l.
Proof. by apply (join_dots_snoc [] l). Qed.

Lemma zlen_join_dots ls : ls <> [] -> zlen (join_dots ls) + 2 = zlen (encode_labels ls).
Proof.
  intros Hne. rewrite <- dotted_len. unfold join_dots, zlen. rewrite length_take.
  assert (0 < length (dotted ls))%nat; [|lia].
  destruct ls; [done|]. unfold dotted. cbn [fmap list_fmap concat]. rewrite !length_app. cbn. lia.
Qed.

Lemma wf_label_nodot l : wf_label l -> Forall (fun b => b <> 46) l.
Proof. intros [_ H]. eapply Forall_impl; [exact H|]. by intros c []. Qed.

Definition wire_labels (ls : list (list Z)) : list Z := concat ((fun l => zlen l :: l) <$> ls).

Lemma encode_wire ls : encode_labels ls = wire_labels ls ++ [0].
Proof. done. Qed.

Lemma strchr_nodot l : Forall (fun b => b <> 46) l -> strchr l 46 = None.
Proof.
  induction 1 as [|b l Hb _ IH]; cbn; [done|]. case_if; zbool; [done|]. by rewrite IH.
Qed.

Lemma u8_label l : wf_label l -> u8 (zlen l) = zlen l.
Proof. intros [H _]. apply Z.mod_small. lia. Qed.

Lemma make_cname_loop_ok ls : forall fuel pre out size ende,
  ls <> [] -> Forall wf_label ls -> (length ls < fuel)%nat ->
  let text := pre ++ join_dots ls in
  zlen out = zlen pre -> size = zlen text + 2 -> 0 <= ende < zlen text ->
  make_cname_loop fuel text (zlen text) size (zlen pre) ende out
  = Ok (Some (out ++ encode_labels ls)).
Proof.
  induction ls as [|l [|l2 ls] IH]; intros fuel pre out size ende Hne Hwf Hf text Hout Hsz Hend;
    [done| |]; apply Forall_cons in Hwf as [Hl Hwf];
    (destruct fuel as [|fuel]; [cbn in Hf; lia|]); pose proof Hl as [Hlen _];
    pose proof (zlen_nonneg pre).
  - cbn [make_cname_loop]. unfold text in *. rewrite join_dots_single in *.
    replace (Z.to_nat (zlen pre)) with (length pre) by (unfold zlen; lia).
    rewrite drop_app_length, strchr_nodot by (by apply wf_label_nodot).
    rewrite (proj2 (Z.ltb_lt _ _)) by lia. zlens.
    case_if; zbool; [lia|].
    replace (zlen pre + zlen l - zlen pre) with (zlen l) by lia.
    rewrite u8_label, take_ge by (try done; unfold zlen; lia).
    destruct fuel as [|fuel]; [cbn in Hf; lia|]. cbn [make_cname_loop]. zlens.
    repeat (case_if; zbool; try lia).
    rewrite encode_wire. unfold wire_labels. cbn [fmap list_fmap concat].
    by rewrite app_nil_r, <- app_assoc.
  - cbn [make_cname_loop]. unfold text in *. rewrite join_dots_cons2 in *.
    replace (Z.to_nat (zlen pre)) with (length pre) by (unfold zlen; lia).
    rewrite drop_app_length, strchr_at by (by apply wf_label_nodot).
    rewrite (proj2 (Z.ltb_lt _ _)) by lia.
    change (Z.of_nat (length l)) with (zlen l). pose proof (zlen_nonneg (join_dots (l2 :: ls))).
    zlens. case_if; zbool; [lia|].
    replace (zlen pre + zlen l - zlen pre) with (zlen l) by lia.
    replace (Z.to_nat (zlen l)) with (length l) by (unfold zlen; lia).
    rewrite u8_label, take_app_length by done. zlens. case_if; zbool; [lia|].
    replace (pre ++ l ++ 46 :: join_dots (l2 :: ls))
      with ((pre ++ l ++ [46]) ++ join_dots (l2 :: ls)) by (by rewrite <- !app_assoc).
    replace (zlen pre + zlen l + 1) with (zlen (pre ++ l ++ [46])) by (zlens; lia).
    replace (zlen pre + (zlen l + (1 + zlen (join_dots (l2 :: ls)))))
      with (zlen ((pre ++ l ++ [46]) ++ join_dots (l2 :: ls))) by (zlens; lia).
    rewrite IH; try done; try (zlens; lia); [|cbn in Hf |- *; lia].
    rewrite !encode_wire. unfold wire_labels. cbn [fmap list_fmap concat].
    by rewrite <- !app_assoc.
Qed.

(** * Properties *)

(** The dotted form of well-formed labels is converted to their wire
    format, when the text is not longer than [maxlen]. *)
Theorem make_cname_correct ls maxlen :
  ls <> [] -> Forall wf_label ls -> zlen (join_dots ls) <= maxlen ->
  make_cname (join_dots ls) maxlen = Ok (Some (encode_labels ls)).
Proof.
  intros Hne Hwf Hm. unfold make_cname, strnlen.
  pose proof (zlen_nonneg (join_dots ls)). pose proof (zlen_join_dots ls Hne).
  pose proof (dotted_nonempty ls Hne Hwf). pose proof (dotted_len ls).
  rewrite Z.min_l by lia. apply (make_cname_loop_ok ls _ [] []); try done; cbn [app]; zlens; try lia.
  - pose proof (labels_le_dotted ls). unfold join_dots. rewrite length_take. lia.
  - destruct ls as [|l [|l2 ls]]; [done| |].
    + rewrite join_dots_single in *. apply Forall_cons in Hwf as [[? _] _]. lia.
    + rewrite join_dots_cons2 in *. zlens.
      pose proof (zlen_nonneg l). pose proof (zlen_nonneg (join_dots (l2 :: ls))). lia.
Qed.

Lemma make_cname_correct_witness :
  make_cname (lit "yes.org") 200 = Ok (Some (encode_labels [lit "yes"; lit "org"])).
Proof. apply (make_cname_correct [lit "yes"; lit "org"] 200); [done|by_decide|done]. Defined.

(** [cname2asc] never prints the name of a domain: it starts decoding at
    index 0, which [get_objname] refuses, so every domain name comes out as
    "(malformatted)". *)
Theorem cname2asc_always_malformatted c b :
  cname2asc (Some c) (Dest b (replicate 256 0)) = Ok malformatted.
Proof. done. Qed.

(** What [check_query] accepts: exactly the packets of 12 to 512 bytes
    whose QR and Z bits are clear; it never asks for a format error. *)
Theorem check_query_accepts msg len flags :
  rd16 msg 2 = Ok flags ->
  check_query msg len = Ok (if (12 <=? len) && (len <=? UDP_MAXSIZE) &&
      (Z.land flags MASK_Z =? 0) && (Z.land flags MASK_QR =? 0) then 0 else -1).
Proof.
  intros Hf. unfold check_query. rewrite Hf. cbn [mbind comp_bind].
  rewrite !Z.ltb_antisym. destruct (12 <=? len), (len <=? UDP_MAXSIZE),
    (Z.land flags MASK_Z =? 0), (Z.land flags MASK_QR =? 0); done.
Qed.

Lemma check_query_accepts_witness : check_query (replicate 12 0) 12 = Ok 0.
Proof. exact (check_query_accepts (replicate 12 0) 12 0 eq_refl). Defined.

(** An empty domain text trips the final assertion, and a trailing dot makes
    the conversion fail. *)
Example make_cname_empty : make_cname [] 200 = Fault AssertFail.
Proof. done. Qed.
Example make_cname_trailing_dot : make_cname (lit "org.") 200 = Ok None.
Proof. done. Qed.
(** A dot behind [maxlen] is still followed: the label overruns the buffer. *)
Example make_cname_overflow : make_cname (replicate 250 97 ++ lit ".org") 200 = Fault WriteOOB.
Proof. done. Qed.
