(* ===== verification/Ring.v ===== *)
(** Circular singly linked lists with a sentinel, the representation dnrd uses
    for servers, domains and outstanding queries: the two pointer updates
    (insert after, unlink after), the representation predicate that relates
    the heap to a list, and the walks over it. *)
From S2P Require Import Prelude.
Set Warnings "-clear-no-such-hyp".

Definition ptr : Type := positive.

(** A node type with a [next] field. *)
Class RingNode (N : Type) := {
  nx : N -> ptr;
  set_nx : ptr -> N -> N;
  nx_set : forall q n, nx (set_nx q n) = q;
}.

Section ring.
Context {A : Type} `{!RingNode A}.
Implicit Types (h : gmap ptr A).

(** [p->next] *)
Definition next (h : gmap ptr A) (p : ptr) : comp ptr := of_option NullDeref (nx <$> h !! p).

(** [p->next = q] *)
Definition set_next (h : gmap ptr A) (p q : ptr) : comp (gmap ptr A) :=
  match h !! p with
  | Some n => Ok (<[p := set_nx q n]> h)
  | None => Fault NullDeref
  end.

(** [p->next = list->next; list->next = p;] *)
Definition ins_after (h : gmap ptr A) (list p : ptr) : comp (gmap ptr A) :=
  q ← next h list; h ← set_next h p q; set_next h list p.

(** [p = list->next; list->next = p->next; return p;] *)
Definition del_after (h : gmap ptr A) (list : ptr) : comp (ptr * gmap ptr A) :=
  p ← next h list; q ← next h p; h ← set_next h list q; mret (p, h).

(** [while (p->next != head) p = p->next;] *)
Fixpoint ring_last (fuel : nat) (h : gmap ptr A) (head p : ptr) : comp ptr :=
  match fuel with
  | O => Fault NoFuel
  | S fuel' =>
      q ← next h p;
      if bool_decide (q = head) then Ok p else ring_last fuel' h head q
  end.

(** [l] is the path of nodes after [p] that ends by pointing to [q]. *)
Fixpoint seg (h : gmap ptr A) (p : ptr) (l : list ptr) (q : ptr) : Prop :=
  match l with
  | [] => nx <$> h !! p = Some q
  | x :: l' => nx <$> h !! p = Some x /\ seg h x l' q
  end.

Definition ring (h : gmap ptr A) (head : ptr) (l : list ptr) : Prop :=
  seg h head l head /\ NoDup (head :: l).

(** The node before the first element of the part of the ring that is left
    to visit: the sentinel or the last visited node. *)
Definition before (head : ptr) (l : list ptr) : ptr := default head (last l).

Lemma next_seg_nil h p q : seg h p [] q -> next h p = Ok q.
Proof. cbn. unfold next. by intros ->. Qed.

Lemma next_seg_cons h p x l q : seg h p (x :: l) q -> next h p = Ok x.
Proof. intros [Hn _]. unfold next. by rewrite Hn. Qed.

Lemma seg_app h p l1 l2 q : seg h p (l1 ++ l2) q <->
  match l2 with
  | [] => seg h p l1 q
  | x :: l2' => seg h p l1 x /\ seg h x l2' q
  end.
Proof.
  revert p; induction l1 as [|y l1 IH]; intros p; cbn [app].
  - destruct l2; cbn; tauto.
  - cbn [seg]. rewrite IH. destruct l2; cbn [seg]; tauto.
Qed.

Lemma seg_frame h p l q a n : a ∉ p :: l -> seg h p l q -> seg (<[a := n]> h) p l q.
Proof.
  revert p; induction l as [|x l IH]; intros p Ha Hs; cbn [seg] in *;
    apply not_elem_of_cons in Ha as [Hap Hal].
  - by rewrite lookup_insert_ne.
  - destruct Hs as [Hn Hs]. split; [by rewrite lookup_insert_ne|]. by apply IH.
Qed.

Lemma seg_frame_delete h p l q a : a ∉ p :: l -> seg h p l q -> seg (delete a h) p l q.
Proof.
  revert p; induction l as [|x l IH]; intros p Ha Hs; cbn [seg] in *;
    apply not_elem_of_cons in Ha as [Hap Hal].
  - by rewrite lookup_delete_ne.
  - destruct Hs as [Hn Hs]. split; [by rewrite lookup_delete_ne|]. by apply IH.
Qed.

Lemma seg_alloc h p l q : seg h p l q -> Forall (fun a => is_Some (h !! a)) (p :: l).
Proof.
  revert p; induction l as [|x l IH]; intros p Hs; cbn [seg] in *.
  - constructor; [|done]. destruct (h !! p); [eauto|done].
  - destruct Hs as [Hn Hs]. constructor; [destruct (h !! p); [eauto|done]|]. by apply IH.
Qed.

Lemma seg_set_last h p l q q' n :
  NoDup (p :: l) -> seg h p l q -> h !! default p (last l) = Some n ->
  seg (<[default p (last l) := set_nx q' n]> h) p l q'.
Proof.
  revert p; induction l as [|x l IH]; intros p Hnd Hs Hn.
  - cbn in *. rewrite lookup_insert_eq. cbn. by rewrite nx_set.
  - apply NoDup_cons in Hnd as [Hp Hnd]. destruct Hs as [Hnx Hs].
    replace (default p (last (x :: l))) with (default x (last l)) in *
      by (rewrite last_cons; by destruct (last l)).
    split; [|by apply IH]. rewrite lookup_insert_ne; [done|].
    intros Heq. apply Hp. rewrite <- Heq. destruct (last l) as [z|] eqn:Hz; cbn; [|by left].
    right. rewrite last_lookup in Hz. by eapply list_elem_of_lookup_2.
Qed.

Lemma before_elem head l : before head l ∈ head :: l.
Proof.
  unfold before. destruct (last l) as [z|] eqn:Hz; cbn; [|by left].
  right. rewrite last_lookup in Hz. by eapply list_elem_of_lookup_2.
Qed.

Lemma before_snoc head l x : before head (l ++ [x]) = x.
Proof. unfold before. by rewrite last_snoc. Qed.

Lemma ring_next_before h head l1 l2 : ring h head (l1 ++ l2) ->
  next h (before head l1) = Ok (default head (list.head l2)).
Proof.
  intros [Hs _]. unfold before.
  destruct (last l1) as [z|] eqn:Hz.
  - apply last_Some in Hz as [l0 ->]. rewrite <- app_assoc in Hs.
    apply seg_app in Hs as [_ Hs]. cbn in Hs |- *.
    destruct l2; cbn; [by eapply next_seg_nil|by eapply next_seg_cons].
  - apply last_None in Hz. subst. cbn in *.
    destruct l2; cbn; [by eapply next_seg_nil|by eapply next_seg_cons].
Qed.

(** Linking a node that is not in the ring behind any of its positions. *)
Lemma ins_after_ring h head l1 l2 p :
  ring h head (l1 ++ l2) -> p ∉ head :: l1 ++ l2 -> is_Some (h !! p) ->
  exists h', ins_after h (before head l1) p = Ok h' /\ ring h' head (l1 ++ p :: l2) /\
    dom h' = dom h /\ (forall a, a ∉ [before head l1; p] -> h' !! a = h !! a) /\
    (forall a n, h !! a = Some n -> exists q, h' !! a = Some n \/ h' !! a = Some (set_nx q n)).
Proof.
  intros Hr Hp [np Hnp]. pose proof (ring_next_before _ _ _ _ Hr) as Hnext.
  destruct Hr as [Hs Hnd]. pose proof (before_elem head l1) as Hbe.
  set (b := before head l1) in *. set (q := default head (list.head l2)) in *.
  assert (b <> p) as Hbp.
  { intros ->. apply Hp. apply elem_of_cons in Hbe as [->|?]; [by left|]. right. set_solver. }
  pose proof (seg_alloc _ _ _ _ Hs) as Hal.
  assert (exists nb, h !! b = Some nb) as [nb Hnb].
  { rewrite Forall_forall in Hal. destruct (Hal b) as [nb ?]; [|eauto].
    apply elem_of_cons in Hbe as [->|?]; [by left|]. right. set_solver. }
  exists (<[b := set_nx p nb]> (<[p := set_nx q np]> h)).
  unfold ins_after, set_next. rewrite Hnext. cbn [mbind comp_bind]. rewrite Hnp. cbn [mbind comp_bind].
  rewrite lookup_insert_ne, Hnb by done. split; [done|]. split; [split|].
  - assert (seg h head l1 q) as Hs1.
    { unfold q. destruct l2; cbn [list.head default]; [by rewrite app_nil_r in Hs|].
      by apply seg_app in Hs as [? _]. }
    assert (NoDup (head :: l1)) as Hnd1.
    { rewrite app_comm_cons in Hnd. by apply NoDup_app in Hnd as [? _]. }
    assert (seg (<[b := set_nx p nb]> (<[p := set_nx q np]> h)) head l1 p) as Hs1'.
    { apply (seg_set_last _ head l1 q); [done| |by rewrite lookup_insert_ne].
      apply seg_frame; [set_solver|done]. }
    apply seg_app. split; [done|].
    assert (nx <$> <[b := set_nx p nb]> (<[p := set_nx q np]> h) !! p = Some q) as Hpq.
    { rewrite lookup_insert_ne, lookup_insert_eq by done. cbn. by rewrite nx_set. }
    destruct l2 as [|y l2]; [done|]. split; [done|].
    apply seg_app in Hs as [_ Hs2].
    assert (b ∉ y :: l2) as Hby.
    { rewrite app_comm_cons in Hnd. apply NoDup_app in Hnd as (_ & Hdis & _). by apply Hdis. }
    apply seg_frame; [done|]. apply seg_frame; [set_solver|done].
  - rewrite app_comm_cons in *. apply NoDup_app in Hnd as (H1 & H2 & H3).
    apply NoDup_app. split; [done|]. split; [set_solver|]. apply NoDup_cons. set_solver.
  - split.
    { rewrite !dom_insert_L. assert (b ∈ dom h /\ p ∈ dom h); [|set_solver].
      by rewrite !elem_of_dom, Hnb, Hnp. }
    split.
    { intros a Ha. rewrite !lookup_insert_ne; set_solver. }
    intros a n Hn. destruct (decide (a = b)) as [->|Hab].
    { exists p. right. rewrite lookup_insert_eq. congruence. }
    destruct (decide (a = p)) as [->|Hap].
    { exists q. right. rewrite lookup_insert_ne, lookup_insert_eq by done. congruence. }
    exists q. left. by rewrite !lookup_insert_ne.
Qed.

(** Unlinking the node behind a position. *)
Lemma del_after_ring h head l1 y l2 :
  ring h head (l1 ++ y :: l2) ->
  exists h', del_after h (before head l1) = Ok (y, h') /\ ring h' head (l1 ++ l2) /\
    dom h' = dom h /\ (forall a, a <> before head l1 -> h' !! a = h !! a) /\
    ring (delete y h') head (l1 ++ l2) /\
    (forall a n, h !! a = Some n -> exists q, h' !! a = Some n \/ h' !! a = Some (set_nx q n)).
Proof.
  intros Hr. pose proof (ring_next_before _ _ _ _ Hr) as Hnext. change (next h (before head l1) = Ok y) in Hnext.
  assert (next h y = Ok (default head (list.head l2))) as Hny.
  { replace (l1 ++ y :: l2) with ((l1 ++ [y]) ++ l2) in Hr by (by rewrite <- app_assoc).
    apply ring_next_before in Hr. by rewrite before_snoc in Hr. }
  destruct Hr as [Hs Hnd]. pose proof (before_elem head l1) as Hbe.
  set (b := before head l1) in *. set (q := default head (list.head l2)) in *.
  pose proof (seg_alloc _ _ _ _ Hs) as Hal.
  assert (exists nb, h !! b = Some nb) as [nb Hnb].
  { rewrite Forall_forall in Hal. destruct (Hal b) as [nb ?]; [|eauto].
    apply elem_of_cons in Hbe as [->|?]; [by left|]. right. set_solver. }
  rewrite app_comm_cons in Hnd. apply NoDup_app in Hnd as (Hnd1 & Hdis & Hnd2).
  apply NoDup_cons in Hnd2 as [Hy2 Hnd2].
  apply seg_app in Hs as [Hs1 Hs2].
  assert (seg (<[b := set_nx q nb]> h) head l1 q) as Hs1' by (by apply (seg_set_last _ head l1 y)).
  assert (b ∉ y :: l2) as Hby by (by apply Hdis).
  assert (seg (<[b := set_nx q nb]> h) head (l1 ++ l2) head) as Hs'.
  { apply seg_app. destruct l2 as [|z l2]; [done|]. split; [done|].
    destruct Hs2 as [_ Hs2]. apply seg_frame; [set_solver|done]. }
  assert (NoDup (head :: l1 ++ l2)) as Hnd'.
  { rewrite app_comm_cons. apply NoDup_app. set_solver. }
  exists (<[b := set_nx q nb]> h). unfold del_after, set_next. rewrite Hnext.
  cbn [mbind comp_bind]. rewrite Hny. cbn [mbind comp_bind]. rewrite Hnb. split; [done|].
  split; [by split|]. split.
  { rewrite dom_insert_L. assert (b ∈ dom h); [|set_solver]. by rewrite elem_of_dom, Hnb. }
  split; [intros; by rewrite lookup_insert_ne|]. split.
  { split; [|done]. apply seg_frame_delete; [|done].
    rewrite app_comm_cons. apply not_elem_of_app. split; [|done].
    intros Hin. apply (Hdis y Hin). by left. }
  intros a n Hn. destruct (decide (a = b)) as [->|Hab].
  { exists q. right. rewrite lookup_insert_eq. congruence. }
  exists q. left. by rewrite lookup_insert_ne.
Qed.

Lemma ring_last_ok fuel h head l1 l2 :
  ring h head (l1 ++ l2) -> (length l2 < fuel)%nat ->
  ring_last fuel h head (before head l1) = Ok (before head (l1 ++ l2)).
Proof.
  revert l1 l2; induction fuel as [|fuel IH]; intros l1 l2 Hr Hf; [lia|].
  cbn [ring_last]. rewrite (ring_next_before _ _ _ _ Hr). cbn [mbind comp_bind].
  destruct l2 as [|y l2].
  - rewrite app_nil_r. by rewrite bool_decide_true.
  - change (default head (list.head (y :: l2))) with y. rewrite bool_decide_false.
    + specialize (IH (l1 ++ [y]) l2). rewrite before_snoc, <- app_assoc in IH.
      apply IH; [done|]. cbn in Hf. lia.
    + destruct Hr as [_ Hnd]. apply NoDup_cons in Hnd as [Hn _]. set_solver.
Qed.

Lemma ring_size h head l : ring h head l -> (length l < size h)%nat.
Proof.
  intros [Hs Hnd]. rewrite <- (size_dom (D := gset ptr)).
  assert (size (list_to_set (head :: l) : gset ptr) = length (head :: l)) as Hsz
    by (by apply size_list_to_set).
  cbn [length] in Hsz. rewrite <- Nat.le_succ_l, <- Hsz. apply subseteq_size.
  intros a Ha. apply elem_of_list_to_set in Ha. apply elem_of_dom.
  pose proof (seg_alloc _ _ _ _ Hs) as Hal. rewrite Forall_forall in Hal. by apply Hal.
Qed.

Lemma ring_elem h head l a : ring h head l -> a ∈ head :: l -> exists n, h !! a = Some n.
Proof.
  intros [Hs _] Ha. pose proof (seg_alloc _ _ _ _ Hs) as Hal.
  rewrite Forall_forall in Hal. destruct (Hal a Ha). eauto.
Qed.

(** The successors are all a ring depends on. *)
Lemma ring_ext h h' head l : (forall a, a ∈ head :: l -> nx <$> h' !! a = nx <$> h !! a) ->
  ring h head l -> ring h' head l.
Proof.
  intros He [Hs Hnd]. split; [|done].
  assert (forall p q, (forall a, a ∈ p :: l -> nx <$> h' !! a = nx <$> h !! a) ->
    seg h p l q -> seg h' p l q) as Hx; [|by apply Hx].
  clear. induction l as [|x l IH]; intros p q He Hs; cbn [seg] in *.
  - rewrite He; [done|by left].
  - destruct Hs as [Hn Hs]. split; [rewrite He; [done|by left]|].
    apply IH; [|done]. intros a Ha. apply He. by right.
Qed.

Lemma ring_fresh h head l p n : h !! p = None -> ring h head l -> ring (<[p := n]> h) head l.
Proof.
  intros Hp Hr. apply (ring_ext h); [|done]. intros a Ha.
  rewrite lookup_insert_ne; [done|]. intros ->.
  destruct (ring_elem _ _ _ _ Hr Ha). congruence.
Qed.

Lemma ring_fresh_notin h head l p : h !! p = None -> ring h head l -> p ∉ head :: l.
Proof. intros Hp Hr Hin. destruct (ring_elem _ _ _ _ Hr Hin). congruence. Qed.

(** [p = head; while ((p = p->next) != head) body (p);] for a body that works
    on a state the ring is part of. *)
Section iter.
Context {St : Type} (get : St -> gmap ptr A) (body : ptr -> St -> comp St).

Fixpoint ring_iter (fuel : nat) (head p : ptr) (st : St) : comp St :=
  match fuel with
  | O => Fault NoFuel
  | S fuel' =>
      q ← next (get st) p;
      if bool_decide (q = head) then Ok st
      else st ← body q st; ring_iter fuel' head q st
  end.

Fixpoint iter_list (l : list ptr) (st : St) : comp St :=
  match l with [] => Ok st | q :: l' => st ← body q st; iter_list l' st end.

Lemma ring_iter_ok (I : St -> Prop) head l : 
  (forall st, I st -> ring (get st) head l) ->
  (forall q st, q ∈ l -> I st -> exists st', body q st = Ok st' /\ I st') ->
  forall fuel l1 l2 st, l = l1 ++ l2 -> I st -> (length l2 < fuel)%nat ->
  exists st', ring_iter fuel head (before head l1) st = Ok st' /\
    iter_list l2 st = Ok st' /\ I st'.
Proof.
  intros HI Hbody fuel. induction fuel as [|fuel IH]; intros l1 l2 st Hl Hst Hf; [lia|].
  cbn [ring_iter]. pose proof (HI _ Hst) as Hr. rewrite Hl in Hr.
  rewrite (ring_next_before _ _ _ _ Hr). cbn [mbind comp_bind]. destruct l2 as [|y l2].
  - rewrite bool_decide_true by done. eauto.
  - change (default head (list.head (y :: l2))) with y. rewrite bool_decide_false.
    + destruct (Hbody y st) as (st1 & Hb & Hst1); [rewrite Hl; set_solver|done|].
      cbn [iter_list]. rewrite Hb. cbn [mbind comp_bind].
      destruct (IH (l1 ++ [y]) l2 st1) as (st' & Hi & Hl' & ?).
      { by rewrite <- app_assoc. } { done. } { cbn in Hf. lia. }
      rewrite before_snoc in Hi. eauto.
    + destruct Hr as [_ Hnd]. apply NoDup_cons in Hnd as [Hn _]. set_solver.
Qed.
End iter.

End ring.
