(* ===== verification/Srvnode.v ===== *)
(** Upstream servers (src/dnrd-2.20.3/src/srvnode.c): the circular list of the
    servers of a domain, on a heap of nodes.  An allocation takes the address
    it returns as an argument. *)
From S2P Require Import Prelude CString Ring.
Set Warnings "-clear-no-such-hyp".

Record srvnode_t := Srv {
  addr : in_addr; inactive : Z; send_count : Z; send_time : Z; tcp : Z;
  newquery : option ptr; srv_next : ptr }.

#[export] Instance srv_ring : RingNode srvnode_t := {|
  nx := srv_next;
  set_nx q s := Srv (addr s) (inactive s) (send_count s) (send_time s) (tcp s) (newquery s) q;
  nx_set _ _ := eq_refl |}.

Definition set_inactive (v : Z) (s : srvnode_t) : srvnode_t :=
  Srv (addr s) v (send_count s) (send_time s) (tcp s) (newquery s) (srv_next s).
Definition set_send_time (v : Z) (s : srvnode_t) : srvnode_t :=
  Srv (addr s) (inactive s) (send_count s) v (tcp s) (newquery s) (srv_next s).
Definition set_send_count (v : Z) (s : srvnode_t) : srvnode_t :=
  Srv (addr s) (inactive s) v (send_time s) (tcp s) (newquery s) (srv_next s).
Definition set_newquery (v : option ptr) (s : srvnode_t) : srvnode_t :=
  Srv (addr s) (inactive s) (send_count s) (send_time s) (tcp s) v (srv_next s).
Definition set_addr (v : in_addr) (s : srvnode_t) : srvnode_t :=
  Srv v (inactive s) (send_count s) (send_time s) (tcp s) (newquery s) (srv_next s).

Abbreviation srvheap := (gmap ptr srvnode_t).

Definition alloc_srvnode (h : srvheap) (p : ptr) : srvheap :=
  <[p := Srv (0, 0, 0, 0) (-1) 0 0 0 None p]> h.

Definition init_srvlist (h : srvheap) (p : ptr) : srvheap := alloc_srvnode h p.

Definition ins_srvnode (h : srvheap) (list p : ptr) : comp srvheap := ins_after h list p.

Definition del_srvnode_after (h : srvheap) (list : ptr) : comp (ptr * srvheap) :=
  del_after h list.

Definition destroy_srvnode (h : srvheap) (p : ptr) : srvheap := delete p h.

Fixpoint clear_loop (fuel : nat) (h : srvheap) (head : ptr) : comp srvheap :=
  match fuel with
  | O => Fault NoFuel
  | S fuel' =>
      q ← next h head;
      if bool_decide (q = head) then Ok h
      else '(p, h) ← del_srvnode_after h head;
           clear_loop fuel' (destroy_srvnode h p) head
  end.

Definition clear_srvlist (h : srvheap) (head : ptr) : comp srvheap :=
  clear_loop (S (size h)) h head.

Definition destroy_srvlist (h : srvheap) (head : ptr) : comp srvheap :=
  h ← clear_srvlist h head; mret (delete head h).

(** [None] when the address does not parse; [p] is the node allocated. *)
Definition add_srv (h : srvheap) (head : ptr) (ipaddr : list Z) (p : ptr)
  : comp (option ptr * srvheap) :=
  match inet_aton ipaddr with
  | None => Ok (None, h)
  | Some a =>
      let h := alloc_srvnode h p in
      let h := alter (fun s => set_inactive 0 (set_addr a s)) p h in
      h ← ins_srvnode h head p;
      mret (Some p, h)
  end.

Definition last_srvnode (h : srvheap) (head : ptr) : comp ptr :=
  ring_last (S (size h)) h head head.

Definition no_srvlist (h : srvheap) (head : option ptr) : comp bool :=
  match head with
  | None => Ok true
  | Some p => q ← next h p; mret (bool_decide (q = p))
  end.

(** * Lemmas *)

Lemma no_srvlist_ring (h : srvheap) head l : ring h head l ->
  no_srvlist h (Some head) = Ok (bool_decide (l = [])).
Proof.
  intros Hr. cbn. pose proof (ring_next_before h head [] l Hr) as Hn.
  change (before head []) with head in Hn. rewrite Hn. cbn. f_equal.
  destruct l as [|y l]; cbn; [by rewrite !bool_decide_true|].
  assert (y <> head) by (destruct Hr as [_ Hnd]; apply NoDup_cons in Hnd as [Hnin _]; set_solver).
  by rewrite !bool_decide_false.
Qed.

Lemma clear_loop_ok fuel (h : srvheap) head l : ring h head l -> (length l < fuel)%nat ->
  exists h', clear_loop fuel h head = Ok h' /\ ring h' head [] /\ dom h' = dom h ∖ list_to_set l.
Proof.
  revert h l; induction fuel as [|fuel IH]; intros h l Hr Hf; [lia|].
  cbn [clear_loop]. pose proof (ring_next_before h head [] l Hr) as Hn.
  change (before head []) with head in Hn. rewrite Hn. cbn [mbind comp_bind].
  destruct l as [|y l].
  - rewrite bool_decide_true by done. exists h. split; [done|]. split; [done|]. set_solver.
  - change (default head (list.head (y :: l))) with y. rewrite bool_decide_false.
    2:{ destruct Hr as [_ Hnd]. apply NoDup_cons in Hnd as [Hnin _]. set_solver. }
    destruct (del_after_ring h head [] y l Hr) as (h1 & Hd & _ & Hdom & _ & Hr1 & _).
    change (before head []) with head in Hd. unfold del_srvnode_after. rewrite Hd.
    cbn [mbind comp_bind]. destruct (IH (destroy_srvnode h1 y) l) as (h' & Hc & Hr' & Hdom').
    { done. } { cbn in Hf; lia. }
    exists h'. split; [done|]. split; [done|]. rewrite Hdom'. unfold destroy_srvnode.
    rewrite dom_delete_L, Hdom. cbn. set_solver.
Qed.

Lemma last_srvnode_ring (h : srvheap) head l : ring h head l ->
  last_srvnode h head = Ok (before head l).
Proof.
  intros Hr. unfold last_srvnode. apply (ring_last_ok _ h head [] l); [done|].
  pose proof (ring_size _ _ _ Hr). lia.
Qed.

(** * Properties *)

(** Emptying a server list frees exactly its nodes and leaves the head as
    an empty circular list. *)
Theorem clear_srvlist_frees_all (h : srvheap) head l : ring h head l ->
  exists h', clear_srvlist h head = Ok h' /\ ring h' head [] /\
    dom h' = dom h ∖ list_to_set l.
Proof.
  intros Hr. apply clear_loop_ok; [done|]. pose proof (ring_size _ _ _ Hr). lia.
Qed.

Definition two_servers : srvheap :=
  <[1%positive := Srv (0, 0, 0, 0) (-1) 0 0 0 None 2%positive]>
  (<[2%positive := Srv (10, 0, 0, 1) 0 0 0 0 None 3%positive]>
  (<[3%positive := Srv (10, 0, 0, 2) 0 0 0 0 None 1%positive]> ∅)).

Lemma two_servers_ring : ring two_servers 1%positive [2%positive; 3%positive].
Proof. split; [done|]. by_decide. Qed.

Lemma clear_srvlist_frees_all_witness :
  exists h', clear_srvlist two_servers 1%positive = Ok h' /\ ring h' 1%positive [] /\
    dom h' = dom two_servers ∖ list_to_set [2%positive; 3%positive].
Proof. apply clear_srvlist_frees_all, two_servers_ring. Defined.

(** Adding a server behind the last node, as the command line does, appends
    an active server with that address and keeps the others. *)
Theorem add_srv_appends (h : srvheap) head l ip a p :
  ring h head l -> h !! p = None -> inet_aton ip = Some a ->
  exists q h', last_srvnode h head = Ok q /\ add_srv h q ip p = Ok (Some p, h') /\
    ring h' head (l ++ [p]) /\
    (exists s, h' !! p = Some s /\ addr s = a /\ inactive s = 0) /\
    (forall r s, h !! r = Some s -> exists n, h' !! r = Some s \/ h' !! r = Some (set_nx n s)).
Proof.
  intros Hr Hp Ha. exists (before head l). unfold add_srv. rewrite Ha.
  set (h1 := alter _ p (alloc_srvnode h p)).
  assert (h1 = <[p := Srv a 0 0 0 0 None p]> h) as Hh1.
  { unfold h1, alloc_srvnode. by rewrite alter_insert_eq. }
  assert (ring h1 head (l ++ [])) as Hr1
    by (rewrite app_nil_r, Hh1; by apply ring_fresh).
  destruct (ins_after_ring h1 head l [] p) as (h' & Hins & Hr' & _ & _ & Hkeep).
  { done. } { rewrite app_nil_r. by eapply ring_fresh_notin. }
  { rewrite Hh1, lookup_insert_eq. eauto. }
  exists h'. split; [by apply last_srvnode_ring|]. unfold ins_srvnode. rewrite Hins.
  cbn [mbind comp_bind]. split; [done|]. split; [done|]. split.
  - destruct (Hkeep p (Srv a 0 0 0 0 None p)) as [q [Hq|Hq]].
    { rewrite Hh1. apply lookup_insert_eq. } { eauto. } { rewrite Hq. eauto. }
  - intros r s Hs. apply Hkeep. rewrite Hh1, lookup_insert_ne; [done|]. congruence.
Qed.

Lemma add_srv_appends_witness :
  exists q h', last_srvnode two_servers 1%positive = Ok q /\
    add_srv two_servers q (lit "192.168.0.1") 4%positive = Ok (Some 4%positive, h') /\
    ring h' 1%positive ([2%positive; 3%positive] ++ [4%positive]) /\
    (exists s, h' !! 4%positive = Some s /\ addr s = (192, 168, 0, 1) /\ inactive s = 0) /\
    (forall r s, two_servers !! r = Some s ->
      exists n, h' !! r = Some s \/ h' !! r = Some (set_nx n s)).
Proof. apply add_srv_appends; [apply two_servers_ring|done|done]. Defined.
