(* ===== verification/Domnode.v ===== *)
(** Domains and their servers (src/dnrd-2.20.3/src/domnode.c): the circular
    list of domains, the search for the domain of a query, and the choice of
    the current server of a domain. *)
From S2P Require Import Prelude CString Lib Dns Common Ring Srvnode.
Set Warnings "-clear-no-such-hyp".

(** [domain] is the string in wire format, without its terminating zero;
    [None] is the null pointer of the default domain. *)
Record domnode_t := Dom {
  domain : option (list Z); srvlist : ptr; current : option ptr;
  roundrobin : Z; retrydelay : Z; dom_next : ptr }.

#[export] Instance dom_ring : RingNode domnode_t := {|
  nx := dom_next;
  set_nx q d := Dom (domain d) (srvlist d) (current d) (roundrobin d) (retrydelay d) q;
  nx_set _ _ := eq_refl |}.

Abbreviation domheap := (gmap ptr domnode_t).

(** The two heaps the relay works on. *)
Record net := Net { srvs : srvheap; doms : domheap }.

Definition upd_srv (f : srvnode_t -> srvnode_t) (p : ptr) (w : net) : net :=
  Net (alter f p (srvs w)) (doms w).

Definition set_cur (v : option ptr) (d : domnode_t) : domnode_t :=
  Dom (domain d) (srvlist d) v (roundrobin d) (retrydelay d) (dom_next d).

Definition get_dom (w : net) (d : ptr) : comp domnode_t := of_option NullDeref (doms w !! d).
Definition get_srv (w : net) (s : ptr) : comp srvnode_t := of_option NullDeref (srvs w !! s).

(** * Domain lists *)

(** [p] and [sl] are the addresses of the two allocations. *)
Definition alloc_domnode (w : net) (p sl : ptr) : net :=
  Net (alloc_srvnode (srvs w) sl) (<[p := Dom None sl None 0 0 p]> (doms w)).

Definition init_domainlist (w : net) (p sl : ptr) : net := alloc_domnode w p sl.

Definition ins_domnode (w : net) (list p : ptr) : comp net :=
  ds ← ins_after (doms w) list p; mret (Net (srvs w) ds).

Definition del_domnode (w : net) (list : ptr) : comp (ptr * net) :=
  '(p, ds) ← del_after (doms w) list; mret (p, Net (srvs w) ds).

Definition destroy_domnode (w : net) (p : ptr) : comp net :=
  d ← get_dom w p;
  ss ← destroy_srvlist (srvs w) (srvlist d);
  mret (Net ss (delete p (doms w))).

Fixpoint empty_domlist_loop (fuel : nat) (w : net) (head : ptr) : comp net :=
  match fuel with
  | O => Fault NoFuel
  | S fuel' =>
      q ← next (doms w) head;
      if bool_decide (q = head) then Ok w
      else '(p, w) ← del_domnode w head;
           w ← destroy_domnode w p;
           empty_domlist_loop fuel' w head
  end.

Definition empty_domlist (w : net) (head : ptr) : comp net :=
  empty_domlist_loop (S (size (doms w))) w head.

Definition destroy_domlist (w : net) (head : ptr) : comp net :=
  w ← empty_domlist w head; destroy_domnode w head.

Definition add_domain (w : net) (lst : ptr) (load_balance : Z) (cname : option (list Z))
    (p sl : ptr) : comp net :=
  let w := alloc_domnode w p sl in
  let w := Net (srvs w) (<[p := Dom cname sl None load_balance 0 p]> (doms w)) in
  ins_domnode w lst p.

Fixpoint search_domnode_loop (fuel : nat) (w : net) (head d : ptr) (name : list Z)
  : comp (option ptr) :=
  match fuel with
  | O => Fault NoFuel
  | S fuel' =>
      d ← next (doms w) d;
      if bool_decide (d = head) then Ok None
      else n ← get_dom w d;
           dn ← of_option NullDeref (domain n);
           if strcmp0 dn name then Ok (Some d) else search_domnode_loop fuel' w head d name
  end.

Definition search_domnode (w : net) (head : ptr) (name : list Z) : comp (option ptr) :=
  search_domnode_loop (S (size (doms w))) w head head name.

(** [strnlen] on a buffer: it faults when it runs off the buffer's end. *)
Definition strnlen_buf (l : list Z) (maxlen : Z) : comp Z :=
  let n := zlen (cstr l) in
  if maxlen <=? n then Ok maxlen
  else if n <? zlen l then Ok n else Fault ReadOOB.

(** [strncmp (a, b, n) == 0] *)
Definition strncmp0 (a b : list Z) (n : Z) : bool :=
  str_eqb (take (Z.to_nat n) a) (take (Z.to_nat n) b).

(** The test of one domain: [name] is the string at [name], and the result
    is the length compared with [maxfound], if the strings agree. *)
Definition sub_match (name dn : list Z) (maxlen : Z) : option Z :=
  let n := zlen name in
  let h := strnlen dn maxlen in
  let off := if h <? n then n - h else 0 in
  if strncmp0 dn (drop (Z.to_nat off) name) (maxlen - off) then Some h else None.

Fixpoint search_sub_loop (fuel : nat) (w : net) (head d : ptr) (name : list Z) (maxlen : Z)
    (curr : ptr) (maxfound : Z) : comp ptr :=
  match fuel with
  | O => Fault NoFuel
  | S fuel' =>
      d ← next (doms w) d;
      if bool_decide (d = head) then Ok curr
      else n ← get_dom w d;
           dn ← of_option NullDeref (domain n);
           match sub_match name dn maxlen with
           | Some h =>
               if maxfound <? h then search_sub_loop fuel' w head d name maxlen d h
               else search_sub_loop fuel' w head d name maxlen curr maxfound
           | None => search_sub_loop fuel' w head d name maxlen curr maxfound
           end
  end.

(** [name] is the buffer from the name on. *)
Definition search_subdomnode (w : net) (head : ptr) (name : list Z) (maxlen : Z) : comp ptr :=
  n ← strnlen_buf name maxlen;
  search_sub_loop (S (size (doms w))) w head head (take (Z.to_nat n) name) maxlen head 0.

(** * The current server *)

Definition set_current (w : net) (d : ptr) (s : option ptr) : net :=
  Net (srvs w) (alter (set_cur s) d (doms w)).

(** [for (s = start->next; s->inactive && s != start; s = s->next);] *)
Fixpoint scan_active (fuel : nat) (h : srvheap) (start s : ptr) : comp ptr :=
  match fuel with
  | O => Fault NoFuel
  | S fuel' =>
      n ← of_option NullDeref (h !! s);
      if negb (inactive n =? 0) && negb (bool_decide (s = start))
      then s ← next h s; scan_active fuel' h start s
      else Ok s
  end.

Definition next_active (w : net) (d : ptr) : comp (option ptr) :=
  n ← get_dom w d;
  let start := default (srvlist n) (current n) in
  s ← next (srvs w) start;
  s ← scan_active (S (size (srvs w))) (srvs w) start s;
  sn ← get_srv w s;
  mret (if negb (inactive sn =? 0) then None else Some s).

Definition deactivate_current (now : Z) (w : net) (d : ptr) : comp net :=
  n ← get_dom w d;
  let w := match current n with
           | Some c => upd_srv (set_inactive now) c w
           | None => w
           end in
  s ← next_active w d;
  mret (set_current w d s).

Definition reactivate_srvlist (w : net) (d : ptr) : comp net :=
  n ← get_dom w d;
  ring_iter srvs (fun s w => Ok (upd_srv (fun x => set_send_time 0 (set_inactive 0 x)) s w))
    (S (size (srvs w))) (srvlist n) (srvlist n) w.

(** The probe of a server that is due again is [udp_send_dummy], an operation
    on the state [St] of the whole relay. *)
Section retry.
Context {St : Type} (getn : St -> net) (setn : net -> St -> St)
  (udp_send_dummy : ptr -> St -> comp St).

Definition retry_srvlist (now : Z) (d : ptr) (delay : Z) (st : St) : comp St :=
  n ← get_dom (getn st) d;
  ring_iter (fun st => srvs (getn st))
    (fun s st =>
       sn ← get_srv (getn st) s;
       if negb (inactive sn =? 0) && (delay <=? now - inactive sn)
       then udp_send_dummy s (setn (upd_srv (set_inactive now) s (getn st)) st)
       else Ok st)
    (S (size (srvs (getn st)))) (srvlist n) (srvlist n) st.
End retry.

(** * The specification of the choice of a server *)

(** The order in which the servers are tried: the list order, or from the
    one after the current server round to the current server itself. *)
Fixpoint rotate_after (c : ptr) (seen l : list ptr) : list ptr :=
  match l with
  | [] => seen
  | x :: l' => if bool_decide (x = c) then l' ++ seen ++ [x]
               else rotate_after c (seen ++ [x]) l'
  end.

Definition active (h : srvheap) (s : ptr) : bool :=
  match h !! s with Some n => inactive n =? 0 | None => false end.

Definition try_order (cur : option ptr) (l : list ptr) : list ptr :=
  match cur with Some c => rotate_after c [] l | None => l end.

Definition first_active (h : srvheap) (l : list ptr) : option ptr :=
  list.head (filter (fun s => active h s = true) l).

(** A domain in order: its server list is a ring whose sentinel counts as
    inactive, and its current server is one of the list. *)
Definition dom_ok (w : net) (n : domnode_t) (l : list ptr) : Prop :=
  ring (srvs w) (srvlist n) l /\ active (srvs w) (srvlist n) = false /\
  match current n with Some c => c ∈ l | None => True end.

(** * Lemmas *)

Lemma ring_rotate (h : srvheap) head l1 c l2 :
  ring h head (l1 ++ c :: l2) -> ring h c (l2 ++ head :: l1).
Proof.
  intros [Hs Hnd]. apply seg_app in Hs as [Hs1 Hs2]. split.
  - apply seg_app. by split.
  - rewrite app_comm_cons in Hnd. rewrite app_comm_cons.
    by rewrite (Permutation_app_comm (c :: l2)).
Qed.

Lemma first_active_cons h y l :
  first_active h (y :: l) = if active h y then Some y else first_active h l.
Proof.
  unfold first_active. rewrite filter_cons. destruct (active h y) eqn:E.
  - by rewrite decide_True.
  - by rewrite decide_False.
Qed.

Lemma active_at (h : srvheap) s n : h !! s = Some n -> active h s = (inactive n =? 0).
Proof. unfold active. by intros ->. Qed.

(** Scanning from [start] visits the ring and stops at [start] at the latest. *)
Lemma scan_active_ok fuel (h : srvheap) start l1 l2 :
  ring h start (l1 ++ l2) -> (length l2 < fuel)%nat ->
  scan_active fuel h start (default start (list.head l2))
  = Ok (default start (first_active h l2)).
Proof.
  revert l1 l2; induction fuel as [|fuel IH]; intros l1 l2 Hr Hf; [lia|].
  destruct l2 as [|y l2].
  - change (default start (list.head [])) with start. cbn [scan_active].
    destruct (ring_elem _ _ _ start Hr) as [n ->]; [by left|]. cbn [of_option mbind comp_bind].
    rewrite (bool_decide_true (start = start)) by done.
    by rewrite andb_false_r.
  - change (default start (list.head (y :: l2))) with y. cbn [scan_active].
    destruct (ring_elem _ _ _ y Hr) as [n Hn]; [set_solver|]. rewrite Hn. cbn [of_option mbind comp_bind].
    assert (y <> start) as Hy.
    { destruct Hr as [_ Hnd]. apply NoDup_cons in Hnd as [Hni _]. set_solver. }
    rewrite bool_decide_false, andb_true_r by done.
    rewrite first_active_cons, (active_at _ _ _ Hn). destruct (inactive n =? 0); cbn [negb].
    + done.
    +       assert (next h y = Ok (default start (list.head l2))) as ->.
      { replace (l1 ++ y :: l2) with ((l1 ++ [y]) ++ l2) in Hr by (by rewrite <- app_assoc).
        apply ring_next_before in Hr. by rewrite before_snoc in Hr. }
      cbn [mbind comp_bind]. apply (IH (l1 ++ [y])).
      * by rewrite <- app_assoc.
      * cbn in Hf. lia.
Qed.

Lemma rotate_after_split c seen l1 l2 : c ∉ l1 ->
  rotate_after c seen (l1 ++ c :: l2) = l2 ++ (seen ++ l1) ++ [c].
Proof.
  revert seen; induction l1 as [|x l1 IH]; intros seen Hc; cbn.
  - rewrite bool_decide_true by done. by rewrite app_nil_r.
  - apply not_elem_of_cons in Hc as [? ?]. rewrite bool_decide_false by done.
    rewrite IH by done. by rewrite <- (app_assoc seen).
Qed.

Lemma first_active_app h l1 l2 : first_active h (l1 ++ l2) =
  match first_active h l1 with Some s => Some s | None => first_active h l2 end.
Proof.
  unfold first_active. rewrite filter_app. by destruct (filter _ l1).
Qed.

Lemma first_active_Some h l s : first_active h l = Some s -> s ∈ l /\ active h s = true.
Proof.
  unfold first_active. intros H. apply head_Some_elem_of, list_elem_of_filter in H. tauto.
Qed.

Lemma next_active_ok w d n l : doms w !! d = Some n -> dom_ok w n l ->
  next_active w d = Ok (first_active (srvs w) (try_order (current n) l)).
Proof.
  intros Hd (Hr & Hs & Hc). unfold next_active, get_dom. rewrite Hd. cbn [of_option mbind comp_bind].
  set (start := default (srvlist n) (current n)).
  assert (exists l', ring (srvs w) start l' /\
    match first_active (srvs w) (l' ++ [start]) with
    | Some s => first_active (srvs w) (try_order (current n) l) = Some s
    | None => first_active (srvs w) (try_order (current n) l) = None end) as (l' & Hr' & Hfa).
  { unfold start. destruct (current n) as [c|]; cbn [default try_order]; unfold id.
    - apply list_elem_of_split in Hc as (l1 & l2 & ->).
      exists (l2 ++ srvlist n :: l1). split; [by apply ring_rotate|].
      rewrite rotate_after_split.
      2:{ destruct Hr as [_ Hnd]. apply NoDup_cons in Hnd as [_ Hnd].
          apply NoDup_app in Hnd as (_ & Hdis & _). intros Hin. apply (Hdis c Hin). by left. }
      cbn [app]. rewrite <- app_assoc, !first_active_app.
      rewrite (first_active_cons _ (srvlist n)), Hs.
      by destruct (first_active (srvs w) l2), (first_active (srvs w) l1), (first_active (srvs w) [c]).
    - exists l. split; [done|]. rewrite first_active_app.
      rewrite first_active_cons, Hs.
      by destruct (first_active (srvs w) l). }
  pose proof (ring_next_before _ start [] l' Hr') as Hn.
  change (before start []) with start in Hn. rewrite Hn. cbn [mbind comp_bind].
  rewrite (scan_active_ok _ _ _ [] l') by (try done; pose proof (ring_size _ _ _ Hr'); lia).
  cbn [mbind comp_bind]. rewrite first_active_app in Hfa.
  destruct (first_active (srvs w) l') as [s|] eqn:Hs'; cbn [default].
  - rewrite Hfa. apply first_active_Some in Hs' as [_ Ha]. unfold active, get_srv in *. cbn.
    destruct (srvs w !! s); [|done]. cbn. by rewrite Ha.
  - destruct (ring_elem _ _ _ start Hr') as [sn Hsn]; [by left|].
    unfold get_srv. cbn. rewrite Hsn. cbn.
    rewrite first_active_cons, (active_at _ _ _ Hsn) in Hfa.
    destruct (inactive sn =? 0); cbn in *; by rewrite Hfa.
Qed.

(** Changing a server's [inactive] stamp keeps the rings. *)
Lemma upd_srv_ring w f c head l : (forall x, nx (f x) = nx x) ->
  ring (srvs w) head l -> ring (srvs (upd_srv f c w)) head l.
Proof.
  intros Hf. apply ring_ext. intros a _. cbn. rewrite lookup_alter.
  case_decide; [|done]. subst. destruct (srvs w !! a); cbn; [|done]. f_equal. apply Hf.
Qed.

Lemma active_upd_ne w f c s : s <> c -> active (srvs (upd_srv f c w)) s = active (srvs w) s.
Proof. intros Hne. unfold active. cbn. by rewrite lookup_alter_ne by done. Qed.

Lemma active_upd_inactive w now c : now <> 0 ->
  active (srvs (upd_srv (set_inactive now) c w)) c = false.
Proof.
  intros Hn. unfold active. cbn. rewrite lookup_alter, decide_True by done.
  destruct (srvs w !! c); cbn; [by apply Z.eqb_neq|done].
Qed.

Lemma dom_ok_deactivate w n l c now : now <> 0 -> dom_ok w n l -> c ∈ l ->
  dom_ok (upd_srv (set_inactive now) c w) n l.
Proof.
  intros Hn (Hr & Hs & Hc) Hin. split; [by apply upd_srv_ring|]. split; [|done].
  rewrite active_upd_ne; [done|]. intros Heq. destruct Hr as [_ Hnd].
  apply NoDup_cons in Hnd as [Hni _]. by rewrite Heq in Hni.
Qed.

(** ** Subdomains *)

Lemma wire_labels_cons l ls : wire_labels (l :: ls) = (zlen l :: l) ++ wire_labels ls.
Proof. done. Qed.

Lemma wire_labels_inj ls1 ls2 : wire_labels ls1 = wire_labels ls2 -> ls1 = ls2.
Proof.
  revert ls2; induction ls1 as [|l1 ls1 IH]; intros [|l2 ls2] H; try done.
  rewrite !wire_labels_cons in H. cbn in H. injection H as Hlen H.
  apply app_inj_1 in H as [-> H]; [|unfold zlen in *; lia]. f_equal. by apply IH.
Qed.

(** The bytes of a domain are a suffix of those of a name exactly when its
    labels are, if no character of the name equals the length of the first
    label of the domain. *)
Lemma wire_suffix_labels dl dls nls :
  Forall (Forall (fun b => b <> zlen dl)) nls ->
  wire_labels (dl :: dls) `suffix_of` wire_labels nls ->
  (dl :: dls) `suffix_of` nls.
Proof.
  induction nls as [|l nls IH]; intros Hf [k Hk].
  - apply (f_equal length) in Hk. rewrite length_app, wire_labels_cons in Hk. cbn in Hk. lia.
  - apply Forall_cons in Hf as [Hl Hf]. destruct k as [|b k].
    + cbn [app] in Hk. apply wire_labels_inj in Hk. rewrite Hk. done.
    + rewrite wire_labels_cons in Hk. cbn [app] in Hk. injection Hk as _ Hk.
      destruct (decide (length l <= length k)%nat) as [Hle|Hgt].
      * assert (wire_labels (dl :: dls) `suffix_of` wire_labels nls) as Hs.
        { exists (drop (length l) k). rewrite <- drop_app_le by done.
          rewrite <- Hk. by rewrite drop_app_length. }
        apply IH in Hs as [k' Hk']; [|done]. exists (l :: k'). by rewrite Hk'.
      * exfalso. assert (l !! length k = Some (zlen dl)) as Hlk.
        { rewrite <- (lookup_app_l l (wire_labels nls)) by lia. rewrite Hk.
          rewrite lookup_app_r by lia. by rewrite Nat.sub_diag. }
        by apply (Forall_lookup_1 _ _ _ _ Hl) in Hlk.
Qed.

Lemma wire_suffix_of_labels dls nls : dls `suffix_of` nls -> wire_labels dls `suffix_of` wire_labels nls.
Proof.
  intros [k ->]. exists (wire_labels k). unfold wire_labels. by rewrite fmap_app, concat_app.
Qed.

Lemma sub_match_suffix name dn maxlen : zlen name < maxlen -> zlen dn < maxlen ->
  sub_match name dn maxlen = if bool_decide (dn `suffix_of` name) then Some (zlen dn) else None.
Proof.
  intros Hn Hd. unfold sub_match, strnlen, strncmp0.
  pose proof (zlen_nonneg name). pose proof (zlen_nonneg dn).
  rewrite Z.min_l by lia.
  set (off := if zlen dn <? zlen name then zlen name - zlen dn else 0).
  assert (0 <= off <= zlen name) by (unfold off; case_if; zbool; lia).
  assert (zlen name < maxlen /\ zlen dn <= maxlen - off)
    by (unfold off; case_if; zbool; lia).
  rewrite (take_ge dn), (take_ge (drop _ _)) by (rewrite ?length_drop; unfold zlen in *; lia).
  destruct (str_eqb dn (drop (Z.to_nat off) name)) eqn:He.
  - apply str_eqb_eq in He. rewrite bool_decide_true; [done|]. rewrite He. apply suffix_drop.
  - rewrite bool_decide_false; [done|]. intros [k Hk].
    assert (str_eqb dn (drop (Z.to_nat off) name) = true); [|congruence].
    apply str_eqb_eq. rewrite Hk. assert (Z.to_nat off = length k) as ->.
    { unfold off. rewrite Hk. unfold zlen. rewrite length_app. case_if; zbool; lia. }
    by rewrite drop_app_length.
Qed.

(** What the loop returns: the default or the first of the longest matching
    domains. *)
Definition best_sub (w : net) (name : list Z) (maxlen : Z) (l : list ptr) (curr : ptr) (mf : Z)
  : ptr * Z :=
  foldl (fun '(curr, mf) d =>
    match doms w !! d ≫= domain with
    | Some dn => match sub_match name dn maxlen with
                 | Some h => if mf <? h then (d, h) else (curr, mf)
                 | None => (curr, mf)
                 end
    | None => (curr, mf)
    end) (curr, mf) l.

Definition named (w : net) (d : ptr) : Prop := is_Some (doms w !! d ≫= domain).

Lemma search_sub_loop_ok fuel w head name maxlen l1 l2 curr mf :
  ring (doms w) head (l1 ++ l2) -> Forall (named w) l2 -> (length l2 < fuel)%nat ->
  search_sub_loop fuel w head (before head l1) name maxlen curr mf
  = Ok (fst (best_sub w name maxlen l2 curr mf)).
Proof.
  revert l1 l2 curr mf; induction fuel as [|fuel IH]; intros l1 l2 curr mf Hr Hn Hf; [lia|].
  cbn [search_sub_loop]. rewrite (ring_next_before _ _ _ _ Hr). cbn [mbind comp_bind].
  destruct l2 as [|y l2]; [by rewrite bool_decide_true|].
  change (default head (list.head (y :: l2))) with y.
  apply Forall_cons in Hn as [[dn Hdn] Hn].
  rewrite bool_decide_false.
  2:{ destruct Hr as [_ Hnd]. apply NoDup_cons in Hnd as [Hni _]. set_solver. }
  destruct (doms w !! y) as [n|] eqn:Hy; [|done]. cbn in Hdn.
  unfold get_dom. rewrite Hy. cbn [of_option mbind comp_bind]. rewrite Hdn. cbn [of_option mbind comp_bind].
  unfold best_sub. cbn [foldl]. rewrite Hy. cbn [mbind option_bind]. rewrite Hdn.
  assert (forall curr mf, search_sub_loop fuel w head y name maxlen curr mf
      = Ok (fst (best_sub w name maxlen l2 curr mf))) as Hrec.
  { intros c m. specialize (IH (l1 ++ [y]) l2 c m). rewrite before_snoc, <- app_assoc in IH.
    apply IH; [done|done|]. cbn in Hf. lia. }
  destruct (sub_match name dn maxlen); [case_if|]; apply Hrec.
Qed.

Lemma best_sub_spec w name maxlen l curr mf c m :
  best_sub w name maxlen l curr mf = (c, m) ->
  mf <= m /\
  (c = curr /\ m = mf \/ c ∈ l /\ exists dn, doms w !! c ≫= domain = Some dn /\
      sub_match name dn maxlen = Some m) /\
  (forall d dn h, d ∈ l -> doms w !! d ≫= domain = Some dn ->
      sub_match name dn maxlen = Some h -> h <= m).
Proof.
  unfold best_sub. revert curr mf; induction l as [|y l IH]; intros curr mf; cbn [foldl].
  { intros; inv_comp. split; [lia|]. split; [auto|]. set_solver. }
  set (st := match doms w !! y ≫= domain with Some _ => _ | None => _ end).
  destruct st as [c1 m1] eqn:Hst. intros Hb. apply IH in Hb as (Hle & Hc & Hmax). clear IH.
  assert (mf <= m1 /\ (c1 = curr /\ m1 = mf \/ c1 = y /\ exists dn,
      doms w !! y ≫= domain = Some dn /\ sub_match name dn maxlen = Some m1) /\
    (forall dn h, doms w !! y ≫= domain = Some dn -> sub_match name dn maxlen = Some h -> h <= m1))
    as (H1 & H2 & H3).
  { unfold st in Hst. destruct (doms w !! y ≫= domain) as [dn|]; [|inv_comp; naive_solver lia].
    destruct (sub_match name dn maxlen) as [h|] eqn:Hm; [|inv_comp; naive_solver lia].
    destruct (mf <? h) eqn:E; zbool; inv_comp.
    - split; [lia|]. split; [eauto|]. intros ? ? [= <-] Heq. rewrite Hm in Heq. inv_comp. lia.
    - split; [lia|]. split; [eauto|]. intros ? ? [= <-] Heq. rewrite Hm in Heq. inv_comp. lia. }
  split; [lia|]. split.
  - destruct Hc as [[-> ->]|(Hin & ?)]; [|right; split; [by right|done]].
    destruct H2 as [?|(-> & ?)]; [by left|]. right. split; [by left|done].
  - intros d dn h Hd Hdn Hh. apply elem_of_cons in Hd as [->|Hd]; [|by eapply Hmax].
    pose proof (H3 dn h Hdn Hh). lia.
Qed.

Lemma first_active_None h l :
  first_active h l = None <-> Forall (fun s => active h s = false) l.
Proof.
  induction l as [|y l IH]; [by split|]. rewrite first_active_cons, Forall_cons.
  destruct (active h y); naive_solver.
Qed.

Lemma try_order_perm cur l : match cur with Some c => c ∈ l | None => True end ->
  NoDup l -> try_order cur l ≡ₚ l.
Proof.
  intros Hc Hnd. destruct cur as [c|]; [|done]. cbn.
  apply list_elem_of_split in Hc as (l1 & l2 & ->).
  apply NoDup_app in Hnd as (_ & Hdis & _).
  rewrite rotate_after_split by (intros Hin; apply (Hdis c Hin); by left).
  cbn [app]. by rewrite (Permutation_app_comm l2), <- app_assoc.
Qed.

Lemma dom_ok_perm w n l : dom_ok w n l -> try_order (current n) l ≡ₚ l.
Proof.
  intros ((_ & Hnd) & _ & Hc). apply NoDup_cons in Hnd as [_ Hnd]. by apply try_order_perm.
Qed.

Lemma deactivate_current_ok now w d n c l :
  now <> 0 -> doms w !! d = Some n -> dom_ok w n l -> current n = Some c ->
  exists w' s, deactivate_current now w d = Ok w' /\
    doms w' !! d = Some (set_cur s n) /\
    srvs w' = alter (set_inactive now) c (srvs w) /\ dom_ok w' (set_cur s n) l /\
    match s with
    | Some s => s ∈ l /\ s <> c /\ active (srvs w) s = true
    | None => forall s, s ∈ l -> s <> c -> active (srvs w) s = false
    end.
Proof.
  intros Hnow Hd Hok Hc. pose proof Hok as (Hr & _ & Hin). rewrite Hc in Hin.
  set (w1 := upd_srv (set_inactive now) c w).
  assert (dom_ok w1 n l) as Hok1 by (by apply dom_ok_deactivate).
  pose proof (dom_ok_perm _ _ _ Hok1) as Hperm.
  exists (set_current w1 d (first_active (srvs w1) (try_order (current n) l))).
  eexists. split.
  { unfold deactivate_current, get_dom. rewrite Hd. cbn [of_option mbind comp_bind]. rewrite Hc.
    fold w1. erewrite next_active_ok by done. by rewrite <- Hc. }
  cbn [doms set_current]. change (doms w1) with (doms w).
  rewrite lookup_alter, decide_True, Hd by done. split; [done|].
  split; [done|]. split.
  { destruct Hok1 as (Hr1 & Hs1 & _). split; [done|]. split; [done|]. cbn [set_cur current].
    destruct (first_active (srvs w1) (try_order (current n) l)) as [s|] eqn:Hfa; [|done].
    apply first_active_Some in Hfa as [Hs _]. by rewrite Hperm in Hs. }
  destruct (first_active (srvs w1) _) as [s|] eqn:Hfa.
  - apply first_active_Some in Hfa as [Hs Ha]. rewrite Hperm in Hs. assert (s <> c) as Hsc.
    { intros ->. unfold w1 in Ha. by rewrite active_upd_inactive in Ha. }
    unfold w1 in Ha. by rewrite active_upd_ne in Ha.
  - intros s Hs Hsc. rewrite <- (active_upd_ne w (set_inactive now) c s Hsc).
    apply first_active_None in Hfa. rewrite Forall_forall in Hfa. apply Hfa. by rewrite Hperm.
Qed.

(** * Properties *)

(** [next_active] returns the first active server after the current one,
    going round the list (the current one itself last, the sentinel never),
    or NULL exactly when no server of the list is active. *)
Theorem next_active_round_robin w d n l :
  doms w !! d = Some n -> dom_ok w n l ->
  next_active w d = Ok (first_active (srvs w) (try_order (current n) l)) /\
  (next_active w d = Ok None <-> Forall (fun s => active (srvs w) s = false) l).
Proof.
  intros Hd Hok. rewrite (next_active_ok w d n l) by done. split; [done|].
  rewrite <- (Forall_Permutation _ _ (fun _ => iff_refl _) _ _ (dom_ok_perm _ _ _ Hok)).
  rewrite <- first_active_None. split; [by intros [= ?]|by intros ->].
Qed.

(** Two servers, the first of them down, behind the default domain. *)
Definition net2 : net :=
  Net (alter (set_inactive 5) 2%positive two_servers)
      (<[1%positive := Dom None 1%positive (Some 2%positive) 0 0 1%positive]> ∅).

Lemma net2_ok : dom_ok net2 (Dom None 1%positive (Some 2%positive) 0 0 1%positive)
  [2%positive; 3%positive].
Proof. split; [split; [done|by_decide]|]. split; [done|]. by_decide. Qed.

Lemma next_active_round_robin_witness :
  next_active net2 1%positive = Ok (Some 3%positive) /\
  (next_active net2 1%positive = Ok None <->
    Forall (fun s => active (srvs net2) s = false) [2%positive; 3%positive]).
Proof. exact (next_active_round_robin net2 1%positive _ _ eq_refl net2_ok). Defined.

(** Deactivating the current server stamps it and moves the domain to the
    next active server of the list, which is never the one just deactivated;
    with no other active server the domain is left without one. *)
Theorem deactivate_current_moves_on now w d n c l :
  now <> 0 -> doms w !! d = Some n -> dom_ok w n l -> current n = Some c ->
  exists w' s, deactivate_current now w d = Ok w' /\
    doms w' !! d = Some (set_cur s n) /\
    srvs w' = alter (set_inactive now) c (srvs w) /\
    match s with
    | Some s => s ∈ l /\ s <> c /\ active (srvs w) s = true
    | None => forall s, s ∈ l -> s <> c -> active (srvs w) s = false
    end.
Proof.
  intros Hnow Hd Hok Hc. destruct (deactivate_current_ok now w d n c l) as (w' & s & ? & ? & ? & _ & ?);
    eauto 10.
Qed.

Lemma deactivate_current_moves_on_witness :
  exists w' s, deactivate_current 9 net2 1%positive = Ok w' /\
    doms w' !! 1%positive = Some (set_cur s (Dom None 1%positive (Some 2%positive) 0 0 1%positive)) /\
    srvs w' = alter (set_inactive 9) 2%positive (srvs net2) /\
    match s with
    | Some s => s ∈ [2%positive; 3%positive] /\ s <> 2%positive /\ active (srvs net2) s = true
    | None => forall s, s ∈ [2%positive; 3%positive] -> s <> 2%positive -> active (srvs net2) s = false
    end.
Proof. eapply deactivate_current_moves_on; [done|done|apply net2_ok|done]. Defined.

(** [search_subdomnode] returns the default domain when no domain is a
    suffix of the query name, and otherwise a domain of the list that is a
    suffix of it and at least as long as every other such domain. *)
Theorem search_subdomnode_longest_suffix w head l buf name maxlen :
  ring (doms w) head l -> Forall (named w) l ->
  cstr buf = name -> zlen name < zlen buf -> zlen name < maxlen ->
  (forall d dn, d ∈ l -> doms w !! d ≫= domain = Some dn -> 0 < zlen dn < maxlen) ->
  exists r, search_subdomnode w head buf maxlen = Ok r /\
    ((r = head /\ forall d dn, d ∈ l -> doms w !! d ≫= domain = Some dn -> ~ dn `suffix_of` name) \/
     (r ∈ l /\ exists rn, doms w !! r ≫= domain = Some rn /\ rn `suffix_of` name /\
      forall d dn, d ∈ l -> doms w !! d ≫= domain = Some dn -> dn `suffix_of` name ->
        zlen dn <= zlen rn)).
Proof.
  intros Hr Hnamed Hname Hbuf Hmax Hlen. unfold search_subdomnode, strnlen_buf.
  rewrite Hname. rewrite (proj2 (Z.leb_gt _ _)), (proj2 (Z.ltb_lt _ _)) by lia.
  cbn [mbind comp_bind].
  replace (take (Z.to_nat (zlen name)) buf) with name.
  2:{ rewrite take_cstr, Hname by (rewrite Hname; unfold zlen; lia).
      by rewrite take_ge by (unfold zlen; lia). }
  rewrite (search_sub_loop_ok _ w head name maxlen [] l)
    by (try done; pose proof (ring_size _ _ _ Hr); lia).
  destruct (best_sub w name maxlen l head 0) as [c m] eqn:Hb. cbn [fst].
  apply best_sub_spec in Hb as (Hle & Hc & Hbest). exists c. split; [done|].
  assert (forall d dn, d ∈ l -> doms w !! d ≫= domain = Some dn ->
    sub_match name dn maxlen = if bool_decide (dn `suffix_of` name) then Some (zlen dn) else None)
    as Hsm by (intros d dn Hd Hdn; apply sub_match_suffix; [done|by apply (Hlen d)]).
  destruct Hc as [[-> ->]|(Hin & rn & Hrn & Hm)].
  - left. split; [done|]. intros d dn Hd Hdn Hsuf. pose proof (Hlen d dn Hd Hdn).
    specialize (Hbest d dn (zlen dn) Hd Hdn). rewrite (Hsm d dn Hd Hdn), bool_decide_true in Hbest by done.
    specialize (Hbest eq_refl). lia.
  - right. split; [done|]. exists rn. split; [done|].
    rewrite (Hsm c rn Hin Hrn) in Hm. case_bool_decide as Hs; [|done]. inv_comp.
    split; [done|]. intros d dn Hd Hdn Hsuf. apply (Hbest d dn (zlen dn) Hd Hdn).
    by rewrite (Hsm d dn Hd Hdn), bool_decide_true.
Qed.

(** The default domain with the domain org behind it. *)
Definition net_org : net :=
  Net ∅ (<[1%positive := Dom None 1%positive None 0 0 2%positive]>
        (<[2%positive := Dom (Some (wire_labels [lit "org"])) 2%positive None 0 0 1%positive]> ∅)).

Lemma search_subdomnode_longest_suffix_witness :
  exists r, search_subdomnode net_org 1%positive (encode_labels [lit "yes"; lit "org"]) 20 = Ok r /\
    ((r = 1%positive /\ forall d dn, d ∈ [2%positive] -> doms net_org !! d ≫= domain = Some dn ->
        ~ dn `suffix_of` wire_labels [lit "yes"; lit "org"]) \/
     (r ∈ [2%positive] /\ exists rn, doms net_org !! r ≫= domain = Some rn /\
      rn `suffix_of` wire_labels [lit "yes"; lit "org"] /\
      forall d dn, d ∈ [2%positive] -> doms net_org !! d ≫= domain = Some dn ->
        dn `suffix_of` wire_labels [lit "yes"; lit "org"] -> zlen dn <= zlen rn)).
Proof.
  apply search_subdomnode_longest_suffix; try done.
  - split; [done|by_decide].
  - apply Forall_singleton. by eexists.
  - intros d dn Hd Hdn. apply list_elem_of_singleton in Hd as ->. injection Hdn as <-. done.
Defined.

(** For names whose characters differ from the length of the domain's
    first label, the suffix test on the wire format is the subdomain relation
    on labels: hayes.org is not taken for a subdomain of yes.org. *)
Theorem subdomain_on_labels dl dls nls maxlen :
  Forall (Forall (fun b => b <> zlen dl)) nls ->
  zlen (wire_labels nls) < maxlen -> zlen (wire_labels (dl :: dls)) < maxlen ->
  is_Some (sub_match (wire_labels nls) (wire_labels (dl :: dls)) maxlen) <->
  (dl :: dls) `suffix_of` nls.
Proof.
  intros Hf Hn Hd. rewrite sub_match_suffix by done. split.
  - case_bool_decide; [|by intros []]. intros _. by apply wire_suffix_labels.
  - intros Hs. rewrite bool_decide_true by (by apply wire_suffix_of_labels). eauto.
Qed.

Lemma subdomain_on_labels_witness :
  is_Some (sub_match (wire_labels [lit "hayes"; lit "org"]) (wire_labels [lit "yes"; lit "org"]) 100)
  <-> [lit "yes"; lit "org"] `suffix_of` [lit "hayes"; lit "org"].
Proof. apply subdomain_on_labels; [by_decide|done|done]. Defined.

(** The condition on the characters is needed: a label of 48 characters has
    the length byte 48, which is also the digit 0. *)
Example subdomain_digit_confusion :
  sub_match (wire_labels [lit "x0" ++ replicate 48 97; lit "org"])
            (wire_labels [replicate 48 97; lit "org"]) 512 = Some 53.
Proof. done. Qed.
