(* ===== verification/Qid.v ===== *)
(** Query identifiers (src/dnrd-2.20.3/src/qid.c) and the ISAAC generator they
    are drawn with (src/dnrd-2.20.3/src/rand.c, rand.h): a pool of all 65536
    identifiers from which one is taken at a random position and to which it
    is returned. *)
From S2P Require Import Prelude.
Set Warnings "-clear-no-such-hyp".

(** * ISAAC *)

Definition RANDSIZL : Z := 4.
Definition RANDSIZ : nat := 16.

Record randctx := Ctx {
  randcnt : Z; randrsl : list Z; randmem : list Z; randa : Z; randb : Z; randc : Z }.

(** [ind (mm, x)]: the word at the byte offset [x & ((RANDSIZ-1) << 2)]. *)
Definition ind (mm : list Z) (x : Z) : Z :=
  nth (Z.to_nat (Z.shiftr (Z.land x (Z.shiftl (Z.of_nat RANDSIZ - 1) 2)) 2)) mm 0.

(** One [rngstep] at [*m], [*m2] and [*r]; [m] and [r] advance together. *)
Definition rngstep (mix : Z -> Z) (m m2 : nat) (st : Z * Z * list Z * list Z)
  : Z * Z * list Z * list Z :=
  let '(a, b, mm, rsl) := st in
  let x := nth m mm 0 in
  let a := u32 (Z.lxor a (mix a) + nth m2 mm 0) in
  let y := u32 (ind mm x + a + b) in
  let mm := <[m := y]> mm in
  let b := u32 (ind mm (Z.shiftr y RANDSIZL) + x) in
  (a, b, mm, <[m := b]> rsl).

(** The four steps of an iteration of either loop. *)
Definition rng4 (m m2 : nat) (st : Z * Z * list Z * list Z) : Z * Z * list Z * list Z :=
  let st := rngstep (fun a => u32 (Z.shiftl a 13)) m m2 st in
  let st := rngstep (fun a => Z.shiftr a 6) (m + 1) (m2 + 1) st in
  let st := rngstep (fun a => u32 (Z.shiftl a 2)) (m + 2) (m2 + 2) st in
  rngstep (fun a => Z.shiftr a 16) (m + 3) (m2 + 3) st.

(** The two loops: [m] runs over the first half with [m2] over the second,
    then the other way round. *)
Definition isaac_loops (st : Z * Z * list Z * list Z) : Z * Z * list Z * list Z :=
  rng4 12 4 (rng4 8 0 (rng4 4 12 (rng4 0 8 st))).

Definition isaac (ctx : randctx) : randctx :=
  let rc := u32 (randc ctx + 1) in
  match isaac_loops (randa ctx, u32 (randb ctx + rc), randmem ctx, randrsl ctx) with
  | (a, b, mm, rsl) => Ctx (randcnt ctx) rsl mm a b rc
  end.

Definition oct : Type := Z * Z * Z * Z * Z * Z * Z * Z.

Definition mix (s : oct) : oct :=
  let '(a, b, c, d, e, f, g, h) := s in
  let a := Z.lxor a (u32 (Z.shiftl b 11)) in let d := u32 (d + a) in let b := u32 (b + c) in
  let b := Z.lxor b (Z.shiftr c 2) in let e := u32 (e + b) in let c := u32 (c + d) in
  let c := Z.lxor c (u32 (Z.shiftl d 8)) in let f := u32 (f + c) in let d := u32 (d + e) in
  let d := Z.lxor d (Z.shiftr e 16) in let g := u32 (g + d) in let e := u32 (e + f) in
  let e := Z.lxor e (u32 (Z.shiftl f 10)) in let h := u32 (h + e) in let f := u32 (f + g) in
  let f := Z.lxor f (Z.shiftr g 4) in let a := u32 (a + f) in let g := u32 (g + h) in
  let g := Z.lxor g (u32 (Z.shiftl h 8)) in let b := u32 (b + g) in let h := u32 (h + a) in
  let h := Z.lxor h (Z.shiftr a 9) in let c := u32 (c + h) in let a := u32 (a + b) in
  (a, b, c, d, e, f, g, h).

(** [a += r[i]; ... h += r[i+7];] *)
Definition add8 (s : oct) (r : list Z) (i : nat) : oct :=
  let '(a, b, c, d, e, f, g, h) := s in
  (u32 (a + nth i r 0), u32 (b + nth (i + 1) r 0), u32 (c + nth (i + 2) r 0),
   u32 (d + nth (i + 3) r 0), u32 (e + nth (i + 4) r 0), u32 (f + nth (i + 5) r 0),
   u32 (g + nth (i + 6) r 0), u32 (h + nth (i + 7) r 0)).

(** [m[i] = a; ... m[i+7] = h;] *)
Definition store8 (s : oct) (m : list Z) (i : nat) : list Z :=
  let '(a, b, c, d, e, f, g, h) := s in blit m i [a; b; c; d; e; f; g; h].

(** The two seeding passes over the blocks of eight; [own] says that a block
    is seeded from [m] itself, as in the second pass. *)
Fixpoint seed_pass (own : bool) (blocks : list nat) (s : oct) (r m : list Z) : oct * list Z :=
  match blocks with
  | [] => (s, m)
  | i :: blocks' =>
      let s := mix (add8 s (if own then m else r) i) in
      seed_pass own blocks' s r (store8 s m i)
  end.

Fixpoint plain_pass (blocks : list nat) (s : oct) (m : list Z) : list Z :=
  match blocks with
  | [] => m
  | i :: blocks' => let s := mix s in plain_pass blocks' s (store8 s m i)
  end.

Definition golden : Z := 0x9e3779b9.

Definition randinit (ctx : randctx) (flag : bool) : randctx :=
  let s := (golden, golden, golden, golden, golden, golden, golden, golden) in
  let s := mix (mix (mix (mix s))) in
  let m := randmem ctx in
  let m :=
    if flag then
      let '(s, m) := seed_pass false [0; 8]%nat s (randrsl ctx) m in
      snd (seed_pass true [0; 8]%nat s (randrsl ctx) m)
    else plain_pass [0; 8]%nat s m in
  let ctx := isaac (Ctx (randcnt ctx) (randrsl ctx) m 0 0 0) in
  Ctx (Z.of_nat RANDSIZ) (randrsl ctx) (randmem ctx) (randa ctx) (randb ctx) (randc ctx).

Definition with_cnt (c : Z) (x : randctx) : randctx :=
  Ctx c (randrsl x) (randmem x) (randa x) (randb x) (randc x).

(** The context [rand] reads from: [randcnt--], and a new batch of results
    when it was zero. *)
Definition rand_next (ctx : randctx) : randctx :=
  if randcnt ctx =? 0 then with_cnt (Z.of_nat RANDSIZ - 1) (isaac (with_cnt (u32 (-1)) ctx))
  else with_cnt (randcnt ctx - 1) ctx.

(** The macro [rand (r)]. *)
Definition rand (ctx : randctx) : comp (Z * randctx) :=
  v ← rd (randrsl (rand_next ctx)) (randcnt (rand_next ctx));
  mret (v, rand_next ctx).

(** * qid.c *)

Definition QID_POOL_SIZE : Z := 65536.

(** Rounding of a natural number to a [float]: 24 significant bits, to
    nearest, ties to even. *)
Definition round24 (n : Z) : Z :=
  if n <? 2 ^ 24 then n
  else
    let e := Z.log2 n - 23 in
    let q := n / 2 ^ e in
    let r := n `mod` 2 ^ e in
    let half := 2 ^ (e - 1) in
    (if (half <? r) || ((r =? half) && Z.odd q) then q + 1 else q) * 2 ^ e.

(** [(float) max * (unsigned) r / (0xffffffff + 1.0)], truncated: the product
    is a [float], its division by [2^32] is exact. *)
Definition scale (max r : Z) : Z :=
  Z.quot (Z.sgn max * round24 (round24 (Z.abs max) * round24 r)) (2 ^ 32).

Record qidpool := Pool { qid_pool : list Z; pool_ptr : Z; isaac_ctx : randctx }.

Definition myrand (max : Z) (p : qidpool) : comp (Z * qidpool) :=
  '(r, ctx) ← rand (isaac_ctx p);
  mret (scale max r, Pool (qid_pool p) (pool_ptr p) ctx).

(** [seed] is what the clock leaves in [randrsl]; [pool_ptr] keeps its static
    initial value. *)
Definition qid_init_pool (seed : list Z) : qidpool :=
  let ctx := Ctx 0 seed (replicate RANDSIZ 0) 0 0 0 in
  Pool (seqZ 0 QID_POOL_SIZE) (QID_POOL_SIZE - 1) (randinit ctx true).

Definition qid_get (p : qidpool) : comp (Z * qidpool) :=
  '(r, p) ← myrand (pool_ptr p) p;
  let i := Z.rem r QID_POOL_SIZE in
  t ← rd (qid_pool p) i;
  v ← rd (qid_pool p) (Z.rem (pool_ptr p) QID_POOL_SIZE);
  l ← wr (qid_pool p) i v;
  mret (t, Pool l (pool_ptr p - 1) (isaac_ctx p)).

Definition qid_return (qid : Z) (p : qidpool) : comp qidpool :=
  let ptr := pool_ptr p + 1 in
  l ← wr (qid_pool p) (Z.rem ptr QID_POOL_SIZE) qid;
  mret (Pool l ptr (isaac_ctx p)).

(** * Invariants *)

Definition is_u32 (z : Z) : Prop := 0 <= z < 2 ^ 32.

#[export] Instance is_u32_dec z : Decision (is_u32 z).
Proof. unfold is_u32. apply _. Defined.

Definition ctx_ok (c : randctx) : Prop :=
  length (randrsl c) = RANDSIZ /\ Forall is_u32 (randrsl c) /\ 0 <= randcnt c <= Z.of_nat RANDSIZ.

(** [out] are the identifiers in use: the free part of the pool and [out]
    are together all the identifiers, each once. *)
Definition qid_inv (p : qidpool) (out : list Z) : Prop :=
  zlen (qid_pool p) = QID_POOL_SIZE /\ -1 <= pool_ptr p < QID_POOL_SIZE /\
  ctx_ok (isaac_ctx p) /\
  take (Z.to_nat (pool_ptr p + 1)) (qid_pool p) ++ out ≡ₚ seqZ 0 QID_POOL_SIZE.

(** * Lemmas *)

Lemma u32_is z : is_u32 (u32 z).
Proof. unfold is_u32, u32. apply Z.mod_pos_bound. lia. Qed.

Lemma rngstep_rsl mx m m2 st :
  length (snd (rngstep mx m m2 st)) = length (snd st) /\
  (Forall is_u32 (snd st) -> Forall is_u32 (snd (rngstep mx m m2 st))).
Proof.
  destruct st as [[[a b] mm] rsl]. unfold rngstep. cbn [snd]. split; [apply length_insert|].
  intros H. apply Forall_insert; [done|apply u32_is].
Qed.

Lemma rng4_rsl m m2 st :
  length (snd (rng4 m m2 st)) = length (snd st) /\
  (Forall is_u32 (snd st) -> Forall is_u32 (snd (rng4 m m2 st))).
Proof.
  unfold rng4. split.
  - by rewrite !(proj1 (rngstep_rsl _ _ _ _)).
  - intros H. by repeat apply (proj2 (rngstep_rsl _ _ _ _)).
Qed.

Lemma isaac_loops_rsl st :
  length (snd (isaac_loops st)) = length (snd st) /\
  (Forall is_u32 (snd st) -> Forall is_u32 (snd (isaac_loops st))).
Proof.
  unfold isaac_loops. split.
  - by rewrite !(proj1 (rng4_rsl _ _ _)).
  - intros H. by repeat apply (proj2 (rng4_rsl _ _ _)).
Qed.
#[local] Opaque isaac_loops.

Lemma isaac_rsl c : length (randrsl (isaac c)) = length (randrsl c) /\
  (Forall is_u32 (randrsl c) -> Forall is_u32 (randrsl (isaac c))).
Proof.
  unfold isaac. cbv zeta. set (s0 := (randa c, _, _, _)).
  change (randrsl c) with (snd s0). pose proof (isaac_loops_rsl s0) as [H1 H2].
  destruct (isaac_loops s0) as [[[a b] mm] rsl]. done.
Qed.

Lemma with_cnt_ok k c : ctx_ok c -> 0 <= k <= Z.of_nat RANDSIZ -> ctx_ok (with_cnt k c).
Proof. intros (Hl & Hf & _) Hk. split; [exact Hl|]. split; [exact Hf|exact Hk]. Qed.

Lemma rand_next_ok c : ctx_ok c ->
  ctx_ok (rand_next c) /\ 0 <= randcnt (rand_next c) < Z.of_nat RANDSIZ.
Proof.
  intros Hok. unfold rand_next. destruct (randcnt c =? 0) eqn:E; zbool.
  - assert (length (randrsl (isaac (with_cnt (u32 (-1)) c))) = RANDSIZ /\
      Forall is_u32 (randrsl (isaac (with_cnt (u32 (-1)) c)))) as [H1 H2].
    { destruct (isaac_rsl (with_cnt (u32 (-1)) c)) as [H1 H2]. destruct Hok as (Hl & Hf & _).
      split; [exact (eq_trans H1 Hl)|exact (H2 Hf)]. }
    revert H1 H2. generalize (isaac (with_cnt (u32 (-1)) c)). intros x H1 H2.
    unfold RANDSIZ in *. split; [|cbn [with_cnt randcnt]; lia].
    split; [exact H1|]. split; [exact H2|cbn [with_cnt randcnt]; unfold RANDSIZ; lia].
  - pose proof Hok as (_ & _ & Hc). split; [apply with_cnt_ok; [done|lia]|].
    cbn [with_cnt randcnt]. lia.
Qed.

Lemma rand_ok c : ctx_ok c -> exists v c', rand c = Ok (v, c') /\ is_u32 v /\ ctx_ok c'.
Proof.
  intros Hok. destruct (rand_next_ok c Hok) as [(Hl & Hf & Hc) Hlt]. unfold rand.
  revert Hl Hf Hc Hlt. generalize (rand_next c). intros c' Hl Hf Hc Hlt.
  destruct (rd_ok (randrsl c') (randcnt c')) as (v & -> & Hv); [unfold zlen; lia|].
  cbn [mbind comp_bind]. exists v, c'. split; [done|].
  split; [by eapply Forall_lookup_1 in Hf|done].
Qed.

(** Rounding keeps below a power of two and is exact on short numbers. *)
Lemma round24_le n b : 0 <= n <= b * 2 ^ 32 -> 0 <= b < 2 ^ 24 -> round24 n <= b * 2 ^ 32.
Proof.
  intros Hn Hb. unfold round24. case_if; zbool; [lia|].
  set (e := Z.log2 n - 23).
  assert (0 < b) by nia.
  assert (23 < Z.log2 n) as Hlog by (assert (Z.log2 (2^24) <= Z.log2 n) by (apply Z.log2_le_mono; lia); rewrite Z.log2_pow2 in * by lia; lia).
  assert (0 < 2 ^ e) by (apply Z.pow_pos_nonneg; lia).
  assert (n = 2 ^ e * (n / 2 ^ e) + n `mod` 2 ^ e) as Hdm by (apply Z.div_mod; lia).
  pose proof (Z.mod_pos_bound n (2 ^ e)) as Hmod.
  assert (n / 2 ^ e * 2 ^ e <= n) by lia.
  case_if; [|lia].
  (* the quotient is rounded up, so [n] is not a multiple of [2^e] *)
  assert (0 < n `mod` 2 ^ e).
  { assert (0 < 2 ^ (e - 1)) by (apply Z.pow_pos_nonneg; lia). zbool; lia. }
  assert (n < b * 2 ^ 32 -> (n / 2 ^ e + 1) * 2 ^ e <= b * 2 ^ 32) as Hup.
  { intros Hlt. assert (e <= 32) as He.
    { assert (Z.log2 n <= 55); [|lia].
      assert (n < 2 ^ 56) by nia. assert (Z.log2 n < 56); [|lia]. apply Z.log2_lt_pow2; lia. }
    replace (2 ^ 32) with (2 ^ (32 - e) * 2 ^ e) in * by (rewrite <- Z.pow_add_r by lia; f_equal; lia).
    rewrite Z.mul_assoc in *. apply Z.mul_le_mono_nonneg_r; [lia|].
    assert (n / 2 ^ e < b * 2 ^ (32 - e)); [|lia].
    apply Z.div_lt_upper_bound; [lia|]. lia. }
  destruct (Z.eq_dec n (b * 2 ^ 32)) as [Heq|]; [|apply Hup; lia].
  exfalso.
  assert (e <= 32) as He.
  { assert (n < 2 ^ 56) by nia. assert (Z.log2 n < 56); [|lia]. apply Z.log2_lt_pow2; lia. }
  assert (n `mod` 2 ^ e = 0); [|lia]. rewrite Heq.
  replace (2 ^ 32) with (2 ^ (32 - e) * 2 ^ e) by (rewrite <- Z.pow_add_r by lia; f_equal; lia).
  rewrite Z.mul_assoc. apply Z.mod_mul. lia.
Qed.

Lemma round24_nonneg n : 0 <= n -> 0 <= round24 n.
Proof.
  intros Hn. unfold round24. case_if; zbool; [done|].
  assert (0 <= 2 ^ (Z.log2 n - 23)) by (apply Z.pow_nonneg; lia).
  assert (0 <= n / 2 ^ (Z.log2 n - 23)).
  { assert (23 <= Z.log2 n)
      by (assert (Z.log2 (2^24) <= Z.log2 n) by (apply Z.log2_le_mono; lia);
          rewrite Z.log2_pow2 in * by lia; lia).
    apply Z.div_pos; [lia|]. apply Z.pow_pos_nonneg; lia. }
  case_if; nia.
Qed.

Lemma scale_bound max r : 0 <= max < 2 ^ 24 -> is_u32 r -> 0 <= scale max r <= max.
Proof.
  unfold is_u32. intros Hm Hr. unfold scale. rewrite Z.abs_eq by lia.
  assert (round24 max = max) as -> by (unfold round24; by rewrite (proj2 (Z.ltb_lt _ _)) by lia).
  assert (0 <= round24 r <= 1 * 2 ^ 32)
    by (split; [apply round24_nonneg; lia|apply round24_le; lia]).
  destruct (Z.eq_dec max 0) as [->|]; [done|].
  rewrite Z.sgn_pos, Z.mul_1_l by lia.
  assert (0 <= max * round24 r) by nia.
  pose proof (round24_nonneg (max * round24 r)).
  assert (round24 (max * round24 r) <= max * 2 ^ 32) by (apply round24_le; nia).
  rewrite Z.quot_div_nonneg by lia. split; [apply Z.div_pos; lia|].
  apply Z.div_le_upper_bound; lia.
Qed.

Lemma randinit_ok c flag : length (randrsl c) = RANDSIZ -> Forall is_u32 (randrsl c) ->
  ctx_ok (randinit c flag).
Proof.
  intros Hl Hf. unfold randinit. generalize (mix (mix (mix (mix
    (golden, golden, golden, golden, golden, golden, golden, golden))))). intros s0.
  match goal with |- context [Ctx (randcnt c) (randrsl c) ?x 0 0 0] => generalize x end.
  intros m. cbv zeta. set (c1 := Ctx (randcnt c) (randrsl c) m 0 0 0).
  destruct (isaac_rsl c1) as [H1 H2]. specialize (H2 Hf).
  assert (length (randrsl (isaac c1)) = RANDSIZ) as H3 by (exact (eq_trans H1 Hl)).
  revert H2 H3. generalize (isaac c1). intros x H2 H3.
  split; [exact H3|]. split; [exact H2|]. cbn [randcnt]. lia.
Qed.

(** Overwriting a position gives up its old element for the new one. *)
Lemma insert_swap_perm (l : list Z) i t x : l !! i = Some t -> t :: <[i := x]> l ≡ₚ x :: l.
Proof.
  intros Hi. pose proof (lookup_lt_Some _ _ _ Hi).
  rewrite insert_take_drop by done. rewrite <- (take_drop_middle l i t Hi) at 3.
  by rewrite <- !Permutation_middle, perm_swap.
Qed.

Lemma take_succ (l : list Z) n x : l !! n = Some x -> take (S n) l = take n l ++ [x].
Proof. intros. by apply take_S_r. Qed.

Lemma qid_get_ok p out : qid_inv p out -> 0 <= pool_ptr p ->
  exists t p', qid_get p = Ok (t, p') /\ qid_inv p' (t :: out) /\
    pool_ptr p' = pool_ptr p - 1 /\ t ∉ out.
Proof.
  intros (Hlen & Hptr & Hctx & Hperm) Hge. unfold qid_get, myrand, QID_POOL_SIZE in *.
  destruct (rand_ok (isaac_ctx p) Hctx) as (r & c' & -> & Hr & Hc'). cbn [mbind comp_bind mret comp_ret].
  destruct (scale_bound (pool_ptr p) r) as [Hs1 Hs2]; [lia|done|].
  cbn [qid_pool pool_ptr isaac_ctx].
  set (i := scale (pool_ptr p) r) in *. rewrite !Z.rem_small by lia.
  destruct (rd_ok (qid_pool p) i) as (t & Ht & Hti); [lia|]. rewrite Ht. cbn [mbind comp_bind].
  destruct (rd_ok (qid_pool p) (pool_ptr p)) as (v & Hv & Hvi); [lia|]. rewrite Hv. cbn [mbind comp_bind].
  rewrite wr_ok by lia. cbn [mbind comp_bind mret comp_ret].
  set (n := Z.to_nat (pool_ptr p)) in *.
  assert (take (Z.to_nat (pool_ptr p + 1)) (qid_pool p) = take n (qid_pool p) ++ [v]) as Htk.
  { replace (Z.to_nat (pool_ptr p + 1)) with (S n) by lia. by apply take_succ. }
  rewrite Htk in Hperm.
  assert (take n (<[Z.to_nat i := v]> (qid_pool p)) ++ t :: out ≡ₚ seqZ 0 65536) as Hperm'.
  { rewrite <- Hperm, <- Permutation_middle, <- app_assoc. cbn [app]. rewrite <- Permutation_middle.
    rewrite !app_comm_cons. apply Permutation_app_tail.
    destruct (decide (i = pool_ptr p)) as [Heq|Hne].
    - rewrite Heq. fold n. rewrite take_insert_ge by lia. replace t with v by congruence. done.
    - rewrite take_insert_lt by lia. apply insert_swap_perm.
      rewrite lookup_take_lt by lia. done. }
  exists t. eexists. split; [done|]. split; [|split; [done|]].
  - split; [unfold zlen in *; cbn; by rewrite length_insert|]. cbn [pool_ptr qid_pool isaac_ctx].
    unfold QID_POOL_SIZE. split; [lia|]. split; [done|].
    by replace (Z.to_nat (pool_ptr p - 1 + 1)) with n by lia.
  - assert (NoDup (take n (<[Z.to_nat i := v]> (qid_pool p)) ++ t :: out)) as Hnd
      by (rewrite Hperm'; apply NoDup_seqZ).
    apply NoDup_app in Hnd as (_ & _ & Hnd). by apply NoDup_cons in Hnd as [? _].
Qed.

Lemma qid_return_ok p out q : qid_inv p (q :: out) ->
  exists p', qid_return q p = Ok p' /\ qid_inv p' out /\ pool_ptr p' = pool_ptr p + 1.
Proof.
  intros (Hlen & Hptr & Hctx & Hperm). unfold qid_return, QID_POOL_SIZE in *.
  assert (pool_ptr p + 1 < 65536).
  { apply Permutation_length in Hperm. rewrite length_app, length_take, length_seqZ in Hperm.
    cbn [length] in Hperm. unfold zlen in Hlen. lia. }
  rewrite Z.rem_small by lia. rewrite wr_ok by lia. cbn [mbind comp_bind mret comp_ret].
  set (n := Z.to_nat (pool_ptr p + 1)) in *.
  eexists. split; [done|]. split; [|done].
  split; [unfold zlen in *; cbn; by rewrite length_insert|]. cbn [pool_ptr qid_pool isaac_ctx].
  unfold QID_POOL_SIZE. split; [lia|]. split; [done|].
  replace (Z.to_nat (pool_ptr p + 1 + 1)) with (S n) by lia.
  rewrite (take_succ _ n q) by (rewrite list_lookup_insert_eq; [done|unfold zlen in *; lia]).
  rewrite take_insert_ge by lia. rewrite <- Hperm, <- app_assoc. done.
Qed.

Lemma qid_init_ok seed : length seed = RANDSIZ -> Forall is_u32 seed ->
  qid_inv (qid_init_pool seed) [].
Proof.
  intros Hl Hf. unfold qid_inv, qid_init_pool. cbn [qid_pool pool_ptr isaac_ctx].
  unfold QID_POOL_SIZE, zlen. rewrite length_seqZ. split; [done|]. split; [lia|].
  split; [by apply randinit_ok|]. rewrite app_nil_r, take_ge; [done|].
  rewrite length_seqZ. lia.
Qed.

(** * Properties *)

(** A history of [qid_get] and [qid_return] calls; the state keeps the pool
    and the identifiers in use, and only those are returned. *)
Inductive qid_step : qidpool * list Z -> qidpool * list Z -> Prop :=
| step_get p out t p' :
    0 <= pool_ptr p -> qid_get p = Ok (t, p') -> qid_step (p, out) (p', t :: out)
| step_return p out1 q out2 p' :
    qid_return q p = Ok p' -> qid_step (p, out1 ++ q :: out2) (p', out1 ++ out2).

Lemma qid_step_inv s s' : qid_step s s' -> qid_inv (fst s) (snd s) -> qid_inv (fst s') (snd s').
Proof.
  intros Hs Hi. destruct Hs as [p out t p' Hp Hg|p out1 q out2 p' Hr]; cbn [fst snd] in *.
  - destruct (qid_get_ok p out Hi Hp) as (t' & p'' & Hg' & Hi' & _). rewrite Hg in Hg'.
    by inv_comp.
  - destruct (qid_return_ok p (out1 ++ out2) q) as (p'' & Hr' & Hi' & _).
    { destruct Hi as (? & ? & ? & Hp). split; [done|]. split; [done|]. split; [done|].
      rewrite <- Hp. by rewrite Permutation_middle. }
    rewrite Hr in Hr'. by inv_comp.
Qed.

(** C35: over every history of gets and returns from the initial pool, the
    identifiers in use are pairwise distinct 16-bit values, and with a free
    identifier left [qid_get] yields one that is not in use, without leaving
    the pool array. *)
Theorem qids_in_use_distinct seed p out :
  length seed = RANDSIZ -> Forall is_u32 seed ->
  rtc qid_step (qid_init_pool seed, []) (p, out) ->
  NoDup out /\ Forall is_u16 out /\
  (zlen out < QID_POOL_SIZE -> exists t p', qid_get p = Ok (t, p') /\ t ∉ out).
Proof.
  intros Hl Hf Hrtc.
  assert (qid_inv p out) as Hi.
  { assert (forall s s', rtc qid_step s s' -> qid_inv (fst s) (snd s) -> qid_inv (fst s') (snd s')) as Hrt
      by (intros s s'; induction 1; eauto using qid_step_inv).
    apply (Hrt _ _ Hrtc). by apply qid_init_ok. }
  pose proof Hi as (Hlen & Hptr & _ & Hperm).
  assert (NoDup (take (Z.to_nat (pool_ptr p + 1)) (qid_pool p) ++ out)) as Hnd
    by (rewrite Hperm; apply NoDup_seqZ).
  apply NoDup_app in Hnd as (_ & _ & Hnd). split; [done|]. split.
  - apply Forall_forall. intros x Hx.
    assert (x ∈ seqZ 0 QID_POOL_SIZE) as Hs by (rewrite <- Hperm; apply elem_of_app; by right).
    apply elem_of_seqZ in Hs. unfold is_u16, QID_POOL_SIZE in *. lia.
  - intros Hlt. destruct (qid_get_ok p out Hi) as (t & p' & ? & _ & _ & ?); [|eauto].
    apply Permutation_length in Hperm. rewrite length_app, length_take, length_seqZ in Hperm.
    unfold zlen, QID_POOL_SIZE in *. lia.
Qed.

Lemma qids_in_use_distinct_witness :
  NoDup (@nil Z) /\ Forall is_u16 [] /\
  (zlen (@nil Z) < QID_POOL_SIZE ->
   exists t p', qid_get (qid_init_pool (replicate 16 7)) = Ok (t, p') /\ t ∉ []).
Proof.
  apply (qids_in_use_distinct (replicate 16 7)); [done| |apply rtc_refl].
  by_decide.
Defined.
