(* ===== verification/Query.v ===== *)
(** The list of outstanding queries (src/dnrd-2.20.3/src/query.c): one node,
    one socket and one identifier per query forwarded to a server.  The list
    is circular with the static node [qlist] as its sentinel and [qlist_tail]
    as its last node. *)
From S2P Require Import Prelude CString Ring Srvnode Domnode Qid.
Set Warnings "-clear-no-such-hyp".

Definition sockaddr : Type := in_addr * Z.

Record query_t := Query {
  q_sock : Z; q_srv : ptr; q_domain : option ptr;
  my_qid : Z; client_qid : Z; client : sockaddr;
  client_time : Z; client_count : Z; ttl : Z; q_next : ptr }.

#[export] Instance query_ring : RingNode query_t := {|
  nx := q_next;
  set_nx n q := Query (q_sock q) (q_srv q) (q_domain q) (my_qid q) (client_qid q) (client q)
                  (client_time q) (client_count q) (ttl q) n;
  nx_set _ _ := eq_refl |}.

Abbreviation qheap := (gmap ptr query_t).

(** The address of the static sentinel. *)
Definition qlist : ptr := 1%positive.

Record qstate := QS {
  queries : qheap; qlist_tail : ptr;
  total_queries : Z; total_timeouts : Z; upstream_sockets : Z; dropping : Z;
  pool : qidpool; fdmaster : gset Z; maxsock : Z }.

(** The settings of common.c that these functions read. *)
Record config := Config {
  max_sockets : Z; forward_timeout : Z; reactivate_interval : Z }.

(** What the operating system decides in a call of [query_create]: the
    address [malloc] returns and the result of [socket]. *)
Record oscall := Os { os_addr : ptr; os_socket : Z }.

Definition with_queries (f : qheap -> qheap) (st : qstate) : qstate :=
  QS (f (queries st)) (qlist_tail st) (total_queries st) (total_timeouts st)
     (upstream_sockets st) (dropping st) (pool st) (fdmaster st) (maxsock st).
Definition with_tail (t : ptr) (st : qstate) : qstate :=
  QS (queries st) t (total_queries st) (total_timeouts st)
     (upstream_sockets st) (dropping st) (pool st) (fdmaster st) (maxsock st).
Definition add_timeouts (n : Z) (st : qstate) : qstate :=
  QS (queries st) (qlist_tail st) (total_queries st) (u32 (total_timeouts st + n))
     (upstream_sockets st) (dropping st) (pool st) (fdmaster st) (maxsock st).

Definition get_query (st : qstate) (p : ptr) : comp query_t := of_option NullDeref (queries st !! p).

Definition query_init (st : qstate) : qstate :=
  with_tail qlist (with_queries (alter (set_nx qlist) qlist) st).

(** [FD_SET] on a socket of [FD_SETSIZE] or more writes behind [fdmaster];
    nothing keeps the sockets below it. *)
Definition FD_SETSIZE : Z := 1024.

Definition query_create (cfg : config) (os : oscall) (d : option ptr) (s : ptr) (st : qstate)
  : comp (option ptr * qstate) :=
  if max_sockets cfg <=? upstream_sockets st then Ok (None, st)
  else if os_socket os <? 0 then
    Ok (None, QS (queries st) (qlist_tail st) (total_queries st) (total_timeouts st)
                 (upstream_sockets st) 0 (pool st) (fdmaster st) (maxsock st))
  else
    (* the source port is drawn before the identifier *)
    '(_, pl) ← myrand (65536 - 1026) (pool st);
    _ ← (if FD_SETSIZE <=? os_socket os then Fault WriteOOB else mret tt);
    '(id, pl) ← qid_get pl;
    let q := os_addr os in
    let sk := os_socket os in
    let node := Query sk s d id 0 ((0, 0, 0, 0), 0) 0 0 (forward_timeout cfg) q in
    mret (Some q, QS (<[q := node]> (queries st)) (qlist_tail st) (total_queries st)
            (total_timeouts st) (upstream_sockets st + 1) 0 pl
            ({[sk]} ∪ fdmaster st) (Z.max (maxsock st) sk)).

Definition query_destroy (q : ptr) (st : qstate) : comp qstate :=
  n ← get_query st q;
  pl ← qid_return (my_qid n) (pool st);
  mret (QS (delete q (queries st)) (qlist_tail st) (u32 (total_queries st + 1))
          (total_timeouts st) (upstream_sockets st - 1) (dropping st) pl
          (fdmaster st ∖ {[q_sock n]}) (maxsock st)).

Definition set_owner (d : option ptr) (s : ptr) (q : query_t) : query_t :=
  Query (q_sock q) s d (my_qid q) (client_qid q) (client q)
    (client_time q) (client_count q) (ttl q) (q_next q).

(** The server node is part of the state because its prepared query is used
    up. *)
Definition query_get_new (cfg : config) (os : oscall) (dom : option ptr) (srv : ptr)
    (w : net) (st : qstate) : comp (option ptr * net * qstate) :=
  s ← get_srv w srv;
  '(q, st) ← match newquery s with
             | Some q => Ok (Some q, st)
             | None => query_create cfg os dom srv st
             end;
  match q with
  | None => Ok (None, w, st)
  | Some q => Ok (Some q, upd_srv (set_newquery None) srv w,
                  with_queries (alter (set_owner dom srv) q) st)
  end.

(** The 16-bit loads and stores at the start of a message, little endian. *)
Definition load_id (msg : list Z) : comp Z :=
  a ← rd msg 0; b ← rd msg 1; mret (a + 256 * b).
Definition store_id (v : Z) (msg : list Z) : comp (list Z) :=
  msg ← wr msg 0 (lo8 v); wr msg 1 (hi8 v).
Definition htons (v : Z) : Z := lo8 v * 256 + hi8 v.

Definition touch (now : Z) (q : query_t) : query_t :=
  Query (q_sock q) (q_srv q) (q_domain q) (my_qid q) (client_qid q) (client q)
    now (client_count q + 1) (ttl q) (q_next q).

Definition set_client (cid : Z) (c : sockaddr) (now : Z) (q : query_t) : query_t :=
  Query (q_sock q) (q_srv q) (q_domain q) (my_qid q) cid c now 1 (ttl q) (q_next q).

(** The search of [query_add]: the node before the one with this client
    identifier. *)
Fixpoint find_client (fuel : nat) (st : qstate) (p : ptr) (cid : Z) : comp (option ptr) :=
  match fuel with
  | O => Fault NoFuel
  | S fuel' =>
      q ← next (queries st) p;
      if bool_decide (q = qlist) then Ok None
      else n ← get_query st q;
           if client_qid n =? cid then Ok (Some p) else find_client fuel' st q cid
  end.

(** Returns the node before the query, or [None] when the query is dropped,
    and the rewritten message. *)
Definition query_add (cfg : config) (os : oscall) (now : Z) (dom : option ptr) (srv : ptr)
    (cl : sockaddr) (msg : list Z) (w : net) (st : qstate)
  : comp (option ptr * list Z * net * qstate) :=
  cid ← load_id msg;
  found ← find_client (S (size (queries st))) st qlist cid;
  match found with
  | Some p =>
      q ← next (queries st) p;
      n ← get_query st q;
      msg ← store_id (my_qid n) msg;
      mret (Some p, msg, w, with_queries (alter (touch now) q) st)
  | None =>
      '(q, w, st) ← query_get_new cfg os dom srv w st;
      match q with
      | None => mret (None, msg, w, st)
      | Some q =>
          let st := with_queries (alter (set_client cid cl now) q) st in
          n ← get_query st q;
          msg ← store_id (htons (my_qid n)) msg;
          qs ← ins_after (queries st) (qlist_tail st) q;
          let oldtail := qlist_tail st in
          mret (Some oldtail, msg, w, with_tail q (with_queries (fun _ => qs) st))
      end
  end.

Definition query_delete_next (q : ptr) (st : qstate) : comp qstate :=
  '(tmp, qs) ← del_after (queries st) q;
  let st := with_queries (fun _ => qs) st in
  let st := if bool_decide (qlist_tail st = tmp) then with_tail q st else st in
  query_destroy tmp st.

Definition expired (now : Z) (q : query_t) : bool := client_time q <? now - ttl q.

Fixpoint timeout_loop (fuel : nat) (now : Z) (q : ptr) (count : Z) (st : qstate)
  : comp (Z * qstate) :=
  match fuel with
  | O => Fault NoFuel
  | S fuel' =>
      n ← next (queries st) q;
      if bool_decide (n = qlist) then Ok (count, st)
      else
        nd ← get_query st n;
        '(count, st) ← (if expired now nd
                        then st ← query_delete_next q st; mret (count + 1, st)
                        else mret (count, st));
        q ← next (queries st) q;
        timeout_loop fuel' now q count st
  end.

(** A deletion may send the walk back to the start, so a run makes at most
    one pass per deletion. *)
Definition timeout_fuel (st : qstate) : nat := (S (size (queries st)) * S (size (queries st)))%nat.

(** The argument [age] of the source is not used. *)
Definition query_timeout (now : Z) (st : qstate) : comp qstate :=
  '(count, st) ← timeout_loop (timeout_fuel st) now qlist 0 st;
  mret (add_timeouts count st).

Fixpoint count_loop (fuel : nat) (st : qstate) (q : ptr) (count : Z) : comp Z :=
  match fuel with
  | O => Fault NoFuel
  | S fuel' =>
      n ← next (queries st) q;
      if bool_decide (n = qlist) then Ok count else count_loop fuel' st n (count + 1)
  end.

Definition query_count (st : qstate) : comp Z := count_loop (S (size (queries st))) st qlist 0.

(** * Invariant *)

(** What a query carries apart from its place in the list. *)
Definition core (q : query_t) : query_t := set_nx qlist q.

Definition qids_of (st : qstate) (l : list ptr) : list Z :=
  (fun p => default 0 (my_qid <$> queries st !! p)) <$> l.
Definition socks_of (st : qstate) (l : list ptr) : list Z :=
  (fun p => default 0 (q_sock <$> queries st !! p)) <$> l.

(** [l] is the list of outstanding queries and [pre] are the queries that
    were prepared for a server and not yet used: the list is a ring that ends
    at the tail, every query has a socket of its own in the select set, the
    sockets are counted, and the identifiers of the queries are the ones
    taken from the pool. *)
Record qinv (st : qstate) (l pre : list ptr) : Prop := {
  qi_ring : ring (queries st) qlist l;
  qi_tail : qlist_tail st = before qlist l;
  qi_pre : NoDup (qlist :: l ++ pre) /\ Forall (fun p => is_Some (queries st !! p)) pre;
  qi_count : upstream_sockets st = zlen (l ++ pre);
  qi_socks : NoDup (socks_of st (l ++ pre)) /\ Forall (fun k => k ∈ fdmaster st) (socks_of st (l ++ pre));
  qi_qids : qid_inv (pool st) (qids_of st (l ++ pre)) }.

(** * Lemmas *)

Lemma qid_inv_perm p o o' : o ≡ₚ o' -> qid_inv p o -> qid_inv p o'.
Proof.
  intros Hp (? & ? & ? & Hq). split; [done|]. split; [done|]. split; [done|]. by rewrite <- Hp.
Qed.

Lemma myrand_ok p out max : qid_inv p out ->
  exists v p', myrand max p = Ok (v, p') /\ qid_inv p' out /\ pool_ptr p' = pool_ptr p.
Proof.
  intros (Hl & Hp & Hc & Hperm). unfold myrand.
  destruct (rand_ok _ Hc) as (v & c' & -> & _ & Hc'). cbn [mbind comp_bind mret comp_ret].
  do 2 eexists. split; [done|]. by split.
Qed.

Lemma qid_inv_room p out : qid_inv p out -> zlen out < QID_POOL_SIZE -> 0 <= pool_ptr p.
Proof.
  intros (Hlen & Hptr & _ & Hperm) Hlt.
  apply Permutation_length in Hperm. rewrite length_app, length_take, length_seqZ in Hperm.
  unfold zlen, QID_POOL_SIZE in *. lia.
Qed.

(** The projections used by the invariant depend on the cores only. *)
Lemma proj_core {B} (f : query_t -> B) (h h' : qheap) a :
  (forall n q, f (set_nx q n) = f n) -> core <$> h' !! a = core <$> h !! a ->
  f <$> h' !! a = f <$> h !! a.
Proof.
  intros Hf Hc. apply (f_equal (fmap f)) in Hc. unfold core in Hc.
  destruct (h !! a), (h' !! a); cbn [fmap option_fmap option_map] in *; try done.
  by rewrite !Hf in Hc.
Qed.

Lemma qids_of_ext st st' l :
  (forall a, a ∈ l -> core <$> queries st' !! a = core <$> queries st !! a) ->
  qids_of st' l = qids_of st l.
Proof.
  intros H. apply fmap_ext_in. intros a Ha. f_equal. apply proj_core; [done|]. by apply H.
Qed.

Lemma socks_of_ext st st' l :
  (forall a, a ∈ l -> core <$> queries st' !! a = core <$> queries st !! a) ->
  socks_of st' l = socks_of st l.
Proof.
  intros H. apply fmap_ext_in. intros a Ha. f_equal. apply proj_core; [done|]. by apply H.
Qed.

Lemma core_same (h h' : qheap) (a : ptr) :
  (forall n, h !! a = Some n -> exists q, h' !! a = Some n \/ h' !! a = Some (set_nx q n)) ->
  (h !! a = None -> h' !! a = None) ->
  core <$> h' !! a = core <$> h !! a.
Proof.
  intros H1 H2. destruct (h !! a) as [n|] eqn:E.
  - destruct (H1 n eq_refl) as (q & [-> | ->]); done.
  - by rewrite H2.
Qed.

(** Deleting the query behind a position of the list. *)
Lemma query_delete_next_ok st l1 y l2 pre : qinv st (l1 ++ y :: l2) pre ->
  exists st', query_delete_next (before qlist l1) st = Ok st' /\ qinv st' (l1 ++ l2) pre /\
    queries st' !! y = None /\
    (forall a, a <> y -> core <$> queries st' !! a = core <$> queries st !! a).
Proof.
  intros [Hr Ht [Hnd Hpre] Hc [Hsn Hsf] Hq]. unfold query_delete_next.
  destruct (del_after_ring _ _ _ _ _ Hr) as (h' & -> & Hr' & Hdom & Hsame & Hrd & Hcore).
  cbn [mbind comp_bind].
  assert (forall a, core <$> h' !! a = core <$> queries st !! a) as Hcs.
  { intros a. apply core_same; [apply Hcore|]. intros Hn. apply not_elem_of_dom. rewrite Hdom.
    by apply not_elem_of_dom. }
  destruct (ring_elem _ _ _ y Hr) as [ny Hny]; [set_solver|].
  assert (exists ny', h' !! y = Some ny' /\ my_qid ny' = my_qid ny /\ q_sock ny' = q_sock ny) as (ny' & Hny' & Hid & Hsk).
  { destruct (Hcore y ny Hny) as (q & [H|H]); eauto. }
  set (st1 := if bool_decide _ then _ else _).
  assert (queries st1 = h' /\ pool st1 = pool st /\ upstream_sockets st1 = upstream_sockets st /\
    fdmaster st1 = fdmaster st /\ qlist_tail st1 = before qlist (l1 ++ l2)) as (Hq1 & Hp1 & Hu1 & Hf1 & Ht1).
  { unfold st1. repeat case_if; cbn; (split_and!; [done|done|done|done|]).
    - apply bool_decide_eq_true in E. cbn in E. rewrite Ht in E.
      destruct l2 as [|z l2]; [by rewrite app_nil_r|]. exfalso.
      assert (before qlist (l1 ++ y :: z :: l2) = before z l2) as Hb
        by (unfold before; rewrite last_app, !last_cons; by destruct (last l2)).
      rewrite Hb in E. pose proof (before_elem z l2) as Hbe. rewrite E in Hbe.
      destruct Hr as [_ Hn]. apply NoDup_cons in Hn as [_ Hn].
      apply NoDup_app in Hn as (_ & _ & Hn). apply NoDup_cons in Hn as [Hn _]. done.
    - apply bool_decide_eq_false in E. cbn in E. rewrite Ht in *.
      destruct l2 as [|z l2]; [exfalso; apply E; by rewrite before_snoc|].
      unfold before. rewrite !last_app, !last_cons. by destruct (last l2). }
  clearbody st1. unfold query_destroy, get_query. rewrite Hq1, Hny'. cbn [of_option mbind comp_bind].
  assert ((l1 ++ y :: l2 ++ pre) ≡ₚ y :: (l1 ++ l2) ++ pre) as Hperm
    by (by rewrite <- Permutation_middle, app_assoc).
  assert ((y ∉ ((l1 ++ l2) ++ pre)) /\ y <> qlist) as [Hyn Hyq].
  { rewrite <- app_assoc in Hnd. cbn [app] in Hnd. rewrite Hperm in Hnd.
    apply NoDup_cons in Hnd as [Hh Hnd]. apply NoDup_cons in Hnd as [? _]. set_solver. }
  rewrite <- app_assoc in Hq, Hsn, Hsf, Hc, Hnd. cbn [app] in *.
  assert (qids_of st (l1 ++ y :: l2 ++ pre) ≡ₚ my_qid ny :: qids_of st ((l1 ++ l2) ++ pre)) as Hqp.
  { unfold qids_of. rewrite Hperm. cbn. by rewrite Hny. }
  assert (socks_of st (l1 ++ y :: l2 ++ pre) ≡ₚ q_sock ny :: socks_of st ((l1 ++ l2) ++ pre)) as Hsp.
  { unfold socks_of. rewrite Hperm. cbn. by rewrite Hny. }
  apply (qid_inv_perm _ _ _ Hqp) in Hq. rewrite Hsp in Hsn, Hsf.
  apply NoDup_cons in Hsn as [Hsk1 Hsn]. apply Forall_cons in Hsf as [_ Hsf].
  rewrite Hid, Hp1. destruct (qid_return_ok _ _ _ Hq) as (p' & -> & Hi' & _).
  cbn [mbind comp_bind mret comp_ret]. eexists. split; [done|].
  assert (forall a, a <> y -> core <$> delete y h' !! a = core <$> queries st !! a) as Hce
    by (intros a Ha; rewrite lookup_delete_ne by done; apply Hcs).
  assert (forall a, a ∈ (l1 ++ l2) ++ pre -> core <$> delete y h' !! a = core <$> queries st !! a) as Hcl
    by (intros a Ha; apply Hce; set_solver).
  split; [|split; [cbn; apply lookup_delete_eq|exact Hce]].
  constructor; cbn [queries qlist_tail upstream_sockets pool fdmaster].
  - done.
  - done.
  - split.
    + rewrite Hperm in Hnd. apply NoDup_cons in Hnd as [Hh Hnd].
      apply NoDup_cons in Hnd as [_ Hnd]. apply NoDup_cons. split; [set_solver|done].
    + rewrite Forall_forall in Hpre |- *. intros a Ha. destruct (Hpre a Ha) as [n Hn].
      assert (core <$> delete y h' !! a = core <$> queries st !! a) as He by (apply Hcl; set_solver).
      rewrite Hn in He. destruct (delete y h' !! a); [eauto|done].
  - rewrite Hu1, Hc. unfold zlen. rewrite Hperm. cbn [length]. lia.
  - rewrite (socks_of_ext st) by done. split; [done|]. rewrite Hf1.
    rewrite Forall_forall in Hsf |- *. intros k Hk. rewrite Hsk.
    apply elem_of_difference. split; [by apply Hsf|]. apply not_elem_of_singleton. intros ->. done.
  - by rewrite (qids_of_ext st) by done.
Qed.

(** The search stops at the first query of the list with the identifier. *)
Lemma find_client_ok fuel st l1 l2 cid :
  ring (queries st) qlist (l1 ++ l2) -> (length l2 < fuel)%nat ->
  let hit y := (client_qid <$> queries st !! y) = Some cid in
  (find_client fuel st (before qlist l1) cid = Ok None /\ Forall (fun y => ~ hit y) l2) \/
  (exists k1 y k2, l2 = k1 ++ y :: k2 /\ hit y /\ Forall (fun y => ~ hit y) k1 /\
     find_client fuel st (before qlist l1) cid = Ok (Some (before qlist (l1 ++ k1)))).
Proof.
  revert l1 l2; induction fuel as [|fuel IH]; intros l1 l2 Hr Hf hit; [lia|].
  cbn [find_client]. rewrite (ring_next_before _ _ _ _ Hr). cbn [mbind comp_bind].
  destruct l2 as [|y l2].
  - left. by rewrite bool_decide_true.
  - change (default qlist (list.head (y :: l2))) with y.
    rewrite bool_decide_false by (destruct Hr as [_ Hn]; apply NoDup_cons in Hn as [? _]; set_solver).
    destruct (ring_elem _ _ _ y Hr) as [n Hn]; [set_solver|].
    unfold get_query. rewrite Hn. cbn [of_option mbind comp_bind].
    destruct (client_qid n =? cid) eqn:E; zbool.
    + right. exists [], y, l2. rewrite app_nil_r. unfold hit. rewrite Hn. cbn.
      split; [done|]. split; [by f_equal|]. by split.
    + assert (~ hit y) as Hy by (unfold hit; rewrite Hn; cbn; congruence).
      specialize (IH (l1 ++ [y]) l2). rewrite before_snoc, <- app_assoc in IH. cbn [app] in IH.
      destruct IH as [[H1 H2]|(k1 & z & k2 & -> & Hz & Hk & H)]; [done|cbn in Hf; lia| |].
      * left. split; [done|by constructor].
      * right. exists (y :: k1), z, k2. split; [done|]. split; [done|].
        split; [by constructor|]. by rewrite <- app_assoc in H.
Qed.

Lemma store_id_ok v a b msg : store_id v (a :: b :: msg) = Ok (lo8 v :: hi8 v :: msg).
Proof.
  unfold store_id. rewrite wr_ok by (unfold zlen; cbn [length]; lia). cbn [mbind comp_bind].
  rewrite wr_ok by (unfold zlen; rewrite length_insert; cbn [length]; lia). done.
Qed.

Lemma htons_bytes v : lo8 (htons v) = hi8 v /\ hi8 (htons v) = lo8 v.
Proof.
  unfold htons. pose proof (hi8_byte v) as Hh. pose proof (lo8_byte v) as Hl. unfold is_byte in *.
  revert Hh Hl. generalize (hi8 v) (lo8 v). intros h l Hh Hl. unfold lo8, hi8. split.
  - rewrite Z.add_comm, Z_mod_plus_full. by apply Z.mod_small.
  - rewrite Z.div_add_l by lia. rewrite (Z.div_small h), Z.add_0_r by lia.
    by apply Z.mod_small.
Qed.

(** A query that gets a socket and an identifier of its own. *)
Lemma query_create_ok cfg os d s st l pre : qinv st l pre ->
  upstream_sockets st < max_sockets cfg <= QID_POOL_SIZE ->
  queries st !! os_addr os = None -> 0 <= os_socket os < FD_SETSIZE -> os_socket os ∉ fdmaster st ->
  exists st' n, query_create cfg os d s st = Ok (Some (os_addr os), st') /\
    qinv st' l (os_addr os :: pre) /\ (my_qid n ∉ qids_of st (l ++ pre)) /\
    queries st' = <[os_addr os := n]> (queries st) /\ qlist_tail st' = qlist_tail st /\
    q_sock n = os_socket os /\ ttl n = forward_timeout cfg /\
    fdmaster st' = {[os_socket os]} ∪ fdmaster st.
Proof.
  intros [Hr Ht [Hnd Hpre] Hc [Hsn Hsf] Hq] Hmax Hfr Hs0 Hsk. unfold query_create.
  rewrite (proj2 (Z.leb_gt _ _)), (proj2 (Z.ltb_ge _ _)) by lia.
  destruct (myrand_ok _ _ (65536 - 1026) Hq) as (v & p1 & -> & Hq1 & Hp1). cbn [mbind comp_bind].
  rewrite (proj2 (Z.leb_gt _ _)) by lia. cbn [mbind comp_bind mret comp_ret].
  destruct (qid_get_ok p1 _ Hq1) as (id & p2 & -> & Hq2 & _ & Hid).
  { apply (qid_inv_room _ _ Hq1). unfold zlen, qids_of in *. rewrite length_fmap. lia. }
  cbn [mbind comp_bind mret comp_ret]. do 2 eexists. split; [done|].
  set (a := os_addr os) in *. set (n := Query _ _ _ _ _ _ _ _ _ _).
  set (st' := QS _ _ _ _ _ _ _ _ _).
  assert (forall x, x ∈ l ++ pre -> x <> a) as Hne.
  { intros x Hx ->. apply elem_of_app in Hx as [Hx|Hx].
    - destruct (ring_elem _ _ _ a Hr) as [? ?]; [by right|congruence].
    - rewrite Forall_forall in Hpre. destruct (Hpre a Hx). congruence. }
  assert (forall x, x ∈ l ++ pre -> core <$> queries st' !! x = core <$> queries st !! x) as Hcs.
  { intros x Hx. cbn. rewrite lookup_insert_ne; [done|]. intros Heq. by apply (Hne x). }
  assert (l ++ a :: pre ≡ₚ a :: (l ++ pre)) as Hperm by (by rewrite Permutation_middle).
  assert (socks_of st' (l ++ a :: pre) ≡ₚ os_socket os :: socks_of st (l ++ pre)) as Hsp.
  { rewrite <- (socks_of_ext st st') by done. unfold socks_of. rewrite Hperm. cbn.
    by rewrite lookup_insert_eq. }
  assert (qids_of st' (l ++ a :: pre) ≡ₚ id :: qids_of st (l ++ pre)) as Hqp.
  { rewrite <- (qids_of_ext st st') by done. unfold qids_of. rewrite Hperm. cbn.
    by rewrite lookup_insert_eq. }
  split; [|split; [|split; [reflexivity|by split_and!]]]; [|exact Hid].
  constructor; cbn [queries qlist_tail upstream_sockets pool fdmaster st'].
  - by apply ring_fresh.
  - done.
  - split.
    + rewrite Hperm. pose proof (ring_fresh_notin _ _ _ _ Hfr Hr).
      apply NoDup_cons in Hnd as [Hnq Hnd]. apply NoDup_cons. split; [set_solver|].
      apply NoDup_cons. split; [|done]. intros Hin. by apply (Hne a).
    + constructor; [rewrite lookup_insert_eq; eauto|]. rewrite Forall_forall in Hpre |- *.
      intros x Hx. rewrite lookup_insert_ne; [by apply Hpre|]. intros Heq. apply (Hne x); set_solver.
  - rewrite Hc. unfold zlen. rewrite Hperm. cbn [length]. lia.
  - rewrite Hsp. rewrite Forall_forall in Hsf. split.
    + apply NoDup_cons. split; [|done]. intros Hin. by apply Hsk, Hsf.
    + constructor; [set_solver|]. rewrite Forall_forall. intros k Hk. specialize (Hsf k Hk). set_solver.
  - by apply (qid_inv_perm _ (id :: qids_of st (l ++ pre))).
Qed.

(** Updates of the fields the invariant does not speak about. *)
Definition inert (f : query_t -> query_t) : Prop :=
  forall n, q_next (f n) = q_next n /\ my_qid (f n) = my_qid n /\ q_sock (f n) = q_sock n.

Lemma alter_proj {B} (g : query_t -> B) f (h : qheap) (a b : ptr) : (forall n, g (f n) = g n) ->
  g <$> alter f a h !! b = g <$> h !! b.
Proof.
  intros Hg. destruct (decide (a = b)) as [->|Hne].
  - rewrite lookup_alter_eq. destruct (h !! b); cbn; [by rewrite Hg|done].
  - by rewrite lookup_alter_ne.
Qed.

Lemma qinv_inert st l pre f q : inert f -> qinv st l pre -> qinv (with_queries (alter f q) st) l pre.
Proof.
  intros Hf [Hr Ht [Hnd Hpre] Hc Hs Hq].
  assert (socks_of (with_queries (alter f q) st) (l ++ pre) = socks_of st (l ++ pre)) as Es.
  { apply fmap_ext_in. intros a _. cbn. f_equal. apply (alter_proj q_sock). apply Hf. }
  assert (qids_of (with_queries (alter f q) st) (l ++ pre) = qids_of st (l ++ pre)) as Eq.
  { apply fmap_ext_in. intros a _. cbn. f_equal. apply (alter_proj my_qid). apply Hf. }
  constructor; cbn [with_queries queries qlist_tail upstream_sockets pool fdmaster].
  - apply (ring_ext (queries st)); [|done]. intros a _. apply (alter_proj q_next). apply Hf.
  - done.
  - split; [done|]. eapply Forall_impl; [exact Hpre|]. cbn. intros a Ha.
    rewrite <- (fmap_is_Some q_sock) in *. rewrite alter_proj; [done|apply Hf].
  - done.
  - by rewrite Es.
  - by rewrite Eq.
Qed.

(** Linking a prepared query at the tail. *)
Lemma qinv_link st l q pre : qinv st l (q :: pre) ->
  exists h', ins_after (queries st) (qlist_tail st) q = Ok h' /\
    qinv (with_tail q (with_queries (fun _ => h') st)) (l ++ [q]) pre /\
    (forall a, core <$> h' !! a = core <$> queries st !! a).
Proof.
  intros [Hr Ht [Hnd Hpre] Hc [Hsn Hsf] Hq].
  apply Forall_cons in Hpre as [Hqa Hpre].
  destruct (ins_after_ring (queries st) qlist l [] q) as (h' & Hins & Hr' & Hdom & _ & Hcore).
  { by rewrite app_nil_r. }
  { rewrite app_nil_r. rewrite app_comm_cons in Hnd. apply NoDup_app in Hnd as (_ & Hd & _).
    intros Hin. apply (Hd q Hin). by left. }
  { done. }
  assert (forall a, core <$> h' !! a = core <$> queries st !! a) as Hcs.
  { intros a. apply core_same; [apply Hcore|]. intros Hn. apply not_elem_of_dom. rewrite Hdom.
    by apply not_elem_of_dom. }
  exists h'. rewrite Ht, Hins. split; [done|]. split; [|done].
  assert ((l ++ [q]) ++ pre = l ++ q :: pre) as El by (by rewrite <- app_assoc).
  constructor; cbn [with_tail with_queries queries qlist_tail upstream_sockets pool fdmaster].
  - done.
  - by rewrite before_snoc.
  - rewrite El. split; [done|]. eapply Forall_impl; [exact Hpre|]. cbn. intros a Ha.
    rewrite <- (fmap_is_Some core) in *. by rewrite Hcs.
  - by rewrite El.
  - rewrite El, (socks_of_ext st) by (intros; apply Hcs). done.
  - rewrite El, (qids_of_ext st) by (intros; apply Hcs). done.
Qed.

(** * Properties *)

Definition client_ids (st : qstate) (l : list ptr) : list (option Z) :=
  (fun p => client_qid <$> queries st !! p) <$> l.

Lemma query_add_new_ok cfg os now d srv cl w st l pre a b msg s :
  qinv st l pre ->
  upstream_sockets st < max_sockets cfg <= QID_POOL_SIZE ->
  queries st !! os_addr os = None -> 0 <= os_socket os < FD_SETSIZE -> os_socket os ∉ fdmaster st ->
  srvs w !! srv = Some s -> newquery s = None ->
  Some (a + 256 * b) ∉ client_ids st l ->
  exists n w' st',
    query_add cfg os now d srv cl (a :: b :: msg) w st =
      Ok (Some (before qlist l), hi8 (my_qid n) :: lo8 (my_qid n) :: msg, w', st') /\
    qinv st' (l ++ [os_addr os]) pre /\
    core <$> queries st' !! os_addr os = Some (core n) /\
    client n = cl /\ client_qid n = a + 256 * b /\ client_time n = now /\
    q_srv n = srv /\ q_domain n = d /\ ttl n = forward_timeout cfg /\
    (my_qid n ∉ qids_of st (l ++ pre)) /\ (q_sock n ∉ socks_of st (l ++ pre)) /\
    w' = upd_srv (set_newquery None) srv w /\ q_sock n = os_socket os.
Proof.
  intros Hi Hmax Hfr Hs0 Hsk Hsrv Hnq Hcid. unfold query_add.
  change (load_id (a :: b :: msg)) with (Ok (a + 256 * b)). cbn [mbind comp_bind].
  destruct (find_client_ok (S (size (queries st))) st [] l (a + 256 * b)) as
    [[Hf _]|(k1 & y & k2 & -> & Hy & _)].
  { by apply Hi. } { pose proof (ring_size _ _ _ (qi_ring _ _ _ Hi)). lia. }
  2: { exfalso. apply Hcid. apply list_elem_of_fmap. exists y. split; [done|set_solver]. }
  change (before qlist []) with qlist in Hf. rewrite Hf. cbn [mbind comp_bind].
  unfold query_get_new, get_srv. rewrite Hsrv. cbn [of_option mbind comp_bind]. rewrite Hnq.
  destruct (query_create_ok cfg os d srv st l pre) as (st1 & n & -> & Hi1 & Hid & Hq1 & Ht1 & Hsn & Httl & _);
    [done..|]. cbn [mbind comp_bind].
  set (p := os_addr os) in *.
  set (f := set_client (a + 256 * b) cl now). set (g := set_owner d srv).
  set (st2 := with_queries (alter f p) (with_queries (alter g p) st1)).
  assert (qinv st2 l (p :: pre)) as Hi2 by (repeat apply qinv_inert; done).
  assert (queries st2 !! p = Some (f (g n))) as Hn2.
  { cbn. rewrite lookup_alter_eq, lookup_alter_eq, Hq1, lookup_insert_eq. done. }
  unfold get_query. rewrite Hn2. cbn [of_option mbind comp_bind].
  rewrite store_id_ok. destruct (htons_bytes (my_qid (f (g n)))) as [-> ->]. cbn [mbind comp_bind].
  destruct (qinv_link _ _ _ _ Hi2) as (h' & -> & Hi3 & Hcs). cbn [mbind comp_bind mret comp_ret].
  exists (f (g n)). do 2 eexists. split.
  { cbn [qlist_tail st2 with_queries]. rewrite Ht1, (qi_tail _ _ _ Hi). done. }
  split; [done|]. split; [cbn [queries with_tail with_queries]; by rewrite Hcs, Hn2|].
  split_and!; try done. cbn. rewrite Hsn. intros Hin. apply Hsk.
  destruct (qi_socks _ _ _ Hi) as [_ Hsf]. rewrite Forall_forall in Hsf. by apply Hsf.
Qed.

(** C24: a query with a new client identifier is appended to the list: the
    returned node is the one before it, the message gets the new identifier
    in network order, the record keeps the client and its identifier for the
    reply, and no other outstanding query has the identifier or the socket.
    The socket that the system gives is a new one below FD_SETSIZE (a larger
    one is written behind the set of descriptors). *)
Theorem query_add_new cfg os now d srv cl w st l pre a b msg s :
  qinv st l pre ->
  upstream_sockets st < max_sockets cfg <= QID_POOL_SIZE ->
  queries st !! os_addr os = None -> 0 <= os_socket os < FD_SETSIZE -> os_socket os ∉ fdmaster st ->
  srvs w !! srv = Some s -> newquery s = None ->
  Some (a + 256 * b) ∉ client_ids st l ->
  exists n w' st',
    query_add cfg os now d srv cl (a :: b :: msg) w st =
      Ok (Some (before qlist l), hi8 (my_qid n) :: lo8 (my_qid n) :: msg, w', st') /\
    qinv st' (l ++ [os_addr os]) pre /\
    core <$> queries st' !! os_addr os = Some (core n) /\
    client n = cl /\ client_qid n = a + 256 * b /\ client_time n = now /\
    q_srv n = srv /\ q_domain n = d /\ ttl n = forward_timeout cfg /\
    (my_qid n ∉ qids_of st (l ++ pre)) /\ (q_sock n ∉ socks_of st (l ++ pre)).
Proof.
  intros. destruct (query_add_new_ok cfg os now d srv cl w st l pre a b msg s) as (n & w' & st' & H'); [done..|].
  exists n, w', st'. by split_and!; try apply H'.
Qed.

Lemma query_add_new_witness :
  let st0 := QS {[ qlist := Query 0 qlist None 0 0 ((0, 0, 0, 0), 0) 0 0 0 qlist ]} qlist 0 0 0 0
               (qid_init_pool (replicate 16 7)) ∅ 0 in
  exists n w' st',
    query_add (Config 200 12 10) (Os 5%positive 3) 100 None 2%positive ((10, 0, 0, 1), 5353)
      [0x12; 0x34; 1; 0] (Net two_servers ∅) st0 =
      Ok (Some qlist, [hi8 (my_qid n); lo8 (my_qid n); 1; 0], w', st') /\
    qinv st' [5%positive] [] /\
    core <$> queries st' !! 5%positive = Some (core n) /\
    client n = ((10, 0, 0, 1), 5353) /\ client_qid n = 0x3412 /\ client_time n = 100 /\
    q_srv n = 2%positive /\ q_domain n = None /\ ttl n = 12 /\
    (my_qid n ∉ @nil Z) /\ (q_sock n ∉ @nil Z).
Proof.
  cbv zeta.
  apply (query_add_new (Config 200 12 10) (Os 5%positive 3) 100 None 2%positive ((10, 0, 0, 1), 5353)
    (Net two_servers ∅) _ [] [] 0x12 0x34 [1; 0]
    (default (Srv (0, 0, 0, 0) 0 0 0 0 None 3%positive) (two_servers !! 2%positive))).
  - constructor; cbn.
    + split; [done|]. repeat constructor; set_solver.
    + done.
    + split; [repeat constructor; set_solver|constructor].
    + done.
    + split; constructor.
    + apply qid_init_ok; [done|]. by_decide.
  - cbn. unfold QID_POOL_SIZE. lia.
  - done.
  - cbn. unfold FD_SETSIZE. lia.
  - cbn. set_solver.
  - done.
  - done.
  - cbn. set_solver.
Defined.

(** An example state with three outstanding queries. *)
Definition three_heap : qheap :=
  let q sk id cid time n := Query sk 2%positive None id cid ((10, 0, 0, 9), 4000) time 1 12 n in
  <[1%positive := q 0 0 0 0 2%positive]>
  (<[2%positive := q 5 65533 77 10 3%positive]>
  (<[3%positive := q 6 65534 78 11 4%positive]>
  (<[4%positive := q 7 65535 79 95 1%positive]> ∅))).

Definition three_pool : qidpool :=
  Pool (seqZ 0 QID_POOL_SIZE) 65532 (Ctx 0 (replicate 16 7) (replicate 16 0) 0 0 0).

Definition three_with (p : qidpool) : qstate := QS three_heap 4%positive 0 0 3 0 p {[5; 6; 7]} 7.
Definition three_queries : qstate := three_with three_pool.

(** With room in the pool, a socket of [FD_SETSIZE] is put in the set all the
    same, behind its end. *)
Example socket_beyond_fd_set :
  query_create (Config 2000 12 10) (Os 5%positive FD_SETSIZE) None 2%positive three_queries = Fault WriteOOB.
Proof. reflexivity. Qed.

Lemma three_pool_inv : qid_inv three_pool [65533; 65534; 65535].
Proof.
  unfold qid_inv, three_pool, QID_POOL_SIZE. cbn [pool_ptr isaac_ctx qid_pool].
  assert (seqZ 0 65536 = seqZ 0 65533 ++ [65533; 65534; 65535]) as ->
    by (change 65536 with (65533 + 3); rewrite seqZ_app by lia; done).
  assert (length (seqZ 0 65533) = Z.to_nat 65533) as Hl by apply length_seqZ.
  split; [unfold zlen; rewrite length_app, Hl; done|]. split; [lia|].
  split; [split; [done|]; split; [by_decide|unfold RANDSIZ; cbn [randcnt]; lia]|].
  replace (Z.to_nat (65532 + 1)) with (length (seqZ 0 65533)) by (rewrite Hl; lia).
  by rewrite take_app_length.
Qed.

Lemma three_inv p : qid_inv p [65533; 65534; 65535] ->
  qinv (three_with p) [2%positive; 3%positive; 4%positive] [].
Proof.
  intros Hp. constructor.
  - split; [|by_decide]. cbn [queries three_with]. unfold three_heap. by split_and!.
  - done.
  - split; [by_decide|constructor].
  - done.
  - split; by_decide.
  - exact Hp.
Qed.

Lemma three_queries_inv : qinv three_queries [2%positive; 3%positive; 4%positive] [].
Proof. exact (three_inv _ three_pool_inv). Qed.

(** A query whose client identifier is already outstanding adds nothing:
    the first such query is renewed, whichever client asked, its recorded
    client stays the first one, and the message gets the identifier with its
    bytes in the opposite order to a new query's. *)
Theorem query_add_duplicate cfg os now d srv cl w st l1 y l2 pre n a b msg :
  qinv st (l1 ++ y :: l2) pre ->
  queries st !! y = Some n -> client_qid n = a + 256 * b ->
  Some (a + 256 * b) ∉ client_ids st l1 ->
  exists st',
    query_add cfg os now d srv cl (a :: b :: msg) w st =
      Ok (Some (before qlist l1), lo8 (my_qid n) :: hi8 (my_qid n) :: msg, w, st') /\
    qinv st' (l1 ++ y :: l2) pre /\
    queries st' = <[y := touch now n]> (queries st).
Proof.
  intros Hi Hy Hcid Hl1. unfold query_add.
  change (load_id (a :: b :: msg)) with (Ok (a + 256 * b)). cbn [mbind comp_bind].
  destruct (find_client_ok (S (size (queries st))) st [] (l1 ++ y :: l2) (a + 256 * b)) as
    [[_ Hf]|(k1 & z & k2 & Hl & Hz & Hk1 & Hf)].
  { by apply Hi. } { pose proof (ring_size _ _ _ (qi_ring _ _ _ Hi)). lia. }
  { exfalso. rewrite Forall_forall in Hf. apply (Hf y); [set_solver|]. rewrite Hy. cbn. by f_equal. }
  assert (l1 = k1 /\ y = z) as [<- <-].
  { apply (first_split (fun p => client_qid <$> queries st !! p = Some (a + 256 * b)) l1 y l2 k1 z k2); [done| |done| |done].
    - apply Forall_forall. intros x Hx Hc. apply Hl1. apply list_elem_of_fmap. by exists x.
    - rewrite Hy. cbn. by f_equal. }
  change (before qlist []) with qlist in Hf. rewrite Hf. cbn [mbind comp_bind app].
  rewrite (ring_next_before _ _ _ _ (qi_ring _ _ _ Hi)). change (default qlist (list.head (y :: l2))) with y. cbn [mbind comp_bind].
  unfold get_query. rewrite Hy. cbn [of_option mbind comp_bind]. rewrite store_id_ok.
  cbn [mbind comp_bind mret comp_ret]. eexists. split; [done|].
  split; [by apply qinv_inert|]. cbn [queries with_queries]. apply map_eq. intros i.
  destruct (decide (i = y)) as [->|Hne].
  - by rewrite lookup_alter_eq, lookup_insert_eq, Hy.
  - by rewrite lookup_alter_ne, lookup_insert_ne.
Qed.

Lemma query_add_duplicate_witness :
  exists st', query_add (Config 200 12 10) (Os 9%positive 8) 100 None 2%positive ((10, 0, 0, 1), 5353)
      [78; 0; 1] (Net two_servers ∅) three_queries =
      Ok (Some 2%positive, [lo8 65534; hi8 65534; 1], Net two_servers ∅, st') /\
    qinv st' [2%positive; 3%positive; 4%positive] [] /\
    queries st' = <[3%positive := touch 100 (Query 6 2%positive None 65534 78 ((10, 0, 0, 9), 4000) 11 1 12 4%positive)]>
                    (queries three_queries).
Proof.
  apply (query_add_duplicate (Config 200 12 10) (Os 9%positive 8) 100 None 2%positive ((10, 0, 0, 1), 5353)
    (Net two_servers ∅) three_queries [2%positive] 3%positive [4%positive] []
    (Query 6 2%positive None 65534 78 ((10, 0, 0, 9), 4000) 11 1 12 4%positive) 78 0 [1]).
  - apply three_queries_inv.
  - done.
  - done.
  - unfold client_ids. change (queries three_queries) with three_heap. by_decide.
Defined.

(** The query at an address has timed out. *)
Definition query_at (st : qstate) (now : Z) (p : ptr) : bool :=
  match queries st !! p with Some q => expired now q | None => false end.

(** The state after one sweep, against the list at its start. *)
Definition swept (now : Z) (st st' : qstate) (l l' pre : list ptr) : Prop :=
  qinv st' l' pre /\ l' `sublist_of` l /\
  (forall a, a ∈ l -> a ∈ l' \/ query_at st now a) /\
  (forall a, a ∈ l' -> core <$> queries st' !! a = core <$> queries st !! a).

Lemma query_at_core st st' now a : core <$> queries st' !! a = core <$> queries st !! a ->
  query_at st' now a = query_at st now a.
Proof.
  intros H. apply (proj_core (expired now)) in H; [|done]. unfold query_at.
  destruct (queries st' !! a), (queries st !! a); cbn in H; congruence.
Qed.

Lemma swept_trans now s1 s2 s3 l1 l2 l3 pre :
  swept now s1 s2 l1 l2 pre -> swept now s2 s3 l2 l3 pre -> swept now s1 s3 l1 l3 pre.
Proof.
  intros (_ & Hs1 & Hk1 & Hc1) (Hi & Hs2 & Hk2 & Hc2). split; [done|].
  split; [by etrans|]. split.
  - intros a Ha. destruct (Hk1 a Ha) as [H|]; [|by right].
    destruct (Hk2 a H) as [|He]; [by left|]. right. by rewrite <- (query_at_core s1 s2) by (by apply Hc1).
  - intros a Ha. rewrite Hc2 by done. apply Hc1. apply (sublist_subseteq l3 l2); done.
Qed.

Lemma swept_delete now st st' l1 y l2 pre :
  qinv st (l1 ++ y :: l2) pre -> query_at st now y -> qinv st' (l1 ++ l2) pre ->
  (forall a, a <> y -> core <$> queries st' !! a = core <$> queries st !! a) ->
  swept now st st' (l1 ++ y :: l2) (l1 ++ l2) pre.
Proof.
  intros Hi Hy Hi' Hc. split; [done|]. split.
  { apply sublist_app; [done|]. by apply sublist_cons. }
  split; [intros a; destruct (decide (a = y)) as [->|]; [by right|set_solver]|].
  intros a Ha. apply Hc. intros ->. destruct (qi_ring _ _ _ Hi) as [_ Hn].
  apply NoDup_cons in Hn as [_ Hn]. rewrite <- Permutation_middle in Hn.
  apply NoDup_cons in Hn as [? _]. done.
Qed.

(** One run of the loop from a position between [l1] and [l2]; [N] bounds the
    length of a pass. *)
Lemma timeout_loop_ok N now fuel st l1 l2 pre count :
  qinv st (l1 ++ l2) pre -> (length (l1 ++ l2) <= N)%nat ->
  (length (l1 ++ l2) * (N + 1) + length l2 < fuel)%nat ->
  exists st' l', timeout_loop fuel now (before qlist l1) count st =
      Ok (count + (zlen (l1 ++ l2) - zlen l'), st') /\
    swept now st st' (l1 ++ l2) l' pre /\
    (Exists (fun a => query_at st now a) l2 -> (length l' < length (l1 ++ l2))%nat).
Proof.
  revert st l1 l2 count. induction fuel as [|fuel IH]; intros st l1 l2 count Hi HN Hf; [lia|].
  pose proof (qi_ring _ _ _ Hi) as Hr.
  cbn [timeout_loop]. rewrite (ring_next_before _ _ _ _ Hr). cbn [mbind comp_bind].
  destruct l2 as [|y l2].
  { rewrite bool_decide_true by done. exists st, (l1 ++ []). split; [do 2 f_equal; lia|].
    split; [|by rewrite Exists_nil]. split; [done|]. split; [done|]. split; [by left|done]. }
  change (default qlist (list.head (y :: l2))) with y.
  assert (y <> qlist) as Hyq by (destruct Hr as [_ Hn]; apply NoDup_cons in Hn as [? _]; set_solver).
  rewrite bool_decide_false by done.
  destruct (ring_elem _ _ _ y Hr) as [n Hn]; [set_solver|].
  unfold get_query. rewrite Hn. cbn [of_option mbind comp_bind].
  rewrite length_app in *. cbn [length] in *.
  destruct (expired now n) eqn:Ex.
  - destruct (query_delete_next_ok _ _ _ _ _ Hi) as (st1 & -> & Hi1 & _ & Hc1).
    cbn [mbind comp_bind mret comp_ret].
    rewrite (ring_next_before _ _ _ _ (qi_ring _ _ _ Hi1)). cbn [mbind comp_bind].
    assert (swept now st st1 (l1 ++ y :: l2) (l1 ++ l2) pre) as Hsw
      by (apply swept_delete; try done; unfold query_at; rewrite Hn, Ex; done).
    assert (exists k1 k2, l1 ++ l2 = k1 ++ k2 /\ default qlist (list.head l2) = before qlist k1 /\
      (length k2 <= N)%nat) as (k1 & k2 & Hk & Hb & Hk2).
    { destruct l2 as [|z l2]; [exists [], l1|exists (l1 ++ [z]), l2].
      - rewrite app_nil_r. split; [done|]. split; [done|lia].
      - rewrite <- app_assoc, before_snoc. split; [done|]. split; [done|]. cbn in HN. lia. }
    rewrite Hb. assert (length (k1 ++ k2) = length l1 + length l2)%nat as Hlk
      by (by rewrite <- Hk, length_app).
    destruct (IH st1 k1 k2 (count + 1)) as (st' & l' & -> & Hsw' & _).
    { by rewrite <- Hk. } { lia. } { rewrite Hlk. nia. }
    rewrite <- Hk in *. exists st', l'. split.
    { do 2 f_equal. rewrite !zlen_app, zlen_cons. lia. }
    split; [by eapply swept_trans|]. intros _.
    destruct Hsw' as (_ & Hsub & _). apply sublist_length in Hsub. rewrite length_app in Hsub. lia.
  - cbn [mbind comp_bind mret comp_ret]. rewrite (ring_next_before _ _ _ _ Hr). cbn [mbind comp_bind].
    change (default qlist (list.head (y :: l2))) with y.
    specialize (IH st (l1 ++ [y]) l2 count). rewrite before_snoc, <- app_assoc in IH. cbn [app] in IH.
    rewrite length_app in IH. cbn [length] in IH.
    destruct IH as (st' & l' & -> & Hsw & Hlt); [done|lia|lia|].
    exists st', l'. split; [done|]. split; [done|]. intros [Hy|Ha]%Exists_cons; [|by apply Hlt].
    unfold query_at in Hy. rewrite Hn, Ex in Hy. done.
Qed.

Lemma query_delete_next_timeouts q st st' : query_delete_next q st = Ok st' ->
  total_timeouts st' = total_timeouts st.
Proof.
  unfold query_delete_next. destruct (del_after _ _) as [[tmp qs]|]; cbn [mbind comp_bind]; [|done].
  set (st1 := if bool_decide _ then _ else _).
  assert (total_timeouts st1 = total_timeouts st) as <- by (unfold st1; by destruct (bool_decide _)).
  unfold query_destroy. destruct (get_query _ _) as [n|]; cbn [mbind comp_bind]; [|done].
  destruct (qid_return _ _); cbn [mbind comp_bind mret comp_ret]; [|done]. intros [= <-].
  done.
Qed.

Lemma timeout_loop_timeouts fuel now q c st c' st' : timeout_loop fuel now q c st = Ok (c', st') ->
  total_timeouts st' = total_timeouts st.
Proof.
  revert q c st; induction fuel as [|fuel IH]; intros q c st; [done|]. cbn [timeout_loop].
  destruct (next _ _) as [n|]; cbn [mbind comp_bind]; [|done].
  case_if; [intros ?; by inv_comp|].
  destruct (get_query _ _) as [nd|]; cbn [mbind comp_bind]; [|done]. case_if.
  - destruct (query_delete_next q st) as [st1|] eqn:Ed; cbn [mbind comp_bind mret comp_ret]; [|done].
    destruct (next (queries st1) q); cbn [mbind comp_bind]; [|done].
    intros H. rewrite (IH _ _ _ H). by eapply query_delete_next_timeouts.
  - cbn [mbind comp_bind mret comp_ret]. destruct (next _ _); cbn [mbind comp_bind]; [|done]. apply IH.
Qed.

Lemma query_timeout_ok now st l pre : qinv st l pre ->
  exists st' l', query_timeout now st = Ok st' /\ swept now st st' l l' pre /\
    total_timeouts st' = u32 (total_timeouts st + (zlen l - zlen l')) /\
    (Exists (fun a => query_at st now a) l -> (length l' < length l)%nat).
Proof.
  intros Hi. pose proof (ring_size _ _ _ (qi_ring _ _ _ Hi)) as Hsz. unfold query_timeout.
  destruct (timeout_loop_ok (length l) now (timeout_fuel st) st [] l pre 0) as (st' & l' & Hl & Hsw & Hlt).
  { done. } { done. } { unfold timeout_fuel. cbn [app]. nia. }
  change (before qlist []) with qlist in Hl. rewrite Hl. cbn [mbind comp_bind mret comp_ret app] in *.
  assert (total_timeouts st' = total_timeouts st) as Htt by (by eapply timeout_loop_timeouts).
  eexists _, l'. split; [done|]. split; [|split; [cbn; by rewrite Htt|done]].
  destruct Hsw as ([] & Hsw). split; [by constructor|done].
Qed.

(** Repeated calls of [query_timeout], as the main loop makes them. *)
Fixpoint query_timeouts (k : nat) (now : Z) (st : qstate) : comp qstate :=
  match k with O => Ok st | S k' => st ← query_timeout now st; query_timeouts k' now st end.

(** C36: [query_timeout] always terminates, and what it does is safe: it
    deletes only queries whose time to live has passed, keeps the others in
    order and unchanged, counts what it deleted, and leaves sockets,
    identifiers and list consistent. *)
Theorem query_timeout_safe now st l pre : qinv st l pre ->
  exists st' l', query_timeout now st = Ok st' /\ qinv st' l' pre /\ l' `sublist_of` l /\
    (forall a, a ∈ l -> query_at st now a = false -> a ∈ l') /\
    (forall a, a ∈ l' -> core <$> queries st' !! a = core <$> queries st !! a) /\
    total_timeouts st' = u32 (total_timeouts st + (zlen l - zlen l')).
Proof.
  intros Hi. destruct (query_timeout_ok now _ _ _ Hi) as (st' & l' & He & (Hi' & Hs & Hk & Hc) & Ht & _).
  exists st', l'. split_and!; try done. intros a Ha Hx.
  destruct (Hk a Ha) as [|Hy]; [done|]. by rewrite Hx in Hy.
Qed.

Lemma query_timeout_safe_witness :
  query_at three_queries 100 2%positive /\ query_at three_queries 100 4%positive = false /\
  exists st' l', query_timeout 100 three_queries = Ok st' /\ qinv st' l' [] /\
    l' `sublist_of` [2%positive; 3%positive; 4%positive] /\
    (forall a, a ∈ [2%positive; 3%positive; 4%positive] -> query_at three_queries 100 a = false -> a ∈ l') /\
    (forall a, a ∈ l' -> core <$> queries st' !! a = core <$> queries three_queries !! a) /\
    total_timeouts st' = u32 (0 + (3 - zlen l')).
Proof.
  split; [done|]. split; [done|]. apply (query_timeout_safe 100 three_queries), three_queries_inv.
Defined.

(** One call leaves the second of two expired queries. *)
Example query_timeout_skips :
  (fun st => bool_decide (dom (queries st) = {[1%positive; 3%positive; 4%positive]})) <$>
    (match query_timeout 100 (three_with (Pool (replicate (Z.to_nat 65536) 0) 65532 (Ctx 0 [] [] 0 0 0))) with Ok st => Some st | Fault _ => None end) = Some true.
Proof. vm_compute. reflexivity. Qed.

(** A call skips the query behind one it deletes, but the expired queries
    do not stay: as many calls as there are queries leave exactly the
    queries that have not expired. *)
Theorem query_timeouts_all_expire now st l pre : qinv st l pre ->
  exists st', query_timeouts (length l) now st = Ok st' /\
    qinv st' (filter (fun a => negb (query_at st now a)) l) pre.
Proof.
  enough (forall k st l, qinv st l pre -> (length (filter (fun a => query_at st now a) l) <= k)%nat ->
    exists st', query_timeouts k now st = Ok st' /\
      qinv st' (filter (fun a => negb (query_at st now a)) l) pre) as Hk.
  { intros Hi. apply Hk; [done|]. apply length_filter. }
  clear st l. induction k as [|k IH]; intros st l Hi Hlen.
  { exists st. split; [done|].
    assert (filter (fun a => negb (query_at st now a)) l = l) as ->; [|done].
    apply (filter_all (fun a => negb (query_at st now a))). intros a Ha.
    destruct (query_at st now a) eqn:E; [|done]. exfalso.
    assert (a ∈ filter (fun a => query_at st now a) l) as Hin
      by (apply list_elem_of_filter; by rewrite E).
    destruct (filter _ l); [set_solver|cbn in Hlen; lia]. }
  cbn [query_timeouts]. destruct (query_timeout_ok now _ _ _ Hi) as (st1 & l1 & -> & Hsw & _ & Hlt).
  cbn [mbind comp_bind]. destruct Hsw as (Hi1 & Hsub & Hkeep & Hc).
  assert (forall a, a ∈ l1 -> query_at st1 now a = query_at st now a) as Hat
    by (intros a Ha; apply query_at_core, Hc, Ha).
  destruct (qi_ring _ _ _ Hi) as [_ Hnd]. apply NoDup_cons in Hnd as [_ Hnd].
  assert (filter (fun a => negb (query_at st now a)) l1 = filter (fun a => negb (query_at st now a)) l) as Hf.
  { apply (sublist_filter_eq (fun a => negb (query_at st now a))); [done|done|].
    intros a Ha Hn. destruct (Hkeep a Ha) as [|Hy]; [done|]. by destruct (query_at st now a). }
  destruct (IH st1 l1 Hi1) as (st' & Hrun & Hi').
  - rewrite (filter_bool_ext _ (fun a => query_at st now a)) by done.
    pose proof (filter_split_length (fun a => query_at st now a) l) as H1.
    pose proof (filter_split_length (fun a => query_at st now a) l1) as H2. cbn beta in H1, H2. rewrite Hf in H2.
    destruct (decide (length (filter (fun a => query_at st now a) l) = 0%nat)) as [H0|H0].
    { apply sublist_length in Hsub. lia. }
    assert (length l1 < length l)%nat; [|lia]. apply Hlt.
    destruct (filter (fun a => query_at st now a) l) as [|x k'] eqn:E; [done|].
    assert (x ∈ filter (fun a => query_at st now a) l) as Hx by (rewrite E; by left).
    apply list_elem_of_filter in Hx as [? ?]. apply Exists_exists. by exists x.
  - exists st'. split; [done|]. rewrite <- Hf.
    rewrite <- (filter_bool_ext (fun a => negb (query_at st1 now a))) by (intros; by rewrite Hat). done.
Qed.

Lemma query_timeouts_all_expire_witness :
  exists st', query_timeouts 3 100 three_queries = Ok st' /\ qinv st' [4%positive] [].
Proof. apply (query_timeouts_all_expire 100 three_queries _ _ three_queries_inv). Defined.
