(* ===== verification/Cache.v ===== *)
(** The answer cache (src/dnrd-2.20.3/src/cache.c): a doubly linked list of
    parsed answers between [cachelist] and [lastcache], its search by string
    code and name, and its two kinds of expiry. *)
From stdpp Require Import sorting.
From S2P Require Import Prelude CString Lib Dns Ring Srvnode Domnode.
Set Warnings "-clear-no-such-hyp".

Definition CACHE_TIMEUNIT : Z := 60.
Definition CACHE_NEGTIME : Z := 5 * CACHE_TIMEUNIT.
Definition CACHE_TIME : Z := 60 * CACHE_TIMEUNIT.
Definition CACHE_MAXTIME : Z := 6 * 60 * CACHE_TIMEUNIT.
Definition CACHE_MINCYCLE : Z := 5 * CACHE_TIMEUNIT.
Definition CACHE_HIGHWATER : Z := 1000.
Definition CACHE_LOWWATER : Z := 800.

Record cache_t := Cx {
  code : Z; cname : list Z; ctype : Z; cclass : Z; positive : Z;
  created : Z; lastused : Z; expires : Z;
  cp : dnsheader_t; server : ptr; cnext : option ptr; cprev : option ptr }.

Abbreviation cheap := (gmap ptr cache_t).

Record cstate := CS {
  entries : cheap; cachelist : option ptr; lastcache : option ptr;
  cache_hits : Z; cache_misses : Z; cache_onoff : Z;
  cache_highwater : Z; cache_lowwater : Z; lastexpire : Z }.

Definition set_links (n p : option ptr) (c : cache_t) : cache_t :=
  Cx (code c) (cname c) (ctype c) (cclass c) (positive c) (created c) (lastused c) (expires c)
     (cp c) (server c) n p.
Definition set_cnext (n : option ptr) (c : cache_t) : cache_t := set_links n (cprev c) c.
Definition set_cprev (p : option ptr) (c : cache_t) : cache_t := set_links (cnext c) p c.
Definition set_times (cr lu ex : Z) (c : cache_t) : cache_t :=
  Cx (code c) (cname c) (ctype c) (cclass c) (positive c) cr lu ex
     (cp c) (server c) (cnext c) (cprev c).
Definition set_created (t : Z) (c : cache_t) : cache_t := set_times t (lastused c) (expires c) c.
Definition set_used (t ex : Z) (c : cache_t) : cache_t := set_times (created c) t ex c.

Definition with_entries (h : cheap) (st : cstate) : cstate :=
  CS h (cachelist st) (lastcache st) (cache_hits st) (cache_misses st) (cache_onoff st)
     (cache_highwater st) (cache_lowwater st) (lastexpire st).
Definition with_ends (f l : option ptr) (st : cstate) : cstate :=
  CS (entries st) f l (cache_hits st) (cache_misses st) (cache_onoff st)
     (cache_highwater st) (cache_lowwater st) (lastexpire st).
Definition with_counts (hits misses : Z) (st : cstate) : cstate :=
  CS (entries st) (cachelist st) (lastcache st) hits misses (cache_onoff st)
     (cache_highwater st) (cache_lowwater st) (lastexpire st).
Definition with_lastexpire (t : Z) (st : cstate) : cstate :=
  CS (entries st) (cachelist st) (lastcache st) (cache_hits st) (cache_misses st) (cache_onoff st)
     (cache_highwater st) (cache_lowwater st) t.
Definition with_waters (onoff high low : Z) (st : cstate) : cstate :=
  CS (entries st) (cachelist st) (lastcache st) (cache_hits st) (cache_misses st) onoff
     high low (lastexpire st).

(** A store through a pointer. *)
Definition modify (f : cache_t -> cache_t) (p : ptr) (h : cheap) : comp cheap :=
  c ← of_option NullDeref (h !! p); mret (<[p := f c]> h).
Definition get_cx (st : cstate) (p : ptr) : comp cache_t := of_option NullDeref (entries st !! p).

Definition free_cx (cx : ptr) (st : cstate) : comp cstate :=
  _ ← get_cx st cx; mret (with_entries (delete cx (entries st)) st).

(** [allocate] clears the record; [a] is the address it returns. *)
Definition create_cx (a : ptr) (now : Z) (x : dnsheader_t) (query : rr_t) (srv : ptr) (st : cstate)
  : cstate :=
  let name := cstr (rr_name query) in
  with_entries (<[a := Cx (get_stringcode name) name (rr_type query) (rr_class query)
                         (h_ancount x) 0 (u32 now) 0 x srv None None]> (entries st)) st.

Definition append_cx (now : Z) (cx : ptr) (st : cstate) : comp cstate :=
  st ← match lastcache st with
       | None => mret (with_ends (Some cx) (Some cx) st)
       | Some last =>
           h ← modify (set_cnext (Some cx)) last (entries st);
           h ← modify (set_cprev (Some last)) cx h;
           mret (with_ends (cachelist st) (Some cx) (with_entries h st))
       end;
  h ← modify (set_created (u32 now)) cx (entries st);
  mret (with_entries h st).

Definition remove_cx (cx : ptr) (st : cstate) : comp cstate :=
  c ← get_cx st cx;
  st ← match cnext c with
       | Some n => h ← modify (set_cprev (cprev c)) n (entries st); mret (with_entries h st)
       | None => mret (with_ends (cachelist st) (cprev c) st)
       end;
  c ← get_cx st cx;
  match cprev c with
  | Some p => h ← modify (set_cnext (cnext c)) p (entries st); mret (with_entries h st)
  | None => mret (with_ends (cnext c) (lastcache st) st)
  end.

(** [y0] is the initial content of the local record [query], [a] the address
    of the new entry. *)
Definition cache_dnspacket (y0 : rr_t) (a : ptr) (now : Z) (packet : list Z) (len : Z) (srv : ptr)
    (st : cstate) : comp (Z * cstate) :=
  if cache_onoff st =? 0 then Ok (0, st)
  else
    '(r, query) ← parse_query y0 packet len;
    if negb (r =? 0) || (GET_QR (rr_flags query) =? 0) || bool_decide (cstr (rr_name query) = [])
    then Ok (0, st)
    else
      x ← parse_packet packet len;
      let st := create_cx a now x query srv st in
      st ← (if 0 <? h_ancount x then append_cx now a st else mret st);
      h ← modify (set_used (u32 now)
                    (u32 (u32 now + (if 0 <? h_ancount x then CACHE_TIME else CACHE_NEGTIME))))
            a (entries st);
      mret (0, with_entries h st).

(** The test of the search loop. *)
Definition cx_matches (c : Z) (query : rr_t) (cx : cache_t) : bool :=
  (code cx =? c) && (ctype cx =? rr_type query) && (cclass cx =? rr_class query) &&
  strcasecmp0 (cname cx) (cstr (rr_name query)).

Fixpoint cache_search (fuel : nat) (st : cstate) (c : Z) (query : rr_t) (p : option ptr)
  : comp (option ptr) :=
  match fuel with
  | O => Fault NoFuel
  | S fuel' =>
      match p with
      | None => Ok None
      | Some p =>
          cx ← get_cx st p;
          if cx_matches c query cx then Ok (Some p) else cache_search fuel' st c query (cnext cx)
      end
  end.

(** Returns the result and the packet buffer. *)
Definition cache_lookup (ignore_inactive_cache_hits : Z) (w : net) (y0 : rr_t) (now : Z)
    (packet : list Z) (len : Z) (st : cstate) : comp (Z * list Z * cstate) :=
  if cache_onoff st =? 0 then Ok (0, packet, st)
  else
    '(r, query) ← parse_query y0 packet len;
    if negb (r =? 0) || (GET_QR (rr_flags query) =? 1) || bool_decide (cstr (rr_name query) = [])
       || negb (rr_class query =? DNS_CLASS_INET)
    then Ok (0, packet, st)
    else
      let c := get_stringcode (cstr (rr_name query)) in
      found ← cache_search (S (size (entries st))) st c query (cachelist st);
      match found with
      | None => Ok (0, packet, with_counts (cache_hits st) (cache_misses st + 1) st)
      | Some p =>
          cx ← get_cx st p;
          h ← (if 0 <? positive cx
               then modify (set_used (u32 now) (u32 (u32 now + CACHE_TIME))) p (entries st)
               else mret (entries st));
          packet ← copy_answer packet (h_packet (cp cx)) (h_len (cp cx));
          let st := with_counts (cache_hits st + 1) (cache_misses st) (with_entries h st) in
          inact ← (if ignore_inactive_cache_hits =? 0 then mret 0
                   else s ← get_srv w (server cx); mret (inactive s));
          if inact =? 0 then Ok (h_len (cp cx), packet, st) else Ok (0, packet, st)
      end.

(** The subtraction is done on [unsigned long] and converted to [int]. *)
Definition cmp_cachemru (h : cheap) (x y : ptr) : Z :=
  let lu p := default 0 (lastused <$> h !! p) in
  s32 (u32 (lu y - lu x)).

Fixpoint collect (n : nat) (st : cstate) (p : option ptr) : comp (list ptr) :=
  match n with
  | O => Ok []
  | S n' =>
      match p with
      | None => Fault NullDeref
      | Some p => cx ← get_cx st p; l ← collect n' st (cnext cx); mret (p :: l)
      end
  end.

Fixpoint remove_all (l : list ptr) (st : cstate) : comp cstate :=
  match l with
  | [] => Ok st
  | p :: l' => st ← remove_cx p st; st ← free_cx p st; remove_all l' st
  end.

Fixpoint expire_loop (fuel : nat) (now : Z) (p : option ptr) (total expired : Z) (st : cstate)
  : comp (Z * Z * cstate) :=
  match fuel with
  | O => Fault NoFuel
  | S fuel' =>
      match p with
      | None => Ok (total, expired, st)
      | Some p =>
          cx ← get_cx st p;
          let next := cnext cx in
          if (expires cx <? u32 now) || (CACHE_MAXTIME <? u32 (u32 now - created cx))
          then st ← remove_cx p st; st ← free_cx p st;
               expire_loop fuel' now next (total + 1) (expired + 1) st
          else expire_loop fuel' now next (total + 1) expired st
      end
  end.

(** The sorting routine of the C library. *)
Class Qsort := qsort : (ptr -> ptr -> Z) -> list ptr -> list ptr.

(** The comparison is a total preorder on the elements. *)
Definition cmp_order (cmp : ptr -> ptr -> Z) (l : list ptr) : Prop :=
  (forall x y, x ∈ l -> y ∈ l -> cmp x y <= 0 \/ cmp y x <= 0) /\
  (forall x y z, x ∈ l -> y ∈ l -> z ∈ l -> cmp x y <= 0 -> cmp y z <= 0 -> cmp x z <= 0).

(** What the C standard promises of it. *)
Class QsortSpec (Q : Qsort) := {
  qsort_perm cmp l : cmp_order cmp l -> qsort cmp l ≡ₚ l;
  qsort_sorted cmp l : cmp_order cmp l -> StronglySorted (fun x y => cmp x y <= 0) (qsort cmp l) }.

Section qsort.
Context `{Q : Qsort}.

Definition expire_oldest (itemcount : Z) (st : cstate) : comp cstate :=
  let n := itemcount - cache_lowwater st in
  if n <? 0 then Ok st
  else if itemcount <? n then Fault ReadOOB
  else
    cv ← collect (Z.to_nat itemcount) st (cachelist st);
    remove_all (take (Z.to_nat n) (qsort (cmp_cachemru (entries st)) cv)) st.

Definition cache_expire (now : Z) (st : cstate) : comp cstate :=
  if cache_onoff st =? 0 then Ok st
  else
    let st := if lastexpire st =? 0 then with_lastexpire now st else st in
    if now - lastexpire st <? CACHE_MINCYCLE then Ok st
    else
      '(total, expired, st) ←
        expire_loop (S (size (entries st))) now (cachelist st) 0 0 st;
      let total := total - expired in
      st ← (if cache_highwater st <? total then expire_oldest total st else mret st);
      mret (with_lastexpire now st).
End qsort.

(** The parameter string of [-c]. *)
Definition cache_init (cache_param : list Z) (st : cstate) : cstate :=
  let '(onoff, high, low) :=
    match cache_param with
    | [] => (cache_onoff st, cache_highwater st, cache_lowwater st)
    | c :: _ =>
        if strcmp0 cache_param (lit "off") then (0, cache_highwater st, cache_lowwater st)
        else if isdigit c then
          match strchr cache_param 58 with
          | None => let h := atoi cache_param in (cache_onoff st, h, Z.quot (s32 (h * 75)) 100)
          | Some k => (cache_onoff st, atoi (drop (S k) cache_param), atoi (take k cache_param))
          end
        else (cache_onoff st, cache_highwater st, cache_lowwater st)
    end in
  if onoff =? 0 then with_waters onoff high low st
  else if high <? 0 then with_waters onoff CACHE_HIGHWATER CACHE_LOWWATER st
  else if high <? low then with_waters onoff high (Z.quot (s32 (high * 75)) 100) st
  else with_waters onoff high low st.

(** * The list *)

Definition head_or (q : option ptr) (l : list ptr) : option ptr :=
  match l with [] => q | y :: _ => Some y end.
Definition last_or (p : option ptr) (l : list ptr) : option ptr :=
  match last l with None => p | Some y => Some y end.

(** [l] is a chain of entries whose first one points back to [p] and whose
    last one points forward to [q]. *)
Fixpoint dseg (h : cheap) (p : option ptr) (l : list ptr) (q : option ptr) : Prop :=
  match l with
  | [] => True
  | x :: l' => exists c, h !! x = Some c /\ cprev c = p /\ cnext c = head_or q l' /\
                         dseg h (Some x) l' q
  end.

Lemma head_or_app q l1 l2 : head_or q (l1 ++ l2) = head_or (head_or q l2) l1.
Proof. by destruct l1. Qed.
Lemma last_or_cons p x l : last_or p (x :: l) = last_or (Some x) l.
Proof. unfold last_or. rewrite last_cons. by destruct (last l). Qed.
Lemma last_or_snoc p l x : last_or p (l ++ [x]) = Some x.
Proof. unfold last_or. by rewrite last_snoc. Qed.
Lemma last_or_app p l1 l2 : last_or p (l1 ++ l2) = last_or (last_or p l1) l2.
Proof. revert p; induction l1 as [|x l1 IH]; intros p; cbn [app]; [done|]. by rewrite !last_or_cons, IH. Qed.

Lemma dseg_app h p l1 l2 q :
  dseg h p (l1 ++ l2) q <-> dseg h p l1 (head_or q l2) /\ dseg h (last_or p l1) l2 q.
Proof.
  revert p; induction l1 as [|x l1 IH]; intros p; cbn [app dseg]; [cbn; tauto|].
  rewrite last_or_cons. split.
  - intros (c & Hc & Hp & Hn & Hs). rewrite IH in Hs. destruct Hs as [Hs1 Hs2].
    rewrite head_or_app in Hn. eauto 10.
  - intros ((c & Hc & Hp & Hn & Hs1) & Hs2). exists c. rewrite head_or_app, IH. eauto.
Qed.

(** Only the entries of the chain matter, and of them only the links. *)
Lemma dseg_ext h h' p l q :
  (forall x c, x ∈ l -> h !! x = Some c ->
     exists c', h' !! x = Some c' /\ cnext c' = cnext c /\ cprev c' = cprev c) ->
  dseg h p l q -> dseg h' p l q.
Proof.
  revert p; induction l as [|x l IH]; intros p He; [done|]. cbn [dseg].
  intros (c & Hc & Hp & Hn & Hs). destruct (He x c) as (c' & Hc' & Hn' & Hp'); [by left|done|].
  exists c'. split; [done|]. split; [congruence|]. split; [congruence|].
  apply IH; [|done]. intros y d Hy. apply He. by right.
Qed.

Lemma dseg_frame h h' p l q : (forall x, x ∈ l -> h' !! x = h !! x) -> dseg h p l q -> dseg h' p l q.
Proof.
  intros He. apply dseg_ext. intros x c Hx Hc. exists c. by rewrite He.
Qed.

Lemma dseg_set_next h p l x c q q' : x ∉ l ->
  h !! x = Some c -> dseg h p (l ++ [x]) q ->
  dseg (<[x := set_cnext q' c]> h) p (l ++ [x]) q'.
Proof.
  intros Hx Hc. rewrite !dseg_app. cbn [dseg head_or].
  intros [Hs (c0 & Hc0 & Hp & Hn & _)]. split.
  - apply (dseg_frame h); [|done]. intros y Hy. rewrite lookup_insert_ne; [done|]. by intros ->.
  - exists (set_cnext q' c). rewrite lookup_insert_eq. split; [done|].
    assert (c0 = c) as -> by congruence. done.
Qed.

Lemma dseg_set_prev h p p' l x c q : x ∉ l ->
  h !! x = Some c -> dseg h p (x :: l) q -> dseg (<[x := set_cprev p' c]> h) p' (x :: l) q.
Proof.
  intros Hx Hc. cbn [dseg]. intros (c0 & Hc0 & Hp & Hn & Hs).
  assert (c0 = c) as -> by congruence. exists (set_cprev p' c). rewrite lookup_insert_eq.
  split; [done|]. split; [done|]. split; [done|].
  apply (dseg_frame h); [|done]. intros y Hy. rewrite lookup_insert_ne; [done|]. by intros ->.
Qed.

Lemma dseg_alloc h p l q x : dseg h p l q -> x ∈ l -> exists c, h !! x = Some c.
Proof.
  revert p; induction l as [|y l IH]; intros p; [set_solver|]. cbn [dseg].
  intros (c & Hc & _ & _ & Hs) [->|Hx]%elem_of_cons; eauto.
Qed.

(** An entry without its place in the list. *)
Definition data (c : cache_t) : cache_t := set_links None None c.

(** What an entry promises: its code is the code of its name, and its packet
    is as long as it says. *)
Definition entry_ok (c : cache_t) : Prop :=
  code c = get_stringcode (cname c) /\ 12 <= h_len (cp c) <= zlen (h_packet (cp c)) /\
  positive c = h_ancount (cp c) /\ 0 < positive c.

(** The cache holds the entries [l]. *)
Record cinv (st : cstate) (l : list ptr) : Prop := {
  ci_seg : dseg (entries st) None l None;
  ci_first : cachelist st = head_or None l;
  ci_last : lastcache st = last_or None l;
  ci_nodup : NoDup l;
  ci_ok : Forall (fun p => exists c, entries st !! p = Some c /\ entry_ok c) l }.

(** The data of the listed entries, the abstract content of the cache. *)
Definition content (st : cstate) (l : list ptr) : list cache_t :=
  omap (fun p => data <$> entries st !! p) l.

Lemma modify_ok f p h c : h !! p = Some c -> modify f p h = Ok (<[p := f c]> h).
Proof. intros H. unfold modify. by rewrite H. Qed.

Lemma entry_ok_data c c' : data c' = data c -> entry_ok c -> entry_ok c'.
Proof.
  intros H. unfold entry_ok.
  change (code c') with (code (data c')). change (cname c') with (cname (data c')).
  change (cp c') with (cp (data c')). change (positive c') with (positive (data c')).
  by rewrite H.
Qed.

(** Changes of links keep the entries. *)
Definition links_only (h h' : cheap) : Prop := forall a, data <$> h' !! a = data <$> h !! a.

Lemma links_only_insert (h : cheap) (p : ptr) c c' : h !! p = Some c -> data c' = data c -> links_only h (<[p := c']> h).
Proof.
  intros Hc Hd a. destruct (decide (a = p)) as [->|Hne].
  - rewrite lookup_insert_eq, Hc. cbn. by rewrite Hd.
  - by rewrite lookup_insert_ne.
Qed.

Lemma links_only_trans h1 h2 h3 : links_only h1 h2 -> links_only h2 h3 -> links_only h1 h3.
Proof. intros H1 H2 a. by rewrite H2. Qed.

Lemma ok_links_only (h h' : cheap) (p : ptr) : data <$> h' !! p = data <$> h !! p ->
  (exists c, h !! p = Some c /\ entry_ok c) -> exists c, h' !! p = Some c /\ entry_ok c.
Proof.
  intros Hd (c & Hc & Hok). rewrite Hc in Hd. destruct (h' !! p) as [c'|]; [|done].
  cbn in Hd. exists c'. split; [done|]. apply (entry_ok_data c); [congruence|done].
Qed.

(** Everything but the list. *)
Definition same_rest (st st' : cstate) : Prop :=
  cache_hits st' = cache_hits st /\ cache_misses st' = cache_misses st /\
  cache_onoff st' = cache_onoff st /\ cache_highwater st' = cache_highwater st /\
  cache_lowwater st' = cache_lowwater st /\ lastexpire st' = lastexpire st.

(** Unlinking on both sides of an entry. *)
Lemma unlink_right st l1 x l2 c : cinv st (l1 ++ x :: l2) -> entries st !! x = Some c ->
  exists st1, match cnext c with
       | Some n => h ← modify (set_cprev (cprev c)) n (entries st); mret (with_entries h st)
       | None => mret (with_ends (cachelist st) (cprev c) st)
       end = Ok st1 /\
    cprev c = last_or None l1 /\ cnext c = head_or None l2 /\
    entries st1 !! x = Some c /\ dseg (entries st1) (last_or None l1) l2 None /\
    dseg (entries st1) None l1 (Some x) /\ cachelist st1 = cachelist st /\
    lastcache st1 = last_or None (l1 ++ l2) /\
    links_only (entries st) (entries st1) /\ same_rest st st1.
Proof.
  intros [Hs Hf Hl Hnd _] Hc. apply dseg_app in Hs as [Hs1 Hs2]. cbn [dseg head_or] in *.
  destruct Hs2 as (c0 & Hc0 & Hp & Hn & Hs2). assert (c0 = c) as -> by congruence.
  apply NoDup_app in Hnd as (Hn1 & Hdis & Hn2). apply NoDup_cons in Hn2 as [Hx2 Hn2].
  rewrite Hp. destruct l2 as [|y l2]; cbn [head_or] in Hn; rewrite Hn.
  - eexists. split; [done|]. cbn. rewrite app_nil_r. split_and!; try done.
  - pose proof (dseg_alloc _ _ _ _ y Hs2) as [d Hd]; [by left|].
    apply NoDup_cons in Hn2 as [Hy2 Hn2]. rewrite (modify_ok _ _ _ d Hd).
    assert (x <> y) as Hxy by (intros ->; apply Hx2; by left).
    eexists. split; [done|]. cbn [entries with_entries cachelist lastcache].
    split; [done|]. split; [done|]. split; [by rewrite lookup_insert_ne|].
    split; [by eapply dseg_set_prev|]. split.
    { apply (dseg_frame (entries st)); [|done]. intros z Hz. rewrite lookup_insert_ne; [done|].
      intros ->. apply (Hdis z Hz). right. by left. }
    split; [done|]. split; [rewrite Hl, !last_or_app, !last_or_cons; done|].
    split; [by eapply links_only_insert|done].
Qed.

Lemma remove_cx_ok st l1 x l2 : cinv st (l1 ++ x :: l2) ->
  exists st', remove_cx x st = Ok st' /\ cinv st' (l1 ++ l2) /\
    links_only (entries st) (entries st') /\ same_rest st st'.
Proof.
  intros Hi. pose proof Hi as [Hs Hf Hl Hnd Hok].
  destruct (dseg_alloc _ _ _ _ x Hs) as [c Hc]; [set_solver|].
  destruct (unlink_right _ _ _ _ _ Hi Hc) as (st1 & H1 & Hp & Hn & Hc1 & Hs2 & Hs1 & Hf1 & Hl1 & Hlo & Hsr).
  unfold remove_cx, get_cx. rewrite Hc. cbn [of_option mbind comp_bind] in *.
  rewrite H1. cbn [mbind comp_bind]. rewrite Hc1. cbn [of_option mbind comp_bind].
  rewrite Hp, Hn. clear H1 Hs.
  assert (NoDup (l1 ++ l2)) as Hnd'.
  { rewrite <- Permutation_middle in Hnd. by apply NoDup_cons in Hnd as [_ ?]. }
  assert (forall h', links_only (entries st) h' -> Forall (fun p => exists c, h' !! p = Some c /\ entry_ok c) (l1 ++ l2)) as Hok'.
  { intros h' Hlo'. rewrite <- Permutation_middle in Hok. apply Forall_cons in Hok as [_ Hok].
    eapply Forall_impl; [exact Hok|]. cbn. intros a Ha. by apply (ok_links_only (entries st)). }
  destruct (decide (l1 = [])) as [->|Hne].
  - cbn [last_or last app] in *. eexists. split; [done|]. split; [|done].
    constructor; cbn [entries cachelist lastcache with_ends]; try done. by apply Hok'.
  - destruct (exists_last Hne) as (l0 & z & ->). rewrite last_or_snoc in *.
    destruct (dseg_alloc _ _ _ _ z Hs1) as [d Hd]; [set_solver|].
    apply NoDup_app in Hnd' as (Hn0 & Hdis & Hn2).
    assert (z ∉ l0) as Hz0.
    { apply NoDup_app in Hn0 as (_ & Hd0 & _). intros Hz. apply (Hd0 z Hz). by left. }
    cbn [mbind comp_bind]. rewrite (modify_ok _ _ _ d Hd). cbn [mbind comp_bind].
    eexists. split; [done|].
    assert (links_only (entries st) (<[z := set_cnext (head_or None l2) d]> (entries st1))) as Hlo'
      by (eapply links_only_trans; [done|by eapply links_only_insert]).
    split; [|split; done].
    constructor; cbn [entries cachelist lastcache with_entries].
    + rewrite dseg_app, last_or_snoc. split; [by eapply dseg_set_next|].
      apply (dseg_frame (entries st1)); [|done]. intros y Hy. rewrite lookup_insert_ne; [done|].
      intros ->. apply (Hdis y); [set_solver|done].
    + rewrite Hf1, Hf. by destruct l0.
    + done.
    + by apply NoDup_app.
    + by apply Hok'.
Qed.

Lemma cinv_data st st' l :
  dseg (entries st') None l None -> cachelist st' = cachelist st -> lastcache st' = lastcache st ->
  (forall a, a ∈ l -> data <$> entries st' !! a = data <$> entries st !! a) ->
  cinv st l -> cinv st' l.
Proof.
  intros Hs Hf Hl Hd [? ? ? ? Hok]. constructor; try congruence; try done.
  rewrite Forall_forall in *. intros a Ha. apply (ok_links_only (entries st)); [by apply Hd|by apply Hok].
Qed.

(** Unlinking and freeing an entry. *)
Lemma drop_cx_ok st l1 x l2 : cinv st (l1 ++ x :: l2) ->
  exists st1 st2, remove_cx x st = Ok st1 /\ free_cx x st1 = Ok st2 /\ cinv st2 (l1 ++ l2) /\
    entries st2 !! x = None /\
    (forall a, a <> x -> data <$> entries st2 !! a = data <$> entries st !! a) /\ same_rest st st2.
Proof.
  intros Hi. destruct (remove_cx_ok _ _ _ _ Hi) as (st1 & H1 & Hi1 & Hlo & Hsr).
  destruct (dseg_alloc _ _ _ _ x (ci_seg _ _ Hi)) as [c Hc]; [set_solver|].
  specialize (Hlo x) as Hx. rewrite Hc in Hx. destruct (entries st1 !! x) as [c1|] eqn:Hc1; [|done].
  assert (x ∉ l1 ++ l2) as Hxl.
  { pose proof (ci_nodup _ _ Hi) as Hnd. rewrite <- Permutation_middle in Hnd.
    by apply NoDup_cons in Hnd as [? _]. }
  exists st1. eexists. split; [done|]. unfold free_cx, get_cx. rewrite Hc1. split; [done|].
  cbn [entries with_entries]. split; [|split; [apply lookup_delete_eq|split; [|done]]].
  - apply (cinv_data st1); try done.
    + apply (dseg_frame (entries st1)); [|apply Hi1]. intros y Hy. cbn.
      rewrite lookup_delete_ne; [done|]. by intros ->.
    + intros a Ha. cbn. rewrite lookup_delete_ne; [done|]. by intros ->.
  - intros a Ha. rewrite lookup_delete_ne by done. apply Hlo.
Qed.

Lemma cinv_ends st l : cinv st l -> l = [] /\ lastcache st = None \/
  exists l0 z d, l = l0 ++ [z] /\ lastcache st = Some z /\ entries st !! z = Some d /\ z ∉ l0.
Proof.
  intros [Hs _ Hl Hnd _]. destruct (decide (l = [])) as [->|Hne]; [by left|]. right.
  destruct (exists_last Hne) as (l0 & z & ->). rewrite last_or_snoc in Hl.
  destruct (dseg_alloc _ _ _ _ z Hs) as [d Hd]; [set_solver|]. exists l0, z, d.
  split_and!; try done. apply NoDup_app in Hnd as (_ & Hd0 & _). intros Hz. apply (Hd0 z Hz). by left.
Qed.

Lemma append_cx_ok now a c st l : cinv st l -> a ∉ l -> entries st !! a = Some c ->
  cnext c = None -> cprev c = None -> entry_ok c ->
  exists st' c', append_cx now a st = Ok st' /\ cinv st' (l ++ [a]) /\
    entries st' !! a = Some c' /\ data c' = data (set_created (u32 now) c) /\
    (forall b, b <> a -> data <$> entries st' !! b = data <$> entries st !! b) /\ same_rest st st'.
Proof.
  intros Hi Ha Hc Hcn Hcp Hok. unfold append_cx.
  destruct (cinv_ends _ _ Hi) as [[-> ->]|(l0 & z & d & -> & Hlz & Hd & Hz)].
  - cbn [mbind comp_bind mret comp_ret]. rewrite (modify_ok _ _ _ c Hc).
    do 2 eexists. split; [done|]. cbn [entries with_entries with_ends]. rewrite lookup_insert_eq.
    split; [|split; [done|split; [done|split; [intros b Hb; by rewrite lookup_insert_ne|done]]]].
    constructor; cbn; try done.
    + exists (set_created (u32 now) c). by rewrite lookup_insert_eq.
    + apply NoDup_singleton.
    + constructor; [|constructor]. eexists. by rewrite lookup_insert_eq.
  - rewrite Hlz. rewrite (modify_ok _ _ _ d Hd). cbn [mbind comp_bind mret comp_ret].
    assert (z <> a) as Hza by set_solver.
    rewrite (modify_ok _ _ _ c) by (by rewrite lookup_insert_ne).
    unfold mret, comp_ret. cbn [mbind comp_bind entries with_entries with_ends].
    rewrite (modify_ok _ _ _ (set_cprev (Some z) c)) by (by rewrite lookup_insert_eq).
    do 2 eexists. split; [done|]. cbn [entries with_entries with_ends cachelist lastcache].
    set (h := <[a := _]> _).
    assert (forall b, b <> a -> b <> z -> h !! b = entries st !! b) as Hb.
    { intros b Hb1 Hb2. unfold h. by rewrite !lookup_insert_ne. }
    assert (h !! z = Some (set_cnext (Some a) d)) as Hhz.
    { unfold h. by rewrite !lookup_insert_ne, lookup_insert_eq by done. }
    assert (h !! a = Some (set_created (u32 now) (set_cprev (Some z) c))) as Hha
      by (unfold h; apply lookup_insert_eq).
    rewrite Hha. split; [|split; [done|split; [done|split; [|done]]]].
    + destruct Hi as [Hs Hf Hl Hnd Hoks].
      constructor; cbn [entries with_entries with_ends cachelist lastcache].
      * rewrite dseg_app, last_or_snoc. split.
        -- apply (dseg_frame (<[z := set_cnext (Some a) d]> (entries st))); [|by eapply dseg_set_next].
           intros x Hx. destruct (decide (x = z)) as [->|Hxz]; [by rewrite lookup_insert_eq|].
           rewrite lookup_insert_ne by done. apply Hb; [set_solver|done].
        -- exists (set_created (u32 now) (set_cprev (Some z) c)). by split_and!.
      * rewrite Hf. by destruct l0.
      * by rewrite last_or_snoc.
      * apply NoDup_app. split; [done|]. split; [set_solver|apply NoDup_singleton].
      * apply Forall_app. split; [|constructor; [by exists (set_created (u32 now) (set_cprev (Some z) c))|constructor]].
        rewrite Forall_forall in *. intros x Hx. specialize (Hoks x Hx).
        apply (ok_links_only (entries st)); [|done].
        destruct (decide (x = z)) as [->|Hxz]; [by rewrite Hhz, Hd|]. rewrite Hb; set_solver.
    + intros b Hba. destruct (decide (b = z)) as [->|Hbz]; [by rewrite Hhz, Hd|]. by rewrite Hb.
Qed.

(** The entry made from an answer. *)
Definition answer_entry (now : Z) (x : dnsheader_t) (query : rr_t) (srv : ptr) : cache_t :=
  let name := cstr (rr_name query) in
  Cx (get_stringcode name) name (rr_type query) (rr_class query) (h_ancount x)
     (u32 now) (u32 now) (u32 (u32 now + CACHE_TIME)) x srv None None.

Lemma parse_packet_ok packet len : bytes packet -> 12 <= len <= zlen packet ->
  exists x, parse_packet packet len = Ok x /\ h_len x = len /\
    h_packet x = take (Z.to_nat len) packet ++ [0; 0] /\ rd16 packet 6 = Ok (u16 (h_ancount x)).
Proof.
  intros Hb Hl. unfold parse_packet, decode_header, alloc_packet.
  rewrite (proj2 (Z.leb_le _ _)) by lia. cbn [mbind comp_bind].
  set (p := take _ _ ++ [0; 0]).
  assert (bytes p) as Hbp.
  { apply Forall_app. split; [by apply Forall_take|]. repeat constructor; unfold is_byte; lia. }
  assert (zlen p = len + 2) as Hzp.
  { unfold p, zlen in *. rewrite length_app, length_take. cbn. lia. }
  destruct (rd16_ok p 0) as (? & -> & _); [done|lia|lia|].
  destruct (rd16_ok p 2) as (? & -> & _); [done|lia|lia|].
  destruct (rd16_ok p 4) as (? & -> & _); [done|lia|lia|].
  destruct (rd16_ok p 6) as (an & Han & Hanu); [done|lia|lia|]. rewrite Han.
  destruct (rd16_ok p 8) as (? & -> & _); [done|lia|lia|].
  destruct (rd16_ok p 10) as (? & -> & _); [done|lia|lia|].
  eexists. split; [done|]. split; [done|]. split; [done|]. cbn [h_ancount].
  assert (rd16 packet 6 = rd16 p 6) as ->.
  { unfold rd16, rd, getb. cbn [Z.leb Z.compare]. unfold p.
    rewrite !lookup_app_l by (rewrite length_take; unfold zlen in *; lia).
    rewrite !lookup_take_lt by lia. done. }
  rewrite Han. f_equal. unfold u16, s16, is_u16 in *.
  rewrite Zminus_mod, Zmod_mod, <- Zminus_mod. replace (an + 2 ^ 15 - 2 ^ 15) with an by lia.
  symmetry. by apply Z.mod_small.
Qed.

Lemma cinv_used st l p c t ex : cinv st l -> entries st !! p = Some c ->
  cinv (with_entries (<[p := set_used t ex c]> (entries st)) st) l.
Proof.
  intros [Hs Hf Hl Hnd Hok] Hc. constructor; cbn [entries with_entries cachelist lastcache]; try done.
  - apply (dseg_ext (entries st)); [|done]. intros x d Hx Hd.
    destruct (decide (x = p)) as [->|Hne].
    + rewrite lookup_insert_eq. exists (set_used t ex c). assert (d = c) as -> by congruence. done.
    + rewrite lookup_insert_ne by done. by exists d.
  - rewrite Forall_forall in *. intros x Hx. destruct (Hok x Hx) as (d & Hd & Hdo).
    destruct (decide (x = p)) as [->|Hne]; [|exists d; by rewrite lookup_insert_ne].
    rewrite lookup_insert_eq. exists (set_used t ex c). assert (d = c) as -> by congruence. done.
Qed.

Lemma cache_dnspacket_ok y0 a now packet len srv st l query x :
  cinv st l -> cache_onoff st <> 0 -> bytes packet -> 12 <= len <= zlen packet ->
  parse_query y0 packet len = Ok (0, query) -> GET_QR (rr_flags query) <> 0 ->
  cstr (rr_name query) <> [] -> parse_packet packet len = Ok x -> 0 < h_ancount x ->
  entries st !! a = None ->
  exists st' c, cache_dnspacket y0 a now packet len srv st = Ok (0, st') /\ cinv st' (l ++ [a]) /\
    entries st' !! a = Some c /\ data c = answer_entry now x query srv /\
    (forall b, b <> a -> data <$> entries st' !! b = data <$> entries st !! b) /\ same_rest st st'.
Proof.
  intros Hi Hon Hb Hlen Hq Hqr Hnm Hx Han Ha. unfold cache_dnspacket.
  rewrite (proj2 (Z.eqb_neq _ _) Hon), Hq. cbn [mbind comp_bind].
  rewrite (proj2 (Z.eqb_neq _ _) Hqr), bool_decide_false by done. cbn [Z.eqb negb orb].
  rewrite Hx. cbn [mbind comp_bind]. rewrite (proj2 (Z.ltb_lt _ _) Han).
  assert (a ∉ l) as Hal.
  { intros Hin. destruct (dseg_alloc _ _ _ _ a (ci_seg _ _ Hi) Hin). congruence. }
  set (st1 := create_cx a now x query srv st).
  assert (cinv st1 l) as Hi1.
  { apply (cinv_data st); try done.
    - apply (dseg_frame (entries st)); [|apply Hi]. intros y Hy. cbn. rewrite lookup_insert_ne; [done|].
      by intros ->.
    - intros b Hbl. cbn. rewrite lookup_insert_ne; [done|]. by intros ->. }
  destruct (parse_packet_ok packet len) as (x' & Hx' & Hxl & Hxp & _); [done|done|].
  assert (x' = x) as -> by congruence.
  destruct (append_cx_ok now a _ st1 l Hi1 Hal (lookup_insert_eq _ _ _))
    as (st2 & c & -> & Hi2 & Hc & Hcd & Hoth & Hsr); [done|done| |].
  { split; [done|]. cbn [cp positive]. split; [|done]. rewrite Hxl, Hxp. unfold zlen in *.
    rewrite length_app, length_take. cbn. lia. }
  cbn [mbind comp_bind]. rewrite (modify_ok _ _ _ c Hc). do 2 eexists. split; [done|].
  split; [by apply cinv_used|]. cbn [entries with_entries]. rewrite lookup_insert_eq.
  split; [done|]. split; [|split; [|done]].
  - apply (f_equal (set_used (u32 now) (u32 (u32 now + CACHE_TIME)))) in Hcd. exact Hcd.
  - intros b Hb'. rewrite lookup_insert_ne by done. rewrite Hoth by done. cbn.
    by rewrite lookup_insert_ne.
Qed.

Lemma negative_answer_ok y0 a now packet len srv st l query x :
  cinv st l -> cache_onoff st <> 0 ->
  parse_query y0 packet len = Ok (0, query) -> GET_QR (rr_flags query) <> 0 ->
  cstr (rr_name query) <> [] -> parse_packet packet len = Ok x -> h_ancount x <= 0 ->
  entries st !! a = None ->
  exists st', cache_dnspacket y0 a now packet len srv st = Ok (0, st') /\ cinv st' l /\
    (a ∉ l) /\ is_Some (entries st' !! a) /\
    (forall b, b <> a -> entries st' !! b = entries st !! b) /\ same_rest st st'.
Proof.
  intros Hi Hon Hq Hqr Hnm Hx Han Ha. unfold cache_dnspacket.
  rewrite (proj2 (Z.eqb_neq _ _) Hon), Hq. cbn [mbind comp_bind].
  rewrite (proj2 (Z.eqb_neq _ _) Hqr), bool_decide_false by done. cbn [Z.eqb negb orb].
  rewrite Hx. cbn [mbind comp_bind]. rewrite (proj2 (Z.ltb_ge _ _) Han).
  assert (a ∉ l) as Hal.
  { intros Hin. destruct (dseg_alloc _ _ _ _ a (ci_seg _ _ Hi) Hin). congruence. }
  unfold mret, comp_ret. cbn [mbind comp_bind entries create_cx with_entries].
  rewrite (modify_ok _ _ _ _ (lookup_insert_eq _ _ _)). eexists. split; [done|].
  cbn [entries with_entries]. rewrite insert_insert_eq.
  assert (forall b, b ∈ l -> b <> a) as Hne by (intros b Hb ->; done).
  split; [|split; [done|split; [rewrite lookup_insert_eq; eauto|
    split; [intros b Hb; by rewrite lookup_insert_ne|done]]]].
  apply (cinv_data st); try done; cbn [entries with_entries].
  - apply (dseg_frame (entries st)); [|apply Hi]. intros y Hy. rewrite lookup_insert_ne; [done|].
    intros ->. by apply (Hne y).
  - intros b Hb. rewrite lookup_insert_ne; [done|]. intros ->. by apply (Hne b).
Qed.

(** Caching never faults and keeps the list consistent; at most the answer
    is added to it. *)
Lemma cache_dnspacket_total y0 a now packet len srv st l :
  cinv st l -> bytes packet -> 12 <= len <= zlen packet ->
  zlen (rr_name y0) = RR_NAMESIZE -> 0 ∈ rr_name y0 -> entries st !! a = None ->
  exists st' l', cache_dnspacket y0 a now packet len srv st = Ok (0, st') /\ cinv st' l' /\
    same_rest st st' /\ (forall b, b <> a -> data <$> entries st' !! b = data <$> entries st !! b) /\
    (l' = l \/ l' = l ++ [a] /\ exists x query, parse_packet packet len = Ok x /\
       data <$> entries st' !! a = Some (answer_entry now x query srv)).
Proof.
  intros Hi Hb Hl Hn H0 Ha.
  destruct (decide (cache_onoff st = 0)) as [Hoff|Hon].
  { exists st, l. unfold cache_dnspacket. rewrite (proj2 (Z.eqb_eq _ _) Hoff). by split_and!; auto. }
  destruct (parse_query_ok y0 packet len Hb Hl Hn H0) as (r & query & Hq & Hr & _).
  destruct (parse_packet_ok packet len Hb Hl) as (x & Hx & _).
  destruct (negb (r =? 0) || (GET_QR (rr_flags query) =? 0) || bool_decide (cstr (rr_name query) = [])) eqn:Es.
  { exists st, l. unfold cache_dnspacket. rewrite (proj2 (Z.eqb_neq _ _) Hon), Hq. cbn [mbind comp_bind].
    rewrite Es. by split_and!; auto. }
  apply orb_false_iff in Es as [[Er Hqr]%orb_false_iff Hnm]. apply negb_false_iff in Er. zbool. subst r.
  apply bool_decide_eq_false in Hnm. destruct (decide (0 < h_ancount x)) as [Han|Han].
  - destruct (cache_dnspacket_ok y0 a now packet len srv st l query x) as (st' & c & He & Hi' & Hc & Hd & Ho & Hsr);
      try done. exists st', (l ++ [a]). split_and!; try done. right. split; [done|].
    exists x, query. by rewrite Hc, <- Hd.
  - destruct (negative_answer_ok y0 a now packet len srv st l query x) as (st' & He & Hi' & _ & _ & Ho & Hsr);
      try done; [lia|]. exists st', l. split_and!; try done; [|by left]. intros b Hne. by rewrite Ho.
Qed.

(** * Search *)

(** An entry that answers a query: same type, class and name. *)
Definition wanted (query : rr_t) (cx : cache_t) : bool :=
  (ctype cx =? rr_type query) && (cclass cx =? rr_class query) &&
  strcasecmp0 (cname cx) (cstr (rr_name query)).

Definition wanted_at (st : cstate) (query : rr_t) (p : ptr) : bool :=
  match entries st !! p with Some cx => wanted query cx | None => false end.

Fixpoint first_wanted (st : cstate) (query : rr_t) (l : list ptr) : option ptr :=
  match l with
  | [] => None
  | p :: l' => if wanted_at st query p then Some p else first_wanted st query l'
  end.

Lemma get_stringcode_lower s t : (tolower <$> s) = (tolower <$> t) -> get_stringcode s = get_stringcode t.
Proof.
  intros H. unfold get_stringcode. rewrite !code_loop_eq by lia. rewrite H.
  assert (zlen s = zlen t) as ->; [|done].
  apply (f_equal length) in H. rewrite !length_fmap in H. unfold zlen. by rewrite H.
Qed.

Lemma cx_matches_wanted query cx : entry_ok cx ->
  cx_matches (get_stringcode (cstr (rr_name query))) query cx = wanted query cx.
Proof.
  intros (Hc & _). unfold cx_matches, wanted. rewrite Hc.
  destruct (strcasecmp0 (cname cx) (cstr (rr_name query))) eqn:E; [|by rewrite !andb_false_r].
  apply strcasecmp0_eq in E. by rewrite (get_stringcode_lower _ _ E), Z.eqb_refl.
Qed.

Lemma cache_search_ok fuel st query p l : dseg (entries st) p l None ->
  Forall (fun p => exists c, entries st !! p = Some c /\ entry_ok c) l -> (length l < fuel)%nat ->
  cache_search fuel st (get_stringcode (cstr (rr_name query))) query (head_or None l) =
    Ok (first_wanted st query l).
Proof.
  revert p l; induction fuel as [|fuel IH]; intros p l Hs Hok Hf; [lia|].
  destruct l as [|x l]; [done|]. cbn [cache_search head_or first_wanted dseg] in *.
  destruct Hs as (c & Hc & _ & Hn & Hs). apply Forall_cons in Hok as [(d & Hd & Hdo) Hok].
  assert (d = c) as -> by congruence. unfold get_cx, wanted_at. rewrite Hc. cbn [of_option mbind comp_bind].
  rewrite cx_matches_wanted by done. case_if; [done|]. rewrite Hn. eapply IH; [done|done|].
  cbn in Hf. lia.
Qed.

Lemma cinv_size st l : cinv st l -> (length l <= size (entries st))%nat.
Proof.
  intros [Hs _ _ Hnd _]. rewrite <- (size_dom (D := gset ptr)).
  rewrite <- (size_list_to_set (C := gset ptr) l) by done. apply subseteq_size.
  intros a Ha. apply elem_of_list_to_set in Ha. apply elem_of_dom.
  destruct (dseg_alloc _ _ _ _ a Hs Ha) as [c ->]. eauto.
Qed.

Lemma first_wanted_Some st query l p : first_wanted st query l = Some p ->
  exists l1 l2, l = l1 ++ p :: l2 /\ wanted_at st query p = true /\
    Forall (fun q => wanted_at st query q = false) l1.
Proof.
  induction l as [|x l IH]; cbn; [done|]. case_if.
  - intros [= ->]. by exists [], l.
  - intros H. destruct (IH H) as (l1 & l2 & -> & Hw & Hf). exists (x :: l1), l2. auto.
Qed.

Lemma first_wanted_app st query l1 l2 : first_wanted st query (l1 ++ l2) =
  match first_wanted st query l1 with Some p => Some p | None => first_wanted st query l2 end.
Proof. induction l1 as [|x l1 IH]; cbn; [done|]. by case_if. Qed.

(** A query that reaches the search. *)
Definition cacheable (query : rr_t) : Prop :=
  GET_QR (rr_flags query) <> 1 /\ cstr (rr_name query) <> [] /\ rr_class query = DNS_CLASS_INET.

Lemma lookup_reaches ign w y0 now packet len st l query :
  cinv st l -> cache_onoff st <> 0 -> parse_query y0 packet len = Ok (0, query) -> cacheable query ->
  cache_lookup ign w y0 now packet len st =
      match first_wanted st query l with
      | None => Ok (0, packet, with_counts (cache_hits st) (cache_misses st + 1) st)
      | Some p =>
          cx ← get_cx st p;
          h ← (if 0 <? positive cx
               then modify (set_used (u32 now) (u32 (u32 now + CACHE_TIME))) p (entries st)
               else mret (entries st));
          packet ← copy_answer packet (h_packet (cp cx)) (h_len (cp cx));
          let st := with_counts (cache_hits st + 1) (cache_misses st) (with_entries h st) in
          inact ← (if ign =? 0 then mret 0
                   else s ← get_srv w (server cx); mret (inactive s));
          if inact =? 0 then Ok (h_len (cp cx), packet, st) else Ok (0, packet, st)
      end.
Proof.
  intros Hi Hon Hq (Hqr & Hnm & Hcl). unfold cache_lookup.
  rewrite (proj2 (Z.eqb_neq _ _) Hon), Hq. cbn [mbind comp_bind].
  rewrite (proj2 (Z.eqb_neq _ _) Hqr), (proj2 (Z.eqb_eq _ _) Hcl), bool_decide_false by done.
  cbn [Z.eqb negb orb]. rewrite (ci_first _ _ Hi).
  pose proof (cinv_size _ _ Hi).
  rewrite (cache_search_ok _ _ _ None) by (apply Hi || lia). done.
Qed.

(** * Expiry *)

(** The listed entries that the walk of [cache_expire] removes. *)
Definition stale (now : Z) (c : cache_t) : bool :=
  (expires c <? u32 now) || (CACHE_MAXTIME <? u32 (u32 now - created c)).
Definition stale_at (st : cstate) (now : Z) (p : ptr) : bool :=
  match entries st !! p with Some c => stale now c | None => false end.

(** [st'] is [st] with only the entries [l'] of [l] left. *)
Definition reduced (st st' : cstate) (l l' : list ptr) : Prop :=
  cinv st' l' /\ same_rest st st' /\
  (forall a, a ∈ l' -> data <$> entries st' !! a = data <$> entries st !! a).

Lemma same_rest_trans s1 s2 s3 : same_rest s1 s2 -> same_rest s2 s3 -> same_rest s1 s3.
Proof. unfold same_rest. intuition congruence. Qed.

Lemma reduced_trans s1 s2 s3 l1 l2 l3 : (forall a, a ∈ l3 -> a ∈ l2) ->
  reduced s1 s2 l1 l2 -> reduced s2 s3 l2 l3 -> reduced s1 s3 l1 l3.
Proof.
  intros Hsub (_ & Hr1 & Hd1) (Hi & Hr2 & Hd2). split; [done|].
  split; [by eapply same_rest_trans|]. intros a Ha. rewrite Hd2 by done. apply Hd1. auto.
Qed.

Lemma stale_at_data st st' now a : data <$> entries st' !! a = data <$> entries st !! a ->
  stale_at st' now a = stale_at st now a.
Proof.
  unfold stale_at. destruct (entries st' !! a) as [c|], (entries st !! a) as [d|]; cbn; try done.
  intros [= H]. assert (data c = data d) as Hd by (unfold data, set_links; congruence).
  change (stale now c) with (stale now (data c)). by rewrite Hd.
Qed.

Lemma drop_reduced st l1 x l2 st2 : cinv st2 (l1 ++ l2) -> cinv st (l1 ++ x :: l2) ->
  (forall a, a <> x -> data <$> entries st2 !! a = data <$> entries st !! a) -> same_rest st st2 ->
  reduced st st2 (l1 ++ x :: l2) (l1 ++ l2).
Proof.
  intros Hi2 Hi Hd Hsr. split; [done|]. split; [done|]. intros a Ha. apply Hd. intros ->.
  pose proof (ci_nodup _ _ Hi) as Hnd. rewrite <- Permutation_middle in Hnd.
  by apply NoDup_cons in Hnd as [? _].
Qed.

Lemma expire_loop_ok fuel now st l1 l2 total expired :
  cinv st (l1 ++ l2) -> (length l2 < fuel)%nat ->
  exists st', expire_loop fuel now (head_or None l2) total expired st =
      Ok (total + zlen l2, expired + zlen (filter (fun p => stale_at st now p) l2), st') /\
    reduced st st' (l1 ++ l2) (l1 ++ filter (fun p => negb (stale_at st now p)) l2).
Proof.
  revert l1 l2 st total expired.
  induction fuel as [|fuel IH]; intros l1 l2 st total expired Hi Hf; [lia|].
  destruct l2 as [|x l2].
  { exists st. rewrite !zlen_nil, !Z.add_0_r. cbn. by split_and!. }
  cbn [expire_loop head_or]. destruct (dseg_alloc _ _ _ _ x (ci_seg _ _ Hi)) as [c Hc]; [set_solver|].
  unfold get_cx. rewrite Hc. cbn [of_option mbind comp_bind].
  assert (cnext c = head_or None l2) as Hn.
  { pose proof (ci_seg _ _ Hi) as Hs. apply dseg_app in Hs as [_ (c0 & Hc0 & _ & Hn & _)]. congruence. }
  rewrite Hn. cbn [length] in Hf. rewrite !filter_cons.
  assert (stale_at st now x = stale now c) as Hst by (unfold stale_at; by rewrite Hc).
  rewrite Hst. fold (stale now c). destruct (stale now c) eqn:E; cbn [negb].
  - rewrite decide_True, decide_False by (done || auto).
    destruct (drop_cx_ok _ _ _ _ Hi) as (st1 & st2 & -> & H2 & Hi2 & _ & Hd & Hsr).
    cbn [mbind comp_bind]. rewrite H2. cbn [mbind comp_bind].
    pose proof (drop_reduced _ _ _ _ _ Hi2 Hi Hd Hsr) as Hred.
    destruct (IH l1 l2 st2 (total + 1) (expired + 1) Hi2) as (st' & He & Hr); [lia|].
    assert (forall p, p ∈ l2 -> stale_at st2 now p = stale_at st now p) as Hsa.
    { intros p Hp. apply stale_at_data, Hred. set_solver. }
    rewrite (filter_bool_ext (fun p => stale_at st2 now p) (fun p => stale_at st now p)) in He by done.
    rewrite (filter_bool_ext (fun p => negb (stale_at st2 now p)) (fun p => negb (stale_at st now p))) in Hr
      by (intros; by rewrite Hsa).
    exists st'. rewrite He. rewrite !zlen_cons. split; [do 3 f_equal; lia|].
    eapply reduced_trans; [|done|done]. intros a. rewrite !elem_of_app, list_elem_of_filter. tauto.
  - rewrite decide_False, decide_True by (done || auto).
    destruct (IH (l1 ++ [x]) l2 st (total + 1) expired) as (st' & He & Hr).
    { by rewrite <- app_assoc. } { lia. }
    exists st'. rewrite He, zlen_cons. split; [do 3 f_equal; lia|]. by rewrite <- !app_assoc in Hr.
Qed.

Lemma collect_ok st p l : dseg (entries st) p l None ->
  collect (length l) st (head_or None l) = Ok l.
Proof.
  revert p; induction l as [|x l IH]; intros p; [done|]. cbn [dseg collect length head_or].
  intros (c & Hc & _ & Hn & Hs). unfold get_cx. rewrite Hc. cbn [of_option mbind comp_bind].
  rewrite Hn, (IH _ Hs). done.
Qed.

Definition outside (ks : list ptr) (p : ptr) : bool := bool_decide (p ∉ ks).

Lemma remove_all_ok ks st l : cinv st l -> NoDup ks -> (forall k, k ∈ ks -> k ∈ l) ->
  exists st', remove_all ks st = Ok st' /\ reduced st st' l (filter (outside ks) l).
Proof.
  revert st l; induction ks as [|k ks IH]; intros st l Hi Hnd Hin.
  { exists st. split; [done|]. rewrite filter_all by (intros; by apply bool_decide_pack, not_elem_of_nil).
    by split_and!. }
  apply NoDup_cons in Hnd as [Hk Hnd].
  destruct (list_elem_of_split l k) as (l1 & l2 & ->); [apply Hin; by left|].
  destruct (drop_cx_ok _ _ _ _ Hi) as (st1 & st2 & H1 & H2 & Hi2 & _ & Hd & Hsr).
  cbn [remove_all]. rewrite H1. cbn [mbind comp_bind]. rewrite H2. cbn [mbind comp_bind].
  pose proof (drop_reduced _ _ _ _ _ Hi2 Hi Hd Hsr) as Hred.
  destruct (IH st2 (l1 ++ l2) Hi2 Hnd) as (st' & He & Hr).
  { intros x Hx. assert (x ∈ l1 ++ k :: l2) by (apply Hin; by right). set_solver. }
  exists st'. split; [done|].
  assert (filter (outside (k :: ks)) (l1 ++ k :: l2) = filter (outside ks) (l1 ++ l2)) as ->.
  { pose proof (ci_nodup _ _ Hi) as Hnd'. rewrite <- Permutation_middle in Hnd'.
    apply NoDup_cons in Hnd' as [Hk' _].
    rewrite !filter_app, filter_cons, decide_False.
    - f_equal; apply filter_bool_ext; intros a Ha; unfold outside; apply bool_decide_ext; set_solver.
    - unfold outside. rewrite bool_decide_false; [auto|]. set_solver. }
  eapply reduced_trans; [|done|done]. intros a. rewrite list_elem_of_filter. tauto.
Qed.

(** The last use of an entry; the comparison orders by it as long as the
    times are below [2^31]. *)
Definition used_at (st : cstate) (p : ptr) : Z := default 0 (lastused <$> entries st !! p).
Definition recent_times (st : cstate) (l : list ptr) : Prop :=
  Forall (fun p => 0 <= used_at st p < 2 ^ 31) l.

Lemma cmp_cachemru_le st l x y : recent_times st l -> x ∈ l -> y ∈ l ->
  cmp_cachemru (entries st) x y <= 0 <-> used_at st y <= used_at st x.
Proof.
  unfold recent_times. rewrite Forall_forall. intros Hr Hx Hy.
  pose proof (Hr x Hx) as Hx'. pose proof (Hr y Hy) as Hy'.
  unfold cmp_cachemru. fold (used_at st x) (used_at st y).
  clear Hr Hx Hy. revert Hx' Hy'. generalize (used_at st x) (used_at st y). intros a b Ha Hb.
  unfold s32, u32. rewrite Zplus_mod_idemp_l.
  assert ((b - a + 2 ^ 31) `mod` 2 ^ 32 = b - a + 2 ^ 31) as -> by (apply Z.mod_small; lia).
  lia.
Qed.

Lemma cmp_cachemru_order st l : recent_times st l -> cmp_order (cmp_cachemru (entries st)) l.
Proof.
  intros Hr. split.
  - intros x y Hx Hy. rewrite !(cmp_cachemru_le st l) by done. lia.
  - intros x y z Hx Hy Hz. rewrite !(cmp_cachemru_le st l) by done. lia.
Qed.

Lemma sorted_take_drop {A} (R : A -> A -> Prop) n (l : list A) x y :
  StronglySorted R l -> x ∈ take n l -> y ∈ drop n l -> R x y.
Proof.
  intros Hs. revert n; induction Hs as [|a l Hs IH Hf]; intros [|n]; cbn; try set_solver.
  intros [->|Hx]%elem_of_cons Hy; [|by eapply IH].
  rewrite Forall_forall in Hf. apply Hf. apply list_elem_of_lookup in Hy as [i Hi].
  rewrite lookup_drop in Hi. by eapply list_elem_of_lookup_2.
Qed.

Section evict.
Context `{Q : Qsort} `{HQ : !QsortSpec Q}.

(** The entries that are left after the eviction of [n] of them: a part of
    [l] with [n] fewer elements, none of them used later than an evicted
    one. *)
Lemma expire_oldest_ok st l : cinv st l -> recent_times st l -> 0 <= cache_lowwater st <= zlen l ->
  exists st' l', expire_oldest (zlen l) st = Ok st' /\ reduced st st' l l' /\
    l' `sublist_of` l /\ zlen l' = cache_lowwater st /\
    (forall x y, x ∈ l -> x ∉ l' -> y ∈ l' -> used_at st y <= used_at st x).
Proof.
  intros Hi Hr Hw. unfold expire_oldest. rewrite !(proj2 (Z.ltb_ge _ _)) by lia.
  rewrite (ci_first _ _ Hi). replace (Z.to_nat (zlen l)) with (length l) by (unfold zlen; lia).
  rewrite (collect_ok _ None) by apply Hi. cbn [mbind comp_bind].
  pose proof (cmp_cachemru_order _ _ Hr) as Ho. pose proof (qsort_perm _ _ Ho) as Hp.
  pose proof (qsort_sorted _ _ Ho) as Hs. set (cv := qsort _ l) in *.
  set (n := Z.to_nat (zlen l - cache_lowwater st)).
  assert (NoDup cv) as Hndcv by (rewrite Hp; apply Hi).
  rewrite <- (take_drop n cv) in Hndcv. apply NoDup_app in Hndcv as (Hnt & Hdis & _).
  destruct (remove_all_ok (take n cv) st l Hi Hnt) as (st' & He & Hred).
  { intros k Hk. rewrite <- Hp. rewrite <- (take_drop n cv). apply elem_of_app. by left. }
  assert (forall x, x ∈ l <-> x ∈ take n cv \/ x ∈ drop n cv) as Hcase.
  { intros x. rewrite <- elem_of_app, take_drop, Hp. done. }
  assert (filter (outside (take n cv)) l ≡ₚ drop n cv) as Hdrop.
  { transitivity (filter (outside (take n cv)) (take n cv ++ drop n cv)); [by rewrite take_drop, Hp|].
    rewrite filter_app.
    rewrite (filter_all _ (drop n cv)).
    2: { intros a Ha. apply bool_decide_pack. intros Hat. by apply (Hdis a). }
    assert (filter (outside (take n cv)) (take n cv) = []) as ->; [|done].
    apply filter_none. intros a Ha. unfold outside. by rewrite bool_decide_false by auto. }
  exists st', (filter (outside (take n cv)) l). split; [done|]. split; [done|].
  split; [apply sublist_filter|]. split.
  - unfold zlen in *. rewrite Hdrop, length_drop, Hp. unfold n. lia.
  - intros x y Hx Hnx Hy. rewrite Hdrop in Hnx, Hy.
    assert (x ∈ take n cv) as Hxt by (apply Hcase in Hx as [|]; done).
    rewrite <- (cmp_cachemru_le st l x y) by (done || apply Hcase; auto).
    by apply (sorted_take_drop (fun x y => cmp_cachemru (entries st) x y <= 0) n cv).
Qed.

Lemma cache_expire_due now st l :
  cinv st l -> cache_onoff st <> 0 -> lastexpire st <> 0 -> CACHE_MINCYCLE <= now - lastexpire st ->
  recent_times st l -> 0 <= cache_lowwater st <= cache_highwater st ->
  let fresh := filter (fun p => negb (stale_at st now p)) l in
  exists st' l', cache_expire now st = Ok st' /\ cinv st' l' /\ l' `sublist_of` fresh /\
    (forall a, a ∈ l' -> data <$> entries st' !! a = data <$> entries st !! a) /\
    lastexpire st' = now /\ cache_highwater st' = cache_highwater st /\ cache_lowwater st' = cache_lowwater st /\
    (zlen fresh <= cache_highwater st -> l' = fresh) /\
    (cache_highwater st < zlen fresh -> zlen l' = cache_lowwater st) /\
    (forall x y, x ∈ fresh -> x ∉ l' -> y ∈ l' -> used_at st y <= used_at st x).
Proof.
  intros Hi Hon Hle Hdue Hr Hw fresh. unfold cache_expire.
  rewrite (proj2 (Z.eqb_neq _ _) Hon), (proj2 (Z.eqb_neq _ _) Hle). cbv zeta.
  rewrite (proj2 (Z.ltb_ge _ _)) by lia. rewrite (ci_first _ _ Hi). pose proof (cinv_size _ _ Hi).
  destruct (expire_loop_ok (S (size (entries st))) now st [] l 0 0) as (st1 & -> & Hred); [done|lia|].
  cbn [mbind comp_bind app] in *. fold fresh in Hred.
  assert (0 + zlen l - (0 + zlen (filter (fun p => stale_at st now p) l)) = zlen fresh) as ->.
  { pose proof (filter_split_length (fun p => stale_at st now p) l). unfold fresh, zlen. cbn beta in *. lia. }
  pose proof Hred as (Hi1 & (_ & _ & _ & Hhw & Hlw & _) & Hd1). rewrite Hhw.
  destruct (cache_highwater st <? zlen fresh) eqn:E; zbool.
  - assert (forall p, p ∈ fresh -> used_at st1 p = used_at st p) as Hu.
    { intros p Hp. specialize (Hd1 p Hp). apply (f_equal (fmap lastused)) in Hd1. unfold used_at.
      destruct (entries st1 !! p), (entries st !! p); cbn in *; congruence. }
    assert (recent_times st1 fresh) as Hr1.
    { unfold recent_times in *. rewrite Forall_forall in *. intros p Hp. rewrite Hu by done.
      apply Hr. by apply list_elem_of_filter in Hp as [_ ?]. }
    destruct (expire_oldest_ok st1 fresh Hi1 Hr1) as (st2 & l' & -> & Hred2 & Hsub & Hlen & Hev); [lia|].
    eexists _, l'. split; [done|].
    assert (forall a, a ∈ l' -> a ∈ fresh) as Hin by (intros a; by apply sublist_subseteq).
    destruct (reduced_trans _ _ _ _ _ _ Hin Hred Hred2) as (Hi2 & (_ & _ & _ & Hh2 & Hl2 & _) & Hd2).
    split; [by destruct Hi2; constructor|]. do 3 (split; [done|]). do 2 (split; [done|]).
    split; [intros; lia|]. split; [intros; lia|]. intros x y Hx Hnx Hy.
    rewrite <- (Hu x), <- (Hu y) by auto. by apply Hev.
  - eexists _, fresh. split; [done|]. split; [by destruct Hi1; constructor|].
    do 6 (split; [done|]). split; [intros; lia|]. done.
Qed.

(** A due [cache_expire] terminates and leaves the list consistent: every
    entry left is a fresh one, unchanged and in order; all fresh entries stay
    unless they are more than the high-water mark, and then exactly the
    low-water mark of them stay.  What is evicted then are the entries used
    most recently: no entry that stays was used after an evicted one. *)
Theorem cache_expire_correct now st l :
  cinv st l -> cache_onoff st <> 0 -> lastexpire st <> 0 -> CACHE_MINCYCLE <= now - lastexpire st ->
  recent_times st l -> 0 <= cache_lowwater st <= cache_highwater st ->
  let fresh := filter (fun p => negb (stale_at st now p)) l in
  exists st' l', cache_expire now st = Ok st' /\ cinv st' l' /\ l' `sublist_of` fresh /\
    (forall a, a ∈ l' -> data <$> entries st' !! a = data <$> entries st !! a) /\
    lastexpire st' = now /\
    (zlen fresh <= cache_highwater st -> l' = fresh) /\
    (cache_highwater st < zlen fresh -> zlen l' = cache_lowwater st) /\
    (forall x y, x ∈ fresh -> x ∉ l' -> y ∈ l' -> used_at st y <= used_at st x).
Proof.
  intros Hi Hon Hle Hdue Hr Hw fresh.
  destruct (cache_expire_due now st l) as (st' & l' & He & Hi' & Hs & Hd & Hn & _ & _ & Hrest); [done..|].
  exists st', l'. by split_and!; try apply Hrest.
Qed.

End evict.

(** Insertion sort is one routine with the behaviour of [qsort]. *)
Fixpoint sort_insert (cmp : ptr -> ptr -> Z) (x : ptr) (l : list ptr) : list ptr :=
  match l with
  | [] => [x]
  | y :: l' => if cmp x y <=? 0 then x :: l else y :: sort_insert cmp x l'
  end.

#[local] Instance insertion_sort : Qsort := fun cmp l => foldr (sort_insert cmp) [] l.

Lemma sort_insert_perm cmp x l : sort_insert cmp x l ≡ₚ x :: l.
Proof.
  induction l as [|y l IH]; cbn; [done|]. case_if; [done|]. rewrite IH. apply perm_swap.
Qed.

Lemma insertion_sort_perm cmp l : insertion_sort cmp l ≡ₚ l.
Proof.
  unfold insertion_sort. induction l as [|x l IH]; cbn; [done|]. by rewrite sort_insert_perm, IH.
Qed.

Lemma sort_insert_sorted cmp x l : cmp_order cmp (x :: l) ->
  StronglySorted (fun x y => cmp x y <= 0) l -> StronglySorted (fun x y => cmp x y <= 0) (sort_insert cmp x l).
Proof.
  intros [Htot Htr] Hs. induction Hs as [|y l Hs IH Hf]; cbn; [repeat constructor|].
  destruct (cmp x y <=? 0) eqn:E; zbool.
  - constructor; [by constructor|]. constructor; [done|]. rewrite Forall_forall in *.
    intros z Hz. apply (Htr x y z); set_solver.
  - constructor.
    + apply IH; intros; [apply Htot|eapply Htr]; set_solver.
    + apply Forall_forall. intros z Hz. rewrite sort_insert_perm in Hz.
      apply elem_of_cons in Hz as [->|Hz].
      * destruct (Htot x y); [set_solver|set_solver|lia|done].
      * rewrite Forall_forall in Hf. by apply Hf.
Qed.

#[local] Instance insertion_sort_spec : QsortSpec insertion_sort.
Proof.
  split.
  - intros cmp l _. apply insertion_sort_perm.
  - intros cmp l. unfold qsort, insertion_sort. induction l as [|x l IH]; intros Ho; cbn; [constructor|].
    destruct Ho as [Htot Htr].
    apply sort_insert_sorted.
    + pose proof (insertion_sort_perm cmp l) as Hp. unfold insertion_sort in Hp.
      split.
      * intros a b. rewrite Hp. apply Htot.
      * intros a b c. rewrite Hp. apply Htr.
    + apply IH. split; intros; [apply Htot|eapply Htr]; set_solver.
Qed.

(** An example cache of three entries with marks 1 and 2; the first entry has
    expired. *)
Definition demo_entry (name : string) (used ex : Z) (n p : option ptr) : cache_t :=
  Cx (get_stringcode (lit name)) (lit name) 1 1 1 5000 used ex
    (Hdr 0 0x8180 1 1 0 0 12 (replicate 14 7 ++ [0; 0]) 14 None) 2%positive n p.

Definition demo_cache : cstate :=
  CS (<[10%positive := demo_entry "a.org" 5000 5100 (Some 11%positive) None]>
     (<[11%positive := demo_entry "b.org" 5900 9500 (Some 12%positive) (Some 10%positive)]>
     (<[12%positive := demo_entry "c.org" 5400 9000 None (Some 11%positive)]> ∅)))
    (Some 10%positive) (Some 12%positive) 0 0 1 1 1 5600.

Lemma demo_cache_inv : cinv demo_cache [10%positive; 11%positive; 12%positive].
Proof.
  constructor; cbn [demo_cache entries cachelist lastcache].
  - cbn [dseg]. eexists. split; [done|]. split; [done|]. split; [done|].
    eexists. split; [done|]. split; [done|]. split; [done|]. by eexists.
  - done.
  - done.
  - by_decide.
  - assert (forall name used ex n p, entry_ok (demo_entry name used ex n p)) as Hok
      by (intros; split; [done|]; cbn [demo_entry cp h_len h_packet positive h_ancount]; by_decide).
    repeat (apply Forall_cons; split; [eexists; split; [done|apply Hok]|]). constructor.
Qed.

Lemma cache_expire_correct_witness :
  exists st' l', cache_expire 6000 demo_cache = Ok st' /\ cinv st' l' /\
    l' `sublist_of` [11%positive; 12%positive] /\
    (forall a, a ∈ l' -> data <$> entries st' !! a = data <$> entries demo_cache !! a) /\
    lastexpire st' = 6000 /\
    (2 <= 1 -> l' = [11%positive; 12%positive]) /\ (1 < 2 -> zlen l' = 1) /\
    (forall x y, x ∈ [11%positive; 12%positive] -> x ∉ l' -> y ∈ l' ->
       used_at demo_cache y <= used_at demo_cache x).
Proof.
  apply (cache_expire_correct 6000 demo_cache [10%positive; 11%positive; 12%positive]).
  - apply demo_cache_inv.
  - done.
  - done.
  - cbn. unfold CACHE_MINCYCLE, CACHE_TIMEUNIT. lia.
  - unfold recent_times. by_decide.
  - cbn. lia.
Defined.

(** The entry used last (at 5900) is the one evicted. *)
Example expire_evicts_most_recent :
  (match cache_expire 6000 demo_cache with Ok st => Some (cachelist st) | Fault _ => None end) =
    Some (Some 12%positive).
Proof. vm_compute. reflexivity. Qed.

(** A hit, whatever is done about inactive servers: the entry is marked as
    used, and the packet is overwritten before the server is looked at. *)
Lemma lookup_found ign w y0 now packet len st l query p :
  cinv st l -> cache_onoff st <> 0 -> parse_query y0 packet len = Ok (0, query) -> cacheable query ->
  Forall (fun p => exists c, entries st !! p = Some c /\ h_len (cp c) <= zlen packet) l ->
  first_wanted st query l = Some p ->
  exists c st', entries st !! p = Some c /\ wanted query c = true /\ cinv st' l /\
    cache_hits st' = cache_hits st + 1 /\
    entries st' = <[p := set_used (u32 now) (u32 (u32 now + CACHE_TIME)) c]> (entries st) /\
    cache_lookup ign w y0 now packet len st =
      inact ← (if ign =? 0 then mret 0 else s ← get_srv w (server c); mret (inactive s));
      Ok (if inact =? 0 then h_len (cp c) else 0,
          take 2 packet ++ drop 2 (take (Z.to_nat (h_len (cp c))) (h_packet (cp c))) ++
          drop (Z.to_nat (h_len (cp c))) packet, st').
Proof.
  intros Hi Hon Hq Hcb Hbig Ef. rewrite (lookup_reaches _ _ _ _ _ _ _ l _ Hi Hon Hq Hcb), Ef.
  apply first_wanted_Some in Ef as (l1 & l2 & -> & Hw & _).
  rewrite Forall_forall in Hbig. destruct (Hbig p) as (c & Hc & Hcl); [set_solver|].
  assert (entry_ok c) as (Hcode & Hl & Hpos & Hp0).
  { pose proof (ci_ok _ _ Hi) as Hok. rewrite Forall_forall in Hok.
    destruct (Hok p) as (c' & Hc' & ?); [set_solver|]. congruence. }
  unfold wanted_at in Hw. rewrite Hc in Hw. unfold get_cx. rewrite Hc. cbn [of_option mbind comp_bind].
  rewrite (proj2 (Z.ltb_lt _ _) Hp0), (modify_ok _ _ _ c Hc). cbn [mbind comp_bind].
  unfold copy_answer. rewrite !(proj2 (Z.ltb_ge _ _)) by lia. cbn [mbind comp_bind mret comp_ret].
  do 2 eexists. split; [done|]. split; [done|]. split; [|split; [|split; [|destruct (if ign =? 0 then _ else _) as [z|]; cbn [mbind comp_bind]; [case_if|]; reflexivity]]].
  - pose proof (cinv_used _ _ p c (u32 now) (u32 (u32 now + CACHE_TIME)) Hi Hc) as Hi'. by destruct Hi'; constructor.
  - done.
  - done.
Qed.

(** * Properties of the lookups *)

(** C29: [cache_lookup] finds the first listed entry with the query's type,
    class and name (letter case aside), comparing string codes first never
    hides one.  On a hit the answer replaces everything but the two bytes of
    the query's identifier and the entry gets a new hour; its length is
    returned, or 0 when the option to ignore hits of inactive servers is set
    and the server of the entry is inactive (the caller then goes on with the
    answer in the place of the query).  On a miss the packet is untouched and
    0 is returned.  The cache is on, the query is one that it answers, and
    every cached answer fits into the buffer and has, when the option is set,
    a server that exists. *)
Theorem cache_lookup_correct ign w y0 now packet len st l query :
  cinv st l -> cache_onoff st <> 0 -> parse_query y0 packet len = Ok (0, query) -> cacheable query ->
  Forall (fun p => exists c, entries st !! p = Some c /\ h_len (cp c) <= zlen packet /\ (ign <> 0 -> is_Some (srvs w !! server c))) l ->
  match first_wanted st query l with
  | None => cache_lookup ign w y0 now packet len st =
              Ok (0, packet, with_counts (cache_hits st) (cache_misses st + 1) st)
  | Some p => exists c st', entries st !! p = Some c /\ wanted query c = true /\
      cache_lookup ign w y0 now packet len st =
        Ok (if (ign =? 0) || (default 0 (inactive <$> srvs w !! server c) =? 0) then h_len (cp c) else 0,
            take 2 packet ++ drop 2 (take (Z.to_nat (h_len (cp c))) (h_packet (cp c))) ++
            drop (Z.to_nat (h_len (cp c))) packet, st') /\
      cinv st' l /\ cache_hits st' = cache_hits st + 1 /\
      entries st' = <[p := set_used (u32 now) (u32 (u32 now + CACHE_TIME)) c]> (entries st)
  end.
Proof.
  intros Hi Hon Hq Hcb Hbig0.
  assert (Forall (fun p => exists c, entries st !! p = Some c /\ h_len (cp c) <= zlen packet) l) as Hbig
    by (eapply Forall_impl; [exact Hbig0|]; intros p (c & ? & ? & _); eauto).
  destruct (first_wanted st query l) as [p|] eqn:Ef.
  - destruct (lookup_found ign w y0 now packet len st l query p) as (c & st' & Hc & Hw & Hi' & Hh & He & Hl); try done.
    exists c, st'. split_and!; try done. rewrite Hl. destruct (ign =? 0) eqn:Ei; zbool; [done|]. cbn [orb].
    apply first_wanted_Some in Ef as (l1 & l2 & -> & _). rewrite Forall_forall in Hbig0. destruct (Hbig0 p) as (c' & Hc' & _ & Hs); [set_solver|].
    assert (c' = c) as -> by congruence. destruct (Hs Ei) as [s Hsv]. unfold get_srv. by rewrite Hsv.
  - by rewrite (lookup_reaches _ _ _ _ _ _ _ l _ Hi Hon Hq Hcb), Ef.
Qed.

(** A query for the address of [b.org], in a buffer of 600 bytes. *)
Definition demo_question : list Z :=
  [0xab; 0xcd; 1; 0; 0; 1; 0; 0; 0; 0; 0; 0; 1; 98; 3; 111; 114; 103; 0; 0; 1; 0; 1].
Definition demo_packet : list Z := demo_question ++ replicate 577 0.
Definition demo_query : rr_t :=
  match parse_query rr_blank demo_packet 23 with Ok (_, y) => y | Fault _ => rr_blank end.

Lemma cache_lookup_correct_witness :
  exists c st', entries demo_cache !! 11%positive = Some c /\ wanted demo_query c = true /\
    cache_lookup 0 (Net ∅ ∅) rr_blank 6000 demo_packet 23 demo_cache =
      Ok (if (0 =? 0) || (default 0 (inactive <$> srvs (Net ∅ ∅) !! server c) =? 0) then h_len (cp c) else 0,
          take 2 demo_packet ++ drop 2 (take (Z.to_nat (h_len (cp c))) (h_packet (cp c))) ++
          drop (Z.to_nat (h_len (cp c))) demo_packet, st') /\
    cinv st' [10%positive; 11%positive; 12%positive] /\ cache_hits st' = cache_hits demo_cache + 1 /\
    entries st' = <[11%positive := set_used (u32 6000) (u32 (u32 6000 + CACHE_TIME)) c]> (entries demo_cache).
Proof.
  apply (cache_lookup_correct 0 (Net ∅ ∅) rr_blank 6000 demo_packet 23 demo_cache
    [10%positive; 11%positive; 12%positive] demo_query).
  - apply demo_cache_inv.
  - done.
  - vm_compute. reflexivity.
  - split; [by_decide|]. split; by_decide.
  - repeat (apply Forall_cons; split; [eexists; split; [done|split; [cbn [demo_entry cp h_len]; by_decide|done]]|]).
    constructor.
Defined.

(** What [cache_dnspacket] stores, [cache_lookup] returns: after a positive
    answer was cached, a query for the same question that no older entry
    answers gets that answer, with its own identifier. *)
Theorem cache_store_then_lookup y0 y1 a now later srv st l w resp rlen r x qpkt qlen q :
  cinv st l -> cache_onoff st <> 0 ->
  bytes resp -> 12 <= rlen <= zlen resp -> rlen <= zlen qpkt ->
  parse_query y0 resp rlen = Ok (0, r) -> GET_QR (rr_flags r) = 1 -> cstr (rr_name r) <> [] ->
  parse_packet resp rlen = Ok x -> 0 < h_ancount x -> entries st !! a = None ->
  parse_query y1 qpkt qlen = Ok (0, q) -> cacheable q ->
  rr_type q = rr_type r -> rr_class q = rr_class r ->
  (tolower <$> cstr (rr_name q)) = (tolower <$> cstr (rr_name r)) ->
  Forall (fun p => wanted_at st q p = false) l ->
  exists st1 st2, cache_dnspacket y0 a now resp rlen srv st = Ok (0, st1) /\
    cache_lookup 0 w y1 later qpkt qlen st1 =
      Ok (rlen, take 2 qpkt ++ drop 2 (take (Z.to_nat rlen) resp) ++ drop (Z.to_nat rlen) qpkt, st2).
Proof.
  intros Hi Hon Hb Hlen Hbuf Hr Hqr Hnm Hx Han Ha Hq Hcb Hty Hcl Hname Hl.
  destruct (cache_dnspacket_ok y0 a now resp rlen srv st l r x) as
    (st1 & c & H1 & Hi1 & Hc & Hd & Hoth & Hsr); try done; [by rewrite Hqr|].
  destruct (parse_packet_ok resp rlen Hb Hlen) as (x' & Hx' & Hxl & Hxp & _).
  assert (x' = x) as -> by congruence.
  assert (cp c = x) as Hcp by (change (cp (data c) = x); by rewrite Hd).
  assert (wanted_at st1 q a = true) as Hwa.
  { unfold wanted_at. rewrite Hc. change (wanted q c) with (wanted q (data c)). rewrite Hd.
    unfold wanted. cbn [ctype cclass cname answer_entry]. rewrite Hty, Hcl, !Z.eqb_refl. cbn [andb].
    by apply strcasecmp0_eq. }
  assert (first_wanted st1 q (l ++ [a]) = Some a) as Hfw.
  { rewrite first_wanted_app. cbn [first_wanted]. rewrite Hwa.
    assert (first_wanted st1 q l = None) as ->; [|done].
    assert (a ∉ l) as Hal
      by (intros Hin; destruct (dseg_alloc _ _ _ _ a (ci_seg _ _ Hi) Hin); congruence).
    clear -Hl Hoth Hal. induction Hl as [|p l Hp Hl IH]; [done|]. cbn [first_wanted].
    apply not_elem_of_cons in Hal as [Hpa Hal]. rewrite IH by done.
    assert (wanted_at st1 q p = false) as ->; [|done].
    specialize (Hoth p (not_eq_sym Hpa)). unfold wanted_at in *.
    destruct (entries st1 !! p) as [d|], (entries st !! p) as [e|]; cbn in Hoth; try done.
    change (wanted q d) with (wanted q (data d)). injection Hoth as Hoth.
    assert (data d = data e) as -> by (unfold data, set_links; congruence). done. }
  exists st1. rewrite H1. destruct Hsr as (_ & _ & Hon1 & _).
  rewrite (lookup_reaches _ _ _ _ _ _ _ (l ++ [a]) q Hi1) by (done || congruence).
  rewrite Hfw. unfold get_cx. rewrite Hc. cbn [of_option mbind comp_bind].
  assert (h_len (cp c) = rlen /\ take (Z.to_nat rlen) (h_packet (cp c)) = take (Z.to_nat rlen) resp) as [Hcl' Hct].
  { rewrite Hcp. split; [done|]. rewrite Hxp.
    rewrite take_app_le by (rewrite length_take; unfold zlen in *; lia).
    by rewrite take_take, Nat.min_id. }
  assert (zlen (h_packet (cp c)) = rlen + 2) as Hz.
  { rewrite Hcp, Hxp. unfold zlen in *. rewrite length_app, length_take. cbn. lia. }
  rewrite (modify_ok _ _ _ c Hc). unfold copy_answer, mret, comp_ret. rewrite Hcl', Hct.
  rewrite !(proj2 (Z.ltb_ge _ _)) by lia.
  destruct (0 <? positive c); cbn [mbind comp_bind Z.eqb]; eexists; (split; [done|reflexivity]).
Qed.

(** Answers for [d.org] with one record and without one, and the question. *)
Definition demo_d (ancount : Z) : list Z :=
  [0; 7; 0x81; 0x80; 0; 1; 0; ancount; 0; 0; 0; 0; 1; 100; 3; 111; 114; 103; 0; 0; 1; 0; 1].
Definition demo_reply : list Z := demo_d 1 ++ [0xc0; 12; 0; 1; 0; 1; 0; 0; 1; 0; 0; 4; 10; 0; 0; 9].
Definition demo_d_query : list Z :=
  [0xab; 0xcd; 1; 0; 0; 1; 0; 0; 0; 0; 0; 0; 1; 68; 3; 79; 82; 71; 0; 0; 1; 0; 1] ++ replicate 577 0.
Definition parsed (packet : list Z) (len : Z) : rr_t :=
  match parse_query rr_blank packet len with Ok (_, y) => y | Fault _ => rr_blank end.
Definition header_of (packet : list Z) (len : Z) : dnsheader_t :=
  match parse_packet packet len with Ok x => x | Fault _ => Hdr 0 0 0 0 0 0 0 [] 0 None end.

Lemma cache_store_then_lookup_witness :
  exists st1 st2, cache_dnspacket rr_blank 13%positive 6000 demo_reply 39 2%positive demo_cache = Ok (0, st1) /\
    cache_lookup 0 (Net ∅ ∅) rr_blank 6001 demo_d_query 23 st1 =
      Ok (39, take 2 demo_d_query ++ drop 2 (take 39 demo_reply) ++ drop 39 demo_d_query, st2).
Proof.
  apply (cache_store_then_lookup rr_blank rr_blank 13%positive 6000 6001 2%positive demo_cache
    [10%positive; 11%positive; 12%positive] (Net ∅ ∅) demo_reply 39 (parsed demo_reply 39)
    (header_of demo_reply 39) demo_d_query 23 (parsed demo_d_query 23)).
  - apply demo_cache_inv.
  - done.
  - by_decide.
  - by_decide.
  - by_decide.
  - vm_compute. reflexivity.
  - by_decide.
  - by_decide.
  - vm_compute. reflexivity.
  - by_decide.
  - done.
  - vm_compute. reflexivity.
  - split; [by_decide|]. split; by_decide.
  - by_decide.
  - by_decide.
  - by_decide.
  - by_decide.
Defined.

(** With the option that skips hits of inactive servers, a skipped hit is
    reported as a miss, but the packet no longer holds the client's question:
    the cached answer has been copied over it. *)
Theorem skipped_hit_overwrites_query ign w y0 now packet len st l query p c s :
  cinv st l -> cache_onoff st <> 0 -> parse_query y0 packet len = Ok (0, query) -> cacheable query ->
  Forall (fun p => exists c, entries st !! p = Some c /\ h_len (cp c) <= zlen packet) l ->
  first_wanted st query l = Some p -> ign <> 0 ->
  entries st !! p = Some c -> srvs w !! server c = Some s -> inactive s <> 0 ->
  exists st', cache_lookup ign w y0 now packet len st =
      Ok (0, take 2 packet ++ drop 2 (take (Z.to_nat (h_len (cp c))) (h_packet (cp c))) ++
             drop (Z.to_nat (h_len (cp c))) packet, st').
Proof.
  intros Hi Hon Hq Hcb Hbig Hp Hign Hc Hs Hin.
  destruct (lookup_found ign w y0 now packet len st l query p) as (c' & st' & Hc' & _ & _ & _ & _ & Hl); try done.
  assert (c' = c) as -> by congruence. exists st'. rewrite Hl, (proj2 (Z.eqb_neq _ _) Hign).
  unfold get_srv. rewrite Hs. cbn [of_option mbind comp_bind mret comp_ret]. by rewrite (proj2 (Z.eqb_neq _ _) Hin).
Qed.

Definition demo_down : net := Net (<[2%positive := Srv (10, 0, 0, 1) 5000 0 0 0 None 2%positive]> ∅) ∅.

Lemma skipped_hit_overwrites_query_witness :
  exists st', cache_lookup 1 demo_down rr_blank 6000 demo_packet 23 demo_cache =
    Ok (0, take 2 demo_packet ++ drop 2 (take 14 (replicate 14 7 ++ [0; 0])) ++ drop 14 demo_packet, st').
Proof.
  apply (skipped_hit_overwrites_query 1 demo_down rr_blank 6000 demo_packet 23 demo_cache
    [10%positive; 11%positive; 12%positive] demo_query 11%positive
    (demo_entry "b.org" 5900 9500 (Some 12%positive) (Some 10%positive)) (Srv (10, 0, 0, 1) 5000 0 0 0 None 2%positive)).
  - apply demo_cache_inv.
  - done.
  - vm_compute. reflexivity.
  - split; [by_decide|]. split; by_decide.
  - repeat (apply Forall_cons; split; [eexists; split; [done|cbn [demo_entry cp h_len]; by_decide]|]).
    constructor.
  - vm_compute. reflexivity.
  - lia.
  - reflexivity.
  - reflexivity.
  - by_decide.
Defined.

(** An answer without records is never cached: the list stays as it was,
    but the entry made for it stays allocated and nothing refers to it. *)
Theorem negative_answer_leaks y0 a now packet len srv st l query x :
  cinv st l -> cache_onoff st <> 0 ->
  parse_query y0 packet len = Ok (0, query) -> GET_QR (rr_flags query) <> 0 ->
  cstr (rr_name query) <> [] -> parse_packet packet len = Ok x -> h_ancount x <= 0 ->
  entries st !! a = None ->
  exists st', cache_dnspacket y0 a now packet len srv st = Ok (0, st') /\ cinv st' l /\
    (a ∉ l) /\ is_Some (entries st' !! a) /\
    (forall b, b <> a -> entries st' !! b = entries st !! b).
Proof.
  intros. destruct (negative_answer_ok y0 a now packet len srv st l query x) as (st' & ? & ? & ? & ? & ? & _);
    [done..|]. by exists st'.
Qed.

Lemma negative_answer_leaks_witness :
  exists st', cache_dnspacket rr_blank 13%positive 6000 (demo_d 0) 23 2%positive demo_cache = Ok (0, st') /\
    cinv st' [10%positive; 11%positive; 12%positive] /\
    (13%positive ∉ [10%positive; 11%positive; 12%positive]) /\ is_Some (entries st' !! 13%positive) /\
    (forall b, b <> 13%positive -> entries st' !! b = entries demo_cache !! b).
Proof.
  apply (negative_answer_leaks rr_blank 13%positive 6000 (demo_d 0) 23 2%positive demo_cache
    [10%positive; 11%positive; 12%positive] (parsed (demo_d 0) 23) (header_of (demo_d 0) 23)).
  - apply demo_cache_inv.
  - done.
  - vm_compute. reflexivity.
  - by_decide.
  - by_decide.
  - vm_compute. reflexivity.
  - by_decide.
  - done.
Defined.
