(* ===== verification/Master.v ===== *)
(** The local master (src/dnrd-2.20.3/src/master.c): the table of local
    records, its configuration files, its searches, and the assembly of
    answer packets. *)
From S2P Require Import Prelude CString Lib Dns Common.
Set Warnings "-clear-no-such-hyp".

Definition PACKET_ASSEMBLYSIZE : Z := 600.
Definition ARPADOMAIN : list Z := lit ".in-addr.arpa".
Definition DNS_TYPE_A : Z := 1.
Definition DNS_TYPE_NS : Z := 2.
Definition DNS_TYPE_PTR : Z := 12.
Definition DEFAULT_TTL : Z := 60 * 60.

Record string_t := Str { scode : Z; sstring : list Z }.

(** The tag and the union of [dnsrec_t]. *)
Inductive rdata_t :=
| NameIp (arpa : string_t) (ipnum : Z)
| DnsServer (dns : string_t)
| Authority.

Record dnsrec_t := Rec { object : string_t; udata : rdata_t }.

Record mstate := MS {
  dbv : list dnsrec_t; dbmax : Z; master_onoff : Z; master_initialised : Z; master_reload : Z }.

(** What [fopen] finds under a name: the bytes of the file. *)
Definition files : Type := list Z -> option (list Z).

(** The settings of the file names and [auto_authority]. *)
Definition MASTER_CONFIG : list Z := lit "master".
Definition MASTER_BLACKLIST : list Z := lit "blacklist".
Definition auto_authority : Z := 1.

Definition with_db (db : list dnsrec_t) (mx : Z) (st : mstate) : mstate :=
  MS db mx (master_onoff st) (master_initialised st) (master_reload st).

Definition mkstring (name : list Z) (maxlen : Z) : string_t :=
  let s := strnlwr name maxlen in Str (get_stringcode s) s.

(** The bytes of a 32-bit value in memory, lowest first. *)
Definition le_addr (n : Z) : in_addr :=
  (n `mod` 256, (n / 2 ^ 8) `mod` 256, (n / 2 ^ 16) `mod` 256, (n / 2 ^ 24) `mod` 256).
Definition le_num (a : in_addr) : Z :=
  let '(a, b, c, d) := a in be32 d c b a.

Definition create_nameip (maxnamelen : Z) (ip : list Z) : option rdata_t :=
  match inet_aton ip with
  | None => None
  | Some a =>
      let num := addr_num a in
      let s_addr :=
        if num =? le_num a
        then Z.lor (Z.lor (Z.shiftr (Z.land num 0xff000000) 24) (Z.shiftr (Z.land num 0x00ff0000) 8))
                   (Z.lor (Z.shiftl (Z.land num 0x0000ff00) 8) (Z.shiftl (Z.land num 0x000000ff) 24))
        else num in
      Some (NameIp (mkstring (inet_ntoa (le_addr s_addr)) maxnamelen) num)
  end.

Definition reset_master (st : mstate) : mstate := with_db [] 0 st.

Definition add_record (rec : dnsrec_t) (st : mstate) : mstate :=
  let mx := if dbmax st <=? zlen (dbv st) then dbmax st + 10 else dbmax st in
  with_db (dbv st ++ [rec]) mx st.

Definition add_nameip (name : list Z) (maxlen : Z) (ipnum : list Z) (st : mstate) : mstate :=
  match create_nameip maxlen ipnum with
  | Some u => add_record (Rec (mkstring name maxlen) u) st
  | None => st
  end.

Definition add_dns (domain : list Z) (maxdomainlen : Z) (dns : list Z) (maxdnslen : Z) (st : mstate)
  : mstate :=
  add_record (Rec (mkstring domain maxdomainlen) (DnsServer (mkstring dns maxdnslen))) st.

Definition add_authority (domain : list Z) (maxlen : Z) (st : mstate) : mstate :=
  add_record (Rec (mkstring domain maxlen) Authority) st.

(** * The configuration files *)

(** [snprintf (name, size, "%s%s%s", ...)] *)
Definition snprintf_cut (size : Z) (s : list Z) : list Z := take (Z.to_nat (size - 1)) s.

Definition last_is (c : Z) (w : list Z) : bool :=
  match last w with Some d => d =? c | None => false end.

(** Returns the advanced [*from] and the name. *)
Definition get_hostname (from domain : list Z) (size : Z) : list Z * list Z :=
  let size := size - 2 in
  let '(from, word) := get_word from 100 in
  let joined w := snprintf_cut size (w ++ (match domain with [] => [] | _ => [46] end) ++ domain) in
  let name :=
    match word with
    | [] => []
    | c :: _ =>
        if c =? 43 then fst (copy_string word size)
        else if last_is 43 word then joined (take (length word - 1) word)
        else if last_is 46 word then fst (copy_string (take (length word - 1) word) (size - 1))
        else match strchr word 46 with
             | None => joined word
             | Some _ => fst (copy_string word size)
             end
    end in
  (from, name).

(** The loop that runs [body] on each name that [get_hostname] finds. *)
Fixpoint each_hostname (fuel : nat) (p domain : list Z) (body : list Z -> mstate -> mstate)
    (st : mstate) : comp mstate :=
  match fuel with
  | O => Fault NoFuel
  | S fuel' =>
      let '(p, word) := get_hostname p domain 100 in
      match word with
      | [] => Ok st
      | _ => each_hostname fuel' p domain body (body word st)
      end
  end.

Definition starts_digit (p : list Z) : bool := match p with c :: _ => isdigit c | [] => false end.
Definition comment_line (p : list Z) : bool := match p with [] => true | c :: _ => c =? 35 end.

Definition hosts_line (domain line : list Z) (st : mstate) : comp mstate :=
  let p := skip_ws (noctrln line 300) in
  if comment_line p then Ok st
  else if starts_digit p then
    let '(p, ipnum) := get_word p 100 in
    each_hostname (S (length p)) p domain (fun word => add_nameip word 100 ipnum) st
  else Ok st.

Fixpoint hosts_lines (domain : list Z) (ls : list (list Z)) (st : mstate) : comp mstate :=
  match ls with
  | [] => Ok st
  | line :: ls' => st ← hosts_line domain line st; hosts_lines domain ls' st
  end.

Definition read_hosts (fs : files) (filename domain : list Z) (st : mstate) : comp (Z * mstate) :=
  match fs filename with
  | None => Ok (1, st)
  | Some content => st ← hosts_lines domain (file_lines 300 content) st; mret (0, st)
  end.

(** One line; the domain in force is part of the state of the loop. *)
Definition config_line (fs : files) (line : list Z) (domain : list Z) (st : mstate)
  : comp (list Z * mstate) :=
  let p := skip_ws (noctrln line 300) in
  if comment_line p then Ok (domain, st)
  else if starts_digit p then
    let '(p, ipnum) := get_word p 100 in
    let '(p, word) := get_hostname p domain 100 in
    match word with
    | [] => Ok (domain, add_nameip domain 256 ipnum st)
    | _ =>
        st ← each_hostname (S (length p)) p domain (fun word => add_nameip word 100 ipnum)
               (add_nameip word 100 ipnum st);
        mret (domain, st)
    end
  else
    let '(p, word) := get_word p 100 in
    if strcmp0 word (lit "domain") then
      let '(p, domain) := get_word p 256 in
      match domain with
      | [] => Ok (domain, st)
      | _ =>
          st ← each_hostname (S (length p)) p domain
                 (fun word => if strcmp0 word (lit "+auth") then add_authority domain 256
                              else add_dns domain 256 word 100) st;
          mret (domain, st)
      end
    else if strcmp0 word (lit "hosts") then
      let '(p, filename) := get_word p 200 in
      match filename with
      | [] => Ok (domain, st)
      | _ =>
          let filename := if strcmp0 filename (lit "-") then lit "/etc/hosts" else filename in
          let '(p, word) := get_word p 100 in
          (* [copy_string] trims and cuts [domain] itself *)
          let '(word, domain) := match word with [] => copy_string domain 100 | _ => (word, domain) end in
          '(_, st) ← read_hosts fs filename word st;
          mret (domain, st)
      end
    else Ok (domain, st).

Fixpoint config_lines (fs : files) (ls : list (list Z)) (domain : list Z) (st : mstate)
  : comp mstate :=
  match ls with
  | [] => Ok st
  | line :: ls' => '(domain, st) ← config_line fs line domain st; config_lines fs ls' domain st
  end.

(** [domain0] is what the uninitialised array holds at the start. *)
Definition read_configuration (fs : files) (domain0 filename : list Z) (st : mstate)
  : comp (Z * mstate) :=
  match fs filename with
  | None => Ok (1, st)
  | Some content => st ← config_lines fs (file_lines 300 content) domain0 st; mret (0, st)
  end.

(** [if ((p = strchr (buf, c)) != NULL) *p = 0;] *)
Definition cut_at (c : Z) (s : list Z) : list Z :=
  match strchr s c with Some k => take k s | None => s end.

Fixpoint blacklist_lines (ls : list (list Z)) (st : mstate) : mstate :=
  match ls with
  | [] => st
  | buf :: ls' =>
      let buf := cut_at 10 (cut_at 13 (cut_at 35 buf)) in
      blacklist_lines ls' (match buf with [] => st | _ => add_authority buf 256 st end)
  end.

Definition read_blacklist (fs : files) (filename : list Z) (st : mstate) : Z * mstate :=
  match fs filename with
  | None => (1, st)
  | Some content => (0, blacklist_lines (file_lines 256 content) st)
  end.

(** * Searches *)

Definition is_ptr (code : Z) (arpanum : list Z) (rec : dnsrec_t) : bool :=
  match udata rec with
  | NameIp arpa _ => (scode arpa =? code) && strcmp0 (sstring arpa) arpanum
  | _ => false
  end.
Definition ptr_lookup (st : mstate) (arpanum : list Z) : option dnsrec_t :=
  snd <$> list_find (fun rec => is_ptr (get_stringcode arpanum) arpanum rec) (dbv st).

Definition is_name (code : Z) (name : list Z) (rec : dnsrec_t) : bool :=
  match udata rec with
  | NameIp _ _ => (scode (object rec) =? code) && strcmp0 (sstring (object rec)) name
  | _ => false
  end.
Definition name_lookup (st : mstate) (name : list Z) : option dnsrec_t :=
  snd <$> list_find (fun rec => is_name (get_stringcode name) name rec) (dbv st).

(** The test of [dns_lookup]: the record's domain is the name or a suffix of
    it behind a dot. *)
Definition is_dns (name : list Z) (rec : dnsrec_t) : bool :=
  match udata rec with
  | DnsServer _ =>
      let k := zlen name - zlen (sstring (object rec)) in
      if k <? 0 then false
      else if 0 <? k
           then bool_decide (name !! Z.to_nat (k - 1) = Some 46) &&
                strcmp0 (drop (Z.to_nat k) name) (sstring (object rec))
           else strcmp0 name (sstring (object rec))
  | _ => false
  end.

(** Returns the record and the new [*last]. *)
Definition dns_lookup (st : mstate) (name : list Z) (last : Z) : option dnsrec_t * Z :=
  let last := if last <? 0 then 0 else last + 1 in
  match list_find (fun rec => is_dns name rec) (drop (Z.to_nat last) (dbv st)) with
  | Some (i, rec) => (Some rec, last + Z.of_nat i)
  | None => (None, last)
  end.

Definition is_authority (code : Z) (domain : list Z) (rec : dnsrec_t) : bool :=
  match udata rec with
  | Authority => (scode (object rec) =? code) && strcmp0 (sstring (object rec)) domain
  | _ => false
  end.
Definition authority_lookup (st : mstate) (domain : list Z) : option dnsrec_t :=
  snd <$> list_find (fun rec => is_authority (get_stringcode domain) domain rec) (reverse (dbv st)).

(** * Assembly of answers *)

Definition set_here (p : list Z) (here : Z) (x : dnsheader_t) : dnsheader_t :=
  Hdr (h_id x) (h_u x) (h_qdcount x) (h_ancount x) (h_nscount x) (h_arcount x) here p (h_len x) (h_rdata x).

(** [*x->here++ = b] *)
Definition put (b : Z) (x : dnsheader_t) : comp dnsheader_t :=
  p ← wr (h_packet x) (h_here x) (u8 b); mret (set_here p (h_here x + 1) x).

Fixpoint puts (bs : list Z) (x : dnsheader_t) : comp dnsheader_t :=
  match bs with [] => Ok x | b :: bs' => x ← put b x; puts bs' x end.

(** The characters of a name up to the next dot. *)
Fixpoint label_of (name : list Z) : list Z :=
  match name with
  | c :: name' => if c =? 46 then [] else c :: label_of name'
  | [] => []
  end.

Fixpoint compile_labels (fuel : nat) (name : list Z) (x : dnsheader_t) : comp dnsheader_t :=
  match fuel with
  | O => Fault NoFuel
  | S fuel' =>
      match name with
      | [] => Ok x
      | _ =>
          let lab := label_of name in
          let n := zlen lab in
          if n =? 0 then Ok x
          else
            x ← put (Z.land n 0x3f) x;
            x ← puts lab x;
            let name := drop (length lab) name in
            let name := match name with 46 :: name' => name' | _ => name end in
            compile_labels fuel' name x
      end
  end.

(** Returns the offset at which the name starts. *)
Definition compile_name (name : list Z) (x : dnsheader_t) : comp (Z * dnsheader_t) :=
  let offset := h_here x in
  x ← compile_labels (S (length name)) name x;
  x ← put 0 x;
  mret (offset, x).

Definition compile_namepointer (offset : Z) (x : dnsheader_t) : comp dnsheader_t :=
  x ← put 0xc0 x; put (Z.land offset 0x3f) x.

Definition compile_int (number : Z) (x : dnsheader_t) : comp dnsheader_t :=
  puts [hi8 number; lo8 number] x.

Definition compile_long (number : Z) (x : dnsheader_t) : comp dnsheader_t :=
  puts [(number / 2 ^ 24) `mod` 256; (number / 2 ^ 16) `mod` 256; hi8 number; lo8 number] x.

Definition compile_objectname (x : dnsheader_t) : comp dnsheader_t := puts [0xc0; 0x0c] x.

Definition set_rdata (r : option Z) (x : dnsheader_t) : dnsheader_t :=
  Hdr (h_id x) (h_u x) (h_qdcount x) (h_ancount x) (h_nscount x) (h_arcount x) (h_here x)
      (h_packet x) (h_len x) r.

(** A 16-bit store in network order at an offset. *)
Definition put16_at (i v : Z) (p : list Z) : comp (list Z) :=
  p ← wr p i (hi8 v); wr p (i + 1) (lo8 v).

Definition end_rdata (x : dnsheader_t) : comp dnsheader_t :=
  match h_rdata x with
  | None => mret (set_rdata None x)
  | Some r =>
      p ← put16_at r (h_here x - (r + 2)) (h_packet x);
      mret (set_rdata None (set_here p (h_here x) x))
  end.

Definition start_rdata (x : dnsheader_t) : comp dnsheader_t :=
  compile_int 0 (set_rdata (Some (h_here x)) x).

Definition end_assembly (x : dnsheader_t) : comp dnsheader_t :=
  x ← end_rdata x;
  p ← put16_at 2 (h_u x) (h_packet x);
  p ← put16_at 4 (h_qdcount x) p;
  p ← put16_at 6 (h_ancount x) p;
  p ← put16_at 8 (h_nscount x) p;
  p ← put16_at 10 (h_arcount x) p;
  mret (Hdr (h_id x) (h_u x) (h_qdcount x) (h_ancount x) (h_nscount x) (h_arcount x) (h_here x)
            p (h_here x) (h_rdata x)).

Definition begin_assembly (query : rr_t) : comp dnsheader_t :=
  let x := Hdr 0 (SET_QR 0 1) 1 0 0 0 PACKET_DATABEGIN (replicate (Z.to_nat PACKET_ASSEMBLYSIZE) 0) 0 None in
  '(_, x) ← compile_name (cstr (rr_name query)) x;
  x ← compile_int (rr_type query) x;
  compile_int (rr_class query) x.

Definition add_counts (an ns : Z) (x : dnsheader_t) : dnsheader_t :=
  Hdr (h_id x) (h_u x) (h_qdcount x) (s16 (h_ancount x + an)) (s16 (h_nscount x + ns)) (h_arcount x)
      (h_here x) (h_packet x) (h_len x) (h_rdata x).
Definition set_ancount (an : Z) (x : dnsheader_t) : dnsheader_t :=
  Hdr (h_id x) (h_u x) (h_qdcount x) an (h_nscount x) (h_arcount x)
      (h_here x) (h_packet x) (h_len x) (h_rdata x).
Definition set_u (u : Z) (x : dnsheader_t) : dnsheader_t :=
  Hdr (h_id x) u (h_qdcount x) (h_ancount x) (h_nscount x) (h_arcount x)
      (h_here x) (h_packet x) (h_len x) (h_rdata x).

Definition dns_string (rec : dnsrec_t) : list Z :=
  match udata rec with DnsServer dns => sstring dns | _ => [] end.

(** Type, class, time to live and the name of the server. *)
Definition compile_ns (rec : dnsrec_t) (x : dnsheader_t) : comp dnsheader_t :=
  x ← compile_int DNS_TYPE_NS x;
  x ← compile_int DNS_CLASS_INET x;
  x ← compile_long DEFAULT_TTL x;
  x ← start_rdata x;
  '(_, x) ← compile_name (dns_string rec) x;
  end_rdata x.

Fixpoint dnsrecords_loop (fuel : nat) (st : mstate) (obj : list Z) (last pos : Z) (x : dnsheader_t)
  : comp dnsheader_t :=
  match fuel with
  | O => Fault NoFuel
  | S fuel' =>
      match dns_lookup st obj last with
      | (None, _) => Ok x
      | (Some rec, last) =>
          '(pos, x) ← (if pos =? 0 then compile_name (sstring (object rec)) x
                       else x ← compile_namepointer pos x; mret (pos, x));
          x ← compile_ns rec x;
          dnsrecords_loop fuel' st obj last pos (add_counts 0 1 x)
      end
  end.

Definition compile_dnsrecords (st : mstate) (obj : list Z) (x : dnsheader_t) : comp dnsheader_t :=
  x ← dnsrecords_loop (S (length (dbv st))) st obj (-1) 0 x;
  mret (if 0 <? h_nscount x then set_u (SET_AA (h_u x) 1) x else x).

(** The loop of the NS answer. *)
Fixpoint ns_loop (fuel : nat) (st : mstate) (name : list Z) (rec : dnsrec_t) (last : Z) (x : dnsheader_t)
  : comp dnsheader_t :=
  match fuel with
  | O => Fault NoFuel
  | S fuel' =>
      x ← compile_objectname x;
      x ← compile_ns rec x;
      let x := add_counts 1 0 x in
      match dns_lookup st name last with
      | (None, _) => Ok x
      | (Some rec, last) => ns_loop fuel' st name rec last x
      end
  end.

(** * Start, lookups, reload *)

(** The pass over the records that adds the authorities of the reverse
    domains; records added on the way are visited too. *)
Fixpoint auto_loop (fuel : nat) (i : nat) (st : mstate) : comp mstate :=
  match fuel with
  | O => Fault NoFuel
  | S fuel' =>
      match dbv st !! i with
      | None => Ok st
      | Some rec =>
          let st :=
            match udata rec with
            | NameIp arpa _ =>
                let arpaname := snprintf_cut (200 - 2) (sstring arpa ++ ARPADOMAIN) in
                match strchr arpaname 46 with
                | None => st
                | Some k =>
                    let domain := drop (S k) arpaname in
                    match authority_lookup st domain with
                    | None => add_authority domain (200 + Z.of_nat (S k)) st
                    | Some _ => st
                    end
                end
            | _ => st
            end in
          auto_loop fuel' (S i) st
      end
  end.

Definition master_init (fs : files) (domain0 : list Z) (st : mstate) : comp mstate :=
  if master_onoff st =? 0 then Ok st
  else
    let st := add_nameip (lit "localhost") 10 (lit "127.0.0.1") st in
    let st := add_dns (lit "0.0.127.in-addr.arpa") 21 (lit "localhost") 10 st in
    let '(_, st) := read_blacklist fs MASTER_BLACKLIST st in
    '(_, st) ← read_configuration fs domain0 MASTER_CONFIG st;
    st ← (if auto_authority =? 0 then mret st
          else auto_loop (S (2 * length (dbv st))) 0 st);
    mret (MS (dbv st) (dbmax st) (master_onoff st) 1 (master_reload st)).

Definition ensure_init (fs : files) (domain0 : list Z) (st : mstate) : comp mstate :=
  if master_initialised st =? 0 then master_init fs domain0 st else Ok st.

(** The rest of an answer with one record, after its data: the authority
    section, the counts and the copy to the client's buffer. *)
Definition finish_answer (st : mstate) (name msg : list Z) (x : dnsheader_t)
  : comp (Z * list Z) :=
  x ← end_rdata x;
  x ← compile_dnsrecords st name x;
  x ← end_assembly (set_ancount 1 x);
  msg ← copy_answer msg (h_packet x) (h_len x);
  mret (h_len x, msg).

Definition record_head (type : Z) (x : dnsheader_t) : comp dnsheader_t :=
  x ← compile_objectname x;
  x ← compile_int type x;
  x ← compile_int DNS_CLASS_INET x;
  x ← compile_long DEFAULT_TTL x;
  start_rdata x.

(** The negative answer for a name the master is responsible for. *)
Definition authority_answer (st : mstate) (query : rr_t) (msg : list Z) : comp (Z * list Z) :=
  let name := cstr (rr_name query) in
  match strchr name 46 with
  | None => Ok (0, msg)
  | Some k =>
      let domain := drop (S k) name in
      match authority_lookup st name, authority_lookup st domain with
      | None, None => Ok (0, msg)
      | _, _ =>
          x ← begin_assembly query;
          let x := set_ancount 0 x in
          x ← end_assembly (set_u (SET_AA (h_u x) 1) x);
          msg ← copy_answer msg (h_packet x) (h_len x);
          mret (h_len x, msg)
      end
  end.

(** [y0] is the initial content of the local record; the result is the
    length, the message buffer and the state. *)
Definition master_lookup (fs : files) (domain0 : list Z) (y0 : rr_t) (msg : list Z) (len : Z)
    (st : mstate) : comp (Z * list Z * mstate) :=
  if master_onoff st =? 0 then Ok (0, msg, st)
  else
    st ← ensure_init fs domain0 st;
    '(r, query) ← parse_query y0 msg len;
    if negb (r =? 0) || negb (rr_class query =? DNS_CLASS_INET) || negb (GET_OPCODE (rr_flags query) =? 0)
    then Ok (0, msg, st)
    else
      let name := cstr (rr_name query) in
      '(r, msg) ←
        (if rr_type query =? DNS_TYPE_PTR then
           let k := zlen name - zlen ARPADOMAIN in
           if (k <? 0) || negb (strcmp0 (drop (Z.to_nat k) name) ARPADOMAIN) then Ok (0, msg)
           else match ptr_lookup st (take (Z.to_nat k) name) with
                | Some rec =>
                    x ← begin_assembly query;
                    x ← record_head DNS_TYPE_PTR x;
                    '(_, x) ← compile_name (sstring (object rec)) x;
                    finish_answer st name msg x
                | None => authority_answer st query msg
                end
         else if rr_type query =? DNS_TYPE_A then
           match name_lookup st name with
           | Some rec =>
               x ← begin_assembly query;
               x ← record_head DNS_TYPE_A x;
               x ← compile_long (match udata rec with NameIp _ n => n | _ => 0 end) x;
               finish_answer st name msg x
           | None => authority_answer st query msg
           end
         else if rr_type query =? DNS_TYPE_NS then
           match dns_lookup st name (-1) with
           | (Some rec, last) =>
               x ← begin_assembly query;
               x ← ns_loop (S (length (dbv st))) st name rec last x;
               x ← end_assembly (set_u (SET_AA (h_u x) 1) x);
               msg ← copy_answer msg (h_packet x) (h_len x);
               mret (h_len x, msg)
           | (None, _) => authority_answer st query msg
           end
         else Ok (0, msg));
      mret (r, msg, st).

(** Returns the length, the answer buffer and the state. *)
Definition master_dontknow (fs : files) (domain0 : list Z) (y0 : rr_t) (msg : list Z) (len : Z)
    (answer : list Z) (st : mstate) : comp (Z * list Z * mstate) :=
  if master_onoff st =? 0 then Ok (0, answer, st)
  else
    st ← ensure_init fs domain0 st;
    '(r, query) ← parse_query y0 msg len;
    if negb (r =? 0) || negb (rr_class query =? DNS_CLASS_INET) || negb (GET_OPCODE (rr_flags query) =? 0)
    then Ok (0, answer, st)
    else
      x ← begin_assembly query;
      let x := set_ancount 0 x in
      let x := set_u (SET_AA (h_u x) 0) x in
      x ← end_assembly (set_u (SET_RCODE (h_u x) 1) x);
      if zlen answer <? h_len x then Fault WriteOOB
      else mret (h_len x, blit answer 0 (take (Z.to_nat (h_len x)) (h_packet x)), st).

Definition master_reinit (fs : files) (domain0 : list Z) (st : mstate) : comp mstate :=
  st ← (if (master_onoff st =? 0) || (master_reload st =? 0) then mret st
        else master_init fs domain0 (reset_master st));
  mret (MS (dbv st) (dbmax st) (master_onoff st) (master_initialised st) 0).

(** * Reading the configuration terminates and keeps the table consistent *)

Definition str_ok (s : string_t) : Prop :=
  scode s = get_stringcode (sstring s) /\ (tolower <$> sstring s) = sstring s.

Definition rec_ok (r : dnsrec_t) : Prop :=
  str_ok (object r) /\
  match udata r with NameIp arpa _ => str_ok arpa | DnsServer dns => str_ok dns | Authority => True end.

Definition db_ok (st : mstate) : Prop := Forall rec_ok (dbv st).

Lemma mkstring_ok s maxlen : zlen s <= maxlen -> str_ok (mkstring s maxlen) /\ sstring (mkstring s maxlen) = tolower <$> s.
Proof.
  intros H. unfold mkstring, str_ok. cbn. rewrite strnlwr_all by done.
  split; [|done]. split; [done|]. apply fmap_lower_idem.
Qed.

Lemma word_loop_progress s k m : (length (fst (word_loop s k m)) <= length s)%nat /\
  (snd (word_loop s k m) <> [] -> (length (fst (word_loop s k m)) < length s)%nat).
Proof.
  destruct (word_loop_from s k m) as (pre & Hs & _). split.
  - rewrite Hs at 2. rewrite length_app. lia.
  - destruct s as [|c s]; [done|]. cbn [word_loop] in *. case_if; [done|]. intros _.
    assert (pre <> []) as Hne.
    { intros ->. cbn in Hs. clear -Hs.
      assert (forall k, (length (fst (word_loop s k m)) <= length s)%nat) as Hle.
      { intros k'. destruct (word_loop_from s k' m) as (p & Hp & _). rewrite Hp at 2. rewrite length_app. lia. }
      apply (f_equal length) in Hs. destruct (k <? m).
      - specialize (Hle (k + 1)). destruct (word_loop s (k + 1) m); cbn in *. lia.
      - specialize (Hle k). cbn [length] in Hs. lia. }
    apply (f_equal length) in Hs. rewrite length_app in Hs. destruct pre; [done|]. rewrite Hs. cbn [length]. lia.
Qed.

Lemma skip_ctl_len s : (length (skip_ctl s) <= length s)%nat.
Proof. induction s as [|c s IH]; cbn; [lia|]. case_if; cbn; lia. Qed.

Lemma get_word_ok from maxlen p w : get_word from maxlen = (p, w) ->
  zlen w <= Z.max 0 (maxlen - 2) /\ (length p <= length from)%nat /\
  (w <> [] -> (length p < length from)%nat).
Proof.
  unfold get_word. intros H. pose proof (word_loop_len (skip_ctl from) 0 (maxlen - 2) ltac:(lia)) as Hl.
  pose proof (word_loop_progress (skip_ctl from) 0 (maxlen - 2)) as [Hp Hq].
  rewrite H in Hl, Hp, Hq. cbn [fst snd] in *. pose proof (skip_ctl_len from).
  split; [lia|]. split; [lia|]. intros Hw. specialize (Hq Hw). lia.
Qed.

Lemma copy_string_len x len : zlen (fst (copy_string x len)) <= Z.max 0 (len - 2).
Proof.
  unfold copy_string. cbn [fst]. case_if; zbool; [|lia].
  unfold zlen. rewrite length_take. lia.
Qed.

Lemma get_hostname_ok from domain p name : get_hostname from domain 100 = (p, name) ->
  zlen name <= 100 /\ (length p <= length from)%nat /\ (name <> [] -> (length p < length from)%nat).
Proof.
  unfold get_hostname. destruct (get_word from 100) as [q word] eqn:E.
  destruct (get_word_ok _ _ _ _ E) as (Hw & Hle & Hlt). intros [= <- <-].
  assert (forall s, zlen (snprintf_cut (100 - 2) s) <= 100) as Hcut.
  { intros s. unfold snprintf_cut, zlen. rewrite length_take. lia. }
  assert (forall s k, k <= 100 -> zlen (fst (copy_string s k)) <= 100) as Hcs.
  { intros s k Hk. pose proof (copy_string_len s k). lia. }
  split; [|split; [done|]].
  - destruct word as [|c w]; [cbn; lia|]. destruct (c =? 43); [apply Hcs; lia|].
    destruct (last_is 43 (c :: w)); [apply Hcut|]. destruct (last_is 46 (c :: w)); [apply Hcs; lia|].
    destruct (strchr (c :: w) 46); [apply Hcs; lia|apply Hcut].
  - intros Hn. apply Hlt. by destruct word.
Qed.

(** The loop over the names of a line ends and keeps what its body keeps. *)
Lemma each_hostname_ok (I : mstate -> Prop) fuel p domain body st :
  (forall word st, zlen word <= 100 -> I st -> I (body word st)) -> I st -> (length p < fuel)%nat ->
  exists st', each_hostname fuel p domain body st = Ok st' /\ I st'.
Proof.
  intros Hb. revert p st; induction fuel as [|fuel IH]; intros p st Hst Hf; [lia|].
  cbn [each_hostname]. destruct (get_hostname p domain 100) as [q word] eqn:E.
  destruct (get_hostname_ok _ _ _ _ E) as (Hw & _ & Hlt).
  destruct word as [|c w]; [eauto|]. apply IH; [by apply Hb|]. specialize (Hlt ltac:(done)). lia.
Qed.

Lemma add_record_ok r st : rec_ok r -> db_ok st -> db_ok (add_record r st).
Proof. intros Hr Hst. apply Forall_app. split; [done|]. by constructor. Qed.

Lemma add_nameip_ok name maxlen ip st : zlen name <= maxlen -> 15 <= maxlen ->
  db_ok st -> db_ok (add_nameip name maxlen ip st).
Proof.
  intros Hn Hm Hst. unfold add_nameip, create_nameip. destruct (inet_aton ip) as [a|]; [|done].
  cbv zeta. apply add_record_ok; [|done]. split; cbn [object udata]; [by apply mkstring_ok|].
  apply mkstring_ok. pose proof (inet_ntoa_len (le_addr (if addr_num a =? le_num a then
    Z.lor (Z.lor (Z.shiftr (Z.land (addr_num a) 0xff000000) 24) (Z.shiftr (Z.land (addr_num a) 0x00ff0000) 8))
      (Z.lor (Z.shiftl (Z.land (addr_num a) 0x0000ff00) 8) (Z.shiftl (Z.land (addr_num a) 0x000000ff) 24))
    else addr_num a))). lia.
Qed.

Lemma add_authority_ok d m st : zlen d <= m -> db_ok st -> db_ok (add_authority d m st).
Proof. intros Hd Hst. apply add_record_ok; [|done]. split; [by apply mkstring_ok|done]. Qed.

Lemma add_dns_ok d m s k st : zlen d <= m -> zlen s <= k -> db_ok st -> db_ok (add_dns d m s k st).
Proof. intros Hd Hs Hst. apply add_record_ok; [|done]. split; by apply mkstring_ok. Qed.

(** A step of the readers: it ends, and it keeps the table consistent. *)
Definition keeps (c : comp mstate) : Prop := exists st', c = Ok st' /\ db_ok st'.

Lemma hosts_line_ok domain line st : db_ok st -> keeps (hosts_line domain line st).
Proof.
  intros Hst. unfold hosts_line, keeps. case_if; [eauto|]. case_if; [|eauto].
  destruct (get_word _ 100) as [p ip]. apply each_hostname_ok; [|done|lia].
  intros word s Hw Hs. by apply add_nameip_ok.
Qed.

Lemma hosts_lines_ok domain ls st : db_ok st -> keeps (hosts_lines domain ls st).
Proof.
  revert st; induction ls as [|l ls IH]; intros st Hst; [by exists st|]. cbn [hosts_lines].
  destruct (hosts_line_ok domain l st Hst) as (st1 & -> & H1). by apply IH.
Qed.

Lemma read_hosts_ok fs f domain st : db_ok st ->
  exists r st', read_hosts fs f domain st = Ok (r, st') /\ db_ok st'.
Proof.
  intros Hst. unfold read_hosts. destruct (fs f) as [content|]; [|eauto].
  destruct (hosts_lines_ok domain (file_lines 300 content) st Hst) as (st' & -> & H'). eauto.
Qed.

Lemma copy_string_src_len x len : zlen (snd (copy_string x len)) <= zlen x.
Proof.
  assert (forall rs, (length (strip_down rs) <= length rs)%nat) as Hsd
    by (induction rs as [|c rs IH]; cbn; [lia|]; case_if; cbn; lia).
  assert (forall s m, zlen (noctrln s m) <= zlen s) as Hnc.
  { intros s m. unfold noctrln. case_if; [|lia]. zbool. unfold strnlen, zlen in *. lia. }
  assert (zlen (skip_ws x) <= zlen x) as Hws.
  { unfold zlen. induction x as [|c x IH]; cbn; [lia|]. case_if; cbn; lia. }
  unfold copy_string. cbn [snd]. set (z := skip_ws x) in *. rewrite zlen_app.
  pose proof (Hnc z (len + (zlen x - zlen z))) as Hn. revert Hn.
  generalize (noctrln z (len + (zlen x - zlen z))). intros z1 Hn.
  assert (zlen (take (Z.to_nat (zlen x - zlen z)) x) <= zlen x - zlen z).
  { unfold zlen in *. rewrite length_take. lia. }
  assert (zlen (take (Z.to_nat (len - 2)) z1) <= zlen z1) by (unfold zlen; rewrite length_take; lia).
  case_if; lia.
Qed.

Lemma config_line_ok fs line domain st : zlen domain <= 256 -> db_ok st ->
  exists domain' st', config_line fs line domain st = Ok (domain', st') /\
    zlen domain' <= 256 /\ db_ok st'.
Proof.
  intros Hd Hst. unfold config_line. case_if; [eauto|]. case_if.
  - destruct (get_word _ 100) as [p ip]. destruct (get_hostname p domain 100) as [q word] eqn:Eh.
    destruct (get_hostname_ok _ _ _ _ Eh) as (Hw & _).
    assert (db_ok (add_nameip domain 256 ip st)) by (apply add_nameip_ok; (done || lia)).
    destruct word as [|c w]; [eauto|].
    destruct (each_hostname_ok db_ok (S (length q)) q domain (fun word => add_nameip word 100 ip)
      (add_nameip (c :: w) 100 ip st)) as (st' & -> & H'); [| |lia|].
    + intros word s Hw' Hs. by apply add_nameip_ok.
    + by apply add_nameip_ok.
    + eauto.
  - destruct (get_word _ 100) as [p word]. case_if.
    + destruct (get_word p 256) as [q dom] eqn:Ed. destruct (get_word_ok _ _ _ _ Ed) as (Hdl & _).
      destruct dom as [|c dm]; [exists [], st; split; [done|split; [cbn; lia|done]]|].
      destruct (each_hostname_ok db_ok (S (length q)) q (c :: dm)
        (fun word => if strcmp0 word (lit "+auth") then add_authority (c :: dm) 256
                     else add_dns (c :: dm) 256 word 100) st) as (st' & -> & H'); [|done|lia|].
      * intros w s Hw Hs. case_if; [apply add_authority_ok|apply add_dns_ok]; (done || lia).
      * do 2 eexists. split; [done|]. split; [lia|done].
    + case_if; [|eauto]. destruct (get_word p 200) as [q fname]. destruct fname as [|c f]; [eauto|].
      destruct (get_word q 100) as [q' word'].
      set (pr := match word' with [] => copy_string domain 100 | _ => (word', domain) end).
      assert (zlen (snd pr) <= 256) as Hpr.
      { unfold pr. destruct word'; [|done]. pose proof (copy_string_src_len domain 100). lia. }
      destruct pr as [w' d']. cbn [snd] in Hpr.
      destruct (read_hosts_ok fs (if strcmp0 (c :: f) (lit "-") then lit "/etc/hosts" else c :: f) w' st Hst)
        as (r & st' & -> & H'). eauto.
Qed.

Lemma config_lines_ok fs ls domain st : zlen domain <= 256 -> db_ok st ->
  keeps (config_lines fs ls domain st).
Proof.
  revert domain st; induction ls as [|l ls IH]; intros domain st Hd Hst; [by exists st|].
  cbn [config_lines]. destruct (config_line_ok fs l domain st Hd Hst) as (d' & st' & -> & Hd' & H').
  cbn [mbind comp_bind]. by apply IH.
Qed.

Lemma blacklist_lines_ok ls st : Forall (fun l => zlen l <= 256) ls -> db_ok st ->
  db_ok (blacklist_lines ls st).
Proof.
  intros Hl. revert st; induction Hl as [|l ls Hl _ IH]; intros st Hst; [done|]. cbn [blacklist_lines].
  assert (forall c s, zlen s <= 256 -> zlen (cut_at c s) <= 256) as Hcut.
  { intros c s Hs. unfold cut_at. destruct (strchr s c); [|done]. unfold zlen in *. rewrite length_take. lia. }
  pose proof (Hcut 10 _ (Hcut 13 _ (Hcut 35 l Hl))) as Hc.
  destruct (cut_at 10 (cut_at 13 (cut_at 35 l))) as [|c b]; apply IH; [done|].
  by apply add_authority_ok.
Qed.

Lemma fgets_len n content : (length (fst (fgets n content)) <= n)%nat.
Proof.
  revert content; induction n as [|n IH]; intros [|c content]; cbn; try lia.
  case_if; cbn; [lia|]. specialize (IH content). destruct (fgets n content). cbn in *. lia.
Qed.

Lemma file_lines_len size content : 1 <= size -> Forall (fun l => zlen l <= size - 1) (file_lines size content).
Proof.
  intros Hs. unfold file_lines. generalize (length content). intros fuel. revert content.
  induction fuel as [|fuel IH]; intros content; [constructor|]. cbn [lines_of].
  destruct content as [|c content]; [constructor|].
  pose proof (fgets_len (Z.to_nat (size - 1)) (c :: content)) as Hl.
  destruct (fgets _ _) as [line rest]. constructor; [|apply IH].
  pose proof (cstr_len line). cbn in Hl. unfold zlen. lia.
Qed.

(** The domain whose authority the master takes for a record. *)
Definition reverse_domain (arpa : string_t) : option (list Z) :=
  let arpaname := snprintf_cut (200 - 2) (sstring arpa ++ ARPADOMAIN) in
  match strchr arpaname 46 with Some k => Some (drop (S k) arpaname) | None => None end.

Definition has_authority (st : mstate) (domain : list Z) : Prop :=
  Exists (fun r => is_authority (get_stringcode domain) domain r) (dbv st).

Lemma list_find_is_Some {A} (P : A -> bool) (l : list A) :
  is_Some (snd <$> list_find (fun x => P x) l) <-> Exists (fun x => P x) l.
Proof.
  split.
  - intros [x Hx]. destruct (list_find (fun x => P x) l) as [[i y]|] eqn:E; [|done].
    apply list_find_Some in E as (Hy & HP & _). apply Exists_exists. exists y.
    split; [by eapply list_elem_of_lookup_2|done].
  - intros (x & Hx & HP)%Exists_exists. destruct (list_find_elem_of (fun x => P x) l x Hx HP) as [[i y] ->].
    cbn. eauto.
Qed.

Lemma authority_lookup_has st domain : is_Some (authority_lookup st domain) <-> has_authority st domain.
Proof.
  unfold authority_lookup. rewrite list_find_is_Some. unfold has_authority.
  rewrite !Exists_exists. by setoid_rewrite elem_of_reverse.
Qed.

Lemma has_authority_app st st' d l : dbv st' = dbv st ++ l -> has_authority st d -> has_authority st' d.
Proof. unfold has_authority. intros -> H. apply Exists_app. by left. Qed.

Lemma lower_drop (s : list Z) n : (tolower <$> s) = s -> (tolower <$> drop n s) = drop n s.
Proof. intros H. by rewrite fmap_drop, H. Qed.
Lemma lower_take (s : list Z) n : (tolower <$> s) = s -> (tolower <$> take n s) = take n s.
Proof. intros H. by rewrite fmap_take, H. Qed.

Lemma reverse_domain_ok arpa d : str_ok arpa -> reverse_domain arpa = Some d ->
  (tolower <$> d) = d /\ zlen d <= 200.
Proof.
  intros [_ Hlow]. unfold reverse_domain. set (a := snprintf_cut _ _).
  assert ((tolower <$> a) = a) as Ha.
  { apply lower_take. rewrite fmap_app, Hlow. f_equal. }
  assert (zlen a <= 200) as Hl by (unfold a, snprintf_cut, zlen; rewrite length_take; lia).
  destruct (strchr a 46) as [k|]; [|done]. intros [= <-]. split; [by apply lower_drop|].
  unfold zlen in *. rewrite length_drop. lia.
Qed.

(** What [auto_loop] does at one record. *)
Definition auto_step (rec : dnsrec_t) (st : mstate) : mstate :=
  match udata rec with
  | NameIp arpa _ =>
      match reverse_domain arpa with
      | Some d => match authority_lookup st d with
                  | None => add_authority d (200 + (zlen (snprintf_cut (200 - 2) (sstring arpa ++ ARPADOMAIN)) - zlen d)) st
                  | Some _ => st
                  end
      | None => st
      end
  | _ => st
  end.

Lemma auto_step_ok rec st : rec_ok rec -> db_ok st ->
  exists a, dbv (auto_step rec st) = dbv st ++ a /\ (length a <= 1)%nat /\
    Forall (fun r => udata r = Authority) a /\ db_ok (auto_step rec st) /\
    (forall arpa ip d, udata rec = NameIp arpa ip -> reverse_domain arpa = Some d ->
       has_authority (auto_step rec st) d).
Proof.
  intros [_ Hu] Hst. unfold auto_step.
  assert (exists a : list dnsrec_t, dbv st = dbv st ++ a /\ (length a <= 1)%nat /\
    Forall (fun r => udata r = Authority) a /\ db_ok st) as (a0 & Hz).
  { exists []. rewrite app_nil_r. cbn. auto with lia. }
  destruct (udata rec) as [arpa ip| |].
  2, 3: exists a0; destruct Hz as (? & ? & ? & ?); split_and!; (done || congruence).
  destruct (reverse_domain arpa) as [d|] eqn:Ed.
  2: { exists a0. destruct Hz as (? & ? & ? & ?). split_and!; try done. intros arpa' ip' d [= <- <-]. congruence. }
  destruct (reverse_domain_ok _ _ Hu Ed) as [Hlow Hlen].
  destruct (authority_lookup st d) as [r|] eqn:Ea.
  - exists a0. destruct Hz as (? & ? & ? & ?). split_and!; try done. intros arpa' ip' d' [= <- <-].
    rewrite Ed. intros [= <-]. apply authority_lookup_has. by rewrite Ea.
  - set (m := 200 + _).
    assert (zlen d <= m) as Hm.
    { unfold m, reverse_domain in *. destruct (strchr _ 46) as [k|]; [|done]. injection Ed as <-.
      unfold zlen in *. rewrite length_drop in *. lia. }
    destruct (mkstring_ok d m Hm) as [[Hcode _] Hs].
    exists [Rec (mkstring d m) Authority]. split; [done|]. split; [cbn; lia|].
    split; [by constructor|]. split; [by apply add_authority_ok|].
    intros arpa' ip' d' [= <- <-]. rewrite Ed. intros [= <-].
    apply Exists_app. right. constructor. unfold is_authority. cbn [udata object].
    rewrite Hcode, Hs, Hlow, Z.eqb_refl. unfold strcmp0. rewrite str_eqb_refl. done.
Qed.

Lemma auto_loop_step fuel i st rec : dbv st !! i = Some rec ->
  auto_loop (S fuel) i st = auto_loop fuel (S i) (auto_step rec st).
Proof.
  intros H. cbn [auto_loop]. rewrite H. unfold auto_step, reverse_domain.
  destruct (udata rec) as [arpa ip| |]; try done. cbv zeta.
  set (a := snprintf_cut _ _). destruct (strchr a 46) as [k|] eqn:Ek; [|done].
  apply strchr_Some in Ek as [Hk _]. apply lookup_lt_Some in Hk.
  assert (zlen a - zlen (drop (S k) a) = Z.of_nat (S k)) as ->; [|done].
  unfold zlen. rewrite length_drop. lia.
Qed.

Lemma auto_loop_ok fuel n i st : db_ok st ->
  (forall j r, (n <= j)%nat -> dbv st !! j = Some r -> udata r = Authority) ->
  (i <= length (dbv st))%nat -> (n <= length (dbv st))%nat ->
  (length (dbv st) - i + (n - i) < fuel)%nat ->
  (forall j r arpa ip d, (j < i)%nat -> dbv st !! j = Some r -> udata r = NameIp arpa ip ->
     reverse_domain arpa = Some d -> has_authority st d) ->
  exists st', auto_loop fuel i st = Ok st' /\ db_ok st' /\ dbv st `prefix_of` dbv st' /\
    (forall r arpa ip d, r ∈ dbv st' -> udata r = NameIp arpa ip ->
       reverse_domain arpa = Some d -> has_authority st' d) /\
    master_onoff st' = master_onoff st /\ master_reload st' = master_reload st.
Proof.
  revert i st; induction fuel as [|fuel IH]; intros i st Hok Hau Hi Hn Hf Hdone; [lia|].
  destruct (dbv st !! i) as [rec|] eqn:E.
  - rewrite (auto_loop_step _ _ _ _ E). pose proof (lookup_lt_Some _ _ _ E) as Hlt.
    assert (rec_ok rec) as Hrec by (by eapply Forall_lookup_1 in Hok).
    destruct (auto_step_ok rec st Hrec Hok) as (a & Hdb & Hla & Ha & Hok' & Hrev).
    assert ((n <= i)%nat -> a = []) as Hnil.
    { intros Hni. specialize (Hau i rec Hni E). unfold auto_step in Hdb. rewrite Hau in Hdb.
      apply (f_equal length) in Hdb. rewrite length_app in Hdb. destruct a; [done|cbn in Hdb; lia]. }
    assert (master_onoff (auto_step rec st) = master_onoff st /\
      master_reload (auto_step rec st) = master_reload st) as [Hoo Hre].
    { unfold auto_step. destruct (udata rec); try done. destruct (reverse_domain arpa); [|done].
      by destruct (authority_lookup st l). }
    destruct (IH (S i) (auto_step rec st)) as (st' & He & Hok2 & Hpre & Hall & Ho & Hr).
    + done.
    + intros j r Hj. rewrite Hdb. intros [Hl|[Hge Hl]]%lookup_app_Some; [by apply (Hau j)|].
      exact (Forall_lookup_1 _ _ _ _ Ha Hl).
    + rewrite Hdb, length_app. lia.
    + rewrite Hdb, length_app. lia.
    + rewrite Hdb, length_app. destruct (decide (n <= i)%nat) as [Hni|Hni]; [rewrite Hnil by done; cbn; lia|lia].
    + intros j r arpa ip d Hj Hl Hu Hd. rewrite Hdb in Hl.
      rewrite lookup_app_l in Hl by lia.
      destruct (decide (j = i)) as [->|Hne].
      * assert (r = rec) as -> by congruence. by eapply Hrev.
      * eapply has_authority_app; [exact Hdb|]. eapply (Hdone j); [lia|done..].
    + exists st'. split; [done|]. split; [done|]. split; [|split; [done|split; congruence]].
      etrans; [|exact Hpre]. exists a. exact Hdb.
  - cbn [auto_loop]. rewrite E. exists st. split; [done|]. split; [done|]. split; [done|].
    split; [|done]. intros r arpa ip d (j & Hj)%list_elem_of_lookup. apply (Hdone j); [|done].
    apply lookup_lt_Some in Hj. apply lookup_ge_None in E. lia.
Qed.

Lemma read_blacklist_ok fs f st : db_ok st -> db_ok (snd (read_blacklist fs f st)).
Proof.
  intros Hst. unfold read_blacklist. destruct (fs f) as [content|]; [|done]. cbn [snd].
  apply blacklist_lines_ok; [|done]. eapply Forall_impl; [apply file_lines_len; lia|]. cbn. lia.
Qed.

Lemma read_configuration_ok fs domain0 f st : zlen domain0 <= 256 -> db_ok st ->
  exists r st', read_configuration fs domain0 f st = Ok (r, st') /\ db_ok st'.
Proof.
  intros Hd Hst. unfold read_configuration. destruct (fs f) as [content|]; [|eauto].
  destruct (config_lines_ok fs (file_lines 300 content) domain0 st Hd Hst) as (st' & -> & H'). eauto.
Qed.

(** * Searches *)

Lemma name_lookup_spec st name rec : db_ok st -> name_lookup st name = Some rec <->
  exists l1 l2, dbv st = l1 ++ rec :: l2 /\ sstring (object rec) = name /\
    (exists arpa ip, udata rec = NameIp arpa ip) /\
    Forall (fun r => match udata r with NameIp _ _ => sstring (object r) <> name | _ => True end) l1.
Proof.
  intros Hok. unfold name_lookup.
  assert (forall r, r ∈ dbv st -> is_name (get_stringcode name) name r <->
    (exists arpa ip, udata r = NameIp arpa ip) /\ sstring (object r) = name) as Hin.
  { intros r Hr. unfold db_ok in Hok. rewrite Forall_forall in Hok.
    destruct (Hok r Hr) as [[Hc _] _]. unfold is_name. destruct (udata r) as [arpa ip| |].
    - rewrite Hc, andb_True. split.
      + intros [_ Hs]. apply Is_true_true, str_eqb_eq in Hs. eauto.
      + intros [_ <-]. unfold strcmp0. rewrite Z.eqb_refl, str_eqb_refl. done.
    - split; [done|]. by intros [(? & ? & ?) _].
    - split; [done|]. by intros [(? & ? & ?) _]. }
  split.
  - destruct (list_find _ _) as [[i r]|] eqn:E; [|done]. cbn. intros [= ->].
    apply list_find_Some in E as (Hi & HP & Hbef). apply Hin in HP as [Hn Hs];
      [|by eapply list_elem_of_lookup_2].
    exists (take i (dbv st)), (drop (S i) (dbv st)).
    split; [symmetry; by apply take_drop_middle|]. split; [done|]. split; [done|].
    apply Forall_forall. intros r Hr. apply list_elem_of_lookup in Hr as [j Hj].
    apply lookup_take_Some in Hj as [Hj Hlt]. specialize (Hbef j r Hj Hlt).
    destruct (udata r) eqn:Eu; try done. intros Heq. apply Hbef, Hin; [by eapply list_elem_of_lookup_2|eauto].
  - intros (l1 & l2 & Hdb & Hs & Hn & Hf). rewrite Hdb.
    assert (list_find (fun r => is_name (get_stringcode name) name r) (l1 ++ rec :: l2) = Some (length l1, rec)) as ->; [|done].
    apply list_find_Some. split; [by rewrite lookup_app_r, Nat.sub_diag by lia|]. split.
    + apply Hin; [rewrite Hdb; set_solver|done].
    + intros j r Hj Hlt HP. rewrite lookup_app_l in Hj by done.
      apply Hin in HP as [(arpa & ip & Hu) Hs']; [|rewrite Hdb; apply elem_of_app; left; by eapply list_elem_of_lookup_2].
      eapply Forall_lookup_1 in Hf; [|done]. cbn in Hf. by rewrite Hu in Hf.
Qed.

(** * Assembly *)

(** The packet under construction: [pre] is written, [rest] is still free. *)
Definition holds (x : dnsheader_t) (pre rest : list Z) : Prop :=
  h_packet x = pre ++ rest /\ h_here x = zlen pre.

Lemma put_holds b x pre r rest : holds x pre (r :: rest) -> is_byte b ->
  put b x = Ok (set_here ((pre ++ [b]) ++ rest) (zlen pre + 1) x).
Proof.
  intros [Hp Hh] Hb. unfold put. rewrite Hp, Hh.
  rewrite wr_ok by (rewrite zlen_app, zlen_cons; pose proof (zlen_nonneg pre); pose proof (zlen_nonneg rest); lia).
  cbn [mbind comp_bind]. unfold mret, comp_ret. do 2 f_equal.
  rewrite <- app_assoc. cbn [app]. replace (Z.to_nat (zlen pre)) with (length pre + 0)%nat by (unfold zlen; lia).
  rewrite insert_app_r. cbn. unfold u8, is_byte in *. by rewrite Z.mod_small.
Qed.

Lemma set_here_twice p q i j x : set_here p i (set_here q j x) = set_here p i x.
Proof. done. Qed.

Lemma puts_holds bs x pre rest : holds x pre rest -> bytes bs -> (length bs <= length rest)%nat ->
  puts bs x = Ok (set_here ((pre ++ bs) ++ drop (length bs) rest) (zlen (pre ++ bs)) x).
Proof.
  revert x pre rest; induction bs as [|b bs IH]; intros x pre rest Hh Hb Hl.
  - destruct Hh as [Hp Hi]. cbn [puts length drop]. rewrite app_nil_r, drop_0, <- Hp, <- Hi. by destruct x.
  - apply Forall_cons in Hb as [Hb Hbs]. destruct rest as [|r rest]; [cbn in Hl; lia|].
    cbn [puts]. rewrite (put_holds b x pre r rest Hh Hb). cbn [mbind comp_bind].
    rewrite (IH _ (pre ++ [b]) rest); [|split; [done|]|done|cbn in Hl; lia].
    + rewrite set_here_twice. cbn [drop length]. by rewrite <- !app_assoc.
    + cbn. by rewrite zlen_app.
Qed.

Lemma label_of_app l rest : Forall (fun c => c <> 46) l -> (rest = [] \/ exists r, rest = 46 :: r) ->
  label_of (l ++ rest) = l.
Proof.
  intros Hl Hr. induction Hl as [|c l Hc _ IH]; cbn.
  - destruct Hr as [->|[r ->]]; done.
  - rewrite (proj2 (Z.eqb_neq _ _)) by done. by rewrite IH.
Qed.

Lemma wire_label_bytes l : wf_label l -> bytes l -> bytes (zlen l :: l) /\ Z.land (zlen l) 0x3f = zlen l.
Proof.
  intros [Hl _] Hb. split; [constructor; [unfold is_byte; lia|done]|].
  change 0x3f with (Z.ones 6). rewrite Z.land_ones by lia. apply Z.mod_small. lia.
Qed.

Lemma puts_cons b bs x : puts (b :: bs) x = (x ← put b x; puts bs x).
Proof. done. Qed.

Lemma puts_app l1 l2 x : puts (l1 ++ l2) x = (x ← puts l1 x; puts l2 x).
Proof.
  revert x; induction l1 as [|b l1 IH]; intros x; [done|]. cbn [app puts].
  destruct (put b x); cbn [mbind comp_bind]; [apply IH|done].
Qed.

(** A name in dotted form compiles to its labels. *)
Lemma compile_labels_ok ls x fuel : Forall wf_label ls -> (length ls < fuel)%nat ->
  compile_labels fuel (join_dots ls) x = puts (wire_labels ls) x.
Proof.
  intros Hwf. revert x fuel. induction Hwf as [|l ls Hl Hls IH]; intros x fuel Hf.
  { destruct fuel; [cbn in Hf; lia|done]. }
  destruct fuel as [|fuel]; [lia|]. cbn [length] in Hf.
  pose proof (wf_label_nodot l Hl) as Hnd. 
  assert (0 < zlen l) as Hpos by apply Hl.
  assert (exists rest, join_dots (l :: ls) = l ++ rest /\ (rest = [] \/ exists r, rest = 46 :: r) /\
    match rest with 46 :: r => r | _ => rest end = join_dots ls) as (rest & -> & Hrest & Hj).
  { destruct ls as [|l2 ls].
    - exists []. rewrite join_dots_single, app_nil_r. auto.
    - exists (46 :: join_dots (l2 :: ls)). rewrite join_dots_cons2. cbn. eauto. }
  destruct l as [|c l']; [exfalso; unfold zlen in Hpos; cbn in Hpos; lia|].
  cbn [compile_labels app]. rewrite app_comm_cons, label_of_app by done.
  rewrite (proj2 (Z.eqb_neq _ _)) by lia.
  assert (Z.land (zlen (c :: l')) 63 = zlen (c :: l')) as ->.
  { change 63 with (Z.ones 6). rewrite Z.land_ones by lia. apply Z.mod_small. destruct Hl as [? _]. lia. }
  assert (wire_labels ((c :: l') :: ls) = zlen (c :: l') :: ((c :: l') ++ wire_labels ls)) as -> by done.
  rewrite (puts_cons (zlen (c :: l'))). destruct (put (zlen (c :: l')) x) as [x1|]; cbn [mbind comp_bind]; [|done].
  rewrite puts_app. destruct (puts (c :: l') x1) as [x2|]; cbn [mbind comp_bind]; [|done].
  change (c :: l' ++ rest) with ((c :: l') ++ rest).
  rewrite drop_app_length, Hj. apply IH. lia.
Qed.

Lemma length_join_dots ls : Forall wf_label ls -> (length ls <= length (join_dots ls) + 1)%nat.
Proof.
  intros H. unfold join_dots. rewrite length_take. pose proof (labels_le_dotted ls). lia.
Qed.

(** The encoded name goes behind what is written already. *)
Lemma compile_name_ok ls x pre rest : holds x pre rest -> Forall wf_label ls -> bytes (encode_labels ls) ->
  (length (encode_labels ls) <= length rest)%nat ->
  compile_name (join_dots ls) x =
    Ok (zlen pre, set_here ((pre ++ encode_labels ls) ++ drop (length (encode_labels ls)) rest)
                    (zlen (pre ++ encode_labels ls)) x).
Proof.
  intros Hh Hwf Hb Hl. unfold compile_name.
  assert (puts (encode_labels ls) x =
    (x ← compile_labels (S (length (join_dots ls))) (join_dots ls) x; put 0 x)) as Hp.
  { rewrite encode_wire, puts_app. destruct (decide (ls = [])) as [->|Hne].
    - change (puts [0] x = put 0 x). rewrite puts_cons. by destruct (put 0 x).
    - pose proof (length_join_dots ls Hwf).
      destruct (decide (length ls < S (length (join_dots ls)))%nat) as [Hlt|Hge].
      + rewrite compile_labels_ok by done. destruct (puts (wire_labels ls) x) as [x1|]; cbn [mbind comp_bind]; [|done].
        rewrite puts_cons. by destruct (put 0 x1).
      + exfalso. pose proof (labels_le_dotted ls). unfold join_dots in *. rewrite length_take in *.
        destruct ls as [|l ls]; [done|]. apply Forall_cons in Hwf as [[Hl1 _] _].
        assert (length (dotted (l :: ls)) = length l + 1 + length (dotted ls))%nat as Hd
          by (unfold dotted; cbn [fmap list_fmap concat]; rewrite !length_app; cbn; lia).
        pose proof (labels_le_dotted ls). cbn [length] in *. unfold zlen in *. lia. }
  rewrite (puts_holds _ _ pre rest Hh Hb Hl) in Hp.
  destruct (compile_labels _ _ x) as [x1|]; cbn [mbind comp_bind] in *; [|done].
  destruct (put 0 x1); [|done]. injection Hp as <-. destruct Hh as [_ ->]. done.
Qed.

(** The header of a packet under construction, with [pre] written. *)
Definition asm (pre rest : list Z) (u an ns : Z) (rd : option Z) : dnsheader_t :=
  Hdr 0 u 1 an ns 0 (zlen pre) (pre ++ rest) 0 rd.

Lemma puts_asm bs pre rest u an ns rd : bytes bs -> (length bs <= length rest)%nat ->
  puts bs (asm pre rest u an ns rd) = Ok (asm (pre ++ bs) (drop (length bs) rest) u an ns rd).
Proof. intros Hb Hl. by rewrite (puts_holds _ _ pre rest). Qed.

Lemma compile_name_asm ls pre rest u an ns rd : Forall wf_label ls -> bytes (encode_labels ls) ->
  (length (encode_labels ls) <= length rest)%nat ->
  compile_name (join_dots ls) (asm pre rest u an ns rd) =
    Ok (zlen pre, asm (pre ++ encode_labels ls) (drop (length (encode_labels ls)) rest) u an ns rd).
Proof. intros Hw Hb Hl. by rewrite (compile_name_ok ls _ pre rest). Qed.

Lemma put16_at_ok pre a b rest v :
  put16_at (zlen pre) v (pre ++ a :: b :: rest) = Ok (pre ++ hi8 v :: lo8 v :: rest).
Proof.
  pose proof (zlen_nonneg pre). pose proof (zlen_nonneg rest). unfold put16_at.
  rewrite wr_ok by (rewrite zlen_app, !zlen_cons; lia). cbn [mbind comp_bind].
  replace (Z.to_nat (zlen pre)) with (length pre + 0)%nat by (unfold zlen; lia).
  rewrite insert_app_r. cbn [insert list_insert].
  rewrite wr_ok by (rewrite zlen_app, !zlen_cons; lia).
  replace (Z.to_nat (zlen pre + 1)) with (length pre + 1)%nat by (unfold zlen; lia).
  by rewrite insert_app_r.
Qed.

(** Ending the data of a record fills in its length. *)
Lemma end_rdata_asm pre d rest u an ns :
  end_rdata (asm (pre ++ [0; 0] ++ d) rest u an ns (Some (zlen pre))) =
    Ok (asm (pre ++ [hi8 (zlen d); lo8 (zlen d)] ++ d) rest u an ns None).
Proof.
  unfold end_rdata, asm. cbn [h_rdata h_here h_packet]. rewrite <- app_assoc. cbn [app].
  replace (zlen (pre ++ 0 :: 0 :: d) - (zlen pre + 2)) with (zlen d) by (rewrite zlen_app, !zlen_cons; lia).
  rewrite put16_at_ok. cbn [mbind comp_bind]. unfold set_rdata, set_here. cbn.
  f_equal. f_equal; [by rewrite !zlen_app, !zlen_cons|by rewrite <- app_assoc].
Qed.

(** The six header words. *)
Definition header (id : list Z) (u qd an ns ar : Z) : list Z :=
  id ++ [hi8 u; lo8 u; hi8 qd; lo8 qd; hi8 an; lo8 an; hi8 ns; lo8 ns; hi8 ar; lo8 ar].

Lemma end_assembly_asm body rest u an ns :
  end_assembly (asm (replicate 12 0 ++ body) rest u an ns None) =
    Ok (Hdr 0 u 1 an ns 0 (12 + zlen body) (header [0; 0] u 1 an ns 0 ++ body ++ rest) (12 + zlen body) None).
Proof.
  unfold end_assembly, end_rdata, asm. cbn [h_rdata mbind comp_bind]. unfold mret, comp_ret.
  cbn [mbind comp_bind set_rdata h_packet h_u h_here h_qdcount h_ancount h_nscount h_arcount h_id].
  rewrite <- app_assoc. generalize (body ++ rest). intros r.
  assert (zlen (replicate 12 0 ++ body) = 12 + zlen body) as -> by (by rewrite zlen_app).
  change (replicate 12 0 ++ r) with ([0; 0] ++ 0 :: 0 :: (replicate 8 0 ++ r)).
  rewrite (put16_at_ok [0; 0]). cbn [mbind comp_bind].
  change ([0; 0] ++ hi8 u :: lo8 u :: replicate 8 0 ++ r) with ([0; 0; hi8 u; lo8 u] ++ 0 :: 0 :: (replicate 6 0 ++ r)).
  rewrite (put16_at_ok [0; 0; hi8 u; lo8 u]). cbn [mbind comp_bind].
  set (p2 := [0; 0; hi8 u; lo8 u; hi8 1; lo8 1]).
  change ([0; 0; hi8 u; lo8 u] ++ hi8 1 :: lo8 1 :: replicate 6 0 ++ r) with (p2 ++ 0 :: 0 :: (replicate 4 0 ++ r)).
  change 6 with (zlen p2). rewrite (put16_at_ok p2). cbn [mbind comp_bind].
  change (p2 ++ hi8 an :: lo8 an :: replicate 4 0 ++ r) with ((p2 ++ [hi8 an; lo8 an]) ++ 0 :: 0 :: (replicate 2 0 ++ r)).
  change 8 with (zlen (p2 ++ [hi8 an; lo8 an])). rewrite put16_at_ok. cbn [mbind comp_bind].
  change ((p2 ++ [hi8 an; lo8 an]) ++ hi8 ns :: lo8 ns :: replicate 2 0 ++ r)
    with ((p2 ++ [hi8 an; lo8 an; hi8 ns; lo8 ns]) ++ 0 :: 0 :: r).
  change 10 with (zlen (p2 ++ [hi8 an; lo8 an; hi8 ns; lo8 ns])). rewrite put16_at_ok.
  cbn [mbind comp_bind]. done.
Qed.

(** The question section of the answer. *)
Definition question (ls : list (list Z)) (ty cl : Z) : list Z :=
  encode_labels ls ++ [hi8 ty; lo8 ty; hi8 cl; lo8 cl].

Lemma begin_assembly_ok query ls : cstr (rr_name query) = join_dots ls -> Forall wf_label ls ->
  bytes (encode_labels ls) -> zlen (encode_labels ls) <= 256 ->
  begin_assembly query = Ok (asm (replicate 12 0 ++ question ls (rr_type query) (rr_class query))
    (replicate (Z.to_nat (588 - zlen (question ls (rr_type query) (rr_class query)))) 0) 0x8000 0 0 None).
Proof.
  intros Hn Hw Hb Hl. unfold begin_assembly. rewrite Hn.
  change (Hdr 0 (SET_QR 0 1) 1 0 0 0 PACKET_DATABEGIN (replicate (Z.to_nat PACKET_ASSEMBLYSIZE) 0) 0 None)
    with (asm (replicate 12 0) (replicate 588 0) 0x8000 0 0 None).
  rewrite compile_name_asm by (done || (rewrite length_replicate; unfold zlen in *; lia)).
  cbn [mbind comp_bind]. rewrite drop_replicate. set (n := (588 - length (encode_labels ls))%nat).
  assert (forall a b c d, bytes [hi8 a; lo8 b; hi8 c; lo8 d]) as Hbs by (intros; repeat constructor; auto with dnrd; apply hi8_byte || apply lo8_byte).
  unfold compile_int. rewrite puts_asm.
  2: { repeat constructor; auto with dnrd; apply hi8_byte || apply lo8_byte. }
  2: { rewrite length_replicate. unfold n, zlen in *. cbn. lia. }
  cbn [mbind comp_bind length]. rewrite drop_replicate, puts_asm.
  2: { repeat constructor; auto with dnrd; apply hi8_byte || apply lo8_byte. }
  2: { rewrite length_replicate. unfold n, zlen in *. cbn. lia. }
  cbn [length]. rewrite drop_replicate. do 2 f_equal.
  - unfold question. by rewrite <- !app_assoc.
  - f_equal. unfold question, n, zlen. rewrite length_app. cbn. lia.
Qed.

(** Pointer to the question's name, type, class and one hour to live. *)
Definition rr_head (ty : Z) : list Z := [0xc0; 0x0c; hi8 ty; lo8 ty; 0; 1; 0; 0; 14; 16].

Ltac solve_bytes := repeat constructor; (apply hi8_byte || apply lo8_byte || (unfold is_byte; lia)).

Lemma record_head_asm ty pre rest u an ns rd : (12 <= length rest)%nat ->
  record_head ty (asm pre rest u an ns rd) =
    Ok (asm ((pre ++ rr_head ty) ++ [0; 0]) (drop 12 rest) u an ns (Some (zlen (pre ++ rr_head ty)))).
Proof.
  intros Hl. unfold record_head, compile_objectname, compile_int, compile_long, start_rdata.
  rewrite puts_asm by (solve_bytes || (cbn; lia)). cbn [mbind comp_bind length].
  rewrite puts_asm by (solve_bytes || (rewrite length_drop; cbn; lia)). cbn [mbind comp_bind length].
  rewrite puts_asm by (solve_bytes || (rewrite !length_drop; cbn; lia)). cbn [mbind comp_bind length].
  rewrite puts_asm by (by_decide || (rewrite !length_drop; cbn; lia)). cbn [mbind comp_bind length].
  set (x := asm _ _ _ _ _ _).
  assert (x = asm (pre ++ rr_head ty) (drop 10 rest) u an ns rd) as ->.
  { unfold x. rewrite !drop_drop. f_equal. rewrite <- !app_assoc. done. }
  unfold compile_int. change (set_rdata (Some (h_here (asm (pre ++ rr_head ty) (drop 10 rest) u an ns rd)))
    (asm (pre ++ rr_head ty) (drop 10 rest) u an ns rd))
    with (asm (pre ++ rr_head ty) (drop 10 rest) u an ns (Some (zlen (pre ++ rr_head ty)))).
  rewrite puts_asm by (by_decide || (rewrite !length_drop; cbn; lia)). cbn [length]. by rewrite drop_drop.
Qed.

Lemma list_find_none_bool {A} (P : A -> bool) (l : list A) : Forall (fun x => P x = false) l ->
  list_find (fun x => P x) l = None.
Proof.
  intros H. apply list_find_None. eapply Forall_impl; [exact H|]. cbn. intros x ->. auto.
Qed.

Lemma compile_dnsrecords_none st name x : Forall (fun r => is_dns name r = false) (dbv st) ->
  h_nscount x = 0 -> compile_dnsrecords st name x = Ok x.
Proof.
  intros Hn Hx. unfold compile_dnsrecords. cbn [dnsrecords_loop]. unfold dns_lookup. cbn [Z.ltb Z.compare].
  rewrite drop_0, list_find_none_bool by done. cbn [mbind comp_bind]. by rewrite Hx.
Qed.

Definition long_bytes (n : Z) : list Z := [(n / 2 ^ 24) `mod` 256; (n / 2 ^ 16) `mod` 256; hi8 n; lo8 n].

(** The complete answer with one address. *)
Definition a_answer (id : list Z) (ls : list (list Z)) (ip : Z) : list Z :=
  header id 0x8000 1 1 0 0 ++ question ls DNS_TYPE_A DNS_CLASS_INET ++
  rr_head DNS_TYPE_A ++ [0; 4] ++ long_bytes ip.

Lemma a_answer_len id ls ip : zlen (a_answer id ls ip) = zlen id + zlen (encode_labels ls) + 30.
Proof.
  unfold a_answer, header, question, long_bytes, rr_head. rewrite !zlen_app.
  repeat rewrite zlen_cons. rewrite !zlen_nil. lia.
Qed.

Lemma copy_answer_ok dst src n : 2 <= n <= zlen src -> n <= zlen dst ->
  copy_answer dst src n = Ok (take 2 dst ++ drop 2 (take (Z.to_nat n) src) ++ drop (Z.to_nat n) dst).
Proof. intros H1 H2. unfold copy_answer. by rewrite !(proj2 (Z.ltb_ge _ _)) by lia. Qed.

Lemma long_bytes_bytes n : bytes (long_bytes n).
Proof.
  assert (forall z, is_byte (z `mod` 256)) as Hm by (intros z; unfold is_byte; apply Z.mod_pos_bound; lia).
  repeat constructor; try apply Hm.
Qed.

Lemma master_init_ok fs domain0 st :
  zlen domain0 <= 256 -> master_onoff st <> 0 -> db_ok st ->
  exists st', master_init fs domain0 st = Ok st' /\ db_ok st' /\ master_initialised st' = 1 /\
    (forall r arpa ip d, r ∈ dbv st' -> udata r = NameIp arpa ip -> reverse_domain arpa = Some d ->
       is_Some (authority_lookup st' d)).
Proof.
  intros Hd Hon Hst. unfold master_init. rewrite (proj2 (Z.eqb_neq _ _) Hon).
  set (s1 := add_dns _ _ _ _ _).
  assert (db_ok s1) as H1.
  { apply add_dns_ok; [by vm_compute|by vm_compute|].
    apply add_record_ok; [|done]. repeat split. }
  pose proof (read_blacklist_ok fs MASTER_BLACKLIST s1 H1) as H2.
  destruct (read_blacklist fs MASTER_BLACKLIST s1) as [r2 s2]. cbn [snd] in H2.
  destruct (read_configuration_ok fs domain0 MASTER_CONFIG s2 Hd H2) as (r3 & s3 & -> & H3).
  cbn [mbind comp_bind]. change (auto_authority =? 0) with false.
  destruct (auto_loop_ok (S (2 * length (dbv s3))) (length (dbv s3)) 0 s3)
    as (s4 & -> & H4 & _ & Hall & _).
  - done.
  - intros j r Hj Hl. apply lookup_lt_Some in Hl. lia.
  - lia.
  - lia.
  - lia.
  - intros j r arpa ip d Hj. lia.
  - cbn [mbind comp_bind]. eexists. split; [done|]. split; [done|]. split; [done|].
    intros r arpa ip d Hr Hu Hrev. apply authority_lookup_has. by eapply Hall.
Qed.

(** * Properties *)

(** Starting the master ends for every content of the configuration, hosts
    and blacklist files, and the table it leaves is consistent: all names are
    lower case with their string codes, and for every address record the
    master is the authority of the record's reverse domain. *)
Theorem master_init_correct fs domain0 st :
  zlen domain0 <= 256 -> master_onoff st <> 0 -> db_ok st ->
  exists st', master_init fs domain0 st = Ok st' /\ db_ok st' /\ master_initialised st' = 1 /\
    (forall r arpa ip d, r ∈ dbv st' -> udata r = NameIp arpa ip -> reverse_domain arpa = Some d ->
       is_Some (authority_lookup st' d)).
Proof. apply master_init_ok. Qed.

(** The search by name finds exactly the first address record of that
    name; the comparison of string codes in front of it never hides one. *)
Theorem name_lookup_first st name rec : db_ok st -> name_lookup st name = Some rec <->
  exists l1 l2, dbv st = l1 ++ rec :: l2 /\ sstring (object rec) = name /\
    (exists arpa ip, udata rec = NameIp arpa ip) /\
    Forall (fun r => match udata r with NameIp _ _ => sstring (object r) <> name | _ => True end) l1.
Proof. apply name_lookup_spec. Qed.

(** An address query for a name in the table is answered by the master,
    byte for byte: the client's identifier, a response header with one
    question and one answer, the question, and a record that points back to
    the question's name and carries the address. *)
Theorem master_lookup_address fs domain0 y0 msg len st query ls o arpa ip :
  master_onoff st <> 0 -> master_initialised st <> 0 ->
  parse_query y0 msg len = Ok (0, query) -> rr_class query = DNS_CLASS_INET ->
  GET_OPCODE (rr_flags query) = 0 -> rr_type query = DNS_TYPE_A ->
  cstr (rr_name query) = join_dots ls -> Forall wf_label ls -> bytes (encode_labels ls) ->
  zlen (encode_labels ls) <= 256 ->
  name_lookup st (join_dots ls) = Some (Rec o (NameIp arpa ip)) ->
  Forall (fun r => is_dns (join_dots ls) r = false) (dbv st) ->
  zlen (a_answer (take 2 msg) ls ip) <= zlen msg ->
  master_lookup fs domain0 y0 msg len st =
    Ok (zlen (a_answer (take 2 msg) ls ip),
        a_answer (take 2 msg) ls ip ++ drop (length (a_answer (take 2 msg) ls ip)) msg, st).
Proof.
  intros Hon Hin Hq Hcl Hop Hty Hn Hw Hb Hl Hlk Hnd Hbuf. unfold master_lookup, ensure_init.
  rewrite (proj2 (Z.eqb_neq _ _) Hon), (proj2 (Z.eqb_neq _ _) Hin). cbn [mbind comp_bind].
  rewrite Hq. cbn [mbind comp_bind]. rewrite Hcl, Hop, Hty. cbn [Z.eqb negb orb].
  change (DNS_TYPE_A =? DNS_TYPE_PTR) with false. change (DNS_TYPE_A =? DNS_TYPE_A) with true.
  rewrite Hn, Hlk, (begin_assembly_ok query ls) by done. cbn [mbind comp_bind]. rewrite Hty, Hcl.
  set (q := question ls DNS_TYPE_A DNS_CLASS_INET).
  assert (zlen q = zlen (encode_labels ls) + 4) as Hzq by (unfold q, question; by rewrite zlen_app).
  pose proof (encode_labels_pos ls) as Hpos.
  rewrite record_head_asm by (rewrite length_replicate; lia). cbn [mbind comp_bind udata].
  unfold compile_long. fold (long_bytes ip).
  rewrite puts_asm by (apply long_bytes_bytes || (rewrite length_drop, length_replicate; cbn [length long_bytes]; lia)).
  cbn [mbind comp_bind]. unfold finish_answer.
  set (pre := (replicate 12 0 ++ q) ++ rr_head DNS_TYPE_A).
  rewrite <- (app_assoc pre), end_rdata_asm. cbn [mbind comp_bind].
  rewrite compile_dnsrecords_none by done. cbn [mbind comp_bind].
  set (rest := drop (length (long_bytes ip)) _).
  change (set_ancount 1 (asm ?p ?r 0x8000 0 0 None)) with (asm p r 0x8000 1 0 None).
  unfold pre. rewrite <- !app_assoc.
  change (set_ancount 1 (asm ?p ?r 0x8000 0 0 None)) with (asm p r 0x8000 1 0 None).
  set (body := q ++ rr_head DNS_TYPE_A ++ [hi8 (zlen (long_bytes ip)); lo8 (zlen (long_bytes ip))] ++ long_bytes ip).
  rewrite end_assembly_asm. cbn [mbind comp_bind h_packet h_len].
  assert (header [0; 0] 0x8000 1 1 0 0 ++ body ++ rest = a_answer [0; 0] ls ip ++ rest) as Hans.
  { unfold a_answer, body. rewrite <- !app_assoc. done. }
  assert (12 + zlen body = zlen (a_answer [0; 0] ls ip)) as Hlen.
  { unfold a_answer, body. rewrite !zlen_app. done. }
  assert (2 <= zlen msg) as Hm2.
  { rewrite a_answer_len in Hbuf. pose proof (zlen_nonneg (take 2 msg)). lia. }
  assert (exists i j m, msg = i :: j :: m) as (i & j & m & ->).
  { destruct msg as [|i [|j m]]; unfold zlen in Hm2; cbn in Hm2; [lia|lia|eauto]. }
  change (take 2 (i :: j :: m)) with [i; j] in *.
  assert (zlen (a_answer [i; j] ls ip) = zlen (a_answer [0; 0] ls ip)) as Hij.
  { by rewrite !a_answer_len. }
  rewrite Hans, Hlen, copy_answer_ok.
  - cbn [mbind comp_bind]. unfold mret, comp_ret. rewrite Hij.
    change (DNS_CLASS_INET =? DNS_CLASS_INET) with true. cbn [negb orb mbind comp_bind].
    match goal with |- Ok (_, ?l, _) = Ok (_, ?r, _) => assert (l = r) as ->; [|done] end.
    replace (Z.to_nat (zlen (a_answer [0; 0] ls ip))) with (length (a_answer [0; 0] ls ip)) by (unfold zlen; lia).
    rewrite take_app_length. unfold zlen in Hij. apply Nat2Z.inj in Hij. rewrite Hij. done.
  - rewrite zlen_app, a_answer_len. pose proof (zlen_nonneg rest). change (zlen [0; 0]) with 2. lia.
  - lia.
Qed.

(** Example files: a configuration with a domain, two hosts and a hosts file. *)
Definition demo_files : files := fun name =>
  if str_eqb name (lit "master") then
    Some (lit "domain org ns1 ns2" ++ [10] ++ lit "10.0.0.1 www mail.org." ++ [10] ++
          lit "# a comment" ++ [10] ++ lit "hosts h" ++ [10])
  else if str_eqb name (lit "h") then Some (lit "1.2.3.4 foo bar." ++ [10])
  else if str_eqb name (lit "blacklist") then Some (lit "ads.example # no ads" ++ [10])
  else None.

Definition master_off : mstate := MS [] 0 1 0 0.

Lemma master_init_correct_witness :
  exists st', master_init demo_files [] master_off = Ok st' /\ db_ok st' /\ master_initialised st' = 1 /\
    (forall r arpa ip d, r ∈ dbv st' -> udata r = NameIp arpa ip -> reverse_domain arpa = Some d ->
       is_Some (authority_lookup st' d)).
Proof. apply (master_init_correct demo_files [] master_off); [by_decide|done|constructor]. Defined.

Definition www_rec : dnsrec_t :=
  Rec (mkstring (lit "www.org") 100) (NameIp (mkstring (lit "1.0.0.10") 100) 0x0a000001).
Definition www_state : mstate := MS [Rec (mkstring (lit "www.org") 100) Authority; www_rec] 10 1 1 0.

Lemma www_ok : db_ok www_state.
Proof. repeat constructor. Qed.

Lemma name_lookup_first_witness : name_lookup www_state (lit "www.org") = Some www_rec.
Proof.
  apply (name_lookup_first www_state (lit "www.org") www_rec www_ok).
  exists [Rec (mkstring (lit "www.org") 100) Authority], []. split; [done|]. split; [done|].
  split; [eexists _, _; reflexivity|]. by constructor.
Defined.

Definition www_query : list Z :=
  [0xab; 0xcd; 1; 0; 0; 1; 0; 0; 0; 0; 0; 0; 3; 119; 119; 119; 3; 111; 114; 103; 0; 0; 1; 0; 1] ++ replicate 500 0.
Definition www_parsed : rr_t :=
  match parse_query rr_blank www_query 25 with Ok (_, y) => y | Fault _ => rr_blank end.

Lemma master_lookup_address_witness :
  master_lookup demo_files [] rr_blank www_query 25 www_state =
    Ok (41, a_answer [0xab; 0xcd] [lit "www"; lit "org"] 0x0a000001 ++
            drop (length (a_answer [0xab; 0xcd] [lit "www"; lit "org"] 0x0a000001)) www_query, www_state).
Proof.
  apply (master_lookup_address demo_files [] rr_blank www_query 25 www_state www_parsed [lit "www"; lit "org"]
    (mkstring (lit "www.org") 100) (mkstring (lit "1.0.0.10") 100) 0x0a000001).
  - done.
  - done.
  - vm_compute. reflexivity.
  - by_decide.
  - by_decide.
  - by_decide.
  - by_decide.
  - by_decide.
  - by_decide.
  - by_decide.
  - vm_compute. reflexivity.
  - by_decide.
  - by_decide.
Defined.

(** [compile_namepointer] keeps six bits of the offset: the pointer of a
    second name server goes wrong as soon as the first name starts at 64 or
    later.  Here it starts at 79 and the pointer says 15. *)
Example namepointer_truncated :
  (match compile_namepointer 79 (asm (replicate 12 0) [7; 7] 0 0 0 None) with
   | Ok x => drop 12 (h_packet x) | Fault _ => [] end) = [0xc0; 15] /\ 79 <> 15.
Proof. split; [vm_compute; reflexivity|done]. Qed.

(** The assembly buffer has no bound check: the answer for a domain with
    thirty name servers is written past its 600 bytes. *)
Example ns_answer_overflows :
  let srv := Rec (mkstring (lit "org") 100) (DnsServer (mkstring (lit "ns.provider.org") 100)) in
  let q := [0xab; 0xcd; 1; 0; 0; 1; 0; 0; 0; 0; 0; 0; 3; 111; 114; 103; 0; 0; 2; 0; 1] ++ replicate 2000 0 in
  master_lookup demo_files [] rr_blank q 21 (MS (replicate 30 srv) 30 1 1 0) = Fault WriteOOB.
Proof. vm_compute. reflexivity. Qed.
