(* ===== verification/Assembly.v ===== *)
(** The master's answers fit their buffers (src/dnrd-2.20.3/src/master.c): the
    assembly of an answer writes at ascending places of a buffer of 600 bytes
    without a bound check, and the answer is copied over the client's message.
    When the table is small enough no call of the master leaves a buffer. *)
From S2P Require Import Prelude CString Lib Dns Common Master.
Set Warnings "-clear-no-such-hyp".

(** * The buffer of an assembly *)

(** At most [n] bytes of the buffer are used; [r] is where the data of the
    open record starts, behind its length field. *)
Record arena (x : dnsheader_t) (n : Z) (r : option Z) : Prop := {
  ar_size : zlen (h_packet x) = PACKET_ASSEMBLYSIZE;
  ar_bytes : bytes (h_packet x);
  ar_here : 12 <= h_here x <= n;
  ar_rdata : h_rdata x = r;
  ar_data : match r with Some r => 12 <= r /\ r + 2 <= h_here x | None => True end }.

Lemma u8_byte z : is_byte (u8 z).
Proof. unfold is_byte, u8. apply Z.mod_pos_bound. lia. Qed.

Lemma wr_bytes l i v : bytes l -> is_byte v -> 0 <= i < zlen l ->
  exists l', wr l i v = Ok l' /\ bytes l' /\ zlen l' = zlen l.
Proof.
  intros Hl Hv Hi. exists (<[Z.to_nat i := v]> l). split; [by apply wr_ok|].
  split; [by apply Forall_insert|]. unfold zlen. by rewrite length_insert.
Qed.

Lemma arena_weaken x n m r : arena x n r -> n <= m -> arena x m r.
Proof. intros [? ? ? ? ?] Hm. constructor; try done. lia. Qed.

(** Only these parts of the header matter. *)
Lemma arena_ext x y n r : h_packet y = h_packet x -> h_here y = h_here x -> h_rdata y = h_rdata x ->
  arena x n r -> arena y n r.
Proof. intros E1 E2 E3 [? ? ? ? ?]. constructor; rewrite ?E1, ?E2, ?E3; try done. Qed.

Lemma put_room b x n r : arena x n r -> n < PACKET_ASSEMBLYSIZE ->
  exists x', put b x = Ok x' /\ arena x' (n + 1) r /\ h_here x' = h_here x + 1.
Proof.
  intros [Hs Hb Hh Hr Hd] Hn. unfold put.
  destruct (wr_bytes (h_packet x) (h_here x) (u8 b)) as (p & -> & Hp & Hl); [done|apply u8_byte|lia|].
  eexists. split; [done|]. split; [|done]. constructor; cbn; try done; [congruence|lia|].
  destruct r; [lia|done].
Qed.

Lemma puts_room bs x n r : arena x n r -> n + zlen bs <= PACKET_ASSEMBLYSIZE ->
  exists x', puts bs x = Ok x' /\ arena x' (n + zlen bs) r /\ h_here x' = h_here x + zlen bs.
Proof.
  revert x n; induction bs as [|b bs IH]; intros x n Hx Hn.
  - exists x. rewrite zlen_nil, !Z.add_0_r. by split_and!.
  - rewrite zlen_cons in *. pose proof (zlen_nonneg bs).
    destruct (put_room b x n r Hx) as (x1 & H1 & Hx1 & Hh1); [lia|].
    destruct (IH x1 (n + 1) Hx1) as (x' & H' & Hx' & Hh'); [lia|].
    exists x'. cbn [puts]. rewrite H1. cbn [mbind comp_bind]. split; [done|].
    split; [by rewrite Z.add_assoc|lia].
Qed.

Lemma label_of_split name : exists rest, name = label_of name ++ rest /\
  (rest = [] \/ exists r, rest = 46 :: r).
Proof.
  induction name as [|c name (rest & Hn & Hr)]; [exists []; auto|]. cbn [label_of].
  case_if; zbool; [subst c; exists (46 :: name); eauto|]. exists rest. cbn. by rewrite <- Hn.
Qed.

Lemma compile_labels_room fuel name x n r : (length name < fuel)%nat -> arena x n r ->
  n + zlen name + 1 <= PACKET_ASSEMBLYSIZE ->
  exists x', compile_labels fuel name x = Ok x' /\ arena x' (n + zlen name + 1) r /\ h_here x <= h_here x'.
Proof.
  revert name x n; induction fuel as [|fuel IH]; intros name x n Hf Hx Hn; [lia|].
  pose proof (zlen_nonneg name) as Hpos.
  assert (exists x', Ok x = Ok x' /\ arena x' (n + zlen name + 1) r /\ h_here x <= h_here x') as Hstop.
  { exists x. split; [done|]. split; [|lia]. apply (arena_weaken x n); [done|lia]. }
  cbn [compile_labels]. destruct name as [|c name]; [done|].
  set (nm := c :: name) in *. destruct (label_of_split nm) as (rest & Hs & Hrest).
  case_if; zbool; [done|]. assert (zlen nm = zlen (label_of nm) + zlen rest) as Hz by (rewrite Hs at 1; apply zlen_app).
  pose proof (zlen_nonneg (label_of nm)). pose proof (zlen_nonneg rest).
  destruct (put_room (Z.land (zlen (label_of nm)) 0x3f) x n r Hx) as (x1 & -> & Hx1 & Hh1); [lia|].
  cbn [mbind comp_bind].
  destruct (puts_room (label_of nm) x1 (n + 1) r Hx1) as (x2 & -> & Hx2 & Hh2); [lia|]. cbn [mbind comp_bind].
  assert (drop (length (label_of nm)) nm = rest) as Hdr by (rewrite Hs at 2; apply drop_app_length).
  rewrite Hdr. assert (length nm = length (label_of nm) + length rest)%nat as Hlen by (rewrite Hs at 1; apply length_app).
  assert (0 < length (label_of nm))%nat by (unfold zlen in *; lia).
  destruct Hrest as [->|[r' ->]].
  - destruct fuel as [|fuel]; [lia|]. exists x2. split; [done|]. split; [|lia].
    apply (arena_weaken _ _ _ _ Hx2). rewrite zlen_nil in *. lia.
  - rewrite zlen_cons in *. cbn [length] in *.
    destruct (IH r' x2 (n + 1 + zlen (label_of nm))) as (x' & -> & Hx' & Hh'); [lia|done|lia|].
    exists x'. split; [done|]. split; [|lia]. apply (arena_weaken _ _ _ _ Hx'). lia.
Qed.

Lemma compile_name_room name x n r : arena x n r -> n + zlen name + 2 <= PACKET_ASSEMBLYSIZE ->
  exists p x', compile_name name x = Ok (p, x') /\ arena x' (n + zlen name + 2) r /\ 12 <= p.
Proof.
  intros Hx Hn. unfold compile_name.
  destruct (compile_labels_room (S (length name)) name x n r) as (x1 & -> & Hx1 & Hh1); [lia|done|lia|].
  cbn [mbind comp_bind]. destruct (put_room 0 x1 _ r Hx1) as (x2 & -> & Hx2 & Hh2); [lia|].
  do 2 eexists. split; [done|]. split; [apply (arena_weaken _ _ _ _ Hx2); lia|]. apply (ar_here _ _ _ Hx).
Qed.

Lemma compile_int_room v x n r : arena x n r -> n + 2 <= PACKET_ASSEMBLYSIZE ->
  exists x', compile_int v x = Ok x' /\ arena x' (n + 2) r /\ h_here x' = h_here x + 2.
Proof. intros Hx Hn. apply (puts_room [hi8 v; lo8 v]); [done|by unfold zlen]. Qed.

Lemma compile_long_room v x n r : arena x n r -> n + 4 <= PACKET_ASSEMBLYSIZE ->
  exists x', compile_long v x = Ok x' /\ arena x' (n + 4) r.
Proof.
  intros Hx Hn. destruct (puts_room [(v / 2 ^ 24) `mod` 256; (v / 2 ^ 16) `mod` 256; hi8 v; lo8 v] x n r) as (x' & ? & ? & _);
    [done|by unfold zlen|eauto].
Qed.

Lemma compile_objectname_room x n r : arena x n r -> n + 2 <= PACKET_ASSEMBLYSIZE ->
  exists x', compile_objectname x = Ok x' /\ arena x' (n + 2) r.
Proof.
  intros Hx Hn. destruct (puts_room [0xc0; 0x0c] x n r) as (x' & ? & ? & _); [done|by unfold zlen|eauto].
Qed.

Lemma compile_namepointer_room p x n r : arena x n r -> n + 2 <= PACKET_ASSEMBLYSIZE ->
  exists x', compile_namepointer p x = Ok x' /\ arena x' (n + 2) r.
Proof.
  intros Hx Hn. unfold compile_namepointer.
  destruct (put_room 0xc0 x n r Hx) as (x1 & -> & Hx1 & _); [lia|]. cbn [mbind comp_bind].
  destruct (put_room (Z.land p 0x3f) x1 _ r Hx1) as (x2 & -> & Hx2 & _); [lia|].
  exists x2. split; [done|]. by rewrite <- Z.add_assoc in Hx2.
Qed.

(** The open record may be any one while the place of its length is
    written. *)
Lemma start_rdata_room x n r : arena x n r -> n + 2 <= PACKET_ASSEMBLYSIZE ->
  exists x' r', start_rdata x = Ok x' /\ arena x' (n + 2) (Some r').
Proof.
  intros Hx Hn. pose proof Hx as [Hs Hb Hh _ _].
  assert (forall b y v, put b (set_rdata v y) = y' ← put b y; mret (set_rdata v y')) as Hput
    by (intros; unfold put; cbn; by destruct (wr _ _ _)).
  unfold start_rdata, compile_int. cbn [puts]. rewrite Hput.
  destruct (put_room (hi8 0) x n r Hx) as (x1 & -> & Hx1 & Hh1); [lia|]. cbn [mbind comp_bind].
  unfold mret at 1, comp_ret at 1. cbn [mbind comp_bind]. rewrite Hput. destruct (put_room (lo8 0) x1 _ r Hx1) as (x2 & -> & Hx2 & Hh2); [lia|]. cbn [mbind comp_bind].
  do 2 eexists. split; [done|]. destruct Hx2 as [Hs2 Hb2 Hhh _ _].
  constructor; cbn; [done|done|lia|done|lia].
Qed.

Lemma put16_at_room i v p : zlen p = PACKET_ASSEMBLYSIZE -> bytes p -> 0 <= i < PACKET_ASSEMBLYSIZE - 1 ->
  exists p', put16_at i v p = Ok p' /\ zlen p' = PACKET_ASSEMBLYSIZE /\ bytes p'.
Proof.
  intros Hs Hb Hi. unfold put16_at.
  destruct (wr_bytes p i (hi8 v)) as (p1 & -> & Hb1 & Hl1); [done|apply hi8_byte|lia|]. cbn [mbind comp_bind].
  destruct (wr_bytes p1 (i + 1) (lo8 v)) as (p2 & -> & Hb2 & Hl2); [done|apply lo8_byte|lia|].
  exists p2. split_and!; [done|lia|done].
Qed.

Lemma end_rdata_room x n r : arena x n r -> n <= PACKET_ASSEMBLYSIZE ->
  exists x', end_rdata x = Ok x' /\ arena x' n None.
Proof.
  intros [Hs Hb Hh Hr Hd] Hn. unfold end_rdata. rewrite Hr. destruct r as [r|].
  - destruct (put16_at_room r (h_here x - (r + 2)) (h_packet x)) as (p & -> & Hp & Hpb); [done|done|lia|].
    cbn [mbind comp_bind]. eexists. split; [done|]. by constructor.
  - eexists. split; [done|]. by constructor.
Qed.

(** A finished packet: as long as it says, and made of bytes. *)
Definition packet_ok (x : dnsheader_t) (n : Z) : Prop :=
  12 <= h_len x <= n /\ h_len x <= zlen (h_packet x) /\ bytes (h_packet x).

Lemma end_assembly_room x n r : arena x n r -> n <= PACKET_ASSEMBLYSIZE ->
  exists x', end_assembly x = Ok x' /\ packet_ok x' n.
Proof.
  intros Hx Hn. unfold end_assembly. destruct (end_rdata_room x n r Hx Hn) as (x1 & -> & Hx1). cbn [mbind comp_bind].
  destruct Hx1 as [Hs Hb Hh _ _].
  assert (forall i v p, 0 <= i < 100 -> zlen p = PACKET_ASSEMBLYSIZE /\ bytes p ->
    exists p', put16_at i v p = Ok p' /\ zlen p' = PACKET_ASSEMBLYSIZE /\ bytes p') as Hput.
  { intros i v p Hi [? ?]. apply put16_at_room; [done|done|]. unfold PACKET_ASSEMBLYSIZE. lia. }
  destruct (Hput 2 (h_u x1) (h_packet x1)) as (p1 & -> & H1); [lia|done|]. cbn [mbind comp_bind].
  destruct (Hput 4 (h_qdcount x1) p1) as (p2 & -> & H2); [lia|done|]. cbn [mbind comp_bind].
  destruct (Hput 6 (h_ancount x1) p2) as (p3 & -> & H3); [lia|done|]. cbn [mbind comp_bind].
  destruct (Hput 8 (h_nscount x1) p3) as (p4 & -> & H4); [lia|done|]. cbn [mbind comp_bind].
  destruct (Hput 10 (h_arcount x1) p4) as (p5 & -> & H5 & Hb5); [lia|done|]. cbn [mbind comp_bind].
  eexists. split; [done|]. unfold packet_ok. cbn. rewrite H5. split; [done|]. split; [lia|done].
Qed.

(** A question of at most 255 characters. *)
Definition question_room : Z := 12 + 255 + 2 + 4.

Lemma begin_assembly_room query : zlen (cstr (rr_name query)) <= 255 ->
  exists x, begin_assembly query = Ok x /\ arena x question_room None.
Proof.
  intros Hn. unfold begin_assembly. set (x0 := Hdr _ _ _ _ _ _ _ _ _ _).
  assert (arena x0 12 None) as Hx0 by (by_decide || (constructor; [done|by_decide|cbn; unfold PACKET_DATABEGIN; lia|done|done])).
  unfold question_room, PACKET_ASSEMBLYSIZE in *.
  destruct (compile_name_room (cstr (rr_name query)) x0 12 None Hx0) as (p & x1 & -> & Hx1 & _); [unfold PACKET_ASSEMBLYSIZE; lia|].
  cbn [mbind comp_bind].
  destruct (compile_int_room (rr_type query) x1 _ None Hx1) as (x2 & -> & Hx2 & _); [unfold PACKET_ASSEMBLYSIZE; lia|].
  cbn [mbind comp_bind].
  destruct (compile_int_room (rr_class query) x2 _ None Hx2) as (x3 & -> & Hx3 & _); [unfold PACKET_ASSEMBLYSIZE; lia|].
  exists x3. split; [done|]. apply (arena_weaken _ _ _ _ Hx3). lia.
Qed.

Lemma record_head_room ty x n r : arena x n r -> n + 12 <= PACKET_ASSEMBLYSIZE ->
  exists x' r', record_head ty x = Ok x' /\ arena x' (n + 12) (Some r').
Proof.
  intros Hx Hn. unfold record_head.
  destruct (compile_objectname_room x n r Hx) as (x1 & -> & Hx1); [lia|]. cbn [mbind comp_bind].
  destruct (compile_int_room ty x1 _ r Hx1) as (x2 & -> & Hx2 & _); [lia|]. cbn [mbind comp_bind].
  destruct (compile_int_room DNS_CLASS_INET x2 _ r Hx2) as (x3 & -> & Hx3 & _); [lia|]. cbn [mbind comp_bind].
  destruct (compile_long_room DEFAULT_TTL x3 _ r Hx3) as (x4 & -> & Hx4); [lia|]. cbn [mbind comp_bind].
  destruct (start_rdata_room x4 _ r Hx4) as (x5 & r' & -> & Hx5); [lia|].
  exists x5, r'. split; [done|]. apply (arena_weaken _ _ _ _ Hx5). lia.
Qed.

Lemma compile_ns_room rec x n r : arena x n r -> n + (12 + zlen (dns_string rec)) <= PACKET_ASSEMBLYSIZE ->
  exists x', compile_ns rec x = Ok x' /\ arena x' (n + (12 + zlen (dns_string rec))) None.
Proof.
  intros Hx Hn. pose proof (zlen_nonneg (dns_string rec)). unfold compile_ns.
  destruct (compile_int_room DNS_TYPE_NS x n r Hx) as (x1 & -> & Hx1 & _); [lia|]. cbn [mbind comp_bind].
  destruct (compile_int_room DNS_CLASS_INET x1 _ r Hx1) as (x2 & -> & Hx2 & _); [lia|]. cbn [mbind comp_bind].
  destruct (compile_long_room DEFAULT_TTL x2 _ r Hx2) as (x3 & -> & Hx3); [lia|]. cbn [mbind comp_bind].
  destruct (start_rdata_room x3 _ r Hx3) as (x4 & r' & -> & Hx4); [lia|]. cbn [mbind comp_bind].
  destruct (compile_name_room (dns_string rec) x4 _ _ Hx4) as (p & x5 & -> & Hx5 & _); [lia|]. cbn [mbind comp_bind].
  destruct (end_rdata_room x5 _ _ Hx5) as (x6 & -> & Hx6); [lia|].
  exists x6. split; [done|]. apply (arena_weaken _ _ _ _ Hx6). lia.
Qed.

(** * The size of an answer *)

(** What one record takes in an authority section or an NS answer. *)
Definition ns_room (r : dnsrec_t) : Z :=
  match udata r with DnsServer dns => 14 + zlen (sstring dns) | _ => 0 end.
Fixpoint db_room (l : list dnsrec_t) : Z := match l with [] => 0 | r :: l' => ns_room r + db_room l' end.
Fixpoint longest (l : list dnsrec_t) : Z :=
  match l with [] => 0 | r :: l' => Z.max (zlen (sstring (object r))) (longest l') end.

(** The most that an answer takes: a question, one record, the name of a
    domain and all the name servers. *)
Definition answer_room (st : mstate) : Z :=
  question_room + 12 + (longest (dbv st) + 4) + (longest (dbv st) + 2) + db_room (dbv st).

(** Every answer fits a datagram, and so the assembly buffer. *)
Definition fits (st : mstate) : Prop := answer_room st <= UDP_MAXSIZE.

Lemma ns_room_nonneg r : 0 <= ns_room r.
Proof. unfold ns_room. destruct (udata r); try lia. pose proof (zlen_nonneg (sstring dns)). lia. Qed.

Lemma db_room_nonneg l : 0 <= db_room l.
Proof. induction l as [|r l IH]; cbn; [lia|]. pose proof (ns_room_nonneg r). lia. Qed.

Lemma db_room_drop l i r : l !! i = Some r -> ns_room r + db_room (drop (S i) l) <= db_room l.
Proof.
  revert i; induction l as [|r' l IH]; intros [|i]; cbn; try done.
  - intros [= ->]. rewrite drop_0. lia.
  - intros H. specialize (IH i H). pose proof (ns_room_nonneg r'). lia.
Qed.

Lemma db_room_drop_le l i : db_room (drop i l) <= db_room l.
Proof.
  revert i; induction l as [|r l IH]; intros [|i]; cbn; try lia.
  specialize (IH i). pose proof (ns_room_nonneg r). lia.
Qed.

Lemma longest_nonneg l : 0 <= longest l.
Proof. induction l as [|r l IH]; cbn; [lia|]. pose proof (zlen_nonneg (sstring (object r))). lia. Qed.

Lemma longest_at l i r : l !! i = Some r -> zlen (sstring (object r)) <= longest l.
Proof.
  revert i; induction l as [|r' l IH]; intros [|i]; cbn; try done.
  - intros [= ->]. lia.
  - intros H. specialize (IH i H). lia.
Qed.

(** Where the next search for name servers starts. *)
Definition from_last (last : Z) : nat := Z.to_nat (if last <? 0 then 0 else last + 1).

Lemma dns_lookup_at st name last rec k : dns_lookup st name last = (Some rec, k) ->
  0 <= k /\ (from_last last <= Z.to_nat k)%nat /\ dbv st !! Z.to_nat k = Some rec /\
  ns_room rec = 14 + zlen (dns_string rec).
Proof.
  unfold dns_lookup, from_last. set (s := if last <? 0 then 0 else last + 1).
  assert (0 <= s) as Hs by (unfold s; case_if; zbool; lia).
  destruct (list_find _ _) as [[i r]|] eqn:E; [|done]. intros [= -> <-].
  apply list_find_Some in E as (Hi & Hr & _). rewrite lookup_drop in Hi.
  split; [lia|]. split; [lia|]. replace (Z.to_nat (s + Z.of_nat i)) with (Z.to_nat s + i)%nat by lia.
  split; [done|]. unfold is_dns in Hr. unfold ns_room, dns_string. by destruct (udata rec).
Qed.

Lemma db_room_at st rec last k : 0 <= k -> (from_last last <= Z.to_nat k)%nat -> dbv st !! Z.to_nat k = Some rec ->
  ns_room rec + db_room (drop (from_last k) (dbv st)) <= db_room (drop (from_last last) (dbv st)) /\
  (length (dbv st) - from_last k < length (dbv st) - from_last last)%nat.
Proof.
  intros Hk Hf Hr. assert (from_last k = S (Z.to_nat k)) as Ek by (unfold from_last; rewrite (proj2 (Z.ltb_ge _ _)) by lia; lia).
  pose proof (lookup_lt_Some _ _ _ Hr). split; [|lia].
  replace (Z.to_nat k) with (from_last last + (Z.to_nat k - from_last last))%nat in Hr by lia.
  rewrite <- lookup_drop in Hr. apply db_room_drop in Hr. rewrite drop_drop in Hr. rewrite Ek.
  by replace (S (Z.to_nat k)) with (from_last last + S (Z.to_nat k - from_last last))%nat by lia.
Qed.

Lemma dnsrecords_loop_room fuel st obj last pos x n :
  (length (dbv st) - from_last last < fuel)%nat -> arena x n None ->
  let n' := n + (if pos =? 0 then longest (dbv st) + 2 else 0) + db_room (drop (from_last last) (dbv st)) in
  n' <= PACKET_ASSEMBLYSIZE -> exists x', dnsrecords_loop fuel st obj last pos x = Ok x' /\ arena x' n' None.
Proof.
  revert last pos x n; induction fuel as [|fuel IH]; intros last pos x n Hf Hx n' Hn; [lia|].
  pose proof (db_room_nonneg (drop (from_last last) (dbv st))) as Hpos. pose proof (longest_nonneg (dbv st)) as Hlong.
  cbn [dnsrecords_loop]. destruct (dns_lookup st obj last) as [[rec|] k] eqn:E.
  2: { exists x. split; [done|]. apply (arena_weaken _ _ _ _ Hx). unfold n'. case_if; lia. }
  destruct (dns_lookup_at _ _ _ _ _ E) as (Hk & Hfk & Hr & Hns).
  destruct (db_room_at st rec last k Hk Hfk Hr) as [Hroom Hlen].
  pose proof (longest_at _ _ _ Hr) as Hlo. pose proof (zlen_nonneg (dns_string rec)).
  pose proof (db_room_nonneg (drop (from_last k) (dbv st))).
  assert (exists pos' x1, (if pos =? 0 then compile_name (sstring (object rec)) x
             else x ← compile_namepointer pos x; mret (pos, x)) = Ok (pos', x1) /\ pos' <> 0 /\
          arena x1 (n + (if pos =? 0 then longest (dbv st) + 2 else 0) + 2) None) as (pos' & x1 & -> & Hp & Hx1).
  { destruct (pos =? 0) eqn:Ep; zbool; unfold n' in *.
    - destruct (compile_name_room (sstring (object rec)) x n None Hx) as (p & x1 & -> & Hx1 & Hp); [lia|].
      exists p, x1. split; [done|]. split; [lia|]. apply (arena_weaken _ _ _ _ Hx1). lia.
    - destruct (compile_namepointer_room pos x n None Hx) as (x1 & -> & Hx1); [lia|].
      exists pos, x1. split; [done|]. split; [done|]. apply (arena_weaken _ _ _ _ Hx1). lia. }
  cbn [mbind comp_bind].
  destruct (compile_ns_room rec x1 _ _ Hx1) as (x2 & -> & Hx2); [unfold n' in *; lia|]. cbn [mbind comp_bind].
  apply (arena_ext x2 (add_counts 0 1 x2)) in Hx2; [|done..].
  destruct (IH k pos' _ _ ltac:(lia) Hx2) as (x' & -> & Hx').
  { rewrite (proj2 (Z.eqb_neq _ _) Hp). unfold n' in *. lia. }
  exists x'. split; [done|]. rewrite (proj2 (Z.eqb_neq _ _) Hp) in Hx'. apply (arena_weaken _ _ _ _ Hx').
  unfold n'. lia.
Qed.

Lemma compile_dnsrecords_room st obj x n : arena x n None ->
  n + (longest (dbv st) + 2) + db_room (dbv st) <= PACKET_ASSEMBLYSIZE ->
  exists x', compile_dnsrecords st obj x = Ok x' /\ arena x' (n + (longest (dbv st) + 2) + db_room (dbv st)) None.
Proof.
  intros Hx Hn. unfold compile_dnsrecords.
  destruct (dnsrecords_loop_room (S (length (dbv st))) st obj (-1) 0 x n ltac:(lia) Hx Hn) as (x1 & -> & Hx1).
  cbn [mbind comp_bind]. eexists. split; [done|]. case_if; [by apply (arena_ext x1)|done].
Qed.

Lemma ns_loop_room fuel st name rec last x n r : 0 <= last -> (length (dbv st) - from_last last < fuel)%nat ->
  arena x n r -> ns_room rec = 14 + zlen (dns_string rec) ->
  let n' := n + ns_room rec + db_room (drop (from_last last) (dbv st)) in
  n' <= PACKET_ASSEMBLYSIZE -> exists x', ns_loop fuel st name rec last x = Ok x' /\ arena x' n' None.
Proof.
  revert rec last x n r; induction fuel as [|fuel IH]; intros rec last x n r Hl Hf Hx Hns n' Hn; [lia|].
  pose proof (db_room_nonneg (drop (from_last last) (dbv st))) as Hpos. pose proof (zlen_nonneg (dns_string rec)).
  cbn [ns_loop]. destruct (compile_objectname_room x n r Hx) as (x1 & -> & Hx1); [unfold n' in *; lia|]. cbn [mbind comp_bind].
  destruct (compile_ns_room rec x1 _ _ Hx1) as (x2 & -> & Hx2); [unfold n' in *; lia|]. cbn [mbind comp_bind].
  assert (arena (add_counts 1 0 x2) (n + ns_room rec) None) as Hx3.
  { apply (arena_ext x2); [done..|]. apply (arena_weaken _ _ _ _ Hx2). lia. }
  destruct (dns_lookup st name last) as [[rec'|] k] eqn:E.
  2: { eexists. split; [done|]. apply (arena_weaken _ _ _ _ Hx3). unfold n'. lia. }
  destruct (dns_lookup_at _ _ _ _ _ E) as (Hk & Hfk & Hr & Hns').
  destruct (db_room_at st rec' last k Hk Hfk Hr) as [Hroom Hlen].
  destruct (IH rec' k (add_counts 1 0 x2) _ None Hk ltac:(lia) Hx3 Hns') as (x' & -> & Hx'); [unfold n' in *; lia|].
  exists x'. split; [done|]. apply (arena_weaken _ _ _ _ Hx'). unfold n'. lia.
Qed.

(** * The calls of the master *)

(** The part of a message buffer behind the largest datagram. *)
Definition spare (msg : list Z) : list Z := drop (Z.to_nat UDP_MAXSIZE) msg.

(** The answer in the message buffer, or no answer. *)
Definition answered (msg : list Z) (c : comp (Z * list Z)) : Prop :=
  exists r msg', c = Ok (r, msg') /\ bytes msg' /\ zlen msg' = zlen msg /\ spare msg' = spare msg /\
    (r = 0 /\ msg' = msg \/ 12 <= r <= UDP_MAXSIZE).

Lemma copy_answer_spare dst src n : bytes dst -> bytes src -> 2 <= n <= UDP_MAXSIZE -> n <= zlen src ->
  UDP_MAXSIZE <= zlen dst ->
  exists m, copy_answer dst src n = Ok m /\ bytes m /\ zlen m = zlen dst /\ take 2 m = take 2 dst /\ spare m = spare dst.
Proof.
  intros Hd Hs Hn Hl Hz. rewrite copy_answer_ok by lia. eexists. split; [done|]. split; [|split; [|split]].
  - repeat (apply Forall_app; split); auto using Forall_take, Forall_drop.
  - unfold zlen in *. rewrite !length_app, !length_take, !length_drop, length_take. lia.
  - rewrite take_app_le by (unfold zlen in *; rewrite length_take; lia). by rewrite take_take.
  - unfold spare. rewrite app_assoc, drop_app_ge, drop_drop by (unfold zlen in *; rewrite length_app, length_take, length_drop, length_take; lia).
    f_equal. unfold zlen in *. rewrite length_app, length_take, length_drop, length_take. lia.
Qed.

Lemma unanswered msg : bytes msg -> answered msg (Ok (0, msg)).
Proof. intros Hm. exists 0, msg. split_and!; auto. Qed.

Lemma copy_packet msg x : bytes msg -> UDP_MAXSIZE <= zlen msg -> packet_ok x UDP_MAXSIZE ->
  answered msg (msg ← copy_answer msg (h_packet x) (h_len x); mret (h_len x, msg)).
Proof.
  intros Hm Hl ((Hl1 & Hl2) & Hl3 & Hb).
  destruct (copy_answer_spare msg (h_packet x) (h_len x)) as (m & -> & Hbm & Hz & _ & Hs); [done|done|lia|done|done|].
  cbn [mbind comp_bind]. do 2 eexists. split; [done|]. by split_and!; auto.
Qed.

(** Closing an assembly and copying it. *)
Lemma finish_packet msg x n : bytes msg -> arena x n None -> n <= UDP_MAXSIZE -> UDP_MAXSIZE <= zlen msg ->
  answered msg (x ← end_assembly x; msg ← copy_answer msg (h_packet x) (h_len x); mret (h_len x, msg)).
Proof.
  intros Hm Hx Hn Hl. assert (UDP_MAXSIZE <= PACKET_ASSEMBLYSIZE) by by_decide.
  destruct (end_assembly_room x n None Hx) as (x' & -> & Hx'); [lia|]. cbn [mbind comp_bind].
  apply copy_packet; [done|done|]. destruct Hx' as (? & ? & ?). split; [lia|done].
Qed.

Lemma authority_answer_safe st query msg : zlen (cstr (rr_name query)) <= 255 ->
  bytes msg -> UDP_MAXSIZE <= zlen msg -> answered msg (authority_answer st query msg).
Proof.
  intros Hn Hm Hl. unfold authority_answer. destruct (strchr _ 46) as [k|]; [|by apply unanswered].
  assert (answered msg (x ← begin_assembly query;
            let x := set_ancount 0 x in
            x ← end_assembly (set_u (SET_AA (h_u x) 1) x);
            msg ← copy_answer msg (h_packet x) (h_len x);
            mret (h_len x, msg))) as H.
  { destruct (begin_assembly_room query Hn) as (x & -> & Hx). cbn [mbind comp_bind].
    unfold question_room in *.
    apply (finish_packet _ _ 273); [done|by apply (arena_ext x)|by vm_compute|done]. }
  destruct (authority_lookup st (cstr (rr_name query))); [exact H|].
  destruct (authority_lookup st _); [exact H|]. by apply unanswered.
Qed.

Lemma finish_answer_safe st name msg x n r : arena x n r ->
  n + (longest (dbv st) + 2) + db_room (dbv st) <= UDP_MAXSIZE ->
  bytes msg -> UDP_MAXSIZE <= zlen msg -> answered msg (finish_answer st name msg x).
Proof.
  intros Hx Hn Hm Hl. pose proof (db_room_nonneg (dbv st)). pose proof (longest_nonneg (dbv st)).
  unfold finish_answer. assert (UDP_MAXSIZE <= PACKET_ASSEMBLYSIZE) by by_decide.
  destruct (end_rdata_room x n r Hx) as (x1 & -> & Hx1); [lia|]. cbn [mbind comp_bind].
  destruct (compile_dnsrecords_room st name x1 n Hx1) as (x2 & -> & Hx2); [lia|]. cbn [mbind comp_bind].
  apply (finish_packet _ _ (n + (longest (dbv st) + 2) + db_room (dbv st))); [done|by apply (arena_ext x2)|lia|lia].
Qed.

(** The table is consistent and, once the master has started, small. *)
Definition minv (st : mstate) : Prop :=
  master_onoff st <> 0 -> db_ok st /\ (if master_initialised st =? 0 then dbv st = [] else fits st).

(** The files make a table whose answers fit. *)
Definition config_fits (fs : files) (domain0 : list Z) : Prop :=
  zlen domain0 <= 256 /\
  forall st st', dbv st = [] -> master_init fs domain0 st = Ok st' -> fits st'.

(** An uninitialised record of a query. *)
Definition scratch_ok (y : rr_t) : Prop := zlen (rr_name y) = RR_NAMESIZE /\ 0 ∈ rr_name y.

Lemma name_room y : query_wf y -> zlen (cstr (rr_name y)) <= 255.
Proof.
  intros (_ & _ & _ & Hl & H0 & _). pose proof (cstr_short _ H0). unfold RR_NAMESIZE in *. lia.
Qed.

Section safe.
Context (fs : files) (domain0 : list Z) (Hcfg : config_fits fs domain0).

Lemma master_init_safe st : dbv st = [] -> master_onoff st <> 0 ->
  exists st', master_init fs domain0 st = Ok st' /\ db_ok st' /\ fits st' /\ master_initialised st' = 1.
Proof.
  intros Hdb Hon. destruct Hcfg as [Hd Hf].
  assert (db_ok st) as Hok by (unfold db_ok; by rewrite Hdb).
  destruct (master_init_ok fs domain0 st Hd Hon Hok) as (st' & He & Hok' & Hi & _).
  exists st'. split; [done|]. split; [done|]. split; [by apply (Hf st)|done].
Qed.

Lemma ensure_init_safe st : minv st -> master_onoff st <> 0 ->
  exists st', ensure_init fs domain0 st = Ok st' /\ minv st' /\ fits st'.
Proof.
  intros Hst Hon. destruct (Hst Hon) as [Hok Hf]. unfold ensure_init.
  destruct (master_initialised st =? 0) eqn:E; zbool.
  - destruct (master_init_safe st Hf Hon) as (st' & -> & Hok' & Hf' & Hi). exists st'.
    split; [done|]. split; [|done]. intros _. rewrite Hi. by split.
  - exists st. split; [done|]. split; [|done]. intros _. rewrite (proj2 (Z.eqb_neq _ _) E). by split.
Qed.

Lemma ptr_answer_safe st query name msg rec : fits st -> zlen (cstr (rr_name query)) <= 255 ->
  bytes msg -> UDP_MAXSIZE <= zlen msg -> rec ∈ dbv st ->
  answered msg (x ← begin_assembly query;
                x ← record_head DNS_TYPE_PTR x;
                '(_, x) ← compile_name (sstring (object rec)) x;
                finish_answer st name msg x).
Proof.
  intros Hf Hn Hm Hl [i Hi]%list_elem_of_lookup. pose proof (longest_at _ _ _ Hi).
  pose proof (longest_nonneg (dbv st)). pose proof (db_room_nonneg (dbv st)). unfold fits, answer_room in Hf.
  assert (UDP_MAXSIZE <= PACKET_ASSEMBLYSIZE) by by_decide.
  destruct (begin_assembly_room query Hn) as (x & -> & Hx). cbn [mbind comp_bind].
  destruct (record_head_room DNS_TYPE_PTR x _ _ Hx) as (x1 & r & -> & Hx1); [lia|]. cbn [mbind comp_bind].
  destruct (compile_name_room (sstring (object rec)) x1 _ _ Hx1) as (p & x2 & -> & Hx2 & _); [lia|]. cbn [mbind comp_bind].
  apply (finish_answer_safe st name msg x2 _ _ Hx2); [lia|done|done].
Qed.

Lemma a_answer_safe st query name msg ip : fits st -> zlen (cstr (rr_name query)) <= 255 ->
  bytes msg -> UDP_MAXSIZE <= zlen msg ->
  answered msg (x ← begin_assembly query;
                x ← record_head DNS_TYPE_A x;
                x ← compile_long ip x;
                finish_answer st name msg x).
Proof.
  intros Hf Hn Hm Hl.
  pose proof (longest_nonneg (dbv st)). pose proof (db_room_nonneg (dbv st)). unfold fits, answer_room in Hf.
  assert (UDP_MAXSIZE <= PACKET_ASSEMBLYSIZE) by by_decide.
  destruct (begin_assembly_room query Hn) as (x & -> & Hx). cbn [mbind comp_bind].
  destruct (record_head_room DNS_TYPE_A x _ _ Hx) as (x1 & r & -> & Hx1); [lia|]. cbn [mbind comp_bind].
  destruct (compile_long_room ip x1 _ _ Hx1) as (x2 & -> & Hx2); [lia|]. cbn [mbind comp_bind].
  apply (finish_answer_safe st name msg x2 _ _ Hx2); [lia|done|done].
Qed.

Lemma ns_answer_safe st query name msg rec k : fits st -> zlen (cstr (rr_name query)) <= 255 ->
  bytes msg -> UDP_MAXSIZE <= zlen msg -> dns_lookup st name (-1) = (Some rec, k) ->
  answered msg (x ← begin_assembly query;
                x ← ns_loop (S (length (dbv st))) st name rec k x;
                x ← end_assembly (set_u (SET_AA (h_u x) 1) x);
                msg ← copy_answer msg (h_packet x) (h_len x);
                mret (h_len x, msg)).
Proof.
  intros Hf Hn Hm Hl Hk. destruct (dns_lookup_at _ _ _ _ _ Hk) as (Hk0 & Hfk & Hr & Hns).
  destruct (db_room_at st rec (-1) k Hk0 Hfk Hr) as [Hroom _]. cbn [from_last] in Hroom.
  change (drop (from_last (-1)) (dbv st)) with (dbv st) in Hroom.
  pose proof (longest_nonneg (dbv st)). unfold fits, answer_room in Hf.
  assert (UDP_MAXSIZE <= PACKET_ASSEMBLYSIZE) by by_decide.
  destruct (begin_assembly_room query Hn) as (x & -> & Hx). cbn [mbind comp_bind].
  destruct (ns_loop_room (S (length (dbv st))) st name rec k x _ _ Hk0 ltac:(lia) Hx Hns) as (x1 & -> & Hx1); [lia|].
  cbn [mbind comp_bind].
  eapply finish_packet; [done|eapply arena_ext; [..|exact Hx1]; done|lia|lia].
Qed.

(** Every call on a message that holds a datagram returns; the message is
    untouched unless there is an answer, which fits. *)
Lemma master_lookup_safe y0 msg len st : minv st -> scratch_ok y0 -> bytes msg ->
  12 <= len <= zlen msg -> UDP_MAXSIZE <= zlen msg ->
  exists r msg' st', master_lookup fs domain0 y0 msg len st = Ok (r, msg', st') /\ minv st' /\
    bytes msg' /\ zlen msg' = zlen msg /\ spare msg' = spare msg /\ (r = 0 /\ msg' = msg \/ 12 <= r <= UDP_MAXSIZE).
Proof.
  intros Hst [Hy Hy0] Hm Hlen Hl. unfold master_lookup.
  case_if; zbool; [exists 0, msg, st; split_and!; auto|].
  destruct (ensure_init_safe st Hst E) as (s1 & -> & Hs1 & Hf). cbn [mbind comp_bind].
  destruct (parse_query_ok y0 msg len Hm Hlen Hy Hy0) as (r & q & -> & Hr & _ & Hwf). cbn [mbind comp_bind].
  match goal with |- context [if ?b then _ else _] => destruct b eqn:Eb end; [exists 0, msg, s1; split_and!; auto|].
  apply orb_false_iff in Eb as [Eb _]. apply orb_false_iff in Eb as [Eb _]. apply negb_false_iff in Eb. zbool.
  pose proof (name_room q (Hwf Eb)) as Hn. cbv zeta.
  match goal with |- context [mbind _ ?c] => assert (answered msg c) as (r' & m' & -> & Hb' & Hl' & Hs' & Hr') end.
  2: { cbn [mbind comp_bind]. exists r', m', s1. by split_and!. }
  case_if; [|case_if; [|case_if; [|by apply unanswered]]].
  - case_if; [by apply unanswered|]. destruct (ptr_lookup s1 _) as [rec|] eqn:Ep; [|by apply authority_answer_safe].
    apply ptr_answer_safe; try done. unfold ptr_lookup in Ep.
    destruct (list_find _ _) as [[i rec']|] eqn:Ef; [|done]. injection Ep as <-.
    apply list_find_Some in Ef as (Hi & _). by eapply list_elem_of_lookup_2.
  - destruct (name_lookup s1 _) as [rec|]; [by apply a_answer_safe|by apply authority_answer_safe].
  - destruct (dns_lookup s1 _ (-1)) as [[rec|] k] eqn:Ek; [by apply (ns_answer_safe _ _ _ _ _ _ Hf Hn Hm Hl Ek)|].
    by apply authority_answer_safe.
Qed.

Lemma master_dontknow_safe y0 msg len answer st : minv st -> scratch_ok y0 -> bytes msg ->
  12 <= len <= zlen msg -> UDP_MAXSIZE <= zlen answer ->
  exists r a' st', master_dontknow fs domain0 y0 msg len answer st = Ok (r, a', st') /\ minv st'.
Proof.
  intros Hst [Hy Hy0] Hm Hlen Hl. unfold master_dontknow.
  case_if; zbool; [by eexists 0, answer, st|].
  destruct (ensure_init_safe st Hst E) as (s1 & -> & Hs1 & Hf). cbn [mbind comp_bind].
  destruct (parse_query_ok y0 msg len Hm Hlen Hy Hy0) as (r & q & -> & Hr & _ & Hwf). cbn [mbind comp_bind].
  match goal with |- context [if ?b then _ else _] => destruct b eqn:Eb end; [by eexists 0, answer, s1|].
  apply orb_false_iff in Eb as [Eb _]. apply orb_false_iff in Eb as [Eb _]. apply negb_false_iff in Eb. zbool.
  destruct (begin_assembly_room q (name_room q (Hwf Eb))) as (x & -> & Hx). cbn [mbind comp_bind]. cbv zeta.
  destruct (end_assembly_room (set_u (SET_RCODE (SET_AA (h_u x) 0) 1) (set_u (SET_AA (h_u x) 0) (set_ancount 0 x)))
    question_room None) as (x' & He & (Hx1 & Hx2) & _); [by apply (arena_ext x)|by vm_compute|].
  cbn [h_u set_u set_ancount] in He |- *. rewrite He. cbn [mbind comp_bind].
  unfold question_room, UDP_MAXSIZE in *. rewrite (proj2 (Z.ltb_ge _ _)) by lia.
  by do 3 eexists.
Qed.

Lemma master_reinit_safe st : minv st -> exists st', master_reinit fs domain0 st = Ok st' /\ minv st'.
Proof.
  intros Hst. unfold master_reinit. destruct (_ || _) eqn:E.
  - cbn [mbind comp_bind]. eexists. split; [done|]. exact Hst.
  - apply orb_false_iff in E as [E _]. zbool.
    destruct (master_init_safe (reset_master st)) as (st' & -> & Hok & Hf & Hi); [done|done|].
    cbn [mbind comp_bind]. eexists. split; [done|]. intros _. cbn. rewrite Hi. by split.
Qed.
End safe.
