(* ===== verification/Relay.v ===== *)
(** The relay (src/dnrd-2.20.3/src/udp.c and relay.c): what happens to a
    query and to a reply, the probes of deactivated servers, and one turn of
    the main loop, on the state of the whole daemon. *)
From S2P Require Import Prelude CString Lib Dns Common Ring Srvnode Domnode Qid Query Cache Master.
Set Warnings "-clear-no-such-hyp".

(** [sends] are the results the next calls of [sendto] will have (a call
    beyond them succeeds) and [oscalls] those of the next allocations and
    sockets (none is left: the socket call fails); [sent] records the
    datagrams handed to [sendto]. *)
Record daemon := Daemon {
  wnet : net; qs : qstate; cs : cstate; ms : mstate;
  req_msg : list Z; rep_msg : list Z; dnsbuf : list Z;
  last_reactivate : Z; last_deactivate : Z; last_query_stats : Z; last_srv_stats : Z;
  sends : list Z; oscalls : list oscall; sent : list (Z * sockaddr * list Z) }.

Definition with_net (w : net) (d : daemon) : daemon :=
  Daemon w (qs d) (cs d) (ms d) (req_msg d) (rep_msg d) (dnsbuf d) (last_reactivate d) (last_deactivate d)
    (last_query_stats d) (last_srv_stats d) (sends d) (oscalls d) (sent d).
Definition with_qs (q : qstate) (d : daemon) : daemon :=
  Daemon (wnet d) q (cs d) (ms d) (req_msg d) (rep_msg d) (dnsbuf d) (last_reactivate d) (last_deactivate d)
    (last_query_stats d) (last_srv_stats d) (sends d) (oscalls d) (sent d).
Definition with_cs (c : cstate) (d : daemon) : daemon :=
  Daemon (wnet d) (qs d) c (ms d) (req_msg d) (rep_msg d) (dnsbuf d) (last_reactivate d) (last_deactivate d)
    (last_query_stats d) (last_srv_stats d) (sends d) (oscalls d) (sent d).
Definition with_ms (m : mstate) (d : daemon) : daemon :=
  Daemon (wnet d) (qs d) (cs d) m (req_msg d) (rep_msg d) (dnsbuf d) (last_reactivate d) (last_deactivate d)
    (last_query_stats d) (last_srv_stats d) (sends d) (oscalls d) (sent d).
Definition with_req (m : list Z) (d : daemon) : daemon :=
  Daemon (wnet d) (qs d) (cs d) (ms d) m (rep_msg d) (dnsbuf d) (last_reactivate d) (last_deactivate d)
    (last_query_stats d) (last_srv_stats d) (sends d) (oscalls d) (sent d).
Definition with_rep (m : list Z) (d : daemon) : daemon :=
  Daemon (wnet d) (qs d) (cs d) (ms d) (req_msg d) m (dnsbuf d) (last_reactivate d) (last_deactivate d)
    (last_query_stats d) (last_srv_stats d) (sends d) (oscalls d) (sent d).
Definition with_dnsbuf (m : list Z) (d : daemon) : daemon :=
  Daemon (wnet d) (qs d) (cs d) (ms d) (req_msg d) (rep_msg d) m (last_reactivate d) (last_deactivate d)
    (last_query_stats d) (last_srv_stats d) (sends d) (oscalls d) (sent d).
Definition with_tries (r x : Z) (d : daemon) : daemon :=
  Daemon (wnet d) (qs d) (cs d) (ms d) (req_msg d) (rep_msg d) (dnsbuf d) r x
    (last_query_stats d) (last_srv_stats d) (sends d) (oscalls d) (sent d).

Definition with_stats (q s : Z) (d : daemon) : daemon :=
  Daemon (wnet d) (qs d) (cs d) (ms d) (req_msg d) (rep_msg d) (dnsbuf d) (last_reactivate d) (last_deactivate d)
    q s (sends d) (oscalls d) (sent d).

(** The result of [sendto] for a datagram of [len] bytes. *)
Definition sendto (sock : Z) (msg : list Z) (len : Z) (to : sockaddr) (d : daemon) : Z * daemon :=
  (default len (head (sends d)),
   Daemon (wnet d) (qs d) (cs d) (ms d) (req_msg d) (rep_msg d) (dnsbuf d) (last_reactivate d)
     (last_deactivate d) (last_query_stats d) (last_srv_stats d) (tail (sends d)) (oscalls d)
     (sent d ++ [(sock, to, take (Z.to_nat len) msg)])).

Definition take_os (d : daemon) : oscall * daemon :=
  (default (Os 1%positive (-1)) (head (oscalls d)),
   Daemon (wnet d) (qs d) (cs d) (ms d) (req_msg d) (rep_msg d) (dnsbuf d) (last_reactivate d)
     (last_deactivate d) (last_query_stats d) (last_srv_stats d) (sends d) (tail (oscalls d)) (sent d)).

Section relay.
(** The settings; [domain_list] is the head of the domains, [isock] the
    socket of the clients; [y0] and [dom0] are what the uninitialised locals
    hold, [a] is the address of the next cache entry. *)
Context (cfg : config) (fs : files) (domain_list : ptr) (isock : Z)
  (ignore_inactive_cache_hits stats_interval stats_reset : Z) (y0 : rr_t) (dom0 : list Z) `{Q : Qsort}.

(** * udp.c *)

Definition udp_send (now : Z) (sock : Z) (srv : ptr) (msg : list Z) (len : Z) (d : daemon)
  : comp (Z * daemon) :=
  s ← get_srv (wnet d) srv;
  let '(rc, d) := sendto sock msg len (addr s, 53) d in
  if negb (rc =? len) then Ok (rc, d)
  else
    let f x := set_send_count (u32 (send_count x + 1))
                 (if send_time x =? 0 then set_send_time now x else x) in
    Ok (rc, with_net (upd_srv f srv (wnet d)) d).

(** The loop does not end while sends fail if servers are never
    deactivated: the fuel is the number of attempts allowed. *)
Fixpoint send2current_loop (fuel : nat) (now : Z) (q : ptr) (dom : ptr) (sock : Z) (msg : list Z) (len : Z)
    (d : daemon) : comp (Z * daemon) :=
  match fuel with
  | O => Fault NoFuel
  | S fuel' =>
      n ← get_dom (wnet d) dom;
      match current n with
      | None => Ok (0, d)
      | Some c =>
          '(rc, d) ← udp_send now sock c msg len d;
          if rc =? len then Ok (len, d)
          else
            w ← (if negb (reactivate_interval cfg =? 0) then deactivate_current now (wnet d) dom
                 else mret (wnet d));
            send2current_loop fuel' now q dom sock msg len (with_net w d)
      end
  end.

Definition send2current (now : Z) (q : ptr) (msg : list Z) (len : Z) (d : daemon) : comp (Z * daemon) :=
  n ← get_query (qs d) q;
  match q_domain n with
  | None => Fault AssertFail
  | Some dom => send2current_loop (S (size (srvs (wnet d)))) now q dom (q_sock n) msg len d
  end.

(** * relay.c: handle_query *)

Definition set_srvfail (msg : list Z) (len : Z) : comp (option (list Z)) :=
  if len <? 4 then Ok None
  else b ← rd msg 2; msg ← wr msg 2 (u8 (Z.lor b 0x84)); msg ← wr msg 3 0x82; mret (Some msg).

(** The reply with a server failure: the result, the message and its length. *)
Definition reply_srvfail (msg : list Z) (len : Z) (d : daemon)
  : comp (Z * list Z * Z * option ptr * daemon) :=
  r ← set_srvfail msg len;
  match r with
  | None => mret (-1, msg, len, None, d)
  | Some msg => mret (0, msg, len, None, d)
  end.

(** The choice of the current server, and its deactivation when it has not
    answered for too long. *)
Definition choose_server (now : Z) (dom : ptr) (w : net) : comp net :=
  n ← get_dom w dom;
  w ← (if negb (roundrobin n =? 0) then s ← next_active w dom; mret (set_current w dom s)
       else let w := set_current w dom None in s ← next_active w dom; mret (set_current w dom s));
  n ← get_dom w dom;
  match current n with
  | None => Ok w
  | Some c =>
      s ← get_srv w c;
      if negb (send_time s =? 0) && negb (forward_timeout cfg =? 0) && negb (reactivate_interval cfg =? 0)
         && (forward_timeout cfg <? now - send_time s)
      then deactivate_current now w dom else Ok w
  end.

Definition handle_query (now : Z) (msg : list Z) (len : Z) (d : daemon)
  : comp (Z * list Z * Z * option ptr * daemon) :=
  '(replylen, msg, m) ← master_lookup fs dom0 y0 msg len (ms d);
  let d := with_ms m d in
  if 0 <? replylen then Ok (0, msg, replylen, None, d)
  else if replylen <? 0 then Ok (-1, msg, len, None, d)
  else
    '(replylen, msg, c) ← cache_lookup ignore_inactive_cache_hits (wnet d) y0 now msg len (cs d);
    let d := with_cs c d in
    if 0 <? replylen then Ok (0, msg, replylen, None, d)
    else if replylen <? 0 then Ok (-1, msg, len, None, d)
    else
      dom ← search_subdomnode (wnet d) domain_list (drop 12 msg) len;
      n ← get_dom (wnet d) dom;
      none ← no_srvlist (srvs (wnet d)) (Some (srvlist n));
      if (none : bool) then reply_srvfail msg len d
      else
        w ← choose_server now dom (wnet d);
        let d := with_net w d in
        n ← get_dom w dom;
        match current n with
        | None => reply_srvfail msg len d
        | Some _ => mret (1, msg, len, Some dom, d)
        end.

(** * udp.c: requests and replies *)

(** [recvfrom] into a static buffer: at most [UDP_MAXSIZE] bytes of the
    datagram replace the start of it. *)
Definition recv_into (buf data : list Z) : list Z * Z :=
  let bytes := take (Z.to_nat UDP_MAXSIZE) data in (blit buf 0 bytes, zlen bytes).

(** [input] is the datagram received with its sender, [None] an error of
    [recvfrom]. *)
Definition udp_handle_request (now : Z) (input : option (sockaddr * list Z)) (d : daemon)
  : comp (option ptr * daemon) :=
  match input with
  | None => Ok (None, d)
  | Some (from, data) =>
      let '(msg, len) := recv_into (req_msg d) data in
      let d := with_req msg d in
      r ← check_query msg len;
      if r <? 0 then Ok (None, d)
      else
        '(fwd, msg, len, dptr, d) ← handle_query now msg len d;
        let d := with_req msg d in
        if fwd <? 0 then Ok (None, d)
        else if fwd =? 0 then let '(_, d) := sendto isock msg len from d in Ok (None, d)
        else
          dom ← of_option NullDeref dptr;
          n ← get_dom (wnet d) dom;
          srv ← of_option AssertFail (current n);
          let '(os, d) := take_os d in
          '(prev, msg, w, q) ← query_add cfg os now (Some dom) srv from msg (wnet d) (qs d);
          let d := with_req msg (with_qs q (with_net w d)) in
          match prev with
          | None => Ok (None, d)
          | Some prev =>
              q ← next (queries (qs d)) prev;
              '(rc, d) ← send2current now q msg len d;
              if 0 <? rc then Ok (Some q, d)
              else
                (* the answer is assembled and then not sent *)
                '(packetlen, _, m) ← master_dontknow fs dom0 y0 msg len (replicate 516 0) (ms d);
                let d := with_ms m d in
                if 0 <? packetlen
                then st ← query_delete_next prev (qs d); mret (None, with_qs st d)
                else Ok (Some q, d)
          end
  end.

(** [input] is the datagram on the query's socket, [None] an error. *)
Definition reply_recv (q : query_t) (input : option (in_addr * list Z)) (buf : list Z) (w : net)
  : comp (Z * list Z) :=
  match input with
  | None => Ok (-1, buf)
  | Some (from, data) =>
      let '(buf, rc) := recv_into buf data in
      s ← get_srv w (q_srv q);
      if bool_decide (from = addr s) then Ok (rc, buf) else Ok (0, buf)
  end.

Definition delete_query (prev : ptr) (d : daemon) : comp daemon :=
  st ← query_delete_next prev (qs d); mret (with_qs st d).

Definition udp_handle_reply (now : Z) (a : ptr) (prev : ptr) (input : option (in_addr * list Z)) (d : daemon)
  : comp daemon :=
  q ← next (queries (qs d)) prev;
  n ← get_query (qs d) q;
  '(len, msg) ← reply_recv n input (rep_msg d) (wnet d);
  let d := with_rep msg d in
  if len <? 0 then delete_query prev d
  else
    r ← check_reply msg len;
    if r <? 0 then delete_query prev d
    else
      d ← match q_domain n with
          | Some _ =>
              '(_, c) ← cache_dnspacket y0 a now msg len (q_srv n) (cs d);
              msg ← store_id (client_qid n) msg;
              let '(_, d) := sendto isock msg len (client n) (with_rep msg (with_cs c d)) in
              mret d
          | None => mret d
          end;
      _ ← get_srv (wnet d) (q_srv n);
      let w := upd_srv (fun s => set_inactive 0 (set_send_time 0 s)) (q_srv n) (wnet d) in
      delete_query prev (with_net w d).

Definition set_ttl (v : Z) (q : query_t) : query_t :=
  Query (q_sock q) (q_srv q) (q_domain q) (my_qid q) (client_qid q) (client q)
    (client_time q) (client_count q) v (q_next q).

(** The initial content of the static packet of [udp_send_dummy]. *)
Definition dummy_packet : list Z :=
  [0; 0; 1; 0; 0; 1; 0; 0; 0; 0; 0; 0] ++ [9] ++ lit "localhost" ++ [0; 0; 1; 0; 1].

(** [srcaddr] is what the uninitialised local holds when it is copied. *)
Definition udp_send_dummy (now : Z) (srcaddr : sockaddr) (s : ptr) (d : daemon) : comp (Z * daemon) :=
  let '(os, d) := take_os d in
  '(prev, buf, w, st) ← query_add cfg os now None s srcaddr (dnsbuf d) (wnet d) (qs d);
  let d := with_dnsbuf buf (with_qs st (with_net w d)) in
  match prev with
  | None => Ok (-1, d)
  | Some prev =>
      q ← next (queries (qs d)) prev;
      let d := with_qs (with_queries (alter (set_ttl (reactivate_interval cfg)) q) (qs d)) d in
      n ← get_query (qs d) q;
      '(rc, d) ← udp_send now (q_sock n) s (dnsbuf d) (zlen (dnsbuf d)) d;
      id ← load_id (dnsbuf d);
      buf ← store_id (u16 (id + 1)) (dnsbuf d);
      mret (rc, with_dnsbuf buf d)
  end.

(** * relay.c: maintenance and the main loop *)

(** [do body (d) while ((d = d->next) != domain_list);] *)
Definition each_domain (body : ptr -> daemon -> comp daemon) (d : daemon) : comp daemon :=
  d ← body domain_list d;
  ring_iter (fun d => doms (wnet d)) body (S (size (doms (wnet d)))) domain_list domain_list d.

Definition reactivate_servers (now : Z) (srcaddr : sockaddr) (interval : Z) (d : daemon) : comp daemon :=
  let d := if last_reactivate d =? 0 then with_tries now (last_deactivate d) d else d in
  if now - last_reactivate d <? interval then Ok d
  else
    each_domain (fun dom d =>
      n ← get_dom (wnet d) dom;
      none ← no_srvlist (srvs (wnet d)) (Some (srvlist n));
      if (none : bool) then Ok d
      else retry_srvlist wnet with_net (fun s d => '(_, d) ← udp_send_dummy now srcaddr s d; mret d)
             now dom interval d)
      (with_tries now (last_deactivate d) d).

Definition deactivate_server (now : Z) (dom s : ptr) (w : net) : comp net :=
  sn ← get_srv w s;
  if negb (inactive sn =? 0) then Ok w
  else if negb (send_time sn =? 0) && (forward_timeout cfg <? now - send_time sn) then
    let w := upd_srv (set_inactive now) s w in
    n ← get_dom w dom;
    if bool_decide (current n = Some s) then deactivate_current now w dom else Ok w
  else Ok w.

Definition deactivate_servers (now interval : Z) (d : daemon) : comp daemon :=
  let d := if last_deactivate d =? 0 then with_tries (last_reactivate d) now d else d in
  if now - last_deactivate d <? interval then Ok d
  else
    each_domain (fun dom d =>
      n ← get_dom (wnet d) dom;
      w ← ring_iter srvs (deactivate_server now dom) (S (size (srvs (wnet d))))
            (srvlist n) (srvlist n) (wnet d);
      mret (with_net w d))
      (with_tries (last_reactivate d) now d).

(** The counters are logged and, if the settings say so, set to zero. *)
Definition reset_counts (d : daemon) : daemon :=
  with_qs (QS (queries (qs d)) (qlist_tail (qs d)) (total_queries (qs d)) 0 (upstream_sockets (qs d))
             (dropping (qs d)) (pool (qs d)) (fdmaster (qs d)) (maxsock (qs d)))
    (with_cs (with_counts 0 0 (cs d)) d).

Definition query_stats (now interval : Z) (d : daemon) : daemon :=
  if interval =? 0 then d
  else if last_query_stats d + interval <? now then
    let d := with_stats now (last_srv_stats d) d in
    if negb (stats_reset =? 0) then reset_counts d else d
  else d.

(** The lines about the servers are output; the test makes them appear only
    in the first seconds after 1970. *)
Definition srv_stats (now interval : Z) (d : daemon) : daemon :=
  if now <? last_srv_stats d + interval then with_stats (last_query_stats d) now d else d.

(** What [pselect] reports: an error (with whether it was a signal), or the
    datagrams that are ready on the sockets and on [isock]. *)
Inductive event :=
| SelectError (eintr : bool)
| Idle
| Ready (replies : gmap Z (option (in_addr * list Z)))
    (request : option (option (sockaddr * list Z))).

(** The walk over the queries: a reply deletes the query, and the walk goes
    on from the node before it. *)
Fixpoint reply_loop (fuel : nat) (now : Z) (addrs : list ptr) (q : ptr)
    (replies : gmap Z (option (in_addr * list Z))) (d : daemon) : comp daemon :=
  match fuel with
  | O => Fault NoFuel
  | S fuel' =>
      n ← next (queries (qs d)) q;
      if bool_decide (n = qlist) then Ok d
      else
        nd ← get_query (qs d) n;
        d ← match replies !! q_sock nd with
            | Some input => udp_handle_reply now (default 1%positive (head addrs)) q input d
            | None => mret d
            end;
        q ← next (queries (qs d)) q;
        reply_loop fuel' now (tail addrs) q replies d
  end.

Definition reply_fuel (d : daemon) : nat := timeout_fuel (qs d).

(** What comes before and after the handling of the event. *)
Definition maintain (now : Z) (srcaddr : sockaddr) (d : daemon) : comp daemon :=
  if reactivate_interval cfg =? 0 then mret d
  else
    d ← reactivate_servers now srcaddr (reactivate_interval cfg) d;
    if forward_timeout cfg =? 0 then mret d else deactivate_servers now 1 d.

Definition expire_all (now : Z) (d : daemon) : comp daemon :=
  c ← cache_expire now (cs d);
  st ← query_timeout now (qs d);
  mret (srv_stats now 10 (query_stats now stats_interval (with_qs st (with_cs c d)))).

(** One turn of [run]; [addrs] are the addresses the cache entries get. *)
Definition run_turn (now : Z) (srcaddr : sockaddr) (addrs : list ptr) (e : event) (d : daemon)
  : comp daemon :=
  d ← maintain now srcaddr d;
  match e with
  | SelectError eintr =>
      if (eintr : bool) then m ← master_reinit fs dom0 (ms d); mret (with_ms m d) else mret d
  | Idle => expire_all now d
  | Ready replies request =>
      d ← reply_loop (reply_fuel d) now addrs qlist replies d;
      d ← match request with
          | Some input => '(_, d) ← udp_handle_request now input d; mret d
          | None => mret d
          end;
      expire_all now d
  end.

End relay.

(** * Lemmas *)

Lemma recv_into_ok buf data : zlen data <= UDP_MAXSIZE -> UDP_MAXSIZE <= zlen buf ->
  recv_into buf data = (data ++ drop (length data) buf, zlen data).
Proof.
  intros H1 H2. unfold recv_into, UDP_MAXSIZE, zlen in *. rewrite take_ge by lia. done.
Qed.

Lemma check_reply_ok msg len fl : rd16 msg 2 = Ok fl -> 12 <= len ->
  Z.land fl MASK_Z = 0 -> Z.land fl MASK_QR <> 0 -> check_reply msg len = Ok 0.
Proof.
  intros Hfl Hl Hz Hqr. unfold check_reply. rewrite Hfl. cbn [mbind comp_bind].
  rewrite (proj2 (Z.ltb_ge _ _)), (proj2 (Z.eqb_eq _ _) Hz), (proj2 (Z.eqb_neq _ _) Hqr) by lia. done.
Qed.

Lemma split2 (l : list Z) : 2 <= zlen l -> exists a b m, l = a :: b :: m.
Proof. destruct l as [|a [|b m]]; unfold zlen; cbn; [lia|lia|eauto]. Qed.

(** * The choice of a server *)

(** The server of the domain after a choice: an active one of its list, or
    none and then the whole list is inactive. *)
Definition served (w : net) (dom : ptr) (n : domnode_t) (l : list ptr) (s : option ptr) : Prop :=
  doms w !! dom = Some (set_cur s n) /\ dom_ok w (set_cur s n) l /\
  match s with
  | Some s => s ∈ l /\ active (srvs w) s = true
  | None => forall s, s ∈ l -> active (srvs w) s = false
  end.

Lemma set_cur_twice a b n : set_cur a (set_cur b n) = set_cur a n.
Proof. done. Qed.

Lemma set_current_served w dom n l : doms w !! dom = Some n -> dom_ok w n l ->
  exists s, next_active w dom = Ok s /\ served (set_current w dom s) dom n l s.
Proof.
  intros Hd Hok. pose proof (dom_ok_perm _ _ _ Hok) as Hperm. pose proof Hok as (Hr & Hs & _).
  exists (first_active (srvs w) (try_order (current n) l)). split; [by apply next_active_ok|].
  split; [cbn; by rewrite lookup_alter_eq, Hd|].
  destruct (first_active _ _) as [s|] eqn:Hfa.
  - apply first_active_Some in Hfa as [Hin Ha]. rewrite Hperm in Hin. by split.
  - apply first_active_None in Hfa. rewrite Forall_forall in Hfa. split; [by split_and!|].
    intros s Hin. apply Hfa. by rewrite Hperm.
Qed.

Lemma deactivate_served now w dom n l c : now <> 0 -> served w dom n l (Some c) ->
  exists w' s, deactivate_current now w dom = Ok w' /\ served w' dom n l s /\
    srvs w' = alter (set_inactive now) c (srvs w).
Proof.
  intros Hnow (Hd & Hok & Hin & _).
  destruct (deactivate_current_ok now w dom (set_cur (Some c) n) c l) as (w' & s & He & Hd' & Hsr & Hok' & Hm);
    [done..|].
  rewrite set_cur_twice in *. exists w', s. split; [done|]. split; [|done]. split; [done|]. split; [done|].
  destruct s as [s|].
  - destruct Hm as (Hs & Hne & Ha). split; [done|].
    unfold active in *. by rewrite Hsr, lookup_alter_ne.
  - intros x Hx. unfold active. rewrite Hsr. destruct (decide (x = c)) as [->|Hne].
    + rewrite lookup_alter_eq. destruct (srvs w !! c); cbn; [by apply Z.eqb_neq|done].
    + rewrite lookup_alter_ne by done. by apply Hm.
Qed.

Lemma choose_server_ok cfg now dom w n l : now <> 0 -> doms w !! dom = Some n -> dom_ok w n l ->
  exists w' s, choose_server cfg now dom w = Ok w' /\ served w' dom n l s.
Proof.
  intros Hnow Hd Hok. unfold choose_server, get_dom. rewrite Hd. cbn [of_option mbind comp_bind].
  assert (exists w1 s1, (if negb (roundrobin n =? 0) then s ← next_active w dom; mret (set_current w dom s)
       else s ← next_active (set_current w dom None) dom;
            mret (set_current (set_current w dom None) dom s)) = Ok w1 /\
    served w1 dom n l s1) as (w1 & s1 & -> & Hs1).
  { case_if.
    - destruct (set_current_served w dom n l Hd Hok) as (s & -> & Hs). cbn [mbind comp_bind]. eauto.
    - destruct Hok as (Hr & Hsr & _).
      destruct (set_current_served (set_current w dom None) dom (set_cur None n) l) as (s & Hs & Hsv).
      { cbn. by rewrite lookup_alter_eq, Hd. } { by split_and!. }
      rewrite Hs. cbn [mbind comp_bind]. do 2 eexists. split; [done|]. exact Hsv. }
  cbn [mbind comp_bind]. pose proof Hs1 as (Hd1 & Hok1 & Hm). rewrite Hd1. cbn [of_option mbind comp_bind set_cur current].
  destruct s1 as [c|]; [|eauto].
  destruct (ring_elem _ _ _ c (proj1 Hok1)) as [sn Hsn]; [right; apply Hm|].
  unfold get_srv. rewrite Hsn. cbn [of_option mbind comp_bind].
  case_if; [|eauto]. destruct (deactivate_served now w1 dom n l c Hnow Hs1) as (w' & s & -> & Hs & _). eauto.
Qed.

(** The failure reply: response and authoritative bits, recursion available,
    code 2, the rest of the message unchanged. *)
Definition srvfail (msg : list Z) : list Z :=
  <[3%nat := 0x82]> (<[2%nat := u8 (Z.lor (default 0 (msg !! 2%nat)) 0x84)]> msg).

Lemma set_srvfail_ok msg len : 4 <= len <= zlen msg -> set_srvfail msg len = Ok (Some (srvfail msg)).
Proof.
  intros H. unfold set_srvfail. rewrite (proj2 (Z.ltb_ge _ _)) by lia.
  destruct (rd_ok msg 2) as (b & -> & Hb); [lia|]. cbn [mbind comp_bind].
  rewrite wr_ok by lia. cbn [mbind comp_bind].
  rewrite wr_ok by (unfold zlen in *; rewrite length_insert; lia). cbn [mbind comp_bind].
  unfold srvfail. change (Z.to_nat 2) with 2%nat in *. change (Z.to_nat 3) with 3%nat. by rewrite Hb.
Qed.

(** The servers of [l] that are still active. *)
Definition alive (w : net) (l : list ptr) : list ptr := filter (fun s => active (srvs w) s) l.

Lemma alive_deactivate w w' c now l : now <> 0 -> srvs w' = alter (set_inactive now) c (srvs w) ->
  c ∈ l -> active (srvs w) c = true -> (length (alive w' l) < length (alive w l))%nat.
Proof.
  intros Hnow Hw Hc Ha. unfold alive.
  assert (forall x, x <> c -> active (srvs w') x = active (srvs w) x) as Hne
    by (intros x Hx; unfold active; rewrite Hw; by rewrite lookup_alter_ne).
  assert (active (srvs w') c = false) as Hcf.
  { unfold active. rewrite Hw, lookup_alter_eq. destruct (srvs w !! c); cbn; [by apply Z.eqb_neq|done]. }
  assert (forall k, (length (filter (fun s => active (srvs w') s) k) <= length (filter (fun s => active (srvs w) s) k))%nat) as Hle.
  { induction k as [|x k IH]; [done|]. rewrite !filter_cons.
    destruct (decide (x = c)) as [->|Hx]; [rewrite Hcf, Ha|rewrite Hne by done];
      repeat case_decide; cbn [length]; try lia; exfalso; auto. }
  apply list_elem_of_split in Hc as (l1 & l2 & ->).
  rewrite !filter_app, !length_app, !filter_cons, Hcf, Ha.
  rewrite decide_False, decide_True by auto. cbn [length].
  pose proof (Hle l1). pose proof (Hle l2). lia.
Qed.

Lemma udp_send_ok now sock c msg len d s : srvs (wnet d) !! c = Some s ->
  exists rc d', udp_send now sock c msg len d = Ok (rc, d') /\ qs d' = qs d /\
    doms (wnet d') = doms (wnet d) /\ size (srvs (wnet d')) = size (srvs (wnet d)) /\
    (forall x, active (srvs (wnet d')) x = active (srvs (wnet d)) x) /\
    (forall h k, ring (srvs (wnet d)) h k -> ring (srvs (wnet d')) h k) /\
    sent d' = sent d ++ [(sock, (addr s, 53), take (Z.to_nat len) msg)].
Proof.
  intros Hs. unfold udp_send, get_srv. rewrite Hs. cbn [of_option mbind comp_bind sendto].
  case_if; (do 2 eexists; split; [done|]).
  { by split_and!. }
  cbn [wnet with_net qs sent]. split; [done|]. split; [done|]. split.
  { cbn. rewrite <- !(size_dom (D := gset ptr)). by rewrite dom_alter_L. }
  split; [|split; [|done]].
  - intros x. unfold active. cbn. destruct (decide (x = c)) as [->|Hne].
    + rewrite lookup_alter_eq, Hs. cbn. by case_if.
    + by rewrite lookup_alter_ne.
  - intros h k. apply upd_srv_ring. intros y. by destruct (send_time y =? 0).
Qed.

Lemma reply_delivers isock y0 now a d l1 q l2 pre lc n s dom data fl :
  qinv (qs d) (l1 ++ q :: l2) pre -> cinv (cs d) lc -> entries (cs d) !! a = None ->
  queries (qs d) !! q = Some n -> q_domain n = Some dom -> is_u16 (client_qid n) ->
  srvs (wnet d) !! q_srv n = Some s ->
  zlen (rr_name y0) = RR_NAMESIZE -> 0 ∈ rr_name y0 ->
  bytes data -> 12 <= zlen data <= UDP_MAXSIZE -> bytes (rep_msg d) -> UDP_MAXSIZE <= zlen (rep_msg d) ->
  rd16 data 2 = Ok fl -> Z.land fl MASK_Z = 0 -> Z.land fl MASK_QR <> 0 ->
  exists d' lc', udp_handle_reply isock y0 now a (before qlist l1) (Some (addr s, data)) d = Ok d' /\
    sent d' = sent d ++ [(isock, client n, [lo8 (client_qid n); hi8 (client_qid n)] ++ drop 2 data)] /\
    qinv (qs d') (l1 ++ l2) pre /\ cinv (cs d') lc' /\
    srvs (wnet d') !! q_srv n = Some (set_inactive 0 (set_send_time 0 s)).
Proof.
  intros Hq Hc Ha Hn Hd Hcid Hs Hy Hy0 Hb Hlen Hrb Hrl Hfl Hz Hqr.
  unfold udp_handle_reply. rewrite (ring_next_before _ _ _ _ (qi_ring _ _ _ Hq)).
  change (default qlist (list.head (q :: l2))) with q. cbn [mbind comp_bind].
  unfold get_query. rewrite Hn. cbn [of_option mbind comp_bind].
  unfold reply_recv. rewrite recv_into_ok by lia. unfold get_srv. rewrite Hs. cbn [of_option mbind comp_bind].
  rewrite bool_decide_true by done. cbn [mbind comp_bind].
  rewrite (proj2 (Z.ltb_ge _ _)) by lia.
  set (msg := data ++ drop (length data) (rep_msg d)).
  rewrite (check_reply_ok msg (zlen data) fl); [|by apply rd16_app_l|lia|done|done]. cbn [mbind comp_bind].
  change (0 <? 0) with false. cbv iota. rewrite Hd.
  assert (bytes msg) as Hbm by (apply Forall_app; split; [done|by apply Forall_drop]).
  assert (zlen data <= zlen msg) as Hlm by (unfold msg; rewrite zlen_app; pose proof (zlen_nonneg (drop (length data) (rep_msg d))); lia).
  destruct (cache_dnspacket_total y0 a now msg (zlen data) (q_srv n) (cs d) lc) as (c' & lc' & Hcd & Hc' & _);
    try done; [lia|]. cbn [cs with_rep]. rewrite Hcd. cbn [mbind comp_bind].
  destruct (split2 data) as (x & y & m & Hdata); [lia|].
  assert (msg = x :: y :: m ++ drop (length data) (rep_msg d)) as Hmsg by (unfold msg; by rewrite Hdata at 1).
  rewrite Hmsg, store_id_ok. cbn [mbind comp_bind]. unfold mret, comp_ret. cbn [mbind comp_bind sendto].
  unfold get_srv. cbn [wnet with_rep with_cs]. rewrite Hs. cbn [of_option mbind comp_bind].
  unfold delete_query. cbn [qs with_net with_rep with_cs].
  destruct (query_delete_next_ok _ _ _ _ _ Hq) as (q' & -> & Hq' & _). cbn [mbind comp_bind].
  do 2 eexists. split; [reflexivity|]. cbn [sent qs cs wnet with_qs with_net].
  split; [|split; [exact Hq'|split; [exact Hc'|]]].
  - do 3 f_equal. rewrite Hdata. cbn [drop]. unfold zlen. rewrite Nat2Z.id. cbn [length take app].
    do 2 f_equal. by rewrite take_app_length.
  - cbn. by rewrite lookup_alter_eq, Hs.
Qed.

(** * Properties *)

(** C32: a reply for an outstanding query goes back to the client that asked:
    one datagram is sent on the client socket, to the recorded client, and it
    is the server's reply with its identifier replaced by the client's.  The
    query leaves the list with its socket and identifier, the server counts
    as alive, and cache and list stay consistent. *)
Theorem reply_reaches_client isock y0 now a d l1 q l2 pre lc n s dom data fl :
  qinv (qs d) (l1 ++ q :: l2) pre -> cinv (cs d) lc -> entries (cs d) !! a = None ->
  queries (qs d) !! q = Some n -> q_domain n = Some dom -> is_u16 (client_qid n) ->
  srvs (wnet d) !! q_srv n = Some s ->
  zlen (rr_name y0) = RR_NAMESIZE -> 0 ∈ rr_name y0 ->
  bytes data -> 12 <= zlen data <= UDP_MAXSIZE -> bytes (rep_msg d) -> UDP_MAXSIZE <= zlen (rep_msg d) ->
  rd16 data 2 = Ok fl -> Z.land fl MASK_Z = 0 -> Z.land fl MASK_QR <> 0 ->
  exists d' lc', udp_handle_reply isock y0 now a (before qlist l1) (Some (addr s, data)) d = Ok d' /\
    sent d' = sent d ++ [(isock, client n, [lo8 (client_qid n); hi8 (client_qid n)] ++ drop 2 data)] /\
    qinv (qs d') (l1 ++ l2) pre /\ cinv (cs d') lc' /\
    srvs (wnet d') !! q_srv n = Some (set_inactive 0 (set_send_time 0 s)).
Proof. apply reply_delivers. Qed.

(** A query that neither the master nor the cache answers is forwarded to
    an active server of its domain; when no server of the domain is active
    after the choice, the client gets a server failure instead. *)
Theorem handle_query_forwards cfg fs domain_list ign y0 dom0 now msg len d m c dom n l :
  now <> 0 -> 4 <= len <= zlen msg ->
  master_lookup fs dom0 y0 msg len (ms d) = Ok (0, msg, m) ->
  cache_lookup ign (wnet d) y0 now msg len (cs d) = Ok (0, msg, c) ->
  search_subdomnode (wnet d) domain_list (drop 12 msg) len = Ok dom ->
  doms (wnet d) !! dom = Some n -> dom_ok (wnet d) n l -> l <> [] ->
  exists w s, served w dom n l s /\
    handle_query cfg fs domain_list ign y0 dom0 now msg len d =
      Ok (match s with
          | Some _ => (1, msg, len, Some dom, with_net w (with_cs c (with_ms m d)))
          | None => (0, srvfail msg, len, None, with_net w (with_cs c (with_ms m d)))
          end).
Proof.
  intros Hnow Hlen Hm Hc Hsub Hd Hok Hl. unfold handle_query. rewrite Hm. cbn [mbind comp_bind].
  change (0 <? 0) with false. cbv iota. cbn [wnet cs with_ms]. rewrite Hc. cbn [mbind comp_bind].
  change (0 <? 0) with false. cbv iota. cbn [wnet with_cs with_ms]. rewrite Hsub. cbn [mbind comp_bind].
  unfold get_dom. rewrite Hd. cbn [of_option mbind comp_bind].
  rewrite (no_srvlist_ring _ _ l) by apply Hok. cbn [mbind comp_bind]. rewrite bool_decide_false by done.
  destruct (choose_server_ok cfg now dom (wnet d) n l Hnow Hd Hok) as (w & s & -> & Hs).
  exists w, s. split; [done|]. cbn [mbind comp_bind]. destruct Hs as (Hd' & _). rewrite Hd'.
  cbn [of_option mbind comp_bind set_cur current]. destruct s; [done|].
  unfold reply_srvfail. by rewrite set_srvfail_ok.
Qed.

Lemma send2current_loop_ok cfg now dom n l q sock msg len : now <> 0 -> reactivate_interval cfg <> 0 ->
  forall fuel d s, served (wnet d) dom n l s -> (length (alive (wnet d) l) < fuel)%nat ->
  exists rc d' s', send2current_loop cfg fuel now q dom sock msg len d = Ok (rc, d') /\
    qs d' = qs d /\ served (wnet d') dom n l s' /\
    match s' with
    | Some c => rc = len /\ exists sn, last (sent d') = Some (sock, (addr sn, 53), take (Z.to_nat len) msg)
    | None => rc = 0
    end.
Proof.
  intros Hnow Hri. induction fuel as [|fuel IH]; intros d s Hs Hf; [lia|].
  cbn [send2current_loop]. pose proof Hs as (Hd & Hok & Hm). unfold get_dom. rewrite Hd.
  cbn [of_option mbind comp_bind set_cur current]. destruct s as [c|]; [|by exists 0, d, None].
  destruct Hm as [Hc Ha].
  destruct (ring_elem _ _ _ c (proj1 Hok)) as [sn Hsn]; [by right|].
  destruct (udp_send_ok now sock c msg len d sn Hsn) as (rc & d1 & -> & Hq1 & Hd1 & Hsz & Hact & Hring & Hsent).
  cbn [mbind comp_bind].
  assert (served (wnet d1) dom n l (Some c)) as Hs1.
  { split; [by rewrite Hd1|]. destruct Hok as (Hr & Hsen & Hcur). split; [|by rewrite Hact].
    split; [by apply Hring|]. by rewrite Hact. }
  case_if; zbool.
  - exists len, d1, (Some c). split; [done|]. split; [done|]. split; [done|]. split; [done|].
    exists sn. by rewrite Hsent, last_snoc.
  - rewrite (proj2 (Z.eqb_neq _ _) Hri). cbn [negb].
    destruct (deactivate_served now _ dom n l c Hnow Hs1) as (w' & s' & -> & Hs' & Hw). cbn [mbind comp_bind].
    destruct (IH (with_net w' d1) s' Hs') as (rc' & d' & s2 & He & Hq & H2).
    { cbn [wnet with_net]. assert (length (alive (wnet d1) l) = length (alive (wnet d) l)) as Hal.
      { unfold alive. f_equal. apply filter_bool_ext. intros; apply Hact. }
      pose proof (alive_deactivate (wnet d1) w' c now l Hnow Hw Hc ltac:(by rewrite Hact)). lia. }
    exists rc', d', s2. split; [done|]. split; [|done]. rewrite Hq. by cbn.
Qed.

(** Sending to a domain's servers ends when servers may be deactivated:
    each failing server is deactivated and the next one tried, until a send
    succeeds or no server of the domain is active; the query list is not
    touched. *)
Theorem send2current_fails_over cfg now q n qn dom l msg len d s :
  now <> 0 -> reactivate_interval cfg <> 0 ->
  queries (qs d) !! q = Some qn -> q_domain qn = Some dom ->
  served (wnet d) dom n l s ->
  exists rc d' s', send2current cfg now q msg len d = Ok (rc, d') /\
    qs d' = qs d /\ served (wnet d') dom n l s' /\
    match s' with
    | Some c => rc = len /\ exists sn, last (sent d') = Some (q_sock qn, (addr sn, 53), take (Z.to_nat len) msg)
    | None => rc = 0
    end.
Proof.
  intros Hnow Hri Hq Hdom Hs. unfold send2current, get_query. rewrite Hq. cbn [of_option mbind comp_bind].
  rewrite Hdom. apply (send2current_loop_ok cfg now dom n l q _ msg len Hnow Hri _ d s Hs).
  destruct Hs as (_ & (Hr & _) & _). apply ring_size in Hr.
  pose proof (length_filter (fun s => active (srvs (wnet d)) s) l). unfold alive. lia.
Qed.

(** * Witnesses *)

(** The example daemon: two servers behind the default domain, three
    outstanding queries of which the second is used, the example cache. *)
Definition demo_with (q : qstate) (ss : list Z) (os : list oscall) : daemon :=
  Daemon (Net two_servers (<[1%positive := Dom None 1%positive (Some 2%positive) 0 0 1%positive]> ∅))
    q demo_cache (MS [] 0 1 1 0) (replicate 516 0) (replicate 516 0) dummy_packet 0 0 0 0 ss os [].
Definition demo_daemon : daemon := Eval cbv beta delta [demo_with] in
  demo_with (with_queries (alter (set_owner (Some 1%positive) 2%positive) 3%positive) three_queries) [-1] [].

Lemma demo_daemon_queries : qinv (qs demo_daemon) [2%positive; 3%positive; 4%positive] [].
Proof. apply qinv_inert; [done|apply three_queries_inv]. Qed.

Lemma demo_served : served (wnet demo_daemon) 1%positive
  (Dom None 1%positive (Some 2%positive) 0 0 1%positive) [2%positive; 3%positive] (Some 2%positive).
Proof.
  split; [done|]. split; [split; [apply two_servers_ring|split; [done|by_decide]]|].
  split; [by_decide|done].
Qed.

Definition demo_node : query_t :=
  Query 6 2%positive (Some 1%positive) 65534 78 ((10, 0, 0, 9), 4000) 11 1 12 4%positive.

Lemma reply_reaches_client_witness :
  exists d' lc', udp_handle_reply 9 rr_blank 6000 13%positive 2%positive
      (Some ((10, 0, 0, 1), demo_reply)) demo_daemon = Ok d' /\
    sent d' = sent demo_daemon ++ [(9, ((10, 0, 0, 9), 4000), [lo8 78; hi8 78] ++ drop 2 demo_reply)] /\
    qinv (qs d') [2%positive; 4%positive] [] /\ cinv (cs d') lc' /\
    srvs (wnet d') !! 2%positive = Some (set_inactive 0 (set_send_time 0 (Srv (10, 0, 0, 1) 0 0 0 0 None 3%positive))).
Proof.
  apply (reply_reaches_client 9 rr_blank 6000 13%positive demo_daemon [2%positive] 3%positive [4%positive] []
    [10%positive; 11%positive; 12%positive] demo_node (Srv (10, 0, 0, 1) 0 0 0 0 None 3%positive)
    1%positive demo_reply 0x8180).
  - apply demo_daemon_queries.
  - apply demo_cache_inv.
  - done.
  - done.
  - done.
  - unfold is_u16. cbn. lia.
  - done.
  - by_decide.
  - by_decide.
  - by_decide.
  - by_decide.
  - cbn [rep_msg demo_daemon]. by_decide.
  - cbn [rep_msg demo_daemon]. by_decide.
  - vm_compute. reflexivity.
  - by_decide.
  - by_decide.
Defined.

Definition demo_cfg : config := Config 200 12 10.

Lemma handle_query_forwards_witness :
  exists w s, served w 1%positive (Dom None 1%positive (Some 2%positive) 0 0 1%positive) [2%positive; 3%positive] s /\
    handle_query demo_cfg demo_files 1%positive 0 rr_blank [] 6000 demo_d_query 23 demo_daemon =
      Ok (match s with
          | Some _ => (1, demo_d_query, 23, Some 1%positive,
                       with_net w (with_cs (with_counts 0 1 demo_cache) (with_ms (MS [] 0 1 1 0) demo_daemon)))
          | None => (0, srvfail demo_d_query, 23, None,
                       with_net w (with_cs (with_counts 0 1 demo_cache) (with_ms (MS [] 0 1 1 0) demo_daemon)))
          end).
Proof.
  apply (handle_query_forwards demo_cfg demo_files 1%positive 0 rr_blank [] 6000 demo_d_query 23 demo_daemon
    (MS [] 0 1 1 0) (with_counts 0 1 demo_cache) 1%positive
    (Dom None 1%positive (Some 2%positive) 0 0 1%positive) [2%positive; 3%positive]).
  - done.
  - by_decide.
  - cbn [ms demo_daemon]. vm_compute. reflexivity.
  - cbn [cs wnet demo_daemon]. vm_compute. reflexivity.
  - cbn [wnet demo_daemon]. vm_compute. reflexivity.
  - done.
  - split; [apply two_servers_ring|split; [done|by_decide]].
  - done.
Defined.

Lemma send2current_fails_over_witness :
  exists rc d' s', send2current demo_cfg 6000 3%positive demo_d_query 23 demo_daemon = Ok (rc, d') /\
    qs d' = qs demo_daemon /\
    served (wnet d') 1%positive (Dom None 1%positive (Some 2%positive) 0 0 1%positive) [2%positive; 3%positive] s' /\
    match s' with
    | Some c => rc = 23 /\ exists sn, last (sent d') = Some (6, (addr sn, 53), take (Z.to_nat 23) demo_d_query)
    | None => rc = 0
    end.
Proof.
  apply (send2current_fails_over demo_cfg 6000 3%positive _ demo_node 1%positive [2%positive; 3%positive]
    demo_d_query 23 demo_daemon (Some 2%positive)); [done|done|done|done|apply demo_served].
Defined.
