(* ===== verification/Daemon.v ===== *)
(** The whole relay (src/dnrd-2.20.3/src/relay.c, udp.c): the invariant of the
    daemon's state, its steps, and the proof that no reachable state faults. *)
From S2P Require Import Prelude CString Lib Dns Common Ring Srvnode Domnode Qid Query Cache Master Assembly Relay.
Set Warnings "-clear-no-such-hyp".

(** The domains of the command line: the list behind its head [t_head], and
    for each domain the sentinel of its servers and the servers.  They do not
    change while the daemon runs. *)
Record topology := Topo { t_head : ptr; t_doms : list ptr; t_list : ptr -> ptr; t_srvs : ptr -> list ptr }.

Section daemon.
Context (T : topology).

Definition is_domain (d : ptr) : Prop := d ∈ t_head T :: t_doms T.
Definition is_server (p : ptr) : Prop := exists d, is_domain d /\ p ∈ t_srvs T d.

(** * Servers and domains *)

Definition unprepared (h : gmap ptr srvnode_t) : Prop := forall p s, h !! p = Some s -> newquery s = None.

Record net_ok (w : net) : Prop := {
  no_ring : ring (doms w) (t_head T) (t_doms T);
  no_dom d : is_domain d -> exists n, doms w !! d = Some n /\ dom_ok w n (t_srvs T d);
  no_named : Forall (named w) (t_doms T);
  no_prepared : unprepared (srvs w);
  no_list d n : is_domain d -> doms w !! d = Some n -> srvlist n = t_list T d;
  no_sentinel d d' n : is_domain d -> is_domain d' -> doms w !! d' = Some n -> srvlist n ∉ t_srvs T d }.

Lemma net_server w p : net_ok w -> is_server p -> exists s, srvs w !! p = Some s.
Proof.
  intros Hw (d & Hd & Hp). destruct (no_dom _ Hw d Hd) as (n & _ & Hr & _).
  apply (ring_elem _ _ _ _ Hr). by right.
Qed.

(** The changes of a server that the relay makes: everything but its place
    and its prepared query. *)
Definition srv_inert (f : srvnode_t -> srvnode_t) : Prop :=
  forall s, nx (f s) = nx s /\ (newquery s = None -> newquery (f s) = None).

Lemma srv_inert_inactive v : srv_inert (set_inactive v). Proof. done. Qed.
Lemma srv_inert_newquery : srv_inert (set_newquery None). Proof. done. Qed.
Lemma srv_inert_comp f g : srv_inert f -> srv_inert g -> srv_inert (fun s => f (g s)).
Proof. intros Hf Hg s. destruct (Hg s) as [H1 H2], (Hf (g s)) as [H3 H4]. split; [congruence|auto]. Qed.

Lemma unprepared_upd f p w : srv_inert f -> unprepared (srvs w) -> unprepared (srvs (upd_srv f p w)).
Proof.
  intros Hf Hw q s. cbn. destruct (decide (q = p)) as [->|Hne].
  - rewrite lookup_alter_eq. destruct (srvs w !! p) as [s0|] eqn:E; cbn; [|done]. intros [= <-].
    apply Hf. by apply (Hw p).
  - rewrite lookup_alter_ne by done. apply Hw.
Qed.

Lemma net_ok_upd f p w : srv_inert f -> is_server p -> net_ok w -> net_ok (upd_srv f p w).
Proof.
  intros Hf (dp & Hdp & Hp) Hw. constructor.
  - apply Hw.
  - intros d Hd. destruct (no_dom _ Hw d Hd) as (n & Hn & Hr & Hs & Hc). exists n. split; [done|].
    split; [apply upd_srv_ring; [apply Hf|done]|]. split; [|done].
    rewrite active_upd_ne; [done|]. intros E. apply (no_sentinel _ Hw dp d n Hdp Hd Hn). by rewrite E.
  - apply Hw.
  - by apply unprepared_upd, Hw.
  - apply Hw.
  - apply Hw.
Qed.

(** A server of the domain, or none. *)
Definition of_domain (d : ptr) (s : option ptr) : Prop :=
  match s with Some s => s ∈ t_srvs T d | None => True end.

Lemma net_ok_cur d s w : is_domain d -> of_domain d s -> net_ok w -> net_ok (set_current w d s).
Proof.
  intros Hd Hs Hw. constructor.
  - apply (ring_ext (doms w)); [|apply Hw]. intros a _. cbn. rewrite lookup_alter.
    case_decide; [subst; by destruct (doms w !! a)|done].
  - intros d' Hd'. destruct (no_dom _ Hw d' Hd') as (n & Hn & Hr & Hsn & Hc). cbn.
    destruct (decide (d = d')) as [->|Hne].
    + exists (set_cur s n). rewrite lookup_alter_eq, Hn. split; [done|]. by split_and!.
    + exists n. rewrite lookup_alter_ne by done. split; [done|]. by split_and!.
  - eapply Forall_impl; [apply Hw|]. intros d' [x Hx]. unfold named. cbn.
    destruct (decide (d = d')) as [->|Hne]; [|rewrite lookup_alter_ne by done; by exists x].
    rewrite lookup_alter_eq. revert Hx. destruct (doms w !! d'); [by exists x|done].
  - apply Hw.
  - intros d' n Hd'. cbn. destruct (decide (d = d')) as [->|Hne].
    2: { rewrite lookup_alter_ne by done. by apply Hw. }
    rewrite lookup_alter_eq. destruct (doms w !! d') as [n2|] eqn:E; [|done]. intros [= <-].
    exact (no_list _ Hw d' n2 Hd' E).
  - intros d1 d2 n H1 H2. cbn. destruct (decide (d = d2)) as [->|Hne].
    2: { rewrite lookup_alter_ne by done. by apply Hw. }
    rewrite lookup_alter_eq. destruct (doms w !! d2) as [n2|] eqn:E; [|done]. intros [= <-]. exact (no_sentinel _ Hw d1 d2 n2 H1 H2 E).
Qed.

Lemma next_active_safe w d : is_domain d -> net_ok w ->
  exists s, next_active w d = Ok s /\ of_domain d s /\ forall p, s = Some p -> active (srvs w) p = true.
Proof.
  intros Hd Hw. destruct (no_dom _ Hw d Hd) as (n & Hn & Hok). rewrite (next_active_ok w d n _ Hn Hok).
  eexists. split; [done|]. destruct (first_active _ _) as [s|] eqn:E; [|done].
  apply first_active_Some in E as [Hs Ha]. split; [by rewrite (dom_ok_perm _ _ _ Hok) in Hs|by intros p [= <-]].
Qed.

(** What a failing or timed-out server costs: the candidates of the domain
    that are left, one more if the current one is not among them. *)
Definition candidates (w : net) (d : ptr) (n : domnode_t) : nat :=
  length (alive w (t_srvs T d)) +
  match current n with Some c => if active (srvs w) c then 0 else 1 | None => 0 end.

Lemma deactivate_current_safe now w d : now <> 0 -> is_domain d -> net_ok w ->
  exists w', deactivate_current now w d = Ok w' /\ net_ok w' /\ size (srvs w') = size (srvs w) /\
    forall n c, doms w !! d = Some n -> current n = Some c ->
      exists n', doms w' !! d = Some n' /\ (candidates w' d n' < candidates w d n)%nat.
Proof.
  intros Hnow Hd Hw. destruct (no_dom _ Hw d Hd) as (n & Hn & Hok). pose proof Hok as (_ & _ & Hc).
  unfold deactivate_current, get_dom. rewrite Hn. cbn [of_option mbind comp_bind].
  set (w1 := match current n with Some c => _ | None => w end).
  assert (net_ok w1) as Hw1.
  { unfold w1. destruct (current n) as [c|]; [|done]. apply net_ok_upd; [done|by exists d|done]. }
  assert (size (srvs w1) = size (srvs w) /\ doms w1 !! d = Some n) as [Hsz Hn1].
  { unfold w1. destruct (current n); [|done]. cbn. split; [|done].
    rewrite <- !(size_dom (D := gset ptr)). by rewrite dom_alter_L. }
  destruct (next_active_safe w1 d Hd Hw1) as (s & -> & Hs & Ha). cbn [mbind comp_bind].
  eexists. split; [done|]. split; [by apply net_ok_cur|]. split; [done|].
  intros n0 c Hn0 Hcur. assert (n0 = n) as -> by congruence. exists (set_cur s n). cbn [set_current doms].
  rewrite lookup_alter_eq, Hn1. split; [done|]. unfold candidates. cbn [set_cur current].
  change (alive (set_current w1 d s) (t_srvs T d)) with (alive w1 (t_srvs T d)).
  change (srvs (set_current w1 d s)) with (srvs w1).
  assert (match s with Some c => if active (srvs w1) c then 0 else 1 | None => 0 end = 0)%nat as ->
    by (destruct s as [p|]; [by rewrite (Ha p)|done]).
  rewrite Hcur in Hc |- *. unfold w1. rewrite Hcur. rewrite Nat.add_0_r.
  destruct (active (srvs w) c) eqn:Eac.
  - pose proof (alive_deactivate w (upd_srv (set_inactive now) c w) c now (t_srvs T d) Hnow eq_refl Hc Eac). lia.
  - assert (alive (upd_srv (set_inactive now) c w) (t_srvs T d) = alive w (t_srvs T d)) as ->; [|lia].
    unfold alive. apply filter_bool_ext. intros x _. destruct (decide (x = c)) as [->|Hne].
    + by rewrite active_upd_inactive.
    + by rewrite active_upd_ne.
Qed.

Lemma choose_server_safe cfg now w d : now <> 0 -> is_domain d -> net_ok w ->
  exists w', choose_server cfg now d w = Ok w' /\ net_ok w'.
Proof.
  intros Hnow Hd Hw. destruct (no_dom _ Hw d Hd) as (n & Hn & _).
  unfold choose_server, get_dom. rewrite Hn. cbn [of_option mbind comp_bind].
  assert (exists w1, (if negb (roundrobin n =? 0) then s ← next_active w d; mret (set_current w d s)
       else s ← next_active (set_current w d None) d;
            mret (set_current (set_current w d None) d s)) = Ok w1 /\ net_ok w1) as (w1 & -> & Hw1).
  { case_if.
    - destruct (next_active_safe w d Hd Hw) as (s & -> & Hs & _). cbn [mbind comp_bind].
      eexists. split; [done|]. by apply net_ok_cur.
    - assert (net_ok (set_current w d None)) as Hw0 by (by apply net_ok_cur).
      destruct (next_active_safe _ d Hd Hw0) as (s & -> & Hs & _). cbn [mbind comp_bind].
      eexists. split; [done|]. by apply net_ok_cur. }
  cbn [mbind comp_bind]. destruct (no_dom _ Hw1 d Hd) as (n1 & Hn1 & _ & _ & Hc1). rewrite Hn1.
  cbn [of_option mbind comp_bind]. destruct (current n1) as [c|]; [|eauto].
  destruct (net_server w1 c Hw1) as [s Hs]; [by exists d|]. unfold get_srv. rewrite Hs. cbn [of_option mbind comp_bind].
  case_if; [|eauto]. destruct (deactivate_current_safe now w1 d Hnow Hd Hw1) as (w2 & -> & Hw2 & _). eauto.
Qed.

Lemma search_subdomnode_safe w name maxlen : net_ok w -> 0 ∈ name ->
  exists d, search_subdomnode w (t_head T) name maxlen = Ok d /\ is_domain d.
Proof.
  intros Hw Hl. unfold search_subdomnode.
  assert (exists n, strnlen_buf name maxlen = Ok n) as [n ->].
  { intros. unfold strnlen_buf. case_if; [eauto|]. zbool. rewrite (proj2 (Z.ltb_lt _ _)) by (by apply cstr_short). eauto. }
  cbn [mbind comp_bind]. pose proof (ring_size _ _ _ (no_ring _ Hw)).
  pose proof (search_sub_loop_ok (S (size (doms w))) w (t_head T) (take (Z.to_nat n) name) maxlen [] (t_doms T)
    (t_head T) 0) as Hs. cbn [app] in Hs. change (before (t_head T) []) with (t_head T) in Hs.
  rewrite Hs by (apply Hw || lia). destruct (best_sub _ _ _ _ _ _) as [c m] eqn:E. eexists. split; [done|].
  apply best_sub_spec in E as (_ & [[-> _]|[Hc _]] & _); [by left|by right].
Qed.

(** * Queries *)

Definition query_ok (n : query_t) : Prop :=
  is_server (q_srv n) /\ match q_domain n with Some d => is_domain d | None => True end.

Definition queries_ok (st : qstate) (l : list ptr) : Prop :=
  Forall (fun p => exists n, queries st !! p = Some n /\ query_ok n) l.

Lemma queries_ok_core st st' l l' : (forall a, a ∈ l' -> a ∈ l /\ core <$> queries st' !! a = core <$> queries st !! a) ->
  queries_ok st l -> queries_ok st' l'.
Proof.
  unfold queries_ok. rewrite !Forall_forall. intros Hc Hl a Ha. destruct (Hc a Ha) as [Hal Hca].
  destruct (Hl a Hal) as (n & Hn & Hok). rewrite Hn in Hca. destruct (queries st' !! a) as [n'|]; [|done].
  exists n'. split; [done|]. cbn in Hca. injection Hca as ? Hs Hd _ _ _ _ _. unfold query_ok. by rewrite Hs, Hd.
Qed.

(** What the operating system promises of the results it has ready: a
    successful call gives a fresh address and a fresh socket, and the socket
    fits an [fd_set] (nothing in the program sees to that: with a pool of more
    than [FD_SETSIZE] sockets [query_create] can write behind one). *)
Definition os_ok (st : qstate) (o : oscall) : Prop :=
  0 <= os_socket o ->
  queries st !! os_addr o = None /\ (os_socket o ∉ fdmaster st) /\ os_socket o < FD_SETSIZE.

Definition os_list_ok (st : qstate) (os : list oscall) : Prop :=
  Forall (os_ok st) os /\
  NoDup (os_addr <$> filter (fun o => 0 <= os_socket o) os) /\
  NoDup (os_socket <$> filter (fun o => 0 <= os_socket o) os).

(** [st'] has used up at most the result [o]. *)
Definition used_os (o : oscall) (st st' : qstate) : Prop :=
  (forall a, queries st' !! a <> None -> queries st !! a <> None \/ a = os_addr o /\ 0 <= os_socket o) /\
  (forall k, k ∈ fdmaster st' -> k ∈ fdmaster st \/ k = os_socket o /\ 0 <= os_socket o).

Lemma os_list_next st st' o os : os_list_ok st (o :: os) -> used_os o st st' -> os_list_ok st' os.
Proof.
  intros (Hf & Ha & Hs) (Hq & Hk). apply Forall_cons in Hf as [_ Hf]. rewrite filter_cons in Ha, Hs.
  split; [|by case_decide; [apply NoDup_cons in Ha as [_ Ha]; apply NoDup_cons in Hs as [_ Hs]|]].
  rewrite Forall_forall in *. intros x Hx Hx0. destruct (Hf x Hx Hx0) as (H1 & H2 & H3).
  assert (x ∈ filter (fun o => 0 <= os_socket o) os) as Hxf by (by apply list_elem_of_filter).
  split_and!; [| |done].
  - destruct (queries st' !! os_addr x) eqn:E; [|done]. destruct (Hq (os_addr x)) as [?|[Heq Ho]]; [congruence|done|].
    rewrite decide_True in Ha by done. apply NoDup_cons in Ha as [Ha _]. exfalso. apply Ha. rewrite <- Heq.
    by apply list_elem_of_fmap_2.
  - intros Hin. destruct (Hk _ Hin) as [?|[Heq Ho]]; [done|].
    rewrite decide_True in Hs by done. apply NoDup_cons in Hs as [Hs _]. apply Hs. rewrite <- Heq.
    by apply list_elem_of_fmap_2.
Qed.

(** The state behind [query_add]: the list is in order, and the query in use
    is a new one or one that had the same client identifier. *)
Record added (st : qstate) (l : list ptr) (o : oscall) (d : option ptr) (id : Z)
    (prev : option ptr) (w' : net) (st' : qstate) (l' : list ptr) : Prop := {
  ad_inv : qinv st' l' [];
  ad_ok : queries_ok st' l';
  ad_net : net_ok w';
  ad_used : used_os o st st';
  ad_place : match prev with
    | None => True
    | Some p => exists l1 q l2 n, l' = l1 ++ q :: l2 /\ p = before qlist l1 /\ queries st' !! q = Some n /\
        (q_domain n = d \/ (q ∈ l) /\ exists n0, queries st !! q = Some n0 /\ client_qid n0 = id /\
           q_domain n = q_domain n0)
    end }.

Lemma used_os_same o st st' : (forall a, core <$> queries st' !! a = core <$> queries st !! a) ->
  fdmaster st' = fdmaster st -> used_os o st st'.
Proof.
  intros Hc Hf. split; [|rewrite Hf; auto]. intros a Ha. left. specialize (Hc a).
  destruct (queries st !! a); [done|]. by destruct (queries st' !! a).
Qed.

Lemma load_id_ok msg : 2 <= zlen msg -> exists a b m, msg = a :: b :: m /\ load_id msg = Ok (a + 256 * b).
Proof. intros H. destruct (split2 msg H) as (a & b & m & ->). by exists a, b, m. Qed.

(** Nothing is added: the limit is reached or there is no socket. *)
Lemma not_added w st st' l o d id : qinv st l [] -> queries_ok st l -> net_ok w ->
  st' = st \/ st' = QS (queries st) (qlist_tail st) (total_queries st) (total_timeouts st)
                 (upstream_sockets st) 0 (pool st) (fdmaster st) (maxsock st) ->
  added st l o d id None w st' l.
Proof.
  intros Hi Hok Hw Hst. assert (qinv st' l [] /\ queries st' = queries st /\ fdmaster st' = fdmaster st) as (Hi' & Hq & Hf).
  { destruct Hst as [->| ->]; [done|]. by destruct Hi. }
  constructor; try done.
  - apply (queries_ok_core st st' l); [|done]. intros a Ha. by rewrite Hq.
  - apply used_os_same; [|done]. intros a. by rewrite Hq.
Qed.

Lemma query_add_repeated now st l k1 y k2 o d id w n0 : qinv st l [] -> queries_ok st l -> net_ok w ->
  l = k1 ++ y :: k2 -> queries st !! y = Some n0 -> client_qid n0 = id ->
  added st l o d id (Some (before qlist k1)) w (with_queries (alter (touch now) y) st) l.
Proof.
  intros Hi Hok Hw Hl Hy Hid.
  assert (forall a, q_srv <$> alter (touch now) y (queries st) !! a = q_srv <$> queries st !! a) as Hs
    by (intros; by apply (alter_proj q_srv)).
  assert (forall a, q_domain <$> alter (touch now) y (queries st) !! a = q_domain <$> queries st !! a) as Hd
    by (intros; by apply (alter_proj q_domain)).
  constructor.
  - by apply qinv_inert.
  - unfold queries_ok in *. rewrite Forall_forall in *. intros a Ha. destruct (Hok a Ha) as (n & Hn & Hns & Hnd).
    specialize (Hs a). specialize (Hd a). cbn [queries with_queries]. rewrite Hn in Hs, Hd.
    destruct (alter (touch now) y (queries st) !! a) as [n'|]; [|done]. cbn in Hs, Hd. injection Hs as Hs. injection Hd as Hd.
    exists n'. split; [done|]. unfold query_ok. by rewrite Hs, Hd.
  - done.
  - split; [|auto]. intros a. cbn [queries with_queries]. rewrite lookup_alter. case_decide; [subst|auto].
    left. congruence.
  - exists k1, y, k2, (touch now n0). split; [done|]. split; [done|]. cbn [queries with_queries].
    rewrite lookup_alter_eq, Hy. split; [done|]. right. split; [set_solver|]. by exists n0.
Qed.

Lemma query_add_fresh cfg os now d srv cl id w st l : qinv st l [] -> queries_ok st l -> net_ok w ->
  is_server srv -> match d with Some d => is_domain d | None => True end ->
  upstream_sockets st < max_sockets cfg <= QID_POOL_SIZE -> os_ok st os -> 0 <= os_socket os ->
  exists st1 n h', query_create cfg os d srv st = Ok (Some (os_addr os), st1) /\
    let st2 := with_queries (alter (set_client id cl now) (os_addr os)) (with_queries (alter (set_owner d srv) (os_addr os)) st1) in
    queries st2 !! os_addr os = Some n /\ qlist_tail st2 = qlist_tail st /\
    ins_after (queries st2) (qlist_tail st2) (os_addr os) = Ok h' /\
    added st l os d id (Some (qlist_tail st)) (upd_srv (set_newquery None) srv w)
      (with_tail (os_addr os) (with_queries (fun _ => h') st2)) (l ++ [os_addr os]).
Proof.
  intros Hi Hok Hw Hsrv Hd Hmax Hos Hs0. destruct (Hos Hs0) as (Hfr & Hsk & Hfd).
  destruct (query_create_ok cfg os d srv st l [] Hi Hmax Hfr (conj Hs0 Hfd) Hsk)
    as (st1 & n & He & Hi1 & _ & Hq1 & Ht1 & _ & _ & Hf1).
  set (p := os_addr os) in *. 
  set (st2 := with_queries (alter (set_client id cl now) p) (with_queries (alter (set_owner d srv) p) st1)).
  assert (qinv st2 l [p]) as Hi2 by (repeat apply qinv_inert; done).
  assert (queries st2 !! p = Some (set_client id cl now (set_owner d srv n))) as Hn2.
  { cbn. by rewrite lookup_alter_eq, lookup_alter_eq, Hq1, lookup_insert_eq. }
  destruct (qinv_link _ _ _ _ Hi2) as (h' & Hins & Hi3 & Hcs).
  exists st1, (set_client id cl now (set_owner d srv n)), h'. split; [exact He|]. cbv zeta. fold st2.
  split; [done|]. split; [exact Ht1|]. split; [exact Hins|].
  assert (forall a, a <> p -> core <$> h' !! a = core <$> queries st !! a) as Hother.
  { intros a Ha. rewrite Hcs. cbn. rewrite !lookup_alter_ne by done. by rewrite Hq1, lookup_insert_ne. }
  specialize (Hcs p). rewrite Hn2 in Hcs. destruct (h' !! p) as [n3|] eqn:Hn3; [|done].
  cbn in Hcs. injection Hcs as Hsk3 Hs3 Hd3 _ Hid3 _ _ _ _.
  constructor; cbn [queries with_tail with_queries qlist_tail fdmaster].
  - exact Hi3.
  - apply Forall_app. split.
    + apply (queries_ok_core st _ l); [|done]. intros a Ha. split; [done|]. apply Hother. intros ->.
      destruct (ring_elem _ _ _ p (qi_ring _ _ _ Hi)); [by right|congruence].
    + constructor; [|done]. exists n3. split; [done|]. split; [by rewrite Hs3|]. by rewrite Hd3.
  - apply net_ok_upd; [apply srv_inert_newquery|done|done].
  - split.
    + intros a Ha. cbn [queries with_tail with_queries] in Ha. destruct (decide (a = p)) as [->|Hne]; [by right|]. left. specialize (Hother a Hne).
      destruct (queries st !! a); [done|]. by destruct (h' !! a).
    + cbn. rewrite Hf1. intros k [->%elem_of_singleton|Hk]%elem_of_union; auto.
  - exists l, p, [], n3. split; [done|]. split; [apply (qi_tail _ _ _ Hi)|]. split; [done|]. by left.
Qed.

Lemma query_add_safe cfg os now d srv cl msg w st l : qinv st l [] -> queries_ok st l -> net_ok w ->
  is_server srv -> match d with Some d => is_domain d | None => True end ->
  max_sockets cfg <= QID_POOL_SIZE -> os_ok st os -> bytes msg -> 2 <= zlen msg ->
  exists prev msg' w' st' l' id, load_id msg = Ok id /\
    query_add cfg os now d srv cl msg w st = Ok (prev, msg', w', st') /\
    bytes msg' /\ zlen msg' = zlen msg /\ spare msg' = spare msg /\ added st l os d id prev w' st' l'.
Proof.
  intros Hi Hok Hw Hsrv Hd Hmax Hos Hb Hl. destruct (load_id_ok msg Hl) as (a & b & m & -> & Hid).
  assert (bytes m) as Hm by (by apply Forall_cons in Hb as [_ [_ ?]%Forall_cons]).
  assert (forall v, bytes (lo8 v :: hi8 v :: m)) as Hbv by (intros; repeat constructor; auto with dnrd; apply lo8_byte || apply hi8_byte).
  unfold query_add. rewrite Hid. cbn [mbind comp_bind]. set (id := a + 256 * b) in *.
  destruct (find_client_ok (S (size (queries st))) st [] l id) as [[Hf _]|(k1 & y & k2 & Hl2 & Hy & _ & Hf)].
  { by apply Hi. } { pose proof (ring_size _ _ _ (qi_ring _ _ _ Hi)). lia. }
  - change (before qlist []) with qlist in Hf. rewrite Hf. cbn [mbind comp_bind].
    unfold query_get_new, get_srv. destruct (net_server w srv Hw Hsrv) as [s Hs]. rewrite Hs. cbn [of_option mbind comp_bind].
    rewrite (no_prepared _ Hw srv s Hs).
    destruct (decide (max_sockets cfg <= upstream_sockets st)) as [Hful|Hroom].
    { unfold query_create. rewrite (proj2 (Z.leb_le _ _)) by done. cbn [mbind comp_bind].
      exists None, (a :: b :: m), w, st, l, id. split_and!; try done. apply not_added; auto. }
    destruct (decide (0 <= os_socket os)) as [Hs0|Hs0].
    2: { unfold query_create. rewrite (proj2 (Z.leb_gt _ _)), (proj2 (Z.ltb_lt _ _)) by lia. cbn [mbind comp_bind].
         do 4 eexists. exists l, id. split; [done|]. split; [done|]. split_and!; try done. apply not_added; auto. }
    destruct (query_add_fresh cfg os now d srv cl id w st l) as (st1 & n & h' & He & Hn & Ht & Hins & Had);
      [done..|lia|done|done|].
    rewrite He. cbn [mbind comp_bind]. cbv zeta in Hn, Ht, Hins, Had. unfold get_query. rewrite Hn. cbn [of_option mbind comp_bind].
    rewrite store_id_ok. cbn [mbind comp_bind]. rewrite Hins. cbn [mbind comp_bind].
    do 4 eexists. exists (l ++ [os_addr os]), id. split; [done|]. split; [done|]. rewrite Ht. by split_and!.
  - change (before qlist []) with qlist in Hf. rewrite Hf. cbn [mbind comp_bind app].
    pose proof (qi_ring _ _ _ Hi) as Hr. rewrite Hl2 in Hr. rewrite (ring_next_before _ _ _ _ Hr).
    change (default qlist (list.head (y :: k2))) with y. cbn [mbind comp_bind].
    destruct (queries st !! y) as [n0|] eqn:Hn0; [|done]. cbn in Hy. injection Hy as Hy.
    unfold get_query. rewrite Hn0. cbn [of_option mbind comp_bind]. rewrite store_id_ok. cbn [mbind comp_bind].
    do 4 eexists. exists l, id. do 5 (split; [done|]).
    by apply (query_add_repeated now st l k1 y k2 os d id w n0).
Qed.

(** * Cache *)

(** What the daemon's cache entries promise beyond [entry_ok]: the answer
    fits a message, its server exists, its time fits the comparison. *)
Definition cached (c : cache_t) : Prop :=
  h_len (cp c) <= UDP_MAXSIZE /\ bytes (h_packet (cp c)) /\ is_server (server c) /\ 0 <= lastused c < 2 ^ 31.

Definition cached_at (st : cstate) (p : ptr) : Prop := exists c, entries st !! p = Some c /\ cached c.

Record cache_ok (st : cstate) (l : list ptr) : Prop := {
  co_inv : cinv st l;
  co_cached : Forall (cached_at st) l;
  co_waters : 0 <= cache_lowwater st <= cache_highwater st }.

Lemma cached_at_data st st' p : data <$> entries st' !! p = data <$> entries st !! p -> cached_at st p -> cached_at st' p.
Proof.
  intros Hd (c & Hc & Hok). rewrite Hc in Hd. destruct (entries st' !! p) as [c'|] eqn:E; [|done].
  exists c'. split; [done|]. cbn in Hd. injection Hd as _ _ _ _ _ _ Hl _ Hp Hs. unfold cached. by rewrite Hl, Hp, Hs.
Qed.

Lemma cache_ok_sub st st' l l' : cinv st' l' -> cache_lowwater st' = cache_lowwater st ->
  cache_highwater st' = cache_highwater st ->
  (forall a, a ∈ l' -> a ∈ l /\ data <$> entries st' !! a = data <$> entries st !! a) ->
  cache_ok st l -> cache_ok st' l'.
Proof.
  intros Hi Hlw Hhw Hd [_ Hc Hw]. constructor; [done| |by rewrite Hlw, Hhw].
  rewrite Forall_forall in *. intros a Ha. destruct (Hd a Ha) as [Hal Hda]. by apply (cached_at_data st), Hc.
Qed.

(** Times before 2038. *)
Definition time_ok (now : Z) : Prop := 0 < now < 2 ^ 31.

Lemma time_ok_u32 now : time_ok now -> u32 now = now.
Proof. intros H. unfold time_ok, u32 in *. apply Z.mod_small. lia. Qed.

Lemma recent_cached st l : cache_ok st l -> recent_times st l.
Proof.
  intros [_ Hc _]. eapply Forall_impl; [exact Hc|]. intros p (c & Hp & _ & _ & _ & Hl). unfold used_at. by rewrite Hp.
Qed.

Lemma cache_expire_safe `{Q : Qsort} `{!QsortSpec Q} now st l : cache_ok st l ->
  exists st' l', cache_expire now st = Ok st' /\ cache_ok st' l'.
Proof.
  intros Hst. pose proof Hst as [Hi Hc Hw].
  destruct (decide (cache_onoff st = 0)) as [Hoff|Hon].
  { exists st, l. unfold cache_expire. by rewrite (proj2 (Z.eqb_eq _ _) Hoff). }
  destruct (decide (lastexpire st = 0)) as [Hz|Hnz].
  { unfold cache_expire. rewrite (proj2 (Z.eqb_neq _ _) Hon), (proj2 (Z.eqb_eq _ _) Hz). cbv zeta. cbn [lastexpire with_lastexpire].
    rewrite (proj2 (Z.ltb_lt _ _)) by (unfold CACHE_MINCYCLE, CACHE_TIMEUNIT; lia).
    do 2 eexists. split; [done|]. apply (cache_ok_sub st _ l l); try done. by destruct Hi. }
  destruct (decide (now - lastexpire st < CACHE_MINCYCLE)) as [Hlt|Hge].
  { exists st, l. unfold cache_expire. rewrite (proj2 (Z.eqb_neq _ _) Hon), (proj2 (Z.eqb_neq _ _) Hnz). cbv zeta.
    by rewrite (proj2 (Z.ltb_lt _ _) Hlt). }
  destruct (cache_expire_due now st l) as (st' & l' & He & Hi' & Hs & Hd & _ & Hhw & Hlw & _);
    [done|done|done|lia|by apply recent_cached|done|].
  exists st', l'. split; [done|]. apply (cache_ok_sub st _ l l'); try done. intros a Ha. split; [|by apply Hd].
  assert (a ∈ filter (fun p => negb (stale_at st now p)) l) as Hf by (by apply (sublist_subseteq l')).
  by apply list_elem_of_filter in Hf as [_ ?].
Qed.

Lemma cache_dnspacket_safe y0 a now packet len srv st l : cache_ok st l -> time_ok now -> scratch_ok y0 ->
  bytes packet -> 12 <= len <= zlen packet -> len <= UDP_MAXSIZE -> is_server srv -> entries st !! a = None ->
  exists st' l', cache_dnspacket y0 a now packet len srv st = Ok (0, st') /\ cache_ok st' l' /\
    forall b, b <> a -> entries st !! b = None -> entries st' !! b = None.
Proof.
  intros [Hi Hc Hw] Hnow [Hy Hy0] Hb Hlen Hmax Hsrv Ha.
  destruct (cache_dnspacket_total y0 a now packet len srv st l) as
    (st' & l' & He & Hi' & (_ & _ & _ & Hhw & Hlw & _) & Ho & Hl'); [done..|].
  assert (a ∉ l) as Hal.
  { intros Hin. destruct (dseg_alloc _ _ _ _ a (ci_seg _ _ Hi) Hin). congruence. }
  assert (Forall (cached_at st') l) as Hcl.
  { rewrite Forall_forall in *. intros b Hbl. apply (cached_at_data st); [|by apply Hc]. apply Ho. by intros ->. }
  exists st', l'. split; [done|]. split.
  - constructor; [done| |by rewrite Hhw, Hlw]. destruct Hl' as [->|(-> & x & query & Hx & Hd)]; [done|].
    apply Forall_app. split; [done|]. constructor; [|done].
    destruct (entries st' !! a) as [c|] eqn:E; [|done]. exists c. split; [done|]. injection Hd as _ _ _ _ _ _ Hlu _ Hcp Hsv.
    destruct (parse_packet_ok packet len Hb Hlen) as (x' & Hx' & Hxl & Hxp & _). assert (x' = x) as -> by congruence.
    unfold cached. rewrite Hlu, Hcp, Hsv, Hxl, Hxp, (time_ok_u32 _ Hnow). split; [done|].
    split; [|split; [done|unfold time_ok in *; lia]]. apply Forall_app. split; [by apply Forall_take|]. repeat constructor; unfold is_byte; lia.
  - intros b Hne Hnone. specialize (Ho b Hne). rewrite Hnone in Ho. by destruct (entries st' !! b).
Qed.

(** The query may be overwritten although the result is 0. *)
Lemma cache_lookup_safe ign w y0 now packet len st l : cache_ok st l -> net_ok w -> time_ok now -> scratch_ok y0 ->
  bytes packet -> 12 <= len <= zlen packet -> UDP_MAXSIZE <= zlen packet ->
  exists r packet' st', cache_lookup ign w y0 now packet len st = Ok (r, packet', st') /\ cache_ok st' l /\
    bytes packet' /\ zlen packet' = zlen packet /\ take 2 packet' = take 2 packet /\ spare packet' = spare packet /\ 0 <= r <= UDP_MAXSIZE /\
    forall b, entries st !! b = None -> entries st' !! b = None.
Proof.
  intros Hst Hw Hnow [Hy Hy0] Hb Hlen Hmax. pose proof Hst as [Hi Hc Hwt].
  assert (Hstay : exists r packet' st', Ok (0, packet, st) = Ok (r, packet', st') /\ cache_ok st' l /\
    bytes packet' /\ zlen packet' = zlen packet /\ take 2 packet' = take 2 packet /\ spare packet' = spare packet /\ 0 <= r <= UDP_MAXSIZE /\
    forall b, entries st !! b = None -> entries st' !! b = None).
  { exists 0, packet, st. unfold UDP_MAXSIZE. split_and!; (done || lia). }
  destruct (decide (cache_onoff st = 0)) as [Hoff|Hon].
  { unfold cache_lookup. by rewrite (proj2 (Z.eqb_eq _ _) Hoff). }
  destruct (parse_query_ok y0 packet len Hb Hlen Hy Hy0) as (r & query & Hq & Hr & _).
  destruct (negb (r =? 0) || (GET_QR (rr_flags query) =? 1) || bool_decide (cstr (rr_name query) = [])
       || negb (rr_class query =? DNS_CLASS_INET)) eqn:Es.
  { unfold cache_lookup. rewrite (proj2 (Z.eqb_neq _ _) Hon), Hq. cbn [mbind comp_bind]. by rewrite Es. }
  apply orb_false_iff in Es as [[[Er Hqr]%orb_false_iff Hnm]%orb_false_iff Hcl].
  apply negb_false_iff in Er, Hcl. zbool. subst r. apply bool_decide_eq_false in Hnm.
  rewrite (lookup_reaches ign w y0 now packet len st l query) by done.
  destruct (first_wanted st query l) as [p|] eqn:Ef.
  2: { do 3 eexists. split; [done|]. split_and!; try done.
       apply (cache_ok_sub st _ l l); try done. by destruct Hi. }
  apply first_wanted_Some in Ef as (l1 & l2 & Hl & _). assert (p ∈ l) as Hpl by set_solver.
  rewrite Forall_forall in Hc. destruct (Hc p Hpl) as (cx & Hcx & Hcl1 & Hcb & Hcs & Hct).
  pose proof (ci_ok _ _ Hi) as Hok. rewrite Forall_forall in Hok. destruct (Hok p Hpl) as (cx' & Hcx' & _ & Hlen' & _ & Hpos).
  assert (cx' = cx) as -> by congruence. unfold get_cx. rewrite Hcx. cbn [of_option mbind comp_bind].
  rewrite (proj2 (Z.ltb_lt _ _) Hpos), (modify_ok _ _ _ cx Hcx). cbn [mbind comp_bind].
  destruct (copy_answer_spare packet (h_packet (cp cx)) (h_len (cp cx))) as (m & -> & Hm & Hml & Hmt & Hms); [done|done|lia|lia|done|].
  cbn [mbind comp_bind]. cbv zeta. set (st' := with_counts _ _ _).
  assert (cache_ok st' l /\ forall b, entries st !! b = None -> entries st' !! b = None) as [Hst' Hfree].
  { split.
    - constructor; [|rewrite Forall_forall|done].
      + unfold st'. pose proof (cinv_used st l p cx (u32 now) (u32 (u32 now + CACHE_TIME)) Hi Hcx) as H. by destruct H.
      + intros b Hb'. unfold cached_at. cbn. destruct (decide (b = p)) as [->|Hne].
        * rewrite lookup_insert_eq. eexists. split; [done|]. rewrite (time_ok_u32 _ Hnow).
          unfold cached, time_ok in *. cbn. split_and!; (done || lia).
        * rewrite lookup_insert_ne by done. by apply Hc.
    - intros b Hb'. cbn. rewrite lookup_insert_ne; [done|]. intros ->. congruence. }
  assert (exists i, (if ign =? 0 then mret 0 else s ← get_srv w (server cx); mret (inactive s)) = Ok i) as [i ->].
  { case_if; [by eexists|]. unfold get_srv. destruct (net_server w (server cx) Hw Hcs) as [s ->]. by eexists. }
  cbn [mbind comp_bind]. case_if; do 3 eexists; (split; [done|]); split_and!; try done; lia.
Qed.

(** * The invariant of the daemon *)

(** A message buffer: the four bytes behind the largest datagram stay zero
    and end every search for a terminating zero. *)
Definition message_ok (m : list Z) : Prop :=
  bytes m /\ zlen m = UDP_MAXSIZE + 4 /\ spare m = [0; 0; 0; 0].

Lemma spare_wr m i v m' : 0 <= i < UDP_MAXSIZE -> wr m i v = Ok m' -> spare m' = spare m.
Proof.
  intros Hi. unfold wr, setb. case_if; [|done]. cbn. intros [= <-]. unfold spare. apply drop_insert_lt. lia.
Qed.

Record dinv (d : daemon) (l lc : list ptr) : Prop := {
  di_net : net_ok (wnet d);
  di_qs : qinv (qs d) l [];
  di_queries : queries_ok (qs d) l;
  di_cache : cache_ok (cs d) lc;
  di_master : minv (ms d);
  di_req : message_ok (req_msg d);
  di_rep : message_ok (rep_msg d);
  di_dummy : bytes (dnsbuf d) /\ 2 <= zlen (dnsbuf d) }.

Definition daemon_ok (d : daemon) : Prop := exists l lc, dinv d l lc.

(** Only servers and what has been sent may differ. *)
Definition frame (d d' : daemon) : Prop :=
  (qs d', cs d', ms d', req_msg d', rep_msg d', dnsbuf d', oscalls d') =
  (qs d, cs d, ms d, req_msg d, rep_msg d, dnsbuf d, oscalls d).

Lemma frame_refl d : frame d d. Proof. done. Qed.
Lemma frame_trans d1 d2 d3 : frame d1 d2 -> frame d2 d3 -> frame d1 d3.
Proof. unfold frame. congruence. Qed.

Lemma dinv_frame d d' l lc : frame d d' -> net_ok (wnet d') -> dinv d l lc -> dinv d' l lc.
Proof. intros [= E1 E2 E3 E4 E5 E6 _] Hw []. constructor; rewrite ?E1, ?E2, ?E3, ?E4, ?E5, ?E6; done. Qed.

Lemma sent_inert now : srv_inert (fun x => set_send_count (u32 (send_count x + 1))
                 (if send_time x =? 0 then set_send_time now x else x)).
Proof. intros s. by case_if. Qed.

Lemma udp_send_safe now sock c msg len d : net_ok (wnet d) -> is_server c ->
  exists rc d', udp_send now sock c msg len d = Ok (rc, d') /\ frame d d' /\ net_ok (wnet d') /\
    size (srvs (wnet d')) = size (srvs (wnet d)) /\ doms (wnet d') = doms (wnet d) /\
    forall x, active (srvs (wnet d')) x = active (srvs (wnet d)) x.
Proof.
  intros Hw Hc. destruct (net_server _ _ Hw Hc) as [s Hs].
  destruct (udp_send_ok now sock c msg len d s Hs) as (rc & d' & He & _ & Hd & Hsz & Ha & _).
  exists rc, d'. split; [done|]. unfold udp_send, get_srv in He. rewrite Hs in He. cbn [of_option mbind comp_bind sendto] in He.
  destruct (negb (default len (head (sends d)) =? len)).
  - injection He as _ <-. by split_and!.
  - injection He as _ <-. split; [done|]. split; [|done]. apply net_ok_upd; [apply sent_inert|done|done].
Qed.

Section settings.
Context (cfg : config) (fs : files) (isock ignore_inactive_cache_hits : Z) (y0 : rr_t) (dom0 : list Z).

(** The conditions under which the daemon keeps running: failing servers may
    be deactivated, identifiers do not run out, the master's answers fit, and
    the record [query], a local that [parse_query] is given uninitialised,
    holds a NUL in its name ([root_query_overreads] shows why). *)
Record settings_ok : Prop := {
  so_reactivate : reactivate_interval cfg <> 0;
  so_sockets : max_sockets cfg <= QID_POOL_SIZE;
  so_master : config_fits fs dom0;
  so_scratch : scratch_ok y0 }.
Context (S_ok : settings_ok) (now : Z) (Hnow : time_ok now).

Lemma now_nonzero : now <> 0.
Proof. unfold time_ok in Hnow. lia. Qed.

Lemma send2current_loop_safe q dom sock msg len : is_domain dom ->
  forall fuel d n, net_ok (wnet d) -> doms (wnet d) !! dom = Some n -> (candidates (wnet d) dom n < fuel)%nat ->
  exists rc d', send2current_loop cfg fuel now q dom sock msg len d = Ok (rc, d') /\ frame d d' /\ net_ok (wnet d').
Proof.
  intros Hd. induction fuel as [|fuel IH]; intros d n Hw Hn Hf; [lia|].
  cbn [send2current_loop]. unfold get_dom. rewrite Hn. cbn [of_option mbind comp_bind].
  destruct (current n) as [c|] eqn:Hc; [|by exists 0, d].
  assert (is_server c) as Hsc.
  { destruct (no_dom _ Hw dom Hd) as (n' & Hn' & _ & _ & Hin). assert (n' = n) as -> by congruence.
    rewrite Hc in Hin. by exists dom. }
  destruct (udp_send_safe now sock c msg len d Hw Hsc) as (rc & d1 & -> & Hfr & Hw1 & _ & Hd1 & Ha). cbn [mbind comp_bind].
  case_if; [by eauto|]. rewrite (proj2 (Z.eqb_neq _ _) (so_reactivate S_ok)). cbn [negb].
  destruct (deactivate_current_safe now (wnet d1) dom now_nonzero Hd Hw1) as (w' & -> & Hw' & _ & Hless). cbn [mbind comp_bind].
  destruct (Hless n c) as (n' & Hn' & Hlt); [by rewrite Hd1|done|].
  destruct (IH (with_net w' d1) n' Hw' Hn') as (rc' & d' & He & Hf' & Hwd).
  { assert (candidates (wnet d1) dom n = candidates (wnet d) dom n) as Ecand; [|cbn; lia].
    unfold candidates. rewrite Hc, Ha. do 2 f_equal. apply filter_bool_ext. auto. }
  exists rc', d'. split; [done|]. split; [|done]. apply (frame_trans _ d1); [done|]. apply (frame_trans _ (with_net w' d1)); done.
Qed.

Lemma send2current_safe q n dom msg len d : net_ok (wnet d) -> queries (qs d) !! q = Some n ->
  q_domain n = Some dom -> is_domain dom ->
  exists rc d', send2current cfg now q msg len d = Ok (rc, d') /\ frame d d' /\ net_ok (wnet d').
Proof.
  intros Hw Hn Hdom Hd. unfold send2current, get_query. rewrite Hn. cbn [of_option mbind comp_bind]. rewrite Hdom.
  destruct (no_dom _ Hw dom Hd) as (nd & Hnd & Hr & _). apply (send2current_loop_safe q dom _ msg len Hd _ d nd Hw Hnd).
  apply ring_size in Hr. pose proof (length_filter (fun s => active (srvs (wnet d)) s) (t_srvs T dom)).
  unfold candidates, alive. destruct (current nd); [case_if|]; lia.
Qed.

(** ** Requests *)

Lemma wr_message m i v : message_ok m -> is_byte v -> 0 <= i < UDP_MAXSIZE ->
  exists m', wr m i v = Ok m' /\ message_ok m'.
Proof.
  intros (Hb & Hl & Hs) Hv Hi. destruct (wr_bytes m i v Hb Hv) as (m' & He & Hb' & Hl'); [lia|].
  exists m'. split; [done|]. split; [done|]. split; [by rewrite Hl'|]. by rewrite (spare_wr _ _ _ _ Hi He).
Qed.

Lemma srvfail_message msg len d : message_ok msg -> 12 <= len -> exists msg',
  reply_srvfail msg len d = Ok (0, msg', len, None, d) /\ message_ok msg'.
Proof.
  intros Hm Hlen. unfold reply_srvfail, set_srvfail. rewrite (proj2 (Z.ltb_ge _ _)) by lia.
  destruct (rd_ok msg 2) as (b & -> & _); [destruct Hm as (_ & -> & _); unfold UDP_MAXSIZE; lia|]. cbn [mbind comp_bind].
  destruct (wr_message msg 2 (u8 (Z.lor b 0x84)) Hm) as (m1 & -> & Hm1); [apply u8_byte|unfold UDP_MAXSIZE; lia|].
  cbn [mbind comp_bind].
  destruct (wr_message m1 3 0x82 Hm1) as (m2 & -> & Hm2); [by_decide|unfold UDP_MAXSIZE; lia|].
  by exists m2.
Qed.

Lemma message_nul msg : message_ok msg -> 0 ∈ drop 12 msg.
Proof.
  intros (_ & _ & Hs). assert (0 ∈ spare msg) as H by (rewrite Hs; by left). unfold spare in H.
  replace (Z.to_nat UDP_MAXSIZE) with (12 + 500)%nat in H by done. rewrite <- drop_drop in H.
  apply list_elem_of_lookup in H as [i H]. rewrite lookup_drop in H. by eapply list_elem_of_lookup_2.
Qed.

(** The query goes to a domain with a current server. *)
Definition forwardable (d : daemon) (dptr : option ptr) : Prop :=
  exists dom n c, dptr = Some dom /\ is_domain dom /\ doms (wnet d) !! dom = Some n /\ current n = Some c.

Lemma handle_query_safe msg len d l lc : dinv d l lc -> message_ok msg -> 12 <= len <= UDP_MAXSIZE ->
  exists fwd msg' len' dptr d',
    handle_query cfg fs (t_head T) ignore_inactive_cache_hits y0 dom0 now msg len d = Ok (fwd, msg', len', dptr, d') /\
    dinv d' l lc /\ message_ok msg' /\ qs d' = qs d /\ oscalls d' = oscalls d /\
    (fwd = -1 \/ fwd = 0 \/ fwd = 1 /\ len' = len /\ take 2 msg' = take 2 msg /\ forwardable d' dptr).
Proof.
  intros Hd Hm Hlen. pose proof Hm as (Hb & Hl & Hs). unfold handle_query.
  destruct (master_lookup_safe fs dom0 (so_master S_ok) y0 msg len (ms d) (di_master _ _ _ Hd) (so_scratch S_ok) Hb)
    as (r & m1 & ms1 & -> & Hms & Hb1 & Hl1 & Hs1 & Hr); [lia|lia|]. cbn [mbind comp_bind].
  set (d1 := with_ms ms1 d). assert (dinv d1 l lc) as Hd1 by (by destruct Hd).
  case_if; zbool.
  { exists 0, m1, r, None, d1. split; [done|]. split; [done|]. split; [|auto].
    split; [done|]. split; [lia|by rewrite Hs1]. }
  destruct Hr as [[-> ->]|?]; [|lia]. change (0 <? 0) with false. cbv iota.
  destruct (cache_lookup_safe ignore_inactive_cache_hits (wnet d1) y0 now msg len (cs d1) lc (di_cache _ _ _ Hd1)
    (di_net _ _ _ Hd1) Hnow (so_scratch S_ok) Hb) as (r & m2 & c2 & -> & Hc2 & Hb2 & Hl2 & Ht2 & Hs2 & Hr & _);
    [lia|lia|]. cbn [mbind comp_bind].
  set (d2 := with_cs c2 d1). assert (dinv d2 l lc) as Hd2 by (by destruct Hd1).
  assert (message_ok m2) as Hm2 by (split; [done|split; [lia|by rewrite Hs2]]).
  case_if; zbool.
  { exists 0, m2, r, None, d2. do 3 (split; [done|]). auto. }
  rewrite (proj2 (Z.ltb_ge _ _)) by lia.
  pose proof (di_net _ _ _ Hd2) as Hw.
  destruct (search_subdomnode_safe (wnet d2) (drop 12 m2) len Hw (message_nul _ Hm2)) as (dom & -> & Hdom).
  cbn [mbind comp_bind]. destruct (no_dom _ Hw dom Hdom) as (n & Hn & Hok). unfold get_dom. rewrite Hn.
  cbn [of_option mbind comp_bind]. rewrite (no_srvlist_ring _ _ (t_srvs T dom)) by apply Hok. cbn [mbind comp_bind].
  case_if.
  { destruct (srvfail_message m2 len d2 Hm2) as (m3 & He & Hm3); [lia|]. exists 0, m3, len, None, d2. do 3 (split; [done|]). auto. }
  destruct (choose_server_safe cfg now (wnet d2) dom now_nonzero Hdom Hw) as (w' & -> & Hw'). cbn [mbind comp_bind].
  set (d3 := with_net w' d2). assert (dinv d3 l lc) as Hd3 by (by destruct Hd2).
  destruct (no_dom _ Hw' dom Hdom) as (n' & Hn' & _). rewrite Hn'. cbn [of_option mbind comp_bind].
  destruct (current n') as [c|] eqn:Hc.
  - exists 1, m2, len, (Some dom), d3. do 5 (split; [done|]). right; right. do 3 (split; [done|]). by exists dom, n', c.
  - destruct (srvfail_message m2 len d3 Hm2) as (m3 & He & Hm3); [lia|]. exists 0, m3, len, None, d3. do 3 (split; [done|]). auto.
Qed.

(** No probe of a server is outstanding under the identifier of the
    message. *)
Definition no_probe (st : qstate) (msg : list Z) : Prop :=
  forall p n, p <> qlist -> queries st !! p = Some n -> q_domain n = None -> load_id msg <> Ok (client_qid n).

Lemma recv_into_message buf data : message_ok buf -> bytes data -> let '(m, len) := recv_into buf data in
  message_ok m /\ len = zlen (take (Z.to_nat UDP_MAXSIZE) data) /\ 0 <= len <= UDP_MAXSIZE /\
  (2 <= len -> take 2 m = take 2 data).
Proof.
  intros (Hb & Hl & Hs) Hd. unfold recv_into. set (bs := take (Z.to_nat UDP_MAXSIZE) data).
  assert (zlen bs <= UDP_MAXSIZE) as Hbs by (unfold bs, zlen, UDP_MAXSIZE; rewrite length_take; lia).
  rewrite blit_all by (unfold zlen, UDP_MAXSIZE in *; lia). split; [split; [|split]|].
  - apply Forall_app. split; [by apply Forall_take|by apply Forall_drop].
  - unfold zlen, UDP_MAXSIZE in *. rewrite length_app, length_drop. lia.
  - unfold spare in *. rewrite drop_app_ge, drop_drop by (unfold zlen in *; lia). rewrite <- Hs. f_equal. unfold zlen in *. lia.
  - split; [done|]. split; [split; [apply zlen_nonneg|done]|]. intros H2. rewrite take_app_le by (unfold zlen in *; lia).
    unfold bs. rewrite take_take. by rewrite Nat.min_l by (unfold UDP_MAXSIZE; lia).
Qed.

Lemma load_id_take m m' : take 2 m = take 2 m' -> load_id m = load_id m'.
Proof.
  intros H. destruct m as [|a [|b m]], m' as [|a' [|b' m']]; cbn in H; try done; by inversion H.
Qed.

(** The datagrams of clients that the daemon survives: any but those that
    carry the identifier of a probe. *)
Definition request_ok (d : daemon) (data : list Z) : Prop := bytes data /\ no_probe (qs d) data.

Lemma take_os_ok d : os_list_ok (qs d) (oscalls d) -> let '(o, d') := take_os d in
  os_ok (qs d) o /\ d' = snd (take_os d) /\ qs d' = qs d /\
  forall st', used_os o (qs d) st' -> os_list_ok st' (oscalls d').
Proof.
  intros Hos. unfold take_os. destruct (oscalls d) as [|o os] eqn:E; cbn.
  - split; [intros H; cbn in H; lia|]. split; [done|]. split; [done|]. intros st' _. repeat constructor.
  - split; [destruct Hos as [Hf _]; by apply Forall_cons in Hf as [? _]|]. split; [done|]. split; [done|].
    intros st' Hu. by apply (os_list_next (qs d) st' o).
Qed.

Lemma dinv_take_os d l lc : dinv d l lc -> dinv (snd (take_os d)) l lc.
Proof. intros []. by constructor. Qed.

Lemma query_delete_at st l1 q l2 : qinv st (l1 ++ q :: l2) [] -> queries_ok st (l1 ++ q :: l2) ->
  exists st', query_delete_next (before qlist l1) st = Ok st' /\ qinv st' (l1 ++ l2) [] /\ queries_ok st' (l1 ++ l2).
Proof.
  intros Hi Hok. destruct (query_delete_next_ok _ _ _ _ _ Hi) as (st' & He & Hi' & _ & Hc).
  exists st'. split; [done|]. split; [done|]. apply (queries_ok_core st _ (l1 ++ q :: l2)); [|done].
  intros a Ha. split; [set_solver|]. apply Hc. intros ->.
  destruct (qi_ring _ _ _ Hi) as [_ Hn]. apply NoDup_cons in Hn as [_ Hn]. rewrite <- Permutation_middle in Hn.
  by apply NoDup_cons in Hn as [? _].
Qed.

Lemma udp_handle_request_safe input d l lc : dinv d l lc -> os_list_ok (qs d) (oscalls d) ->
  match input with Some (_, data) => request_ok d data | None => True end ->
  exists r d', udp_handle_request cfg fs (t_head T) isock ignore_inactive_cache_hits y0 dom0 now input d = Ok (r, d') /\
    daemon_ok d'.
Proof.
  intros Hd Hos Hin. unfold udp_handle_request. destruct input as [[from data]|]; [|exists None, d; split; [done|by exists l, lc]].
  destruct Hin as (Hb & Hnp). pose proof (recv_into_message (req_msg d) data (di_req _ _ _ Hd) Hb) as Hrecv.
  destruct (recv_into (req_msg d) data) as [msg len]. destruct Hrecv as (Hm & _ & Hl0 & Ht).
  set (d0 := with_req msg d). assert (dinv d0 l lc) as Hd0 by (by destruct Hd).
  assert (Hquit : forall dd, dinv dd l lc -> exists r d', Ok (None, dd) = Ok (r, d') /\ daemon_ok d')
    by (intros dd Hdd; exists (@None ptr), dd; split; [done|by exists l, lc]).
  assert (exists r, check_query msg (len) = Ok r /\ (0 <= r -> 12 <= len)) as (r & -> & Hr).
  { unfold check_query, rd16. destruct Hm as (_ & Hml & _). unfold UDP_MAXSIZE in *.
    destruct (rd_ok msg 2) as (x & -> & _); [lia|]. destruct (rd_ok msg (2 + 1)) as (y & -> & _); [lia|].
    cbn [mbind comp_bind mret comp_ret]. repeat case_if; zbool; eexists; (split; [done|lia]). }
  cbn [mbind comp_bind]. case_if; zbool; [by apply Hquit|].
  destruct (handle_query_safe msg (len) d0 l lc Hd0 Hm) as (fwd & m1 & len1 & dptr & d1 & -> & Hd1 & Hm1 & Hq1 & Ho1 & Hfwd); [lia|].
  cbn [mbind comp_bind]. set (d2 := with_req m1 d1). assert (dinv d2 l lc) as Hd2 by (by destruct Hd1).
  case_if; zbool; [by apply Hquit|]. case_if; zbool.
  { cbn [sendto]. apply Hquit. by destruct Hd2. }
  destruct Hfwd as [?|[?|(_ & -> & Ht1 & dom & n & c & -> & Hdom & Hn & Hc)]]; [lia|lia|].
  cbn [of_option mbind comp_bind]. unfold get_dom. change (wnet d2) with (wnet d1). rewrite Hn. cbn [of_option mbind comp_bind].
  rewrite Hc. cbn [of_option mbind comp_bind].
  assert (os_list_ok (qs d2) (oscalls d2)) as Hos2.
  { change (qs d2) with (qs d1). change (oscalls d2) with (oscalls d1). by rewrite Hq1, Ho1. }
  pose proof (take_os_ok d2 Hos2) as Htk. pose proof (dinv_take_os d2 l lc Hd2) as Hd3.
  destruct (take_os d2) as [o d3]. cbn [snd] in Hd3. destruct Htk as (Hoso & _ & Hqs3 & _).
  assert (is_server c) as Hsrv.
  { destruct (no_dom _ (di_net _ _ _ Hd1) dom Hdom) as (n' & Hn' & _ & _ & Hcin). assert (n' = n) as -> by congruence.
    rewrite Hc in Hcin. by exists dom. }
  destruct (query_add_safe cfg o now (Some dom) c from m1 (wnet d3) (qs d3) l) as
    (prev & m2 & w2 & st2 & l2 & id & Hid & -> & Hb2 & Hl2 & Hs2 & Had); try apply Hd3; try apply Hm1; try done.
  { apply (so_sockets S_ok). } { by rewrite Hqs3. } { destruct Hm1 as (_ & -> & _). unfold UDP_MAXSIZE. lia. }
  cbn [mbind comp_bind]. destruct Had as [Hi2 Hok2 Hnet2 _ Hplace].
  set (d4 := with_req m2 (with_qs st2 (with_net w2 d3))).
  assert (dinv d4 l2 lc) as Hd4.
  { destruct Hd3. constructor; try done. split; [done|].
    split; [etrans; [exact Hl2|apply Hm1]|etrans; [exact Hs2|apply Hm1]]. }
  destruct prev as [p|]; [|exists None, d4; split; [done|by exists l2, lc]].
  destruct Hplace as (k1 & q & k2 & nq & -> & -> & Hnq & Hdq).
  assert (q_domain nq <> None) as Hsome.
  { destruct Hdq as [->|(Hql & n0 & Hn0 & Hcid & ->)]; [done|]. intros Hnone.
    rewrite Hqs3 in Hn0. change (qs d2) with (qs d1) in Hn0. rewrite Hq1 in Hn0.
    apply (Hnp q n0); [|done|done|].
    - destruct (qi_ring _ _ _ (di_qs _ _ _ Hd)) as [_ Hnd]. apply NoDup_cons in Hnd as [Hni _]. by intros ->.
    - rewrite <- Hcid in Hid. rewrite <- Hid. apply load_id_take. rewrite Ht1. symmetry. apply Ht. lia. }
  pose proof (ring_next_before _ _ _ _ (qi_ring _ _ _ Hi2)) as Hnext.
  change (queries (qs d4)) with (queries st2). rewrite Hnext. change (default qlist (list.head (q :: k2))) with q.
  cbn [mbind comp_bind]. destruct (q_domain nq) as [dm|] eqn:Hdm; [|done].
  assert (is_domain dm) as Hdmd.
  { unfold queries_ok in Hok2. rewrite Forall_forall in Hok2. destruct (Hok2 q) as (n' & Hn' & _ & Hdd); [set_solver|].
    assert (n' = nq) as -> by congruence. by rewrite Hdm in Hdd. }
  destruct (send2current_safe q nq dm m2 (len) d4 (di_net _ _ _ Hd4) Hnq Hdm Hdmd) as (rc & d5 & -> & Hf5 & Hw5).
  cbn [mbind comp_bind]. pose proof (dinv_frame _ _ _ _ Hf5 Hw5 Hd4) as Hd5.
  case_if; [exists (Some q), d5; split; [done|by exists (k1 ++ q :: k2), lc]|]. zbool.
  destruct (master_dontknow_safe fs dom0 (so_master S_ok) y0 m2 (len) (replicate 516 0) (ms d5)
    (di_master _ _ _ Hd5) (so_scratch S_ok) Hb2) as (r5 & a5 & ms5 & -> & Hms5); [rewrite Hl2; destruct Hm1 as (_ & -> & _); lia|by vm_compute|].
  cbn [mbind comp_bind]. set (d6 := with_ms ms5 d5). assert (dinv d6 (k1 ++ q :: k2) lc) as Hd6 by (by destruct Hd5).
  case_if; [|exists (Some q), d6; split; [done|by exists (k1 ++ q :: k2), lc]].
  destruct (query_delete_at _ _ _ _ (di_qs _ _ _ Hd6) (di_queries _ _ _ Hd6)) as (st7 & -> & Hi7 & Hok7).
  cbn [mbind comp_bind]. do 2 eexists. split; [done|]. exists (k1 ++ k2), lc. by destruct Hd6.
Qed.

(** ** Replies *)

(** Nothing new is in the cache but at the address [a]. *)
Definition only_at (a : ptr) (d d' : daemon) : Prop :=
  forall b, b <> a -> entries (cs d) !! b = None -> entries (cs d') !! b = None.

Lemma delete_query_safe d l1 q l2 lc : dinv d (l1 ++ q :: l2) lc ->
  exists d', delete_query (before qlist l1) d = Ok d' /\ dinv d' (l1 ++ l2) lc /\ cs d' = cs d.
Proof.
  intros Hd. unfold delete_query.
  destruct (query_delete_at _ _ _ _ (di_qs _ _ _ Hd) (di_queries _ _ _ Hd)) as (st & -> & Hi & Hok).
  cbn [mbind comp_bind]. eexists. split; [done|]. split; [|done]. by destruct Hd.
Qed.

Lemma check_reply_safe msg len : message_ok msg -> exists r, check_reply msg len = Ok r /\ (0 <= r -> 12 <= len).
Proof.
  intros (_ & Hl & _). unfold check_reply, rd16, UDP_MAXSIZE in *.
  destruct (rd_ok msg 2) as (x & -> & _); [lia|]. destruct (rd_ok msg (2 + 1)) as (y & -> & _); [lia|].
  cbn [mbind comp_bind mret comp_ret]. repeat case_if; zbool; eexists; (split; [done|lia]).
Qed.

(** The answer goes to the cache and to the client. *)
Lemma deliver_safe n a msg len d l lc : dinv d l lc -> query_ok n -> message_ok msg -> 12 <= len <= UDP_MAXSIZE ->
  entries (cs d) !! a = None ->
  exists d' lc', (match q_domain n with
          | Some _ =>
              '(_, c) ← cache_dnspacket y0 a now msg len (q_srv n) (cs d);
              msg ← store_id (client_qid n) msg;
              let '(_, d) := sendto isock msg len (client n) (with_rep msg (with_cs c d)) in
              mret d
          | None => mret d
          end) = Ok d' /\ dinv d' l lc' /\ only_at a d d'.
Proof.
  intros Hd [Hsrv _] (Hb & Hl & Hs) Hlen Ha. destruct (q_domain n); [|exists d, lc; split; [done|]; split; [done|by intros ? ?]].
  destruct (cache_dnspacket_safe y0 a now msg len (q_srv n) (cs d) lc (di_cache _ _ _ Hd) Hnow (so_scratch S_ok) Hb)
    as (c & lc' & -> & Hc & Hother); [unfold UDP_MAXSIZE in *; lia|lia|done|done|]. cbn [mbind comp_bind].
  destruct (split2 msg) as (x & y & m & ->); [unfold UDP_MAXSIZE in *; lia|]. rewrite store_id_ok. cbn [mbind comp_bind sendto].
  do 2 eexists. split; [done|]. split; [|exact Hother].
  destruct Hd. constructor; try done. split; [|by split].
  apply Forall_cons in Hb as [_ [_ Hm]%Forall_cons]. repeat constructor; (apply lo8_byte || apply hi8_byte || done).
Qed.

Definition input_ok {A} (input : option (A * list Z)) : Prop :=
  match input with Some (_, data) => bytes data | None => True end.

Lemma udp_handle_reply_safe a input d l1 q l2 lc : dinv d (l1 ++ q :: l2) lc -> input_ok input ->
  entries (cs d) !! a = None ->
  exists d' lc', udp_handle_reply isock y0 now a (before qlist l1) input d = Ok d' /\
    dinv d' (l1 ++ l2) lc' /\ only_at a d d'.
Proof.
  intros Hd Hin Ha. unfold udp_handle_reply.
  rewrite (ring_next_before _ _ _ _ (qi_ring _ _ _ (di_qs _ _ _ Hd))).
  change (default qlist (list.head (q :: l2))) with q. cbn [mbind comp_bind].
  pose proof (di_queries _ _ _ Hd) as Hqs. unfold queries_ok in Hqs. rewrite Forall_forall in Hqs.
  destruct (Hqs q) as (n & Hn & Hnok); [set_solver|]. unfold get_query. rewrite Hn. cbn [of_option mbind comp_bind].
  destruct (net_server _ _ (di_net _ _ _ Hd) (proj1 Hnok)) as [s Hs].
  assert (exists len msg, reply_recv n input (rep_msg d) (wnet d) = Ok (len, msg) /\ message_ok msg /\ len <= UDP_MAXSIZE)
    as (len & msg & -> & Hm & Hlen).
  { unfold reply_recv. destruct input as [[from data]|]; [|exists (-1), (rep_msg d); split; [done|]; split; [apply Hd|by vm_compute]].
    pose proof (recv_into_message (rep_msg d) data (di_rep _ _ _ Hd) Hin) as Hr.
    destruct (recv_into (rep_msg d) data) as [m k]. destruct Hr as (Hm & _ & Hk & _).
    unfold get_srv. rewrite Hs. cbn [of_option mbind comp_bind]. case_if; do 2 eexists; (split; [done|]); (split; [done|]); [lia|by vm_compute]. }
  cbn [mbind comp_bind]. set (d0 := with_rep msg d). assert (dinv d0 (l1 ++ q :: l2) lc) as Hd0 by (by destruct Hd).
  assert (Hdel : forall dd lcc, dinv dd (l1 ++ q :: l2) lcc -> only_at a d dd ->
    exists d' lc', delete_query (before qlist l1) dd = Ok d' /\ dinv d' (l1 ++ l2) lc' /\ only_at a d d').
  { intros dd lcc Hdd Ho. destruct (delete_query_safe dd l1 q l2 lcc Hdd) as (d' & He & Hd' & Hcs).
    exists d', lcc. split; [done|]. split; [done|]. unfold only_at in *. by rewrite Hcs. }
  case_if; [apply (Hdel d0 lc Hd0); by intros ? ?|]. zbool.
  destruct (check_reply_safe msg len Hm) as (r & -> & Hr). cbn [mbind comp_bind].
  case_if; [apply (Hdel d0 lc Hd0); by intros ? ?|]. zbool.
  destruct (deliver_safe n a msg len d0 _ lc Hd0 Hnok Hm) as (d1 & lc1 & -> & Hd1 & Ho1); [lia|done|].
  cbn [mbind comp_bind]. destruct (net_server _ _ (di_net _ _ _ Hd1) (proj1 Hnok)) as [s1 Hs1].
  unfold get_srv. rewrite Hs1. cbn [of_option mbind comp_bind]. apply (Hdel _ lc1); [|done].
  assert (net_ok (upd_srv (fun s => set_inactive 0 (set_send_time 0 s)) (q_srv n) (wnet d1))) as Hw'
    by (apply net_ok_upd; [done|apply Hnok|apply Hd1]).
  by destruct Hd1.
Qed.

(** The sockets that were ready have a datagram or an error. *)
Definition replies_ok (replies : gmap Z (option (in_addr * list Z))) : Prop :=
  forall k input, replies !! k = Some input -> input_ok input.

(** Addresses for as many entries as there may be replies. *)
Definition addrs_ok (d : daemon) (addrs : list ptr) : Prop :=
  NoDup addrs /\ Forall (fun a => entries (cs d) !! a = None) addrs.

Lemma reply_loop_safe replies N fuel addrs d l1 l2 lc : replies_ok replies -> dinv d (l1 ++ l2) lc ->
  (length (l1 ++ l2) <= N)%nat -> (length (l1 ++ l2) * (N + 1) + length l2 < fuel)%nat ->
  (fuel <= length addrs)%nat -> addrs_ok d addrs ->
  exists d', reply_loop isock y0 fuel now addrs (before qlist l1) replies d = Ok d' /\ daemon_ok d'.
Proof.
  intros Hrep. revert addrs d l1 l2 lc. induction fuel as [|fuel IH]; intros addrs d l1 l2 lc Hd HN Hf Hfa [Hnd Hfr]; [lia|].
  destruct addrs as [|a addrs]; [cbn in Hfa; lia|]. cbn [length] in Hfa.
  apply NoDup_cons in Hnd as [Hna Hnd]. apply Forall_cons in Hfr as [Ha Hfr].
  pose proof (qi_ring _ _ _ (di_qs _ _ _ Hd)) as Hr.
  cbn [reply_loop]. rewrite (ring_next_before _ _ _ _ Hr). cbn [mbind comp_bind].
  destruct l2 as [|y l2].
  { rewrite bool_decide_true by done. exists d. split; [done|]. by eexists _, lc. }
  change (default qlist (list.head (y :: l2))) with y.
  assert (y <> qlist) as Hyq by (destruct Hr as [_ Hn]; apply NoDup_cons in Hn as [? _]; set_solver).
  rewrite bool_decide_false by done.
  destruct (ring_elem _ _ _ y Hr) as [n Hn]; [set_solver|].
  unfold get_query. rewrite Hn. cbn [of_option mbind comp_bind].
  rewrite length_app in *. cbn [length tail head default] in *.
  destruct (replies !! q_sock n) as [input|] eqn:Ei.
  - destruct (udp_handle_reply_safe a input d l1 y l2 lc Hd (Hrep _ _ Ei) Ha) as (d1 & lc1 & He & Hd1 & Ho).
    unfold id. rewrite He. cbn [mbind comp_bind].
    rewrite (ring_next_before _ _ _ _ (qi_ring _ _ _ (di_qs _ _ _ Hd1))). cbn [mbind comp_bind].
    assert (exists k1 k2, l1 ++ l2 = k1 ++ k2 /\ default qlist (list.head l2) = before qlist k1 /\
      (length k2 <= N)%nat) as (k1 & k2 & Hk & Hb & Hk2).
    { destruct l2 as [|z l2]; [exists [], l1|exists (l1 ++ [z]), l2].
      - rewrite app_nil_r. split; [done|]. split; [done|lia].
      - rewrite <- app_assoc, before_snoc. split; [done|]. split; [done|]. cbn in HN. lia. }
    rewrite Hb. assert (length (k1 ++ k2) = length l1 + length l2)%nat as Hlk by (by rewrite <- Hk, length_app).
    apply (IH addrs d1 k1 k2 lc1).
    + by rewrite <- Hk.
    + lia.
    + rewrite Hlk. nia.
    + lia.
    + split; [done|]. rewrite Forall_forall in *. intros b Hbin. apply Ho; [by intros ->|by apply Hfr].
  - cbn [mbind comp_bind mret comp_ret]. rewrite (ring_next_before _ _ _ _ Hr). cbn [mbind comp_bind].
    change (default qlist (list.head (y :: l2))) with y. rewrite <- (before_snoc qlist l1 y).
    apply (IH addrs d (l1 ++ [y]) l2 lc); rewrite <- ?app_assoc, ?length_app; cbn [app length]; try done; lia.
Qed.

(** ** Maintenance *)

(** The daemon between two calls of one pass: more calls for sockets may
    come. *)
Definition ready (d : daemon) : Prop := daemon_ok d /\ os_list_ok (qs d) (oscalls d).

Lemma ready_net d : ready d -> net_ok (wnet d).
Proof. intros [(l & lc & Hd) _]. apply Hd. Qed.

Lemma ready_upd f p d : srv_inert f -> is_server p -> ready d -> ready (with_net (upd_srv f p (wnet d)) d).
Proof.
  intros Hf Hp [(l & lc & Hd) Hos]. split; [|done]. exists l, lc.
  apply (dinv_frame d); [done|apply net_ok_upd; [done|done|apply Hd]|done].
Qed.

Lemma queries_ok_inert f p st l : (forall n, query_ok n -> query_ok (f n)) -> queries_ok st l ->
  queries_ok (with_queries (alter f p) st) l.
Proof.
  intros Hf Hq. eapply Forall_impl; [exact Hq|]. intros q (n & Hn & Hok). cbn. destruct (decide (q = p)) as [->|Hne].
  - rewrite lookup_alter_eq, Hn. eexists. split; [done|]. by apply Hf.
  - rewrite lookup_alter_ne by done. by exists n.
Qed.

Lemma udp_send_dummy_safe srcaddr s d : is_server s -> ready d ->
  exists rc d', udp_send_dummy cfg now srcaddr s d = Ok (rc, d') /\ ready d'.
Proof.
  intros Hs [(l & lc & Hd) Hos]. unfold udp_send_dummy.
  pose proof (take_os_ok d Hos) as Htk. pose proof (dinv_take_os d l lc Hd) as Hd1.
  destruct (take_os d) as [o d1]. cbn [snd] in Hd1. destruct Htk as (Hoso & _ & Hqs & Hnext).
  destruct (di_dummy _ _ _ Hd1) as [Hb Hl].
  destruct (query_add_safe cfg o now None s srcaddr (dnsbuf d1) (wnet d1) (qs d1) l) as
    (prev & m & w & st & l2 & id & _ & -> & Hbm & Hlm & _ & [Hi2 Hok2 Hnet2 Hused Hplace]); try apply Hd1; try done.
  { apply (so_sockets S_ok). } { by rewrite Hqs. }
  cbn [mbind comp_bind]. rewrite Hqs in Hused. specialize (Hnext st Hused).
  set (d2 := with_dnsbuf m (with_qs st (with_net w d1))).
  assert (dinv d2 l2 lc) as Hd2 by (destruct Hd1; constructor; try done; cbn; split; [done|lia]).
  destruct prev as [p|]; [|exists (-1), d2; split; [done|]; split; [by exists l2, lc|done]].
  destruct Hplace as (k1 & q & k2 & nq & -> & -> & Hnq & _).
  change (queries (qs d2)) with (queries st). rewrite (ring_next_before _ _ _ _ (qi_ring _ _ _ Hi2)).
  change (default qlist (list.head (q :: k2))) with q. cbn [mbind comp_bind].
  set (d3 := with_qs (with_queries (alter (set_ttl (reactivate_interval cfg)) q) (qs d2)) d2).
  assert (dinv d3 (k1 ++ q :: k2) lc) as Hd3.
  { destruct Hd2. constructor; try done; [by apply qinv_inert|by apply queries_ok_inert]. }
  assert (queries (qs d3) !! q = Some (set_ttl (reactivate_interval cfg) nq)) as Hn3 by (cbn; by rewrite lookup_alter_eq, Hnq).
  unfold get_query. rewrite Hn3. cbn [of_option mbind comp_bind].
  destruct (udp_send_safe now (q_sock (set_ttl (reactivate_interval cfg) nq)) s (dnsbuf d3) (zlen (dnsbuf d3)) d3 (di_net _ _ _ Hd3) Hs)
    as (rc & d4 & -> & Hf4 & Hw4 & _). cbn [mbind comp_bind].
  pose proof (dinv_frame _ _ _ _ Hf4 Hw4 Hd3) as Hd4. destruct (di_dummy _ _ _ Hd4) as [Hb4 Hl4].
  destruct (load_id_ok (dnsbuf d4) Hl4) as (x & y & m4 & Hm4 & ->). cbn [mbind comp_bind]. rewrite Hm4, store_id_ok in *.
  cbn [mbind comp_bind]. do 2 eexists. split; [done|]. injection Hf4 as Hq4 _ _ _ _ _ Ho4.
  split; [exists (k1 ++ q :: k2), lc; destruct Hd4; constructor; try done|].
  - cbn. split; [|exact Hl4]. apply Forall_cons in Hb4 as [_ [_ Hm]%Forall_cons].
    repeat constructor; (apply lo8_byte || apply hi8_byte || done).
  - cbn [qs oscalls with_dnsbuf]. rewrite Hq4, Ho4. destruct Hnext as (Hnf & Hna & Hns). split; [|by split].
    eapply Forall_impl; [exact Hnf|]. intros o' Ho' H0. destruct (Ho' H0) as [Hfa Hfs]. split; [|exact Hfs].
    cbn. destruct (decide (os_addr o' = q)) as [Heq|Hne]; [rewrite Heq in *; by rewrite lookup_alter_eq, Hfa|by rewrite lookup_alter_ne].
Qed.

(** A pass over the servers of a domain, and one over the domains. *)
Lemma server_pass (body : ptr -> daemon -> comp daemon) dom d : is_domain dom ->
  (forall s d, s ∈ t_srvs T dom -> ready d -> exists d', body s d = Ok d' /\ ready d') -> ready d ->
  exists d', ring_iter (fun d => srvs (wnet d)) body (S (size (srvs (wnet d)))) (t_list T dom) (t_list T dom) d = Ok d' /\ ready d'.
Proof.
  intros Hdom Hbody Hd.
  assert (forall d, ready d -> ring (srvs (wnet d)) (t_list T dom) (t_srvs T dom)) as Hring.
  { intros d' Hd'. pose proof (ready_net d' Hd') as Hw. destruct (no_dom _ Hw dom Hdom) as (n & Hn & Hr & _).
    by rewrite <- (no_list _ Hw dom n Hdom Hn). }
  pose proof (ring_size _ _ _ (Hring d Hd)) as Hsz.
  destruct (ring_iter_ok (fun d => srvs (wnet d)) body ready (t_list T dom) (t_srvs T dom) Hring Hbody
    (S (size (srvs (wnet d)))) [] (t_srvs T dom) d eq_refl Hd) as (d' & He & _ & Hd'); [lia|]. eauto.
Qed.

Lemma domain_pass (body : ptr -> daemon -> comp daemon) d :
  (forall dom d, is_domain dom -> ready d -> exists d', body dom d = Ok d' /\ ready d') -> ready d ->
  exists d', each_domain (t_head T) body d = Ok d' /\ ready d'.
Proof.
  intros Hbody Hd. unfold each_domain. destruct (Hbody (t_head T) d) as (d1 & -> & Hd1); [by left|done|]. cbn [mbind comp_bind].
  assert (forall d, ready d -> ring (doms (wnet d)) (t_head T) (t_doms T)) as Hring
    by (intros d' Hd'; apply (ready_net d' Hd')).
  pose proof (ring_size _ _ _ (Hring d1 Hd1)) as Hsz.
  destruct (ring_iter_ok (fun d => doms (wnet d)) body ready (t_head T) (t_doms T) Hring
    (fun q d' Hq => Hbody q d' (list_elem_of_further _ _ _ Hq)) (S (size (doms (wnet d1)))) [] (t_doms T) d1 eq_refl Hd1)
    as (d' & He & _ & Hd'); [lia|]. eauto.
Qed.

Lemma ready_tries r x d : ready d -> ready (with_tries r x d).
Proof. intros [(l & lc & Hd) Hos]. split; [|done]. exists l, lc. by destruct Hd. Qed.

Lemma reactivate_servers_safe srcaddr interval d : ready d ->
  exists d', reactivate_servers cfg (t_head T) now srcaddr interval d = Ok d' /\ ready d'.
Proof.
  intros Hd. unfold reactivate_servers. set (d0 := if last_reactivate d =? 0 then _ else d).
  assert (ready d0) as Hd0 by (unfold d0; case_if; [by apply ready_tries|done]).
  case_if; [eauto|]. apply domain_pass; [|by apply ready_tries]. intros dom d1 Hdom Hd1.
  pose proof (ready_net d1 Hd1) as Hw. destruct (no_dom _ Hw dom Hdom) as (n & Hn & Hok).
  unfold get_dom. rewrite Hn. cbn [of_option mbind comp_bind].
  rewrite (no_srvlist_ring _ _ (t_srvs T dom)) by apply Hok. cbn [mbind comp_bind]. case_if; [eauto|].
  unfold retry_srvlist, get_dom. rewrite Hn. cbn [of_option mbind comp_bind]. rewrite (no_list _ Hw dom n Hdom Hn).
  apply (server_pass _ dom d1 Hdom); [|done]. intros s d2 Hs Hd2.
  assert (is_server s) as Hsrv by (by exists dom).
  destruct (net_server _ _ (ready_net d2 Hd2) Hsrv) as [sn Hsn]. unfold get_srv. rewrite Hsn. cbn [of_option mbind comp_bind].
  case_if; [|eauto].
  destruct (udp_send_dummy_safe srcaddr s (with_net (upd_srv (set_inactive now) s (wnet d2)) d2) Hsrv) as (rc & d3 & -> & Hd3);
    [by apply ready_upd|]. cbn [mbind comp_bind]. by exists d3.
Qed.

Lemma deactivate_server_safe dom s w : is_domain dom -> s ∈ t_srvs T dom -> net_ok w ->
  exists w', deactivate_server cfg now dom s w = Ok w' /\ net_ok w'.
Proof.
  intros Hdom Hs Hw. assert (is_server s) as Hsrv by (by exists dom).
  destruct (net_server _ _ Hw Hsrv) as [sn Hsn]. unfold deactivate_server, get_srv. rewrite Hsn. cbn [of_option mbind comp_bind].
  case_if; [eauto|]. case_if; [|eauto].
  assert (net_ok (upd_srv (set_inactive now) s w)) as Hw1 by (by apply net_ok_upd).
  destruct (no_dom _ Hw1 dom Hdom) as (n & Hn & _). unfold get_dom. rewrite Hn. cbn [of_option mbind comp_bind].
  case_if; [|eauto]. destruct (deactivate_current_safe now _ dom now_nonzero Hdom Hw1) as (w' & -> & Hw' & _). eauto.
Qed.

Lemma deactivate_servers_safe interval d : ready d ->
  exists d', deactivate_servers cfg (t_head T) now interval d = Ok d' /\ ready d'.
Proof.
  intros Hd. unfold deactivate_servers. set (d0 := if last_deactivate d =? 0 then _ else d).
  assert (ready d0) as Hd0 by (unfold d0; case_if; [by apply ready_tries|done]).
  case_if; [eauto|]. apply domain_pass; [|by apply ready_tries]. intros dom d1 Hdom Hd1.
  pose proof (ready_net d1 Hd1) as Hw. destruct (no_dom _ Hw dom Hdom) as (n & Hn & _).
  unfold get_dom. rewrite Hn. cbn [of_option mbind comp_bind]. rewrite (no_list _ Hw dom n Hdom Hn).
  assert (forall w, net_ok w -> ring (srvs w) (t_list T dom) (t_srvs T dom)) as Hring.
  { intros w Hw'. destruct (no_dom _ Hw' dom Hdom) as (n' & Hn' & Hr & _). by rewrite <- (no_list _ Hw' dom n' Hdom Hn'). }
  pose proof (ring_size _ _ _ (Hring _ Hw)).
  destruct (ring_iter_ok srvs (deactivate_server cfg now dom) net_ok (t_list T dom) (t_srvs T dom) Hring
    (fun s w Hs Hw' => deactivate_server_safe dom s w Hdom Hs Hw') (S (size (srvs (wnet d1)))) [] (t_srvs T dom) (wnet d1) eq_refl Hw)
    as (w' & He & _ & Hw'); [lia|].
  change (before (t_list T dom) []) with (t_list T dom) in He. rewrite He. cbn [mbind comp_bind].
  eexists. split; [done|]. destruct Hd1 as [(l & lc & Hd1) Hos]. split; [|done]. exists l, lc. by apply (dinv_frame d1).
Qed.

Lemma maintain_safe srcaddr d : daemon_ok d -> os_list_ok (qs d) (oscalls d) ->
  exists d', maintain cfg (t_head T) now srcaddr d = Ok d' /\ daemon_ok d'.
Proof.
  intros Hd Hos. unfold maintain. case_if; [eauto|].
  destruct (reactivate_servers_safe srcaddr (reactivate_interval cfg) d) as (d1 & -> & Hd1); [by split|]. cbn [mbind comp_bind].
  case_if; [exists d1; split; [done|apply Hd1]|].
  destruct (deactivate_servers_safe 1 d1 Hd1) as (d2 & -> & Hd2). exists d2. split; [done|apply Hd2].
Qed.

Lemma query_timeout_keeps st l : qinv st l [] -> queries_ok st l ->
  exists st' l', query_timeout now st = Ok st' /\ qinv st' l' [] /\ queries_ok st' l'.
Proof.
  intros Hi Hok. unfold query_timeout.
  pose proof (ring_size _ _ _ (qi_ring _ _ _ Hi)) as Hsz.
  destruct (timeout_loop_ok (size (queries st)) now (timeout_fuel st) st [] l [] 0) as (st' & l' & He & (Hi' & Hsub & _ & Hc) & _).
  { done. } { cbn. lia. } { unfold timeout_fuel. cbn [app]. nia. }
  change (before qlist []) with qlist in He. rewrite He. cbn [mbind comp_bind].
  eexists _, l'. split; [done|]. split; [by destruct Hi'|].
  apply (queries_ok_core st _ l); [|done]. intros a Ha. split; [by apply (sublist_subseteq l')|by apply Hc].
Qed.

Lemma query_stats_safe stats_reset interval d l lc : dinv d l lc -> dinv (query_stats stats_reset now interval d) l lc.
Proof.
  intros Hd. unfold query_stats. case_if; [done|]. case_if; [|done].
  assert (dinv (with_stats now (last_srv_stats d) d) l lc) as Hd1 by (by destruct Hd).
  case_if; [|done]. destruct Hd1 as [? Hq ? Hc ? ? ? ?]. constructor; try done; [by destruct Hq|].
  destruct Hc as [Hi ? ?]. constructor; try done. by destruct Hi.
Qed.

Lemma expire_all_safe stats_interval stats_reset `{Q : Qsort} `{!QsortSpec Q} d : daemon_ok d ->
  exists d', expire_all stats_interval stats_reset now d = Ok d' /\ daemon_ok d'.
Proof.
  intros (l & lc & Hd). unfold expire_all.
  destruct (cache_expire_safe now (cs d) lc (di_cache _ _ _ Hd)) as (c & lc' & -> & Hc). cbn [mbind comp_bind].
  destruct (query_timeout_keeps (qs d) l (di_qs _ _ _ Hd) (di_queries _ _ _ Hd)) as (st & l' & -> & Hi & Hok). cbn [mbind comp_bind].
  eexists. split; [done|]. exists l', lc'.
  assert (dinv (with_qs st (with_cs c d)) l' lc') as Hd1 by (by destruct Hd).
  apply (query_stats_safe stats_reset stats_interval) in Hd1. unfold srv_stats. case_if; [|done]. by destruct Hd1.
Qed.

End settings.

(** * Turns of the main loop *)

Section turns.
Context (cfg : config) (fs : files) (isock ignore_inactive_cache_hits stats_interval stats_reset : Z)
  (y0 : rr_t) (dom0 : list Z) `{Q : Qsort}.

(** The parts of a turn. *)
Inductive action :=
| Maintain (srcaddr : sockaddr)
| Replies (addrs : list ptr) (replies : gmap Z (option (in_addr * list Z)))
| Request (input : option (sockaddr * list Z))
| Expire
| Reload.

Definition actions (srcaddr : sockaddr) (addrs : list ptr) (e : event) : list action :=
  Maintain srcaddr ::
  match e with
  | SelectError eintr => if (eintr : bool) then [Reload] else []
  | Idle => [Expire]
  | Ready replies request =>
      Replies addrs replies :: match request with Some input => [Request input; Expire] | None => [Expire] end
  end.

Definition perform (now : Z) (a : action) (d : daemon) : comp daemon :=
  match a with
  | Maintain srcaddr => maintain cfg (t_head T) now srcaddr d
  | Replies addrs replies => reply_loop isock y0 (reply_fuel d) now addrs qlist replies d
  | Request input =>
      '(_, d) ← udp_handle_request cfg fs (t_head T) isock ignore_inactive_cache_hits y0 dom0 now input d; mret d
  | Expire => expire_all stats_interval stats_reset now d
  | Reload => m ← master_reinit fs dom0 (ms d); mret (with_ms m d)
  end.

Fixpoint perform_all (now : Z) (acts : list action) (d : daemon) : comp daemon :=
  match acts with [] => Ok d | a :: acts' => d ← perform now a d; perform_all now acts' d end.

(** What the operating system and the network may do before an action:
    addresses and sockets are fresh when they are handed out, datagrams are
    bytes, and no request carries the identifier of a probe. *)
Definition possible (a : action) (d : daemon) : Prop :=
  match a with
  | Maintain _ => os_list_ok (qs d) (oscalls d)
  | Replies addrs replies => replies_ok replies /\ addrs_ok d addrs /\ (reply_fuel d <= length addrs)%nat
  | Request input =>
      os_list_ok (qs d) (oscalls d) /\ match input with Some (_, data) => request_ok d data | None => True end
  | Expire | Reload => True
  end.

Fixpoint possible_all (now : Z) (acts : list action) (d : daemon) : Prop :=
  match acts with
  | [] => True
  | a :: acts' => possible a d /\ forall d', perform now a d = Ok d' -> possible_all now acts' d'
  end.

Definition turn (now : Z) (srcaddr : sockaddr) (addrs : list ptr) (e : event) (d : daemon) : comp daemon :=
  run_turn cfg fs (t_head T) isock ignore_inactive_cache_hits stats_interval stats_reset y0 dom0 now srcaddr addrs e d.

Lemma bind_ok_r {A} (c : comp A) : (a ← c; Ok a) = c.
Proof. by destruct c. Qed.

Lemma turn_actions now srcaddr addrs e d : turn now srcaddr addrs e d = perform_all now (actions srcaddr addrs e) d.
Proof.
  unfold turn, run_turn, actions. cbn [perform_all perform]. destruct (maintain _ _ _ _ d) as [d1|]; [|done]. cbn [mbind comp_bind].
  destruct e as [[]| |replies [input|]]; cbn [perform_all perform]; rewrite ?bind_ok_r; try done;
    destruct (reply_loop _ _ _ _ _ _ _ d1) as [d2|]; try done; cbn [mbind comp_bind].
  - destruct (udp_handle_request _ _ _ _ _ _ _ _ _ _) as [[r d3]|]; [|done]. cbn [mbind comp_bind]. unfold mret, comp_ret. cbn [mbind comp_bind]. by rewrite bind_ok_r.
  - unfold mret, comp_ret. cbn [mbind comp_bind]. by rewrite bind_ok_r.
Qed.

Context (S_ok : settings_ok cfg fs y0 dom0) `{HQ : !QsortSpec Q}.

Lemma perform_safe now a d : time_ok now -> daemon_ok d -> possible a d ->
  exists d', perform now a d = Ok d' /\ daemon_ok d'.
Proof.
  intros Hnow Hd Hp. destruct a as [srcaddr|addrs replies|input| |]; cbn [perform possible] in *.
  - by eapply maintain_safe.
  - destruct Hp as (Hr & Ha & Hl). destruct Hd as (l & lc & Hd).
    pose proof (ring_size _ _ _ (qi_ring _ _ _ (di_qs _ _ _ Hd))).
    apply (reply_loop_safe cfg fs isock y0 dom0 S_ok now Hnow replies (size (queries (qs d))) (reply_fuel d) addrs d [] l lc);
      try done; cbn [app]; [lia|]. unfold reply_fuel, timeout_fuel. nia.
  - destruct Hp as (Hos & Hin). destruct Hd as (l & lc & Hd).
    destruct (udp_handle_request_safe cfg fs isock ignore_inactive_cache_hits y0 dom0 S_ok now Hnow input d l lc) as (r & d' & -> & Hd');
      [done..|]. cbn [mbind comp_bind]. by exists d'.
  - by apply expire_all_safe.
  - destruct Hd as (l & lc & Hd). destruct (master_reinit_safe fs dom0 (so_master _ _ _ _ S_ok) (ms d) (di_master _ _ _ Hd)) as (m & -> & Hm).
    cbn [mbind comp_bind]. eexists. split; [done|]. exists l, lc. by destruct Hd.
Qed.

Lemma perform_all_safe now acts d : time_ok now -> daemon_ok d -> possible_all now acts d ->
  exists d', perform_all now acts d = Ok d' /\ daemon_ok d'.
Proof.
  intros Hnow. revert d; induction acts as [|a acts IH]; intros d Hd Hp; [by exists d|].
  destruct Hp as [Hp Hnext]. destruct (perform_safe now a d Hnow Hd Hp) as (d1 & He & Hd1).
  cbn [perform_all]. rewrite He. cbn [mbind comp_bind]. apply IH; [done|]. by apply Hnext.
Qed.

Lemma turn_safe now srcaddr addrs e d : time_ok now -> daemon_ok d -> possible_all now (actions srcaddr addrs e) d ->
  exists d', turn now srcaddr addrs e d = Ok d' /\ daemon_ok d'.
Proof. rewrite turn_actions. apply perform_all_safe. Qed.

(** Between two turns the results of the next system calls come in. *)
Definition refresh (ss : list Z) (os : list oscall) (d : daemon) : daemon :=
  Daemon (wnet d) (qs d) (cs d) (ms d) (req_msg d) (rep_msg d) (dnsbuf d) (last_reactivate d) (last_deactivate d)
    (last_query_stats d) (last_srv_stats d) ss os (sent d).

(** The states at the start of a turn. *)
Inductive reachable (d0 : daemon) : daemon -> Prop :=
| reach_start : reachable d0 d0
| reach_calls d ss os : reachable d0 d -> reachable d0 (refresh ss os d)
| reach_turn d now srcaddr addrs e d' : reachable d0 d -> time_ok now ->
    possible_all now (actions srcaddr addrs e) d -> turn now srcaddr addrs e d = Ok d' -> reachable d0 d'.

Lemma reachable_ok d0 d : daemon_ok d0 -> reachable d0 d -> daemon_ok d.
Proof.
  intros H0 Hr. induction Hr as [|d ss os _ IH|d now srcaddr addrs e d' _ IH Hnow Hp He]; [done| |].
  - destruct IH as (l & lc & Hd). exists l, lc. by destruct Hd.
  - destruct (turn_safe now srcaddr addrs e d Hnow IH Hp) as (d1 & He1 & Hd1). congruence.
Qed.
End turns.

End daemon.

(** * A query and its answer *)

(** Sending to the current server when the network takes the datagram. *)
Lemma send2current_sends cfg now q n dom nd c s msg len d : queries (qs d) !! q = Some n -> q_domain n = Some dom ->
  doms (wnet d) !! dom = Some nd -> current nd = Some c -> srvs (wnet d) !! c = Some s -> sends d = [] ->
  exists d', send2current cfg now q msg len d = Ok (len, d') /\ frame d d' /\
    sent d' = sent d ++ [(q_sock n, (addr s, 53), take (Z.to_nat len) msg)] /\
    addr <$> srvs (wnet d') !! c = Some (addr s).
Proof.
  intros Hn Hdom Hnd Hc Hs Hok. unfold send2current, get_query. rewrite Hn. cbn [of_option mbind comp_bind]. rewrite Hdom.
  cbn [send2current_loop]. unfold get_dom. rewrite Hnd. cbn [of_option mbind comp_bind]. rewrite Hc.
  unfold udp_send, get_srv. rewrite Hs. cbn [of_option mbind comp_bind sendto]. rewrite Hok. cbn [head default].
  change (default len (list.head [])) with len. rewrite Z.eqb_refl. cbn [negb mbind comp_bind]. rewrite Z.eqb_refl. eexists. split; [done|].
  split; [done|]. split; [done|]. cbn. rewrite lookup_alter_eq, Hs. cbn. by case_if.
Qed.

(** The state behind a forwarded query: what has been sent, and what the
    reply will need. *)
Record forwarded (T : topology) (d1 d2 : daemon) (l lc : list ptr) (o : oscall) (from : sockaddr) (cid : Z) (rest : list Z)
    (len : Z) (dom : ptr) (s : srvnode_t) (n : query_t) : Prop := {
  fw_inv : qinv (qs d2) (l ++ [os_addr o]) [];
  fw_node : queries (qs d2) !! os_addr o = Some n;
  fw_client : client n = from /\ client_qid n = cid /\ q_domain n = Some dom /\ q_sock n = os_socket o;
  fw_fresh : my_qid n ∉ qids_of (qs d1) l;
  fw_server : addr <$> srvs (wnet d2) !! q_srv n = Some (addr s);
  fw_cache : cs d2 = cs d1;
  fw_buffer : rep_msg d2 = rep_msg d1;
  fw_sent : sent d2 = sent d1 ++ [(os_socket o, (addr s, 53), take (Z.to_nat len) (hi8 (my_qid n) :: lo8 (my_qid n) :: rest))] }.

Lemma request_forwarded T cfg fs hd isock ign y0 dom0 now from data msg len d l lc r a b rest dom d1 nd c s o os :
  recv_into (req_msg d) data = (msg, len) -> check_query msg len = Ok r -> 0 <= r -> 0 < len ->
  handle_query cfg fs hd ign y0 dom0 now msg len (with_req msg d) = Ok (1, a :: b :: rest, len, Some dom, d1) ->
  dinv T d1 l lc -> is_domain T dom -> doms (wnet d1) !! dom = Some nd -> current nd = Some c -> srvs (wnet d1) !! c = Some s ->
  oscalls d1 = o :: os -> os_ok (qs d1) o -> 0 <= os_socket o ->
  upstream_sockets (qs d1) < max_sockets cfg <= QID_POOL_SIZE -> sends d1 = [] ->
  Some (a + 256 * b) ∉ client_ids (qs d1) l ->
  exists d2 n, udp_handle_request cfg fs hd isock ign y0 dom0 now (Some (from, data)) d = Ok (Some (os_addr o), d2) /\
    forwarded T d1 d2 l lc o from (a + 256 * b) rest len dom s n.
Proof.
  intros Hrecv Hcq Hr Hlen Hh Hd Hdom Hnd Hc Hs Hos Ho Ho0 Hroom Hsends Hid.
  unfold udp_handle_request. rewrite Hrecv, Hcq. cbn [mbind comp_bind]. rewrite (proj2 (Z.ltb_ge _ _) Hr), Hh.
  cbn [mbind comp_bind]. change (1 <? 0) with false. change (1 =? 0) with false. cbv iota zeta.
  cbn [of_option mbind comp_bind]. unfold get_dom. change (wnet (with_req (a :: b :: rest) d1)) with (wnet d1). rewrite Hnd.
  cbn [of_option mbind comp_bind]. rewrite Hc. cbn [of_option mbind comp_bind]. unfold take_os. cbn [oscalls with_req].
  rewrite Hos. cbn [list.head tail default]. unfold id. cbn [qs wnet with_req].
  destruct (Ho Ho0) as (Hfa & Hfs & Hfd).
  destruct (query_add_new_ok cfg o now (Some dom) c from (wnet d1) (qs d1) l [] a b rest s) as
    (n & w' & st' & -> & Hi & Hcore & Hcl & Hcid & _ & Hsrv & Hqd & _ & Hfr & _ & -> & Hsk); try done; [apply Hd|apply (no_prepared _ _ (di_net _ _ _ _ Hd) c s Hs)|].
  cbn [mbind comp_bind]. cbv zeta. cbn [qs with_req with_qs with_net].
  rewrite (ring_next_before _ _ l [os_addr o] (qi_ring _ _ _ Hi)).
  change (default qlist (list.head [os_addr o])) with (os_addr o). cbn [mbind comp_bind].
  destruct (queries st' !! os_addr o) as [n'|] eqn:Hn'; [|done]. cbn [fmap option_fmap option_map] in Hcore. apply (inj Some) in Hcore as Hcn. unfold core in Hcn. injection Hcn as E1 E2 E3 E4 E5 E6 _ _ _.
  set (d2 := with_req _ _).
  destruct (send2current_sends cfg now (os_addr o) n' dom nd c (set_newquery None s) (hi8 (my_qid n) :: lo8 (my_qid n) :: rest) len d2)
    as (d3 & -> & Hf & Hsent & Haddr); [done|congruence|done|done| |exact Hsends|].
  { cbn. by rewrite lookup_alter_eq, Hs. }
  cbn [mbind comp_bind]. rewrite (proj2 (Z.ltb_lt _ _) Hlen). injection Hf as Fq Fc _ _ Fr _ _.
  exists d3, n'. split; [done|]. constructor.
  - by rewrite Fq.
  - by rewrite Fq.
  - split_and!; congruence.
  - rewrite E4. rewrite app_nil_r in Hfr. done.
  - rewrite E2, Hsrv. exact Haddr.
  - by rewrite Fc.
  - by rewrite Fr.
  - rewrite Hsent, E1, Hsk, E4. done.
Qed.

(** * A demonstration *)

#[local] Existing Instances insertion_sort insertion_sort_spec.

Definition no_files : files := fun _ => None.

(** Without files the table holds the local host and its reverse domain. *)
Lemma no_files_fit : config_fits no_files [].
Proof.
  split; [by_decide|]. intros [db mx on ini rel] st' Hdb. cbn in Hdb. subst db. unfold master_init. cbn [master_onoff].
  destruct (on =? 0); [by intros [= <-]|].
  intros H. apply (f_equal (fun c => match c with Ok s => dbv s | Fault _ => [] end)) in H. vm_compute in H.
  match type of H with ?L = _ => change (L = dbv st') in H end. unfold fits, answer_room. rewrite <- H. by vm_compute.
Qed.

(** The example daemon of the relay has one domain with two servers. *)
Definition demo_topology : topology := Topo 1%positive [] (fun _ => 1%positive) (fun _ => [2%positive; 3%positive]).

Lemma demo_settings : settings_ok demo_cfg no_files rr_blank [].
Proof. constructor; [done|by_decide|apply no_files_fit|split; [done|by_decide]]. Qed.

Lemma demo_net : net_ok demo_topology (wnet demo_daemon).
Proof.
  constructor.
  - split; [done|by_decide].
  - intros d [->|Hd]%elem_of_cons; [|by apply elem_of_nil in Hd]. eexists. split; [done|]. split; [apply two_servers_ring|split; [done|by_decide]].
  - constructor.
  - assert (map_Forall (fun _ s => newquery s = None) two_servers) as H by by_decide. exact H.
  - intros d n [->|Hd]%elem_of_cons; [|by apply elem_of_nil in Hd]. by intros [= <-].
  - intros d d' n _ [->|Hd]%elem_of_cons; [|by apply elem_of_nil in Hd]. intros [= <-]. by_decide.
Qed.

Lemma demo_dinv : dinv demo_topology demo_daemon [2%positive; 3%positive; 4%positive] [10%positive; 11%positive; 12%positive].
Proof.
  assert (is_server demo_topology 2%positive) as Hsrv by (exists 1%positive; split; [by left|by_decide]).
  constructor.
  - apply demo_net.
  - apply demo_daemon_queries.
  - repeat constructor; eexists; (split; [done|]); (split; [exact Hsrv|done || by left]).
  - cbn [cs demo_daemon]. constructor; [apply demo_cache_inv| |by_decide].
    repeat (apply Forall_cons; split; [eexists; split; [done|]; split; [by_decide|split; [by_decide|split; [exact Hsrv|by_decide]]]|]).
    constructor.
  - cbn [ms demo_daemon]. intros _. split; [constructor|by vm_compute].
  - cbn [req_msg demo_daemon]. split; [by_decide|]. by split.
  - cbn [rep_msg demo_daemon]. split; [by_decide|]. by split.
  - cbn [dnsbuf demo_daemon]. split; by_decide.
Qed.

Lemma demo_daemon_ok : daemon_ok demo_topology demo_daemon.
Proof. eexists _, _. exact demo_dinv. Qed.

(** A query for the root leaves the name of the uninitialised [query] as it
    is, and [strlen] reads past it when it holds no NUL. *)
Example root_query_overreads :
  udp_handle_request demo_cfg no_files 1%positive 9 0 (Rr 0 (replicate 256 65) 0 0 0 0 (replicate 256 0)) [] 6000
    (Some (((10, 0, 0, 7), 4000), [0; 9; 1; 0; 0; 1; 0; 0; 0; 0; 0; 0; 0; 0; 1; 0; 1])) demo_daemon = Fault ReadOOB.
Proof. reflexivity. Qed.

(** * Properties *)


Definition demo_ready : daemon := refresh [] [Os 9%positive 8] demo_daemon.
Definition demo_addrs : list ptr := Pos.of_nat <$> seq 20 30.
Definition demo_event : event := Ready ∅ (Some (Some (((10, 0, 0, 7), 4000), demo_d_query))).
Definition demo_source : sockaddr := ((0, 0, 0, 0), 0).

Lemma demo_os_ok : os_list_ok (qs demo_ready) [Os 9%positive 8].
Proof.
  split; [|split; by_decide]. constructor; [|done]. intros _. split; [done|]. split; [|done].
  change (fdmaster (qs demo_ready)) with ({[5; 6; 7]} : gset Z). by_decide.
Qed.

Lemma demo_no_probe : no_probe (qs demo_ready) demo_d_query.
Proof.
  assert (map_Forall (fun p n => p = qlist \/ q_domain n <> None \/ client_qid n <> 0xcdab) (queries (qs demo_ready))) as H.
  { unfold demo_ready, refresh, demo_daemon. cbn [qs with_queries queries three_queries three_with]. by_decide. }
  intros p n Hp Hn Hd. specialize (H p n Hn). destruct H as [|[|H]]; [done|done|]. change (load_id demo_d_query) with (Ok 0xcdab). intros [= E]. by apply H.
Qed.

Lemma demo_possible : possible_all demo_topology demo_cfg no_files 9 0 60 1 rr_blank [] 6000
  (actions demo_source demo_addrs demo_event) demo_ready.
Proof.
  cbn [actions demo_event possible_all perform]. split; [exact demo_os_ok|]. intros d1 H1.
  assert (maintain demo_cfg 1%positive 6000 demo_source demo_ready = Ok (with_tries 6000 6000 demo_ready)) as E1 by reflexivity.
  change (t_head demo_topology) with 1%positive in H1. rewrite E1 in H1. injection H1 as <-.
  split.
  { split; [intros k i; by rewrite lookup_empty|]. split; [split|].
    - by_decide.
    - change (cs (with_tries 6000 6000 demo_ready)) with demo_cache. by_decide.
    - unfold reply_fuel, timeout_fuel. unfold demo_ready, refresh, demo_daemon. cbn [with_tries qs with_queries queries three_queries three_with]. by_decide. }
  intros d2 H2.
  assert (reply_loop 9 rr_blank (reply_fuel (with_tries 6000 6000 demo_ready)) 6000 demo_addrs qlist ∅ (with_tries 6000 6000 demo_ready) =
    Ok (with_tries 6000 6000 demo_ready)) as E2 by reflexivity.
  rewrite E2 in H2. injection H2 as <-.
  split; [|intros d3 _; split; [exact I|intros d4 _; exact I]]. split; [exact demo_os_ok|]. split; [by_decide|exact demo_no_probe].
Qed.


(** C25: a relayed query comes back to its client: a query that is forwarded
    leaves through its own new socket under a fresh identifier, and whatever
    well-formed reply the server sends there goes to the client that asked,
    under the identifier the client chose; the query is then forgotten.  The
    socket the system gives is new and fits an [fd_set], and the uninitialised
    record the reply is parsed into holds a NUL. *)
Theorem relayed_query_returns T cfg fs hd isock ign y0 dom0 now from data msg len d l lc r a b rest dom d1 nd c s o os :
  recv_into (req_msg d) data = (msg, len) -> check_query msg len = Ok r -> 0 <= r -> 0 < len ->
  handle_query cfg fs hd ign y0 dom0 now msg len (with_req msg d) = Ok (1, a :: b :: rest, len, Some dom, d1) ->
  dinv T d1 l lc -> is_domain T dom -> doms (wnet d1) !! dom = Some nd -> current nd = Some c -> srvs (wnet d1) !! c = Some s ->
  oscalls d1 = o :: os -> os_ok (qs d1) o -> 0 <= os_socket o ->
  upstream_sockets (qs d1) < max_sockets cfg <= QID_POOL_SIZE -> sends d1 = [] ->
  is_byte a -> is_byte b -> Some (a + 256 * b) ∉ client_ids (qs d1) l ->
  zlen (rr_name y0) = RR_NAMESIZE -> 0 ∈ rr_name y0 ->
  exists d2 id,
    udp_handle_request cfg fs hd isock ign y0 dom0 now (Some (from, data)) d = Ok (Some (os_addr o), d2) /\
    (id ∉ qids_of (qs d1) l) /\
    sent d2 = sent d1 ++ [(os_socket o, (addr s, 53), take (Z.to_nat len) (hi8 id :: lo8 id :: rest))] /\
    forall now' a' reply fl, entries (cs d2) !! a' = None -> bytes reply -> 12 <= zlen reply <= UDP_MAXSIZE ->
      rd16 reply 2 = Ok fl -> Z.land fl MASK_Z = 0 -> Z.land fl MASK_QR <> 0 ->
      exists d3, udp_handle_reply isock y0 now' a' (before qlist l) (Some (addr s, reply)) d2 = Ok d3 /\
        sent d3 = sent d2 ++ [(isock, from, a :: b :: drop 2 reply)] /\ qinv (qs d3) l [].
Proof.
  intros Hrecv Hcq Hr Hlen Hh Hd Hdom Hnd Hc Hs Hos Ho Ho0 Hroom Hsends Ha Hb Hid Hy Hy0.
  destruct (request_forwarded T cfg fs hd isock ign y0 dom0 now from data msg len d l lc r a b rest dom d1 nd c s o os)
    as (d2 & n & He & [Hi Hn (Hcl & Hcid & Hdm & _) Hfr Hsrv Hcs Hrep Hsent]); try done.
  exists d2, (my_qid n). do 3 (split; [done|]). intros now' a' reply fl Hfree Hrb Hrl Hfl Hz Hqr.
  destruct (srvs (wnet d2) !! q_srv n) as [s2|] eqn:Hs2; [|done]. injection Hsrv as Haddr. rewrite <- Haddr. unfold is_byte in Ha, Hb.
  destruct (reply_delivers isock y0 now' a' d2 l (os_addr o) [] [] lc n s2 dom reply fl) as (d3 & lc' & He3 & Hsent3 & Hi3 & _);
    rewrite ?Hcs, ?Hrep; try done.
  - apply (co_inv _ _ _ (di_cache _ _ _ _ Hd)).
  - by rewrite Hcs in Hfree.
  - rewrite Hcid. unfold is_u16. lia.
  - apply (di_rep _ _ _ _ Hd).
  - destruct (di_rep _ _ _ _ Hd) as (_ & -> & _). unfold UDP_MAXSIZE. lia.
  - exists d3. split; [exact He3|]. rewrite app_nil_r in Hi3. split; [|done].
    rewrite Hsent3, Hcl, Hcid. unfold lo8, hi8.
    rewrite (Z.mul_comm 256), Z_mod_plus, Z_div_plus, (Z.div_small a), !Z.mod_small by lia. by rewrite Z.add_0_l.
Qed.

(** C40: a query that carries the client identifier of an outstanding probe is
    taken for a repetition of the probe, which has no domain: an assertion
    fails and the daemon aborts. *)
Theorem probe_identifier_aborts T cfg fs hd isock ign y0 dom0 now from data msg len d r msg' len' dptr d1 l1 q l2 n :
  recv_into (req_msg d) data = (msg, len) -> check_query msg len = Ok r -> 0 <= r ->
  handle_query cfg fs hd ign y0 dom0 now msg len (with_req msg d) = Ok (1, msg', len', dptr, d1) ->
  forwardable T d1 dptr ->
  2 <= zlen msg' -> qinv (qs d1) (l1 ++ q :: l2) [] ->
  queries (qs d1) !! q = Some n -> q_domain n = None -> load_id msg' = Ok (client_qid n) ->
  Forall (fun p => client_qid <$> queries (qs d1) !! p <> Some (client_qid n)) l1 ->
  udp_handle_request cfg fs hd isock ign y0 dom0 now (Some (from, data)) d = Fault AssertFail.
Proof.
  intros Hrecv Hcq Hr Hh (dom & n0 & c & -> & _ & Hn0 & Hcur) Hlm Hi Hn Hdom Hid Hl1. unfold udp_handle_request. rewrite Hrecv, Hcq. cbn [mbind comp_bind].
  rewrite (proj2 (Z.ltb_ge _ _) Hr), Hh. cbn [mbind comp_bind]. change (1 <? 0) with false. change (1 =? 0) with false. cbv iota zeta.
  cbn [of_option mbind comp_bind]. unfold get_dom. change (wnet (with_req msg' d1)) with (wnet d1). rewrite Hn0.
  cbn [of_option mbind comp_bind]. rewrite Hcur. cbn [of_option mbind comp_bind take_os].
  destruct (split2 msg' Hlm) as (a & b & m & ->). unfold query_add. rewrite Hid. cbn [mbind comp_bind].
  cbn [qs wnet with_req].
  destruct (find_client_ok (S (size (queries (qs d1)))) (qs d1) [] (l1 ++ q :: l2) (client_qid n)) as
    [[_ Hno]|(k1 & y & k2 & Hl & Hy & Hk1 & Hf)].
  { by apply Hi. } { pose proof (ring_size _ _ _ (qi_ring _ _ _ Hi)). lia. }
  { exfalso. rewrite Forall_forall in Hno. apply (Hno q); [set_solver|]. by rewrite Hn. }
  assert (l1 = k1 /\ q = y) as [<- <-].
  { apply (first_split (fun p => client_qid <$> queries (qs d1) !! p = Some (client_qid n)) l1 q l2 k1 y k2); [done|done|done| |done].
    by rewrite Hn. }
  change (before qlist []) with qlist in Hf. rewrite Hf. cbn [mbind comp_bind app].
  rewrite (ring_next_before _ _ _ _ (qi_ring _ _ _ Hi)). change (default qlist (list.head (q :: l2))) with q. cbn [mbind comp_bind].
  unfold get_query. rewrite Hn. cbn [of_option mbind comp_bind]. rewrite store_id_ok. cbn [mbind comp_bind mret comp_ret].
  cbn [qs with_req with_qs with_net with_queries queries].
  set (h := alter (touch now) q (queries (qs d1))).
  assert (ring h qlist (l1 ++ q :: l2)) as Hr'.
  { apply (ring_ext (queries (qs d1))); [|apply Hi]. intros p _. by apply (alter_proj q_next). }
  rewrite (ring_next_before _ _ _ _ Hr'). change (default qlist (list.head (q :: l2))) with q. cbn [mbind comp_bind].
  unfold send2current, get_query. cbn [qs with_req with_qs with_net with_queries queries].
  unfold h. rewrite lookup_alter_eq, Hn. cbn [fmap option_fmap option_map of_option mbind comp_bind]. cbn [touch q_domain]. by rewrite Hdom.
Qed.

(** Requests to the example daemon, with the outstanding queries left
    abstract while they are evaluated. *)
Definition demo_query (a : Z) : list Z := a :: 0 :: drop 2 (take 23 demo_d_query).
Definition demo_msg (a : Z) : list Z := demo_query a ++ replicate 493 0.
Definition chosen (r : comp (Z * list Z * Z * option ptr * daemon)) : option daemon :=
  match r with Ok (_, _, _, _, d) => Some d | Fault _ => None end.
Definition demo_chosen (q : qstate) (ss : list Z) (os : list oscall) (a : Z) : daemon :=
  default (demo_with q ss os)
    (chosen (handle_query demo_cfg no_files 1%positive 0 rr_blank [] 6000 (demo_msg a) 23 (with_req (demo_msg a) (demo_with q ss os)))).

Lemma demo_chosen_eq q ss os a : a = 77 \/ a = 80 ->
  handle_query demo_cfg no_files 1%positive 0 rr_blank [] 6000 (demo_msg a) 23 (with_req (demo_msg a) (demo_with q ss os)) =
  Ok (1, demo_msg a, 23, Some 1%positive, demo_chosen q ss os a).
Proof. intros [-> | ->]; vm_compute; reflexivity. Qed.

Lemma demo_chosen_state q ss os a : a = 77 \/ a = 80 -> let d := demo_chosen q ss os a in
  qs d = q /\ sends d = ss /\ oscalls d = os /\ sent d = [] /\ entries (cs d) = entries demo_cache /\
  doms (wnet d) !! 1%positive = Some (Dom None 1%positive (Some 2%positive) 0 0 1%positive) /\
  srvs (wnet d) !! 2%positive = two_servers !! 2%positive.
Proof. intros [-> | ->]; vm_compute; split_and!; reflexivity. Qed.

Lemma demo_chosen_dinv ss os a : a = 77 \/ a = 80 -> dinv demo_topology (demo_chosen (qs demo_daemon) ss os a)
  [2%positive; 3%positive; 4%positive] [10%positive; 11%positive; 12%positive].
Proof.
  intros Ha. assert (message_ok (demo_msg a)) as Hm by (destruct Ha as [-> | ->]; (split; [by_decide|]; by split)).
  destruct (handle_query_safe demo_topology demo_cfg no_files 0 rr_blank [] demo_settings 6000 ltac:(by split)
    (demo_msg a) 23 (with_req (demo_msg a) (demo_with (qs demo_daemon) ss os)) [2%positive; 3%positive; 4%positive]
    [10%positive; 11%positive; 12%positive]) as (fwd & m & len & dp & d' & He & Hd & _); [|done|by_decide|].
  { pose proof demo_dinv as []. by constructor. }
  change (t_head demo_topology) with 1%positive in He. rewrite demo_chosen_eq in He by done. by injection He as _ _ _ _ <-.
Qed.

Lemma relayed_query_returns_witness :
  exists d2 id,
    udp_handle_request demo_cfg no_files 1%positive 9 0 rr_blank [] 6000 (Some (((10, 0, 0, 7), 4000), demo_query 80))
      (demo_with (qs demo_daemon) [] [Os 9%positive 8]) = Ok (Some 9%positive, d2) /\
    (id ∉ qids_of (qs (demo_chosen (qs demo_daemon) [] [Os 9%positive 8] 80)) [2%positive; 3%positive; 4%positive]) /\
    sent d2 = sent (demo_chosen (qs demo_daemon) [] [Os 9%positive 8] 80) ++
      [(8, ((10, 0, 0, 1), 53), take (Z.to_nat 23) (hi8 id :: lo8 id :: drop 2 (demo_msg 80)))] /\
    forall now' a' reply fl, entries (cs d2) !! a' = None -> bytes reply -> 12 <= zlen reply <= UDP_MAXSIZE ->
      rd16 reply 2 = Ok fl -> Z.land fl MASK_Z = 0 -> Z.land fl MASK_QR <> 0 ->
      exists d3, udp_handle_reply 9 rr_blank now' a' 4%positive (Some ((10, 0, 0, 1), reply)) d2 = Ok d3 /\
        sent d3 = sent d2 ++ [(9, ((10, 0, 0, 7), 4000), 80 :: 0 :: drop 2 reply)] /\
        qinv (qs d3) [2%positive; 3%positive; 4%positive] [].
Proof.
  destruct (demo_chosen_state (qs demo_daemon) [] [Os 9%positive 8] 80) as (Eq & Es & Eo & _ & _ & Ed & Ev); [by right|].
  pose proof (demo_chosen_dinv [] [Os 9%positive 8] 80 (or_intror eq_refl)) as Hd.
  apply (relayed_query_returns demo_topology demo_cfg no_files 1%positive 9 0 rr_blank [] 6000 ((10, 0, 0, 7), 4000) (demo_query 80)
    (demo_msg 80) 23 (demo_with (qs demo_daemon) [] [Os 9%positive 8]) [2%positive; 3%positive; 4%positive]
    [10%positive; 11%positive; 12%positive] 0 80 0 (drop 2 (demo_msg 80)) 1%positive (demo_chosen (qs demo_daemon) [] [Os 9%positive 8] 80)
    (Dom None 1%positive (Some 2%positive) 0 0 1%positive) 2%positive (Srv (10, 0, 0, 1) 0 0 0 0 None 3%positive)
    (Os 9%positive 8) []).
  - reflexivity.
  - reflexivity.
  - lia.
  - lia.
  - apply (demo_chosen_eq (qs demo_daemon) [] [Os 9%positive 8] 80). by right.
  - exact Hd.
  - by left.
  - exact Ed.
  - reflexivity.
  - etrans; [exact Ev|reflexivity].
  - exact Eo.
  - rewrite Eq. apply (proj1 (Forall_cons _ _ _) (proj1 demo_os_ok)).
  - by_decide.
  - rewrite Eq. change (upstream_sockets (qs demo_daemon)) with 3. by_decide.
  - exact Es.
  - by_decide.
  - by_decide.
  - rewrite Eq. change (client_ids (qs demo_daemon) _) with [Some 77; Some 78; Some 79]. by_decide.
  - reflexivity.
  - by_decide.
Defined.

Lemma probe_identifier_aborts_witness :
  udp_handle_request demo_cfg no_files 1%positive 9 0 rr_blank [] 6000 (Some (((10, 0, 0, 7), 4000), demo_query 77)) demo_daemon =
  Fault AssertFail.
Proof.
  destruct (demo_chosen_state (qs demo_daemon) [-1] [] 77) as (Eq & _ & _ & _ & _ & Ed & _); [by left|].
  apply (probe_identifier_aborts demo_topology demo_cfg no_files 1%positive 9 0 rr_blank [] 6000 ((10, 0, 0, 7), 4000) (demo_query 77)
    (demo_msg 77) 23 demo_daemon 0 (demo_msg 77) 23 (Some 1%positive) (demo_chosen (qs demo_daemon) [-1] [] 77) [] 2%positive [3%positive; 4%positive]
    (Query 5 2%positive None 65533 77 ((10, 0, 0, 9), 4000) 10 1 12 3%positive)).
  - reflexivity.
  - reflexivity.
  - lia.
  - apply demo_chosen_eq. by left.
  - eexists _, _, _. split; [done|]. split; [by left|]. by split; [exact Ed|].
  - by_decide.
  - rewrite Eq. exact demo_daemon_queries.
  - rewrite Eq. reflexivity.
  - reflexivity.
  - reflexivity.
  - constructor.
Defined.
