(* ===== verification/Match.v ===== *)
(** rinetd's pattern matcher (src/rinetd/match.c).  A pointer into a string is
    the rest of its buffer from there on, the terminating NUL included, so a
    read past the end of the buffer is a fault. *)
From S2P Require Import Prelude CString.

Definition deref (p : list Z) : comp Z := match p with c :: _ => Ok c | [] => Fault ReadOOB end.

Definition CASE (nocase : bool) (x : Z) : Z := if nocase then tolower x else x.

(** The word behind a star, the terminating NUL or bar counted in, and the
    position at its end. *)
Fixpoint scan_word (p : list Z) : comp (list Z * list Z) :=
  match p with
  | [] => Fault ReadOOB
  | c :: p' =>
      if c =? 42 then Ok ([], p)
      else if (c =? 0) || (c =? 124) then Ok ([c], p)
      else '(w, q) ← scan_word p'; mret (c :: w, q)
  end.

(** The test of one character of the word. *)
Definition word_char (nocase : bool) (x c : Z) : bool :=
  (CASE nocase x =? CASE nocase c) || ((x =? 0) && (c =? 124)) ||
  (negb (x =? 0) && negb (x =? 124) && (c =? 63)).

(** The word at a fixed position of the subject: the position behind it. *)
Fixpoint try_word (nocase : bool) (s w : list Z) : comp (option (list Z)) :=
  match w with
  | [] => Ok (Some s)
  | c :: w' =>
      x ← deref s;
      if word_char nocase x c then try_word nocase (tail s) w' else Ok None
  end.

(** The search for the word from a position of the subject on. *)
Fixpoint find_word (nocase : bool) (s w : list Z) : comp (option (list Z)) :=
  match s with
  | [] => try_word nocase [] w
  | x :: s' =>
      r ← try_word nocase s w;
      match r with
      | Some s'' => Ok (Some s'')
      | None => if x =? 0 then Ok None else find_word nocase s' w
      end
  end.

(** The position behind the next bar. *)
Fixpoint next_pattern (p : list Z) : comp (option (list Z)) :=
  match p with
  | [] => Fault ReadOOB
  | c :: p' => if c =? 0 then Ok None else if c =? 124 then Ok (Some p') else next_pattern p'
  end.

(** Each turn moves forward in the pattern, so its length bounds the turns. *)
Fixpoint match_loop (fuel : nat) (nocase : bool) (sorig s p : list Z) (escaped : bool) : comp Z :=
  match fuel with
  | O => Fault NoFuel
  | S fuel' =>
      let next p :=
        r ← next_pattern p;
        match r with None => Ok 0 | Some p => match_loop fuel' nocase sorig sorig p false end in
      c ← deref p;
      if escaped then
        x ← deref s;
        if (x =? 0) && (c =? 0) then Ok 1
        else if negb (CASE nocase c =? CASE nocase x) then next p
        else match_loop fuel' nocase sorig (tail s) (tail p) false
      else if c =? 92 then match_loop fuel' nocase sorig s (tail p) true
      else if c =? 42 then
        '(w, p) ← scan_word (tail p);
        r ← find_word nocase s w;
        match r with
        | None => next p
        | Some s =>
            e ← deref p;
            if (e =? 0) || (e =? 124) then Ok 1 else match_loop fuel' nocase sorig s p false
        end
      else if c =? 63 then match_loop fuel' nocase sorig (tail s) (tail p) false
      else
        x ← deref s;
        if (x =? 0) && ((c =? 0) || (c =? 124)) then Ok 1
        else if negb (CASE nocase c =? CASE nocase x) then next p
        else match_loop fuel' nocase sorig (tail s) (tail p) false
  end.

(** [sorig] and [p] are the buffers from the strings on. *)
Definition matchBody (sorig p : list Z) (nocase : bool) : comp Z :=
  match_loop (S (length p)) nocase sorig sorig p false.

Definition match_ (sorig p : list Z) : comp Z := matchBody sorig p false.
Definition matchNoCase (sorig p : list Z) : comp Z := matchBody sorig p true.

(** * The specification: words separated by stars *)

(** A word without special characters. *)
Definition plain (w : list Z) : Prop :=
  Forall (fun c => c <> 0 /\ c <> 42 /\ c <> 63 /\ c <> 92 /\ c <> 124) w.

#[export] Instance plain_dec w : Decision (plain w).
Proof. unfold plain. apply _. Defined.

(** The pattern [w0*w1*...*wk] as text. *)
Fixpoint stars (ws : list (list Z)) : list Z :=
  match ws with
  | [] => []
  | w :: ws' => 42 :: w ++ stars ws'
  end.
Definition pattern (w0 : list Z) (ws : list (list Z)) : list Z := w0 ++ stars ws.

(** What follows the first word: every word occurs in order, without
    overlap, and the last one ends the string. *)
Fixpoint rest_matches (s : list Z) (ws : list (list Z)) : Prop :=
  match ws with
  | [] => s = []
  | [w] => w `suffix_of` s
  | w :: ws' => exists x y, s = x ++ w ++ y /\ rest_matches y ws'
  end.

Definition glob (s w0 : list Z) (ws : list (list Z)) : Prop :=
  exists y, s = w0 ++ y /\ rest_matches y ws.

(** * Lemmas *)

Lemma word_char_plain x c : c <> 124 -> c <> 63 -> word_char false x c = (x =? c).
Proof.
  intros H1 H2. unfold word_char, CASE. apply Z.eqb_neq in H1, H2. rewrite H1, H2.
  by rewrite !andb_false_r, !orb_false_r.
Qed.

(** A plain word against the rest [s] of the subject. *)
Lemma try_word_plain s w j : plain w ->
  (exists y, s = w ++ y /\ try_word false (s ++ 0 :: j) w = Ok (Some (y ++ 0 :: j))) \/
  (~ w `prefix_of` s) /\ try_word false (s ++ 0 :: j) w = Ok None.
Proof.
  intros Hw. revert s; induction Hw as [|c w (H0 & _ & H63 & _ & H124) Hw IH]; intros s.
  { left. by exists s. }
  destruct s as [|x s]; cbn [app try_word deref mbind comp_bind tail].
  - right. rewrite word_char_plain by done. rewrite (proj2 (Z.eqb_neq _ _)) by done.
    split; [|done]. by intros ?%prefix_nil_inv.
  - rewrite word_char_plain by done. destruct (x =? c) eqn:E; zbool.
    + subst. destruct (IH s) as [(y & -> & Hy)|[Hn Hy]].
      * left. by exists y.
      * right. split; [|done]. intros Hp. apply Hn. by apply prefix_cons_inv_2 in Hp.
    + right. split; [|done]. intros Hp. by apply prefix_cons_inv_1 in Hp.
Qed.

(** The last word, which has to end with the subject. *)
Lemma try_word_last s w j : plain w -> nonul s ->
  (s = w /\ try_word false (s ++ 0 :: j) (w ++ [0]) = Ok (Some j)) \/
  (s <> w /\ try_word false (s ++ 0 :: j) (w ++ [0]) = Ok None).
Proof.
  intros Hw. revert s; induction Hw as [|c w (H0 & _ & H63 & _ & H124) Hw IH]; intros s Hs.
  - destruct s as [|x s]; cbn [app try_word deref mbind comp_bind tail].
    + left. by rewrite word_char_plain.
    + right. apply Forall_cons in Hs as [Hx _]. rewrite word_char_plain by done.
      by rewrite (proj2 (Z.eqb_neq _ _)).
  - destruct s as [|x s]; cbn [app try_word deref mbind comp_bind tail].
    + right. rewrite word_char_plain by done. by rewrite (proj2 (Z.eqb_neq _ _)).
    + apply Forall_cons in Hs as [_ Hs]. rewrite word_char_plain by done. destruct (x =? c) eqn:E; zbool.
      * subst. destruct (IH s Hs) as [[-> Hy]|[Hn Hy]]; [by left|right]. split; [congruence|done].
      * right. split; [congruence|done].
Qed.

Lemma nonul_eqb x : x <> 0 -> (x =? 0) = false.
Proof. apply Z.eqb_neq. Qed.

(** The search stops at the first occurrence: what is left behind it is the
    longest rest behind any occurrence. *)
Lemma find_word_plain s w j : plain w -> nonul s ->
  (exists x y, s = x ++ w ++ y /\ find_word false (s ++ 0 :: j) w = Ok (Some (y ++ 0 :: j)) /\
     forall x' y', s = x' ++ w ++ y' -> y' `suffix_of` y) \/
  ((forall x y, s <> x ++ w ++ y) /\ find_word false (s ++ 0 :: j) w = Ok None).
Proof.
  intros Hw Hs. induction Hs as [|c s Hc Hs IH].
  - cbn [app find_word]. destruct (try_word_plain [] w j Hw) as [(y & Hy & Ht)|[Hn Ht]];
      cbn [app] in Ht; rewrite Ht; cbn [mbind comp_bind].
    + left. exists [], y. split; [done|]. split; [done|].
      intros x' y' H. symmetry in H. apply app_nil in H as [_ H]. apply app_nil in H as [_ ->].
      apply suffix_nil.
    + right. split; [|done]. intros x y H. symmetry in H. apply app_nil in H as [_ H].
      apply app_nil in H as [-> _]. apply Hn. apply prefix_nil.
  - cbn [app find_word]. destruct (try_word_plain (c :: s) w j Hw) as [(y & Hy & Ht)|[Hn Ht]];
      cbn [app] in Ht; rewrite Ht; cbn [mbind comp_bind].
    + left. exists [], y. split; [done|]. split; [done|]. intros x' y' H.
      assert (length y' <= length y)%nat as Hle.
      { rewrite Hy in H. apply (f_equal length) in H. rewrite !length_app in H. lia. }
      assert (y' `suffix_of` c :: s) as Hs1 by (exists (x' ++ w); by rewrite <- app_assoc).
      assert (y `suffix_of` c :: s) as Hs2 by (by exists w).
      destruct (suffix_weak_total _ _ _ Hs1 Hs2) as [|Hs3]; [done|].
      apply suffix_length_eq in Hs3; [by subst|]. lia.
    + rewrite nonul_eqb by done. destruct IH as [(x & y & -> & Hf & Hmax)|[Hno Hf]].
      * left. exists (c :: x), y. split; [done|]. split; [done|]. intros x' y' H.
        destruct x' as [|c' x']; cbn in H.
        { exfalso. apply Hn. exists y'. done. }
        injection H as -> H. by eapply Hmax.
      * right. split; [|done]. intros x y H. destruct x as [|c' x]; cbn in H.
        { apply Hn. by exists y. }
        injection H as -> H. by eapply Hno.
Qed.

Lemma find_word_last s w j : plain w -> nonul s ->
  (w `suffix_of` s /\ find_word false (s ++ 0 :: j) (w ++ [0]) = Ok (Some j)) \/
  (~ w `suffix_of` s /\ find_word false (s ++ 0 :: j) (w ++ [0]) = Ok None).
Proof.
  intros Hw Hs. induction Hs as [|c s Hc Hs IH].
  - cbn [app find_word]. destruct (try_word_last [] w j Hw (Forall_nil_2 _)) as [[Hy Ht]|[Hn Ht]];
      cbn [app] in Ht; rewrite Ht; cbn [mbind comp_bind].
    + left. by subst.
    + right. split; [|done]. intros Hx. apply suffix_nil_inv in Hx. congruence.
  - cbn [app find_word]. assert (nonul (c :: s)) as Hcs by (by constructor).
    destruct (try_word_last (c :: s) w j Hw Hcs) as [[Hy Ht]|[Hn Ht]];
      cbn [app] in Ht; rewrite Ht; cbn [mbind comp_bind].
    + left. by subst.
    + rewrite nonul_eqb by done. destruct IH as [[Hx Hf]|[Hx Hf]].
      * left. split; [by apply suffix_cons_r|done].
      * right. split; [|done]. intros [[|d k] Hk]; cbn in Hk; [by subst|]. injection Hk as -> ->.
        apply Hx. by exists k.
Qed.

Lemma rest_matches_mono s s' ws : ws <> [] -> s `suffix_of` s' -> rest_matches s ws -> rest_matches s' ws.
Proof.
  intros Hne [k ->] H. destruct ws as [|w [|w' ws]]; [done| |].
  - cbn in *. by apply suffix_app_r.
  - cbn [rest_matches] in *. destruct H as (x & y & -> & H). exists (k ++ x), y. by rewrite <- app_assoc.
Qed.

Lemma next_pattern_nobar p : Forall (fun c => c <> 124) p -> next_pattern (p ++ [0]) = Ok None.
Proof.
  induction 1 as [|c p Hc _ IH]; [done|]. cbn. case_if; [done|].
  by rewrite (proj2 (Z.eqb_neq _ _)).
Qed.

Lemma stars_nobar ws : Forall plain ws -> Forall (fun c => c <> 124) (stars ws).
Proof.
  induction 1 as [|w ws Hw _ IH]; [constructor|]. cbn. constructor; [done|]. apply Forall_app.
  split; [|done]. eapply Forall_impl; [exact Hw|]. cbn. tauto.
Qed.

Lemma scan_word_plain w p : plain w -> scan_word (w ++ 42 :: p) = Ok (w, 42 :: p) /\
  scan_word (w ++ [0]) = Ok (w ++ [0], [0]).
Proof.
  intros Hw. induction Hw as [|c w (H0 & H42 & _ & _ & H124) Hw [IH1 IH2]]; [done|].
  apply Z.eqb_neq in H0, H42, H124. cbn [app scan_word]. rewrite H0, H42, H124. cbn [orb].
  rewrite IH1, IH2. done.
Qed.

(** The loop behind the first word. *)
Lemma match_loop_stars ws : Forall plain ws -> forall fuel sorig s j, nonul s ->
  (length (stars ws ++ [0%Z]) <= fuel)%nat ->
  (rest_matches s ws /\ match_loop fuel false sorig (s ++ 0 :: j) (stars ws ++ [0]) false = Ok 1) \/
  (~ rest_matches s ws /\ match_loop fuel false sorig (s ++ 0 :: j) (stars ws ++ [0]) false = Ok 0).
Proof.
  intros Hws. induction Hws as [|w ws Hw Hws IH]; intros fuel sorig s j Hs Hf.
  { destruct fuel; [cbn in Hf; lia|]. cbn [stars app match_loop deref mbind comp_bind Z.eqb orb].
    destruct s as [|x s]; cbn [app deref mbind comp_bind].
    - left. done.
    - right. apply Forall_cons in Hs as [Hx _]. rewrite (nonul_eqb x Hx). cbn [andb].
      unfold CASE. rewrite (proj2 (Z.eqb_neq 0 x)) by done. done. }
  destruct fuel as [|fuel]; [cbn in Hf; lia|].
  cbn [stars app match_loop deref mbind comp_bind tail]. cbn [Z.eqb Pos.eqb].
  destruct (decide (ws = [])) as [->|Hne].
  - cbn [stars]. rewrite app_nil_r. destruct (scan_word_plain w [] Hw) as [_ ->]. cbn [mbind comp_bind].
    destruct (find_word_last s w j Hw Hs) as [[Hx ->]|[Hx ->]]; cbn [mbind comp_bind].
    + left. done.
    + right. done.
  - assert (exists t, stars ws = 42 :: t) as [t Ht] by (destruct ws; [done|cbn; eauto]).
    rewrite <- app_assoc, Ht. cbn [app]. destruct (scan_word_plain w (t ++ [0]) Hw) as [-> _].
    cbn [mbind comp_bind]. rewrite app_comm_cons, <- Ht.
    assert (rest_matches s (w :: ws) <-> exists x y, s = x ++ w ++ y /\ rest_matches y ws) as Hiff
      by (destruct ws; [done|reflexivity]).
    rewrite Hiff.
    destruct (find_word_plain s w j Hw Hs) as [(x & y & -> & -> & Hmax)|[Hno ->]]; cbn [mbind comp_bind].
    + rewrite Ht. cbn [app deref mbind comp_bind Z.eqb Pos.eqb orb]. rewrite app_comm_cons, <- Ht.
      assert (nonul y) as Hy by (apply Forall_app in Hs as [_ Hs]; by apply Forall_app in Hs as [_ ?]).
      destruct (IH fuel sorig y j Hy) as [[Hr Hm]|[Hr Hm]].
      { cbn [stars app length] in Hf. rewrite !length_app in *. cbn in *. lia. }
      * left. split; [eauto|done].
      * right. split; [|done]. intros (x' & y' & Heq & Hr'). apply Hr.
        apply (rest_matches_mono y'); [done|by eapply Hmax|done].
    + right. split.
      * intros (x & y & Heq & _). by eapply Hno.
      * by rewrite next_pattern_nobar by (by apply stars_nobar).
Qed.

(** The first word, character by character. *)
Lemma match_loop_word w0 ws : plain w0 -> Forall plain ws -> forall fuel sorig s j, nonul s ->
  (length (pattern w0 ws ++ [0%Z]) <= fuel)%nat ->
  (glob s w0 ws /\ match_loop fuel false sorig (s ++ 0 :: j) (pattern w0 ws ++ [0]) false = Ok 1) \/
  (~ glob s w0 ws /\ match_loop fuel false sorig (s ++ 0 :: j) (pattern w0 ws ++ [0]) false = Ok 0).
Proof.
  intros Hw Hws. unfold pattern, glob.
  induction Hw as [|c w0 (H0 & H42 & H63 & H92 & H124) Hw IH]; intros fuel sorig s j Hs Hf.
  { destruct (match_loop_stars ws Hws fuel sorig s j Hs Hf) as [[H1 H2]|[H1 H2]]; [left|right].
    - split; [eauto|done].
    - split; [|done]. by intros (y & -> & Hy). }
  destruct fuel as [|fuel]; [cbn in Hf; lia|]. apply Z.eqb_neq in H0, H42, H63, H92, H124.
  cbn [app match_loop deref mbind comp_bind tail]. rewrite H92, H42, H63, H0, H124. cbn [orb].
  assert (Forall (fun c => c <> 124) (c :: w0 ++ stars ws)) as Hnb.
  { constructor; [by apply Z.eqb_neq|]. apply Forall_app. split; [|by apply stars_nobar].
    eapply Forall_impl; [exact Hw|]. cbn. tauto. }
  assert (next_pattern (c :: (w0 ++ stars ws) ++ [0]) = Ok None) as Hnext
    by (rewrite app_comm_cons; by apply next_pattern_nobar).
  destruct s as [|x s]; cbn [app deref mbind comp_bind].
  - right. split; [by intros (y & Hy & _)|]. cbn [Z.eqb andb]. unfold CASE. rewrite H0. cbn [negb].
    rewrite Hnext. done.
  - apply Forall_cons in Hs as [Hx Hs]. rewrite (nonul_eqb x Hx). cbn [andb]. unfold CASE.
    destruct (c =? x) eqn:E; cbn [negb]; zbool.
    + subst c. destruct (IH fuel sorig s j Hs) as [[(y & -> & Hy) Hm]|[Hn Hm]].
      { cbn in Hf. lia. }
      * left. split; [by exists y|done].
      * right. split; [|done]. intros (y & Heq & Hy). injection Heq as Heq. eauto.
    + right. split; [|by rewrite Hnext]. intros (y & Heq & _). by injection Heq.
Qed.

Lemma match_decides s w0 ws j : nonul s -> plain w0 -> Forall plain ws ->
  (glob s w0 ws /\ match_ (s ++ 0 :: j) (pattern w0 ws ++ [0]) = Ok 1) \/
  (~ glob s w0 ws /\ match_ (s ++ 0 :: j) (pattern w0 ws ++ [0]) = Ok 0).
Proof. intros Hs Hw Hws. unfold match_, matchBody. apply match_loop_word; try done. lia. Qed.

(** * Properties *)

(** C38: [match] decides the star patterns: for a pattern of plain words
    separated by stars and any string it ends, stays inside both buffers,
    and returns 1 exactly when the string starts with the first word, has
    the others in order behind it and ends with the last. *)
Theorem match_is_glob s w0 ws j : nonul s -> plain w0 -> Forall plain ws ->
  (match_ (s ++ 0 :: j) (pattern w0 ws ++ [0]) = Ok 1 <-> glob s w0 ws) /\
  (match_ (s ++ 0 :: j) (pattern w0 ws ++ [0]) = Ok 0 <-> ~ glob s w0 ws).
Proof.
  intros Hs Hw Hws. destruct (match_decides s w0 ws j Hs Hw Hws) as [[Hg ->]|[Hg ->]]; by (split; split).
Qed.

Lemma match_is_glob_witness :
  (match_ (lit "192.168.1.20" ++ [0]) (pattern (lit "192.168.") [lit ".2"; []] ++ [0]) = Ok 1 <->
     glob (lit "192.168.1.20") (lit "192.168.") [lit ".2"; []]) /\
  (match_ (lit "192.168.1.20" ++ [0]) (pattern (lit "192.168.") [lit ".2"; []] ++ [0]) = Ok 0 <->
     ~ glob (lit "192.168.1.20") (lit "192.168.") [lit ".2"; []]).
Proof. apply (match_is_glob _ _ _ []); by_decide. Defined.

(** A question mark is not matched against the end of the string: the
    matcher steps over the NUL and reads on behind it. *)
Example question_mark_overruns : match_ (lit "10" ++ [0]) (lit "10?1" ++ [0]) = Fault ReadOOB.
Proof. vm_compute. reflexivity. Qed.

(** With stale bytes behind the NUL the pattern even matches them. *)
Example question_mark_stale : match_ (lit "10" ++ [0] ++ lit "1" ++ [0]) (lit "10?1" ++ [0]) = Ok 1.
Proof. vm_compute. reflexivity. Qed.
