(* ===== verification/Rinetd.v ===== *)
(** rinetd's connections (src/rinetd/rinetd.c): the slots with their two
    buffers, the handlers of the two ends, accepting and refusing, and one
    pass of the select loop. *)
From S2P Require Import Prelude CString Match.
Set Warnings "-clear-no-such-hyp".

Definition bufferSpace : Z := 1024.

Definition logDone : Z := 0.
Definition logAcceptFailed : Z := 2.
Definition logLocalSocketFailed : Z := 4.
Definition logLocalBindFailed : Z := 6.
Definition logLocalConnectFailed : Z := 8.
Definition logNotAllowed : Z := 10.
Definition logDenied : Z := 12.
Definition logLocalClosedFirst : Z := 0.
Definition logRemoteClosedFirst : Z := 1.

(** One index of the parallel arrays of connections; the flags are the ints
    that hold 0 or 1. *)
Record conn := Conn {
  reFds : Z; loFds : Z;
  coInputRPos : Z; coInputWPos : Z; coOutputRPos : Z; coOutputWPos : Z;
  coClosed : bool; coClosing : bool; reClosed : bool; loClosed : bool;
  coBytesInput : Z; coBytesOutput : Z; coLog : Z; coSe : Z;
  coInput : list Z; coOutput : list Z; reAddresses : in_addr }.

(** One index of the parallel arrays of forwarding rules. *)
Record server := Server {
  seFds : Z; seLocalAddrs : in_addr; seLocalPorts : Z;
  seFromHosts : list Z; seFromPorts : Z; seToHosts : list Z; seToPorts : Z;
  seAllowRules : Z; seAllowRulesTotal : Z; seDenyRules : Z; seDenyRulesTotal : Z }.

Record rstate := RS {
  conns : list conn; servers : list server;
  allowRules : list (list Z); denyRules : list (list Z);
  globalAllowRules : Z; globalDenyRules : Z; maxfd : Z }.

(** The two ends of a connection, and what the program does to them. *)
Inductive side := Re | Lo.
Inductive act :=
| ARecv (s : side) (data : list Z)
| ASend (s : side) (data : list Z)
| AClose (s : side)
| AConnect (fd : Z) (addr : in_addr) (port : Z)
| ALog (i se result : Z).

#[export] Instance side_eq_dec : EqDecision side.
Proof. solve_decision. Defined.

(** What [recv] and [send] report. *)
Inductive rres := RData (data : list Z) | RWouldBlock | RInProgress | RError.
Inductive sres := SSent (n : Z) | SWouldBlock | SInProgress | SError.

Definition set_in (r w : Z) (buf : list Z) (c : conn) : conn :=
  Conn (reFds c) (loFds c) r w (coOutputRPos c) (coOutputWPos c) (coClosed c) (coClosing c) (reClosed c)
    (loClosed c) (coBytesInput c) (coBytesOutput c) (coLog c) (coSe c) buf (coOutput c) (reAddresses c).
Definition set_out (r w : Z) (buf : list Z) (c : conn) : conn :=
  Conn (reFds c) (loFds c) (coInputRPos c) (coInputWPos c) r w (coClosed c) (coClosing c) (reClosed c)
    (loClosed c) (coBytesInput c) (coBytesOutput c) (coLog c) (coSe c) (coInput c) buf (reAddresses c).
Definition set_flags (closed closing re lo : bool) (log : Z) (c : conn) : conn :=
  Conn (reFds c) (loFds c) (coInputRPos c) (coInputWPos c) (coOutputRPos c) (coOutputWPos c) closed closing re
    lo (coBytesInput c) (coBytesOutput c) log (coSe c) (coInput c) (coOutput c) (reAddresses c).
Definition set_counts (i o : Z) (c : conn) : conn :=
  Conn (reFds c) (loFds c) (coInputRPos c) (coInputWPos c) (coOutputRPos c) (coOutputWPos c) (coClosed c)
    (coClosing c) (reClosed c) (loClosed c) i o (coLog c) (coSe c) (coInput c) (coOutput c) (reAddresses c).
Definition set_loFd (fd : Z) (c : conn) : conn :=
  Conn (reFds c) fd (coInputRPos c) (coInputWPos c) (coOutputRPos c) (coOutputWPos c) (coClosed c)
    (coClosing c) (reClosed c) (loClosed c) (coBytesInput c) (coBytesOutput c) (coLog c) (coSe c)
    (coInput c) (coOutput c) (reAddresses c).

(** * The handlers of a connection *)

Definition handleCloseFromLocal (c : conn) : conn * list act :=
  (set_flags (coClosed c) true (reClosed c) true
     (if reClosed c then coLog c else logLocalClosedFirst) c, [AClose Lo]).

Definition handleCloseFromRemote (c : conn) : conn * list act :=
  (set_flags (coClosed c) true true (loClosed c)
     (if loClosed c then coLog c else logRemoteClosedFirst) c, [AClose Re]).

Definition handleRemoteRead (r : rres) (c : conn) : conn * list act :=
  if bufferSpace =? coInputRPos c then (c, [])
  else
    match r with
    | RData data =>
        let data := take (Z.to_nat (bufferSpace - coInputRPos c)) data in
        let got := zlen data in
        if got =? 0 then handleCloseFromRemote c
        else (set_in (coInputRPos c + got) (coInputWPos c)
                (blit (coInput c) (Z.to_nat (coInputRPos c)) data)
                (set_counts (s32 (coBytesInput c + got)) (coBytesOutput c) c), [ARecv Re data])
    | RWouldBlock | RInProgress => (c, [])
    | RError => handleCloseFromRemote c
    end.

Definition handleRemoteWrite (i : Z) (r : sres) (c : conn) : conn * list act :=
  if coClosing c && (coOutputWPos c =? coOutputRPos c)
  then (set_flags true (coClosing c) true (loClosed c) (coLog c) c,
        [ALog i (coSe c) (Z.lor logDone (coLog c)); AClose Re])
  else
    match r with
    | SSent n =>
        let got := Z.max 0 (Z.min n (coOutputRPos c - coOutputWPos c)) in
        let data := take (Z.to_nat got) (drop (Z.to_nat (coOutputWPos c)) (coOutput c)) in
        let w := coOutputWPos c + got in
        let '(r', w') := if w =? coOutputRPos c then (0, 0) else (coOutputRPos c, w) in
        (set_out r' w' (coOutput c) (set_counts (coBytesInput c) (s32 (coBytesOutput c + got)) c),
         [ASend Re data])
    | SWouldBlock | SInProgress => (c, [])
    | SError => handleCloseFromRemote c
    end.

Definition handleLocalRead (r : rres) (c : conn) : conn * list act :=
  if bufferSpace =? coOutputRPos c then (c, [])
  else
    match r with
    | RData data =>
        let data := take (Z.to_nat (bufferSpace - coOutputRPos c)) data in
        let got := zlen data in
        if got =? 0 then handleCloseFromLocal c
        else (set_out (coOutputRPos c + got) (coOutputWPos c)
                (blit (coOutput c) (Z.to_nat (coOutputRPos c)) data) c, [ARecv Lo data])
    | RWouldBlock | RInProgress => (c, [])
    | RError => handleCloseFromLocal c
    end.

Definition handleLocalWrite (i : Z) (r : sres) (c : conn) : conn * list act :=
  if coClosing c && (coInputWPos c =? coInputRPos c)
  then (set_flags true (coClosing c) (reClosed c) true (coLog c) c,
        [ALog i (coSe c) (Z.lor logDone (coLog c)); AClose Lo])
  else
    match r with
    | SSent n =>
        let got := Z.max 0 (Z.min n (coInputRPos c - coInputWPos c)) in
        let data := take (Z.to_nat got) (drop (Z.to_nat (coInputWPos c)) (coInput c)) in
        let w := coInputWPos c + got in
        let '(r', w') := if w =? coInputRPos c then (0, 0) else (coInputRPos c, w) in
        (set_in r' w' (coInput c) c, [ASend Lo data])
    | SWouldBlock | SInProgress => (c, [])
    | SError => handleCloseFromLocal c
    end.

(** * The select pass *)

(** The descriptors a connection asks [select] about: reading, writing. *)
Definition conn_fds (c : conn) : gset Z * gset Z :=
  if coClosed c then (∅, ∅)
  else
    let on (b : bool) (fd : Z) : gset Z := if b then {[fd]} else ∅ in
    (on (negb (reClosed c) && (coInputRPos c <? bufferSpace)) (reFds c) ∪
     on (negb (loClosed c) && (coOutputRPos c <? bufferSpace)) (loFds c),
     on (coClosing c && negb (reClosed c)) (reFds c) ∪
     on (coClosing c && negb (loClosed c)) (loFds c) ∪
     on (negb (reClosed c) && (coOutputWPos c <? coOutputRPos c)) (reFds c) ∪
     on (negb (loClosed c) && (coInputWPos c <? coInputRPos c)) (loFds c)).

Definition select_fds (st : rstate) : gset Z * gset Z :=
  (⋃ ((fun s => if seFds s =? -1 then ∅ else {[seFds s]}) <$> servers st) ∪
   ⋃ ((fun c => fst (conn_fds c)) <$> conns st),
   ⋃ ((fun c => snd (conn_fds c)) <$> conns st)).

(** What the system calls of a pass return: the descriptors [select] leaves
    set, and the result of a [recv] or [send] on a descriptor. *)
Record pass_os := PassOs {
  can_read : gset Z; can_write : gset Z; on_recv : Z -> rres; on_send : Z -> sres }.

(** A handler that runs when its descriptor is set and its end is open. *)
Definition when (b : bool) (h : conn -> conn * list act) (p : conn * list act) : conn * list act :=
  let '(c, acts) := p in
  if b then let '(c', acts') := h c in (c', acts ++ acts') else (c, acts).

(** The second half of the pass for one connection. *)
Definition pass_conn (i : Z) (os : pass_os) (c : conn) : conn * list act :=
  if coClosed c then (c, [])
  else
    let p := (c, []) in
    let p := when (negb (reClosed (fst p)) && bool_decide (reFds (fst p) ∈ can_read os))
               (fun c => handleRemoteRead (on_recv os (reFds c)) c) p in
    let p := when (negb (reClosed (fst p)) && bool_decide (reFds (fst p) ∈ can_write os))
               (fun c => handleRemoteWrite i (on_send os (reFds c)) c) p in
    let p := when (negb (loClosed (fst p)) && bool_decide (loFds (fst p) ∈ can_read os))
               (fun c => handleLocalRead (on_recv os (loFds c)) c) p in
    let p := when (negb (loClosed (fst p)) && bool_decide (loFds (fst p) ∈ can_write os))
               (fun c => handleLocalWrite i (on_send os (loFds c)) c) p in
    when (loClosed (fst p) && reClosed (fst p))
      (fun c => (set_flags true (coClosing c) (reClosed c) (loClosed c) (coLog c) c, [])) p.

Fixpoint pass_conns (i : Z) (os : pass_os) (cs : list conn) : list conn * list act :=
  match cs with
  | [] => ([], [])
  | c :: cs' =>
      let '(c, a) := pass_conn i os c in
      let '(cs', a') := pass_conns (i + 1) os cs' in (c :: cs', a ++ a')
  end.

(** * Accepting *)

Definition refuse (index logCode : Z) (c : conn) : conn * list act :=
  (set_flags true (coClosing c) true true (coLog c) c, [AClose Re; ALog index (coSe c) logCode]).

(** What the system calls of an accept return: the descriptor and address,
    whether memory can be had, [socket], whether [bind] works, and whether
    [connect] fails; [stale] is what the text buffer holds behind the text. *)
Record accept_os := AcceptOs {
  a_accept : option (Z * in_addr); a_memory : bool;
  a_socket : option Z; a_bind : bool; a_connect : bool; stale : list Z }.

(** Returns the new [maxfd] too. *)
Definition openLocalFd (os : accept_os) (s : server) (i maxfd : Z) (c : conn) : conn * list act * Z :=
  let fail c acts code mx := (set_flags true (coClosing c) true true (coLog c) c,
                              acts ++ [AClose Re; ALog i (coSe c) code], mx) in
  match a_socket os with
  | None => fail (set_loFd (-1) c) [] logLocalSocketFailed maxfd
  | Some fd =>
      let c := set_loFd fd c in
      let mx := Z.max maxfd fd in
      if negb (a_bind os) then fail c [AClose Lo] logLocalBindFailed mx
      else if negb (a_connect os) then fail c [AConnect fd (seLocalAddrs s) (seLocalPorts s); AClose Lo]
        logLocalConnectFailed mx
      else (c, [AConnect fd (seLocalAddrs s) (seLocalPorts s)], mx)
  end.

(** The search over some rules, with and without stopping at the first that
    matches: the number of matches seen. *)
Fixpoint count_matches (stop : bool) (text : list Z) (rules : list (list Z)) (start : Z) (n : nat)
  : comp nat :=
  match n with
  | O => Ok O
  | S n' =>
      rule ← of_option ReadOOB (if start <? 0 then None else rules !! Z.to_nat start);
      r ← match_ text (rule ++ [0]);
      if r =? 0 then count_matches stop text rules (start + 1) n'
      else if stop then Ok 1%nat
      else k ← count_matches stop text rules (start + 1) n'; mret (S k)
  end.

Fixpoint refuse_times (k : nat) (index : Z) (p : conn * list act) : conn * list act :=
  match k with
  | O => p
  | S k' => let '(c, a) := p in let '(c, a') := refuse index logDenied c in refuse_times k' index (c, a ++ a')
  end.

(** The rules for a connection that has just got its slot, then the local
    connection. *)
Definition admit_conn (st : rstate) (s : server) (os : accept_os) (index : Z) (c : conn)
  : comp (conn * list act * Z) :=
  let text := inet_ntoa (reAddresses c) ++ 0 :: stale os in
  ga ← count_matches true text (allowRules st) 0 (Z.to_nat (globalAllowRules st));
  if negb (globalAllowRules st =? 0) && (ga =? 0)%nat then Ok (refuse index logNotAllowed c, maxfd st)
  else
    gd ← count_matches false text (denyRules st) 0 (Z.to_nat (globalDenyRules st));
    let p := refuse_times gd index (c, []) in
    sa ← count_matches true text (allowRules st) (seAllowRules s) (Z.to_nat (seAllowRulesTotal s));
    if negb (seAllowRulesTotal s =? 0) && (sa =? 0)%nat
    then let '(c, a) := p in let '(c, a') := refuse index logNotAllowed c in Ok (c, a ++ a', maxfd st)
    else
      sd ← count_matches false text (denyRules st) (seDenyRules s) (Z.to_nat (seDenyRulesTotal s));
      let '(c, a) := refuse_times sd index p in
      let '(c, a', mx) := openLocalFd os s index (maxfd st) c in Ok (c, a ++ a', mx).

Definition fresh_conn (nfd : Z) (se : Z) (addr : in_addr) (c : conn) : conn :=
  Conn nfd (loFds c) 0 0 0 0 false false false false 0 0 0 se (coInput c) (coOutput c) addr.

(** The slots for connections: [junk] is what the new memory holds. *)
Definition new_slot (junk : conn) : conn := set_flags true (coClosing junk) (reClosed junk) (loClosed junk) (coLog junk) junk.

Definition initArrays (junk : conn) : list conn := replicate 64 (new_slot junk).

Definition with_conns (cs : list conn) (st : rstate) : rstate :=
  RS cs (servers st) (allowRules st) (denyRules st) (globalAllowRules st) (globalDenyRules st) (maxfd st).
Definition with_maxfd (m : Z) (st : rstate) : rstate :=
  RS (conns st) (servers st) (allowRules st) (denyRules st) (globalAllowRules st) (globalDenyRules st) m.

Definition handleAccept (junk : conn) (i : Z) (os : accept_os) (st : rstate) : comp (rstate * list act) :=
  s ← of_option ReadOOB (servers st !! Z.to_nat i);
  match a_accept os with
  | None => Ok (st, [ALog (-1) i logAcceptFailed])
  | Some (nfd, addr) =>
      let st := with_maxfd (Z.max (maxfd st) nfd) st in
      let o := length (conns st) in
      let found := fst <$> list_find (fun c => coClosed c) (conns st) in
      match found, a_memory os with
      | None, false => Ok (st, [])
      | _, _ =>
          let cs := match found with
                    | Some _ => conns st
                    | None => conns st ++ replicate o (new_slot junk)
                    end in
          let index := default o found in
          c ← of_option WriteOOB (cs !! index);
          '(c, acts, mx) ← admit_conn st s os (Z.of_nat index) (fresh_conn nfd i addr c);
          mret (with_conns (<[index := c]> cs) (with_maxfd mx st), acts)
      end
  end.

Fixpoint accept_all (junk : conn) (i : Z) (n : nat) (ready : gset Z) (os : Z -> accept_os) (st : rstate)
  : comp (rstate * list act) :=
  match n with
  | O => Ok (st, [])
  | S n' =>
      s ← of_option ReadOOB (servers st !! Z.to_nat i);
      '(st, a) ← (if negb (seFds s =? -1) && bool_decide (seFds s ∈ ready)
                  then handleAccept junk i (os i) st else mret (st, []));
      '(st, a') ← accept_all junk (i + 1) n' ready os st;
      mret (st, a ++ a')
  end.

(** [select] leaves a subset of the descriptors asked for. *)
Definition selectPass (junk : conn) (os : pass_os) (aos : Z -> accept_os) (st : rstate)
  : comp (rstate * list act) :=
  let '(rd, wr) := select_fds st in
  let os := PassOs (can_read os ∩ rd) (can_write os ∩ wr) (on_recv os) (on_send os) in
  '(st, a) ← accept_all junk 0 (length (servers st)) (can_read os) aos st;
  let '(cs, a') := pass_conns 0 os (conns st) in
  mret (with_conns cs st, a ++ a').

(** [safeRealloc]: the new block keeps the bytes that fit. *)
Definition safeRealloc (memory : bool) (fill : Z) (data : list Z) (oldsize newsize : nat) : option (list Z) :=
  if memory then Some (if (newsize <? oldsize)%nat then take newsize data ++ [fill]
                       else take oldsize data ++ replicate (newsize - oldsize + 1) fill)
  else None.

(** * The two byte streams *)

Fixpoint received (s : side) (h : list act) : list Z :=
  match h with
  | [] => []
  | ARecv s' d :: h' => if decide (s' = s) then d ++ received s h' else received s h'
  | _ :: h' => received s h'
  end.
Fixpoint delivered (s : side) (h : list act) : list Z :=
  match h with
  | [] => []
  | ASend s' d :: h' => if decide (s' = s) then d ++ delivered s h' else delivered s h'
  | _ :: h' => delivered s h'
  end.
Fixpoint closes (s : side) (h : list act) : nat :=
  match h with
  | [] => O
  | AClose s' :: h' => if decide (s' = s) then S (closes s h') else closes s h'
  | _ :: h' => closes s h'
  end.

(** What is read and not yet sent on. *)
Definition window (buf : list Z) (r w : Z) : list Z := take (Z.to_nat (r - w)) (drop (Z.to_nat w) buf).
Definition pending_in (c : conn) : list Z := window (coInput c) (coInputRPos c) (coInputWPos c).
Definition pending_out (c : conn) : list Z := window (coOutput c) (coOutputRPos c) (coOutputWPos c).

Definition buf_ok (buf : list Z) (r w : Z) : Prop :=
  zlen buf = bufferSpace /\ 0 <= w <= r /\ r <= bufferSpace /\ (w = r -> r = 0).

(** The state of a slot after the actions [h] of its connection. *)
Record conn_ok (c : conn) (h : list act) : Prop := {
  ok_in : buf_ok (coInput c) (coInputRPos c) (coInputWPos c);
  ok_out : buf_ok (coOutput c) (coOutputRPos c) (coOutputWPos c);
  ok_up : received Re h = delivered Lo h ++ pending_in c;
  ok_down : received Lo h = delivered Re h ++ pending_out c;
  ok_re : closes Re h = Nat.b2n (reClosed c);
  ok_lo : closes Lo h = Nat.b2n (loClosed c);
  ok_closing : coClosing c = true -> reClosed c || loClosed c = true;
  ok_closed : coClosed c = true -> reClosed c && loClosed c = true }.

(** * Lemmas *)

Lemma received_app s h1 h2 : received s (h1 ++ h2) = received s h1 ++ received s h2.
Proof.
  induction h1 as [|a h1 IH]; [done|]. destruct a; cbn; rewrite ?IH; try done.
  case_decide; [by rewrite <- app_assoc|done].
Qed.
Lemma delivered_app s h1 h2 : delivered s (h1 ++ h2) = delivered s h1 ++ delivered s h2.
Proof.
  induction h1 as [|a h1 IH]; [done|]. destruct a; cbn; rewrite ?IH; try done.
  case_decide; [by rewrite <- app_assoc|done].
Qed.
Lemma closes_app s h1 h2 : closes s (h1 ++ h2) = (closes s h1 + closes s h2)%nat.
Proof.
  induction h1 as [|a h1 IH]; [done|]. destruct a; cbn; rewrite ?IH; try done. by case_decide.
Qed.

(** Reading appends to the window. *)
Lemma window_read buf r w d : buf_ok buf r w -> zlen d <= bufferSpace - r -> d <> [] ->
  buf_ok (blit buf (Z.to_nat r) d) (r + zlen d) w /\
  window (blit buf (Z.to_nat r) d) (r + zlen d) w = window buf r w ++ d.
Proof.
  intros (Hl & Hw & Hr & Hz) Hd Hne. pose proof (zlen_nonneg d). split.
  - split; [unfold zlen in *; rewrite length_blit; lia|]. split; [lia|]. split; [lia|].
    destruct d; [done|]. rewrite zlen_cons in *. pose proof (zlen_nonneg d). lia.
  - unfold window, blit, zlen, bufferSpace in *.
    rewrite drop_app_le by (rewrite length_take; lia).
    rewrite take_app_ge by (rewrite length_drop, length_take; lia).
    rewrite length_drop, length_take. f_equal.
    + rewrite take_drop_commute. f_equal. f_equal. lia.
    + rewrite take_app_length'; [done|lia].
Qed.

(** Sending takes from the front of the window. *)
Lemma window_send buf r w n : buf_ok buf r w ->
  let got := Z.max 0 (Z.min n (r - w)) in
  let '(r', w') := if w + got =? r then (0, 0) else (r, w + got) in
  buf_ok buf r' w' /\
  window buf r w = take (Z.to_nat got) (drop (Z.to_nat w) buf) ++ window buf r' w'.
Proof.
  intros (Hl & Hw & Hr & Hz) got. assert (0 <= got <= r - w) as Hg by (unfold got; lia).
  destruct (w + got =? r) eqn:E; zbool.
  - split; [split; [done|]; unfold bufferSpace; lia|].
    change (window buf 0 0) with (@nil Z). rewrite app_nil_r.
    unfold window. f_equal. lia.
  - split; [split; [done|]; lia|]. unfold window.
    replace (Z.to_nat (r - w)) with (Z.to_nat got + Z.to_nat (r - (w + got)))%nat by lia.
    rewrite <- (take_drop (Z.to_nat got) (drop (Z.to_nat w) buf)) at 1.
    rewrite take_app_ge by (rewrite length_take; lia). rewrite length_take, length_drop.
    unfold zlen in Hl. rewrite drop_drop.
    f_equal. f_equal; [lia|]. f_equal. lia.
Qed.

(** The two shapes of a handler's step: a close of one end, and a transfer. *)
Lemma close_local_ok c h : conn_ok c h -> loClosed c = false ->
  conn_ok (fst (handleCloseFromLocal c)) (h ++ snd (handleCloseFromLocal c)).
Proof.
  intros [Hi Ho Hu Hd Hr Hl Hc Hk] Hlo. cbn.
  constructor; cbn; rewrite ?received_app, ?delivered_app, ?closes_app; cbn; repeat rewrite app_nil_r; try done.
  - by rewrite Hr, Nat.add_0_r.
  - by rewrite Hl, Hlo.
  - intros _. by rewrite orb_true_r.
  - intros H. specialize (Hk H). rewrite Hlo, andb_false_r in Hk. done.
Qed.

Lemma close_remote_ok c h : conn_ok c h -> reClosed c = false ->
  conn_ok (fst (handleCloseFromRemote c)) (h ++ snd (handleCloseFromRemote c)).
Proof.
  intros [Hi Ho Hu Hd Hr Hl Hc Hk] Hre. cbn.
  constructor; cbn; rewrite ?received_app, ?delivered_app, ?closes_app; cbn; repeat rewrite app_nil_r; try done.
  - by rewrite Hr, Hre.
  - by rewrite Hl, Nat.add_0_r.
  - intros H. specialize (Hk H). by rewrite Hre in Hk.
Qed.

Lemma zlen_take_le (l : list Z) n : 0 <= n -> zlen (take (Z.to_nat n) l) <= n.
Proof. intros H. unfold zlen. rewrite length_take. lia. Qed.

Lemma handleRemoteRead_ok r c h : conn_ok c h -> reClosed c = false ->
  conn_ok (fst (handleRemoteRead r c)) (h ++ snd (handleRemoteRead r c)).
Proof.
  intros Hok Hre. unfold handleRemoteRead. case_if; [cbn; by rewrite app_nil_r|]. zbool.
  destruct r as [d| | |]; try (cbn; by rewrite app_nil_r); [|by apply close_remote_ok].
  pose proof Hok as [Hi Ho Hu Hd Hr Hl Hc Hk].
  set (d' := take _ d). cbv zeta. case_if; [by apply close_remote_ok|]. zbool.
  assert (d' <> []) as Hne by (intros He; rewrite He in *; done).
  destruct (window_read _ _ _ d' Hi) as [Hb Hw]; [apply zlen_take_le; destruct Hi; lia|done|].
  cbn [fst snd]. constructor; cbn; rewrite ?received_app, ?delivered_app, ?closes_app; cbn;
    repeat rewrite app_nil_r; rewrite ?Nat.add_0_r; try done.
  rewrite Hu, <- app_assoc. f_equal. symmetry. exact Hw.
Qed.

Lemma handleLocalRead_ok r c h : conn_ok c h -> loClosed c = false ->
  conn_ok (fst (handleLocalRead r c)) (h ++ snd (handleLocalRead r c)).
Proof.
  intros Hok Hlo. unfold handleLocalRead. case_if; [cbn; by rewrite app_nil_r|]. zbool.
  destruct r as [d| | |]; try (cbn; by rewrite app_nil_r); [|by apply close_local_ok].
  pose proof Hok as [Hi Ho Hu Hd Hr Hl Hc Hk].
  set (d' := take _ d). cbv zeta. case_if; [by apply close_local_ok|]. zbool.
  assert (d' <> []) as Hne by (intros He; rewrite He in *; done).
  destruct (window_read _ _ _ d' Ho) as [Hb Hw]; [apply zlen_take_le; destruct Ho; lia|done|].
  cbn [fst snd]. constructor; cbn; rewrite ?received_app, ?delivered_app, ?closes_app; cbn;
    repeat rewrite app_nil_r; rewrite ?Nat.add_0_r; try done.
  rewrite Hd, <- app_assoc. f_equal. symmetry. exact Hw.
Qed.

Lemma handleRemoteWrite_ok i r c h : conn_ok c h -> reClosed c = false ->
  conn_ok (fst (handleRemoteWrite i r c)) (h ++ snd (handleRemoteWrite i r c)).
Proof.
  intros Hok Hre. pose proof Hok as [Hi Ho Hu Hd Hr Hl Hc Hk]. unfold handleRemoteWrite.
  destruct (coClosing c && (coOutputWPos c =? coOutputRPos c)) eqn:E.
  - zbool. specialize (Hc ltac:(done)). rewrite Hre in Hc. cbn in Hc.
    cbn [fst snd]. constructor; cbn; rewrite ?received_app, ?delivered_app, ?closes_app; cbn;
      repeat rewrite app_nil_r; rewrite ?Nat.add_0_r; try done.
    by rewrite Hr, Hre.
  - destruct r as [n| | |]; try (cbn; by rewrite app_nil_r); [|by apply close_remote_ok].
    pose proof (window_send _ _ _ n Ho) as Hs. cbv zeta in Hs |- *.
    destruct (_ + _ =? coOutputRPos c); destruct Hs as [Hb Hw]; cbn [fst snd];
      (constructor; cbn -[window]; rewrite ?received_app, ?delivered_app, ?closes_app; cbn -[window];
       rewrite ?app_nil_r, ?Nat.add_0_r; try done; rewrite decide_True by done; rewrite Hd;
       first [rewrite <- app_assoc; f_equal; exact Hw | f_equal; etrans; [exact Hw|apply app_nil_r]]).
Qed.

Lemma handleLocalWrite_ok i r c h : conn_ok c h -> loClosed c = false ->
  conn_ok (fst (handleLocalWrite i r c)) (h ++ snd (handleLocalWrite i r c)).
Proof.
  intros Hok Hlo. pose proof Hok as [Hi Ho Hu Hd Hr Hl Hc Hk]. unfold handleLocalWrite.
  destruct (coClosing c && (coInputWPos c =? coInputRPos c)) eqn:E.
  - zbool. specialize (Hc ltac:(done)). rewrite Hlo, orb_false_r in Hc.
    cbn [fst snd]. constructor; cbn; rewrite ?received_app, ?delivered_app, ?closes_app; cbn;
      repeat rewrite app_nil_r; rewrite ?Nat.add_0_r; try done.
    + by rewrite Hl, Hlo.
    + intros _. by rewrite Hc.
    + intros _. by rewrite Hc.
  - destruct r as [n| | |]; try (cbn; by rewrite app_nil_r); [|by apply close_local_ok].
    pose proof (window_send _ _ _ n Hi) as Hs. cbv zeta in Hs |- *.
    destruct (_ + _ =? coInputRPos c); destruct Hs as [Hb Hw]; cbn [fst snd];
      (constructor; cbn -[window]; rewrite ?received_app, ?delivered_app, ?closes_app; cbn -[window];
       rewrite ?app_nil_r, ?Nat.add_0_r; try done; rewrite decide_True by done; rewrite Hu;
       first [rewrite <- app_assoc; f_equal; exact Hw | f_equal; etrans; [exact Hw|apply app_nil_r]]).
Qed.

(** ** A pass keeps the state of a slot *)

Definition slot_ok (h : list act) (p : conn * list act) : Prop := conn_ok (fst p) (h ++ snd p).

Lemma when_ok h b f p :
  (b = true -> forall h', conn_ok (fst p) h' -> slot_ok h' (f (fst p))) ->
  slot_ok h p -> slot_ok h (when b f p).
Proof.
  intros Hf Hp. destruct p as [c a], b; [|done]. specialize (Hf eq_refl _ Hp).
  unfold slot_ok in *. cbn in *. destruct (f c) as [c' a']. cbn in *. by rewrite app_assoc.
Qed.

Lemma close_both_ok c h : loClosed c && reClosed c = true -> conn_ok c h ->
  slot_ok h (set_flags true (coClosing c) (reClosed c) (loClosed c) (coLog c) c, []).
Proof.
  intros [Hlo Hre]%andb_prop [Hi Ho Hu Hd Hr Hl Hc Hk]. unfold slot_ok. cbn. rewrite app_nil_r.
  constructor; try done. cbn. intros _. by rewrite Hlo, Hre.
Qed.

Lemma pass_conn_ok i os c h : conn_ok c h -> slot_ok h (pass_conn i os c).
Proof.
  intros Hok. unfold pass_conn. destruct (coClosed c) eqn:Hcl; [unfold slot_ok; cbn; by rewrite app_nil_r|].
  cbv zeta. apply when_ok.
  { intros Hb h' Hok'. by apply close_both_ok. }
  do 4 (apply when_ok; [intros [Hb%negb_true_iff _]%andb_prop h' Hok';
    by (apply handleLocalWrite_ok || apply handleLocalRead_ok || apply handleRemoteWrite_ok ||
        apply handleRemoteRead_ok)|]).
  unfold slot_ok. cbn. by rewrite app_nil_r.
Qed.

(** A connection through a sequence of passes. *)
Fixpoint passes (i : Z) (oss : list pass_os) (c : conn) : conn * list act :=
  match oss with
  | [] => (c, [])
  | os :: oss' => let '(c, a) := pass_conn i os c in let '(c, a') := passes i oss' c in (c, a ++ a')
  end.

Lemma passes_ok i oss c h : conn_ok c h -> slot_ok h (passes i oss c).
Proof.
  revert c h. induction oss as [|os oss IH]; intros c h Hok; [unfold slot_ok; cbn; by rewrite app_nil_r|].
  cbn. pose proof (pass_conn_ok i os c h Hok) as H. destruct (pass_conn i os c) as [c1 a1].
  specialize (IH c1 _ H). destruct (passes i oss c1) as [c2 a2]. unfold slot_ok in *. cbn in *.
  by rewrite app_assoc.
Qed.

Lemma fresh_conn_ok nfd se addr c : zlen (coInput c) = bufferSpace -> zlen (coOutput c) = bufferSpace ->
  conn_ok (fresh_conn nfd se addr c) [].
Proof. intros H1 H2. constructor; cbn; done || (repeat split; unfold bufferSpace in *; lia || done). Qed.

(** ** Draining *)

(** The remote end takes at least one byte and does not break off. *)
Definition remote_drains (os : pass_os) (c : conn) : Prop :=
  (reFds c ∈ can_write os) /\ (exists n, 1 <= n /\ on_send os (reFds c) = SSent n) /\
  on_recv os (reFds c) <> RError /\ on_recv os (reFds c) <> RData [].

(** The local end is gone and the remote one open. *)
Definition draining (c : conn) : Prop :=
  coClosed c = false /\ coClosing c = true /\ loClosed c = true /\ reClosed c = false.

Lemma handleRemoteRead_draining r c : draining c ->
  0 <= coInputRPos c <= bufferSpace -> r <> RError -> r <> RData [] ->
  let c' := fst (handleRemoteRead r c) in
  draining c' /\ reFds c' = reFds c /\ coOutput c' = coOutput c /\
  coOutputRPos c' = coOutputRPos c /\ coOutputWPos c' = coOutputWPos c.
Proof.
  intros Hd Hp He Hn. unfold handleRemoteRead. case_if; [done|]. zbool.
  destruct r as [d| | |]; try done. cbv zeta. case_if; [|by destruct Hd]. zbool. exfalso.
  unfold zlen in *. rewrite length_take in *. destruct d; [done|]. cbn in *. lia.
Qed.

Lemma length_window buf r w : buf_ok buf r w -> zlen (window buf r w) = r - w.
Proof.
  intros (Hl & Hw & Hr & Hz). unfold window, zlen in *. rewrite length_take, length_drop. lia.
Qed.

Lemma drain_pass i os c h : conn_ok c h -> draining c -> remote_drains os c ->
  let c' := fst (pass_conn i os c) in
  (pending_out c = [] /\ coClosed c' = true /\ pending_out c' = []) \/
  (draining c' /\ reFds c' = reFds c /\ zlen (pending_out c') < zlen (pending_out c)).
Proof.
  intros Hok Hdr (Hw & (n & Hn & Hs) & He & Hz). unfold pass_conn.
  destruct Hok as [Hi Ho _ _ _ _ _ _]. destruct Hdr as (Hcl & Hci & Hlo & Hre).
  rewrite Hcl. cbv zeta. set (p1 := when _ _ (c, [])).
  assert (draining (fst p1) /\ reFds (fst p1) = reFds c /\ coOutput (fst p1) = coOutput c /\
          coOutputRPos (fst p1) = coOutputRPos c /\ coOutputWPos (fst p1) = coOutputWPos c)
    as (Hdr1 & Hf1 & Hb1 & Hr1 & Hw1).
  { unfold p1. cbn [fst]. unfold when. case_if; [|done].
    pose proof (handleRemoteRead_draining (on_recv os (reFds c)) c) as HH. cbv zeta in HH.
    destruct (handleRemoteRead _ _). apply HH; try done. destruct Hi; lia. }
  clearbody p1. destruct p1 as [c1 a1]. cbn [fst] in *. destruct Hdr1 as (Hcl1 & Hci1 & Hlo1 & Hre1).
  unfold handleRemoteWrite, draining, pending_out in *. destruct c1. cbn -[window] in *. subst.
  rewrite bool_decide_true by done. cbn -[window]. rewrite Hs.
  pose proof (length_window _ _ _ Ho) as Hlen.
  destruct (coOutputWPos c =? coOutputRPos c) eqn:E; zbool.
  - left. cbn -[window]. assert (window (coOutput c) (coOutputRPos c) (coOutputWPos c) = []) as Hp
      by (apply length_zero_iff_nil; unfold zlen in *; lia).
    done.
  - right. pose proof (window_send _ _ _ n Ho) as Hsend. cbv zeta in Hsend |- *.
    destruct (_ + _ =? coOutputRPos c) eqn:E2; destruct Hsend as [Hb Hwin]; cbn -[window];
      (split; [done|]); (split; [done|]); rewrite (length_window _ _ _ Hb); destruct Ho as (_ & ? & _ & ?); zbool; lia.
Qed.

Lemma passes_closed i oss c : coClosed c = true -> passes i oss c = (c, []).
Proof. intros H. induction oss as [|os oss IH]; [done|]. cbn. unfold pass_conn. by rewrite H, IH. Qed.

Lemma drain_passes i oss c h : conn_ok c h -> draining c -> Forall (fun os => remote_drains os c) oss ->
  zlen (pending_out c) < zlen oss ->
  let c' := fst (passes i oss c) in coClosed c' = true /\ pending_out c' = [].
Proof.
  revert c h. induction oss as [|os oss IH]; intros c h Hok Hdr Hos Hl.
  { pose proof (zlen_nonneg (pending_out c)). change (zlen (@nil pass_os)) with 0 in Hl. lia. }
  apply Forall_cons in Hos as [Ho Hos]. cbn [passes].
  pose proof (pass_conn_ok i os c h Hok) as Hok1. pose proof (drain_pass i os c h Hok Hdr Ho) as Hp.
  destruct (pass_conn i os c) as [c1 a1]. cbn [fst] in *.
  destruct Hp as [(_ & Hc & He)|(Hdr1 & Hf & Hlt)].
  - by rewrite (passes_closed _ _ _ Hc).
  - assert (Forall (fun os => remote_drains os c1) oss) as Hos1
      by (unfold remote_drains in *; by rewrite Hf).
    specialize (IH c1 _ Hok1 Hdr1 Hos1). rewrite zlen_cons in Hl. specialize (IH ltac:(lia)).
    by destruct (passes i oss c1).
Qed.

(** ** The access rules *)

(** A rule is a star pattern; an address hits it when the pattern matches. *)
Definition rule_ok (rule : list Z) : Prop :=
  exists w0 ws, plain w0 /\ Forall plain ws /\ rule = pattern w0 ws.
Definition hits (s rule : list Z) : Prop :=
  exists w0 ws, plain w0 /\ Forall plain ws /\ rule = pattern w0 ws /\ glob s w0 ws.

Definition slice (rules : list (list Z)) (start n : Z) : list (list Z) :=
  take (Z.to_nat n) (drop (Z.to_nat start) rules).

Definition slice_ok (rules : list (list Z)) (start n : Z) : Prop :=
  0 <= n /\ (0 < n -> 0 <= start /\ start + n <= zlen rules).

(** A part of the array that is searched: inside it, and all star patterns. *)
Definition searchable (rules : list (list Z)) (start n : Z) : Prop :=
  slice_ok rules start n /\ Forall rule_ok (slice rules start n).

(** The rules a server's connections are checked against. *)
Record rules_ok (st : rstate) (s : server) : Prop := {
  ro_ga : searchable (allowRules st) 0 (globalAllowRules st);
  ro_gd : searchable (denyRules st) 0 (globalDenyRules st);
  ro_sa : searchable (allowRules st) (seAllowRules s) (seAllowRulesTotal s);
  ro_sd : searchable (denyRules st) (seDenyRules s) (seDenyRulesTotal s) }.

Definition allowed (s : list Z) (rules : list (list Z)) : Prop := rules = [] \/ Exists (hits s) rules.

(** The policy: some allow rule, when there are any, globally and for the
    server, and no deny rule. *)
Definition passes_allow (st : rstate) (s : server) (addr : in_addr) : Prop :=
  allowed (inet_ntoa addr) (slice (allowRules st) 0 (globalAllowRules st)) /\
  allowed (inet_ntoa addr) (slice (allowRules st) (seAllowRules s) (seAllowRulesTotal s)).
Definition hits_deny (st : rstate) (s : server) (addr : in_addr) : Prop :=
  Exists (hits (inet_ntoa addr)) (slice (denyRules st) 0 (globalDenyRules st)) \/
  Exists (hits (inet_ntoa addr)) (slice (denyRules st) (seDenyRules s) (seDenyRulesTotal s)).

Definition addr_ok (a : in_addr) : Prop :=
  let '(a, b, c, d) := a in is_byte a /\ is_byte b /\ is_byte c /\ is_byte d.

(** The local connections the program asks for. *)
Fixpoint connects (h : list act) : list (Z * in_addr * Z) :=
  match h with
  | [] => []
  | AConnect fd a p :: h' => (fd, a, p) :: connects h'
  | _ :: h' => connects h'
  end.

Lemma connects_app h1 h2 : connects (h1 ++ h2) = connects h1 ++ connects h2.
Proof. induction h1 as [|[]]; cbn; by f_equal. Qed.

(** The local server can be reached. *)
Definition local_up (os : accept_os) : Prop :=
  is_Some (a_socket os) /\ a_bind os = true /\ a_connect os = true.

#[export] Instance local_up_dec os : Decision (local_up os).
Proof. unfold local_up. apply _. Defined.

(** A slot after [refuse]. *)
Definition shut (c : conn) : conn := set_flags true (coClosing c) true true (coLog c) c.

Lemma match_rule rule s j : rule_ok rule -> nonul s ->
  (hits s rule /\ match_ (s ++ 0 :: j) (rule ++ [0]) = Ok 1) \/
  (~ hits s rule /\ match_ (s ++ 0 :: j) (rule ++ [0]) = Ok 0).
Proof.
  intros (w0 & ws & Hw & Hws & ->) Hs.
  destruct (match_decides s w0 ws j Hs Hw Hws) as [[Hg H]|[Hg H]]; [left; split; [by exists w0, ws|done]|right].
  split; [|done]. intros (v0 & vs & Hv & Hvs & Heq & Hg'). rewrite Heq in H.
  by destruct (match_decides s v0 vs j Hs Hv Hvs) as [[_ H']|[H' _]]; [congruence|].
Qed.

Lemma count_matches_ok stop s j rules : nonul s -> forall n start,
  searchable rules start (Z.of_nat n) ->
  exists k, count_matches stop (s ++ 0 :: j) rules start n = Ok k /\
    ((k = O /\ ~ Exists (hits s) (slice rules start (Z.of_nat n))) \/
     (k <> O /\ Exists (hits s) (slice rules start (Z.of_nat n)))).
Proof.
  intros Hs. induction n as [|n IH]; intros start [Hb Hr].
  { exists O. split; [done|]. left. split; [done|]. intros H. by apply Exists_nil in H. }
  destruct Hb as (_ & Hb). specialize (Hb ltac:(lia)) as [Hb0 Hb]. unfold zlen in Hb.
  destruct (lookup_lt_is_Some_2 rules (Z.to_nat start)) as [rule Hl]; [lia|].
  assert (slice rules start (Z.of_nat (S n)) = rule :: slice rules (start + 1) (Z.of_nat n)) as Hsl.
  { unfold slice. rewrite (drop_S _ _ _ Hl), !Nat2Z.id. cbn [take].
    replace (Z.to_nat (start + 1)) with (S (Z.to_nat start)) by lia. done. }
  rewrite Hsl in *. apply Forall_cons in Hr as [Hrule Hr].
  destruct (IH (start + 1)) as (k & Hk & Hiff); [split; [unfold slice_ok, zlen; lia|done]|].
  cbn [count_matches]. rewrite (proj2 (Z.ltb_ge _ _)) by lia. rewrite Hl. cbn [of_option mbind comp_bind].
  setoid_rewrite Exists_cons.
  destruct (match_rule rule s j) as [[Hh ->]|[Hh ->]]; [done|done| |];
    cbn [mbind comp_bind Z.eqb].
  - destruct stop; [exists 1%nat; split; [done|]; right; split; [done|tauto]|]. rewrite Hk.
    exists (S k). split; [done|]. right. split; [done|tauto].
  - exists k. split; [done|]. tauto.
Qed.

Lemma dec_byte_nonul n : is_byte n -> nonul (dec_byte n).
Proof.
  intros Hn. unfold dec_byte, nonul, is_byte in *.
  repeat case_if; zbool; repeat constructor; Z.div_mod_to_equations; lia.
Qed.

Lemma inet_ntoa_nonul a : addr_ok a -> nonul (inet_ntoa a).
Proof.
  destruct a as [[[a b] c] d]. intros (Ha & Hb & Hc & Hd). unfold inet_ntoa.
  repeat (apply Forall_app; split); try (by apply dec_byte_nonul); by constructor.
Qed.

Lemma refuse_times_ok k index c a : exists a',
  refuse_times k index (c, a) = (if decide (k = O) then c else shut c, a ++ a') /\
  closes Re a' = k /\ closes Lo a' = O /\ connects a' = [] /\ (k = O -> a' = []).
Proof.
  revert c a. induction k as [|k IH]; intros c a; [exists []; by rewrite app_nil_r|].
  cbn. destruct (IH (shut c) (a ++ [AClose Re; ALog index (coSe c) logDenied])) as (a' & Heq & Hr & Hl & Hc & _).
  exists ([AClose Re; ALog index (coSe c) logDenied] ++ a'). cbn. rewrite Hr, Hl, Hc.
  split; [|done]. etrans; [exact Heq|]. rewrite <- app_assoc. f_equal. by destruct (decide (k = O)).
Qed.

(** What [openLocalFd] does to a slot, whatever state the slot is in. *)
Lemma openLocalFd_ok os s i mx c :
  let '(c', acts, mx') := openLocalFd os s i mx c in
  (local_up os -> exists fd, a_socket os = Some fd /\ c' = set_loFd fd c /\
     acts = [AConnect fd (seLocalAddrs s) (seLocalPorts s)]) /\
  (~ local_up os -> coClosed c' = true /\ (1 <= closes Re acts)%nat).
Proof.
  unfold openLocalFd, local_up. destruct (a_socket os) as [fd|]; cbn.
  2:{ split; [|cbn; lia || done]. intros [[? H] _]. done. }
  destruct (a_bind os), (a_connect os); cbn; split; try (intros [_ [? ?]]; done); eauto.
  - intros H. exfalso. apply H. eauto.
Qed.

Lemma allowed_iff (n : Z) (k : nat) s rules start :
  searchable rules start n ->
  (k = O /\ ~ Exists (hits s) (slice rules start n)) \/ (k <> O /\ Exists (hits s) (slice rules start n)) ->
  (negb (n =? 0) && (k =? 0)%nat = false /\ allowed s (slice rules start n)) \/
  (negb (n =? 0) && (k =? 0)%nat = true /\ ~ allowed s (slice rules start n)).
Proof.
  intros [[Hn Hb] _] Hk. unfold allowed. destruct (n =? 0) eqn:E; zbool.
  { subst. cbn. left. split; [done|]. by left. }
  assert (slice rules start n <> []) as Hne.
  { specialize (Hb ltac:(lia)) as [Hs Hb]. intros H%(f_equal length).
    unfold slice, zlen in *. rewrite length_take, length_drop in H. cbn in H. lia. }
  cbn. destruct Hk as [[-> Hk]|[Hk1 Hk]]; [right; split; [done|tauto]|left].
  apply Nat.eqb_neq in Hk1. rewrite Hk1. tauto.
Qed.

Lemma search_ok stop s j rules start n : nonul s -> searchable rules start n ->
  exists k, count_matches stop (s ++ 0 :: j) rules start (Z.to_nat n) = Ok k /\
    ((k = O /\ ~ Exists (hits s) (slice rules start n)) \/ (k <> O /\ Exists (hits s) (slice rules start n))).
Proof.
  intros Hs Hb. pose proof (count_matches_ok stop s j rules Hs (Z.to_nat n) start) as H.
  rewrite Z2Nat.id in H by (destruct Hb as [[? _] _]; lia). by apply H.
Qed.

(** The outcome for a connection that has just got its slot. *)
Record admitted (st : rstate) (s : server) (os : accept_os) (c c' : conn) (acts : list act) : Prop := {
  ad_outcome :
    ((passes_allow st s (reAddresses c) /\ ~ hits_deny st s (reAddresses c) /\ local_up os) /\
     exists fd, a_socket os = Some fd /\ c' = set_loFd fd c /\
       acts = [AConnect fd (seLocalAddrs s) (seLocalPorts s)]) \/
    (~ (passes_allow st s (reAddresses c) /\ ~ hits_deny st s (reAddresses c) /\ local_up os) /\
     coClosed c' = true /\ (1 <= closes Re acts)%nat);
  ad_leak : passes_allow st s (reAddresses c) -> hits_deny st s (reAddresses c) -> local_up os ->
    exists fd, a_socket os = Some fd /\ connects acts = [(fd, seLocalAddrs s, seLocalPorts s)] /\
      closes Lo acts = O;
  ad_not_allowed : ~ passes_allow st s (reAddresses c) -> connects acts = [] }.

Lemma admit_conn_ok st s os index c : rules_ok st s -> addr_ok (reAddresses c) -> coClosed c = false ->
  exists c' acts mx, admit_conn st s os index c = Ok (c', acts, mx) /\ admitted st s os c c' acts.
Proof.
  intros [Hga Hgd Hsa Hsd] Ha Hcl. unfold admit_conn.
  pose proof (inet_ntoa_nonul _ Ha) as Hn. cbv zeta.
  destruct (search_ok true _ (stale os) _ 0 (globalAllowRules st) Hn Hga) as (ga & -> & Cga).
  cbn [mbind comp_bind]. apply (allowed_iff _ _ _ _ _ Hga) in Cga as [[-> Cga]|[-> Cga]].
  2:{ do 3 eexists. split; [done|]. constructor; unfold passes_allow; try tauto. right. split; [tauto|].
      split; [done|]. cbn. rewrite decide_True by done. lia. }
  destruct (search_ok false _ (stale os) _ 0 (globalDenyRules st) Hn Hgd) as (gd & -> & Cgd).
  cbn [mbind comp_bind].
  destruct (search_ok true _ (stale os) _ _ _ Hn Hsa) as (sa & -> & Csa). cbn [mbind comp_bind].
  destruct (refuse_times_ok gd index c []) as (a1 & -> & Hr1 & Hl1 & Hc1 & Hn1). cbn [app].
  apply (allowed_iff _ _ _ _ _ Hsa) in Csa as [[-> Csa]|[-> Csa]].
  2:{ do 3 eexists. split; [done|].
      constructor; unfold passes_allow; try tauto; [right; split; [tauto|]; split; [done|]|
        intros _; by rewrite connects_app, Hc1].
      rewrite closes_app. cbn. rewrite decide_True by done. lia. }
  destruct (search_ok false _ (stale os) _ _ _ Hn Hsd) as (sd & -> & Csd). cbn [mbind comp_bind].
  destruct (refuse_times_ok sd index (if decide (gd = O) then c else shut c) a1) as (a2 & -> & Hr2 & Hl2 & Hc2 & Hn2).
  set (c2 := if decide (sd = O) then _ else _).
  pose proof (openLocalFd_ok os s index (maxfd st) c2) as Hop.
  destruct (openLocalFd os s index (maxfd st) c2) as [[c3 a3] mx]. destruct Hop as [Hup Hdown].
  do 3 eexists. split; [done|]. rewrite <- app_assoc. constructor; unfold hits_deny, passes_allow.
  - destruct (decide (local_up os)) as [Hu|Hu].
    2:{ right. destruct (Hdown Hu). rewrite !closes_app. split; [tauto|]. split; [done|lia]. }
    destruct (Hup Hu) as (fd & Hfd & -> & ->).
    assert ((gd = O /\ sd = O) \/ (gd <> O \/ sd <> O)) as [[-> ->]|Hk] by lia.
    + left. split; [tauto|]. exists fd. rewrite Hn1, Hn2 by done. done.
    + right. rewrite !closes_app, Hr1, Hr2. split; [tauto|]. split; [|lia].
      unfold c2. cbn. repeat case_decide; done || tauto.
  - intros _ _ Hu. destruct (Hup Hu) as (fd & Hfd & -> & ->). exists fd.
    by rewrite !connects_app, !closes_app, Hc1, Hc2, Hl1, Hl2.
  - tauto.
Qed.

Lemma handleAccept_ok junk i os st s nfd addr :
  servers st !! Z.to_nat i = Some s -> rules_ok st s -> addr_ok addr -> conns st <> [] ->
  a_accept os = Some (nfd, addr) -> a_memory os = true ->
  exists st' acts index c0 c', handleAccept junk i os st = Ok (st', acts) /\
    conns st' !! index = Some c' /\ admitted st s os (fresh_conn nfd i addr c0) c' acts /\
    (forall j c, conns st !! j = Some c -> coClosed c = false -> conns st' !! j = Some c) /\
    (forall c, conns st !! index = Some c -> coClosed c = true).
Proof.
  intros Hs Hr Ha Hne Hacc Hmem. unfold handleAccept. rewrite Hs. cbn [of_option mbind comp_bind].
  rewrite Hacc, Hmem. cbv zeta. cbn [conns with_maxfd servers].
  set (found := fst <$> list_find _ (conns st)). set (st1 := with_maxfd (Z.max (maxfd st) nfd) st).
  set (cs := match found with Some _ => conns st | None => _ end).
  set (index := default (length (conns st)) found).
  assert (index < length cs /\ (forall c, conns st !! index = Some c -> coClosed c = true) /\
          (forall j c, conns st !! j = Some c -> cs !! j = Some c))%nat as (Hlt & Hclosed & Hsame).
  { unfold index, cs, found. destruct (list_find _ (conns st)) as [[k c]|] eqn:E; cbn.
    - apply list_find_Some in E as (Hk & Hc & _). apply Is_true_true in Hc.
      split; [by eapply lookup_lt_Some|]. split; [|done]. congruence.
    - rewrite length_app, length_replicate. destruct (conns st) as [|c cs'] eqn:Ec; [done|]. cbn [length].
      split; [lia|]. split.
      + intros c1 H%lookup_lt_Some. cbn in H. lia.
      + intros j c1 H. by apply lookup_app_l_Some. }
  destruct (lookup_lt_is_Some_2 cs index Hlt) as [c0 Hc0].
  destruct (admit_conn_ok st1 s os (Z.of_nat index) (fresh_conn nfd i addr c0)) as (c' & acts & mx & Hok & Had);
    [by destruct Hr|done|done|].
  exists (with_conns (<[index := c']> cs) (with_maxfd mx st1)), acts, index, c0, c'.
  split; [|split; [|split; [|split]]].
  - destruct found; cbn [of_option mbind comp_bind]; rewrite Hc0; cbn [of_option mbind comp_bind]; by rewrite Hok.
  - cbn. by apply list_lookup_insert_eq.
  - by destruct Had.
  - intros j c Hj Hcl. cbn. rewrite list_lookup_insert_ne; [by apply Hsame|].
    intros ->. rewrite (Hclosed c Hj) in Hcl. done.
  - exact Hclosed.
Qed.

(** * Properties *)

(** A demonstration: one forwarding rule with an allow and a deny pattern. *)
Definition blank : conn :=
  Conn 0 0 0 0 0 0 true false false false 0 0 0 0 (replicate 1024 0) (replicate 1024 0) (0, 0, 0, 0).
Definition demo_server : server :=
  Server 3 (127, 0, 0, 1) 20480 (lit "0.0.0.0") 8080 (lit "127.0.0.1") 80 0 1 0 1.
Definition demo_rinetd : rstate :=
  RS [blank; blank] [demo_server] [lit "10.*"] [lit "10.0.0.*"] 0 0 3.
Definition demo_accept (addr : in_addr) : accept_os :=
  AcceptOs (Some (7, addr)) true (Some 8) true true [].
Definition demo_conn : conn := set_loFd 8 (fresh_conn 7 0 (10, 1, 2, 3) blank).

(** Both ends say something, then the local end closes. *)
Definition demo_passes : list pass_os :=
  [PassOs {[7; 8]} ∅ (fun fd => RData (if fd =? 7 then lit "GET" else lit "page")) (fun _ => SSent 2);
   PassOs ∅ {[7; 8]} (fun _ => RWouldBlock) (fun _ => SSent 2);
   PassOs {[8]} ∅ (fun _ => RData []) (fun _ => SSent 2)].
Definition demo_drain : pass_os := PassOs ∅ {[7]} (fun _ => RWouldBlock) (fun _ => SSent 2).

Lemma demo_rule_ok (s : string) w0 ws : lit s = pattern w0 ws -> bool_decide (plain w0 /\ Forall plain ws) = true ->
  rule_ok (lit s).
Proof. intros H Hd%bool_decide_eq_true. exists w0, ws. tauto. Qed.

Lemma demo_rules_ok : rules_ok demo_rinetd demo_server.
Proof.
  constructor; (split; [by_decide|]); try apply Forall_nil_2; (apply Forall_cons; split; [|constructor]).
  - by apply (demo_rule_ok "10.*" (lit "10.") [[]]).
  - by apply (demo_rule_ok "10.0.0.*" (lit "10.0.0.") [[]]).
Qed.

(** C33: whatever the system calls of any number of passes return, a connection
    is two pipes: the bytes sent to one end followed by the bytes waiting in
    the buffer are the bytes received from the other, in order, each once;
    each end is closed once if it is marked closed and never otherwise; and
    the slot is given up only when both ends are closed. *)
Theorem streams_intact i oss nfd se addr c :
  zlen (coInput c) = bufferSpace -> zlen (coOutput c) = bufferSpace ->
  let '(c', h) := passes i oss (fresh_conn nfd se addr c) in
  received Re h = delivered Lo h ++ pending_in c' /\
  received Lo h = delivered Re h ++ pending_out c' /\
  closes Re h = Nat.b2n (reClosed c') /\ closes Lo h = Nat.b2n (loClosed c') /\
  (coClosed c' = true -> reClosed c' = true /\ loClosed c' = true).
Proof.
  intros Hi Ho. pose proof (passes_ok i oss _ [] (fresh_conn_ok nfd se addr c Hi Ho)) as H.
  destruct (passes i oss _) as [c' h]. destruct H as [_ _ Hu Hd Hr Hl _ Hk]. cbn in *.
  split_and!; try done; intros H%Hk; by apply andb_prop in H.
Qed.

Lemma streams_intact_witness :
  let '(c', h) := passes 0 demo_passes (fresh_conn 7 0 (10, 1, 2, 3) (set_loFd 8 blank)) in
  received Re h = delivered Lo h ++ pending_in c' /\
  received Lo h = delivered Re h ++ pending_out c' /\
  closes Re h = Nat.b2n (reClosed c') /\ closes Lo h = Nat.b2n (loClosed c') /\
  (coClosed c' = true -> reClosed c' = true /\ loClosed c' = true).
Proof. apply streams_intact; reflexivity. Defined.

(** The demonstration, byte for byte. *)
Example demo_streams :
  let '(c', h) := passes 0 demo_passes demo_conn in
  delivered Lo h = lit "GE" /\ pending_in c' = lit "T" /\ delivered Re h = lit "pa" /\
  pending_out c' = lit "ge" /\ draining c'.
Proof. vm_compute. repeat split. Qed.

(** C39: when the local end has closed, a remote end that takes at least one
    byte a pass gets everything the local end sent: after at most one pass
    more than there are bytes waiting the slot is closed and all that was
    received from the local end has been delivered. *)
Theorem polite_close_delivers i oss c h : conn_ok c h -> draining c ->
  Forall (fun os => remote_drains os c) oss -> zlen (pending_out c) < zlen oss ->
  let '(c', a) := passes i oss c in
  coClosed c' = true /\ reClosed c' = true /\ loClosed c' = true /\
  received Lo (h ++ a) = delivered Re (h ++ a).
Proof.
  intros Hok Hdr Hos Hl. pose proof (drain_passes i oss c h Hok Hdr Hos Hl) as [Hc Hp].
  pose proof (passes_ok i oss c h Hok) as Hok'. destruct (passes i oss c) as [c' a].
  destruct Hok' as [_ _ _ Hd _ _ _ Hk]. cbn [fst snd] in *. specialize (Hk Hc) as [Hre Hlo]%andb_prop.
  split_and!; try done. by rewrite Hd, Hp, app_nil_r.
Qed.

Lemma demo_conn_ok : conn_ok demo_conn [].
Proof. constructor; try done; repeat split; unfold bufferSpace; cbn; lia || done. Qed.

Lemma polite_close_delivers_witness :
  let p := passes 0 demo_passes demo_conn in
  let '(c', a) := passes 0 [demo_drain; demo_drain; demo_drain] (fst p) in
  coClosed c' = true /\ reClosed c' = true /\ loClosed c' = true /\
  received Lo (snd p ++ a) = delivered Re (snd p ++ a).
Proof.
  apply (polite_close_delivers 0 _ (fst (passes 0 demo_passes demo_conn))).
  - exact (passes_ok 0 demo_passes demo_conn [] demo_conn_ok).
  - vm_compute. repeat split.
  - assert (remote_drains demo_drain (fst (passes 0 demo_passes demo_conn))) as H.
    { unfold remote_drains. replace (reFds _) with 7 by (vm_compute; reflexivity).
      split; [by_decide|]. split; [by exists 2|done]. }
    do 3 (apply Forall_cons; split; [exact H|]). constructor.
  - vm_compute. reflexivity.
Defined.

(** C30: accepting a connection enforces rules of words and stars. The rules
    the server is checked against lie inside the arrays and are made of plain
    characters and stars (a question mark is outside the theorem: against the
    end of an address the matcher reads behind it); [accept] gives a
    connection, the table of connections is not empty, and there is memory.
    Then the call succeeds, every open slot stays as it is, and the slot
    taken was free; the new connection is open, with its local connection
    requested and nothing else done, when the allow rules let the address
    pass, no deny rule hits it and the local server can be reached, and is
    closed otherwise. *)
Theorem accept_enforces_rules junk i os st s nfd addr :
  servers st !! Z.to_nat i = Some s -> rules_ok st s -> addr_ok addr -> conns st <> [] ->
  a_accept os = Some (nfd, addr) -> a_memory os = true ->
  exists st' acts index c', handleAccept junk i os st = Ok (st', acts) /\
    conns st' !! index = Some c' /\
    (forall j c, conns st !! j = Some c -> coClosed c = false -> conns st' !! j = Some c) /\
    (forall c, conns st !! index = Some c -> coClosed c = true) /\
    (coClosed c' = false <-> passes_allow st s addr /\ ~ hits_deny st s addr /\ local_up os) /\
    (coClosed c' = false -> reFds c' = nfd /\ Some (loFds c') = a_socket os /\
       acts = [AConnect (loFds c') (seLocalAddrs s) (seLocalPorts s)]) /\
    (coClosed c' = true -> (1 <= closes Re acts)%nat).
Proof.
  intros Hs Hr Ha Hne Hacc Hmem.
  destruct (handleAccept_ok junk i os st s nfd addr Hs Hr Ha Hne Hacc Hmem)
    as (st' & acts & index & c0 & c' & Hok & Hc' & [Hout _ _] & Hsame & Hfree). cbn in Hout.
  exists st', acts, index, c'. split; [done|]. split; [done|]. split; [done|]. split; [done|].
  destruct Hout as [(Hyes & fd & Hfd & -> & ->)|(Hno & Hcl & Hre)].
  - split; [tauto|]. split; [|done]. intros _. done.
  - rewrite Hcl. split; [split; [done|tauto]|]. split; done.
Qed.

Lemma accept_enforces_rules_witness :
  exists st' acts index c', handleAccept blank 0 (demo_accept (10, 1, 2, 3)) demo_rinetd = Ok (st', acts) /\
    conns st' !! index = Some c' /\
    (forall j c, conns demo_rinetd !! j = Some c -> coClosed c = false -> conns st' !! j = Some c) /\
    (forall c, conns demo_rinetd !! index = Some c -> coClosed c = true) /\
    (coClosed c' = false <-> passes_allow demo_rinetd demo_server (10, 1, 2, 3) /\
       ~ hits_deny demo_rinetd demo_server (10, 1, 2, 3) /\ local_up (demo_accept (10, 1, 2, 3))) /\
    (coClosed c' = false -> reFds c' = 7 /\ Some (loFds c') = a_socket (demo_accept (10, 1, 2, 3)) /\
       acts = [AConnect (loFds c') (seLocalAddrs demo_server) (seLocalPorts demo_server)]) /\
    (coClosed c' = true -> (1 <= closes Re acts)%nat).
Proof.
  apply accept_enforces_rules; [done|apply demo_rules_ok|by_decide|done|done|done].
Defined.

(** A denied client still reaches the local server: [handleAccept] goes on
    after refusing an address that a deny rule hits, so the local connection
    is requested all the same, and with the slot closed its descriptor is
    never closed. *)
Theorem denied_client_leaks_connection junk i os st s nfd addr :
  servers st !! Z.to_nat i = Some s -> rules_ok st s -> addr_ok addr -> conns st <> [] ->
  a_accept os = Some (nfd, addr) -> a_memory os = true ->
  passes_allow st s addr -> hits_deny st s addr -> local_up os ->
  exists st' acts index c' fd, handleAccept junk i os st = Ok (st', acts) /\
    conns st' !! index = Some c' /\ coClosed c' = true /\ a_socket os = Some fd /\
    connects acts = [(fd, seLocalAddrs s, seLocalPorts s)] /\ closes Lo acts = O.
Proof.
  intros Hs Hr Ha Hne Hacc Hmem Hal Hde Hup.
  destruct (handleAccept_ok junk i os st s nfd addr Hs Hr Ha Hne Hacc Hmem)
    as (st' & acts & index & c0 & c' & Hok & Hc' & [Hout Hleak _] & _). cbn in Hout, Hleak.
  destruct (Hleak Hal Hde Hup) as (fd & Hfd & Hco & Hlo). exists st', acts, index, c', fd.
  split_and!; try done. destruct Hout; tauto.
Qed.

Lemma denied_client_leaks_connection_witness :
  exists st' acts index c' fd, handleAccept blank 0 (demo_accept (10, 0, 0, 9)) demo_rinetd = Ok (st', acts) /\
    conns st' !! index = Some c' /\ coClosed c' = true /\ a_socket (demo_accept (10, 0, 0, 9)) = Some fd /\
    connects acts = [(fd, seLocalAddrs demo_server, seLocalPorts demo_server)] /\ closes Lo acts = O.
Proof.
  apply (denied_client_leaks_connection _ _ _ _ _ 7 (10, 0, 0, 9));
    [done|apply demo_rules_ok|by_decide|done|done|done| | |by_decide].
  - split; [by left|]. right. constructor. exists (lit "10."), [[]].
    split; [by_decide|]. split; [by_decide|]. split; [done|]. exists (lit "0.0.9"). split; [done|].
    cbn. exists (lit "0.0.9"). done.
  - right. constructor. exists (lit "10.0.0."), [[]].
    split; [by_decide|]. split; [by_decide|]. split; [done|]. exists (lit "9"). split; [done|].
    cbn. exists (lit "9"). done.
Defined.
