(* ===== verification/RinetdConf.v ===== *)
(** rinetd's configuration file and log (src/rinetd/rinetd.c): the two passes
    over the file, the arrays of forwarding and access rules they fill, and
    the lines of the log. *)
From S2P Require Import Prelude CString Match Rinetd.
Set Warnings "-clear-no-such-hyp".

(** * Addresses and patterns *)

(** The name services, and the results of the system calls for one listening
    socket: [socket], whether [bind] and whether [listen] succeed. *)
Record conf_env := Env {
  getservbyname : list Z -> option Z; gethostbyname : list Z -> option in_addr }.
Record listen_os := ListenOs { l_socket : Z; l_bind : bool; l_listen : bool }.

(** [inet_addr]: the broadcast address stands for a text that is none. *)
Definition inet_addr (host : list Z) : in_addr := default (255, 255, 255, 255) (inet_aton host).

Fixpoint ishost (p : list Z) : bool :=
  match p with
  | c :: p' => if negb (isdigit c || (c =? 46)) then true else ishost p'
  | [] => false
  end.

Definition getAddress (env : conf_env) (host : list Z) : option in_addr :=
  if ishost host then gethostbyname env host else Some (inet_addr host).

(** The loop returns in its first round. *)
Definition patternBad (pattern : list Z) : Z :=
  match pattern with [] => 1 | _ :: _ => 0 end.

(** * Lines *)

(** The file is the strings that [fgets] will return. *)
Fixpoint getConfLine (file : list (list Z)) (lnum : Z) : option (list Z * list (list Z) * Z) :=
  match file with
  | [] => None
  | line :: file' =>
      match skip_space line with
      | [] => getConfLine file' lnum
      | c :: _ => if c =? 35 then getConfLine file' lnum else Some (line, file', lnum + 1)
      end
  end.

Definition line_space : Z := 16384.

(** * State *)

(** What the program does to the listening sockets. *)
Inductive conf_call := CBind (fd : Z) (addr : in_addr) (port : Z) | CListen (fd : Z) | CClose (fd : Z).

(** The messages on [stderr], with the line number they carry. *)
Inductive diag :=
| NoBindAddress (lnum : Z) | NothingToAllow (lnum : Z) | IllegalPattern | NothingToDeny (lnum : Z)
| NoLogFile (lnum : Z) | NoPidLogFile (lnum : Z) | NoBindPort (lnum : Z) | BindPortRange (lnum : Z)
| NoConnectAddress (lnum : Z) | NoConnectPort (lnum : Z) | Unresolved (host : list Z) (lnum : Z)
| NoServerSocket | NoBind (host : list Z) (port : Z) | NoListen (host : list Z) (port : Z).

(** An array of patterns: the ones stored, what has been allocated, and how
    many of them are global. *)
Record rules := Rules { r_list : list (list Z); r_total : Z; r_global : Z }.

(** [i] is the next forwarding rule; [osl] are the results of the next
    listening sockets (none is left: [socket] fails), [calls] what was done to
    them. *)
Record conf := Conf {
  c_servers : list server; c_i : nat; c_allow : rules; c_deny : rules;
  logFileName : option (list Z); pidLogFileName : option (list Z); logFormatCommon : Z;
  c_maxfd : Z; osl : list listen_os; calls : list conf_call; diags : list diag }.

Definition with_servers (ss : list server) (c : conf) : conf :=
  Conf ss (c_i c) (c_allow c) (c_deny c) (logFileName c) (pidLogFileName c) (logFormatCommon c)
    (c_maxfd c) (osl c) (calls c) (diags c).
Definition with_i (i : nat) (c : conf) : conf :=
  Conf (c_servers c) i (c_allow c) (c_deny c) (logFileName c) (pidLogFileName c) (logFormatCommon c)
    (c_maxfd c) (osl c) (calls c) (diags c).
Definition with_allow (r : rules) (c : conf) : conf :=
  Conf (c_servers c) (c_i c) r (c_deny c) (logFileName c) (pidLogFileName c) (logFormatCommon c)
    (c_maxfd c) (osl c) (calls c) (diags c).
Definition with_deny (r : rules) (c : conf) : conf :=
  Conf (c_servers c) (c_i c) (c_allow c) r (logFileName c) (pidLogFileName c) (logFormatCommon c)
    (c_maxfd c) (osl c) (calls c) (diags c).
Definition with_logs (l p : option (list Z)) (common : Z) (c : conf) : conf :=
  Conf (c_servers c) (c_i c) (c_allow c) (c_deny c) l p common
    (c_maxfd c) (osl c) (calls c) (diags c).
Definition with_sys (mx : Z) (os : list listen_os) (cl : list conf_call) (c : conf) : conf :=
  Conf (c_servers c) (c_i c) (c_allow c) (c_deny c) (logFileName c) (pidLogFileName c) (logFormatCommon c)
    mx os cl (diags c).
Definition say (d : diag) (c : conf) : conf :=
  Conf (c_servers c) (c_i c) (c_allow c) (c_deny c) (logFileName c) (pidLogFileName c) (logFormatCommon c)
    (c_maxfd c) (osl c) (calls c) (diags c ++ [d]).

(** A store into the parallel arrays at one index. *)
Definition upd_server (f : server -> server) (i : nat) (c : conf) : comp conf :=
  s ← of_option WriteOOB (c_servers c !! i); mret (with_servers (<[i := f s]> (c_servers c)) c).

Definition set_fd (fd : Z) (s : server) : server :=
  Server fd (seLocalAddrs s) (seLocalPorts s) (seFromHosts s) (seFromPorts s) (seToHosts s) (seToPorts s)
    (seAllowRules s) (seAllowRulesTotal s) (seDenyRules s) (seDenyRulesTotal s).
Definition set_ends (a : in_addr) (p : Z) (fh : list Z) (fp : Z) (th : list Z) (tp : Z) (s : server) : server :=
  Server (seFds s) a p fh fp th tp
    (seAllowRules s) (seAllowRulesTotal s) (seDenyRules s) (seDenyRulesTotal s).
Definition set_totals (a d : Z) (s : server) : server :=
  Server (seFds s) (seLocalAddrs s) (seLocalPorts s) (seFromHosts s) (seFromPorts s) (seToHosts s) (seToPorts s)
    (seAllowRules s) a (seDenyRules s) d.

(** [if (total[i - 1] == 0) rules[i - 1] = ai; total[i - 1]++;] *)
Definition count_allow (ai : Z) (s : server) : server :=
  Server (seFds s) (seLocalAddrs s) (seLocalPorts s) (seFromHosts s) (seFromPorts s) (seToHosts s) (seToPorts s)
    (if seAllowRulesTotal s =? 0 then ai else seAllowRules s) (seAllowRulesTotal s + 1)
    (seDenyRules s) (seDenyRulesTotal s).
Definition count_deny (di : Z) (s : server) : server :=
  Server (seFds s) (seLocalAddrs s) (seLocalPorts s) (seFromHosts s) (seFromPorts s) (seToHosts s) (seToPorts s)
    (seAllowRules s) (seAllowRulesTotal s)
    (if seDenyRulesTotal s =? 0 then di else seDenyRules s) (seDenyRulesTotal s + 1).

(** * The first pass *)

Definition keyword_allow : list Z := lit "allow".
Definition keyword_deny : list Z := lit "deny".
Definition keyword_logfile : list Z := lit "logfile".
Definition keyword_pidlogfile : list Z := lit "pidlogfile".
Definition keyword_logcommon : list Z := lit "logcommon".

(** Counts the allow, deny and forwarding lines. *)
Fixpoint count_lines (fuel : nat) (file : list (list Z)) (lnum : Z) (al de se : Z) : comp (Z * Z * Z) :=
  match fuel with
  | O => Fault NoFuel
  | S fuel' =>
      match getConfLine file lnum with
      | None => Ok (al, de, se)
      | Some (line, file, lnum) =>
          t ← of_option NullDeref (fst (strtok line));
          if strcmp0 t keyword_logfile then count_lines fuel' file lnum al de se
          else if strcmp0 t keyword_pidlogfile then count_lines fuel' file lnum al de se
          else if strcmp0 t keyword_logcommon then count_lines fuel' file lnum al de se
          else if strcmp0 t keyword_allow then count_lines fuel' file lnum (al + 1) de se
          else if strcmp0 t keyword_deny then count_lines fuel' file lnum al (de + 1) se
          else count_lines fuel' file lnum al de (se + 1)
      end
  end.

(** * The second pass *)

(** [strcpy] of a pattern into its array. *)
Definition push_rule (pattern : list Z) (global : bool) (r : rules) : comp rules :=
  if zlen (r_list r) <? r_total r
  then Ok (Rules (r_list r ++ [pattern]) (r_total r) (if global then r_global r + 1 else r_global r))
  else Fault WriteOOB.

Definition allow_line (rest : list Z) (lnum : Z) (c : conf) : comp conf :=
  match fst (strtok rest) with
  | None => Ok (say (NothingToAllow lnum) c)
  | Some pattern =>
      if negb (patternBad pattern =? 0) then Ok (say IllegalPattern c)
      else
        let ai := zlen (r_list (c_allow c)) in
        r ← push_rule pattern (c_i c =? 0)%nat (c_allow c);
        let c := with_allow r c in
        if (c_i c =? 0)%nat then Ok c else upd_server (count_allow ai) (c_i c - 1) c
  end.

Definition deny_line (rest : list Z) (lnum : Z) (c : conf) : comp conf :=
  match fst (strtok rest) with
  | None => Ok (say (NothingToDeny lnum) c)
  | Some pattern =>
      let di := zlen (r_list (c_deny c)) in
      r ← push_rule pattern (c_i c =? 0)%nat (c_deny c);
      let c := with_deny r c in
      if (c_i c =? 0)%nat then Ok c else upd_server (count_deny di) (c_i c - 1) c
  end.

(** A port: a service, or a number; it is stored in an [unsigned short]. *)
Definition port_of (env : conf_env) (s : list Z) : Z :=
  match getservbyname env s with Some p => u16 p | None => u16 (atoi s) end.

Definition htons_port (p : Z) : Z := lo8 p * 256 + hi8 p.

(** [closesocket (seFds[i]); seFds[i] = INVALID_SOCKET;] *)
Definition drop_socket (fd : Z) (d : diag) (c : conf) : comp conf :=
  c ← upd_server (set_fd (-1)) (c_i c) c;
  mret (say d (with_sys (c_maxfd c) (osl c) (calls c ++ [CClose fd]) c)).

(** The listening socket and the rest of the rule, once the line is read. *)
Definition open_rule (env : conf_env) (bindAddress : list Z) (bindPort : Z) (connectAddress : list Z)
    (connectPort : Z) (iaddr : in_addr) (lnum : Z) (c : conf) : comp conf :=
  let os := default (ListenOs (-1) false false) (head (osl c)) in
  let c := with_sys (c_maxfd c) (tail (osl c)) (calls c) c in
  if l_socket os =? -1 then c ← upd_server (set_fd (-1)) (c_i c) c; mret (say NoServerSocket c)
  else
    c ← upd_server (set_fd (l_socket os)) (c_i c) c;
    let c := with_sys (Z.max (c_maxfd c) (l_socket os)) (osl c) (calls c ++ [CBind (l_socket os) iaddr bindPort]) c in
    if negb (l_bind os) then drop_socket (l_socket os) (NoBind bindAddress bindPort) c
    else
      let c := with_sys (c_maxfd c) (osl c) (calls c ++ [CListen (l_socket os)]) c in
      if negb (l_listen os) then drop_socket (l_socket os) (NoListen bindAddress bindPort) c
      else
      match getAddress env connectAddress with
      | None => drop_socket (l_socket os) (Unresolved bindAddress lnum) c
      | Some iaddr =>
          c ← upd_server (set_ends iaddr (htons_port connectPort) bindAddress bindPort
                            connectAddress connectPort) (c_i c) c;
          let c := with_i (S (c_i c)) c in
          if (c_i c <? length (c_servers c))%nat then upd_server (set_totals 0 0) (c_i c) c else Ok c
      end.

Definition forward_line (env : conf_env) (bindAddress rest : list Z) (lnum : Z) (c : conf) : comp conf :=
  match strtok rest with
  | (None, _) => Ok (say (NoBindPort lnum) c)
  | (Some bindPortS, rest) =>
      let bindPort := port_of env bindPortS in
      if (bindPort =? 0) || (65536 <=? bindPort) then Ok (say (BindPortRange lnum) c)
      else
        match strtok rest with
        | (None, _) => Ok (say (NoConnectAddress lnum) c)
        | (Some connectAddress, rest) =>
            match strtok rest with
            | (None, _) => Ok (say (NoConnectPort lnum) c)
            | (Some connectPortS, _) =>
                let connectPort := port_of env connectPortS in
                if (connectPort =? 0) || (65536 <=? connectPort) then Ok (say (BindPortRange lnum) c)
                else
                  match getAddress env bindAddress with
                  | None => Ok (say (Unresolved bindAddress lnum) c)
                  | Some iaddr =>
                      open_rule env bindAddress bindPort connectAddress connectPort iaddr lnum c
                  end
            end
        end
  end.

Definition conf_line (env : conf_env) (line : list Z) (lnum : Z) (c : conf) : comp conf :=
  match strtok line with
  | (None, _) => Ok (say (NoBindAddress lnum) c)
  | (Some bindAddress, rest) =>
      if strcmp0 bindAddress keyword_allow then allow_line rest lnum c
      else if strcmp0 bindAddress keyword_deny then deny_line rest lnum c
      else if strcmp0 bindAddress keyword_logfile then
        match fst (strtok rest) with
        | None => Ok (say (NoLogFile lnum) c)
        | Some nt => Ok (with_logs (Some nt) (pidLogFileName c) (logFormatCommon c) c)
        end
      else if strcmp0 bindAddress keyword_pidlogfile then
        match fst (strtok rest) with
        | None => Ok (say (NoPidLogFile lnum) c)
        | Some nt => Ok (with_logs (logFileName c) (Some nt) (logFormatCommon c) c)
        end
      else if strcmp0 bindAddress keyword_logcommon then
        Ok (with_logs (logFileName c) (pidLogFileName c) 1 c)
      else forward_line env bindAddress rest lnum c
  end.

Fixpoint conf_lines (env : conf_env) (fuel : nat) (file : list (list Z)) (lnum : Z) (c : conf) : comp conf :=
  match fuel with
  | O => Fault NoFuel
  | S fuel' =>
      match getConfLine file lnum with
      | None => Ok c
      | Some (line, file, lnum) => c ← conf_line env line lnum c; conf_lines env fuel' file lnum c
      end
  end.

(** The listening sockets of the previous configuration are closed and the
    names of their hosts freed: [n] slots have names, the pointers in the
    others have never been set. *)
Fixpoint close_servers (n : nat) (ss : list server) : comp (list conf_call) :=
  match ss with
  | [] => Ok []
  | s :: ss' =>
      if seFds s =? -1 then close_servers (Nat.pred n) ss'
      else match n with
           | O => Fault BadFree
           | S n' => cl ← close_servers n' ss'; mret (CClose (seFds s) :: cl)
           end
  end.

(** Every pattern that was counted is freed, whether it was stored or not. *)
Definition free_rules (r : rules) : comp unit :=
  if zlen (r_list r) <? r_total r then Fault BadFree else Ok tt.

(** [prev] is the previous configuration; there is none when the program
    starts. *)
Definition forget_previous (prev : option conf) : comp (list conf_call) :=
  match prev with
  | None => Ok []
  | Some c =>
      cl ← close_servers (c_i c) (c_servers c);
      _ ← free_rules (c_allow c);
      _ ← free_rules (c_deny c);
      mret cl
  end.

(** The file is opened twice: [file1] and [file2] are its content at the two
    times, [None] when it cannot be opened; [junk] is what the allocated
    arrays hold, [common] and [mx] the values of [logFormatCommon] and
    [maxfd].  The result is [None] when the program exits.  Memory is taken to
    suffice. *)
Definition readConfiguration (env : conf_env) (junk : server) (os : list listen_os)
    (file1 file2 : option (list Z)) (common mx : Z) (prev : option conf) : comp (option conf) :=
  cl ← forget_previous prev;
  match file1 with
  | None => Ok None
  | Some content1 =>
      let ls := file_lines line_space content1 in
      '(al, de, se) ← count_lines (S (length ls)) ls 0 0 0 0;
      match file2 with
      | None => Ok None
      | Some content2 =>
          let ss := replicate (Z.to_nat se) junk in
          let c := Conf ss 0 (Rules [] al 0) (Rules [] de 0) None None common mx os cl [] in
          c ← (if 0 <? se then upd_server (set_totals 0 0) 0 c else mret c);
          let ls := file_lines line_space content2 in
          c ← conf_lines env (S (length ls)) ls 0 c;
          mret (Some c)
      end
  end.

(** What the rest of the program sees of a configuration. *)
Definition configured (c : conf) (old : rstate) : rstate :=
  RS (conns old) (c_servers c) (r_list (c_allow c)) (r_list (c_deny c))
    (r_global (c_allow c)) (r_global (c_deny c)) (c_maxfd c).

(** * The log *)

(** What [localtime] and [gmtime] say that matters here. *)
Record tm := Tm { tm_yday : Z; tm_hour : Z; tm_min : Z }.

(** The offset of the local time from UTC in minutes. *)
Definition get_gmtoff (gmt t : tm) : Z :=
  let days := tm_yday t - tm_yday gmt in
  let hours := (if days <? -1 then 24 else if 1 <? days then -24 else days * 24)
               + tm_hour t - tm_hour gmt in
  hours * 60 + tm_min t - tm_min gmt.

Definition logMessages : list (option (list Z)) :=
  [Some (lit "done-local-closed"); Some (lit "done-remote-closed"); Some (lit "accept-failed -"); None;
   Some (lit "local-socket-failed -"); None; Some (lit "local-bind-failed -"); None;
   Some (lit "local-connect-failed -"); None; Some (lit "not-allowed"); None; Some (lit "denied"); None].

Definition nullAddress : in_addr := (0, 0, 0, 0).

(** [printf] of a null pointer with [%s]. *)
Definition null_text : list Z := lit "(null)".

(** The quotation mark. *)
Definition quote : list Z := [34].

Definition dotted_quad (a : in_addr) : list Z :=
  let '(a, b, c, d) := a in dec a ++ [46] ++ dec b ++ [46] ++ dec c ++ [46] ++ dec d.

(** The line for one event; [logFile] says whether the log is open, [tstr] is
    the formatted local time. *)
Definition log (logFile : bool) (common : Z) (gmt t : tm) (tstr : list Z) (st : rstate) (i se result : Z)
  : comp (list Z) :=
  let timz := get_gmtoff gmt t in
  let sign := if timz <? 0 then [45] else [43] in
  let timz := Z.abs timz in
  '(reAddress, bytesOutput, bytesInput) ←
    (if i =? -1 then mret (nullAddress, 0, 0)
     else c ← of_option ReadOOB (conns st !! Z.to_nat i);
          mret (reAddresses c, coBytesOutput c, coBytesInput c));
  if negb logFile then Ok []
  else
    s ← of_option ReadOOB (servers st !! Z.to_nat se);
    m ← of_option ReadOOB (logMessages !! Z.to_nat result);
    let msg := default null_text m in
    mret (if negb (common =? 0) then
            dotted_quad reAddress ++ lit " - - [" ++ tstr ++ lit " " ++ sign ++ dec2 (timz / 60) ++
            dec2 (timz `mod` 60) ++ lit "] " ++ quote ++ lit "GET /rinetd-services/" ++ seFromHosts s ++
            lit "/" ++ dec (seFromPorts s) ++ lit "/" ++ seToHosts s ++ lit "/" ++ dec (seToPorts s) ++
            lit "/" ++ msg ++ lit " HTTP/1.0" ++ quote ++ lit " 200 " ++ dec bytesOutput ++ lit " - - - " ++
            dec bytesInput ++ [10]
          else
            tstr ++ [9] ++ dotted_quad reAddress ++ [9] ++ seFromHosts s ++ [9] ++ dec (seFromPorts s) ++
            [9] ++ seToHosts s ++ [9] ++ dec (seToPorts s) ++ [9] ++ dec bytesInput ++ [9] ++
            dec bytesOutput ++ [9] ++ msg ++ [10]).

(** * What is loaded from a configuration file *)

(** A forwarding rule with the patterns that follow it. *)
Record stanza := Stanza {
  z_fd : Z; z_addr : in_addr; z_port : Z; z_from : list Z * Z; z_to : list Z * Z;
  z_allow : list (list Z); z_deny : list (list Z) }.
Record policy := Policy { p_allow : list (list Z); p_deny : list (list Z); stanzas : list stanza }.

Definition no_policy : policy := Policy [] [] [].

(** A pattern belongs to the rule in front of it, or to all when there is
    none. *)
Definition add_allow (p : list Z) (P : policy) : policy :=
  match last (stanzas P) with
  | None => Policy (p_allow P ++ [p]) (p_deny P) []
  | Some z => Policy (p_allow P) (p_deny P)
      (take (length (stanzas P) - 1) (stanzas P) ++
       [Stanza (z_fd z) (z_addr z) (z_port z) (z_from z) (z_to z) (z_allow z ++ [p]) (z_deny z)])
  end.
Definition add_deny (p : list Z) (P : policy) : policy :=
  match last (stanzas P) with
  | None => Policy (p_allow P) (p_deny P ++ [p]) []
  | Some z => Policy (p_allow P) (p_deny P)
      (take (length (stanzas P) - 1) (stanzas P) ++
       [Stanza (z_fd z) (z_addr z) (z_port z) (z_from z) (z_to z) (z_allow z) (z_deny z ++ [p])])
  end.

(** The four words of a forwarding line, when the ports are not zero and the
    address to bind to is known. *)
Definition parse_forward (env : conf_env) (bindAddress rest : list Z)
  : option (list Z * Z * list Z * Z) :=
  match strtok rest with
  | (Some bp, rest) =>
      match strtok rest with
      | (Some ca, rest) =>
          match strtok rest with
          | (Some cp, _) =>
              if (port_of env bp =? 0) || (port_of env cp =? 0) then None
              else match getAddress env bindAddress with
                   | Some _ => Some (bindAddress, port_of env bp, ca, port_of env cp)
                   | None => None
                   end
          | _ => None
          end
      | _ => None
      end
  | _ => None
  end.

(** The stanza a forwarding line opens, if its socket can be set up. *)
Definition new_stanza (env : conf_env) (os : listen_os) (r : list Z * Z * list Z * Z) : option stanza :=
  let '(ba, bp, ca, cp) := r in
  if negb (l_socket os =? -1) && l_bind os && l_listen os then
    match getAddress env ca with
    | Some a => Some (Stanza (l_socket os) a (htons_port cp) (ba, bp) (ca, cp) [] [])
    | None => None
    end
  else None.

(** The meaning of one line: each forwarding line that is well formed uses up
    the results of one socket. *)
Definition policy_line (env : conf_env) (line : list Z) (x : policy * list listen_os)
  : policy * list listen_os :=
  let '(P, osl) := x in
  match strtok line with
  | (None, _) => x
  | (Some w, rest) =>
      if strcmp0 w keyword_allow then
        match fst (strtok rest) with Some p => (add_allow p P, osl) | None => x end
      else if strcmp0 w keyword_deny then
        match fst (strtok rest) with Some p => (add_deny p P, osl) | None => x end
      else if strcmp0 w keyword_logfile || strcmp0 w keyword_pidlogfile || strcmp0 w keyword_logcommon then x
      else
        match parse_forward env w rest with
        | None => x
        | Some r =>
            (match new_stanza env (default (ListenOs (-1) false false) (head osl)) r with
             | Some z => Policy (p_allow P) (p_deny P) (stanzas P ++ [z])
             | None => P
             end, tail osl)
        end
  end.

(** Blank lines and comments mean nothing. *)
Definition significant (line : list Z) : bool :=
  match skip_space line with [] => false | c :: _ => negb (c =? 35) end.

(** The forwarding rules that could be set up, each with the patterns that are
    charged to it. *)
Definition policy_of (env : conf_env) (file : list (list Z)) (osl : list listen_os) : policy :=
  fst (foldl (fun x line => policy_line env line x) (no_policy, osl) (filter (fun l => Is_true (significant l)) file)).

(** * The reference: what the manual says a configuration file means *)

(** A forwarding line, its first word and the rest, with the patterns of the
    allow and deny lines below it and above the next forwarding line. *)
Record section := Section_ { s_word : list Z; s_rest : list Z; s_allow : list (list Z); s_deny : list (list Z) }.

(** The patterns above the first forwarding line are for all. *)
Record meaning := Meaning { m_allow : list (list Z); m_deny : list (list Z); sections : list section }.

Definition no_meaning : meaning := Meaning [] [] [].

Definition on_last (f : section -> section) (l : list section) : list section := alter f (length l - 1)%nat l.

Definition meaning_line (M : meaning) (line : list Z) : meaning :=
  match strtok line with
  | (None, _) => M
  | (Some w, rest) =>
      if strcmp0 w keyword_allow then
        match fst (strtok rest), sections M with
        | None, _ => M
        | Some p, [] => Meaning (m_allow M ++ [p]) (m_deny M) []
        | Some p, l => Meaning (m_allow M) (m_deny M) (on_last (fun s => Section_ (s_word s) (s_rest s) (s_allow s ++ [p]) (s_deny s)) l)
        end
      else if strcmp0 w keyword_deny then
        match fst (strtok rest), sections M with
        | None, _ => M
        | Some p, [] => Meaning (m_allow M) (m_deny M ++ [p]) []
        | Some p, l => Meaning (m_allow M) (m_deny M) (on_last (fun s => Section_ (s_word s) (s_rest s) (s_allow s) (s_deny s ++ [p])) l)
        end
      else if strcmp0 w keyword_logfile || strcmp0 w keyword_pidlogfile || strcmp0 w keyword_logcommon then M
      else Meaning (m_allow M) (m_deny M) (sections M ++ [Section_ w rest [] []])
  end.

Definition meaning_of (file : list (list Z)) : meaning :=
  foldl meaning_line no_meaning (filter (fun l => Is_true (significant l)) file).

(** What is set up for the [k]th forwarding line when every one in front of it
    got a socket. *)
Definition rule_of (env : conf_env) (os : list listen_os) (k : nat) (s : section) : option stanza :=
  r ← parse_forward env (s_word s) (s_rest s);
  z ← new_stanza env (default (ListenOs (-1) false false) (os !! k)) r;
  Some (Stanza (z_fd z) (z_addr z) (z_port z) (z_from z) (z_to z) (s_allow s) (s_deny s)).

(** Every forwarding line can be set up. *)
Definition all_set_up (env : conf_env) (os : list listen_os) (M : meaning) : Prop :=
  forall k s, sections M !! k = Some s -> is_Some (rule_of env os k s).

(** The previous configuration filled everything it had counted. *)
Definition complete (c : conf) : Prop :=
  (forall k s, (c_i c <= k)%nat -> c_servers c !! k = Some s -> seFds s = -1) /\
  r_total (c_allow c) <= zlen (r_list (c_allow c)) /\ r_total (c_deny c) <= zlen (r_list (c_deny c)).

Lemma close_servers_ok ss : forall n, (forall k s, (n <= k)%nat -> ss !! k = Some s -> seFds s = -1) -> exists cl, close_servers n ss = Ok cl.
Proof.
  induction ss as [|s ss IH]; intros n H; cbn [close_servers]; [by eexists|].
  destruct (IH (Nat.pred n)) as (cl & Hcl); [intros k s' Hk Hs; apply (H (S k)); [lia|done]|].
  destruct (seFds s =? -1) eqn:E; zbool; [by exists cl|]. destruct n as [|n]; [by destruct E; apply (H O); [lia|]|].
  cbn [Nat.pred] in Hcl. rewrite Hcl. by eexists.
Qed.

Lemma forget_previous_ok prev : (forall c, prev = Some c -> complete c) -> exists cl, forget_previous prev = Ok cl.
Proof.
  destruct prev as [c|]; [|by eexists]. intros H. destruct (H c eq_refl) as (H1 & H2 & H3). unfold forget_previous, free_rules.
  destruct (close_servers_ok (c_servers c) (c_i c) H1) as (cl & ->). cbn [mbind comp_bind].
  rewrite !(proj2 (Z.ltb_ge _ _)) by done. by eexists.
Qed.

(** ** What is loaded is what the file means, when every rule can be set up *)

Definition loaded (env : conf_env) (os : list listen_os) (M : meaning) (P : policy) : Prop :=
  p_allow P = m_allow M /\ p_deny P = m_deny M /\ length (stanzas P) = length (sections M) /\
  forall k s, sections M !! k = Some s -> stanzas P !! k = rule_of env os k s.

Lemma take_snoc_insert {A} (l : list A) z y : last l = Some z -> take (length l - 1) l ++ [y] = <[(length l - 1)%nat := y]> l.
Proof.
  intros [l0 ->]%last_Some. rewrite length_app. cbn [length]. replace (length l0 + 1 - 1)%nat with (length l0) by lia.
  rewrite take_app_length. by rewrite insert_app_r_alt, Nat.sub_diag by lia.
Qed.

(** A pattern goes to the last section and to its stanza. *)
Lemma loaded_last env os M P P' f g : loaded env os M P -> sections M <> [] ->
  (forall k s, rule_of env os k (f s) = g <$> rule_of env os k s) -> p_allow P' = p_allow P -> p_deny P' = p_deny P ->
  (forall z, last (stanzas P) = Some z -> stanzas P' = take (length (stanzas P) - 1) (stanzas P) ++ [g z]) ->
  loaded env os (Meaning (m_allow M) (m_deny M) (on_last f (sections M))) P'.
Proof.
  intros (Ha & Hd & Hlen & Hk) Hne Hfg Hpa Hpd Hp.
  destruct (last (stanzas P)) as [z|] eqn:El; [|apply last_None in El; rewrite El in Hlen; destruct (sections M); done].
  specialize (Hp z eq_refl). rewrite (take_snoc_insert _ z) in Hp by done. rewrite last_lookup, <- Nat.sub_1_r in El.
  split_and!; cbn [m_allow m_deny sections]; [congruence|congruence|unfold on_last; by rewrite Hp, length_insert, length_alter|].
  intros k s. unfold on_last. rewrite Hp, <- Hlen. destruct (decide (k = (length (stanzas P) - 1)%nat)) as [->|Hn].
  - rewrite list_lookup_alter_eq. intros (s0 & Hs0 & ->)%fmap_Some. rewrite list_lookup_insert_eq by (by eapply lookup_lt_Some).
    by rewrite Hfg, <- (Hk _ s0), El.
  - rewrite list_lookup_alter_ne, list_lookup_insert_ne by done. apply Hk.
Qed.

(** Whether the rules can be set up does not depend on the patterns. *)
Lemma on_last_sets_up env os M f : (forall k s, is_Some (rule_of env os k (f s)) -> is_Some (rule_of env os k s)) ->
  all_set_up env os (Meaning (m_allow M) (m_deny M) (on_last f (sections M))) -> all_set_up env os M.
Proof.
  intros Hf H k s Hk. destruct (decide (k = (length (sections M) - 1)%nat)) as [->|Hn].
  - apply Hf, (H (length (sections M) - 1)%nat). cbn [sections]. unfold on_last. by rewrite list_lookup_alter_eq, Hk.
  - apply (H k). cbn [sections]. unfold on_last. by rewrite list_lookup_alter_ne.
Qed.

Definition more_allow (p : list Z) (z : stanza) : stanza :=
  Stanza (z_fd z) (z_addr z) (z_port z) (z_from z) (z_to z) (z_allow z ++ [p]) (z_deny z).
Definition more_deny (p : list Z) (z : stanza) : stanza :=
  Stanza (z_fd z) (z_addr z) (z_port z) (z_from z) (z_to z) (z_allow z) (z_deny z ++ [p]).

Lemma rule_of_allow env os k s p :
  rule_of env os k (Section_ (s_word s) (s_rest s) (s_allow s ++ [p]) (s_deny s)) = more_allow p <$> rule_of env os k s.
Proof. unfold rule_of. cbn [s_word s_rest s_allow s_deny]. destruct (parse_forward _ _ _) as [r|]; [|done]. cbn. by destruct (new_stanza _ _ _). Qed.

Lemma rule_of_deny env os k s p :
  rule_of env os k (Section_ (s_word s) (s_rest s) (s_allow s) (s_deny s ++ [p])) = more_deny p <$> rule_of env os k s.
Proof. unfold rule_of. cbn [s_word s_rest s_allow s_deny]. destruct (parse_forward _ _ _) as [r|]; [|done]. cbn. by destruct (new_stanza _ _ _). Qed.

Lemma loaded_nil env os M P : loaded env os M P -> (sections M = [] <-> last (stanzas P) = None).
Proof. intros (_ & _ & Hlen & _). rewrite last_None. destruct (sections M), (stanzas P); done. Qed.

Lemma add_allow_loaded env os M P p : loaded env os M P ->
  loaded env os (match sections M with [] => Meaning (m_allow M ++ [p]) (m_deny M) []
    | l => Meaning (m_allow M) (m_deny M) (on_last (fun s => Section_ (s_word s) (s_rest s) (s_allow s ++ [p]) (s_deny s)) l) end) (add_allow p P).
Proof.
  intros HL. pose proof (loaded_nil _ _ _ _ HL) as Hn. unfold add_allow. destruct (sections M) as [|s0 l] eqn:El.
  - rewrite (proj1 Hn eq_refl). destruct HL as (Ha & Hd & _). split_and!; cbn; [by rewrite Ha|done|done|done].
  - destruct (last (stanzas P)) as [z|] eqn:Ez; [|by destruct Hn as [_ Hn]; specialize (Hn eq_refl)]. rewrite <- El.
    apply (loaded_last env os M P _ _ (more_allow p)); [done|by rewrite El|intros; apply rule_of_allow|done|done|].
    intros z' Hz. assert (z' = z) as -> by congruence. done.
Qed.

Lemma add_deny_loaded env os M P p : loaded env os M P ->
  loaded env os (match sections M with [] => Meaning (m_allow M) (m_deny M ++ [p]) []
    | l => Meaning (m_allow M) (m_deny M) (on_last (fun s => Section_ (s_word s) (s_rest s) (s_allow s) (s_deny s ++ [p])) l) end) (add_deny p P).
Proof.
  intros HL. pose proof (loaded_nil _ _ _ _ HL) as Hn. unfold add_deny. destruct (sections M) as [|s0 l] eqn:El.
  - rewrite (proj1 Hn eq_refl). destruct HL as (Ha & Hd & _). split_and!; cbn; [done|by rewrite Hd|done|done].
  - destruct (last (stanzas P)) as [z|] eqn:Ez; [|by destruct Hn as [_ Hn]; specialize (Hn eq_refl)]. rewrite <- El.
    apply (loaded_last env os M P _ _ (more_deny p)); [done|by rewrite El|intros; apply rule_of_deny|done|done|].
    intros z' Hz. assert (z' = z) as -> by congruence. done.
Qed.

(** A line takes nothing back. *)
Lemma meaning_line_before env os M line : all_set_up env os (meaning_line M line) -> all_set_up env os M.
Proof.
  unfold meaning_line. destruct (strtok line) as [[w|] rest]; [|done]. destruct (strcmp0 w keyword_allow).
  { destruct (fst (strtok rest)) as [p|]; [|done]. destruct (sections M) as [|s0 l] eqn:El; [by intros _ k s; rewrite El|]. rewrite <- El.
    apply on_last_sets_up. intros k s. rewrite rule_of_allow. apply fmap_is_Some. }
  destruct (strcmp0 w keyword_deny).
  { destruct (fst (strtok rest)) as [p|]; [|done]. destruct (sections M) as [|s0 l] eqn:El; [by intros _ k s; rewrite El|]. rewrite <- El.
    apply on_last_sets_up. intros k s. rewrite rule_of_deny. apply fmap_is_Some. }
  destruct (_ || _ || _); [done|]. intros H k s Hk. apply (H k). cbn [sections]. by apply lookup_app_l_Some.
Qed.

Lemma meaning_loaded env os ls : all_set_up env os (foldl meaning_line no_meaning ls) ->
  exists P, foldl (fun x line => policy_line env line x) (no_policy, os) ls = (P, drop (length (stanzas P)) os) /\
    loaded env os (foldl meaning_line no_meaning ls) P.
Proof.
  induction ls as [|line ls IH] using rev_ind; [by exists no_policy|]. rewrite !foldl_app. cbn [foldl]. set (M := foldl meaning_line no_meaning ls) in *.
  intros Hall. destruct (IH (meaning_line_before env os M line Hall)) as (P & -> & HL). revert Hall. unfold meaning_line, policy_line.
  destruct (strtok line) as [[w|] rest]; [|by exists P].
  destruct (strcmp0 w keyword_allow) eqn:E1.
  { destruct (fst (strtok rest)) as [p|]; [|by exists P]. intros _. exists (add_allow p P). split; [|by apply add_allow_loaded].
    f_equal. f_equal. unfold add_allow. destruct (last (stanzas P)) as [z|] eqn:El; [|by apply last_None in El as ->].
    cbn [stanzas]. by rewrite (take_snoc_insert _ z), length_insert. }
  destruct (strcmp0 w keyword_deny) eqn:E2.
  { destruct (fst (strtok rest)) as [p|]; [|by exists P]. intros _. exists (add_deny p P). split; [|by apply add_deny_loaded].
    f_equal. f_equal. unfold add_deny. destruct (last (stanzas P)) as [z|] eqn:El; [|by apply last_None in El as ->].
    cbn [stanzas]. by rewrite (take_snoc_insert _ z), length_insert. }
  destruct (_ || _ || _); [by exists P|]. intros Hall. destruct HL as (Ha & Hd & Hlen & Hk).
  destruct (Hall (length (sections M)) (Section_ w rest [] [])) as (z & Hz); [cbn [sections]; by rewrite list_lookup_middle|].
  pose proof Hz as Hz'. unfold rule_of in Hz. cbn [s_word s_rest s_allow s_deny] in Hz. destruct (parse_forward env w rest) as [r|]; [|done]. cbn in Hz.
  rewrite head_lookup, lookup_drop, Nat.add_0_r, Hlen. destruct (new_stanza env _ r) as [z0|] eqn:Ez; [|done]. injection Hz as <-.
  assert (Stanza (z_fd z0) (z_addr z0) (z_port z0) (z_from z0) (z_to z0) [] [] = z0) as Hz0.
  { revert Ez. unfold new_stanza. destruct r as [[[ba bp] ca] cp]. case_match; [|done]. case_match; [|done]. by intros [= <-]. }
  exists (Policy (p_allow P) (p_deny P) (stanzas P ++ [z0])). split.
  - f_equal. cbn [stanzas]. rewrite length_app, Hlen, <- drop_drop. cbn [length]. by destruct (drop _ os).
  - split_and!; cbn [p_allow p_deny m_allow m_deny stanzas sections]; [done|done|rewrite !length_app; cbn; lia|]. intros k s [Hs|[Hge Hs]]%lookup_app_Some.
    + rewrite lookup_app_l; [by apply Hk|]. rewrite Hlen. by eapply lookup_lt_Some.
    + destruct (k - length (sections M))%nat as [|n] eqn:En; [|by destruct n]. injection Hs as <-. assert (k = length (sections M)) as -> by lia.
      rewrite <- Hlen at 1. rewrite list_lookup_middle by done. by rewrite Hz', Hz0.
Qed.

(** The policy that is loaded from a file whose rules can all be set up. *)
Lemma policy_meaning env os file : all_set_up env os (meaning_of file) -> loaded env os (meaning_of file) (policy_of env file os).
Proof. intros H. unfold policy_of. destruct (meaning_loaded env os _ H) as (P & -> & HL). exact HL. Qed.

Lemma rule_of_target env os k s z : rule_of env os k s = Some z -> exists ba bp ca cp target,
  parse_forward env (s_word s) (s_rest s) = Some (ba, bp, ca, cp) /\ getAddress env ca = Some target /\
  z_addr z = target /\ z_port z = htons_port cp /\ z_allow z = s_allow s /\ z_deny z = s_deny s.
Proof.
  unfold rule_of. destruct (parse_forward env _ _) as [[[[ba bp] ca] cp]|]; [|done]. cbn [mbind option_bind].
  destruct (new_stanza env _ _) as [z0|] eqn:Ez; [|done]. cbn [mbind option_bind]. intros [= <-]. exists ba, bp, ca, cp.
  unfold new_stanza in Ez. case_match; [|done]. destruct (getAddress env ca) as [a|]; [|done]. injection Ez as <-. exists a. by split_and!.
Qed.

(** * The arrays hold the policy *)

(** [ps] is the part of the array at [start] with [total] elements. *)
Definition part_ok (l : list (list Z)) (start total : Z) (ps : list (list Z)) : Prop :=
  total = zlen ps /\ (ps <> [] -> 0 <= start /\ start + total <= zlen l /\ slice l start total = ps).

Definition at_end (l : list (list Z)) (start total : Z) : Prop := total <> 0 -> start + total = zlen l.

Lemma part_ok_nil l start : part_ok l start 0 [].
Proof. by split. Qed.

Lemma slice_app l p start total : 0 <= start -> 0 <= total -> start + total <= zlen l ->
  slice (l ++ [p]) start total = slice l start total.
Proof.
  intros H1 H2 H3. unfold slice, zlen in *. rewrite drop_app_le by lia.
  rewrite take_app_le; [done|]. rewrite length_drop. lia.
Qed.

Lemma part_ok_app l p start total ps : part_ok l start total ps -> part_ok (l ++ [p]) start total ps.
Proof.
  intros [Ht Hp]. split; [done|]. intros Hne. destruct (Hp Hne) as (H1 & H2 & H3).
  pose proof (zlen_nonneg ps). rewrite zlen_app, slice_app by lia. unfold zlen at 2. cbn. (split; [lia|]); (split; [lia|done]).
Qed.

Lemma part_ok_push l p start total ps : part_ok l start total ps -> at_end l start total ->
  let start := if total =? 0 then zlen l else start in
  part_ok (l ++ [p]) start (total + 1) (ps ++ [p]) /\ at_end (l ++ [p]) start (total + 1).
Proof.
  intros [Ht Hp] He. pose proof (zlen_nonneg ps). pose proof (zlen_nonneg l). cbv zeta.
  assert (zlen (l ++ [p]) = zlen l + 1 /\ zlen (ps ++ [p]) = zlen ps + 1) as [Hl Hps] by (by rewrite !zlen_app).
  assert ((if total =? 0 then zlen l else start) + total = zlen l /\ 0 <= (if total =? 0 then zlen l else start) /\
          slice l (if total =? 0 then zlen l else start) total = ps) as (H1 & H2 & H3).
  { case_if; zbool.
    - subst total. split; [lia|]. split; [lia|]. destruct ps; [by rewrite E|]. rewrite zlen_cons in E.
      pose proof (zlen_nonneg ps). lia.
    - destruct (Hp ltac:(intros ->; done)) as (H1 & H2 & H3). rewrite He by done. (split; [lia|]); (split; [lia|done]). }
  set (st := if total =? 0 then zlen l else start) in *. split; [|unfold at_end; lia].
  split; [lia|]. intros _. split; [lia|]. split; [lia|].
  unfold slice in *. unfold zlen in *. rewrite drop_app_le by lia.
  rewrite take_app_ge by (rewrite length_drop; lia). rewrite length_drop.
  replace (Z.to_nat (total + 1) - (length l - Z.to_nat st))%nat with 1%nat by lia. cbn. f_equal.
  rewrite <- H3, (take_ge (drop _ l)) by (rewrite length_drop; lia). done.
Qed.

(** A slot carries a stanza. *)
Record carries (al dl : list (list Z)) (s : server) (z : stanza) : Prop := {
  ca_ends : (seFds s, seLocalAddrs s, seLocalPorts s, (seFromHosts s, seFromPorts s), (seToHosts s, seToPorts s)) =
            (z_fd z, z_addr z, z_port z, z_from z, z_to z);
  ca_allow : part_ok al (seAllowRules s) (seAllowRulesTotal s) (z_allow z);
  ca_deny : part_ok dl (seDenyRules s) (seDenyRulesTotal s) (z_deny z) }.

Record refines (c : conf) (P : policy) : Prop := {
  rf_i : c_i c = length (stanzas P);
  rf_ga : r_global (c_allow c) = zlen (p_allow P) /\ (p_allow P `prefix_of` r_list (c_allow c)) /\
          (stanzas P = [] -> r_list (c_allow c) = p_allow P);
  rf_gd : r_global (c_deny c) = zlen (p_deny P) /\ (p_deny P `prefix_of` r_list (c_deny c)) /\
          (stanzas P = [] -> r_list (c_deny c) = p_deny P);
  rf_each : forall j z, stanzas P !! j = Some z -> exists s, c_servers c !! j = Some s /\
    carries (r_list (c_allow c)) (r_list (c_deny c)) s z;
  rf_last : forall s, c_servers c !! (c_i c - 1)%nat = Some s -> c_i c <> O ->
    at_end (r_list (c_allow c)) (seAllowRules s) (seAllowRulesTotal s) /\
    at_end (r_list (c_deny c)) (seDenyRules s) (seDenyRulesTotal s);
  rf_next : forall s, c_servers c !! c_i c = Some s -> seAllowRulesTotal s = 0 /\ seDenyRulesTotal s = 0 }.

(** What a line does to the sizes. *)
Definition keyword (line : list Z) : list Z := default [] (fst (strtok line)).
Definition is_allow (line : list Z) : bool := strcmp0 (keyword line) keyword_allow.
Definition is_deny (line : list Z) : bool := strcmp0 (keyword line) keyword_deny.
Definition is_forward (line : list Z) : bool :=
  negb (is_allow line) && negb (is_deny line) && negb (strcmp0 (keyword line) keyword_logfile) &&
  negb (strcmp0 (keyword line) keyword_pidlogfile) && negb (strcmp0 (keyword line) keyword_logcommon).

Definition room (c : conf) (al de : Z) (se : nat) : Prop :=
  zlen (r_list (c_allow c)) + al <= r_total (c_allow c) /\
  zlen (r_list (c_deny c)) + de <= r_total (c_deny c) /\ (c_i c + se <= length (c_servers c))%nat.

Lemma refines_same c c' P : refines c P -> c_servers c' = c_servers c -> c_i c' = c_i c ->
  c_allow c' = c_allow c -> c_deny c' = c_deny c -> refines c' P.
Proof. intros [] Hs Hi Ha Hd. constructor; rewrite ?Hs, ?Hi, ?Ha, ?Hd; done. Qed.

Lemma room_same c c' al de se : room c al de se -> c_servers c' = c_servers c -> c_i c' = c_i c ->
  c_allow c' = c_allow c -> c_deny c' = c_deny c -> room c' al de se.
Proof. intros H Hs Hi Ha Hd. unfold room in *. by rewrite Hs, Hi, Ha, Hd. Qed.

Lemma last_split {A} (l : list A) z : last l = Some z -> l = take (length l - 1) l ++ [z].
Proof.
  intros H. apply last_Some in H as [l' ->]. rewrite length_app. cbn.
  rewrite Nat.add_sub, take_app_length. done.
Qed.

Lemma carries_app_allow al dl s z p : carries al dl s z -> carries (al ++ [p]) dl s z.
Proof. intros []. constructor; try done. by apply part_ok_app. Qed.
Lemma carries_app_deny al dl s z p : carries al dl s z -> carries al (dl ++ [p]) s z.
Proof. intros []. constructor; try done. by apply part_ok_app. Qed.

Lemma strtok_some s t r : strtok s = (Some t, r) -> t <> [].
Proof.
  unfold strtok. destruct (skip_delim s) as [|c s'] eqn:E; [done|].
  assert (is_delim c = false) as Hc.
  { clear -E. induction s as [|d s IH]; [done|]. cbn in E. destruct (is_delim d) eqn:Ed; [by apply IH|].
    injection E as -> ->. done. }
  cbn. rewrite Hc. destruct (span_token s') as [t' r']. intros [= <- <-]. done.
Qed.

Lemma patternBad_token p : p <> [] -> (patternBad p =? 0) = true.
Proof. by destruct p. Qed.

Lemma stanzas_nil P c : refines c P -> c_i c = O -> stanzas P = [].
Proof. intros [Hi _ _ _ _ _] H. rewrite H in Hi. by destruct (stanzas P). Qed.

Lemma stanzas_last P c : refines c P -> c_i c <> O -> exists z s, last (stanzas P) = Some z /\
  stanzas P = take (length (stanzas P) - 1) (stanzas P) ++ [z] /\
  c_servers c !! (c_i c - 1)%nat = Some s /\ carries (r_list (c_allow c)) (r_list (c_deny c)) s z.
Proof.
  intros H Hne. destruct H as [Hi _ _ Heach _ _]. destruct (last (stanzas P)) as [z|] eqn:E.
  2:{ apply last_None in E. rewrite E in Hi. done. }
  exists z. pose proof (last_split _ _ E) as Hs. rewrite last_lookup in E.
  destruct (Heach _ _ E) as (s & Hl & Hc). exists s. rewrite Hi.
  replace (pred (length (stanzas P))) with (length (stanzas P) - 1)%nat in Hl by lia. done.
Qed.

(** Changing the last stanza and its slot. *)
Lemma each_last P z z' (ss : list server) i s' al dl al' dl' :
  stanzas P = take (length (stanzas P) - 1) (stanzas P) ++ [z] -> i = length (stanzas P) ->
  (i <= length ss)%nat ->
  (forall s z, carries al dl s z -> carries al' dl' s z) -> carries al' dl' s' z' ->
  (forall j z, stanzas P !! j = Some z -> exists s, ss !! j = Some s /\ carries al dl s z) ->
  forall j z, (take (length (stanzas P) - 1) (stanzas P) ++ [z']) !! j = Some z ->
    exists s, <[(i - 1)%nat := s']> ss !! j = Some s /\ carries al' dl' s z.
Proof.
  intros Hs Hi Hle Hmono Hz' Heach j y Hj.
  assert (length (stanzas P) <> 0)%nat as Hne by (rewrite Hs, length_app; cbn; lia).
  assert (length (take (length (stanzas P) - 1) (stanzas P)) = i - 1)%nat as Hlen by (rewrite length_take; lia).
  destruct (decide (j = i - 1)%nat) as [->|Hji].
  - rewrite lookup_app_r, Hlen, Nat.sub_diag in Hj by lia. injection Hj as <-.
    exists s'. split; [|done]. apply list_lookup_insert_eq. lia.
  - apply lookup_app_Some in Hj as [Hj|[Hge Hj]].
    + destruct (Heach j y) as (s & Hl & Hc).
      { rewrite Hs. by apply lookup_app_l_Some. }
      exists s. rewrite list_lookup_insert_ne by done. auto.
    + rewrite Hlen in *. destruct (j - (i - 1))%nat eqn:E; [lia|done].
Qed.

Lemma upd_server_ok f i c s : c_servers c !! i = Some s ->
  upd_server f i c = Ok (with_servers (<[i := f s]> (c_servers c)) c).
Proof. unfold upd_server. by intros ->. Qed.

Lemma prefix_snoc {A} (l k : list A) x : (l `prefix_of` k) -> l `prefix_of` (k ++ [x]).
Proof. intros H. etrans; [exact H|]. by exists [x]. Qed.

Lemma snoc_not_nil {A} (l : list A) x : l ++ [x] = [] -> False.
Proof. by destruct l. Qed.

Lemma push_rule_ok p g r : zlen (r_list r) + 1 <= r_total r ->
  push_rule p g r = Ok (Rules (r_list r ++ [p]) (r_total r) (if g then r_global r + 1 else r_global r)).
Proof. intros H. unfold push_rule. by rewrite (proj2 (Z.ltb_lt _ _)) by lia. Qed.

Lemma zlen_snoc {A} (l : list A) x : zlen (l ++ [x]) = zlen l + 1.
Proof. by rewrite zlen_app. Qed.

Lemma allow_line_ok rest lnum p c P al de se : fst (strtok rest) = Some p ->
  refines c P -> room c (al + 1) de se -> 0 <= al ->
  exists c', allow_line rest lnum c = Ok c' /\ refines c' (add_allow p P) /\ room c' al de se /\ osl c' = osl c.
Proof.
  intros Hp HR Hroom Hal. unfold allow_line. rewrite Hp.
  destruct (strtok rest) as [[p'|] r'] eqn:Et; [|done]. injection Hp as ->.
  rewrite (patternBad_token p) by (by eapply strtok_some). cbn [negb].
  destruct Hroom as (Ha & Hd & Hi). rewrite push_rule_ok by lia. cbn [mbind comp_bind c_i with_allow].
  pose proof HR as HR0. destruct HR as [Hci Hga Hgd Heach Hlast Hnext]. unfold add_allow.
  destruct (decide (c_i c = O)) as [Ei|Ei].
  - pose proof (stanzas_nil P c HR0 Ei) as Hnil. rewrite Ei, Hnil. cbn [Nat.eqb last]. eexists. split; [done|].
    destruct Hga as (Hg1 & Hg2 & Hg3). split; [|split; [|done]].
    + constructor; cbn; try done.
      * rewrite Hg3, Hg1, zlen_snoc by done. done.
      * destruct Hgd as (? & ? & Hg). split; [done|]. split; [done|]. intros _. by apply Hg.
    + unfold room. cbn. rewrite zlen_snoc, Ei. lia.
  - destruct (stanzas_last P c HR0 Ei) as (z & s & Hz & Hsplit & Hs & Hc). rewrite Hz.
    assert ((c_i c =? 0)%nat = false) as Hb by (by apply Nat.eqb_neq). rewrite Hb.
    rewrite (upd_server_ok _ _ _ s) by done.
    eexists. split; [done|]. destruct (Hlast s Hs Ei) as [Hea Hed]. pose proof Hc as [Hends Hpa Hpd].
    destruct (part_ok_push _ p _ _ _ Hpa Hea) as [Hpa' Hea']. split; [|split; [|done]].
    + constructor; cbn.
      * rewrite Hci, Hsplit at 1. rewrite !length_app, length_take. cbn. lia.
      * destruct Hga as (Hg1 & Hg2 & _). split; [done|].
        split; [by apply prefix_snoc|]. intros H. by apply snoc_not_nil in H.
      * destruct Hgd as (Hg1 & Hg2 & _). split; [done|]. split; [done|]. intros H. by apply snoc_not_nil in H.
      * apply (each_last P z _ _ _ _ (r_list (c_allow c)) (r_list (c_deny c))); [done|done|lia| |by constructor|done].
        intros. by apply carries_app_allow.
      * intros s'. rewrite list_lookup_insert_eq by lia. intros [= <-] _. done.
      * intros s'. rewrite list_lookup_insert_ne by lia. apply Hnext.
    + unfold room. cbn. rewrite zlen_snoc, length_insert. lia.
Qed.

Lemma deny_line_ok rest lnum p c P al de se : fst (strtok rest) = Some p ->
  refines c P -> room c al (de + 1) se -> 0 <= de ->
  exists c', deny_line rest lnum c = Ok c' /\ refines c' (add_deny p P) /\ room c' al de se /\ osl c' = osl c.
Proof.
  intros Hp HR Hroom Hal. unfold deny_line. rewrite Hp.
  destruct Hroom as (Ha & Hd & Hi). rewrite push_rule_ok by lia. cbn [mbind comp_bind c_i with_deny].
  pose proof HR as HR0. destruct HR as [Hci Hga Hgd Heach Hlast Hnext]. unfold add_deny.
  destruct (decide (c_i c = O)) as [Ei|Ei].
  - pose proof (stanzas_nil P c HR0 Ei) as Hnil. rewrite Ei, Hnil. cbn [Nat.eqb last]. eexists. split; [done|].
    destruct Hgd as (Hg1 & Hg2 & Hg3). split; [|split; [|done]].
    + constructor; cbn; try done.
      * destruct Hga as (? & ? & Hg). split; [done|]. split; [done|]. intros _. by apply Hg.
      * rewrite Hg3, Hg1, zlen_snoc by done. done.
    + unfold room. cbn. rewrite zlen_snoc, Ei. lia.
  - destruct (stanzas_last P c HR0 Ei) as (z & s & Hz & Hsplit & Hs & Hc). rewrite Hz.
    assert ((c_i c =? 0)%nat = false) as Hb by (by apply Nat.eqb_neq). rewrite Hb.
    rewrite (upd_server_ok _ _ _ s) by done.
    eexists. split; [done|]. destruct (Hlast s Hs Ei) as [Hea Hed]. pose proof Hc as [Hends Hpa Hpd].
    destruct (part_ok_push _ p _ _ _ Hpd Hed) as [Hpd' Hed']. split; [|split; [|done]].
    + constructor; cbn.
      * rewrite Hci, Hsplit at 1. rewrite !length_app, length_take. cbn. lia.
      * destruct Hga as (Hg1 & Hg2 & _). split; [done|]. split; [done|]. intros H. by apply snoc_not_nil in H.
      * destruct Hgd as (Hg1 & Hg2 & _). split; [done|]. split; [by apply prefix_snoc|]. intros H. by apply snoc_not_nil in H.
      * apply (each_last P z _ _ _ _ (r_list (c_allow c)) (r_list (c_deny c))); [done|done|lia| |by constructor|done].
        intros. by apply carries_app_deny.
      * intros s'. rewrite list_lookup_insert_eq by lia. intros [= <-] _. done.
      * intros s'. rewrite list_lookup_insert_ne by lia. apply Hnext.
    + unfold room. cbn. rewrite zlen_snoc, length_insert. lia.
Qed.

(** The slot behind the last stanza may change freely but for its totals. *)
Lemma refines_slot c P s s' : refines c P -> c_servers c !! c_i c = Some s ->
  seAllowRulesTotal s' = seAllowRulesTotal s -> seDenyRulesTotal s' = seDenyRulesTotal s ->
  refines (with_servers (<[c_i c := s']> (c_servers c)) c) P.
Proof.
  intros [Hi Hga Hgd Heach Hlast Hnext] Hs Ha Hd. constructor; cbn; try done.
  - intros j z Hj. destruct (Heach j z Hj) as (t & Ht & Hc). exists t. split; [|done].
    rewrite list_lookup_insert_ne; [done|]. apply lookup_lt_Some in Hj. lia.
  - intros t Ht Hne. apply Hlast; [|done]. rewrite list_lookup_insert_ne in Ht by lia. done.
  - intros t. rewrite list_lookup_insert_eq by (by eapply lookup_lt_Some). intros [= <-]. rewrite Ha, Hd. by apply Hnext.
Qed.

(** A slot that has been filled in becomes the last stanza. *)
Lemma refines_new c c' P s z : refines c P -> c_servers c !! c_i c = Some s ->
  (seFds s, seLocalAddrs s, seLocalPorts s, (seFromHosts s, seFromPorts s), (seToHosts s, seToPorts s)) =
  (z_fd z, z_addr z, z_port z, z_from z, z_to z) -> z_allow z = [] -> z_deny z = [] ->
  c_i c' = S (c_i c) -> c_allow c' = c_allow c -> c_deny c' = c_deny c ->
  (forall j, (j < S (c_i c))%nat -> c_servers c' !! j = c_servers c !! j) ->
  (forall s, c_servers c' !! S (c_i c) = Some s -> seAllowRulesTotal s = 0 /\ seDenyRulesTotal s = 0) ->
  refines c' (Policy (p_allow P) (p_deny P) (stanzas P ++ [z])).
Proof.
  intros [Hi Hga Hgd Heach Hlast Hnext] Hs Hends Hza Hzd Hi' Ha' Hd' Hsame Hnew.
  destruct (Hnext s Hs) as [Hta Htd]. constructor; cbn; rewrite ?Hi', ?Ha', ?Hd'.
  - rewrite length_app. cbn. lia.
  - destruct Hga as (? & ? & _). split_and!; try done. intros Hn. by apply snoc_not_nil in Hn.
  - destruct Hgd as (? & ? & _). split_and!; try done. intros Hn. by apply snoc_not_nil in Hn.
  - intros j y Hj. apply lookup_app_Some in Hj as [Hj|[Hge Hj]].
    + apply lookup_lt_Some in Hj as Hlt. rewrite Hsame by lia. by apply Heach.
    + destruct (j - length (stanzas P))%nat eqn:E; [|done]. injection Hj as <-.
      assert (j = c_i c) as -> by lia. exists s. rewrite Hsame by lia. split; [done|].
      constructor; [done| |]; rewrite ?Hza, ?Hzd, ?Hta, ?Htd; apply part_ok_nil.
  - intros t Ht _. rewrite Hsame in Ht by lia. replace (S (c_i c) - 1)%nat with (c_i c) in Ht by lia.
    rewrite Hs in Ht. injection Ht as <-. unfold at_end. rewrite Hta, Htd. done.
  - apply Hnew.
Qed.

Lemma room_mono c al de se : room c al de (S se) -> room c al de se.
Proof. unfold room. lia. Qed.

Lemma room_slot c al de se : room c al de (S se) -> exists s, c_servers c !! c_i c = Some s.
Proof. intros (_ & _ & H). apply lookup_lt_is_Some_2. lia. Qed.

(** Storing into the slot of the rule at hand. *)
Lemma set_slot_ok f c P al de se : refines c P -> room c al de (S se) ->
  (forall s, seAllowRulesTotal (f s) = seAllowRulesTotal s /\ seDenyRulesTotal (f s) = seDenyRulesTotal s) ->
  exists s c', c_servers c !! c_i c = Some s /\ upd_server f (c_i c) c = Ok c' /\
    c' = with_servers (<[c_i c := f s]> (c_servers c)) c /\ refines c' P /\ room c' al de (S se).
Proof.
  intros HR Hroom Hf. destruct (room_slot _ _ _ _ Hroom) as [s Hs]. destruct (Hf s) as [Ha Hd].
  exists s. eexists. split; [done|]. split; [by apply upd_server_ok|]. split; [done|].
  split; [by apply (refines_slot c P s)|]. unfold room in *. cbn. by rewrite length_insert.
Qed.

Lemma drop_socket_ok fd d c P al de se : refines c P -> room c al de (S se) ->
  exists c', drop_socket fd d c = Ok c' /\ refines c' P /\ room c' al de se /\ osl c' = osl c.
Proof.
  intros HR Hroom. unfold drop_socket.
  destruct (set_slot_ok (set_fd (-1)) c P al de se HR Hroom ltac:(done)) as (s & c' & _ & -> & Hc & HR' & Hroom').
  cbn [mbind comp_bind]. eexists. split; [done|]. split; [by apply (refines_same c')|].
  split; [apply room_mono, (room_same c'); done|]. by rewrite Hc.
Qed.

Lemma open_rule_ok env ba bp ca cp ia lnum c P al de se : refines c P -> room c al de (S se) ->
  exists c', open_rule env ba bp ca cp ia lnum c = Ok c' /\ room c' al de se /\ osl c' = tail (osl c) /\
    refines c' (match new_stanza env (default (ListenOs (-1) false false) (head (osl c))) (ba, bp, ca, cp) with
                | Some z => Policy (p_allow P) (p_deny P) (stanzas P ++ [z])
                | None => P
                end).
Proof.
  intros HR Hroom. unfold open_rule, new_stanza. set (os := default _ _). cbv zeta.
  set (c0 := with_sys _ (tail (osl c)) _ c).
  assert (refines c0 P) as HR0 by (by apply (refines_same c)).
  assert (room c0 al de (S se)) as Hroom0 by (by apply (room_same c)).
  destruct (l_socket os =? -1) eqn:Efd; cbn [negb andb].
  { destruct (set_slot_ok (set_fd (-1)) c0 P al de se HR0 Hroom0 ltac:(done)) as (s & c1 & _ & -> & Hc & HR1 & Hroom1).
    cbn [mbind comp_bind]. eexists. split; [done|]. split; [apply room_mono, (room_same c1); done|].
    split; [by rewrite Hc|]. by apply (refines_same c1). }
  destruct (set_slot_ok (set_fd (l_socket os)) c0 P al de se HR0 Hroom0 ltac:(done)) as (s & c1 & Hs & -> & Hc & HR1 & Hroom1).
  cbn [mbind comp_bind]. set (c2 := with_sys _ _ (calls c1 ++ [CBind _ _ _]) c1).
  assert (refines c2 P) as HR2 by (by apply (refines_same c1)).
  assert (room c2 al de (S se)) as Hroom2 by (by apply (room_same c1)).
  assert (osl c2 = tail (osl c)) as Hosl by (unfold c2; by rewrite Hc).
  destruct (l_bind os); cbn [negb andb].
  2:{ destruct (drop_socket_ok (l_socket os) (NoBind ba bp) c2 P al de se HR2 Hroom2) as (c3 & -> & ? & ? & Ho).
      exists c3. rewrite Ho. done. }
  set (c3 := with_sys _ _ _ c2).
  assert (refines c3 P) as HR3 by (by apply (refines_same c2)).
  assert (room c3 al de (S se)) as Hroom3 by (by apply (room_same c2)).
  destruct (l_listen os); cbn [negb].
  2:{ destruct (drop_socket_ok (l_socket os) (NoListen ba bp) c3 P al de se HR3 Hroom3) as (c4 & -> & ? & ? & Ho).
      exists c4. rewrite Ho. done. }
  destruct (getAddress env ca) as [a|].
  2:{ destruct (drop_socket_ok (l_socket os) (Unresolved ba lnum) c3 P al de se HR3 Hroom3) as (c4 & -> & ? & ? & Ho).
      exists c4. rewrite Ho. done. }
  destruct (set_slot_ok (set_ends a (htons_port cp) ba bp ca cp) c3 P al de se HR3 Hroom3 ltac:(done))
    as (s3 & c4 & Hs3 & -> & Hc4 & HR4 & Hroom4). cbn [mbind comp_bind].
  assert (seFds s3 = l_socket os) as Hfd.
  { assert (c_servers c3 = <[c_i c3 := set_fd (l_socket os) s]> (c_servers c0)) as Hss by (unfold c3, c2; by rewrite Hc).
    rewrite Hss, list_lookup_insert_eq in Hs3; [by injection Hs3 as <-|].
    apply lookup_lt_Some in Hs. unfold c3, c2. by rewrite Hc. }
  assert (osl c4 = tail (osl c)) as Hosl4 by (rewrite Hc4; exact Hosl).
  assert (c_servers c4 !! c_i c4 = Some (set_ends a (htons_port cp) ba bp ca cp s3)) as Hs4.
  { rewrite Hc4. cbn. apply list_lookup_insert_eq. by eapply lookup_lt_Some. }
  set (z := Stanza _ _ _ _ _ [] []).
  change (c_i (with_i (S (c_i c4)) c4)) with (S (c_i c4)).
  change (c_servers (with_i (S (c_i c4)) c4)) with (c_servers c4).
  destruct Hroom4 as (Hra & Hrd & Hri). case_if.
  - apply Nat.ltb_lt in E. destruct (lookup_lt_is_Some_2 _ _ E) as [t Ht].
    rewrite (upd_server_ok _ _ _ t) by done. eexists. split; [done|]. split; [|split; [done|]].
    + unfold room. cbn. rewrite length_insert. lia.
    + apply (refines_new c4 _ P _ z HR4 Hs4); try done; cbn.
      * by rewrite Hfd.
      * intros j Hj. by rewrite list_lookup_insert_ne by lia.
      * intros u. rewrite list_lookup_insert_eq by done. intros [= <-]. done.
  - apply Nat.ltb_ge in E. eexists. split; [done|]. split; [|split; [done|]].
    + unfold room. cbn. lia.
    + apply (refines_new c4 _ P _ z HR4 Hs4); try done; cbn.
      * by rewrite Hfd.
      * intros u Hu%lookup_lt_Some. lia.
Qed.

(** The ports fit in 16 bits, so the upper bound is never tested. *)
Lemma port_of_bound env s : (65536 <=? port_of env s) = false.
Proof.
  apply Z.leb_gt. unfold port_of, u16. destruct (getservbyname env s); apply Z.mod_pos_bound; lia.
Qed.

Lemma forward_line_ok env w rest lnum c P al de se : refines c P -> room c al de (S se) ->
  exists c', forward_line env w rest lnum c = Ok c' /\ room c' al de se /\
    match parse_forward env w rest with
    | None => refines c' P /\ osl c' = osl c
    | Some r =>
        refines c' (match new_stanza env (default (ListenOs (-1) false false) (head (osl c))) r with
                    | Some z => Policy (p_allow P) (p_deny P) (stanzas P ++ [z])
                    | None => P
                    end) /\ osl c' = tail (osl c)
    end.
Proof.
  intros HR Hroom. unfold forward_line, parse_forward.
  assert (forall d, refines (say d c) P /\ osl (say d c) = osl c) as Hsay
    by (intros d; split; [by apply (refines_same c)|done]).
  assert (forall d, room (say d c) al de se) as Hroomd by (intros d; apply room_mono in Hroom; by apply (room_same c)).
  destruct (strtok rest) as [[bp|] r1]; [|eauto]. cbv zeta. rewrite port_of_bound, orb_false_r.
  destruct (strtok r1) as [[ca|] r2].
  2:{ case_if; eauto. }
  destruct (strtok r2) as [[cp|] r3].
  2:{ case_if; eauto. }
  rewrite port_of_bound, orb_false_r.
  destruct (port_of env bp =? 0); cbn [orb]; [eauto|]. destruct (port_of env cp =? 0); [eauto|].
  destruct (getAddress env w) as [ia|]; [|eauto].
  destruct (open_rule_ok env w (port_of env bp) ca (port_of env cp) ia lnum c P al de se HR Hroom)
    as (c' & -> & ? & ? & ?). eauto.
Qed.

Definition b2z (b : bool) : Z := if b then 1 else 0.

Lemma conf_line_ok env line lnum c P al de se : refines c P ->
  room c (al + b2z (is_allow line)) (de + b2z (is_deny line)) (se + Nat.b2n (is_forward line)) ->
  0 <= al -> 0 <= de ->
  exists c', conf_line env line lnum c = Ok c' /\ room c' al de se /\
    refines c' (fst (policy_line env line (P, osl c))) /\ osl c' = snd (policy_line env line (P, osl c)).
Proof.
  intros HR Hroom Hal Hde. unfold conf_line, policy_line, is_forward, is_allow, is_deny, keyword in *.
  destruct (strtok line) as [[w|] rest]; cbn [fst default from_option id] in *.
  2:{ eexists. split; [done|]. split; [unfold room in *; cbn in *; lia|]. split; [by apply (refines_same c)|done]. }
  destruct (strcmp0 w keyword_allow) eqn:Ea; cbn [negb andb b2z Nat.b2n] in Hroom.
  { assert (strcmp0 w keyword_deny = false) as Ed.
    { unfold strcmp0 in *. apply str_eqb_eq in Ea. subst w. by vm_compute. }
    rewrite Ed, Z.add_0_r, Nat.add_0_r in Hroom.
    destruct (fst (strtok rest)) as [p|] eqn:Ep; cbn [fst snd].
    - destruct (allow_line_ok rest lnum p c P al de se Ep HR Hroom Hal) as (c' & -> & ? & ? & ?). eauto.
    - unfold allow_line. rewrite Ep. eexists. split; [done|].
      split; [unfold room in *; cbn in *; lia|]. split; [by apply (refines_same c)|done]. }
  destruct (strcmp0 w keyword_deny) eqn:Ed; cbn [negb andb b2z Nat.b2n] in Hroom; rewrite Z.add_0_r in Hroom.
  { rewrite Nat.add_0_r in Hroom.
    destruct (fst (strtok rest)) as [p|] eqn:Ep; cbn [fst snd].
    - destruct (deny_line_ok rest lnum p c P al de se Ep HR Hroom Hde) as (c' & -> & ? & ? & ?). eauto.
    - unfold deny_line. rewrite Ep. eexists. split; [done|].
      split; [unfold room in *; cbn in *; lia|]. split; [by apply (refines_same c)|done]. }
  rewrite Z.add_0_r in Hroom.
  destruct (strcmp0 w keyword_logfile); cbn [negb andb orb Nat.b2n fst snd] in *.
  { destruct (fst (strtok rest)); eexists; (split; [done|]); (split; [unfold room in *; cbn in *; lia|]);
      (split; [by apply (refines_same c)|done]). }
  destruct (strcmp0 w keyword_pidlogfile); cbn [negb andb orb Nat.b2n fst snd] in *.
  { destruct (fst (strtok rest)); eexists; (split; [done|]); (split; [unfold room in *; cbn in *; lia|]);
      (split; [by apply (refines_same c)|done]). }
  destruct (strcmp0 w keyword_logcommon); cbn [negb andb orb Nat.b2n fst snd] in *.
  { eexists; (split; [done|]); (split; [unfold room in *; cbn in *; lia|]); (split; [by apply (refines_same c)|done]). }
  rewrite Nat.add_1_r in Hroom.
  destruct (forward_line_ok env w rest lnum c P al de se HR Hroom) as (c' & -> & Hr & Hf).
  exists c'. split; [done|]. split; [done|]. by destruct (parse_forward env w rest).
Qed.

(** ** The loops over the lines *)

Definition sig_lines (file : list (list Z)) : list (list Z) := filter (fun l => Is_true (significant l)) file.

Lemma getConfLine_sig file n :
  match getConfLine file n with
  | None => sig_lines file = []
  | Some (line, file', _) =>
      sig_lines file = line :: sig_lines file' /\ significant line = true /\ (length file' < length file)%nat
  end.
Proof.
  revert n. induction file as [|line file IH]; intros n; [done|]. cbn [getConfLine].
  assert (forall b, significant line = b ->
    sig_lines (line :: file) = if b then line :: sig_lines file else sig_lines file) as Hf.
  { intros b Hb. unfold sig_lines. rewrite filter_cons. rewrite Hb. by destruct b. }
  unfold significant in Hf. unfold significant.
  destruct (skip_space line) as [|c s] eqn:E.
  - rewrite (Hf false) by done. specialize (IH n). destruct (getConfLine file n) as [[[? ?] ?]|]; [|done].
    destruct IH as (? & ? & ?). split_and!; try done. cbn. lia.
  - destruct (c =? 35) eqn:Ec; cbn [negb] in Hf.
    + rewrite (Hf false) by done. specialize (IH n). destruct (getConfLine file n) as [[[? ?] ?]|]; [|done].
      destruct IH as (? & ? & ?). split_and!; try done. cbn. lia.
    + rewrite (Hf true) by done. rewrite E, Ec. split_and!; try done. cbn. lia.
Qed.

Fixpoint cnt (k : list Z -> bool) (ls : list (list Z)) : nat :=
  match ls with [] => O | l :: ls' => (Nat.b2n (k l) + cnt k ls')%nat end.

Lemma skip_delim_space s : skip_delim s = [] -> skip_space s = [].
Proof.
  induction s as [|c s IH]; [done|]. cbn. unfold is_delim. intros H.
  destruct ((c =? 32) || (c =? 9) || (c =? 13) || (c =? 10)) eqn:E; [|done].
  assert (isspace c = true) as ->; [|by apply IH].
  repeat (apply orb_prop in E as [E|E]); apply Z.eqb_eq in E; by subst.
Qed.

Lemma significant_token line : significant line = true -> is_Some (fst (strtok line)).
Proof.
  unfold significant, strtok. intros H. destruct (skip_delim line) as [|c s] eqn:E.
  - by rewrite (skip_delim_space _ E) in H.
  - destruct (span_token (c :: s)). eauto.
Qed.

Lemma keywords_apart w k k' : k <> k' -> strcmp0 w k = true -> strcmp0 w k' = false.
Proof.
  unfold strcmp0. intros Hne Hk%str_eqb_eq. subst w. destruct (str_eqb k k') eqn:E; [|done].
  by apply str_eqb_eq in E.
Qed.

(** Equality of the three counters. *)
Ltac counts := cbn [negb andb Nat.b2n]; f_equal; repeat apply (f_equal2 pair); lia.

Lemma count_lines_ok fuel file n al de se : (length file < fuel)%nat ->
  count_lines fuel file n al de se =
    Ok (al + Z.of_nat (cnt is_allow (sig_lines file)), de + Z.of_nat (cnt is_deny (sig_lines file)),
        se + Z.of_nat (cnt is_forward (sig_lines file))).
Proof.
  revert file n al de se. induction fuel as [|fuel IH]; intros file n al de se Hf; [lia|].
  cbn [count_lines]. pose proof (getConfLine_sig file n) as Hsig.
  destruct (getConfLine file n) as [[[line file'] n']|].
  2:{ rewrite Hsig. cbn. by rewrite !Z.add_0_r. }
  destruct Hsig as (-> & Hs & Hl). destruct (significant_token line Hs) as [t Ht]. rewrite Ht.
  cbn [of_option mbind comp_bind cnt].
  assert (keyword line = t) as Hk by (unfold keyword; by rewrite Ht).
  unfold is_forward at 1. unfold is_allow at 1 3, is_deny at 1 3. rewrite Hk.
  assert (forall k k', k <> k' -> strcmp0 t k = true -> strcmp0 t k' = false) as Hap by (intros; by eapply keywords_apart).
  destruct (strcmp0 t keyword_logfile) eqn:E1;
    [rewrite (Hap keyword_logfile keyword_allow), (Hap keyword_logfile keyword_deny) by (done || by_decide);
     rewrite IH by lia; counts|].
  destruct (strcmp0 t keyword_pidlogfile) eqn:E2;
    [rewrite (Hap keyword_pidlogfile keyword_allow), (Hap keyword_pidlogfile keyword_deny) by (done || by_decide);
     rewrite IH by lia; counts|].
  destruct (strcmp0 t keyword_logcommon) eqn:E3;
    [rewrite (Hap keyword_logcommon keyword_allow), (Hap keyword_logcommon keyword_deny) by (done || by_decide);
     rewrite IH by lia; counts|].
  destruct (strcmp0 t keyword_allow) eqn:E4;
    [rewrite (Hap keyword_allow keyword_deny) by (done || by_decide); rewrite IH by lia; counts|].
  destruct (strcmp0 t keyword_deny) eqn:E5; rewrite IH by lia; counts.
Qed.

Lemma conf_lines_ok env fuel file n c P : (length file < fuel)%nat -> refines c P ->
  room c (Z.of_nat (cnt is_allow (sig_lines file))) (Z.of_nat (cnt is_deny (sig_lines file)))
    (cnt is_forward (sig_lines file)) ->
  exists c', conf_lines env fuel file n c = Ok c' /\
    refines c' (fst (foldl (fun x line => policy_line env line x) (P, osl c) (sig_lines file))).
Proof.
  revert file n c P. induction fuel as [|fuel IH]; intros file n c P Hf HR Hroom; [lia|].
  cbn [conf_lines]. pose proof (getConfLine_sig file n) as Hsig.
  destruct (getConfLine file n) as [[[line file'] n']|].
  2:{ rewrite Hsig. exists c. by split. }
  destruct Hsig as (Hsig & Hs & Hl). rewrite Hsig in *. cbn [cnt foldl] in *.
  destruct (conf_line_ok env line n' c P (Z.of_nat (cnt is_allow (sig_lines file')))
    (Z.of_nat (cnt is_deny (sig_lines file'))) (cnt is_forward (sig_lines file')) HR) as (c' & -> & Hroom' & HR' & Hosl);
    [|lia|lia|].
  { unfold b2z. unfold room in *. destruct (is_allow line), (is_deny line), (is_forward line); cbn in *; lia. }
  cbn [mbind comp_bind]. destruct (IH file' n' c' _ ltac:(lia) HR' Hroom') as (c'' & -> & HR'').
  exists c''. split; [done|]. rewrite Hosl in HR''. by rewrite <- surjective_pairing in HR''.
Qed.

Lemma readConfiguration_ok env junk os content common mx prev : (forall c, prev = Some c -> complete c) ->
  exists c, readConfiguration env junk os (Some content) (Some content) common mx prev = Ok (Some c) /\
    refines c (policy_of env (file_lines line_space content) os).
Proof.
  intros Hprev. unfold readConfiguration. destruct (forget_previous_ok prev Hprev) as (cl & ->). cbn [mbind comp_bind]. cbv zeta.
  set (ls := file_lines line_space content).
  rewrite count_lines_ok by lia. cbn [mbind comp_bind]. rewrite !Z.add_0_l.
  set (al := Z.of_nat (cnt is_allow _)). set (de := Z.of_nat (cnt is_deny _)). set (n := cnt is_forward _).
  rewrite Nat2Z.id. set (c0 := Conf _ 0 _ _ _ _ _ _ _ _ _).
  assert (exists c1, (if 0 <? Z.of_nat n then upd_server (set_totals 0 0) 0 c0 else mret c0) = Ok c1 /\
            refines c1 no_policy /\ room c1 al de n /\ osl c1 = os) as (c1 & -> & HR & Hroom & Hosl).
  { assert (forall c1, c_allow c1 = c_allow c0 -> c_deny c1 = c_deny c0 -> c_i c1 = O ->
              (forall s, c_servers c1 !! O = Some s -> seAllowRulesTotal s = 0 /\ seDenyRulesTotal s = 0) ->
              refines c1 no_policy) as Hinit.
    { intros c1 Ha Hd Hi Hn. constructor; rewrite ?Ha, ?Hd, ?Hi; try done; cbn; by split_and!. }
    destruct n as [|n].
    - exists c0. split; [done|]. split; [by apply Hinit|]. split; [|done]. unfold room, zlen. cbn. lia.
    - exists (with_servers (set_totals 0 0 junk :: replicate n junk) c0). split; [done|].
      split; [apply Hinit; try done; by intros s [= <-]|]. split; [|done].
      unfold room, zlen. cbn. rewrite length_replicate. lia. }
  cbn [mbind comp_bind].
  destruct (conf_lines_ok env (S (length ls)) ls 0 c1 no_policy ltac:(lia) HR Hroom) as (c' & -> & HR').
  exists c'. split; [done|]. by rewrite Hosl in HR'.
Qed.

(** What the rest of the program reads from the arrays. *)
Lemma part_slice l start total ps : part_ok l start total ps -> slice l start total = ps.
Proof.
  intros [Ht Hp]. destruct ps as [|p ps]; [by subst total|]. by destruct (Hp ltac:(done)) as (_ & _ & ?).
Qed.

Lemma part_searchable l start total ps : part_ok l start total ps -> Forall rule_ok ps -> searchable l start total.
Proof.
  intros Hok Hr. split; [|by rewrite (part_slice _ _ _ _ Hok)]. destruct Hok as [Ht Hp].
  pose proof (zlen_nonneg ps). split; [lia|]. intros Hpos.
  destruct Hp as (? & ? & _); [intros ->; subst; done|]. done.
Qed.

Lemma global_part l ps : (ps `prefix_of` l) -> part_ok l 0 (zlen ps) ps.
Proof.
  intros [k ->]. split; [done|]. intros _. split; [lia|]. rewrite zlen_app. pose proof (zlen_nonneg k).
  split; [lia|]. unfold slice, zlen. rewrite Nat2Z.id. apply take_app_length.
Qed.

(** The manual on access: an address must satisfy one of the allow rules above
    the first forwarding rule, if there are any, and one of those below the
    forwarding rule, if there are any, and none of the deny rules at either
    place. *)
Definition admits (M : meaning) (s : section) (addr : in_addr) : Prop :=
  (allowed (inet_ntoa addr) (m_allow M) /\ allowed (inet_ntoa addr) (s_allow s)) /\
  ~ (Exists (hits (inet_ntoa addr)) (m_deny M) \/ Exists (hits (inet_ntoa addr)) (s_deny s)).

(** ** The offset from UTC *)

(** Minute [t] of a year, and minute [t] counted from the start of a year of
    [cur] days that follows one of [prev] days. *)
Definition tm_of (t : Z) : tm := Tm (t / 1440) ((t `mod` 1440) / 60) (t `mod` 60).
Definition local_tm (prev cur t : Z) : tm :=
  if t <? 0 then tm_of (t + 1440 * prev) else if 1440 * cur <=? t then tm_of (t - 1440 * cur) else tm_of t.

Lemma tm_minutes t : tm_hour (tm_of t) * 60 + tm_min (tm_of t) = t - 1440 * tm_yday (tm_of t).
Proof. cbn. Z.div_mod_to_equations. lia. Qed.

(** * A demonstration *)

Definition lines (ls : list string) : list Z := concat ((fun l => lit l ++ [10]) <$> ls).

Definition demo_file : list Z :=
  lines ["allow 10.*"; "# a comment"; ""; "0.0.0.0 8080 127.0.0.1 80"; "deny 10.0.0.*"]%string.
Definition demo_env : conf_env := Env (fun _ => None) (fun _ => None).
Definition demo_listen : list listen_os := [ListenOs 3 true true; ListenOs 4 true true].
Definition demo_old : rstate := RS [blank] [] [] [] 0 0 2.
Definition demo_stanza : stanza :=
  Stanza 3 (127, 0, 0, 1) 20480 (lit "0.0.0.0", 8080) (lit "127.0.0.1", 80) [] [lit "10.0.0.*"].

Example demo_policy :
  policy_of demo_env (file_lines line_space demo_file) demo_listen = Policy [lit "10.*"] [] [demo_stanza].
Proof. vm_compute. reflexivity. Qed.

(** A forwarding rule that cannot be set up leaves the patterns behind it to
    the rule in front of it. *)
Example patterns_change_rule :
  policy_of demo_env (file_lines line_space
      (lines ["0.0.0.0 8080 127.0.0.1 80"; "0.0.0.0 22 nohost 22"; "allow 10.*"]%string)) demo_listen =
  Policy [] [] [Stanza 3 (127, 0, 0, 1) 20480 (lit "0.0.0.0", 8080) (lit "127.0.0.1", 80) [lit "10.*"] []].
Proof. vm_compute. reflexivity. Qed.

(** A file that grows between the passes overruns the arrays. *)
Example growing_file_overruns :
  readConfiguration demo_env demo_server demo_listen (Some []) (Some (lines ["allow 10.*"]%string)) 0 2 None =
  Fault WriteOOB.
Proof. vm_compute. reflexivity. Qed.

(** The configuration is read again: a file whose lines could all be used is
    no problem; a rule that was skipped has left pointers that were never set
    (the allocated slots are taken to hold the descriptor 9), and so has an
    allow line without a pattern. *)
Definition read_twice (file : list Z) : comp (option conf) :=
  c ← readConfiguration demo_env (set_fd 9 demo_server) demo_listen (Some file) (Some file) 0 2 None;
  readConfiguration demo_env (set_fd 9 demo_server) demo_listen (Some file) (Some file) 0 4 c.
Example second_reading :
  match read_twice demo_file with Ok (Some c) => calls c = [CClose 3; CBind 3 (0, 0, 0, 0) 8080; CListen 3] | _ => False end /\
  read_twice (lines ["0.0.0.0 8080 127.0.0.1"]%string) = Fault BadFree /\
  read_twice (lines ["allow"]%string) = Fault BadFree.
Proof. vm_compute. repeat split. Qed.

(** A numeric text that is no address stands for the broadcast address, and
    no pattern is refused. *)
Example bad_address_accepted :
  getAddress demo_env (lit "1.2.3.4.5") = Some (255, 255, 255, 255) /\ patternBad (lit "evil|*") = 0.
Proof. vm_compute. split; reflexivity. Qed.

(** * Properties *)

(** Reading a configuration file that stays the same between the two
    passes never leaves the arrays the first pass sized, and the arrays hold
    what is loaded from the file: the global patterns, and for each
    forwarding rule that could be set up, in order, its ends and exactly the
    patterns on the lines behind it. *)
Theorem configuration_holds_policy env junk os content common old prev : (forall c, prev = Some c -> complete c) ->
  let P := policy_of env (file_lines line_space content) os in
  exists c, readConfiguration env junk os (Some content) (Some content) common (maxfd old) prev = Ok (Some c) /\
    let st := configured c old in
    slice (allowRules st) 0 (globalAllowRules st) = p_allow P /\
    slice (denyRules st) 0 (globalDenyRules st) = p_deny P /\
    forall j z, stanzas P !! j = Some z -> exists s, servers st !! j = Some s /\
      (seFds s, seLocalAddrs s, seLocalPorts s, (seFromHosts s, seFromPorts s), (seToHosts s, seToPorts s)) =
      (z_fd z, z_addr z, z_port z, z_from z, z_to z) /\
      slice (allowRules st) (seAllowRules s) (seAllowRulesTotal s) = z_allow z /\
      slice (denyRules st) (seDenyRules s) (seDenyRulesTotal s) = z_deny z.
Proof.
  intros Hprev P. destruct (readConfiguration_ok env junk os content common (maxfd old) prev Hprev) as (c & Hc & HR).
  fold P in HR. exists c. split; [exact Hc|]. destruct HR as [_ (Hga & Hpa & _) (Hgd & Hpd & _) Heach _ _].
  cbn. rewrite Hga, Hgd. split; [by apply part_slice, global_part|]. split; [by apply part_slice, global_part|].
  intros j z Hj. destruct (Heach j z Hj) as (s & Hs & [Hends Ha Hd]). exists s.
  split; [done|]. split; [done|]. split; by apply part_slice.
Qed.


Lemma demo_pattern_ok : Forall rule_ok ([lit "10.*"] ++ [] ++ [] ++ [lit "10.0.0.*"]).
Proof.
  repeat constructor.
  - by apply (demo_rule_ok "10.*" (lit "10.") [[]]).
  - by apply (demo_rule_ok "10.0.0.*" (lit "10.0.0.") [[]]).
Qed.

Example demo_meaning : meaning_of (file_lines line_space demo_file) =
  Meaning [lit "10.*"] [] [Section_ (lit "0.0.0.0") (lit "8080 127.0.0.1 80" ++ [10]) [] [lit "10.0.0.*"]].
Proof. vm_compute. reflexivity. Qed.


(** The offset that the log prints is the offset between local time and
    UTC, across midnight and the turn of the year as well. *)
Theorem gmtoff_correct prev cur t off : 3 <= prev -> 3 <= cur -> 0 <= t < 1440 * cur -> -1440 < off < 1440 ->
  get_gmtoff (tm_of t) (local_tm prev cur (t + off)) = off.
Proof.
  intros Hp Hc Ht Ho. unfold get_gmtoff. set (l := local_tm prev cur (t + off)).
  pose proof (tm_minutes t) as Hg.
  assert (exists d, tm_hour l * 60 + tm_min l = t + off + 1440 * d - 1440 * tm_yday l /\
    (d = 0 /\ tm_yday l = (t + off) / 1440 \/ d = prev /\ t + off < 0 /\ tm_yday l = prev - 1 \/
     d = - cur /\ 1440 * cur <= t + off /\ tm_yday l = 0)) as (d & Hl & Hd).
  { unfold l, local_tm. case_if; [|case_if]; zbool; eexists; rewrite tm_minutes; (split; [|cbn]).
    - instantiate (1 := prev). lia.
    - right; left. split; [done|]. split; [lia|]. Z.div_mod_to_equations. lia.
    - instantiate (1 := - cur). lia.
    - right; right. split; [done|]. split; [lia|]. Z.div_mod_to_equations. lia.
    - instantiate (1 := 0). lia.
    - left. done. }
  assert (tm_yday (tm_of t) = t / 1440) as Hy by done.
  assert (-1 <= (t + off) / 1440 - t / 1440 <= 1) by (Z.div_mod_to_equations; lia).
  destruct Hd as [[-> Hd]|[(-> & Hlt & Hd)|(-> & Hge & Hd)]].
  - repeat case_if; zbool; lia.
  - assert (t / 1440 = 0) by (Z.div_mod_to_equations; lia). repeat case_if; zbool; lia.
  - assert (t / 1440 = cur - 1) by (Z.div_mod_to_equations; lia). repeat case_if; zbool; lia.
Qed.

Lemma gmtoff_correct_witness : get_gmtoff (tm_of 30) (local_tm 365 366 (30 + (-120))) = -120.
Proof. apply gmtoff_correct; lia. Defined.
