(* ===== verification/DmUtil.v ===== *)
(** dnsmasq's util.c: names, wire encoding of names, hexadecimal and time
    notations, the comparison of addresses and the SURF generator.  The
    configuration is the one of make.sh: no IPv6, no IDN. *)
From S2P Require Import Prelude CString Dns Common.

Definition MAXDNAME : Z := 1025.
Definition MAXLABEL : Z := 63.

(** * Characters *)

Definition isascii (c : Z) : bool := c <? 128.
Definition iscntrl (c : Z) : bool := (c <? 32) || (c =? 127).
Definition isxdigit (c : Z) : bool := match hexval c with Some _ => true | None => false end.

(** * Host names *)

(** The loop of [check_name]: [None] when it returns 0, else [nowhite]. *)
Fixpoint name_scan (s : list Z) (dotgap : Z) (nowhite : bool) : option bool :=
  match s with
  | [] => Some nowhite
  | c :: s' =>
      if c =? 46 then name_scan s' 0 nowhite
      else
        let dotgap := dotgap + 1 in
        if MAXLABEL <? dotgap then None
        else if isascii c && iscntrl c then None
        else if negb (isascii c) then None
        else name_scan s' dotgap (if negb (c =? 32) then true else nowhite)
  end.

(** The string is changed in place: a final dot is removed. *)
Definition check_name (s : list Z) : bool * list Z :=
  let l := zlen s in
  if (l =? 0) || (MAXDNAME <? l) then (false, s)
  else if bool_decide (last s = Some 46) && (l =? 1) then (false, s)
  else
    let s := if bool_decide (last s = Some 46) then take (length s - 1) s else s in
    (match name_scan s 0 false with Some nowhite => nowhite | None => false end, s).

Definition host_char (c : Z) : bool :=
  ((65 <=? c) && (c <=? 90)) || ((97 <=? c) && (c <=? 122)) || ((48 <=? c) && (c <=? 57)) || (c =? 45) || (c =? 95).

Fixpoint host_scan (s : list Z) : bool :=
  match s with
  | [] => true
  | c :: s' => if host_char c then host_scan s' else c =? 46
  end.

Definition legal_hostname (s : list Z) : bool * list Z :=
  let '(ok, s) := check_name s in
  if negb ok then (false, s) else (host_scan s, s).

(** [mem] is whether [malloc] succeeds; the result, the string and [*nomem]. *)
Definition canonicalise (mem : bool) (s : list Z) : option (list Z) * list Z * Z :=
  let '(ok, s) := check_name s in
  if negb ok then (None, s, 0)
  else if mem then (Some s, s, 0) else (None, s, 1).

(** Both strings end where their lists end. *)
Fixpoint hostname_isequal (a b : list Z) : bool :=
  match a, b with
  | [], [] => true
  | c1 :: a', c2 :: b' => if tolower c1 =? tolower c2 then hostname_isequal a' b' else false
  | _, _ => false
  end.

(** * The wire format *)

(** [*p++ = *sval] up to a dot or the end. *)
Fixpoint put_label (buf : list Z) (p : Z) (sval : list Z) (j : Z) : comp (list Z * Z * list Z * Z) :=
  match sval with
  | [] => Ok (buf, p, [], j)
  | c :: sval' =>
      if c =? 46 then Ok (buf, p, sval, j)
      else buf ← wr buf p c; put_label buf (p + 1) sval' (j + 1)
  end.

Fixpoint rfc1035_loop (fuel : nat) (buf : list Z) (p : Z) (sval : list Z) : comp (list Z * Z) :=
  match sval, fuel with
  | [], _ => Ok (buf, p)
  | _, O => Fault NoFuel
  | _, S fuel' =>
      '(buf, p', sval, j) ← put_label buf (p + 1) sval 0;
      buf ← wr buf p (u8 j);
      rfc1035_loop fuel' buf p' (tail sval)
  end.
Definition do_rfc1035_name (buf : list Z) (p : Z) (sval : list Z) : comp (list Z * Z) :=
  rfc1035_loop (length sval) buf p sval.

(** * Addresses *)

Definition AF_INET : Z := 2.
Record mysockaddr := SA { sa_family : Z; sin_port : Z; sin_addr : in_addr }.

Definition sockaddr_isequal (s1 s2 : mysockaddr) : bool :=
  (sa_family s1 =? sa_family s2) && (sa_family s1 =? AF_INET) && (sin_port s1 =? sin_port s2) &&
  bool_decide (sin_addr s1 = sin_addr s2).

Definition addr_map2 (f : Z -> Z -> Z) (x y : in_addr) : in_addr :=
  let '(a, b, c, d) := x in let '(a', b', c', d') := y in (f a a', f b b', f c c', f d d').
Definition is_same_net (a b mask : in_addr) : bool :=
  bool_decide (addr_map2 Z.land a mask = addr_map2 Z.land b mask).

(** * Times *)

(** What is appended to the buffer. *)
Definition prettyprint_time (t : Z) : list Z :=
  if t =? 0xffffffff then lit "infinite"
  else
    let part x c := if x =? 0 then [] else dec x ++ [c] in
    part (t / 86400) 100 ++ part ((t / 3600) `mod` 24) 104 ++ part ((t / 60) `mod` 60) 109 ++ part (t `mod` 60) 115.

(** * Hexadecimal notation *)

(** [strtol (s, NULL, 16)] on a text of hexadecimal digits and stars. *)
Fixpoint hex_digits (acc : Z) (s : list Z) : Z :=
  match s with
  | c :: s' => match hexval c with Some v => hex_digits (Z.min (2 ^ 31 - 1) (acc * 16 + v)) s' | None => acc end
  | [] => acc
  end.

(** The text up to the next separator and what follows: the separator and the
    rest, or nothing at the end.  [None] for a character that is neither a
    hexadecimal digit nor a star. *)
Fixpoint hex_piece (s : list Z) : option (list Z * option (Z * list Z)) :=
  match s with
  | [] => Some ([], None)
  | c :: s' =>
      if (c =? 58) || (c =? 45) || (c =? 32) then Some ([], Some (c, s'))
      else if negb (c =? 42) && negb (isxdigit c) then None
      else match hex_piece s' with Some (t, r) => Some (c :: t, r) | None => None end
  end.

(** The digits of a piece, two at a time. *)
Fixpoint hex_bytes (piece : list Z) (out : list Z) (i mask : Z) : comp (list Z * Z * Z) :=
  match piece with
  | [] => Ok (out, i, mask)
  | [c] => out ← wr out i (u8 (hex_digits 0 [c])); Ok (out, i + 1, u32 (Z.shiftl mask 1))
  | c :: d :: piece' =>
      out ← wr out i (u8 (hex_digits 0 [c; d]));
      hex_bytes piece' out (i + 1) (u32 (Z.shiftl mask 1))
  end.

(** [want_type] is whether [mac_type] is still a pointer to store to. *)
Fixpoint parse_hex_loop (fuel : nat) (s : list Z) (out : list Z) (maxlen i mask : Z) (want_type : bool) (mac_type : Z)
  : comp (Z * list Z * Z * Z) :=
  match fuel with
  | O => Fault NoFuel
  | S fuel' =>
      if negb ((maxlen =? -1) || (i <? maxlen)) then Ok (i, out, mask, mac_type)
      else
        match hex_piece s with
        | None => Ok (-1, out, mask, mac_type)
        | Some (piece, sep) =>
            let maxlen := match sep with None => i | Some _ => maxlen end in
            let rest := match sep with Some (_, rest) => rest | None => [] end in
            let dash := match sep with Some (c, _) => c =? 45 | None => false end in
            if bool_decide (piece = []) then parse_hex_loop fuel' rest out maxlen i mask want_type mac_type
            else if dash && (i =? 0) && want_type
            then parse_hex_loop fuel' rest out maxlen i mask false (hex_digits 0 piece)
            else if bool_decide (piece = [42])
            then parse_hex_loop fuel' rest out maxlen (i + 1) (u32 (Z.lor (Z.shiftl mask 1) 1)) want_type mac_type
            else
              '(out, i, mask) ← hex_bytes piece out i mask;
              parse_hex_loop fuel' rest out maxlen i mask want_type mac_type
        end
  end.
Definition parse_hex (s out : list Z) (maxlen : Z) (want_type : bool) : comp (Z * list Z * Z * Z) :=
  parse_hex_loop (S (S (length s))) s out maxlen 0 0 want_type 0.

Definition hex_digit (v : Z) : Z := if v <? 10 then 48 + v else 87 + v.
Definition hex2 (b : Z) : list Z := [hex_digit (b / 16); hex_digit (b `mod` 16)].

Fixpoint mac_bytes (mac : list Z) : list Z :=
  match mac with
  | [] => []
  | [b] => hex2 b
  | b :: mac' => hex2 b ++ [58] ++ mac_bytes mac'
  end.
Definition print_mac (mac : list Z) : list Z :=
  match mac with [] => lit "<null>" | _ => mac_bytes mac end.

(** From the last byte backwards. *)
Fixpoint masked_loop (a b : list Z) (i : nat) (mask count : Z) : comp Z :=
  match i with
  | O => Ok count
  | S i' =>
      if Z.land mask 1 =? 0 then
        x ← rd a (Z.of_nat i'); y ← rd b (Z.of_nat i');
        if x =? y then masked_loop a b i' (Z.shiftr mask 1) (count + 1) else Ok 0
      else masked_loop a b i' (Z.shiftr mask 1) count
  end.
Definition memcmp_masked (a b : list Z) (len : nat) (mask : Z) : comp Z := masked_loop a b len mask 1.

(** * Buffers *)

Record iovec := Iov { iov_base : list Z; iov_len : Z }.

(** [new] is what [malloc] returns, with whatever it holds. *)
Definition expand_buf (iov : iovec) (size : Z) (new : option (list Z)) : comp (Z * iovec) :=
  if size <=? iov_len iov then Ok (1, iov)
  else match new with
       | None => Ok (0, iov)
       | Some b =>
           if zlen (iov_base iov) <? iov_len iov then Fault ReadOOB
           else if zlen b <? iov_len iov then Fault WriteOOB
           else Ok (1, Iov (blit b 0 (take (Z.to_nat (iov_len iov)) (iov_base iov))) size)
       end.

(** * The SURF generator *)

Record surf_t := Surf { seed : list Z; in_ : list Z; out_ : list Z; outleft : Z }.

Definition ROTATE (x b : Z) : Z := Z.lor (u32 (Z.shiftl x b)) (Z.shiftr x (32 - b)).

Definition MUSH (sd : list Z) (sum : Z) (tx : list Z * Z) (ib : Z * Z) : comp (list Z * Z) :=
  let '(t, x) := tx in let '(i, b) := ib in
  ti ← rd t i; si ← rd sd i;
  let x' := u32 (ti + Z.lxor (u32 (Z.lxor x si + sum)) (ROTATE x b)) in
  t ← wr t i x'; mret (t, x').

Fixpoint mush_all (sd : list Z) (sum : Z) (ibs : list (Z * Z)) (tx : list Z * Z) : comp (list Z * Z) :=
  match ibs with [] => Ok tx | ib :: ibs' => tx ← MUSH sd sum tx ib; mush_all sd sum ibs' tx end.

Definition mush_order : list (Z * Z) :=
  [(0, 5); (1, 7); (2, 9); (3, 13); (4, 5); (5, 7); (6, 9); (7, 13); (8, 5); (9, 7); (10, 9); (11, 13)].

Fixpoint surf_rounds (n : nat) (sd : list Z) (sum : Z) (tx : list Z * Z) : comp (list Z * Z * Z) :=
  match n with
  | O => Ok (tx, sum)
  | S n' =>
      let sum := u32 (sum + 0x9e3779b9) in
      tx ← mush_all sd sum mush_order tx; surf_rounds n' sd sum tx
  end.

(** One of the two outer rounds. *)
Definition surf_half (sd : list Z) (o : list Z) (tx : list Z * Z) (sum : Z) : comp (list Z * (list Z * Z) * Z) :=
  '(tx, sum) ← surf_rounds 16 sd sum tx;
  mret (zip_with Z.lxor o (take 8 (drop 4 (fst tx))), tx, sum).

Definition surf (s : surf_t) : comp surf_t :=
  let t := zip_with Z.lxor (in_ s) (take 12 (drop 12 (seed s))) in
  let o := take 8 (drop 24 (seed s)) in
  x ← rd t 11;
  '(o, tx, sum) ← surf_half (seed s) o (t, x) 0;
  '(o, _, _) ← surf_half (seed s) o tx sum;
  mret (Surf (seed s) (in_ s) o (outleft s)).

(** [if (!++in[0]) if (!++in[1]) ...] on the first [n] words. *)
Fixpoint count_up (n : nat) (l : list Z) : list Z :=
  match n, l with
  | S n', w :: l' => let w := u32 (w + 1) in if w =? 0 then w :: count_up n' l' else w :: l'
  | _, _ => l
  end.

Definition rand16 (s : surf_t) : comp (Z * surf_t) :=
  s ← (if outleft s =? 0
       then s ← surf (Surf (seed s) (count_up 4 (in_ s)) (out_ s) (outleft s));
            mret (Surf (seed s) (in_ s) (out_ s) 8)
       else mret s);
  v ← rd (out_ s) (outleft s - 1);
  mret (u16 v, Surf (seed s) (in_ s) (out_ s) (outleft s - 1)).

(** * Lemmas *)

Lemma hostname_isequal_fold a b : hostname_isequal a b = strcasecmp0 a b.
Proof.
  revert b. induction a as [|x a IH]; intros [|y b]; try done. cbn [hostname_isequal]. rewrite IH.
  unfold strcasecmp0. cbn [fmap list_fmap str_eqb]. by destruct (tolower x =? tolower y).
Qed.

Lemma hostname_isequal_iff a b : hostname_isequal a b = true <-> tolower <$> a = tolower <$> b.
Proof. rewrite hostname_isequal_fold. apply strcasecmp0_eq. Qed.

(** The characters of a label reach the buffer, and the walk stops at the dot
    or the end. *)
Lemma put_label_ok l rest : forall buf p j, Forall (fun c => c <> 46) l -> head rest = None \/ head rest = Some 46 ->
  0 <= p -> p + zlen l <= zlen buf ->
  put_label buf p (l ++ rest) j = Ok (blit buf (Z.to_nat p) l, p + zlen l, rest, j + zlen l).
Proof.
  induction l as [|c l IH]; intros buf p j Hl Hr Hp Hlen; cbn [app put_label].
  - rewrite blit_nil, zlen_nil, !Z.add_0_r. destruct rest as [|c rest]; [done|]. cbn in *.
    destruct Hr as [|[= ->]]; [done|]. done.
  - apply Forall_cons in Hl as [Hc Hl]. rewrite zlen_cons in *. rewrite (proj2 (Z.eqb_neq c 46)) by done.
    pose proof (zlen_nonneg l). rewrite wr_ok by lia. cbn [mbind comp_bind].
    rewrite IH; [|done|done|lia|unfold zlen in *; rewrite length_insert; lia].
    replace (Z.to_nat (p + 1)) with (S (Z.to_nat p)) by lia. rewrite blit_cons by (unfold zlen in *; lia).
    by rewrite !Z.add_assoc.
Qed.

Lemma insert_blit_front buf p x l : (p + S (length l) <= length buf)%nat ->
  <[p := x]> (blit buf (S p) l) = blit buf p (x :: l).
Proof.
  intros H. rewrite <- blit_cons by lia. unfold blit. rewrite insert_app_l by (rewrite length_take; lia).
  rewrite take_insert_lt by lia. rewrite drop_insert_lt by lia. done.
Qed.

(** The first label of a name in text form, and what the walk goes on with. *)
Lemma join_dots_next l ls : exists rest, join_dots (l :: ls) = l ++ rest /\
  (head rest = None \/ head rest = Some 46) /\ tail rest = join_dots ls.
Proof.
  destruct ls as [|l2 ls]; [exists []; rewrite join_dots_single, app_nil_r; auto|].
  exists (46 :: join_dots (l2 :: ls)). rewrite join_dots_cons2. auto.
Qed.

(** [put_label] from the byte behind the length, which is stored last. *)
Lemma rfc1035_loop_ok ls : forall fuel buf p, Forall wf_label ls -> (length ls <= fuel)%nat ->
  0 <= p -> p + zlen (wire_labels ls) <= zlen buf ->
  rfc1035_loop fuel buf p (join_dots ls) = Ok (blit buf (Z.to_nat p) (wire_labels ls), p + zlen (wire_labels ls)).
Proof.
  induction ls as [|l ls IH]; intros fuel buf p Hwf Hf Hp Hlen.
  { change (join_dots []) with (@nil Z). change (wire_labels []) with (@nil Z). rewrite blit_nil, zlen_nil, Z.add_0_r. by destruct fuel. }
  apply Forall_cons in Hwf as [Hl Hwf]. destruct fuel as [|fuel]; [cbn in Hf; lia|].
  change (wire_labels (l :: ls)) with ((zlen l :: l) ++ wire_labels ls) in *. zlens.
  pose proof Hl as [Hll _]. pose proof (zlen_nonneg (wire_labels ls)).
  destruct (join_dots_next l ls) as (rest & -> & Hr & Ht).
  cbn [rfc1035_loop]. destruct l as [|c l']; [unfold zlen in Hll; cbn in Hll; lia|]. set (l := c :: l') in *.
  change (l ++ rest) with (c :: (l' ++ rest)). cbv iota beta. change (c :: (l' ++ rest)) with (l ++ rest).
  clearbody l. clear c l'.
  rewrite put_label_ok; [|by apply wf_label_nodot|done|lia|lia]. cbn [mbind comp_bind].
  rewrite wr_ok; [|split; [lia|]]. 2: { unfold zlen in *. rewrite length_blit; lia. }
  cbn [mbind comp_bind]. rewrite Z.add_0_l, u8_label by done.
  replace (Z.to_nat (p + 1)) with (S (Z.to_nat p)) by lia. rewrite insert_blit_front by (unfold zlen in *; lia).
  rewrite Ht, IH; [|done|cbn in Hf; lia|lia|]. 2: { unfold zlen in *. rewrite length_blit; cbn [length]; lia. }
  replace (Z.to_nat (p + 1 + zlen l)) with (Z.to_nat p + length (zlen l :: l))%nat by (unfold zlen; cbn [length]; lia).
  rewrite blit_blit by (unfold zlen in *; cbn [length]; lia). do 2 f_equal. lia.
Qed.

Lemma labels_fuel ls : Forall wf_label ls -> (length ls <= length (join_dots ls))%nat.
Proof.
  intros Hwf.
  induction Hwf as [|l ls Hl Hwf IH]; [done|]. destruct Hl as [Hl _]. destruct ls as [|l2 ls].
  - rewrite join_dots_single. unfold zlen in Hl. cbn. lia.
  - rewrite join_dots_cons2, length_app. cbn [length]. cbn [length] in IH. lia.
Qed.

Lemma do_rfc1035_name_ok ls buf p : Forall wf_label ls -> 0 <= p -> p + zlen (wire_labels ls) <= zlen buf ->
  do_rfc1035_name buf p (join_dots ls) = Ok (blit buf (Z.to_nat p) (wire_labels ls), p + zlen (wire_labels ls)).
Proof.
  intros Hwf Hp Hlen. unfold do_rfc1035_name. destruct (decide (ls = [])) as [->|Hne].
  { change (wire_labels []) with (@nil Z). by rewrite blit_nil, zlen_nil, Z.add_0_r. }
  apply rfc1035_loop_ok; [done|by apply labels_fuel|done|done].
Qed.

(** ** Checked names *)

(** What [name_scan] lets through: labels (runs without a dot) of at most 63
    characters, printable ASCII only. *)
Definition name_char (c : Z) : Prop := 32 <= c < 127.
Definition labels_bounded (s : list Z) : Prop :=
  forall k n, Forall (fun c => c <> 46) (take n (drop k s)) -> zlen (take n (drop k s)) <= MAXLABEL.

Lemma name_scan_runs s : forall gap w w', 0 <= gap <= MAXLABEL -> Forall (fun c => 0 <= c) s -> name_scan s gap w = Some w' ->
  Forall name_char s /\ labels_bounded s /\
  (forall n, Forall (fun c => c <> 46) (take n s) -> gap + zlen (take n s) <= MAXLABEL) /\
  (w' = true -> w = true \/ Exists (fun c => c <> 32 /\ c <> 46) s).
Proof.
  unfold MAXLABEL. induction s as [|c s IH]; intros gap w w' Hg Hs H; cbn [name_scan] in H.
  - injection H as <-. split; [constructor|]. split; [|split; [|auto]].
    + intros k n _. rewrite drop_nil, take_nil. unfold zlen, MAXLABEL. cbn. lia.
    + intros n _. rewrite take_nil. unfold zlen. cbn. lia.
  - apply Forall_cons in Hs as [Hc Hs].
    assert (Hall : forall g w1, 0 <= g <= 63 -> name_scan s g w1 = Some w' -> name_char c ->
      (c = 46 \/ gap + 1 <= g) -> (w' = true -> w1 = true -> w = true \/ (c <> 32 /\ c <> 46)) ->
      Forall name_char (c :: s) /\ labels_bounded (c :: s) /\
      (forall n, Forall (fun c => c <> 46) (take n (c :: s)) -> gap + zlen (take n (c :: s)) <= 63) /\
      (w' = true -> w = true \/ Exists (fun c => c <> 32 /\ c <> 46) (c :: s))).
    { intros g w1 Hg1 Hs1 Hn Hgap Hw. destruct (IH g w1 w' Hg1 Hs Hs1) as (H1 & H2 & H3 & H4).
      assert (forall n, Forall (fun c => c <> 46) (take n (c :: s)) -> gap + zlen (take n (c :: s)) <= 63) as H5.
      { intros [|n] Hf; [rewrite take_0; unfold zlen; cbn; lia|]. cbn [take] in *. apply Forall_cons in Hf as [Hc46 Hf].
        rewrite zlen_cons. specialize (H3 n Hf). destruct Hgap; lia. }
      split; [by constructor|]. split; [|split; [done|]].
      - intros [|k] n Hf; [rewrite drop_0 in *; specialize (H5 n Hf); unfold MAXLABEL; lia|]. by apply H2.
      - intros E. destruct (H4 E) as [E1|E1]; [|by right; right].
        destruct (Hw E E1) as [?|?]; [by left|by right; left]. }
    destruct (c =? 46) eqn:E46; zbool; [subst c; by apply (Hall 0 w); auto; [lia|unfold name_char; lia]|].
    cbv zeta in H. unfold MAXLABEL, isascii, iscntrl in H.
    repeat match type of H with context [if ?b then _ else _] => destruct b eqn:?; zbool; try done end; cbn [negb andb orb] in *;
      (eapply Hall; [|exact H|unfold name_char; lia|lia|]; [lia|intros _ ?; auto]).
Qed.

Lemma check_name_ok s s' : bytes s -> check_name s = (true, s') ->
  (s = s' \/ s = s' ++ [46]) /\ 0 < zlen s' <= MAXDNAME /\ Forall name_char s' /\ labels_bounded s' /\
  Exists (fun c => c <> 32 /\ c <> 46) s'.
Proof.
  intros Hb. unfold check_name. case_if; [done|]. zbool. case_if; [done|]. intros Hres.
  set (r := if bool_decide (last s = Some 46) then take (length s - 1) s else s) in Hres.
  assert ((s = r \/ s = r ++ [46]) /\ zlen r <= zlen s /\ bytes r) as (Hr & Hl & Hbr).
  { unfold r. case_bool_decide as Hd; [|split_and!; [by left|lia|done]]. apply last_Some in Hd as (k & ->). rewrite length_app, Nat.add_sub.
    rewrite take_app_length. split; [by right|]. split; [zlens; lia|]. by apply Forall_app in Hb as [? _]. }
  destruct (name_scan r 0 false) as [w|] eqn:Hs; [|done]. injection Hres as -> <-.
  destruct (name_scan_runs r 0 false true) as (K1 & K2 & _ & K4); [unfold MAXLABEL; lia| |done|].
  { eapply Forall_impl; [exact Hbr|]. unfold is_byte. cbn. lia. }
  destruct (K4 eq_refl) as [?|Hx]; [done|]. split; [done|]. split; [|done].
  assert (0 < zlen r); [|unfold MAXDNAME in *; lia]. destruct r; [by inversion Hx|]. zlens. pose proof (zlen_nonneg r). lia.
Qed.

(** ** Hexadecimal notation *)

Lemma hex_digit_val v : 0 <= v < 16 -> hexval (hex_digit v) = Some v /\
  hex_digit v <> 58 /\ hex_digit v <> 45 /\ hex_digit v <> 32 /\ hex_digit v <> 42.
Proof.
  intros H. unfold hexval, hex_digit, isdigit. case_if; zbool.
  - rewrite (proj2 (Z.leb_le 48 _)), (proj2 (Z.leb_le _ 57)) by lia. cbn [andb]. split; [f_equal|]; lia.
  - rewrite (proj2 (Z.leb_gt (87 + v) 57)), andb_false_r by lia.
    rewrite (proj2 (Z.leb_le 97 _)), (proj2 (Z.leb_le _ 102)) by lia. cbn [andb]. split; [f_equal|]; lia.
Qed.

Lemma hex2_piece b rest : is_byte b -> head rest = None \/ head rest = Some 58 ->
  hex_piece (hex2 b ++ rest) = Some (hex2 b, match rest with [] => None | c :: r => Some (c, r) end).
Proof.
  intros Hb Hr. assert (0 <= b / 16 < 16 /\ 0 <= b `mod` 16 < 16) as [H1 H2].
  { unfold is_byte in Hb. split; [split; [apply Z.div_pos; lia|apply Z.div_lt_upper_bound; lia]|apply Z.mod_pos_bound; lia]. }
  destruct (hex_digit_val _ H1) as (V1 & ? & ? & ? & ?), (hex_digit_val _ H2) as (V2 & ? & ? & ? & ?).
  unfold hex2. cbn [app hex_piece]. unfold isxdigit. rewrite V1, V2.
  repeat rewrite (proj2 (Z.eqb_neq _ _)) by done. cbn [orb andb negb].
  destruct rest as [|c rest]; [done|]. destruct Hr as [|[= ->]]; done.
Qed.

Lemma hex2_bytes b out i mask : is_byte b -> 0 <= i < zlen out ->
  hex_bytes (hex2 b) out i mask = Ok (<[Z.to_nat i := b]> out, i + 1, u32 (Z.shiftl mask 1)).
Proof.
  intros Hb Hi. assert (0 <= b / 16 < 16 /\ 0 <= b `mod` 16 < 16) as [H1 H2].
  { unfold is_byte in Hb. split; [split; [apply Z.div_pos; lia|apply Z.div_lt_upper_bound; lia]|apply Z.mod_pos_bound; lia]. }
  destruct (hex_digit_val _ H1) as (V1 & _), (hex_digit_val _ H2) as (V2 & _).
  unfold hex2. cbn [hex_bytes hex_digits]. rewrite V1, V2.
  assert (u8 (Z.min (2 ^ 31 - 1) (Z.min (2 ^ 31 - 1) (0 * 16 + b / 16) * 16 + b `mod` 16)) = b) as ->.
  { pose proof (Z.div_mod b 16). rewrite (Z.min_r _ (0 * 16 + b / 16)) by lia. rewrite Z.min_r by lia.
    unfold u8. rewrite Z.mod_small; unfold is_byte in Hb; lia. }
  by rewrite wr_ok.
Qed.

(** Reading back what [print_mac] printed, from the byte [i]. *)
Lemma parse_hex_mac mac : forall fuel out maxlen i mask wt mt, mac <> [] -> bytes mac ->
  (length mac < fuel)%nat -> 0 <= i -> i + zlen mac <= maxlen -> i + zlen mac <= zlen out ->
  exists mask', parse_hex_loop fuel (mac_bytes mac) out maxlen i mask wt mt =
    Ok (i + zlen mac, blit out (Z.to_nat i) mac, mask', mt).
Proof.
  induction mac as [|b mac IH]; intros fuel out maxlen i mask wt mt Hne Hb Hf Hi Hm Ho; [done|].
  apply Forall_cons in Hb as [Hb Hbs]. destruct fuel as [|fuel]; [cbn in Hf; lia|]. cbn [length] in Hf. zlens.
  pose proof (zlen_nonneg mac).
  set (rest := match mac with [] => [] | _ => 58 :: mac_bytes mac end).
  assert (mac_bytes (b :: mac) = hex2 b ++ rest) as -> by (destruct mac; [by rewrite app_nil_r|done]).
  cbn [parse_hex_loop]. rewrite (proj2 (Z.ltb_lt i maxlen)), orb_true_r by lia. cbn [negb].
  rewrite hex2_piece by (try done; unfold rest; destruct mac; auto).
  rewrite (bool_decide_false (hex2 b = [])), (bool_decide_false (hex2 b = [42])) by done.
  assert (match (match rest with [] => None | c :: r => Some (c, r) end) with Some (c, _) => c =? 45 | None => false end = false) as ->
    by (unfold rest; by destruct mac).
  cbn [andb]. rewrite hex2_bytes by (try done; lia). cbn [mbind comp_bind].
  destruct mac as [|b2 mac].
  - destruct fuel as [|fuel]; [lia|]. cbn [rest parse_hex_loop]. rewrite (proj2 (Z.eqb_neq i (-1))), (proj2 (Z.ltb_ge (i + 1) i)) by lia. cbn [orb negb].
    eexists. do 3 f_equal. rewrite <- blit_cons by (unfold zlen in *; lia). by rewrite blit_nil.
  - cbn [rest]. destruct (IH fuel (<[Z.to_nat i:=b]> out) maxlen (i + 1) (u32 (Z.shiftl mask 1)) wt mt) as (mask' & ->);
      [done|done|lia|lia|lia|unfold zlen in *; rewrite length_insert; lia|].
    exists mask'. replace (Z.to_nat (i + 1)) with (S (Z.to_nat i)) by lia. rewrite blit_cons by (unfold zlen in *; lia).
    by rewrite Z.add_assoc.
Qed.

(** ** Masked comparison *)

(** The bytes a mask leaves to compare: bit [k] of the mask stands for the
    byte [k] places from the end. *)
Definition unmasked (len : nat) (mask : Z) : list nat :=
  filter (fun j => negb (Z.testbit mask (Z.of_nat (len - 1 - j)))) (seq 0 len).

Lemma unmasked_S i mask : unmasked (S i) mask =
  unmasked i (Z.shiftr mask 1) ++ (if Z.land mask 1 =? 0 then [i] else []).
Proof.
  unfold unmasked. rewrite seq_S, filter_app. f_equal.
  - apply filter_bool_ext. intros j Hj. apply elem_of_seq in Hj.
    rewrite Z.shiftr_spec by lia. by replace (Z.of_nat (i - 1 - j) + 1) with (Z.of_nat (S i - 1 - j)) by lia.
  - cbn [Nat.add]. rewrite filter_cons, filter_nil. replace (S i - 1 - i)%nat with O by lia. change (Z.of_nat 0) with 0.
    rewrite Z.bit0_odd. pose proof (Z.land_ones mask 1 ltac:(lia)) as Hl. change (Z.ones 1) with 1 in Hl. change (2 ^ 1) with 2 in Hl.
    rewrite Hl, Zmod_odd. by destruct (Z.odd mask).
Qed.

Lemma masked_loop_ok a b i : forall mask count, (i <= length a)%nat -> (i <= length b)%nat -> 0 < count ->
  masked_loop a b i mask count =
    Ok (if bool_decide (Forall (fun j => a !! j = b !! j) (unmasked i mask)) then count + zlen (unmasked i mask) else 0).
Proof.
  induction i as [|i IH]; intros mask count Ha Hb Hc; cbn [masked_loop].
  { cbn. by rewrite Z.add_0_r. }
  rewrite unmasked_S. destruct (Z.land mask 1 =? 0) eqn:E.
  - destruct (rd_ok a (Z.of_nat i)) as (x & -> & Hx); [unfold zlen; lia|].
    destruct (rd_ok b (Z.of_nat i)) as (y & -> & Hy); [unfold zlen; lia|]. rewrite Nat2Z.id in Hx, Hy. cbn [mbind comp_bind].
    destruct (x =? y) eqn:Exy; zbool.
    + subst y. rewrite IH by lia. rewrite zlen_app. change (zlen [i]) with 1.
      case_bool_decide as H1; case_bool_decide as H2; [f_equal; lia| | |done]; exfalso.
      * apply H2. apply Forall_app. split; [done|]. constructor; [congruence|constructor].
      * apply H1. by apply Forall_app in H2 as [? _].
    + rewrite bool_decide_false; [done|]. rewrite Forall_app, Forall_singleton. intros [_ ?]. congruence.
  - rewrite app_nil_r. apply IH; lia.
Qed.

(** ** The generator *)

Definition surf_ok (s : surf_t) : Prop :=
  length (seed s) = 32%nat /\ length (in_ s) = 12%nat /\ length (out_ s) = 8%nat /\ 0 <= outleft s <= 8.

Lemma mush_all_ok sd sum ibs : forall t x, Forall (fun ib => 0 <= fst ib < 12) ibs ->
  length sd = 32%nat -> length t = 12%nat ->
  exists t' x', mush_all sd sum ibs (t, x) = Ok (t', x') /\ length t' = 12%nat.
Proof.
  induction ibs as [|[i b] ibs IH]; intros t x Hi Hsd Ht; [eauto|]. apply Forall_cons in Hi as [Hi Hibs]. cbn in Hi.
  cbn [mush_all MUSH]. destruct (rd_ok t i) as (ti & -> & _); [unfold zlen; lia|].
  destruct (rd_ok sd i) as (si & -> & _); [unfold zlen; lia|]. cbn [mbind comp_bind]. rewrite wr_ok by (unfold zlen; lia).
  cbn [mbind comp_bind mret comp_ret]. apply IH; [done|done|by rewrite length_insert].
Qed.

Lemma surf_rounds_ok n sd : forall sum t x, length sd = 32%nat -> length t = 12%nat ->
  exists t' x' sum', surf_rounds n sd sum (t, x) = Ok (t', x', sum') /\ length t' = 12%nat.
Proof.
  induction n as [|n IH]; intros sum t x Hsd Ht; cbn [surf_rounds]; [eauto|].
  destruct (mush_all_ok sd (u32 (sum + 0x9e3779b9)) mush_order t x) as (t1 & x1 & -> & Ht1); [by_decide|done|done|].
  cbn [mbind comp_bind]. by apply IH.
Qed.

Lemma surf_half_ok sd o t x sum : length sd = 32%nat -> length t = 12%nat -> length o = 8%nat ->
  exists o' t' x' sum', surf_half sd o (t, x) sum = Ok (o', (t', x'), sum') /\ length t' = 12%nat /\ length o' = 8%nat.
Proof.
  intros Hsd Ht Ho. unfold surf_half. destruct (surf_rounds_ok 16 sd sum t x Hsd Ht) as (t' & x' & sum' & -> & Ht').
  cbn [mbind comp_bind mret comp_ret fst]. do 4 eexists. split; [done|]. split; [done|].
  rewrite length_zip_with, length_take, length_drop. lia.
Qed.

Lemma length_count_up n l : length (count_up n l) = length l.
Proof. revert l. induction n as [|n IH]; intros [|w l]; cbn; [done..|]. case_if; cbn; by rewrite ?IH. Qed.

(** Drawing never leaves the arrays, and refills them every eighth time. *)
Lemma rand16_ok s : surf_ok s -> exists v s', rand16 s = Ok (v, s') /\ is_u16 v /\ surf_ok s' /\
  outleft s' = (if outleft s =? 0 then 7 else outleft s - 1) /\
  (outleft s <> 0 -> v = u16 (nth (Z.to_nat (outleft s - 1)) (out_ s) 0) /\ out_ s' = out_ s).
Proof.
  intros (Hsd & Hin & Hout & Hl). unfold rand16. destruct (outleft s =? 0) eqn:E; zbool.
  - unfold surf. cbn [seed in_ out_ outleft].
    set (t := zip_with Z.lxor (count_up 4 (in_ s)) (take 12 (drop 12 (seed s)))).
    assert (length t = 12%nat) as Ht
      by (unfold t; rewrite length_zip_with, length_count_up, length_take, length_drop; lia).
    destruct (rd_ok t 11) as (x & -> & _); [unfold zlen; lia|]. cbn [mbind comp_bind].
    destruct (surf_half_ok (seed s) (take 8 (drop 24 (seed s))) t x 0) as (o1 & t1 & x1 & sum1 & -> & Ht1 & Ho1); [done|done| |].
    { rewrite length_take, length_drop. lia. }
    cbn [mbind comp_bind]. destruct (surf_half_ok (seed s) o1 t1 x1 sum1) as (o2 & t2 & x2 & sum2 & -> & _ & Ho2); [done..|].
    cbn [mbind comp_bind mret comp_ret outleft out_ seed in_]. destruct (rd_ok o2 (8 - 1)) as (v & -> & _); [unfold zlen; lia|].
    cbn [mbind comp_bind mret comp_ret]. do 2 eexists. split; [done|]. split; [apply Z.mod_pos_bound; lia|].
    split; [|split; [done|lia]]. unfold surf_ok. cbn [seed in_ out_ outleft]. rewrite length_count_up. lia.
  - cbn [mbind comp_bind mret comp_ret]. destruct (rd_ok (out_ s) (outleft s - 1)) as (v & -> & Hv); [unfold zlen; lia|].
    cbn [mbind comp_bind mret comp_ret]. do 2 eexists. split; [done|]. split; [apply Z.mod_pos_bound; lia|].
    split; [unfold surf_ok; cbn; lia|]. split; [done|]. intros _. split; [|done]. f_equal. symmetry. by apply nth_lookup_Some.
Qed.

(** * Properties *)

(** C37: a name that is accepted is made of labels of at most 63 characters,
    printable ASCII, not all blanks and dots, at most 1025 in all; at most a
    final dot is removed. *)
Theorem canonicalise_legal mem s r s' nomem : bytes s -> canonicalise mem s = (Some r, s', nomem) ->
  (s = r \/ s = r ++ [46]) /\ 0 < zlen r <= MAXDNAME /\ Forall name_char r /\ labels_bounded r /\
  Exists (fun c => c <> 32 /\ c <> 46) r.
Proof.
  intros Hb. unfold canonicalise. destruct (check_name s) as [[] s1] eqn:E; cbn [negb]; [|done].
  destruct mem; [|done]. intros [= <- <- _]. by apply check_name_ok.
Qed.

Lemma canonicalise_legal_witness :
  (lit "www.example.org." = lit "www.example.org" \/ lit "www.example.org." = lit "www.example.org" ++ [46]) /\
  0 < zlen (lit "www.example.org") <= MAXDNAME /\ Forall name_char (lit "www.example.org") /\
  labels_bounded (lit "www.example.org") /\ Exists (fun c => c <> 32 /\ c <> 46) (lit "www.example.org").
Proof.
  apply (canonicalise_legal true (lit "www.example.org.") (lit "www.example.org") (lit "www.example.org") 0).
  - by_decide.
  - reflexivity.
Defined.

(** What [print_mac] prints, [parse_hex] reads back: every hardware address
    of at least one byte, into a buffer that has room for it. *)
Theorem parse_hex_print_mac mac out maxlen want_type : bytes mac -> 0 < zlen mac <= maxlen -> zlen mac <= zlen out ->
  exists mask, parse_hex (print_mac mac) out maxlen want_type =
    Ok (zlen mac, mac ++ drop (length mac) out, mask, 0).
Proof.
  intros Hb Hl Ho. unfold parse_hex. assert (mac <> []) as Hne by (intros ->; unfold zlen in Hl; cbn in Hl; lia).
  assert (print_mac mac = mac_bytes mac) as -> by (by destruct mac).
  destruct (parse_hex_mac mac (S (S (length (mac_bytes mac)))) out maxlen 0 0 want_type 0) as (mask & ->); try done; [|lia..|].
  - assert (length mac <= length (mac_bytes mac))%nat; [|lia]. clear. induction mac as [|b [|c mac] IH]; [done|cbn; lia|].
    cbn [mac_bytes] in *. rewrite !length_app. cbn [length hex2] in *. lia.
  - by exists mask.
Qed.

Lemma parse_hex_print_mac_witness :
  exists mask, parse_hex (lit "00:1f:c0:ff:ee:09") (replicate 16 0) 16 true =
    Ok (6, [0; 0x1f; 0xc0; 0xff; 0xee; 9] ++ drop 6 (replicate 16 0), mask, 0).
Proof. apply (parse_hex_print_mac [0; 0x1f; 0xc0; 0xff; 0xee; 9]); by_decide. Defined.

(** The length of the output is only looked at between two pieces: a run of
    digits without separators is stored behind the end. *)
Example parse_hex_overruns : parse_hex (lit "0011223344") (replicate 4 0) 4 false = Fault WriteOOB.
Proof. reflexivity. Qed.

(** The masked comparison is 0 when some byte outside the mask differs, and
    otherwise one more than the number of bytes compared. *)
Lemma memcmp_masked_counts a b len mask : (len <= length a)%nat -> (len <= length b)%nat ->
  memcmp_masked a b len mask =
    Ok (if bool_decide (Forall (fun j => a !! j = b !! j) (unmasked len mask)) then 1 + zlen (unmasked len mask) else 0).
Proof. intros Ha Hb. by apply masked_loop_ok. Qed.
