(* ===== verification/DmName.v ===== *)
(** dnsmasq's rfc1035.c, first part: names in packets.  A packet is a buffer
    with the number [plen] of its bytes that were received; a pointer into it
    is the offset from its header. *)
From S2P Require Import Prelude CString Dns Common DmUtil.

(** Offsets and lengths are never negative here. *)
Definition CHECK_LEN (p plen len : Z) : bool := p + len <=? plen.
Definition ADD_RDLEN (p plen len : Z) : option Z := if CHECK_LEN p plen len then Some (p + len) else None.

(** * Decoding and comparing names *)

(** The characters of a label, copied; [false] for one that is refused. *)
Fixpoint label_extract (n : nat) (buf : list Z) (p : Z) (name : list Z) (cp : Z) : comp (bool * list Z * Z) :=
  match n with
  | O => Ok (true, name, cp)
  | S n' =>
      c ← rd buf p;
      if isascii c && negb (iscntrl c) && negb (c =? 46)
      then name ← wr name cp c; label_extract n' buf (p + 1) name (cp + 1)
      else Ok (false, name, cp)
  end.

(** The characters of a label, compared with the name. *)
Fixpoint label_compare (n : nat) (buf : list Z) (p : Z) (name : list Z) (cp ret : Z) : comp (Z * Z) :=
  match n with
  | O => Ok (cp, ret)
  | S n' =>
      c1 ← rd name cp; c2 ← rd buf p;
      if c1 =? 0 then label_compare n' buf (p + 1) name cp 2
      else label_compare n' buf (p + 1) name (cp + 1) (if tolower c1 =? tolower c2 then ret else 2)
  end.

(** The digits of a bit string: two to a byte, the high one first. *)
Fixpoint bit_digits (n : nat) (even : bool) (buf : list Z) (p : Z) (name : list Z) (cp : Z) : comp (list Z * Z * Z) :=
  match n with
  | O => Ok (name, p, cp)
  | S n' =>
      b ← rd buf p;
      let dig := if even then Z.shiftr b 4 else Z.land b 0x0f in
      name ← wr name cp (if dig <? 10 then dig + 48 else dig + 65 - 10);
      bit_digits n' (negb even) buf (if even then p else p + 1) name (cp + 1)
  end.

Section extract.
Context (buf : list Z) (plen : Z) (ex : bool) (extrabytes : Z) (pp : Z).

(** The result is what is returned, the position of the caller and the name.
    A failing call leaves the position as it was. *)
Fixpoint extract_loop (fuel : nat) (p : Z) (p1 : option Z) (hops : Z) (name : list Z) (cp ret : Z)
  : comp (Z * Z * list Z) :=
  match fuel with
  | O => Fault NoFuel
  | S fuel' =>
      if negb (CHECK_LEN p plen 1) then Ok (0, pp, name)
      else
        l ← rd buf p;
        let p := p + 1 in
        if l =? 0 then
          if negb (CHECK_LEN p plen extrabytes) then Ok (0, pp, name)
          else
            '(ret, name) ←
              (if ex then name ← wr name (if cp =? 0 then cp else cp - 1) 0; mret (ret, name)
               else c ← rd name cp; mret (if c =? 0 then ret else 2, name));
            Ok (ret, default p p1, name)
        else
          let label_type := Z.land l 0xc0 in
          if label_type =? 0xc0 then
            if negb (CHECK_LEN p plen 1) then Ok (0, pp, name)
            else
              b ← rd buf p;
              let l := Z.lor (Z.shiftl (Z.land l 0x3f) 8) b in
              let p := p + 1 in
              let p1 := match p1 with None => Some p | Some _ => p1 end in
              let hops := hops + 1 in
              if 255 <? hops then Ok (0, pp, name) else extract_loop fuel' l p1 hops name cp ret
          else if label_type =? 0x80 then Ok (0, pp, name)
          else if label_type =? 0x40 then
            if negb (Z.land l 0x3f =? 1) then Ok (0, pp, name)
            else if negb ex then Ok (0, pp, name)
            else
              count ← rd buf p;
              let p := p + 1 in
              let count := if count =? 0 then 256 else count in
              let digs := Z.shiftr (count - 1) 2 + 1 in
              if MAXDNAME <=? cp + digs + 9 then Ok (0, pp, name)
              else if negb (CHECK_LEN p plen (Z.shiftr (count - 1) 3)) then Ok (0, pp, name)
              else
                name ← wrs name cp [92; 91; 120];
                '(name, p, cp) ← bit_digits (Z.to_nat digs) true buf p name (cp + 3);
                let text := 47 :: dec count ++ [93] in
                name ← wrs name cp (text ++ [0]);
                let cp := cp + zlen text in
                name ← wr name cp 46;
                extract_loop fuel' p p1 hops name (cp + 1) ret
          else if MAXDNAME <=? cp + l + 1 then Ok (0, pp, name)
          else if negb (CHECK_LEN p plen l) then Ok (0, pp, name)
          else if ex then
            '(ok, name, cp) ← label_extract (Z.to_nat l) buf p name cp;
            if (ok : bool)
            then name ← wr name cp 46; extract_loop fuel' (p + l) p1 hops name (cp + 1) ret
            else Ok (0, pp, name)
          else
            '(cp, ret) ← label_compare (Z.to_nat l) buf p name cp ret;
            c ← rd name cp;
            if c =? 0 then extract_loop fuel' (p + l) p1 hops name cp ret
            else extract_loop fuel' (p + l) p1 hops name (cp + 1) (if c =? 46 then ret else 2)
  end.
End extract.

(** Every round goes forward, but for at most 255 jumps. *)
Definition extract_fuel (plen : Z) : nat := Z.to_nat (256 * (Z.max 0 plen + 2) + 1).

Definition extract_name (buf : list Z) (plen pp : Z) (name : list Z) (isExtract : bool) (extrabytes : Z)
  : comp (Z * Z * list Z) :=
  name ← (if isExtract then wr name 0 0 else mret name);
  extract_loop buf plen isExtract extrabytes pp (extract_fuel plen) pp None 0 name 0 1.

(** * Skipping names *)

Definition skip_end (plen extrabytes ansp : Z) : comp (option Z) :=
  Ok (if negb (CHECK_LEN ansp plen extrabytes) then None else Some ansp).

Fixpoint skip_loop (fuel : nat) (buf : list Z) (plen extrabytes ansp : Z) : comp (option Z) :=
  match fuel with
  | O => Fault NoFuel
  | S fuel' =>
      if negb (CHECK_LEN ansp plen 1) then Ok None
      else
        b ← rd buf ansp;
        let label_type := Z.land b 0xc0 in
        if label_type =? 0xc0 then skip_end plen extrabytes (ansp + 2)
        else if label_type =? 0x80 then Ok None
        else if label_type =? 0x40 then
          if negb (CHECK_LEN ansp plen 2) then Ok None
          else if negb (Z.land b 0x3f =? 1) then Ok None
          else
            count ← rd buf (ansp + 1);
            skip_loop fuel' buf plen extrabytes
              (ansp + 2 + (if count =? 0 then 32 else Z.shiftr (count - 1) 3 + 1))
        else
          let len := Z.land b 0x3f in
          match ADD_RDLEN (ansp + 1) plen len with
          | None => Ok None
          | Some ansp => if len =? 0 then skip_end plen extrabytes ansp else skip_loop fuel' buf plen extrabytes ansp
          end
  end.
Definition skip_name (buf : list Z) (ansp plen extrabytes : Z) : comp (option Z) :=
  skip_loop (Z.to_nat (plen + 1)) buf plen extrabytes ansp.

(** * Names of reverse lookups *)

Definition MAXARPANAME : Z := 75.
Definition F_IPV4 : Z := 2 ^ 7.

(** The name as the strings between its dots. *)
Fixpoint chunks (s : list Z) : list (list Z) :=
  match s with
  | [] => [[]]
  | c :: s' =>
      if c =? 46 then [] :: chunks s'
      else match chunks s' with l :: ls => (c :: l) :: ls | [] => [[c]] end
  end.

(** Each string of digits moves the bytes of the address on by one; [false]
    for a string that is no number. *)
Fixpoint arpa_loop (ls : list (list Z)) (a : in_addr) : bool * in_addr :=
  match ls with
  | [] => (true, a)
  | l :: ls' =>
      if negb (forallb isdigit l) then (false, a)
      else let '(a0, a1, a2, a3) := a in arpa_loop ls' (u8 (atoi l), a0, a1, a2)
  end.

(** What is returned, and the address behind the pointer. *)
Definition in_arpa_name_2_addr (namein : list Z) (addr : in_addr) : Z * in_addr :=
  if MAXARPANAME <? zlen namein then (0, addr)
  else
    let ls := chunks namein in
    let zero := (0, 0, 0, 0) in
    let j := zlen ls in
    if j <? 3 then (0, zero)
    else
      let lastchunk := nth (Z.to_nat (j - 1)) ls [] in
      let penchunk := nth (Z.to_nat (j - 2)) ls [] in
      if hostname_isequal lastchunk (lit "arpa") && hostname_isequal penchunk (lit "in-addr") then
        let '(ok, a) := arpa_loop (take (Z.to_nat (j - 2)) ls) zero in
        (if (ok : bool) then F_IPV4 else 0, a)
      else (0, zero).

(** * What a name is *)

(** [name_at buf plen h p ls t e]: with [h] jumps made, the name at [p] has
    the labels [ls]; its last byte is in front of [t], and what follows the
    name in the message is at [e]. *)
Inductive name_at (buf : list Z) (plen : Z) : Z -> Z -> list (list Z) -> Z -> Z -> Prop :=
| at_end h p : 0 <= p < plen -> rd buf p = Ok 0 -> name_at buf plen h p [] (p + 1) (p + 1)
| at_label h p l ls t e : 0 <= p -> p + 1 + l <= plen -> rd buf p = Ok l -> 0 < l < 64 ->
    name_at buf plen h (p + 1 + l) ls t e ->
    name_at buf plen h p (take (Z.to_nat l) (drop (Z.to_nat (p + 1)) buf) :: ls) t e
| at_pointer h p l b ls t e : 0 <= p -> p + 2 <= plen -> rd buf p = Ok l -> 192 <= l < 256 ->
    rd buf (p + 1) = Ok b -> h < 255 ->
    name_at buf plen (h + 1) ((l - 192) * 256 + b) ls t e ->
    name_at buf plen h p ls t (p + 2).

(** The characters that [extract_name] lets through. *)
Definition label_char (c : Z) : Prop := 32 <= c < 127 /\ c <> 46.

(** ** Bytes *)

Lemma byte_all (P : Z -> Prop) `{!forall b, Decision (P b)} b : bool_decide (Forall P (seqZ 0 256)) -> is_byte b -> P b.
Proof.
  intros Hall%bool_decide_unpack Hb. rewrite Forall_forall in Hall. apply Hall, elem_of_seqZ. unfold is_byte in Hb. lia.
Qed.

(** The two top bits of a byte, and the others. *)
Lemma label_bits l : is_byte l -> Z.land l 0xc0 = (l / 64) * 64 /\ Z.land l 0x3f = l `mod` 64.
Proof. apply (byte_all (fun l => Z.land l 0xc0 = (l / 64) * 64 /\ Z.land l 0x3f = l `mod` 64)). by vm_compute. Qed.

Lemma lor_low x b k : 0 <= k -> 0 <= b < 2 ^ k -> Z.lor (Z.shiftl x k) b = x * 2 ^ k + b.
Proof.
  intros Hk Hb. assert (Z.land (Z.shiftl x k) b = 0) as H0.
  { apply Z.bits_inj'. intros n Hn. rewrite Z.land_spec, Z.bits_0. destruct (Z.lt_ge_cases n k).
    - by rewrite Z.shiftl_spec_low.
    - rewrite <- (Z.mod_small b (2 ^ k)) by lia. rewrite Z.mod_pow2_bits_high by lia. apply andb_false_r. }
  rewrite <- Z.lxor_lor, <- Z.add_nocarry_lxor by done. by rewrite Z.shiftl_mul_pow2.
Qed.

Lemma pointer_bits l b : is_byte l -> 192 <= l -> is_byte b ->
  Z.lor (Z.shiftl (Z.land l 0x3f) 8) b = (l - 192) * 256 + b.
Proof.
  intros Hl H Hb. destruct (label_bits l Hl) as [_ ->]. unfold is_byte in *.
  assert (l `mod` 64 = l - 192) as -> by (symmetry; apply (Z.mod_unique_pos l 64 3); lia).
  by rewrite lor_low by lia.
Qed.

(** The kind of a length byte. *)
Lemma label_kind l : is_byte l ->
  (0 <= l < 64 /\ Z.land l 0xc0 = 0) \/ (64 <= l < 128 /\ Z.land l 0xc0 = 0x40) \/
  (128 <= l < 192 /\ Z.land l 0xc0 = 0x80) \/ (192 <= l < 256 /\ Z.land l 0xc0 = 0xc0).
Proof.
  intros Hl. destruct (label_bits l Hl) as [-> _]. unfold is_byte in Hl.
  assert (l / 64 = 0 /\ l < 64 \/ l / 64 = 1 /\ 64 <= l < 128 \/ l / 64 = 2 /\ 128 <= l < 192 \/ l / 64 = 3 /\ 192 <= l) as H
    by (pose proof (Z.div_mod l 64); pose proof (Z.mod_pos_bound l 64); lia).
  lia.
Qed.

(** ** Decoding *)

Lemma label_extract_ok lab buf p name cp : Forall label_char lab -> 0 <= p -> take (length lab) (drop (Z.to_nat p) buf) = lab ->
  0 <= cp -> cp + zlen lab <= zlen name ->
  label_extract (length lab) buf p name cp = Ok (true, blit name (Z.to_nat cp) lab, cp + zlen lab).
Proof.
  revert p name cp. induction lab as [|c lab IH]; intros p name cp Hc Hp Hb Hcp Hl; cbn [label_extract length].
  { by rewrite blit_nil, zlen_nil, Z.add_0_r. }
  apply Forall_cons in Hc as [Hc Hcs]. rewrite zlen_cons in *. pose proof (zlen_nonneg lab).
  destruct (drop (Z.to_nat p) buf) as [|x r] eqn:Hd; [done|]. cbn [length take] in Hb. injection Hb as -> Hr.
  assert (rd buf p = Ok c) as ->.
  { unfold rd, getb. rewrite (proj2 (Z.leb_le 0 p)) by done. rewrite <- (Nat.add_0_r (Z.to_nat p)), <- lookup_drop, Hd. done. }
  cbn [mbind comp_bind]. destruct Hc as [Hc1 Hc2]. unfold isascii, iscntrl.
  rewrite (proj2 (Z.ltb_lt c 128)), (proj2 (Z.ltb_ge c 32)), (proj2 (Z.eqb_neq c 127)), (proj2 (Z.eqb_neq c 46)) by lia.
  cbn [andb orb negb]. rewrite wr_ok by lia. cbn [mbind comp_bind].
  rewrite IH; [|done|lia| |lia|unfold zlen in *; rewrite length_insert; lia].
  - replace (Z.to_nat (cp + 1)) with (S (Z.to_nat cp)) by lia. rewrite blit_cons by (unfold zlen in *; lia). by rewrite Z.add_assoc.
  - replace (Z.to_nat (p + 1)) with (Z.to_nat p + 1)%nat by lia. rewrite <- drop_drop, Hd. done.
Qed.

(** What is left of the fuel covers the rest of the walk. *)
Definition fuel_left (plen h p : Z) : Z := (255 - h) * (plen + 2) + Z.max 0 (plen + 1 - p).

(** The decoded name behind what is there: the labels with their dots, the
    last one overwritten by the NUL. *)
Definition finish_name (name : list Z) (cp : Z) (text : list Z) : list Z :=
  <[Z.to_nat (Z.max 0 (cp + zlen text - 1)) := 0]> (blit name (Z.to_nat cp) text).

Lemma extract_loop_at buf plen extrabytes pp h p ls t e : name_at buf plen h p ls t e ->
  bytes buf -> plen <= zlen buf -> Forall (Forall label_char) ls -> t + extrabytes <= plen ->
  forall fuel p1 name cp, fuel_left plen h p < Z.of_nat fuel -> h <= 255 ->
  0 <= cp -> cp + zlen (dotted ls) < MAXDNAME -> MAXDNAME <= zlen name ->
  extract_loop buf plen true extrabytes pp fuel p p1 h name cp 1 = Ok (1, default e p1, finish_name name cp (dotted ls)).
Proof.
  intros Hat Hb Hbl. induction Hat as [h p Hp Hr|h p l ls t e Hp Hpl Hr Hl Hat IH|h p l b ls t e Hp Hpl Hr Hl Hr2 Hh Hat IH];
    intros Hls Ht fuel p1 name cp Hf Hh255 Hcp Hmax Hname; unfold fuel_left in *;
    (destruct fuel as [|fuel]; [nia|]); cbn [extract_loop]; unfold CHECK_LEN.
  - rewrite (proj2 (Z.leb_le (p + 1) plen)), Hr by lia. cbn [negb mbind comp_bind Z.eqb].
    rewrite (proj2 (Z.leb_le (p + 1 + extrabytes) plen)) by lia. cbn [negb]. change (dotted []) with (@nil Z). unfold finish_name.
    change (zlen (@nil Z)) with 0 in *. rewrite blit_nil, Z.add_0_r in *. unfold MAXDNAME in *.
    destruct (cp =? 0) eqn:E; zbool; rewrite wr_ok by lia; cbn [mbind comp_bind mret comp_ret]; do 3 f_equal; lia.
  - apply Forall_cons in Hls as [Hlab Hls]. set (lab := take (Z.to_nat l) (drop (Z.to_nat (p + 1)) buf)) in *.
    assert (length lab = Z.to_nat l) as Hll by (unfold lab; rewrite length_take, length_drop; unfold zlen in *; lia).
    change (dotted (lab :: ls)) with ((lab ++ [46]) ++ dotted ls) in *. zlens. pose proof (zlen_nonneg (dotted ls)).
    assert (zlen lab = l) as Hzl by (unfold zlen; lia). rewrite Hzl in *.
    rewrite (proj2 (Z.leb_le (p + 1) plen)), Hr by lia. cbn [negb mbind comp_bind]. rewrite (proj2 (Z.eqb_neq l 0)) by lia.
    rewrite land_63 by lia. change (0 =? 0xc0) with false. change (0 =? 0x80) with false. change (0 =? 0x40) with false. cbv iota zeta.
    unfold MAXDNAME in *. rewrite (proj2 (Z.leb_gt _ _)) by lia. rewrite (proj2 (Z.leb_le _ _)) by lia. cbn [negb].
    rewrite <- Hll. rewrite label_extract_ok; [|done|lia|by rewrite Hll|lia|lia]. cbn [mbind comp_bind].
    rewrite wr_ok by (unfold zlen in *; rewrite length_blit by lia; lia). cbn [mbind comp_bind]. rewrite Hzl.
    assert (<[Z.to_nat (cp + l):=46]> (blit name (Z.to_nat cp) lab) = blit name (Z.to_nat cp) (lab ++ [46])) as ->.
    { replace (Z.to_nat (cp + l)) with (Z.to_nat cp + length lab)%nat by lia.
      rewrite <- (blit_blit name (Z.to_nat cp) lab [46]) by (unfold zlen in *; cbn; lia).
      rewrite <- blit_cons by (rewrite length_blit; unfold zlen in *; lia). by rewrite blit_nil. }
    rewrite IH; [|done|done|nia|done|lia|lia|unfold zlen in *; rewrite length_blit; [lia|rewrite length_app; cbn; lia]].
    do 2 f_equal. unfold finish_name. f_equal. { f_equal. zlens. lia. }
    replace (Z.to_nat (cp + l + 1)) with (Z.to_nat cp + length (lab ++ [46%Z]))%nat by (rewrite length_app; cbn; lia).
    rewrite blit_blit; [done|]. unfold zlen in *. rewrite length_app. cbn. lia.
  - assert (is_byte l) as Hlb by (unfold is_byte; lia). pose proof (rd_byte _ _ _ Hb Hr2) as Hbb.
    rewrite (proj2 (Z.leb_le (p + 1) plen)), Hr by lia. cbn [negb mbind comp_bind]. rewrite (proj2 (Z.eqb_neq l 0)) by lia.
    destruct (label_kind l Hlb) as [[? _]|[[? _]|[[? _]|[_ ->]]]]; [lia..|]. rewrite Z.eqb_refl.
    rewrite (proj2 (Z.leb_le (p + 1 + 1) plen)), Hr2 by lia. cbn [negb mbind comp_bind]. cbv zeta.
    rewrite (proj2 (Z.ltb_ge 255 (h + 1))) by lia. rewrite pointer_bits by (done || lia).
    rewrite IH; [|done|done|unfold is_byte in Hbb; nia|lia|lia|done|done].
    do 3 f_equal. destruct p1; [done|]. cbn. lia.
Qed.

Lemma name_at_wf buf plen h p ls t e : name_at buf plen h p ls t e -> plen <= zlen buf ->
  Forall (Forall label_char) ls -> Forall wf_label ls.
Proof.
  intros Hat Hbl. induction Hat as [| |]; intros Hls; [constructor| |by auto].
  apply Forall_cons in Hls as [Hlab Hls]. constructor; [|by auto]. split.
  - unfold zlen in *. rewrite length_take, length_drop. lia.
  - eapply Forall_impl; [exact Hlab|]. unfold label_char. intros c Hc. cbn in Hc. lia.
Qed.

Lemma cstr_finish name ls : Forall wf_label ls -> zlen (dotted ls) < zlen name ->
  cstr (finish_name name 0 (dotted ls)) = join_dots ls.
Proof.
  intros Hwf Hl. unfold finish_name. change (Z.to_nat 0) with O. rewrite Z.add_0_l. destruct (decide (ls = [])) as [->|Hne].
  - rewrite blit_nil. destruct name as [|x name]; [unfold zlen in Hl; cbn in Hl; lia|]. done.
  - pose proof (dotted_nonempty ls Hne Hwf). rewrite Z.max_r by lia. by apply cstr_decoded.
Qed.

(** ** Memory safety *)

Lemma take_blit name cp bs : (cp + length bs <= length name)%nat ->
  take (cp + length bs) (blit name cp bs) = take cp name ++ bs.
Proof.
  intros H. unfold blit. rewrite app_assoc. apply take_app_length'. rewrite length_app, length_take. lia.
Qed.

Lemma bit_digits_ok buf n : bytes buf -> forall (even : bool) p name cp, 0 <= p ->
  p + (Z.of_nat n + (if even then 1 else 2)) / 2 <= zlen buf -> 0 <= cp -> cp + Z.of_nat n <= zlen name ->
  exists ds p', length ds = n /\ Forall name_char ds /\ p <= p' <= p + (Z.of_nat n + (if even then 1 else 2)) / 2 /\
    bit_digits n even buf p name cp = Ok (blit name (Z.to_nat cp) ds, p', cp + Z.of_nat n).
Proof.
  intros Hb. induction n as [|n IH]; intros even p name cp Hp Hr Hcp Hw; cbn [bit_digits].
  { exists [], p. rewrite blit_nil, Z.add_0_r. split_and!; try done; destruct even; Z.div_mod_to_equations; lia. }
  assert (1 <= (Z.of_nat (S n) + (if even then 1 else 2)) / 2) as H1
    by (apply Z.div_le_lower_bound; destruct even; lia).
  destruct (rd_ok buf p) as (b & Hrd & _); [lia|]. rewrite Hrd. pose proof (rd_byte _ _ _ Hb Hrd) as Hbb. cbn [mbind comp_bind].
  set (dig := if even then Z.shiftr b 4 else Z.land b 0x0f).
  assert (0 <= dig < 16) as Hdig.
  { unfold is_byte in Hbb. unfold dig. destruct even.
    - rewrite Z.shiftr_div_pow2 by lia. split; [apply Z.div_pos; lia|apply Z.div_lt_upper_bound; lia].
    - change 0x0f with (Z.ones 4). rewrite Z.land_ones by lia. apply Z.mod_pos_bound. lia. }
  set (ch := if dig <? 10 then dig + 48 else dig + 65 - 10).
  assert (name_char ch) as Hch by (unfold ch, name_char; case_if; zbool; lia).
  rewrite wr_ok by lia. cbn [mbind comp_bind].
  assert ((if even then p else p + 1) + (Z.of_nat n + (if negb even then 1 else 2)) / 2 =
    p + (Z.of_nat (S n) + (if even then 1 else 2)) / 2) as Hstep.
  { destruct even; cbn [negb]; [do 2 f_equal; lia|].
    replace (Z.of_nat (S n) + 2) with (Z.of_nat n + 1 + 1 * 2) by lia. rewrite Z.div_add by lia. lia. }
  destruct (IH (negb even) (if even then p else p + 1) (<[Z.to_nat cp:=ch]> name) (cp + 1)) as (ds & p' & Hl & Hds & Hp' & ->);
    [destruct even; lia|lia|lia|unfold zlen in *; rewrite length_insert; lia|].
  exists (ch :: ds), p'. split; [cbn; lia|]. split; [by constructor|]. split; [destruct even; lia|].
  replace (Z.to_nat (cp + 1)) with (S (Z.to_nat cp)) by lia. rewrite blit_cons by (unfold zlen in *; lia).
  do 2 f_equal. lia.
Qed.

Lemma dec_count count : 1 <= count <= 256 -> zlen (dec count) <= 3 /\ Forall name_char (dec count).
Proof.
  intros H. assert (Forall (fun n => zlen (dec n) <= 3 /\ Forall name_char (dec n)) (seqZ 1 256)) as Hall.
  { unfold name_char. by_decide. }
  rewrite Forall_forall in Hall. apply Hall, elem_of_seqZ. lia.
Qed.

Lemma label_extract_safe buf n : bytes buf -> forall p name cp, 0 <= p -> p + Z.of_nat n <= zlen buf ->
  0 <= cp -> cp + Z.of_nat n <= zlen name ->
  exists ok name' cp', label_extract n buf p name cp = Ok (ok, name', cp') /\ zlen name' = zlen name /\
    (ok = true -> exists lab, length lab = n /\ Forall name_char lab /\ name' = blit name (Z.to_nat cp) lab /\
       cp' = cp + Z.of_nat n).
Proof.
  intros Hb. induction n as [|n IH]; intros p name cp Hp Hr Hcp Hw; cbn [label_extract].
  { exists true, name, cp. split; [done|]. split; [done|]. intros _. exists []. rewrite blit_nil. split_and!; [done..|lia]. }
  destruct (rd_ok buf p) as (c & Hrd & _); [lia|]. rewrite Hrd. pose proof (rd_byte _ _ _ Hb Hrd) as Hc. cbn [mbind comp_bind].
  destruct (isascii c && negb (iscntrl c) && negb (c =? 46)) eqn:E; [|by exists false, name, cp].
  assert (name_char c) as Hch by (unfold isascii, iscntrl, name_char, is_byte in *; zbool; lia).
  rewrite wr_ok by lia. cbn [mbind comp_bind].
  destruct (IH (p + 1) (<[Z.to_nat cp:=c]> name) (cp + 1)) as (ok & name' & cp' & -> & Hl & Hok);
    [lia|lia|lia|unfold zlen in *; rewrite length_insert; lia|].
  exists ok, name', cp'. split; [done|]. split; [unfold zlen in *; by rewrite length_insert in Hl|].
  intros ->. destruct Hok as (lab & Hll & Hlab & -> & ->); [done|]. exists (c :: lab).
  split; [cbn; lia|]. split; [by constructor|]. split; [|lia].
  replace (Z.to_nat (cp + 1)) with (S (Z.to_nat cp)) by lia. by rewrite blit_cons by (unfold zlen in *; lia).
Qed.

(** What a successful decoding leaves in the name. *)
Definition extracted (name : list Z) : Prop :=
  exists s rest, name = s ++ 0 :: rest /\ Forall name_char s /\ zlen s < MAXDNAME - 1.

Lemma extracted_end name cp : 0 <= cp < MAXDNAME -> MAXDNAME <= zlen name -> Forall name_char (take (Z.to_nat cp) name) ->
  exists name', wr name (if cp =? 0 then cp else cp - 1) 0 = Ok name' /\ zlen name' = zlen name /\ extracted name'.
Proof.
  unfold MAXDNAME. intros Hcp Hl Hf. set (i := if cp =? 0 then cp else cp - 1).
  assert (0 <= i < 1024 /\ i <= cp) as Hi by (unfold i; case_if; zbool; lia).
  rewrite wr_ok by lia. eexists. split; [done|]. split; [unfold zlen; by rewrite length_insert|].
  exists (take (Z.to_nat i) name), (drop (S (Z.to_nat i)) name). split; [apply insert_take_drop; unfold zlen in *; lia|].
  split; [|unfold zlen, MAXDNAME; rewrite length_take; lia].
  replace (take (Z.to_nat i) name) with (take (Z.to_nat i) (take (Z.to_nat cp) name)); [by apply Forall_take|].
  rewrite take_take. f_equal. lia.
Qed.

(** Appending to the text in front of [cp]. *)
Lemma prefix_blit name cp bs : Forall name_char (take (Z.to_nat cp) name) -> Forall name_char bs ->
  0 <= cp -> cp + zlen bs <= zlen name ->
  Forall name_char (take (Z.to_nat (cp + zlen bs)) (blit name (Z.to_nat cp) bs)) /\
  zlen (blit name (Z.to_nat cp) bs) = zlen name.
Proof.
  intros Hf Hbs Hcp Hl. replace (Z.to_nat (cp + zlen bs)) with (Z.to_nat cp + length bs)%nat by (unfold zlen in *; lia).
  rewrite take_blit by (unfold zlen in *; lia). split; [by apply Forall_app|].
  unfold zlen in *. rewrite length_blit; lia.
Qed.

Lemma prefix_insert name cp c : Forall name_char (take (Z.to_nat cp) name) -> name_char c -> 0 <= cp < zlen name ->
  Forall name_char (take (Z.to_nat (cp + 1)) (<[Z.to_nat cp := c]> name)) /\ zlen (<[Z.to_nat cp := c]> name) = zlen name.
Proof.
  intros Hf Hc Hcp. rewrite <- (blit_nil (<[Z.to_nat cp := c]> name) (S (Z.to_nat cp))).
  rewrite blit_cons by (unfold zlen in *; lia). apply (prefix_blit name cp [c]); [done|by constructor|lia|unfold zlen; cbn; unfold zlen in *; lia].
Qed.

(** A bit string of [count] bits: [wrs], the digits, [sprintf] and the dot. *)
Lemma bitstring_safe buf plen p count name cp : bytes buf -> plen < zlen buf -> 1 <= count <= 256 -> 0 <= p ->
  p + Z.shiftr (count - 1) 3 <= plen -> 0 <= cp -> cp + (Z.shiftr (count - 1) 2 + 1) + 9 < MAXDNAME -> MAXDNAME <= zlen name ->
  Forall name_char (take (Z.to_nat cp) name) ->
  exists name1 p' name2 name3,
    wrs name cp [92; 91; 120] = Ok name1 /\
    bit_digits (Z.to_nat (Z.shiftr (count - 1) 2 + 1)) true buf p name1 (cp + 3) =
      Ok (name2, p', cp + 3 + (Z.shiftr (count - 1) 2 + 1)) /\ p <= p' /\
    let cp2 := cp + 3 + (Z.shiftr (count - 1) 2 + 1) in let text := 47 :: dec count ++ [93] in
    wrs name2 cp2 (text ++ [0]) = Ok name3 /\ cp < cp2 + zlen text < MAXDNAME - 1 /\
    exists name4, wr name3 (cp2 + zlen text) 46 = Ok name4 /\ zlen name4 = zlen name /\
      Forall name_char (take (Z.to_nat (cp2 + zlen text + 1)) name4).
Proof.
  intros Hb Hpl Hc Hp Hcheck Hcp Hmax Hname Hf. rewrite !Z.shiftr_div_pow2 in * by lia.
  change (2 ^ 2) with 4 in *. change (2 ^ 3) with 8 in *. unfold MAXDNAME in *.
  set (digs := (count - 1) / 4 + 1) in *. assert (1 <= digs) as Hd1 by (unfold digs; pose proof (Z.div_pos (count - 1) 4); lia).
  rewrite wrs_ok by (unfold zlen in *; cbn; lia). destruct (prefix_blit name cp [92; 91; 120]) as [Hf1 Hl1]; [done|by_decide|lia|unfold zlen in *; cbn; lia|].
  change (zlen [92; 91; 120]) with 3 in Hf1. set (name1 := blit name _ _) in *.
  destruct (bit_digits_ok buf (Z.to_nat digs) Hb true p name1 (cp + 3)) as (ds & p' & Hdl & Hds & Hp' & He); [done| |lia|lia|].
  { rewrite Z2Nat.id by lia. unfold digs. Z.div_mod_to_equations. lia. }
  rewrite Z2Nat.id in He by lia. destruct (prefix_blit name1 (cp + 3) ds) as [Hf2 Hl2]; [done|done|lia|unfold zlen in *; lia|].
  assert (zlen ds = digs) as Hzd by (unfold zlen; lia). rewrite Hzd in Hf2. set (name2 := blit name1 _ _) in *.
  destruct (dec_count count Hc) as [Hdc1 Hdc2]. set (text := 47 :: dec count ++ [93]).
  assert (Forall name_char text) as Htext by (constructor; [by_decide|]; apply Forall_app; split; [done|by_decide]).
  assert (0 < zlen text <= 5) as Htl.
  { unfold text. rewrite zlen_cons, zlen_app. change (zlen [93]) with 1. pose proof (zlen_nonneg (dec count)). lia. }
  exists name1, p', name2, (blit name2 (Z.to_nat (cp + 3 + digs)) (text ++ [0])). split; [done|]. split; [done|]. split; [lia|].
  cbv zeta. clearbody text digs name2.
  assert (cp + 3 + digs + zlen (text ++ [0]) <= zlen name2) as Hfit by (rewrite zlen_app; change (zlen [0]) with 1; lia).
  rewrite wrs_ok by lia. split; [done|]. split; [lia|].
  assert (zlen (blit name2 (Z.to_nat (cp + 3 + digs)) (text ++ [0])) = zlen name2) as Hl3 by (unfold zlen in *; rewrite length_blit; lia).
  rewrite wr_ok by lia. eexists. split; [done|].
  destruct (prefix_blit name2 (cp + 3 + digs) text) as [Hf3 Hl3']; [done|done|lia|lia|].
  replace (Z.to_nat (cp + 3 + digs + zlen text)) with (Z.to_nat (cp + 3 + digs) + length text)%nat by (unfold zlen in *; lia).
  rewrite <- blit_blit by (rewrite zlen_app in Hfit; change (zlen [0]) with 1 in Hfit; unfold zlen in *; cbn; lia).
  set (name3 := blit name2 _ text) in *.
  assert (<[(Z.to_nat (cp + 3 + digs) + length text)%nat:=46]> (blit name3 (Z.to_nat (cp + 3 + digs) + length text) [0]) =
    <[Z.to_nat (cp + 3 + digs + zlen text):=46]> name3) as ->.
  { rewrite <- blit_cons, blit_nil by (unfold zlen in *; lia). rewrite list_insert_insert_eq. f_equal. unfold zlen. lia. }
  destruct (prefix_insert name3 (cp + 3 + digs + zlen text) 46) as [? ?]; [done|by_decide|lia|]. split; [lia|done].
Qed.

Lemma extract_loop_safe buf plen extrabytes pp : bytes buf -> 0 <= plen < zlen buf -> 0 <= extrabytes -> 0 <= pp ->
  forall fuel p p1 h name cp, fuel_left plen h p < Z.of_nat fuel -> h <= 255 -> 0 <= p ->
  match p1 with Some q => pp < q <= plen | None => pp <= p end ->
  0 <= cp < MAXDNAME -> MAXDNAME <= zlen name -> Forall name_char (take (Z.to_nat cp) name) ->
  exists r q name', extract_loop buf plen true extrabytes pp fuel p p1 h name cp 1 = Ok (r, q, name') /\
    zlen name' = zlen name /\ (r = 0 /\ q = pp \/ r = 1 /\ pp < q <= plen /\ extracted name').
Proof.
  intros Hb Hpl Hex Hpp. induction fuel as [|fuel IH]; intros p p1 h name cp Hf Hh Hp Hp1 Hcp Hname Hpre; unfold fuel_left in *;
    [nia|]. cbn [extract_loop]. unfold CHECK_LEN.
  assert (Hfail : exists r q name', Ok (0, pp, name) = Ok (r, q, name') /\ zlen name' = zlen name /\
    (r = 0 /\ q = pp \/ r = 1 /\ pp < q <= plen /\ extracted name')) by (exists 0, pp, name; auto).
  destruct (p + 1 <=? plen) eqn:E1; zbool; cbn [negb]; [|done].
  destruct (rd_ok buf p) as (l & Hl & _); [lia|]. rewrite Hl. pose proof (rd_byte _ _ _ Hb Hl) as Hlb. cbn [mbind comp_bind].
  destruct (l =? 0) eqn:E0; zbool.
  { destruct (p + 1 + extrabytes <=? plen) eqn:E2; zbool; cbn [negb]; [|done].
    destruct (extracted_end name cp Hcp Hname Hpre) as (name' & -> & Hl' & Hx). cbn [mbind comp_bind mret comp_ret].
    exists 1, (default (p + 1) p1), name'. split; [done|]. split; [done|]. right. split; [done|]. split; [|done].
    destruct p1; cbn; lia. }
  destruct (label_kind l Hlb) as [[Hk ->]|[[Hk ->]|[[Hk ->]|[Hk ->]]]]; cbv zeta; cbn [Z.eqb Pos.eqb]; [| |done|].
  - destruct (MAXDNAME <=? cp + l + 1) eqn:E2; zbool; [done|]. destruct (p + 1 + l <=? plen) eqn:E3; zbool; cbn [negb]; [|done].
    destruct (label_extract_safe buf (Z.to_nat l) Hb (p + 1) name cp) as (ok & name1 & cp1 & -> & Hl1 & Hok); [lia|lia|lia|lia|].
    cbn [mbind comp_bind]. destruct ok; [|exists 0, pp, name1; auto].
    destruct Hok as (lab & Hll & Hlab & -> & ->); [done|]. rewrite Z2Nat.id by lia.
    assert (zlen lab = l) as Hzl by (unfold zlen; lia).
    destruct (prefix_blit name cp lab) as [Hf1 Hl2]; [done|done|lia|lia|]. rewrite Hzl in Hf1.
    rewrite wr_ok by lia. cbn [mbind comp_bind].
    destruct (prefix_insert (blit name (Z.to_nat cp) lab) (cp + l) 46) as [Hf2 Hl3]; [done|by_decide|lia|].
    destruct (IH (p + 1 + l) p1 h (<[Z.to_nat (cp + l):=46]> (blit name (Z.to_nat cp) lab)) (cp + l + 1)) as (r & q & name' & -> & Hlen & Hr);
      [nia|lia|lia|destruct p1; lia|lia|lia|done|]. exists r, q, name'. split; [done|]. split; [lia|done].
  - destruct (negb (Z.land l 63 =? 1)); [done|]. cbn [negb].
    destruct (rd_ok buf (p + 1)) as (cnt & Hcnt & _); [lia|]. rewrite Hcnt. pose proof (rd_byte _ _ _ Hb Hcnt) as Hcb. cbn [mbind comp_bind].
    set (count := if cnt =? 0 then 256 else cnt). assert (1 <= count <= 256) as Hcount
      by (unfold count, is_byte in *; case_if; zbool; lia).
    destruct (MAXDNAME <=? cp + (Z.shiftr (count - 1) 2 + 1) + 9) eqn:E2; zbool; [done|].
    destruct (p + 1 + 1 + Z.shiftr (count - 1) 3 <=? plen) eqn:E3; zbool; cbn [negb]; [|done].
    destruct (bitstring_safe buf plen (p + 1 + 1) count name cp) as (n1 & p' & n2 & n3 & Hw1 & Hbits & Hp' & Hw3 & Hcp2 & n4 & Hw4 & Hl4 & Hf4);
      [done|lia|done|lia|lia|lia|lia|done|done|].
    rewrite Hw1. cbn [mbind comp_bind]. rewrite Hbits. cbn [mbind comp_bind]. rewrite Hw3. cbn [mbind comp_bind]. rewrite Hw4.
    cbn [mbind comp_bind].
    destruct (IH p' p1 h n4 (cp + 3 + (Z.shiftr (count - 1) 2 + 1) + zlen (47 :: dec count ++ [93]) + 1)) as (r & q & name' & -> & Hlen & Hr);
      [nia|lia|lia|destruct p1; lia|lia|lia|done|]. exists r, q, name'. split; [done|]. split; [lia|done].
  - destruct (p + 1 + 1 <=? plen) eqn:E2; zbool; cbn [negb]; [|done].
    destruct (rd_ok buf (p + 1)) as (b & Hrb & _); [lia|]. rewrite Hrb. pose proof (rd_byte _ _ _ Hb Hrb) as Hbb. cbn [mbind comp_bind].
    destruct (255 <? h + 1) eqn:E3; zbool; [done|]. rewrite pointer_bits by (done || lia). unfold is_byte in *.
    apply IH; [nia|lia|lia|destruct p1; lia|lia|done|done].
Qed.

(** ** Comparing *)

(** Whether what is left of the name consists of the labels: each followed by
    a dot or the end of the name. *)
Fixpoint name_matches (w : list Z) (ls : list (list Z)) : bool :=
  match ls with
  | [] => bool_decide (w = [])
  | lab :: ls' =>
      bool_decide (tolower <$> take (length lab) w = tolower <$> lab) &&
      match drop (length lab) w with
      | [] => name_matches [] ls'
      | c :: w' => (c =? 46) && name_matches w' ls'
      end
  end.

Lemma name_matches_spec ls : forall w, Forall (fun lab => lab <> []) ls ->
  name_matches w ls = true <-> tolower <$> w = tolower <$> join_dots ls \/ tolower <$> w = tolower <$> dotted ls.
Proof.
  assert (Hnil : forall lab ls, lab <> [] -> name_matches [] (lab :: ls) = false).
  { intros lab ls' Hne. cbn [name_matches]. rewrite bool_decide_false; [done|]. rewrite take_nil. by destruct lab. }
  assert (Hlow46 : forall c, tolower c = 46 <-> c = 46).
  { intros c. unfold tolower, isupper. case_if; zbool; lia. }
  induction ls as [|lab ls IH]; intros w Hne.
  { cbn [name_matches]. change (join_dots []) with (@nil Z). change (dotted []) with (@nil Z). cbn [fmap list_fmap].
    rewrite bool_decide_eq_true. split; [intros ->; by left|]. by intros [H|H]; destruct w. }
  apply Forall_cons in Hne as [Hlab Hne]. cbn [name_matches]. rewrite andb_true_iff, bool_decide_eq_true.
  assert (Hjoin : join_dots (lab :: ls) = lab ++ match ls with [] => [] | _ => 46 :: join_dots ls end).
  { destruct ls; [by rewrite join_dots_single, app_nil_r|by rewrite join_dots_cons2]. }
  rewrite Hjoin. change (dotted (lab :: ls)) with ((lab ++ [46]) ++ dotted ls). rewrite !fmap_app.
  assert (tolower <$> w = (tolower <$> take (length lab) w) ++ (tolower <$> drop (length lab) w)) as Hw
    by (by rewrite <- fmap_app, take_drop).
  rewrite Hw. split.
  - intros [-> Hd]. destruct (drop (length lab) w) as [|c w'].
    + destruct ls as [|l2 ls]; [left; by rewrite app_nil_r|]. apply Forall_cons in Hne as [H2 _]. by rewrite Hnil in Hd.
    + zbool. subst c. apply IH in H0 as [E|E]; [| |done].
      * destruct ls as [|l2 ls]; [|left; cbn [fmap list_fmap] in *; by rewrite E].
        right. destruct w'; [|done]. by rewrite !app_nil_r.
      * right. cbn [fmap list_fmap]. rewrite E. by rewrite <- app_assoc.
  - intros Hor. assert (length (tolower <$> take (length lab) w) = length (tolower <$> lab) \/
      (length w < length lab)%nat) as [Hlen|Hlen] by (rewrite !length_fmap, length_take; lia).
    2: { exfalso. rewrite drop_ge in Hor by lia. cbn [fmap list_fmap] in Hor. rewrite app_nil_r in Hor.
         destruct Hor as [E|E]; apply (f_equal length) in E; rewrite !length_app, !length_fmap, length_take in E; lia. }
    destruct Hor as [E|E].
    + apply app_inj_1 in E as [-> E]; [|done]. split; [done|].
      destruct ls as [|l2 ls]; [by destruct (drop (length lab) w)|].
      destruct (drop (length lab) w) as [|c w']; [done|]. cbn [fmap list_fmap] in E. injection E as Ec E.
      apply andb_true_iff. split; [apply Z.eqb_eq; by apply Hlow46|]. apply IH; [done|]. by left.
    + rewrite <- app_assoc in E. apply app_inj_1 in E as [-> E]; [|done]. split; [done|].
      destruct (drop (length lab) w) as [|c w']; [done|]. cbn [fmap list_fmap app] in E. injection E as Ec E.
      apply andb_true_iff. split; [apply Z.eqb_eq; by apply Hlow46|]. apply IH; [done|]. by right.
Qed.

Lemma label_compare_ok lab buf : forall p s rest cp ret, 0 <= p -> take (length lab) (drop (Z.to_nat p) buf) = lab ->
  nonul s -> 0 <= cp <= zlen s ->
  label_compare (length lab) buf p (s ++ 0 :: rest) cp ret =
    Ok (cp + Z.min (zlen lab) (zlen s - cp),
        if bool_decide (tolower <$> take (length lab) (drop (Z.to_nat cp) s) = tolower <$> lab) then ret else 2).
Proof.
  induction lab as [|x lab IH]; intros p s rest cp ret Hp Hb Hs Hcp; cbn [label_compare length].
  { rewrite zlen_nil. do 2 f_equal. lia. }
  destruct (drop (Z.to_nat p) buf) as [|y r] eqn:Hd; [done|]. cbn [length take] in Hb. injection Hb as -> Hr.
  assert (rd buf p = Ok x) as ->.
  { unfold rd, getb. rewrite (proj2 (Z.leb_le 0 p)) by done. rewrite <- (Nat.add_0_r (Z.to_nat p)), <- lookup_drop, Hd. done. }
  assert (take (length lab) (drop (Z.to_nat (p + 1)) buf) = lab) as Hr'.
  { replace (Z.to_nat (p + 1)) with (Z.to_nat p + 1)%nat by lia. by rewrite <- drop_drop, Hd. }
  rewrite zlen_cons. pose proof (zlen_nonneg lab).
  destruct (drop (Z.to_nat cp) s) as [|c w] eqn:Hw.
  - assert (zlen s <= cp) as Hge. { apply (f_equal length) in Hw. rewrite length_drop in Hw. cbn in Hw. unfold zlen. lia. }
    assert (rd (s ++ 0 :: rest) cp = Ok 0) as ->. { replace cp with (zlen s) by lia. apply rd_at. }
    cbn [mbind comp_bind Z.eqb]. rewrite IH by (done || lia). rewrite Hw. cbn [take]. rewrite take_nil.
    rewrite (bool_decide_false (tolower <$> [] = tolower <$> x :: lab)) by done. case_bool_decide; do 2 f_equal; lia.
  - assert (s !! Z.to_nat cp = Some c) as Hc by (rewrite <- (Nat.add_0_r (Z.to_nat cp)), <- lookup_drop, Hw; done).
    assert (cp < zlen s) as Hlt by (apply lookup_lt_Some in Hc; unfold zlen; lia).
    assert (rd (s ++ 0 :: rest) cp = Ok c) as ->.
    { unfold rd, getb. rewrite (proj2 (Z.leb_le 0 cp)) by lia. by rewrite (lookup_app_l_Some _ _ _ _ Hc). }
    assert (c <> 0) as Hc0 by (by apply (Forall_lookup_1 _ _ _ _ Hs Hc)).
    cbn [mbind comp_bind]. rewrite (proj2 (Z.eqb_neq c 0)) by done. rewrite IH by (done || lia).
    replace (Z.to_nat (cp + 1)) with (Z.to_nat cp + 1)%nat by lia. rewrite <- drop_drop, Hw. cbn [take drop fmap list_fmap]. rewrite ?drop_0.
    f_equal. f_equal; [lia|]. destruct (tolower c =? tolower x) eqn:E; zbool.
    + case_bool_decide as H1; case_bool_decide as H2; try done; [|by injection H2 as _ ?]. exfalso. apply H2. by rewrite E, H1.
    + rewrite (bool_decide_false (tolower c :: _ = _)) by (intros H1; by injection H1 as ?). by case_bool_decide.
Qed.

Lemma drop_at (s : list Z) (i : Z) c w : drop (Z.to_nat i) s = c :: w -> 0 <= i ->
  s !! Z.to_nat i = Some c /\ drop (Z.to_nat (i + 1)) s = w /\ i < zlen s.
Proof.
  intros Hd Hi. assert (s !! Z.to_nat i = Some c) as Hc by (rewrite <- (Nat.add_0_r (Z.to_nat i)), <- lookup_drop, Hd; done).
  split; [done|]. split; [|apply lookup_lt_Some in Hc; unfold zlen; lia].
  replace (Z.to_nat (i + 1)) with (Z.to_nat i + 1)%nat by lia. by rewrite <- drop_drop, Hd.
Qed.

Lemma rd_name s rest i : 0 <= i <= zlen s -> rd (s ++ 0 :: rest) i = Ok (default 0 (head (drop (Z.to_nat i) s))).
Proof.
  intros Hi. destruct (drop (Z.to_nat i) s) as [|c w] eqn:Hd.
  - assert (zlen s <= i) by (apply (f_equal length) in Hd; rewrite length_drop in Hd; cbn in Hd; unfold zlen; lia).
    replace i with (zlen s) by lia. apply rd_at.
  - destruct (drop_at s i c w Hd) as (Hc & _); [lia|]. unfold rd, getb. rewrite (proj2 (Z.leb_le 0 i)) by lia.
    by rewrite (lookup_app_l_Some _ _ _ _ Hc).
Qed.

Lemma compare_loop_at buf plen extrabytes pp s rest h p ls t e : name_at buf plen h p ls t e ->
  bytes buf -> plen <= zlen buf -> t + extrabytes <= plen -> nonul s ->
  forall fuel p1 cp ret, fuel_left plen h p < Z.of_nat fuel -> h <= 255 ->
  0 <= cp <= zlen s -> cp + zlen (dotted ls) < MAXDNAME -> (ret = 1 \/ ret = 2) ->
  extract_loop buf plen false extrabytes pp fuel p p1 h (s ++ 0 :: rest) cp ret =
    Ok (if name_matches (drop (Z.to_nat cp) s) ls then ret else 2, default e p1, s ++ 0 :: rest).
Proof.
  intros Hat Hb Hbl. induction Hat as [h p Hp Hr|h p l ls t e Hp Hpl Hr Hl Hat IH|h p l b ls t e Hp Hpl Hr Hl Hr2 Hh Hat IH];
    intros Ht Hs fuel p1 cp ret Hf Hh255 Hcp Hmax Hret; unfold fuel_left in *;
    (destruct fuel as [|fuel]; [nia|]); cbn [extract_loop]; unfold CHECK_LEN.
  - rewrite (proj2 (Z.leb_le (p + 1) plen)), Hr by lia. cbn [negb mbind comp_bind Z.eqb].
    rewrite (proj2 (Z.leb_le (p + 1 + extrabytes) plen)) by lia. cbn [negb]. rewrite rd_name by done. cbn [mbind comp_bind mret comp_ret].
    cbn [name_matches]. destruct (drop (Z.to_nat cp) s) as [|c w] eqn:Hd; [done|]. cbn [head default from_option id].
    destruct (drop_at s cp c w Hd) as (Hc & _); [lia|]. rewrite (proj2 (Z.eqb_neq _ _)); [done|].
    by apply (Forall_lookup_1 _ _ _ _ Hs Hc).
  - set (lab := take (Z.to_nat l) (drop (Z.to_nat (p + 1)) buf)) in *.
    assert (length lab = Z.to_nat l) as Hll by (unfold lab; rewrite length_take, length_drop; unfold zlen in *; lia).
    change (dotted (lab :: ls)) with ((lab ++ [46]) ++ dotted ls) in *. zlens. pose proof (zlen_nonneg (dotted ls)).
    assert (zlen lab = l) as Hzl by (unfold zlen; lia). rewrite Hzl in *.
    rewrite (proj2 (Z.leb_le (p + 1) plen)), Hr by lia. cbn [negb mbind comp_bind]. rewrite (proj2 (Z.eqb_neq l 0)) by lia.
    rewrite land_63 by lia. change (0 =? 0xc0) with false. change (0 =? 0x80) with false. change (0 =? 0x40) with false. cbv iota zeta.
    unfold MAXDNAME in *. rewrite (proj2 (Z.leb_gt _ _)) by lia. rewrite (proj2 (Z.leb_le _ _)) by lia. cbn [negb].
    rewrite <- Hll. rewrite label_compare_ok; [|lia|by rewrite Hll|done|done]. cbn [mbind comp_bind]. rewrite Hzl.
    cbn [name_matches]. set (cp' := cp + Z.min l (zlen s - cp)). rewrite rd_name by lia. cbn [mbind comp_bind].
    assert (drop (length lab) (drop (Z.to_nat cp) s) = drop (Z.to_nat cp') s) as ->.
    { rewrite drop_drop. unfold cp'. destruct (Z.le_ge_cases l (zlen s - cp)).
      - rewrite Z.min_l by lia. f_equal. lia.
      - rewrite Z.min_r by lia. rewrite !drop_ge; unfold zlen in *; [done|lia|lia]. }
    set (ret1 := if bool_decide _ then ret else 2).
    assert (ret1 = 1 \/ ret1 = 2) as Hret1 by (unfold ret1; case_bool_decide; auto).
    destruct (drop (Z.to_nat cp') s) as [|c w] eqn:Hd; cbn [head default from_option id].
    + rewrite Z.eqb_refl. rewrite IH; [|lia|done|lia|lia|unfold cp'; lia|unfold cp'; lia|done]. rewrite Hd.
      do 3 f_equal. unfold ret1. case_bool_decide; cbn [andb]; [done|]. by destruct (name_matches [] ls).
    + destruct (drop_at s cp' c w Hd) as (Hc & Hd' & Hlt); [unfold cp'; lia|].
      rewrite (proj2 (Z.eqb_neq c 0)) by (by apply (Forall_lookup_1 _ _ _ _ Hs Hc)).
      rewrite IH; [|lia|done|lia|lia|unfold cp' in *; lia|unfold cp' in *; lia|case_if; auto]. rewrite Hd'.
      do 3 f_equal. unfold ret1. case_bool_decide; cbn [andb]; destruct (c =? 46), (name_matches w ls); done.
  - assert (is_byte l) as Hlb by (unfold is_byte; lia). pose proof (rd_byte _ _ _ Hb Hr2) as Hbb.
    rewrite (proj2 (Z.leb_le (p + 1) plen)), Hr by lia. cbn [negb mbind comp_bind]. rewrite (proj2 (Z.eqb_neq l 0)) by lia.
    destruct (label_kind l Hlb) as [[? _]|[[? _]|[[? _]|[_ ->]]]]; [lia..|]. rewrite Z.eqb_refl.
    rewrite (proj2 (Z.leb_le (p + 1 + 1) plen)), Hr2 by lia. cbn [negb mbind comp_bind]. cbv zeta.
    rewrite (proj2 (Z.ltb_ge 255 (h + 1))) by lia. rewrite pointer_bits by (done || lia).
    rewrite IH; [|done|done|unfold is_byte in Hbb; nia|lia|done|done|done].
    do 3 f_equal. destruct p1; [done|]. cbn. lia.
Qed.

(** ** Skipping *)

Lemma skip_loop_at buf plen extrabytes h p ls t e : name_at buf plen h p ls t e -> bytes buf -> plen <= zlen buf ->
  forall fuel, plen - p < Z.of_nat fuel ->
  skip_loop fuel buf plen extrabytes p = Ok (if e + extrabytes <=? plen then Some e else None).
Proof.
  intros Hat Hb Hbl. induction Hat as [h p Hp Hr|h p l ls t e Hp Hpl Hr Hl Hat IH|h p l b ls t e Hp Hpl Hr Hl Hr2 Hh Hat IH];
    intros fuel Hf; (destruct fuel as [|fuel]; [lia|]); cbn [skip_loop]; unfold CHECK_LEN, ADD_RDLEN, CHECK_LEN, skip_end, CHECK_LEN;
    rewrite (proj2 (Z.leb_le (p + 1) plen)), Hr by lia; cbn [negb mbind comp_bind].
  - change (Z.land 0 192) with 0. change (Z.land 0 63) with 0. cbv zeta. cbn [Z.eqb]. rewrite Z.add_0_r.
    rewrite (proj2 (Z.leb_le (p + 1) plen)) by lia. by destruct (p + 1 + extrabytes <=? plen).
  - rewrite land_63 by lia. change (0 =? 0xc0) with false. change (0 =? 0x80) with false. change (0 =? 0x40) with false. cbv iota zeta.
    assert (Z.land l 63 = l) as ->. { change 63 with (Z.ones 6). rewrite Z.land_ones by lia. apply Z.mod_small. lia. }
    rewrite (proj2 (Z.leb_le _ _)) by lia. rewrite (proj2 (Z.eqb_neq l 0)) by lia. apply IH. lia.
  - assert (is_byte l) as Hlb by (unfold is_byte; lia).
    destruct (label_kind l Hlb) as [[? _]|[[? _]|[[? _]|[_ ->]]]]; [lia..|]. cbv zeta. rewrite Z.eqb_refl. by destruct (p + 2 + extrabytes <=? plen).
Qed.

(** Skipping is safe on every packet, and stays inside it. *)
Lemma skip_loop_safe buf plen extrabytes : bytes buf -> plen <= zlen buf -> 0 <= extrabytes -> forall fuel p, 0 <= p ->
  Z.max 0 (plen - p) < Z.of_nat fuel ->
  exists r, skip_loop fuel buf plen extrabytes p = Ok r /\ (forall q, r = Some q -> p < q /\ q + extrabytes <= plen).
Proof.
  intros Hb Hbl Hex. induction fuel as [|fuel IH]; intros p Hp Hf; [lia|].
  cbn [skip_loop]; unfold CHECK_LEN, ADD_RDLEN, CHECK_LEN, skip_end, CHECK_LEN.
  assert (Hno : exists r : option Z, Ok None = Ok r /\ (forall q, r = Some q -> p < q /\ q + extrabytes <= plen)) by by exists None.
  assert (Hend : forall a, p < a -> exists r : option Z,
    Ok (if negb (a + extrabytes <=? plen) then None else Some a) = Ok r /\ (forall q, r = Some q -> p < q /\ q + extrabytes <= plen)).
  { intros a Ha. destruct (a + extrabytes <=? plen) eqn:E; zbool; cbn [negb]; [|done]. exists (Some a). split; [done|].
    intros q [= <-]. lia. }
  assert (Hrec : forall a, p < a -> p + 1 <= plen -> exists r, skip_loop fuel buf plen extrabytes a = Ok r /\
    (forall q, r = Some q -> p < q /\ q + extrabytes <= plen)).
  { intros a Ha Hpl. destruct (IH a) as (r & -> & Hr); [lia|lia|]. exists r. split; [done|]. intros q Hq. specialize (Hr q Hq). lia. }
  destruct (p + 1 <=? plen) eqn:E1; zbool; cbn [negb]; [|done].
  destruct (rd_ok buf p) as (b & Hrb & _); [lia|]. rewrite Hrb. pose proof (rd_byte _ _ _ Hb Hrb) as Hbb. cbn [mbind comp_bind].
  assert (0 <= Z.land b 63) as Hlen by (apply Z.land_nonneg; lia).
  destruct (label_kind b Hbb) as [[Hk ->]|[[Hk ->]|[[Hk ->]|[Hk ->]]]]; cbv zeta; cbn [Z.eqb Pos.eqb]; [| |done|].
  - destruct (p + 1 + Z.land b 63 <=? plen) eqn:E2; zbool; [|done]. case_if; [apply Hend|apply Hrec]; lia.
  - destruct (p + 2 <=? plen) eqn:E2; zbool; cbn [negb]; [|done]. destruct (negb (Z.land b 63 =? 1)); [done|].
    destruct (rd_ok buf (p + 1)) as (c & Hrc & _); [lia|]. rewrite Hrc. pose proof (rd_byte _ _ _ Hb Hrc) as Hcb. cbn [mbind comp_bind].
    apply Hrec; [|lia]. case_if; [lia|]. zbool. rewrite Z.shiftr_div_pow2 by lia. unfold is_byte in Hcb.
    pose proof (Z.div_pos (c - 1) (2 ^ 3)). lia.
  - apply Hend. lia.
Qed.

Lemma skip_name_safe buf ansp plen extrabytes : bytes buf -> 0 <= plen <= zlen buf -> 0 <= extrabytes -> 0 <= ansp ->
  exists r, skip_name buf ansp plen extrabytes = Ok r /\ (forall q, r = Some q -> ansp < q /\ q + extrabytes <= plen).
Proof. intros. apply skip_loop_safe; try done; lia. Qed.

Lemma name_at_nonempty buf plen h p ls t e : name_at buf plen h p ls t e -> plen <= zlen buf -> Forall (fun lab => lab <> []) ls.
Proof.
  intros Hat Hbl. induction Hat as [| |]; [constructor| |done]. constructor; [|done].
  intros E. apply (f_equal length) in E. rewrite length_take, length_drop in E. cbn in E. unfold zlen in *. lia.
Qed.

Lemma last_dotted ls : ls <> [] -> last (dotted ls) = Some 46.
Proof.
  intros Hne. destruct ls as [|lab ls _] using rev_ind; [done|]. by rewrite dotted_snoc, last_snoc.
Qed.

Lemma last_tolower s : last (tolower <$> s) = Some 46 -> last s = Some 46.
Proof.
  rewrite fmap_last. destruct (last s) as [c|]; [|done]. cbn. intros [= H]. f_equal. revert H.
  unfold tolower, isupper. case_if; zbool; lia.
Qed.

(** ** Reverse names *)

Lemma chunks_join ls : ls <> [] -> Forall (fun l => Forall (fun c => c <> 46) l) ls -> chunks (join_dots ls) = ls.
Proof.
  assert (Hone : forall l rest, Forall (fun c => c <> 46) l -> exists h t, chunks rest = h :: t /\
    chunks (l ++ rest) = (l ++ h) :: t).
  { intros l rest Hl. assert (exists h t, chunks rest = h :: t) as (h & t & Hr).
    { destruct rest as [|c rest]; cbn [chunks]; [eauto|]. case_if; [eauto|]. destruct (chunks rest); eauto. }
    exists h, t. split; [done|]. induction Hl as [|c l Hc Hl IH]; [done|]. cbn [app chunks].
    by rewrite (proj2 (Z.eqb_neq c 46)), IH by done. }
  intros Hne Hls. induction Hls as [|l ls Hl Hls IH]; [done|]. destruct ls as [|l2 ls].
  - rewrite join_dots_single. destruct (Hone l [] Hl) as (h & t & Hr & E). cbn [chunks] in Hr. injection Hr as <- <-.
    by rewrite !app_nil_r in E.
  - rewrite join_dots_cons2. destruct (Hone l (46 :: join_dots (l2 :: ls)) Hl) as (h & t & Hr & E).
    cbn [chunks Z.eqb Pos.eqb] in Hr. rewrite IH in Hr by done. injection Hr as <- <-. by rewrite E, app_nil_r.
Qed.

Lemma dec_byte_digits n : is_byte n -> forallb isdigit (dec_byte n) = true /\ u8 (atoi (dec_byte n)) = n /\
  Forall (fun c => c <> 46) (dec_byte n).
Proof.
  apply (byte_all (fun n => forallb isdigit (dec_byte n) = true /\ u8 (atoi (dec_byte n)) = n /\
    Forall (fun c => c <> 46) (dec_byte n))). by vm_compute.
Qed.

(** The address whose bytes are pushed in from the front. *)
Definition shift_in (a : in_addr) (d : Z) : in_addr := let '(a0, a1, a2, a3) := a in (d, a0, a1, a2).

Lemma arpa_loop_ok ds : forall a, bytes ds -> arpa_loop (dec_byte <$> ds) a = (true, fold_left shift_in ds a).
Proof.
  induction ds as [|d ds IH]; intros a Hb; [done|]. apply Forall_cons in Hb as [Hd Hb].
  destruct (dec_byte_digits d Hd) as (H1 & H2 & _). cbn [fmap list_fmap arpa_loop fold_left]. rewrite H1. cbn [negb].
  destruct a as [[[a0 a1] a2] a3]. rewrite H2. by apply IH.
Qed.

(** * Properties *)

Lemma extract_name_at buf plen pp name extrabytes ls t e :
  bytes buf -> plen <= zlen buf -> name_at buf plen 0 pp ls t e -> Forall (Forall label_char) ls ->
  t + extrabytes <= plen -> zlen (dotted ls) < MAXDNAME -> MAXDNAME <= zlen name ->
  extract_name buf plen pp name true extrabytes = Ok (1, e, finish_name (<[Z.to_nat 0 := 0]> name) 0 (dotted ls)).
Proof.
  intros Hb Hbl Hat Hls Ht Hmax Hname. unfold extract_name. unfold MAXDNAME in *.
  rewrite wr_ok by lia. cbn [mbind comp_bind]. set (n0 := <[_ := 0]> name).
  assert (zlen n0 = zlen name) as Hn0 by (unfold n0, zlen; by rewrite length_insert).
  apply (extract_loop_at buf plen extrabytes pp 0 pp ls t e Hat Hb Hbl Hls Ht); unfold MAXDNAME; [|lia..].
  unfold fuel_left, extract_fuel. assert (0 <= pp < plen) by (by inversion Hat; lia). lia.
Qed.

(** The decoded name as a C string. *)
Lemma finished_name buf plen pp name ls t e : name_at buf plen 0 pp ls t e -> plen <= zlen buf ->
  Forall (Forall label_char) ls -> zlen (dotted ls) < MAXDNAME -> MAXDNAME <= zlen name ->
  let name' := finish_name (<[Z.to_nat 0 := 0]> name) 0 (dotted ls) in cstr name' = join_dots ls /\ zlen name' = zlen name.
Proof.
  intros Hat Hbl Hls Hmax Hname. cbv zeta. unfold MAXDNAME in *. set (n0 := <[_ := 0]> name).
  assert (zlen n0 = zlen name) as Hn0 by (unfold n0, zlen; by rewrite length_insert).
  rewrite cstr_finish; [|by apply (name_at_wf _ _ _ _ _ _ _ Hat)|lia]. split; [done|].
  unfold finish_name, zlen. rewrite length_insert. unfold zlen in *. rewrite length_blit; lia.
Qed.

(** C17: a well-formed name, compressed or not, is decoded to its labels joined
    by dots, and the caller continues behind the name, not behind what a
    pointer leads to. *)
Theorem extract_name_decodes buf plen pp name extrabytes ls t e :
  bytes buf -> plen <= zlen buf -> name_at buf plen 0 pp ls t e -> Forall (Forall label_char) ls ->
  t + extrabytes <= plen -> zlen (dotted ls) < MAXDNAME -> MAXDNAME <= zlen name ->
  exists name', extract_name buf plen pp name true extrabytes = Ok (1, e, name') /\
    cstr name' = join_dots ls /\ zlen name' = zlen name.
Proof.
  intros Hb Hbl Hat Hls Ht Hmax Hname. rewrite (extract_name_at _ _ _ _ _ ls t e) by done.
  eexists. split; [done|]. by apply (finished_name buf plen pp name ls t e).
Qed.

Definition arpa_demo : list Z := replicate 12 0 ++ [3; 119; 119; 119; 1; 97; 3; 111; 114; 103; 0] ++ [4; 109; 97; 105; 108; 0xc0; 16].

Lemma demo_name_at : name_at arpa_demo 30 0 23 [lit "mail"; lit "a"; lit "org"] 23 30.
Proof.
  apply (at_label arpa_demo 30 0 23 4); [lia|lia|done|lia|].
  apply (at_pointer arpa_demo 30 0 28 192 16 _ 23 23); [lia|lia|done|lia|done|lia|].
  apply (at_label arpa_demo 30 1 16 1); [lia|lia|done|lia|].
  apply (at_label arpa_demo 30 1 18 3); [lia|lia|done|lia|].
  apply (at_end arpa_demo 30 1 22); [lia|done].
Qed.

Lemma extract_name_decodes_witness :
  exists name', extract_name arpa_demo 30 23 (replicate 1025 0) true 4 = Ok (1, 30, name') /\
    cstr name' = lit "mail.a.org" /\ zlen name' = zlen (replicate 1025 0).
Proof.
  apply (extract_name_decodes arpa_demo 30 23 (replicate 1025 0) 4 [lit "mail"; lit "a"; lit "org"] 23 30).
  - by_decide.
  - by_decide.
  - exact demo_name_at.
  - unfold label_char. by_decide.
  - lia.
  - by_decide.
  - by_decide.
Defined.

(** Decoding never faults: [extract_loop_safe] from the start of a name. *)
Lemma decode_safe buf plen pp name extrabytes :
  bytes buf -> 0 <= plen < zlen buf -> 0 <= extrabytes -> 0 <= pp -> MAXDNAME <= zlen name ->
  exists r q name', extract_name buf plen pp name true extrabytes = Ok (r, q, name') /\ zlen name' = zlen name /\
    (r = 0 /\ q = pp \/ r = 1 /\ pp < q <= plen /\ extracted name').
Proof.
  intros Hb Hpl Hex Hpp Hname. unfold extract_name, MAXDNAME in *. rewrite wr_ok by lia. cbn [mbind comp_bind].
  assert (zlen (<[Z.to_nat 0:=0]> name) = zlen name) as Hn0 by (unfold zlen; by rewrite length_insert).
  destruct (extract_loop_safe buf plen extrabytes pp Hb Hpl Hex Hpp (extract_fuel plen) pp None 0 (<[Z.to_nat 0:=0]> name) 0)
    as (r & q & name' & -> & Hl & Hr); unfold MAXDNAME; try lia; [unfold fuel_left, extract_fuel; lia|constructor|].
  exists r, q, name'. split; [done|]. split; [lia|done].
Qed.

(** ** Comparing is memory safe *)

Lemma label_compare_safe buf s rest n : bytes buf -> nonul s -> forall p cp ret, 0 <= p -> p + Z.of_nat n <= zlen buf ->
  0 <= cp <= zlen s -> ret = 1 \/ ret = 2 ->
  exists cp' ret', label_compare n buf p (s ++ 0 :: rest) cp ret = Ok (cp', ret') /\ 0 <= cp' <= zlen s /\ (ret' = 1 \/ ret' = 2).
Proof.
  intros Hb Hs. induction n as [|n IH]; intros p cp ret Hp Hl Hcp Hret; cbn [label_compare]; [by exists cp, ret|].
  assert (zlen (s ++ 0 :: rest) = zlen s + 1 + zlen rest) as Hz by (rewrite zlen_app, zlen_cons; lia). pose proof (zlen_nonneg rest).
  destruct (rd_ok (s ++ 0 :: rest) cp) as (c1 & Hc1 & _); [lia|]. destruct (rd_ok buf p) as (c2 & Hc2 & _); [lia|].
  rewrite Hc1, Hc2. cbn [mbind comp_bind]. destruct (c1 =? 0) eqn:E; zbool.
  - apply IH; [lia|lia|done|by right].
  - apply IH; [lia|lia| |case_match; auto]. split; [lia|]. destruct (decide (cp = zlen s)) as [->|]; [|lia]. rewrite rd_at in Hc1. congruence.
Qed.

Lemma compare_loop_safe buf plen extrabytes pp s rest : bytes buf -> 0 <= plen < zlen buf -> 0 <= extrabytes -> 0 <= pp -> nonul s ->
  forall fuel p p1 h cp ret, fuel_left plen h p < Z.of_nat fuel -> h <= 255 -> 0 <= p ->
  match p1 with Some q => pp < q <= plen | None => pp <= p end -> 0 <= cp <= zlen s -> ret = 1 \/ ret = 2 ->
  exists r q, extract_loop buf plen false extrabytes pp fuel p p1 h (s ++ 0 :: rest) cp ret = Ok (r, q, s ++ 0 :: rest) /\
    (r = 0 /\ q = pp \/ (r = 1 \/ r = 2) /\ pp < q <= plen).
Proof.
  intros Hb Hpl Hex Hpp Hs. induction fuel as [|fuel IH]; intros p p1 h cp ret Hf Hh Hp Hp1 Hcp Hret; unfold fuel_left in *;
    [nia|]. cbn [extract_loop]. unfold CHECK_LEN.
  assert (Hfail : exists r q, Ok (0, pp, s ++ 0 :: rest) = Ok (r, q, s ++ 0 :: rest) /\
    (r = 0 /\ q = pp \/ (r = 1 \/ r = 2) /\ pp < q <= plen)) by (exists 0, pp; auto).
  assert (zlen (s ++ 0 :: rest) = zlen s + 1 + zlen rest) as Hz by (rewrite zlen_app, zlen_cons; lia). pose proof (zlen_nonneg rest).
  destruct (p + 1 <=? plen) eqn:E1; zbool; cbn [negb]; [|done].
  destruct (rd_ok buf p) as (l & Hl & _); [lia|]. rewrite Hl. pose proof (rd_byte _ _ _ Hb Hl) as Hlb. cbn [mbind comp_bind].
  destruct (l =? 0) eqn:E0; zbool.
  { destruct (p + 1 + extrabytes <=? plen) eqn:E2; zbool; cbn [negb]; [|done].
    destruct (rd_ok (s ++ 0 :: rest) cp) as (c & Hc & _); [lia|]. rewrite Hc. cbn [mbind comp_bind mret comp_ret].
    exists (if c =? 0 then ret else 2), (default (p + 1) p1). split; [done|]. right. split; [destruct (c =? 0); auto|].
    destruct p1; cbn; lia. }
  destruct (label_kind l Hlb) as [[Hk ->]|[[Hk ->]|[[Hk ->]|[Hk ->]]]]; cbv zeta; cbn [Z.eqb Pos.eqb]; [| |done|].
  - destruct (MAXDNAME <=? cp + l + 1) eqn:E2; zbool; [done|]. destruct (p + 1 + l <=? plen) eqn:E3; zbool; cbn [negb]; [|done].
    destruct (label_compare_safe buf s rest (Z.to_nat l) Hb Hs (p + 1) cp ret) as (cp1 & ret1 & -> & Hcp1 & Hret1); [lia|lia|done|done|].
    cbn [mbind comp_bind]. destruct (rd_ok (s ++ 0 :: rest) cp1) as (c & Hc & _); [lia|]. rewrite Hc. cbn [mbind comp_bind].
    destruct (c =? 0) eqn:Ec; zbool; (apply IH; [nia|lia|lia|destruct p1; lia| |try destruct (c =? 46); auto]); [done|].
    split; [lia|]. destruct (decide (cp1 = zlen s)) as [->|]; [|lia]. rewrite rd_at in Hc. congruence.
  - destruct (negb (Z.land l 63 =? 1)); [done|]. cbn [negb]. done.
  - destruct (p + 1 + 1 <=? plen) eqn:E2; zbool; cbn [negb]; [|done].
    destruct (rd_ok buf (p + 1)) as (b & Hrb & _); [lia|]. rewrite Hrb. pose proof (rd_byte _ _ _ Hb Hrb) as Hbb. cbn [mbind comp_bind].
    destruct (255 <? h + 1) eqn:E3; zbool; [done|]. rewrite pointer_bits by (done || lia). unfold is_byte in *.
    apply IH; [nia|lia|lia|destruct p1; lia|done|done].
Qed.

Lemma compare_safe buf plen pp s rest extrabytes :
  bytes buf -> 0 <= plen < zlen buf -> 0 <= extrabytes -> 0 <= pp -> nonul s ->
  exists r q, extract_name buf plen pp (s ++ 0 :: rest) false extrabytes = Ok (r, q, s ++ 0 :: rest) /\
    (r = 0 /\ q = pp \/ (r = 1 \/ r = 2) /\ pp < q <= plen).
Proof.
  intros Hb Hpl Hex Hpp Hs. unfold extract_name. cbn [mbind comp_bind mret comp_ret]. pose proof (zlen_nonneg s).
  apply (compare_loop_safe buf plen extrabytes pp s rest Hb Hpl Hex Hpp Hs); [unfold fuel_left, extract_fuel; lia|lia|lia|lia|lia|by left].
Qed.

(** C18: decoding is memory safe for every message, given one readable byte
    behind it: it ends, writes only inside the name buffer, and either
    returns 0 and leaves the position, or leaves a terminated printable name
    shorter than 1024 characters and a position that has moved forward inside
    the message. *)
Theorem extract_name_safe buf plen pp name extrabytes :
  bytes buf -> 0 <= plen < zlen buf -> 0 <= extrabytes -> 0 <= pp -> MAXDNAME <= zlen name ->
  exists r q name', extract_name buf plen pp name true extrabytes = Ok (r, q, name') /\ zlen name' = zlen name /\
    (r = 0 /\ q = pp \/ r = 1 /\ pp < q <= plen /\ extracted name').
Proof. apply decode_safe. Qed.

Lemma extract_name_safe_witness :
  exists r q name', extract_name (replicate 12 0 ++ [0xc0; 12; 0]) 14 12 (replicate 1025 0) true 4 = Ok (r, q, name') /\
    zlen name' = zlen (replicate 1025 0) /\ (r = 0 /\ q = 12 \/ r = 1 /\ 12 < q <= 14 /\ extracted name').
Proof. apply (extract_name_safe (replicate 12 0 ++ [0xc0; 12; 0]) 14 12 (replicate 1025 0) 4); by_decide. Defined.

(** C28: comparing without decoding. For a name that does not end in a dot
    (one such dot would be ignored) the result is 1 when the labels in the
    message, joined by dots, are the name without regard to letter case, and
    else 2; the position ends behind the name either way, and the name is left
    as it is. When decoding accepts the labels, which must be printable ASCII
    without dots, this is what decoding into any buffer and comparing then
    would give, with the same position. Labels that decoding refuses are
    compared like the others, so that a dot in a label passes for one between
    two labels. The name in the message has less than MAXDNAME characters and
    ends in front of the last [extrabytes] bytes of the packet. *)
Theorem compare_name_correct buf plen pp s rest extrabytes ls t e :
  bytes buf -> plen <= zlen buf -> name_at buf plen 0 pp ls t e -> t + extrabytes <= plen -> zlen (dotted ls) < MAXDNAME ->
  nonul s -> last s <> Some 46 ->
  extract_name buf plen pp (s ++ 0 :: rest) false extrabytes =
    Ok (if hostname_isequal s (join_dots ls) then 1 else 2, e, s ++ 0 :: rest) /\
  (Forall (Forall label_char) ls -> forall name, MAXDNAME <= zlen name ->
     exists name', extract_name buf plen pp name true extrabytes = Ok (1, e, name') /\
       extract_name buf plen pp (s ++ 0 :: rest) false extrabytes = Ok (if hostname_isequal s (cstr name') then 1 else 2, e, s ++ 0 :: rest)).
Proof.
  intros Hb Hbl Hat Ht Hmax Hs Hlast. cut (extract_name buf plen pp (s ++ 0 :: rest) false extrabytes =
    Ok (if hostname_isequal s (join_dots ls) then 1 else 2, e, s ++ 0 :: rest)).
  { intros Hc. split; [exact Hc|]. intros Hls name Hname. rewrite (extract_name_at _ _ _ _ _ ls t e) by done.
    eexists. split; [done|]. destruct (finished_name buf plen pp name ls t e) as [-> _]; done. }
  unfold extract_name. cbn [mbind comp_bind mret comp_ret].
  rewrite (compare_loop_at buf plen extrabytes pp s rest 0 pp ls t e Hat Hb Hbl Ht Hs);
    [| |lia|unfold zlen; lia|lia|by left].
  - cbn [default from_option]. unfold id. change (drop (Z.to_nat 0) s) with s.
    pose proof (name_matches_spec ls s (name_at_nonempty _ _ _ _ _ _ _ Hat Hbl)) as Hm.
    pose proof (hostname_isequal_iff s (join_dots ls)) as He.
    assert (tolower <$> s = tolower <$> dotted ls -> ls = []) as Hdot.
    { intros Em. destruct (decide (ls = [])) as [|Hne]; [done|]. exfalso. apply Hlast, last_tolower.
      by rewrite Em, fmap_last, last_dotted. }
    destruct (hostname_isequal s (join_dots ls)), (name_matches s ls); try done; exfalso.
    + assert (false = true); [|done]. apply Hm. left. by apply He.
    + assert (false = true); [|done]. apply He. destruct (proj1 Hm eq_refl) as [|Em]; [done|]. pose proof (Hdot Em) as ->. exact Em.
  - unfold fuel_left, extract_fuel. assert (0 <= pp < plen) by (by inversion Hat; lia). lia.
Qed.

Lemma compare_name_correct_witness :
  extract_name arpa_demo 30 23 (lit "MAIL.a.Org" ++ 0 :: [7]) false 4 =
    Ok (if hostname_isequal (lit "MAIL.a.Org") (lit "mail.a.org") then 1 else 2, 30, lit "MAIL.a.Org" ++ 0 :: [7]) /\
  (Forall (Forall label_char) [lit "mail"; lit "a"; lit "org"] -> forall name, MAXDNAME <= zlen name ->
     exists name', extract_name arpa_demo 30 23 name true 4 = Ok (1, 30, name') /\
       extract_name arpa_demo 30 23 (lit "MAIL.a.Org" ++ 0 :: [7]) false 4 =
         Ok (if hostname_isequal (lit "MAIL.a.Org") (cstr name') then 1 else 2, 30, lit "MAIL.a.Org" ++ 0 :: [7])).
Proof.
  apply (compare_name_correct arpa_demo 30 23 (lit "MAIL.a.Org") [7] 4 [lit "mail"; lit "a"; lit "org"] 23 30).
  - by_decide.
  - by_decide.
  - exact demo_name_at.
  - lia.
  - by_decide.
  - unfold nonul. by_decide.
  - by_decide.
Defined.

(** Skipping ends where decoding ends; only the check on the bytes behind the
    name differs. *)
Lemma skip_name_agrees buf plen pp extrabytes ls t e : bytes buf -> plen <= zlen buf -> name_at buf plen 0 pp ls t e ->
  skip_name buf pp plen extrabytes = Ok (if e + extrabytes <=? plen then Some e else None).
Proof.
  intros Hb Hbl Hat. apply (skip_loop_at _ _ _ _ _ _ _ _ Hat Hb Hbl). assert (0 <= pp < plen) by (by inversion Hat; lia). lia.
Qed.

(** The name of a reverse lookup is read back to the address: its numbers
    are pushed in from the front, so four of them give the address written
    backwards, and fewer give a network with zeroes behind. *)
Theorem in_arpa_name_2_addr_correct ds inaddr arpa addr :
  bytes ds -> ds <> [] -> tolower <$> inaddr = lit "in-addr" -> tolower <$> arpa = lit "arpa" ->
  zlen (join_dots ((dec_byte <$> ds) ++ [inaddr; arpa])) <= MAXARPANAME ->
  in_arpa_name_2_addr (join_dots ((dec_byte <$> ds) ++ [inaddr; arpa])) addr = (F_IPV4, fold_left shift_in ds (0, 0, 0, 0)).
Proof.
  intros Hb Hne Hi Ha Hlen. unfold in_arpa_name_2_addr. rewrite (proj2 (Z.ltb_ge _ _)) by done. cbv zeta.
  assert (Hnodot : forall s k, tolower <$> s = k -> Forall (fun c => c <> 46) k -> Forall (fun c => c <> 46) s).
  { intros s k <- Hk. rewrite Forall_fmap in Hk. eapply Forall_impl; [exact Hk|]. intros c Hc ->. by apply Hc. }
  rewrite chunks_join; [|by destruct ds|].
  2: { apply Forall_app. split; [|constructor; [by eapply Hnodot; [exact Hi|by_decide]|constructor; [|constructor]]].
       - rewrite Forall_fmap. eapply Forall_impl; [exact Hb|]. intros d Hd. by apply dec_byte_digits.
       - eapply Hnodot; [exact Ha|by_decide]. }
  rewrite zlen_app. change (zlen [inaddr; arpa]) with 2. assert (0 < zlen (dec_byte <$> ds)) as Hp.
  { destruct ds; [done|]. cbn [fmap list_fmap]. rewrite zlen_cons. pose proof (zlen_nonneg (dec_byte <$> ds)). lia. }
  rewrite (proj2 (Z.ltb_ge _ 3)) by lia. set (nums := dec_byte <$> ds) in *.
  replace (Z.to_nat (zlen nums + 2 - 1)) with (length nums + 1)%nat by (unfold zlen; lia).
  replace (Z.to_nat (zlen nums + 2 - 2)) with (length nums + 0)%nat by (unfold zlen; lia).
  rewrite !app_nth2_plus. cbn [nth].
  assert (hostname_isequal arpa (lit "arpa") = true) as -> by (by apply hostname_isequal_iff; rewrite Ha).
  assert (hostname_isequal inaddr (lit "in-addr") = true) as -> by (by apply hostname_isequal_iff; rewrite Hi).
  cbn [andb]. rewrite Nat.add_0_r, take_app_length. unfold nums. by rewrite arpa_loop_ok.
Qed.

Lemma in_arpa_name_2_addr_correct_witness :
  in_arpa_name_2_addr (lit "7.1.168.192.IN-ADDR.arpa") (0, 0, 0, 0) = (F_IPV4, (192, 168, 1, 7)).
Proof. apply (in_arpa_name_2_addr_correct [7; 1; 168; 192] (lit "IN-ADDR") (lit "arpa") (0, 0, 0, 0)); by_decide. Defined.

(** A dot inside a label is not refused: the label [a.b] is taken for the two
    labels [a] and [b]. *)
Example compare_dot_in_label :
  extract_name (replicate 12 0 ++ [3; 97; 46; 98; 0]) 17 12 (lit "a.b" ++ replicate 1022 0) false 0 =
  Ok (1, 17, lit "a.b" ++ replicate 1022 0).
Proof. vm_compute. reflexivity. Qed.
