(* ===== verification/DmPacket.v ===== *)
(** dnsmasq's rfc1035.c, second part: the sections of a packet, its
    pseudoheader, the checksum of its questions, replies and resource records.
    The header is the first twelve bytes of the buffer. *)
From S2P Require Import Prelude CString Dns Common DmUtil DmName.

(** * Constants and fields (dns-protocol.h) *)

Definition C_IN : Z := 1.
Definition C_ANY : Z := 255.
Definition T_A : Z := 1.
Definition T_CNAME : Z := 5.
Definition T_SOA : Z := 6.
Definition T_PTR : Z := 12.
Definition T_SIG : Z := 24.
Definition T_AAAA : Z := 28.
Definition T_OPT : Z := 41.
Definition T_TKEY : Z := 249.
Definition T_TSIG : Z := 250.
Definition T_ANY : Z := 255.
Definition PACKETSZ : Z := 512.
Definition RRFIXEDSZ : Z := 10.
Definition INADDRSZ : Z := 4.

Definition NOERROR : Z := 0.
Definition SERVFAIL : Z := 2.
Definition NXDOMAIN : Z := 3.
Definition REFUSED : Z := 5.

Definition HB3_QR : Z := 0x80.
Definition HB3_OPCODE : Z := 0x78.
Definition HB3_AA : Z := 0x04.
Definition HB3_TC : Z := 0x02.
Definition HB4_RA : Z := 0x80.
Definition HB4_CD : Z := 0x10.
Definition HB4_RCODE : Z := 0x0f.

Definition F_NEG : Z := 2 ^ 5.
Definition F_IPV6 : Z := 2 ^ 8.
Definition F_NXDOMAIN : Z := 2 ^ 10.
Definition F_QUERY : Z := 2 ^ 19.
Definition F_NOERR : Z := 2 ^ 20.

(** [sizeof (struct dns_header)] and the offsets of the fields. *)
Definition HEADER : Z := 12.
Definition hb3 (buf : list Z) : comp Z := rd buf 2.
Definition hb4 (buf : list Z) : comp Z := rd buf 3.
Definition qdcount (buf : list Z) : comp Z := rd16 buf 4.
Definition ancount (buf : list Z) : comp Z := rd16 buf 6.
Definition nscount (buf : list Z) : comp Z := rd16 buf 8.
Definition arcount (buf : list Z) : comp Z := rd16 buf 10.

Definition OPCODE (h3 : Z) : Z := Z.shiftr (Z.land h3 HB3_OPCODE) 3.
Definition RCODE (h4 : Z) : Z := Z.land h4 HB4_RCODE.
Definition SET_RCODE (h4 code : Z) : Z := Z.lor (Z.land h4 (255 - HB4_RCODE)) code.

Definition put16 (v : Z) : list Z := [hi8 v; lo8 v].
Definition put32 (v : Z) : list Z := [(v / 2 ^ 24) `mod` 256; (v / 2 ^ 16) `mod` 256; hi8 v; lo8 v].
Definition PUTSHORT (buf : list Z) (p v : Z) : comp (list Z) := wrs buf p (put16 v).
Definition PUTLONG (buf : list Z) (p v : Z) : comp (list Z) := wrs buf p (put32 v).

Definition memmove (buf : list Z) (dst src n : Z) : comp (list Z) :=
  if zlen buf <? src + n then Fault ReadOOB
  else wrs buf dst (take (Z.to_nat n) (drop (Z.to_nat src) buf)).

(** * Walking over the sections *)

Fixpoint questions_loop (q : nat) (buf : list Z) (plen ansp : Z) : comp (option Z) :=
  match q with
  | O => Ok (Some ansp)
  | S q' =>
      r ← skip_name buf ansp plen 4;
      match r with
      | None => Ok None
      | Some ansp => questions_loop q' buf plen (ansp + 4)
      end
  end.
Definition skip_questions (buf : list Z) (plen : Z) : comp (option Z) :=
  n ← qdcount buf; questions_loop (Z.to_nat n) buf plen HEADER.

Fixpoint skip_section (count : nat) (buf : list Z) (plen ansp : Z) : comp (option Z) :=
  match count with
  | O => Ok (Some ansp)
  | S count' =>
      r ← skip_name buf ansp plen 10;
      match r with
      | None => Ok None
      | Some ansp =>
          rdlen ← rd16 buf (ansp + 8);
          match ADD_RDLEN (ansp + 10) plen rdlen with
          | None => Ok None
          | Some ansp => skip_section count' buf plen ansp
          end
      end
  end.

(** The new length and the packet. *)
Definition resize_packet (buf : list Z) (plen : Z) (pheader : option Z) (hlen : Z) : comp (Z * list Z) :=
  r ← skip_questions buf plen;
  match r with
  | None => Ok (plen, buf)
  | Some ansp =>
      an ← ancount buf; ns ← nscount buf; ar ← arcount buf;
      r ← skip_section (Z.to_nat (an + ns + ar)) buf plen ansp;
      match r with
      | None => Ok (plen, buf)
      | Some ansp =>
          ar ← arcount buf;
          match pheader with
          | Some ph =>
              if ar =? 0 then
                buf ← memmove buf ansp ph hlen;
                buf ← wrs buf 10 (put16 1);
                mret (ansp + hlen, buf)
              else mret (ansp, buf)
          | None => mret (ansp, buf)
          end
      end
  end.

(** ** The pseudoheader *)

(** The questions, when signatures are of interest. *)
Fixpoint tkey_loop (q : nat) (buf : list Z) (plen ansp sign : Z) : comp (option Z * Z) :=
  match q with
  | O => Ok (Some ansp, sign)
  | S q' =>
      r ← skip_name buf ansp plen 4;
      match r with
      | None => Ok (None, sign)
      | Some ansp =>
          type ← rd16 buf ansp; class ← rd16 buf (ansp + 2);
          tkey_loop q' buf plen (ansp + 4) (if (class =? C_IN) && (type =? T_TKEY) then 1 else sign)
      end
  end.

(** A pseudoheader: where it starts, its length and where its UDP size is. *)
Definition pseudo : Type := Z * Z * Z.

Fixpoint additional_loop (n : nat) (want_sign : bool) (buf : list Z) (plen ansp : Z) (ret : option pseudo) (sign : Z)
  : comp (option pseudo * Z) :=
  match n with
  | O => Ok (ret, sign)
  | S n' =>
      let start := ansp in
      r ← skip_name buf ansp plen 10;
      match r with
      | None => Ok (None, sign)
      | Some ansp =>
          type ← rd16 buf ansp; class ← rd16 buf (ansp + 2); rdlen ← rd16 buf (ansp + 8);
          match ADD_RDLEN (ansp + 10) plen rdlen with
          | None => Ok (None, sign)
          | Some next =>
              if type =? T_OPT
              then additional_loop n' want_sign buf plen next (Some (start, next - start, ansp + 2)) sign
              else additional_loop n' want_sign buf plen next ret
                     (if want_sign && (n' =? 0)%nat && (class =? C_ANY) && ((type =? T_SIG) || (type =? T_TSIG)) then 1 else sign)
          end
      end
  end.

(** [want_sign] is whether the caller passes [is_sign]. *)
Definition find_pseudoheader (buf : list Z) (plen : Z) (want_sign : bool) : comp (option pseudo * Z) :=
  ar ← arcount buf;
  '(r, sign) ←
    (if want_sign then
       h3 ← hb3 buf;
       if OPCODE h3 =? 0 then n ← qdcount buf; tkey_loop (Z.to_nat n) buf plen HEADER 0
       else mret (Some HEADER, 0)
     else r ← skip_questions buf plen; mret (r, 0));
  match r with
  | None => Ok (None, sign)
  | Some ansp =>
      if ar =? 0 then Ok (None, sign)
      else
        an ← ancount buf; ns ← nscount buf;
        r ← skip_section (Z.to_nat (an + ns)) buf plen ansp;
        match r with
        | None => Ok (None, sign)
        | Some ansp => additional_loop (Z.to_nat ar) want_sign buf plen ansp None sign
        end
  end.

(** * The checksum of the questions *)

Fixpoint crc_bits (i : nat) (crc : Z) : Z :=
  match i with
  | O => crc
  | S i' => crc_bits i' (if negb (Z.land crc 0x80000000 =? 0) then Z.lxor (u32 (Z.shiftl crc 1)) 0x04c11db7 else u32 (Z.shiftl crc 1))
  end.
Definition crc_byte (crc c : Z) : Z := crc_bits 8 (Z.lxor crc (Z.shiftl c 24)).

Fixpoint crc_loop (q : nat) (buf : list Z) (plen p : Z) (name : list Z) (crc : Z) : comp (Z * list Z) :=
  match q with
  | O => Ok (crc, name)
  | S q' =>
      '(r, p, name) ← extract_name buf plen p name true 4;
      if r =? 0 then Ok (crc, name)
      else
        let crc := fold_left crc_byte (tolower <$> cstr name) crc in
        a ← rd buf p; b ← rd buf (p + 1); c ← rd buf (p + 2); d ← rd buf (p + 3);
        let crc := fold_left crc_byte [a; b; c; d] crc in
        if negb (CHECK_LEN (p + 4) plen 0) then Ok (crc, name)
        else crc_loop q' buf plen (p + 4) name crc
  end.
Definition questions_crc (buf : list Z) (plen : Z) (name : list Z) : comp (Z * list Z) :=
  n ← qdcount buf; crc_loop (Z.to_nat n) buf plen HEADER name 0xffffffff.

(** * Requests and replies *)

(** The flags, the type for the caller and the name. *)
Definition extract_request (buf : list Z) (qlen : Z) (name : list Z) : comp (Z * Z * list Z) :=
  n ← qdcount buf; h3 ← hb3 buf;
  if negb (n =? 1) || negb (OPCODE h3 =? 0) then Ok (0, 0, name)
  else
    '(r, p, name) ← extract_name buf qlen HEADER name true 4;
    if r =? 0 then Ok (0, 0, name)
    else
      qtype ← rd16 buf p; qclass ← rd16 buf (p + 2);
      let flags :=
        if qclass =? C_IN then
          if qtype =? T_A then F_IPV4
          else if qtype =? T_AAAA then F_IPV6
          else if qtype =? T_ANY then Z.lor F_IPV4 F_IPV6
          else F_QUERY
        else F_QUERY in
      Ok (flags, qtype, name).

(** The arguments of [add_resource_record] behind the format. *)
Inductive rarg :=
| Arg4 (addr : list Z)             (* 4: an address *)
| ArgS (v : Z)                     (* s: 16 bits *)
| ArgL (v : Z)                     (* l: 32 bits *)
| ArgD (name : list Z)             (* d: a domain name *)
| ArgT (len : Z) (text : list Z)   (* t: bytes *)
| ArgZ (text : option (list Z)).   (* z: a counted string *)

(** One argument: the packet, where the next one goes, and where the last
    name starts. *)
Definition put_arg (buf : list Z) (p : Z) (offset : option Z) (a : rarg) : comp (list Z * Z * option Z) :=
  match a with
  | Arg4 addr =>
      if zlen addr <? INADDRSZ then Fault ReadOOB
      else buf ← wrs buf p (take 4 addr); mret (buf, p + INADDRSZ, offset)
  | ArgS v => buf ← PUTSHORT buf p v; mret (buf, p + 2, offset)
  | ArgL v => buf ← PUTLONG buf p v; mret (buf, p + 4, offset)
  | ArgD name =>
      '(buf, q) ← do_rfc1035_name buf p name;
      buf ← wr buf q 0;
      mret (buf, q + 1, Some p)
  | ArgT len text =>
      if zlen text <? u16 len then Fault ReadOOB
      else buf ← wrs buf p (take (Z.to_nat (u16 len)) text); mret (buf, p + u16 len, offset)
  | ArgZ text =>
      let s := default [] text in
      let usval := Z.min 255 (u16 (zlen s)) in
      buf ← wr buf p usval;
      buf ← wrs buf (p + 1) (take (Z.to_nat usval) s);
      mret (buf, p + 1 + usval, offset)
  end.

Fixpoint put_args (buf : list Z) (p : Z) (offset : option Z) (args : list rarg) : comp (list Z * Z * option Z) :=
  match args with
  | [] => Ok (buf, p, offset)
  | a :: args' => '(buf, p, offset) ← put_arg buf p offset a; put_args buf p offset args'
  end.

(** What a call returns, with everything its pointers lead to. *)
Record added := Added {
  a_ret : Z; a_buf : list Z; a_pp : Z; a_trunc : bool; a_offset : option Z }.

(** [limit] and [trunc] are absent when the pointers are null. *)
Definition add_resource_record (buf : list Z) (limit : option Z) (trunc : option bool) (nameoffset pp ttl : Z)
    (type class : Z) (args : list rarg) : comp added :=
  if default false trunc then Ok (Added 0 buf pp true None)
  else
    buf ← PUTSHORT buf pp (Z.lor nameoffset 0xc000);
    buf ← PUTSHORT buf (pp + 2) type;
    buf ← PUTSHORT buf (pp + 4) class;
    buf ← PUTLONG buf (pp + 6) ttl;
    buf ← PUTSHORT buf (pp + 10) 0;
    let sav := pp + 10 in
    '(buf, p, offset) ← put_args buf (pp + 12) None args;
    buf ← PUTSHORT buf sav (p - sav - 2);
    match limit with
    | Some lim => if lim - p <? 0 then Ok (Added 0 buf pp (bool_decide (is_Some trunc)) offset) else Ok (Added 1 buf p false offset)
    | None => Ok (Added 1 buf p false offset)
    end.

(** The length of the reply; [None] stands for the null pointer minus the
    header, which is returned when the questions cannot be skipped. *)
Definition setup_reply (buf : list Z) (qlen : Z) (addrp : list Z) (flags ttl : Z) : comp (option Z * list Z) :=
  p ← skip_questions buf qlen;
  h3 ← hb3 buf; h4 ← hb4 buf;
  let h3 := Z.lor (Z.land h3 (255 - Z.lor HB3_AA HB3_TC)) HB3_QR in
  let h4 := Z.lor h4 HB4_RA in
  buf ← wrs buf 6 (put16 0 ++ put16 0 ++ put16 0);
  let known := bool_decide (is_Some p) && (flags =? F_IPV4) in
  let code := if flags =? F_NEG then SERVFAIL
              else if flags =? F_NOERR then NOERROR
              else if flags =? F_NXDOMAIN then NXDOMAIN
              else if known then NOERROR
              else REFUSED in
  buf ← wrs buf 2 [if known then Z.lor h3 HB3_AA else h3; SET_RCODE h4 code];
  match p with
  | Some pp =>
      if known then
        buf ← wrs buf 6 (put16 1);
        r ← add_resource_record buf None None HEADER pp ttl T_A C_IN [Arg4 addrp];
        mret (Some (a_pp r), a_buf r)
      else mret (p, buf)
  | None => mret (None, buf)
  end.

(** * Addresses of private networks *)

Definition private_net (addr : in_addr) (ban_localhost : bool) : bool :=
  let ip_addr := addr_num addr in
  ((Z.land ip_addr 0xFF000000 =? 0x7F000000) && ban_localhost) ||
  (Z.land ip_addr 0xFFFF0000 =? 0xC0A80000) ||
  (Z.land ip_addr 0xFF000000 =? 0x0A000000) ||
  (Z.land ip_addr 0xFFF00000 =? 0xAC100000) ||
  (Z.land ip_addr 0xFFFF0000 =? 0xA9FE0000).

(** * Rewriting addresses, and the lifetime of a negative answer *)

Record doctor := Doctor { d_in : in_addr; d_end : in_addr; d_out : in_addr; d_mask : in_addr }.

Definition doctor_applies (d : doctor) (addr : in_addr) : bool :=
  if addr_num (d_end d) =? 0 then is_same_net (d_in d) addr (d_mask d)
  else negb ((addr_num addr <? addr_num (d_in d)) || (addr_num (d_end d) <? addr_num addr)).

Definition treat (d : doctor) (addr : in_addr) : in_addr :=
  addr_map2 Z.lor (addr_map2 (fun a m => Z.land a (255 - m)) addr (d_mask d)) (addr_map2 Z.land (d_out d) (d_mask d)).

Definition rd_addr (buf : list Z) (p : Z) : comp in_addr :=
  a ← rd buf p; b ← rd buf (p + 1); c ← rd buf (p + 2); d ← rd buf (p + 3); mret (a, b, c, d).
Definition addr_bytes (a : in_addr) : list Z := let '(a, b, c, d) := a in [a; b; c; d].

(** The characters of a counted string that are printable. *)
Fixpoint printable_run (n : nat) (buf : list Z) (p : Z) : comp unit :=
  match n with
  | O => Ok tt
  | S n' => c ← rd buf p; if (32 <=? c) && (c <? 127) then printable_run n' buf (p + 1) else Ok tt
  end.

(** The texts that are logged are moved in place, and moved back: only the
    reads matter. *)
Fixpoint txt_loop (fuel : nat) (buf : list Z) (p1 endp : Z) : comp unit :=
  match fuel with
  | O => Fault NoFuel
  | S fuel' =>
      if endp <=? p1 then Ok tt
      else len ← rd buf p1; _ ← printable_run (Z.to_nat len) buf (p1 + 1); txt_loop fuel' buf (p1 + len + 1) endp
  end.

Section doctor.
Context (doctors : list doctor) (qlen : Z).

(** [log] is whether there is a name and queries are logged. *)
Fixpoint do_doctor (count : nat) (buf : list Z) (p : Z) (log : bool) (name : list Z) : comp (option Z * list Z * list Z) :=
  match count with
  | O => Ok (Some p, buf, name)
  | S count' =>
      '(q, name) ←
        (if log then
           '(r, p, name) ← extract_name buf qlen p name true 10;
           mret (if r =? 0 then None else Some p, name)
         else r ← skip_name buf p qlen 10; mret (r, name));
      match q with
      | None => Ok (None, buf, name)
      | Some p =>
          qtype ← rd16 buf p; qclass ← rd16 buf (p + 2); rdlen ← rd16 buf (p + 8);
          let p := p + 10 in
          '(ok, buf) ←
            (if (qclass =? C_IN) && (qtype =? T_A) then
               if negb (CHECK_LEN p qlen INADDRSZ) then mret (false, buf)
               else
                 addr ← rd_addr buf p;
                 match List.find (fun d => doctor_applies d addr) doctors with
                 | Some d =>
                     h3 ← hb3 buf;
                     buf ← wr buf 2 (Z.land h3 (255 - HB3_AA));
                     buf ← wrs buf p (addr_bytes (treat d addr));
                     mret (true, buf)
                 | None => mret (true, buf)
                 end
             else if (qtype =? 16) && log then
               if negb (CHECK_LEN p qlen rdlen) then mret (false, buf)
               else _ ← txt_loop (S (Z.to_nat rdlen)) buf p (p + rdlen); mret (true, buf)
             else mret (true, buf));
          if negb ok then Ok (None, buf, name)
          else
            match ADD_RDLEN p qlen rdlen with
            | None => Ok (None, buf, name)
            | Some p => do_doctor count' buf p log name
            end
      end
  end.

(** The records of the authority section: where they end, the smallest
    lifetime and whether there was an SOA record. *)
Fixpoint soa_loop (n : nat) (buf : list Z) (p minttl : Z) (found : bool) : comp (option (Z * Z * bool)) :=
  match n with
  | O => Ok (Some (p, minttl, found))
  | S n' =>
      r ← skip_name buf p qlen 10;
      match r with
      | None => Ok None
      | Some p =>
          qtype ← rd16 buf p; qclass ← rd16 buf (p + 2); ttl ← rd32 buf (p + 4); rdlen ← rd16 buf (p + 8);
          let p := p + 10 in
          if (qclass =? C_IN) && (qtype =? T_SOA) then
            let minttl := Z.min minttl ttl in
            r ← skip_name buf p qlen 0;
            match r with
            | None => Ok None
            | Some p =>
                r ← skip_name buf p qlen 20;
                match r with
                | None => Ok None
                | Some p => ttl ← rd32 buf (p + 16); soa_loop n' buf (p + 20) (Z.min minttl ttl) true
                end
            end
          else
            match ADD_RDLEN p qlen rdlen with
            | None => Ok None
            | Some p => soa_loop n' buf p minttl found
            end
      end
  end.

(** The lifetime for negative answers, 0 for a bad packet. *)
Definition find_soa (neg_ttl : Z) (buf : list Z) (log : bool) (name : list Z) : comp (Z * list Z * list Z) :=
  r ← skip_questions buf qlen;
  match r with
  | None => Ok (0, buf, name)
  | Some p =>
      an ← ancount buf;
      '(r, buf, name) ← do_doctor (Z.to_nat an) buf p log name;
      match r with
      | None => Ok (0, buf, name)
      | Some p =>
          ns ← nscount buf;
          r ← soa_loop (Z.to_nat ns) buf p 0xffffffff false;
          match r with
          | None => Ok (0, buf, name)
          | Some (p, minttl, found) =>
              ar ← arcount buf;
              '(r, buf, _) ← do_doctor (Z.to_nat ar) buf p false name;
              match r with
              | None => Ok (0, buf, name)
              | Some _ => Ok (if (found : bool) then minttl else neg_ttl, buf, name)
              end
          end
      end
  end.
End doctor.

(** * Records of a section, as a reference *)

Record rr := RR { rr_start : Z; rr_fixed : Z; rr_type : Z; rr_class : Z; rr_next : Z }.

Definition read_rr (buf : list Z) (plen p : Z) : comp (option rr) :=
  r ← skip_name buf p plen 10;
  match r with
  | None => Ok None
  | Some q =>
      type ← rd16 buf q; class ← rd16 buf (q + 2); rdlen ← rd16 buf (q + 8);
      Ok (if q + 10 + rdlen <=? plen then Some (RR p q type class (q + 10 + rdlen)) else None)
  end.

Fixpoint read_rrs (n : nat) (buf : list Z) (plen p : Z) : comp (option (list rr * Z)) :=
  match n with
  | O => Ok (Some ([], p))
  | S n' =>
      r ← read_rr buf plen p;
      match r with
      | None => Ok None
      | Some r => rs ← read_rrs n' buf plen (rr_next r);
                  Ok (match rs with Some (rs, e) => Some (r :: rs, e) | None => None end)
      end
  end.

Definition is_opt (r : rr) : bool := rr_type r =? T_OPT.
Definition pseudo_of (r : rr) : pseudo := (rr_start r, rr_next r - rr_start r, rr_fixed r + 2).
Definition is_sig (r : rr) : bool := (rr_class r =? C_ANY) && ((rr_type r =? T_SIG) || (rr_type r =? T_TSIG)).

Section walk.
Context (buf : list Z) (plen : Z) (Hb : bytes buf) (Hpl : 0 <= plen <= zlen buf).

Lemma read_rr_safe p : 0 <= p -> exists r, read_rr buf plen p = Ok r /\
  (forall x, r = Some x -> p < rr_next x <= plen /\ rr_start x = p /\ p < rr_fixed x).
Proof.
  intros Hp. unfold read_rr. destruct (skip_name_safe buf p plen 10) as (r & -> & Hr); [done|lia|lia|done|]. cbn [mbind comp_bind].
  destruct r as [q|]; [|by exists None]. destruct (Hr q eq_refl) as [Hq1 Hq2].
  destruct (rd16_ok buf q) as (type & -> & _); [done|lia|lia|]. destruct (rd16_ok buf (q + 2)) as (class & -> & _); [done|lia|lia|].
  destruct (rd16_ok buf (q + 8)) as (len & -> & Hlen); [done|lia|lia|]. cbn [mbind comp_bind]. unfold is_u16 in Hlen.
  destruct (q + 10 + len <=? plen) eqn:E; zbool; [|by exists None]. eexists. split; [done|]. intros x [= <-]. cbn. lia.
Qed.

Lemma read_rrs_safe n : forall p, 0 <= p <= plen -> exists r, read_rrs n buf plen p = Ok r /\
  (forall rs e, r = Some (rs, e) -> p <= e <= plen).
Proof.
  induction n as [|n IH]; intros p Hp; cbn [read_rrs]; [exists (Some ([], p)); split; [done|]; intros rs e [= <- <-]; lia|].
  destruct (read_rr_safe p) as (r & -> & Hr); [lia|]. cbn [mbind comp_bind]. destruct r as [x|]; [|by exists None].
  destruct (Hr x eq_refl) as [Hx _]. destruct (IH (rr_next x)) as (rs & -> & Hrs); [lia|]. cbn [mbind comp_bind].
  destruct rs as [[rs e]|]; [|by exists None]. eexists. split; [done|]. intros rs' e' [= <- <-]. specialize (Hrs rs e eq_refl). lia.
Qed.

Lemma skip_section_rrs n : forall p, 0 <= p ->
  skip_section n buf plen p = (r ← read_rrs n buf plen p; Ok (option_map snd r)).
Proof.
  induction n as [|n IH]; intros p Hp; cbn [read_rrs skip_section]; [done|]. unfold read_rr.
  destruct (skip_name_safe buf p plen 10) as (r & -> & Hr); [done|lia|lia|done|]. cbn [mbind comp_bind].
  destruct r as [q|]; [|done]. destruct (Hr q eq_refl) as [Hq1 Hq2].
  destruct (rd16_ok buf q) as (type & -> & _); [done|lia|lia|]. destruct (rd16_ok buf (q + 2)) as (class & -> & _); [done|lia|lia|].
  destruct (rd16_ok buf (q + 8)) as (len & -> & Hlen); [done|lia|lia|]. cbn [mbind comp_bind]. unfold is_u16 in Hlen.
  unfold ADD_RDLEN, CHECK_LEN. destruct (q + 10 + len <=? plen) eqn:E; cbn [mbind comp_bind rr_next]; [|done].
  rewrite IH by lia. destruct (read_rrs n buf plen (q + 10 + len)) as [[[rs e]|]|]; done.
Qed.

(** The last record of the kind, or what was there before. *)
Definition last_opt (ret : option pseudo) (rs : list rr) : option pseudo :=
  fold_left (fun ret r => if is_opt r then Some (pseudo_of r) else ret) rs ret.

Lemma additional_loop_rrs n want : forall p ret sign rs e, 0 <= p -> read_rrs n buf plen p = Ok (Some (rs, e)) ->
  additional_loop n want buf plen p ret sign =
    Ok (last_opt ret rs,
        match last rs with Some r => if want && negb (is_opt r) && is_sig r then 1 else sign | None => sign end).
Proof.
  induction n as [|n IH]; intros p ret sign rs e Hp H; cbn [read_rrs additional_loop] in *; [by injection H as <- _|].
  unfold read_rr in H. destruct (skip_name_safe buf p plen 10) as (r & Hs & Hr); [done|lia|lia|done|].
  rewrite Hs in H |- *. cbn [mbind comp_bind] in H |- *.
  destruct r as [q|]; [|done]. destruct (Hr q eq_refl) as [Hq1 Hq2].
  destruct (rd16_ok buf q) as (type & Ht & _); [done|lia|lia|]. destruct (rd16_ok buf (q + 2)) as (class & Hc & _); [done|lia|lia|].
  destruct (rd16_ok buf (q + 8)) as (len & Hl & Hlen); [done|lia|lia|]. rewrite Ht, Hc, Hl in H |- *. cbn [mbind comp_bind] in H |- *.
  unfold is_u16 in Hlen. unfold ADD_RDLEN, CHECK_LEN. destruct (q + 10 + len <=? plen) eqn:E; [|done]. cbn [rr_next] in H.
  destruct (read_rrs n buf plen (q + 10 + len)) as [[[rs1 e1]|]|] eqn:Hrs; cbn [mbind comp_bind] in H; try done.
  injection H as <- _. cbv zeta. set (x := RR p q type class (q + 10 + len)).
  assert (n = O <-> rs1 = []) as Hn0.
  { destruct n as [|n']; [cbn in Hrs; by injection Hrs as <- _|]. split; [done|]. intros ->. cbn [read_rrs] in Hrs. revert Hrs.
    destruct (read_rr buf plen (q + 10 + len)) as [[y|]|]; cbn; try done. by destruct (read_rrs n' buf plen (rr_next y)) as [[[? ?]|]|]. }
  unfold last_opt. cbn [fold_left]. change (is_opt x) with (type =? T_OPT). change (pseudo_of x) with (p, q + 10 + len - p, q + 2).
  destruct (type =? T_OPT) eqn:Eo.
  - rewrite (IH _ _ _ rs1 e1) by (done || lia). do 2 f_equal. destruct rs1 as [|y rs1] using rev_ind.
    + cbn [last]. change (is_opt x) with (type =? T_OPT). by rewrite Eo, andb_false_r.
    + rewrite last_cons, !last_snoc. done.
  - rewrite (IH _ _ _ rs1 e1) by (done || lia). do 2 f_equal. destruct rs1 as [|y rs1 _] using rev_ind.
    + destruct n; [|discriminate (proj2 Hn0 eq_refl)]. cbn [last Nat.eqb]. change (is_opt x) with (type =? T_OPT).
      change (is_sig x) with ((class =? C_ANY) && ((type =? T_SIG) || (type =? T_TSIG))). rewrite Eo. cbn [negb andb].
      rewrite !andb_true_r. by rewrite andb_assoc.
    + destruct n; [pose proof (proj1 Hn0 eq_refl); by destruct rs1|]. cbn [Nat.eqb]. rewrite andb_false_r. cbn [andb].
      rewrite last_cons, !last_snoc. done.
Qed.
End walk.

Section walk2.
Context (buf : list Z) (plen : Z) (Hb : bytes buf) (Hpl : 0 <= plen <= zlen buf).

Lemma questions_loop_safe q : forall p, 0 <= p -> exists r, questions_loop q buf plen p = Ok r /\
  (forall e, r = Some e -> p <= e /\ (p <= plen -> e <= plen)) /\
  forall sign, exists sign', tkey_loop q buf plen p sign = Ok (r, sign').
Proof.
  induction q as [|q IH]; intros p Hp; cbn [questions_loop tkey_loop].
  { exists (Some p). split; [done|]. split; [intros e [= <-]; lia|eauto]. }
  destruct (skip_name_safe buf p plen 4) as (r & -> & Hr); [done|lia|lia|done|]. cbn [mbind comp_bind].
  destruct r as [a|]; [|exists None; split; [done|]; split; [done|eauto]]. destruct (Hr a eq_refl) as [Ha1 Ha2].
  destruct (IH (a + 4)) as (r & -> & Hr' & Hsign); [lia|]. exists r. split; [done|]. split.
  - intros e He. specialize (Hr' e He). lia.
  - intros sign. destruct (rd16_ok buf a) as (t & -> & _); [done|lia|lia|].
    destruct (rd16_ok buf (a + 2)) as (c & -> & _); [done|lia|lia|]. cbn [mbind comp_bind]. apply Hsign.
Qed.

Lemma count_ok i : 0 <= i -> i + 2 <= plen -> exists n, rd16 buf i = Ok n /\ is_u16 n.
Proof. intros. apply rd16_ok; [done|lia|lia]. Qed.

Lemma skip_questions_safe : HEADER <= plen -> exists r, skip_questions buf plen = Ok r /\
  (forall e, r = Some e -> HEADER <= e <= plen) /\
  forall n, qdcount buf = Ok n -> exists sign', tkey_loop (Z.to_nat n) buf plen HEADER 0 = Ok (r, sign').
Proof.
  unfold HEADER. intros H. unfold skip_questions, qdcount. destruct (count_ok 4) as (n & -> & Hn); [lia|lia|]. cbn [mbind comp_bind].
  destruct (questions_loop_safe (Z.to_nat n) HEADER) as (r & -> & Hr & Hs); [done|]. exists r. split; [done|].
  split; [intros e He; specialize (Hr e He); unfold HEADER in *; lia|]. intros n' [= <-]. apply Hs.
Qed.

Lemma count_sum_nat a b : is_u16 a -> is_u16 b -> Z.to_nat (a + b) = (Z.to_nat a + Z.to_nat b)%nat.
Proof. unfold is_u16. lia. Qed.
End walk2.

Definition counts (buf : list Z) (qd an ns ar : Z) : Prop :=
  qdcount buf = Ok qd /\ ancount buf = Ok an /\ nscount buf = Ok ns /\ arcount buf = Ok ar.

(** ** The checksum *)

Definition crc_state (c : Z) : Prop := 0 <= c < 2 ^ 32.

Lemma top_bit c : crc_state c -> negb (Z.land c 0x80000000 =? 0) = Z.testbit c 31.
Proof.
  intros Hc. assert (Z.land c 0x80000000 = if Z.testbit c 31 then 2 ^ 31 else 0) as ->; [|by destruct (Z.testbit c 31)].
  apply Z.bits_inj'. intros n Hn. rewrite Z.land_spec. change 0x80000000 with (2 ^ 31). rewrite Z.pow2_bits_eqb by lia.
  destruct (decide (n = 31)) as [->|Hne].
  - rewrite Z.eqb_refl, andb_true_r. by destruct (Z.testbit c 31); rewrite ?Z.pow2_bits_eqb, ?Z.bits_0 by lia.
  - rewrite (proj2 (Z.eqb_neq 31 n)), andb_false_r by done.
    destruct (Z.testbit c 31); rewrite ?Z.pow2_bits_eqb, ?Z.bits_0 by lia; [|done]. symmetry. by apply Z.eqb_neq.
Qed.

Lemma state_bits c : crc_state c <-> 0 <= c /\ forall n, 32 <= n -> Z.testbit c n = false.
Proof.
  unfold crc_state. split.
  - intros Hc. split; [lia|]. intros n Hn. rewrite <- (Z.mod_small c (2 ^ 32)) by lia. by apply Z.mod_pow2_bits_high.
  - intros [H0 Hb]. split; [done|]. assert (c = c `mod` 2 ^ 32) as ->; [|apply Z.mod_pos_bound; lia].
    apply Z.bits_inj'. intros n Hn. destruct (Z.lt_ge_cases n 32).
    + by rewrite Z.mod_pow2_bits_low.
    + by rewrite Z.mod_pow2_bits_high, Hb.
Qed.

Lemma lxor_state a b : crc_state a -> crc_state b -> crc_state (Z.lxor a b).
Proof.
  rewrite !state_bits. intros [Ha Hab] [Hb Hbb]. split; [by apply Z.lxor_nonneg|].
  intros n Hn. by rewrite Z.lxor_spec, Hab, Hbb.
Qed.

Lemma shifted_bits c n : 0 <= n -> Z.testbit (u32 (Z.shiftl c 1)) n = (1 <=? n) && (n <? 32) && Z.testbit c (n - 1).
Proof.
  intros Hn. unfold u32. destruct (Z.lt_ge_cases n 32).
  - rewrite Z.mod_pow2_bits_low by done. rewrite (proj2 (Z.ltb_lt n 32)), andb_true_r by done. rewrite Z.shiftl_spec by done.
    destruct (1 <=? n) eqn:E; zbool; [done|]. rewrite Z.testbit_neg_r by lia. done.
  - rewrite Z.mod_pow2_bits_high by lia. rewrite (proj2 (Z.ltb_ge n 32)) by done. by rewrite andb_false_r.
Qed.

(** One bit through the register; it loses nothing. *)
Definition crc_step (c : Z) : Z := crc_bits 1 c.

Lemma crc_step_bits c n : crc_state c -> 0 <= n < 32 ->
  Z.testbit (crc_step c) n = xorb ((1 <=? n) && Z.testbit c (n - 1)) (Z.testbit c 31 && Z.testbit 0x04c11db7 n).
Proof.
  intros Hc Hn. unfold crc_step. cbn [crc_bits]. rewrite top_bit by done.
  destruct (Z.testbit c 31); rewrite ?Z.lxor_spec, shifted_bits by lia; rewrite (proj2 (Z.ltb_lt n 32)), andb_true_r by lia; [done|].
  by rewrite xorb_false_r.
Qed.

Lemma crc_step_state c : crc_state c -> crc_state (crc_step c).
Proof.
  intros Hc. assert (crc_state (u32 (Z.shiftl c 1))) as Hs by (unfold crc_state, u32; apply Z.mod_pos_bound; lia).
  unfold crc_step. cbn [crc_bits]. case_match; [|done]. by apply lxor_state.
Qed.

Lemma crc_step_inj a b : crc_state a -> crc_state b -> crc_step a = crc_step b -> a = b.
Proof.
  intros Ha Hb E. assert (Z.testbit a 31 = Z.testbit b 31) as Htop.
  { pose proof (f_equal (fun x => Z.testbit x 0) E) as E0. cbv beta in E0. rewrite !crc_step_bits in E0 by (done || lia).
    cbn [Z.leb Z.compare andb xorb] in E0. change (Z.testbit 0x04c11db7 0) with true in E0.
    rewrite !andb_true_r in E0. by destruct (Z.testbit a 31), (Z.testbit b 31). }
  apply Z.bits_inj'. intros n Hn. apply state_bits in Ha as Ha', Hb as Hb'.
  destruct (Z.lt_ge_cases n 32); [|by rewrite (proj2 Ha'), (proj2 Hb')].
  destruct (decide (n = 31)) as [->|Hne]; [done|].
  pose proof (f_equal (fun x => Z.testbit x (n + 1)) E) as E1. cbv beta in E1. rewrite !crc_step_bits in E1 by (done || lia).
  replace (n + 1 - 1) with n in E1 by lia. rewrite (proj2 (Z.leb_le 1 (n + 1))), Htop in E1 by lia. cbn [andb] in E1.
  by destruct (Z.testbit a n), (Z.testbit b n), (Z.testbit b 31 && Z.testbit 0x04c11db7 (n + 1)).
Qed.

Lemma crc_bits_step i : forall c, crc_bits (S i) c = crc_bits i (crc_step c).
Proof. done. Qed.

Lemma crc_bits_state i : forall c, crc_state c -> crc_state (crc_bits i c).
Proof. induction i as [|i IH]; intros c Hc; [done|]. rewrite crc_bits_step. by apply IH, crc_step_state. Qed.

Lemma crc_bits_inj i : forall a b, crc_state a -> crc_state b -> crc_bits i a = crc_bits i b -> a = b.
Proof.
  induction i as [|i IH]; intros a b Ha Hb; [done|]. rewrite !crc_bits_step. intros E.
  apply crc_step_inj; [done..|]. by apply IH; [apply crc_step_state..|].
Qed.

Lemma byte_top_state x : is_byte x -> crc_state (Z.shiftl x 24).
Proof. unfold is_byte, crc_state. intros Hx. rewrite Z.shiftl_mul_pow2 by lia. lia. Qed.

Lemma crc_byte_state c x : crc_state c -> is_byte x -> crc_state (crc_byte c x).
Proof. intros Hc Hx. by apply crc_bits_state, lxor_state, byte_top_state. Qed.

Lemma crc_bytes_state l : bytes l -> forall c, crc_state c -> crc_state (fold_left crc_byte l c).
Proof. induction 1 as [|x l Hx Hl IH]; intros c Hc; [done|]. by apply IH, crc_byte_state. Qed.

Lemma lxor_cancel_l a b c : Z.lxor a b = Z.lxor a c -> b = c.
Proof.
  intros E. rewrite <- (Z.lxor_0_l b), <- (Z.lxor_0_l c), <- (Z.lxor_nilpotent a), !Z.lxor_assoc. by rewrite E.
Qed.

Lemma crc_bytes_inj l : bytes l -> forall a b, crc_state a -> crc_state b ->
  fold_left crc_byte l a = fold_left crc_byte l b -> a = b.
Proof.
  induction 1 as [|x l Hx Hl IH]; intros a b Ha Hb; [done|]. cbn [fold_left]. intros E. apply IH in E; [|by apply crc_byte_state..].
  apply crc_bits_inj in E; [|by apply lxor_state, byte_top_state..].
  rewrite !(Z.lxor_comm _ (Z.shiftl x 24)) in E. by apply lxor_cancel_l in E.
Qed.

(** A single byte that differs is noticed. *)
Lemma crc_detects l1 x y l2 : bytes l1 -> is_byte x -> is_byte y -> bytes l2 -> x <> y ->
  fold_left crc_byte (l1 ++ x :: l2) 0xffffffff <> fold_left crc_byte (l1 ++ y :: l2) 0xffffffff.
Proof.
  intros H1 Hx Hy H2 Hne. rewrite !fold_left_app. cbn [fold_left]. intros E.
  assert (crc_state (fold_left crc_byte l1 0xffffffff)) as Hs by by apply crc_bytes_state.
  apply crc_bytes_inj in E; [|done|by apply crc_byte_state..].
  apply crc_bits_inj in E; [|by apply lxor_state, byte_top_state..].
  apply lxor_cancel_l in E. rewrite !Z.shiftl_mul_pow2 in E by lia. lia.
Qed.

(** ** Resource records *)

(** The labels of a name in text form. *)
Definition labels_of (s : list Z) : list (list Z) := if decide (s = []) then [] else chunks s.

(** What an argument becomes in the packet, and what it has to be. *)
Definition arg_data (a : rarg) : list Z :=
  match a with
  | Arg4 addr => take 4 addr
  | ArgS v => put16 v
  | ArgL v => put32 v
  | ArgD name => wire_labels (labels_of name) ++ [0]
  | ArgT len text => take (Z.to_nat (u16 len)) text
  | ArgZ text => let s := default [] text in Z.min 255 (u16 (zlen s)) :: take (Z.to_nat (Z.min 255 (u16 (zlen s)))) s
  end.
Definition arg_wf (a : rarg) : Prop :=
  match a with
  | Arg4 addr => INADDRSZ <= zlen addr
  | ArgD name => Forall wf_label (labels_of name)
  | ArgT len text => u16 len <= zlen text
  | ArgZ text => zlen (default [] text) < 2 ^ 16
  | _ => True
  end.
Definition arg_offset (p : Z) (offset : option Z) (a : rarg) : option Z :=
  match a with ArgD _ => Some p | _ => offset end.

Lemma join_chunks s : join_dots (chunks s) = s.
Proof.
  induction s as [|c s IH]; [done|]. cbn [chunks]. destruct (c =? 46) eqn:E; zbool.
  - subst c. destruct (chunks s) as [|l ls] eqn:Hc; [by destruct s; cbn in Hc; repeat case_match|]. by rewrite join_dots_cons2, IH.
  - destruct (chunks s) as [|l ls] eqn:Hc; [by destruct s; cbn in Hc; repeat case_match|].
    destruct ls as [|l2 ls]; [rewrite join_dots_single in *; by subst|]. rewrite join_dots_cons2 in *. by rewrite <- IH.
Qed.
Lemma join_labels_of s : join_dots (labels_of s) = s.
Proof. unfold labels_of. destruct (decide (s = [])) as [->|]; [done|apply join_chunks]. Qed.

Lemma labels_of_join ls : ls <> [] -> Forall wf_label ls -> labels_of (join_dots ls) = ls.
Proof.
  intros Hne Hwf. unfold labels_of. destruct (decide (join_dots ls = [])) as [E|_].
  - exfalso. pose proof (labels_fuel ls Hwf) as H. rewrite E in H. destruct ls; [done|cbn in H; lia].
  - apply chunks_join; [done|]. eapply Forall_impl; [exact Hwf|]. intros l. apply wf_label_nodot.
Qed.
Lemma zlen_wire_labels ls : ls <> [] -> zlen (wire_labels ls) = zlen (join_dots ls) + 1.
Proof.
  induction ls as [|l ls IH]; intros Hne; [done|]. change (wire_labels (l :: ls)) with ((zlen l :: l) ++ wire_labels ls).
  rewrite zlen_app, zlen_cons. destruct ls as [|l2 ls]; [rewrite join_dots_single; change (zlen (wire_labels [])) with 0; lia|].
  rewrite IH, join_dots_cons2, zlen_app, zlen_cons by done. lia.
Qed.

Lemma wrs_fault bs : forall l i, 0 <= i <= zlen l -> zlen l < i + zlen bs -> wrs l i bs = Fault WriteOOB.
Proof.
  induction bs as [|b bs IH]; intros l i Hi Hl; cbn [wrs]; [rewrite zlen_nil in Hl; lia|]. rewrite zlen_cons in Hl.
  destruct (decide (i = zlen l)) as [->|Hne].
  - unfold wr, setb, zlen. rewrite (proj2 (Z.ltb_ge _ _)) by lia. by rewrite andb_false_r.
  - rewrite wr_ok by lia. cbn [mbind comp_bind].
    assert (zlen (<[Z.to_nat i:=b]> l) = zlen l) as Hz by (unfold zlen; by rewrite length_insert). apply IH; rewrite Hz; lia.
Qed.

(** Stores at [p] that either fit or fault. *)
Lemma wrs_cases l i bs : 0 <= i <= zlen l ->
  wrs l i bs = if zlen l <? i + zlen bs then Fault WriteOOB else Ok (blit l (Z.to_nat i) bs).
Proof. intros Hi. destruct (zlen l <? i + zlen bs) eqn:E; zbool; [by apply wrs_fault|apply wrs_ok; lia]. Qed.

Lemma put_label_fault l rest : forall buf p j, Forall (fun c => c <> 46) l -> 0 <= p <= zlen buf -> zlen buf < p + zlen l ->
  put_label buf p (l ++ rest) j = Fault WriteOOB.
Proof.
  induction l as [|c l IH]; intros buf p j Hl Hp Hlen; cbn [app put_label]; [rewrite zlen_nil in Hlen; lia|].
  apply Forall_cons in Hl as [Hc Hl]. rewrite zlen_cons in Hlen. rewrite (proj2 (Z.eqb_neq c 46)) by done.
  destruct (decide (p = zlen buf)) as [->|Hne].
  - unfold wr, setb, zlen. rewrite (proj2 (Z.ltb_ge _ _)) by lia. by rewrite andb_false_r.
  - rewrite wr_ok by lia. cbn [mbind comp_bind].
    assert (zlen (<[Z.to_nat p:=c]> buf) = zlen buf) as Hz by (unfold zlen; by rewrite length_insert). apply IH; [done|rewrite Hz; lia..].
Qed.

Lemma rfc1035_loop_fault ls : forall fuel buf p, Forall wf_label ls -> (length ls <= fuel)%nat ->
  0 <= p <= zlen buf -> zlen buf < p + zlen (wire_labels ls) -> rfc1035_loop fuel buf p (join_dots ls) = Fault WriteOOB.
Proof.
  induction ls as [|l ls IH]; intros fuel buf p Hwf Hf Hp Hlen; [change (zlen (wire_labels [])) with 0 in Hlen; lia|].
  apply Forall_cons in Hwf as [Hl Hwf]. destruct fuel as [|fuel]; [cbn in Hf; lia|].
  change (wire_labels (l :: ls)) with ((zlen l :: l) ++ wire_labels ls) in *. zlens. pose proof Hl as [Hll _].
  destruct (join_dots_next l ls) as (rest & -> & Hr & Ht).
  cbn [rfc1035_loop]. destruct l as [|c l']; [unfold zlen in Hll; cbn in Hll; lia|]. set (l := c :: l') in *.
  change (l ++ rest) with (c :: (l' ++ rest)). cbv iota beta. change (c :: (l' ++ rest)) with (l ++ rest). clearbody l. clear c l'.
  destruct (decide (p + 1 + zlen l <= zlen buf)) as [Hfit|Hno].
  - rewrite put_label_ok; [|by apply wf_label_nodot|done|lia|lia]. cbn [mbind comp_bind]. set (b1 := blit _ _ _).
    assert (zlen b1 = zlen buf) as Hb1 by (unfold b1, zlen in *; rewrite length_blit; lia).
    rewrite wr_ok by lia. cbn [mbind comp_bind]. set (b2 := <[_:=_]> b1).
    assert (zlen b2 = zlen buf) as Hb2 by (unfold b2, zlen in *; rewrite length_insert; lia).
    rewrite Ht. apply IH; [done|cbn in Hf; lia|lia|lia].
  - destruct (decide (p = zlen buf)) as [->|Hne]; [|by rewrite put_label_fault by (by apply wf_label_nodot || lia)].
    destruct l as [|c l]; [unfold zlen in Hll; cbn in Hll; lia|]. cbn [app put_label].
    apply wf_label_nodot, Forall_cons in Hl as [Hc _]. rewrite (proj2 (Z.eqb_neq c 46)) by done.
    unfold wr, setb, zlen. rewrite (proj2 (Z.ltb_ge _ _)) by lia. by rewrite andb_false_r.
Qed.

Lemma zlen_blit l p bs : 0 <= p -> p + zlen bs <= zlen l -> zlen (blit l (Z.to_nat p) bs) = zlen l.
Proof. intros Hp Hl. unfold zlen in *. rewrite length_blit; lia. Qed.

Lemma blit_app l p a b : 0 <= p -> p + zlen a + zlen b <= zlen l ->
  blit (blit l (Z.to_nat p) a) (Z.to_nat (p + zlen a)) b = blit l (Z.to_nat p) (a ++ b).
Proof.
  intros Hp Hl. replace (Z.to_nat (p + zlen a)) with (Z.to_nat p + length a)%nat by (unfold zlen; lia).
  apply blit_blit. unfold zlen in Hl. lia.
Qed.

(** Bytes written over earlier ones of the same number. *)
Lemma blit_over l p a b b' c : 0 <= p -> p + zlen a + zlen b + zlen c <= zlen l -> length b = length b' ->
  blit (blit l (Z.to_nat p) (a ++ b ++ c)) (Z.to_nat (p + zlen a)) b' = blit l (Z.to_nat p) (a ++ b' ++ c).
Proof.
  intros Hp Hl Hbb. replace (Z.to_nat (p + zlen a)) with (Z.to_nat p + length a)%nat by (unfold zlen; lia).
  assert (length (take (Z.to_nat p) l ++ a) = (Z.to_nat p + length a)%nat) as Hpre
    by (rewrite length_app, length_take; unfold zlen in Hl; lia).
  unfold blit at 2. rewrite <- !app_assoc. rewrite (app_assoc (take _ _) a). unfold blit at 1.
  rewrite <- Hpre, take_app_length, <- drop_drop, drop_app_length, <- Hbb, drop_app_length.
  unfold blit. rewrite !length_app, Hbb. by rewrite <- !app_assoc.
Qed.

Lemma put_name_cases buf p ls : Forall wf_label ls -> 0 <= p <= zlen buf ->
  do_rfc1035_name buf p (join_dots ls) =
    if zlen buf <? p + zlen (wire_labels ls) then Fault WriteOOB
    else Ok (blit buf (Z.to_nat p) (wire_labels ls), p + zlen (wire_labels ls)).
Proof.
  intros Hwf Hp. destruct (zlen buf <? p + zlen (wire_labels ls)) eqn:E; zbool.
  - apply rfc1035_loop_fault; [done|by apply labels_fuel|done|done].
  - apply do_rfc1035_name_ok; [done|lia|lia].
Qed.

Lemma put_arg_cases buf p offset a : arg_wf a -> 0 <= p <= zlen buf ->
  put_arg buf p offset a =
    if zlen buf <? p + zlen (arg_data a) then Fault WriteOOB
    else Ok (blit buf (Z.to_nat p) (arg_data a), p + zlen (arg_data a), arg_offset p offset a).
Proof.
  intros Hwf Hp. destruct a as [addr|v|v|name|len text|text]; cbn [put_arg arg_data arg_offset arg_wf] in *.
  - rewrite (proj2 (Z.ltb_ge _ _)) by done. rewrite wrs_cases by done.
    assert (zlen (take 4 addr) = INADDRSZ) as -> by (unfold INADDRSZ, zlen in *; rewrite length_take; lia). by case_if.
  - unfold PUTSHORT. rewrite wrs_cases by done. by case_if.
  - unfold PUTLONG. rewrite wrs_cases by done. by case_if.
  - rewrite <- (join_labels_of name) at 1. rewrite put_name_cases by done. rewrite zlen_app. change (zlen [0]) with 1.
    destruct (zlen buf <? p + zlen (wire_labels (labels_of name))) eqn:E; zbool; cbn [mbind comp_bind].
    { by rewrite (proj2 (Z.ltb_lt _ _)) by lia. }
    pose proof (zlen_nonneg (wire_labels (labels_of name))). set (w := wire_labels _) in *.
    assert (wr (blit buf (Z.to_nat p) w) (p + zlen w) 0 = wrs (blit buf (Z.to_nat p) w) (p + zlen w) [0]) as ->
      by (cbn [wrs]; by destruct (wr _ _ _)).
    rewrite wrs_cases, zlen_blit by (rewrite ?zlen_blit; lia). change (zlen [0]) with 1. rewrite Z.add_assoc.
    case_if; [done|]. zbool. cbn [mbind comp_bind mret comp_ret]. rewrite blit_app by (change (zlen [0]) with 1; lia). done.
  - rewrite (proj2 (Z.ltb_ge _ _)) by done. rewrite wrs_cases by done.
    assert (0 <= u16 len) by (apply Z.mod_pos_bound; lia).
    assert (zlen (take (Z.to_nat (u16 len)) text) = u16 len) as -> by (unfold zlen in *; rewrite length_take; lia). by case_if.
  - set (s := default [] text) in *. set (n := Z.min 255 (u16 (zlen s))). pose proof (zlen_nonneg s).
    assert (0 <= n <= zlen s) as Hn by (unfold n, u16; rewrite Z.mod_small by lia; lia).
    assert (zlen (take (Z.to_nat n) s) = n) as Ht by (unfold zlen in *; rewrite length_take; lia).
    assert (forall t, zlen t = n ->
      (buf ← wr buf p n; buf ← wrs buf (p + 1) t; mret (buf, p + 1 + n, offset)) =
      (buf ← wrs buf p (n :: t); mret (buf, p + zlen (n :: t), offset))) as Hz.
    { intros t <-. cbn [wrs]. rewrite zlen_cons, Z.add_assoc. by destruct (wr buf p (zlen t)). }
    rewrite Hz, wrs_cases by done. by case_if.
Qed.

(** What all the arguments become, and where the last name starts. *)
Definition args_data (args : list rarg) : list Z := a ← args; arg_data a.
Fixpoint args_offset (p : Z) (offset : option Z) (args : list rarg) : option Z :=
  match args with [] => offset | a :: args' => args_offset (p + zlen (arg_data a)) (arg_offset p offset a) args' end.

Lemma put_args_cases args : forall buf p offset, Forall arg_wf args -> 0 <= p <= zlen buf ->
  put_args buf p offset args =
    if zlen buf <? p + zlen (args_data args) then Fault WriteOOB
    else Ok (blit buf (Z.to_nat p) (args_data args), p + zlen (args_data args), args_offset p offset args).
Proof.
  induction args as [|a args IH]; intros buf p offset Hwf Hp; unfold args_data; cbn [put_args args_offset mbind list_bind].
  { rewrite zlen_nil, Z.add_0_r, blit_nil. by rewrite (proj2 (Z.ltb_ge _ _)) by lia. }
  apply Forall_cons in Hwf as [Ha Hwf]. rewrite put_arg_cases by done. fold (args_data args). rewrite zlen_app, Z.add_assoc.
  pose proof (zlen_nonneg (arg_data a)). pose proof (zlen_nonneg (args_data args)).
  destruct (zlen buf <? p + zlen (arg_data a)) eqn:E; zbool; cbn [mbind comp_bind].
  { by rewrite (proj2 (Z.ltb_lt _ _)) by lia. }
  rewrite IH; [|done|rewrite zlen_blit; lia]. rewrite zlen_blit by lia. case_if; [done|]. zbool. by rewrite blit_app by lia.
Qed.

(** The fixed part of a record, and all of it. *)
Definition record_head (nameoffset ttl type class : Z) : list Z :=
  put16 (Z.lor nameoffset 0xc000) ++ put16 type ++ put16 class ++ put32 ttl.
Definition record_bytes (nameoffset ttl type class : Z) (args : list rarg) : list Z :=
  record_head nameoffset ttl type class ++ put16 (zlen (args_data args)) ++ args_data args.

Lemma zlen_put16 v : zlen (put16 v) = 2.
Proof. done. Qed.

Lemma zlen_record nameoffset ttl type class args : zlen (record_bytes nameoffset ttl type class args) = 12 + zlen (args_data args).
Proof.
  unfold record_bytes, record_head. rewrite !zlen_app, !zlen_put16. change (zlen (put32 ttl)) with 4.
  lia.
Qed.

Definition behind (limit : option Z) (p : Z) : bool := match limit with Some lim => lim <? p | None => false end.

Lemma put_fixed buf pp nameoffset ttl type class (k : list Z -> comp added) : 0 <= pp <= zlen buf ->
  (buf ← PUTSHORT buf pp (Z.lor nameoffset 0xc000);
   buf ← PUTSHORT buf (pp + 2) type;
   buf ← PUTSHORT buf (pp + 4) class;
   buf ← PUTLONG buf (pp + 6) ttl;
   buf ← PUTSHORT buf (pp + 10) 0; k buf) =
  if zlen buf <? pp + 12 then Fault WriteOOB
  else k (blit buf (Z.to_nat pp) (record_head nameoffset ttl type class ++ [0; 0])).
Proof.
  intros Hp. assert (forall a b l i, wrs l i (a ++ b) = (l ← wrs l i a; wrs l (i + zlen a) b)) as Hw.
  { induction a as [|x a IH]; intros b l i; cbn [app wrs mbind comp_bind]; [by rewrite zlen_nil, Z.add_0_r|].
    destruct (wr l i x) as [l'|]; cbn [mbind comp_bind]; [|done]. rewrite IH, zlen_cons. by rewrite Z.add_assoc. }
  transitivity (l ← wrs buf pp (record_head nameoffset ttl type class ++ [0; 0]); k l).
  - unfold PUTSHORT, PUTLONG, record_head. rewrite <- !app_assoc. change [0; 0] with (put16 0).
    rewrite Hw. destruct (wrs buf pp _) as [l1|]; cbn [mbind comp_bind]; [|done].
    rewrite Hw, zlen_put16. destruct (wrs l1 _ _) as [l2|]; cbn [mbind comp_bind]; [|done].
    rewrite Hw, zlen_put16. replace (pp + 2 + 2) with (pp + 4) by lia. destruct (wrs l2 _ _) as [l3|]; cbn [mbind comp_bind]; [|done].
    rewrite Hw, zlen_put16. replace (pp + 4 + 2) with (pp + 6) by lia. destruct (wrs l3 _ _) as [l4|]; cbn [mbind comp_bind]; [|done].
    change (zlen (put32 ttl)) with 4. by replace (pp + 6 + 4) with (pp + 10) by lia.
  - rewrite wrs_cases by done. change (zlen (record_head nameoffset ttl type class ++ [0; 0])) with 12. by case_if.
Qed.

Lemma add_record_cases buf limit trunc nameoffset pp ttl type class args :
  0 <= pp <= zlen buf -> Forall arg_wf args -> default false trunc = false ->
  let record := record_bytes nameoffset ttl type class args in
  let p := pp + zlen record in
  let offset := args_offset (pp + 12) None args in
  add_resource_record buf limit trunc nameoffset pp ttl type class args =
    if zlen buf <? p then Fault WriteOOB
    else Ok (if behind limit p then Added 0 (blit buf (Z.to_nat pp) record) pp (bool_decide (is_Some trunc)) offset
             else Added 1 (blit buf (Z.to_nat pp) record) p false offset).
Proof.
  intros Hp Hwf Htr. cbv zeta. rewrite zlen_record. unfold add_resource_record. rewrite Htr, put_fixed by done.
  pose proof (zlen_nonneg (args_data args)). set (h := record_head nameoffset ttl type class).
  assert (zlen (h ++ [0; 0]) = 12) as Hh by done.
  destruct (zlen buf <? pp + 12) eqn:E1; zbool; [by rewrite (proj2 (Z.ltb_lt _ _)) by lia|]. cbv zeta.
  rewrite put_args_cases; [|done|rewrite zlen_blit; lia]. rewrite zlen_blit, Z.add_assoc by lia.
  destruct (zlen buf <? pp + 12 + zlen (args_data args)) eqn:E2; zbool; cbn [mbind comp_bind]; [done|].
  rewrite <- Hh at 1. rewrite blit_app, <- app_assoc by lia.
  replace (pp + 12 + zlen (args_data args) - (pp + 10) - 2) with (zlen (args_data args)) by lia.
  unfold PUTSHORT. replace (pp + 10) with (pp + zlen h) by done.
  rewrite wrs_ok; [|change (zlen h) with 10; lia|rewrite zlen_put16, zlen_blit; zlens; change (zlen h) with 10 in *; lia].
  cbn [mbind comp_bind]. rewrite blit_over; [|lia|change (zlen h) with 10; change (zlen [0; 0]) with 2; lia|done].
  unfold behind, record_bytes. fold h. destruct limit as [lim|]; [|done].
  destruct (lim - (pp + 12 + zlen (args_data args)) <? 0) eqn:E3; zbool.
  - by rewrite (proj2 (Z.ltb_lt lim _)) by lia.
  - by rewrite (proj2 (Z.ltb_ge lim _)) by lia.
Qed.

(** * Properties *)

(** Where [find_pseudoheader] takes the first section of records to begin:
    behind the questions, unless it is asked for a signature in a packet
    that is no standard query. *)
Definition records_start (want : bool) (h3 q0 : Z) : Z := if want && negb (OPCODE h3 =? 0) then HEADER else q0.

(** C27: [find_pseudoheader] finds the last OPT record of the additional section
    of a packet, whatever the sections in front of it hold, and nothing when
    there is none; the packet counts as signed when its last record is a
    signature. The questions can be skipped, and the records are well formed
    from the place where the function begins to read them: behind the
    questions when the opcode is QUERY or the caller does not ask for the
    signature, and otherwise just behind the header. So the additional section
    is that of the packet for standard queries, for packets without questions,
    and for callers that do not want to know of a signature; the questions of
    any other packet are taken for records. *)
Theorem find_pseudoheader_correct buf plen want qd an ns ar h3 q0 rs1 q1 rs2 q2 :
  bytes buf -> HEADER <= plen <= zlen buf -> counts buf qd an ns ar -> hb3 buf = Ok h3 ->
  skip_questions buf plen = Ok (Some q0) ->
  read_rrs (Z.to_nat (an + ns)) buf plen (records_start want h3 q0) = Ok (Some (rs1, q1)) ->
  read_rrs (Z.to_nat ar) buf plen q1 = Ok (Some (rs2, q2)) ->
  exists sign, find_pseudoheader buf plen want = Ok (last_opt None rs2, sign) /\
    (want = false -> sign = 0) /\
    (forall r, last rs2 = Some r -> want = true -> is_opt r = false -> is_sig r = true -> sign = 1).
Proof.
  intros Hb Hpl (Hqd & Han & Hns & Har) Hop Hq H1 H2. assert (0 <= HEADER) as HH by done.
  unfold find_pseudoheader. rewrite Har. cbn [mbind comp_bind].
  destruct (skip_questions_safe buf plen Hb) as (r & Hq' & Hr & Htk); [lia|lia|].
  rewrite Hq in Hq'. injection Hq' as <-. destruct (Hr q0 eq_refl) as [Hq0 Hq0'].
  assert (exists sign, (if want then h3 ← hb3 buf;
    if OPCODE h3 =? 0 then n ← qdcount buf; tkey_loop (Z.to_nat n) buf plen HEADER 0 else mret (Some HEADER, 0)
    else r ← skip_questions buf plen; mret (r, 0)) = Ok (Some (records_start want h3 q0), sign) /\ (want = false -> sign = 0)) as (sign & Hpos & Hs0).
  { unfold records_start. destruct want; cbn [andb].
    - rewrite Hop. cbn [mbind comp_bind]. destruct (OPCODE h3 =? 0); cbn [negb]; [|by exists 0]. rewrite Hqd. cbn [mbind comp_bind].
      destruct (Htk qd Hqd) as (sign & ->). by exists sign.
    - rewrite Hq. cbn [mbind comp_bind mret comp_ret]. by exists 0. }
  assert (0 <= records_start want h3 q0 <= plen) as [Hs1 Hs2] by (unfold records_start; case_if; lia).
  rewrite Hpos. cbn [mbind comp_bind]. destruct (ar =? 0) eqn:Ear; zbool.
  { subst ar. cbn in H2. injection H2 as <- _. by exists sign. }
  rewrite Han, Hns. cbn [mbind comp_bind]. rewrite (skip_section_rrs buf plen Hb) by lia. rewrite H1. cbn [mbind comp_bind option_map snd].
  rewrite (additional_loop_rrs buf plen Hb ltac:(lia) _ want q1 None sign rs2 q2); [| |done].
  - eexists. split; [done|]. split.
    + intros ->. cbn [andb]. destruct (last rs2); by apply Hs0.
    + intros r -> -> Ho Hsig. by rewrite Ho, Hsig.
  - destruct (read_rrs_safe buf plen Hb ltac:(lia) (Z.to_nat (an + ns)) (records_start want h3 q0)) as (r & Hr1 & Hr2); [lia|].
    rewrite H1 in Hr1. injection Hr1 as <-. specialize (Hr2 rs1 q1 eq_refl). lia.
Qed.

Definition edns_packet : list Z :=
  [0; 7; 1; 0; 0; 1; 0; 0; 0; 0; 0; 1] ++ [1; 97; 0; 0; 1; 0; 1] ++ [0; 0; 41; 16; 0; 0; 0; 0; 0; 0; 0].
Lemma find_pseudoheader_correct_witness :
  exists sign, find_pseudoheader edns_packet 30 true = Ok (Some (19, 11, 22), sign).
Proof.
  destruct (find_pseudoheader_correct edns_packet 30 true 1 0 0 1 1 19 [] 19 [RR 19 20 41 4096 30] 30) as (sign & H & _).
  1-2: by_decide. 1: by vm_compute. 1-4: reflexivity. by exists sign.
Defined.

(** The same packet with another opcode: its OPT record is not found by a
    caller that asks for the signature, and found by one that does not. *)
Definition edns_notify : list Z := <[2%nat := 0x21]> edns_packet.
Example pseudoheader_missed : find_pseudoheader edns_notify 30 true = Ok (None, 0) /\
  find_pseudoheader edns_notify 30 false = Ok (Some (19, 11, 22), 0).
Proof. split; vm_compute; reflexivity. Qed.

(** A question: the labels of its name, and its type and class as bytes. *)
Definition question : Type := list (list Z) * list Z.

Inductive questions_at (buf : list Z) (plen : Z) : Z -> list question -> Prop :=
| qs_nil p : questions_at buf plen p []
| qs_cons p ls t e qs : name_at buf plen 0 p ls t e -> Forall (Forall label_char) ls -> zlen (dotted ls) < MAXDNAME ->
    t + 4 <= plen -> e + 4 <= plen -> questions_at buf plen (e + 4) qs ->
    questions_at buf plen p ((ls, take 4 (drop (Z.to_nat e) buf)) :: qs).

(** What the checksum is taken of. *)
Definition digest (qs : list question) : list Z :=
  q ← qs; (tolower <$> join_dots q.1) ++ q.2.

Lemma name_at_end buf plen h p ls t e : name_at buf plen h p ls t e -> 0 <= e.
Proof. induction 1; lia. Qed.

Lemma rd_take4 buf e : 0 <= e -> e + 4 <= zlen buf -> exists a b c d,
  rd buf e = Ok a /\ rd buf (e + 1) = Ok b /\ rd buf (e + 2) = Ok c /\ rd buf (e + 3) = Ok d /\
  take 4 (drop (Z.to_nat e) buf) = [a; b; c; d].
Proof.
  intros He Hl. assert (forall k, 0 <= k -> rd buf (e + k) = of_option ReadOOB (drop (Z.to_nat e) buf !! Z.to_nat k)) as Hrd.
  { intros k Hk. unfold rd, getb. rewrite (proj2 (Z.leb_le 0 _)) by lia. rewrite lookup_drop. by rewrite Z2Nat.inj_add by lia. }
  destruct (drop (Z.to_nat e) buf) as [|a [|b [|c [|d r]]]] eqn:Hd;
    try (apply (f_equal length) in Hd; rewrite length_drop in Hd; unfold zlen in Hl; cbn in Hd; lia).
  exists a, b, c, d. rewrite <- (Z.add_0_r e) at 1. by rewrite !Hrd by lia.
Qed.

Lemma crc_loop_at buf plen p qs : questions_at buf plen p qs -> bytes buf -> plen <= zlen buf ->
  forall name crc, MAXDNAME <= zlen name ->
  exists name', crc_loop (length qs) buf plen p name crc = Ok (fold_left crc_byte (digest qs) crc, name') /\ zlen name' = zlen name.
Proof.
  induction 1 as [p|p ls t e qs Hat Hls Hmax Ht He Hqs IH]; intros Hb Hbl name crc Hname; cbn [length crc_loop]; [by exists name|].
  rewrite (extract_name_at buf plen p name 4 ls t e) by done.
  destruct (finished_name buf plen p name ls t e Hat) as [Hc Hn1]; [done..|]. set (n1 := finish_name _ _ _) in *.
  cbn [mbind comp_bind].
  change (1 =? 0) with false. cbv iota zeta. rewrite Hc.
  destruct (rd_take4 buf e) as (a & b & c & d & -> & -> & -> & -> & Htc); [by apply (name_at_end _ _ _ _ _ _ _ Hat)|lia|].
  cbn [mbind comp_bind]. unfold CHECK_LEN. rewrite (proj2 (Z.leb_le _ _)) by lia. cbn [negb].
  destruct (IH Hb Hbl n1 (fold_left crc_byte [a; b; c; d] (fold_left crc_byte (tolower <$> join_dots ls) crc))) as (n2 & -> & Hn2); [lia|].
  exists n2. split; [|lia]. do 2 f_equal. unfold digest. cbn [mbind list_bind fst snd]. by rewrite Htc, !fold_left_app.
Qed.

Lemma join_label_chars ls : Forall (Forall label_char) ls -> Forall (fun c => 32 <= c < 127) (join_dots ls).
Proof.
  intros H. induction H as [|l ls Hl Hls IH]; [constructor|]. assert (Forall (fun c => 32 <= c < 127) l) as Hl'
    by (eapply Forall_impl; [exact Hl|]; unfold label_char; intros c Hc; cbn in Hc; lia).
  destruct ls as [|l2 ls]; [by rewrite join_dots_single|]. rewrite join_dots_cons2. apply Forall_app. split; [done|]. by constructor.
Qed.

Lemma digest_bytes buf plen p qs : questions_at buf plen p qs -> bytes buf -> bytes (digest qs).
Proof.
  induction 1 as [|p ls t e qs Hat Hls Hmax Ht He Hqs IH]; intros Hb; unfold digest; cbn [mbind list_bind fst snd]; [constructor|].
  apply Forall_app. split; [|by apply IH]. apply Forall_app. split; [|by apply Forall_take, Forall_drop].
  apply Forall_fmap. eapply Forall_impl; [exact (join_label_chars ls Hls)|]. intros c Hc. apply tolower_byte. unfold is_byte. cbn in Hc. lia.
Qed.

(** C26: the checksum of the questions is that of their names in lower case and
    their types and classes, wherever the packet keeps them and however it
    compresses them: the same questions always give the same checksum. Text of
    the same length that differs from it in one byte gives another one. *)
Theorem questions_crc_correct buf plen name qs :
  bytes buf -> plen <= zlen buf -> MAXDNAME <= zlen name ->
  qdcount buf = Ok (zlen qs) -> questions_at buf plen HEADER qs ->
  exists name', questions_crc buf plen name = Ok (fold_left crc_byte (digest qs) 0xffffffff, name') /\
    zlen name' = zlen name /\
    (forall l1 x y l2, digest qs = l1 ++ x :: l2 -> is_byte y -> x <> y ->
      fold_left crc_byte (l1 ++ y :: l2) 0xffffffff <> fold_left crc_byte (digest qs) 0xffffffff).
Proof.
  intros Hb Hbl Hname Hqd Hqs. unfold questions_crc. rewrite Hqd. cbn [mbind comp_bind]. unfold zlen at 1. rewrite Nat2Z.id.
  destruct (crc_loop_at buf plen HEADER qs Hqs Hb Hbl name 0xffffffff Hname) as (name' & -> & Hn').
  exists name'. split; [done|]. split; [done|]. intros l1 x y l2 Hd Hy Hne.
  pose proof (digest_bytes buf plen HEADER qs Hqs Hb) as Hdb. rewrite Hd in Hdb |- *.
  apply Forall_app in Hdb as [H1 H2]. apply Forall_cons in H2 as [Hx H2].
  apply crc_detects; [done..|congruence].
Qed.

Lemma questions_crc_correct_witness :
  exists name', questions_crc edns_packet 30 (replicate 1025 0) = Ok (fold_left crc_byte [97; 0; 1; 0; 1] 0xffffffff, name') /\
    fold_left crc_byte [98; 0; 1; 0; 1] 0xffffffff <> fold_left crc_byte [97; 0; 1; 0; 1] 0xffffffff.
Proof.
  destruct (questions_crc_correct edns_packet 30 (replicate 1025 0) [([lit "a"], [0; 1; 0; 1])]) as (name' & H & _ & Hd).
  1-3: by_decide. 1: reflexivity.
  - apply (qs_cons edns_packet 30 12 [lit "a"] 15 15 []); [|unfold label_char; by_decide|by_decide|lia|lia|constructor].
    apply (at_label edns_packet 30 0 12 1); [lia|lia|done|lia|]. apply (at_end edns_packet 30 0 14); [lia|done].
  - exists name'. split; [exact H|]. refine (Hd [] 97 98 [0; 1; 0; 1] _ _ _); [reflexivity|by_decide|lia].
Defined.

(** [add_resource_record] appends exactly the record its arguments describe
    (compressed owner name, type, class, lifetime, length and data, names in
    wire form) and moves on behind it. When the record ends behind the limit
    it is written all the same, but the position stays, 0 is returned and the
    truncation flag is set. The only stores outside the buffer are those of a
    record that does not fit into it, whatever the limit. *)
Theorem add_resource_record_correct buf limit trunc nameoffset pp ttl type class args :
  0 <= pp <= zlen buf -> Forall arg_wf args -> default false trunc = false ->
  let record := record_head nameoffset ttl type class ++ put16 (zlen (args_data args)) ++ args_data args in
  let p := pp + 12 + zlen (args_data args) in
  let out := take (Z.to_nat pp) buf ++ record ++ drop (Z.to_nat p) buf in
  match add_resource_record buf limit trunc nameoffset pp ttl type class args with
  | Fault f => f = WriteOOB /\ zlen buf < p
  | Ok r => p <= zlen buf /\ a_buf r = out /\ a_offset r = args_offset (pp + 12) None args /\
      if behind limit p then a_ret r = 0 /\ a_pp r = pp /\ a_trunc r = bool_decide (is_Some trunc)
      else a_ret r = 1 /\ a_pp r = p /\ a_trunc r = false
  end.
Proof.
  intros Hp Hwf Htr. cbv zeta. pose proof (zlen_record nameoffset ttl type class args) as Hr.
  rewrite add_record_cases by done. pose proof (zlen_nonneg (args_data args)).
  destruct (zlen buf <? _) eqn:E; zbool; [split; [done|lia]|]. split; [lia|]. rewrite Hr, Z.add_assoc in *.
  assert (blit buf (Z.to_nat pp) (record_bytes nameoffset ttl type class args) =
    take (Z.to_nat pp) buf ++ (record_head nameoffset ttl type class ++ put16 (zlen (args_data args)) ++ args_data args) ++
      drop (Z.to_nat (pp + 12 + zlen (args_data args))) buf) as ->.
  { unfold blit. do 3 f_equal. revert Hr. unfold zlen at 1. lia. }
  by destruct (behind limit _).
Qed.

Lemma add_resource_record_correct_witness : exists r,
  add_resource_record (replicate 60 0) (Some 40) (Some false) 12 20 300 T_CNAME C_IN [ArgD (lit "a.org")] = Ok r /\
  a_buf r = replicate 20 0 ++ [0xc0; 12; 0; 5; 0; 1; 0; 0; 1; 44; 0; 7; 1; 97; 3; 111; 114; 103; 0] ++ replicate 21 0 /\
  a_ret r = 1 /\ a_pp r = 39.
Proof.
  pose proof (add_resource_record_correct (replicate 60 0) (Some 40) (Some false) 12 20 300 T_CNAME C_IN [ArgD (lit "a.org")]) as H.
  specialize (H ltac:(by_decide)). specialize (H ltac:(repeat constructor; by_decide)). specialize (H eq_refl). cbv zeta in H.
  destruct (add_resource_record _ _ _ _ _ _ _ _ _) as [r|]; [|exfalso; vm_compute in H; by destruct H].
  exists r. split; [done|]. destruct H as (_ & Hbuf & _ & H). vm_compute in H. destruct H as (Hret & Hpp & _).
  split; [rewrite Hbuf; by vm_compute|done].
Defined.

(** Behind the limit the buffers of dnsmasq have room for a name and the
    fixed part of a record. That is three bytes less than a record of the
    longest names needs: one whose data is a name is stored outside of the
    buffer when the name has more characters than are left in front of the
    limit plus 1021, although names of up to 1023 characters are accepted; and
    with every shorter name it is not. *)
Theorem long_name_overflows buf limit trunc nameoffset pp ttl type class ls :
  0 <= pp <= limit -> zlen buf = limit + MAXDNAME + RRFIXEDSZ -> ls <> [] -> Forall wf_label ls -> default false trunc = false ->
  (add_resource_record buf (Some limit) trunc nameoffset pp ttl type class [ArgD (join_dots ls)] = Fault WriteOOB <->
   limit - pp + 1021 < zlen (join_dots ls)).
Proof.
  unfold MAXDNAME, RRFIXEDSZ. intros Hpp Hbuf Hne Hwf Htr.
  assert (labels_of (join_dots ls) = ls) as Hls by by apply labels_of_join.
  rewrite add_record_cases; [|lia|constructor; [cbn [arg_wf]; by rewrite Hls|constructor]|done].
  rewrite zlen_record. unfold args_data. cbn [mbind list_bind arg_data]. rewrite Hls, app_nil_r, zlen_app. change (zlen [0]) with 1.
  pose proof (zlen_wire_labels ls Hne) as Hw. destruct (zlen buf <? _) eqn:E; zbool; split; try done; try lia.
Qed.

Definition label_a (n : nat) : list Z := replicate n 97.
Lemma long_name_overflows_witness :
  add_resource_record (replicate (16 + 1035) 0) (Some 16) (Some false) 12 16 300 T_CNAME C_IN
    [ArgD (join_dots (replicate 15 (label_a 63) ++ [label_a 63]))] = Fault WriteOOB.
Proof.
  apply (long_name_overflows (replicate (16 + 1035) 0) 16 (Some false) 12 16 300 T_CNAME C_IN (replicate 15 (label_a 63) ++ [label_a 63]));
    [lia|by vm_compute|done|by_decide|done|by vm_compute].
Defined.

(** The bytes behind a question whose name is a pointer are not checked: the
    type of the question is then read behind the end of the message, from what
    an earlier one has left there. *)
Definition short_request (behind : list Z) : list Z :=
  [0; 7; 1; 0; 0; 1; 0; 0; 0; 0; 0; 0] ++ [0xc0; 4] ++ behind.
Example extract_request_reads_behind :
  let r b := snd (fst (default (0, 0, []) (match extract_request (short_request b) 14 (replicate 1025 0) with Ok r => Some r | _ => None end))) in
  r [0; 1; 0; 1] = 1 /\ r [0; 28; 0; 1] = 28.
Proof. by vm_compute. Qed.

(** A reply to questions that cannot be skipped has no length. *)
Example setup_reply_no_length :
  match setup_reply ([0; 7; 1; 0; 0; 1; 0; 0; 0; 0; 0; 0] ++ [5]) 13 [0; 0; 0; 0] F_NXDOMAIN 0 with
  | Ok (n, _) => n = None | Fault _ => False end.
Proof. by vm_compute. Qed.
