(* ===== verification/DmLru.v ===== *)
(** The doubly linked list in which dnsmasq's cache.c keeps its records in
    the order of their use: the three pointer updates it is changed by, what
    it means that the pointers represent a list, and what each update does to
    the list. The fields [next] and [prev] are a map each. *)
From S2P Require Import Prelude.
Set Warnings "-clear-no-such-hyp".

Definition ptr : Type := positive.
Definition links : Type := gmap ptr ptr.

(** [*p = v], with the null pointer as no entry. *)
Definition set_ptr (m : links) (i : ptr) (v : option ptr) : links := partial_alter (fun _ => v) i m.

Record dll := Dll { nxt : links; prv : links; dhead : option ptr; dtail : option ptr }.

(** ** [cache_link] *)
Definition push_head (d : dll) (i : ptr) : dll :=
  let prv1 := match dhead d with Some h => set_ptr (prv d) h (Some i) | None => prv d end in
  Dll (set_ptr (nxt d) i (dhead d)) (set_ptr prv1 i None) (Some i)
      (match dtail d with Some t => Some t | None => Some i end).

(** ** The list of [cache_free] *)
Definition push_tail (d : dll) (i : ptr) : dll :=
  let nxt1 := match dtail d with Some t => set_ptr (nxt d) t (Some i) | None => nxt d end in
  Dll (set_ptr nxt1 i None) (set_ptr (prv d) i (dtail d))
      (match dtail d with Some _ => dhead d | None => Some i end) (Some i).

(** ** [cache_unlink] *)
Definition unlink (d : dll) (i : ptr) : dll :=
  let n := nxt d !! i in
  let p := prv d !! i in
  Dll (match p with Some p => set_ptr (nxt d) p n | None => nxt d end)
      (match n with Some n => set_ptr (prv d) n p | None => prv d end)
      (match p with Some _ => dhead d | None => n end)
      (match n with Some _ => dtail d | None => p end).

(** * Representation *)

(** The first element, or what comes behind the list. *)
Definition hd_or (l : list ptr) (q : option ptr) : option ptr := match l with [] => q | i :: _ => Some i end.
Fixpoint last_or (p : option ptr) (l : list ptr) : option ptr := match l with [] => p | i :: l' => last_or (Some i) l' end.

(** The pointers lead from behind [p] through [l] to [q], and back. *)
Fixpoint dseg (n v : links) (p : option ptr) (l : list ptr) (q : option ptr) : Prop :=
  match l with
  | [] => True
  | i :: l' => v !! i = p /\ n !! i = hd_or l' q /\ dseg n v (Some i) l' q
  end.

Definition dll_rep (d : dll) (l : list ptr) : Prop :=
  dhead d = head l /\ dtail d = last l /\ NoDup l /\ dseg (nxt d) (prv d) None l None.

(** The links of a list that is only followed forward. *)
Fixpoint sseg (n : links) (l : list ptr) (q : option ptr) : Prop :=
  match l with [] => True | i :: l' => n !! i = hd_or l' q /\ sseg n l' q end.

Lemma lookup_set_ptr m i v j : set_ptr m i v !! j = if decide (i = j) then v else m !! j.
Proof. unfold set_ptr. destruct (decide (i = j)) as [->|]; [apply lookup_partial_alter_eq|by apply lookup_partial_alter_ne]. Qed.

Lemma hd_or_app l1 l2 q : hd_or (l1 ++ l2) q = hd_or l1 (hd_or l2 q).
Proof. by destruct l1. Qed.
Lemma hd_or_head l : hd_or l None = head l.
Proof. by destruct l. Qed.
Lemma last_or_last l : forall p, last_or p l = match last l with Some x => Some x | None => p end.
Proof. induction l as [|i l IH]; intros p; [done|]. cbn [last_or]. rewrite IH, last_cons. by destruct (last l). Qed.
Lemma last_or_None l : last_or None l = last l.
Proof. rewrite last_or_last. by destruct (last l). Qed.
Lemma dll_last_or_snoc p l i : last_or p (l ++ [i]) = Some i.
Proof. by rewrite last_or_last, last_snoc. Qed.

Lemma dll_seg_app n v l1 : forall p l2 q, dseg n v p (l1 ++ l2) q <-> dseg n v p l1 (hd_or l2 q) /\ dseg n v (last_or p l1) l2 q.
Proof.
  induction l1 as [|i l1 IH]; intros p l2 q; cbn [app dseg last_or]; [tauto|]. rewrite IH, hd_or_app. tauto.
Qed.

(** Changing links of nodes that are not in the segment. *)
Lemma dll_seg_frame n v n' v' l : forall p q, (forall i, i ∈ l -> n' !! i = n !! i /\ v' !! i = v !! i) ->
  dseg n v p l q -> dseg n' v' p l q.
Proof.
  induction l as [|i l IH]; intros p q Hf; [done|]. cbn [dseg]. intros (Hv & Hn & Hl).
  destruct (Hf i) as [-> ->]; [by left|]. split_and!; [done..|]. apply IH; [|done]. intros j Hj. apply Hf. by right.
Qed.

Lemma sseg_frame n n' l q : (forall i, i ∈ l -> n' !! i = n !! i) -> sseg n l q -> sseg n' l q.
Proof.
  induction l as [|i l IH]; intros Hf; [done|]. cbn [sseg]. intros (Hn & Hl). rewrite Hf by (by left).
  split; [done|]. apply IH; [|done]. intros j Hj. apply Hf. by right.
Qed.

(** The last link of a segment is set to lead on elsewhere. *)
Lemma dseg_relink_end n v p l i q q' : dseg n v p (l ++ [i]) q -> i ∉ l -> dseg (set_ptr n i q') v p (l ++ [i]) q'.
Proof.
  rewrite !dll_seg_app. cbn [dseg hd_or]. intros [Hl (Hv & _ & _)] Hi. split.
  - eapply dll_seg_frame; [|exact Hl]. intros j Hj. split; [|done]. rewrite lookup_set_ptr. case_decide; [by subst|done].
  - split_and!; [done| |done]. rewrite lookup_set_ptr. by rewrite decide_True.
Qed.
Lemma dseg_relink_start n v p p' i l q : dseg n v p (i :: l) q -> i ∉ l -> dseg n (set_ptr v i p') p' (i :: l) q.
Proof.
  cbn [dseg]. intros (_ & Hn & Hl) Hi. split_and!; [|done|].
  - rewrite lookup_set_ptr. by rewrite decide_True.
  - eapply dll_seg_frame; [|exact Hl]. intros j Hj. split; [done|]. rewrite lookup_set_ptr. case_decide; [by subst|done].
Qed.

(** ** The updates on the represented list *)

Lemma push_head_rep d l i : dll_rep d l -> i ∉ l -> dll_rep (push_head d i) (i :: l).
Proof.
  intros (Hh & Ht & Hnd & Hs) Hi. unfold dll_rep, push_head. cbn [dhead dtail nxt prv]. split_and!.
  - done.
  - rewrite Ht, last_cons. done.
  - by apply NoDup_cons.
  - cbn [dseg]. rewrite !lookup_set_ptr, !decide_True by done. split_and!; [done|by rewrite Hh, hd_or_head|].
    assert (dseg (nxt d) (match dhead d with Some h => set_ptr (prv d) h (Some i) | None => prv d end) (Some i) l None) as Hs1.
    { rewrite Hh. destruct l as [|h l]; [done|]. cbn [head]. apply NoDup_cons in Hnd as [Hh1 _].
      by apply (dseg_relink_start _ _ None). }
    eapply dll_seg_frame; [|exact Hs1]. intros j Hj. rewrite !lookup_set_ptr. by rewrite !decide_False by (by intros ->).
Qed.

Lemma push_tail_rep d l i : dll_rep d l -> i ∉ l -> dll_rep (push_tail d i) (l ++ [i]).
Proof.
  intros (Hh & Ht & Hnd & Hs) Hi. unfold dll_rep, push_tail. cbn [dhead dtail nxt prv]. split_and!.
  - rewrite Hh, Ht. destruct l as [|h l] using rev_ind; [done|]. rewrite last_snoc. by destruct l.
  - by rewrite last_snoc.
  - apply NoDup_app. split_and!; [done| |apply NoDup_singleton]. intros j Hj Hji. apply list_elem_of_singleton in Hji as ->. done.
  - apply dll_seg_app. cbn [dseg hd_or]. rewrite !lookup_set_ptr, !decide_True by done.
    split; [|split_and!; [by rewrite Ht, last_or_last; destruct (last l)|done|done]].
    assert (dseg (match dtail d with Some t => set_ptr (nxt d) t (Some i) | None => nxt d end) (prv d) None l (Some i)) as Hs1.
    { rewrite Ht. destruct l as [|t l _] using rev_ind; [done|]. rewrite last_snoc. apply (dseg_relink_end _ _ _ _ _ None); [done|].
      apply NoDup_app in Hnd as (_ & Hnd & _). intros Ht1. apply (Hnd t Ht1). by left. }
    eapply dll_seg_frame; [|exact Hs1]. intros j Hj. rewrite !lookup_set_ptr. by rewrite !decide_False by (by intros ->).
Qed.

Lemma unlink_rep d l1 i l2 : dll_rep d (l1 ++ i :: l2) -> dll_rep (unlink d i) (l1 ++ l2).
Proof.
  intros (Hh & Ht & Hnd & Hs). apply dll_seg_app in Hs as [H1 H2]. cbn [dseg hd_or] in *. destruct H2 as (Hp & Hn & H2).
  rewrite hd_or_head in Hn. rewrite last_or_None in Hp. unfold dll_rep, unlink. rewrite Hn, Hp. cbn [dhead dtail nxt prv].
  apply NoDup_app in Hnd as (Hnd1 & Hd & Hnd2). apply NoDup_cons in Hnd2 as [Hi2 Hnd2].
  assert (forall j, j ∈ l1 -> j ∉ l2) as Hd' by set_solver.
  assert (dseg (match last l1 with Some p => set_ptr (nxt d) p (head l2) | None => nxt d end) (prv d) None l1 (head l2)) as H1'.
  { destruct l1 as [|p l1 _] using rev_ind; [done|]. rewrite last_snoc. apply (dseg_relink_end _ _ _ _ _ (Some i)); [done|].
    apply NoDup_app in Hnd1 as (_ & Hnd1 & _). intros Hp1. apply (Hnd1 p Hp1). by left. }
  assert (dseg (nxt d) (match head l2 with Some n => set_ptr (prv d) n (last l1) | None => prv d end) (last l1) l2 None) as H2'.
  { destruct l2 as [|n l2]; [done|]. cbn [head]. apply NoDup_cons in Hnd2 as [Hn2 _]. by apply (dseg_relink_start _ _ (Some i)). }
  split_and!.
  - destruct l1 as [|x l1]; [done|]. rewrite Hh. destruct (last (x :: l1)) eqn:E; [done|]. by apply last_None in E.
  - rewrite Ht, !last_app, last_cons. destruct l2 as [|y l2]; [by destruct (last l1)|]. cbn [head].
    destruct (last (y :: l2)) eqn:E; [done|]. by apply last_None in E.
  - apply NoDup_app. by split_and!.
  - apply dll_seg_app. rewrite last_or_None. split.
    + rewrite hd_or_head. eapply dll_seg_frame; [|exact H1']. intros j Hj. split; [done|]. destruct l2 as [|n l2]; [done|]. cbn [head].
      rewrite lookup_set_ptr, decide_False; [done|]. intros ->. apply (Hd' j Hj). by left.
    + eapply dll_seg_frame; [|exact H2']. intros j Hj. split; [|done]. destruct (last l1) as [p|] eqn:Hl; [|done].
      rewrite lookup_set_ptr, decide_False; [done|]. intros ->. apply (Hd' j); [|done].
      apply last_Some in Hl as [l' ->]. set_solver.
Qed.

(** A record of the list can be found in it. *)
Lemma dll_head_next d i l : dll_rep d (i :: l) -> nxt d !! i = head l.
Proof. intros (_ & _ & _ & Hs). destruct Hs as (_ & -> & _). by rewrite hd_or_head. Qed.

(** A record is moved to the head. *)
Lemma promote_rep d l1 i l2 : dll_rep d (l1 ++ i :: l2) -> dll_rep (push_head (unlink d i) i) (i :: l1 ++ l2).
Proof.
  intros H. apply push_head_rep; [by apply unlink_rep|]. destruct H as (_ & _ & Hnd & _).
  apply NoDup_app in Hnd as (_ & Hd & Hnd). apply NoDup_cons in Hnd as [Hi _]. set_solver.
Qed.

(** A record is moved to the tail. *)
Lemma demote_rep d l1 i l2 : dll_rep d (l1 ++ i :: l2) -> dll_rep (push_tail (unlink d i) i) ((l1 ++ l2) ++ [i]).
Proof.
  intros H. apply push_tail_rep; [by apply unlink_rep|]. destruct H as (_ & _ & Hnd & _).
  apply NoDup_app in Hnd as (_ & Hd & Hnd). apply NoDup_cons in Hnd as [Hi _]. set_solver.
Qed.

(** Links of nodes outside of the list do not matter. *)
Lemma dll_frame d n' v' l : dll_rep d l -> (forall i, i ∈ l -> n' !! i = nxt d !! i /\ v' !! i = prv d !! i) ->
  dll_rep (Dll n' v' (dhead d) (dtail d)) l.
Proof. intros (Hh & Ht & Hnd & Hs) Hf. split_and!; [done..|]. cbn [nxt prv]. by eapply dll_seg_frame. Qed.
