(* ===== verification/DmCache.v ===== *)
(** dnsmasq's cache.c: the records, the hash table, the list of the records in
    the order of their use, insertion in three steps and the two searches. *)
From S2P Require Import Prelude CString Dns Common DmUtil DmName DmPacket DmLru.
Set Warnings "-clear-no-such-hyp".

(** * Flags (dnsmasq.h) *)

Definition F_IMMORTAL : Z := 2 ^ 0.
Definition F_NAMEP : Z := 2 ^ 1.
Definition F_REVERSE : Z := 2 ^ 2.
Definition F_FORWARD : Z := 2 ^ 3.
Definition F_DHCP : Z := 2 ^ 4.
Definition F_HOSTS : Z := 2 ^ 6.
Definition F_BIGNAME : Z := 2 ^ 9.
Definition F_CNAME : Z := 2 ^ 11.
Definition F_DNSKEY : Z := 2 ^ 12.
Definition F_CONFIG : Z := 2 ^ 13.
Definition F_DS : Z := 2 ^ 14.
Definition F_TYPE : Z := Z.lor (Z.lor F_IPV4 F_IPV6) (Z.lor F_DNSKEY F_DS).

Definition SMALLDNAME : Z := 40.

(** [flags & f], as a condition. *)
Definition has (flags f : Z) : bool := negb (Z.land flags f =? 0).

(** * Data *)

(** The member of the union that was stored last. *)
Inductive caddr :=
| CAddr (a : in_addr)
| CName (target : option ptr) (uid : Z).
#[export] Instance caddr_eq_dec : EqDecision caddr.
Proof. solve_decision. Defined.

(** The fields [next] and [prev] are maps of [DmLru]; [hash_next] is used for
    the hash chains alone, which are lists of records. The three members of
    the name union all stand for a text, and the flags tell where it is kept. *)
Record crec := Crec { cr_addr : caddr; ttd : Z; cuid : Z; cflags : Z; cname : list Z }.

Record cache := Cache {
  recs : gmap ptr crec;
  lru : dll;                      (* cache_head, cache_tail, next, prev *)
  hash_table : list (list ptr);
  new_chain : option ptr;
  dhcp_spare : option ptr;
  cache_inserted : Z;
  cache_live_freed : Z;
  insert_error : bool;
  big_free : Z;                   (* how many names the free list holds *)
  bignames_left : Z;
  uid : Z }.

Definition with_recs (v : gmap ptr crec) (c : cache) : cache :=
  Cache v (lru c) (hash_table c) (new_chain c) (dhcp_spare c) (cache_inserted c) (cache_live_freed c) (insert_error c) (big_free c) (bignames_left c) (uid c).
Definition with_lru (v : dll) (c : cache) : cache :=
  Cache (recs c) v (hash_table c) (new_chain c) (dhcp_spare c) (cache_inserted c) (cache_live_freed c) (insert_error c) (big_free c) (bignames_left c) (uid c).
Definition with_table (v : list (list ptr)) (c : cache) : cache :=
  Cache (recs c) (lru c) v (new_chain c) (dhcp_spare c) (cache_inserted c) (cache_live_freed c) (insert_error c) (big_free c) (bignames_left c) (uid c).
Definition with_chain (v : option ptr) (c : cache) : cache :=
  Cache (recs c) (lru c) (hash_table c) v (dhcp_spare c) (cache_inserted c) (cache_live_freed c) (insert_error c) (big_free c) (bignames_left c) (uid c).
Definition with_error (v : bool) (c : cache) : cache :=
  Cache (recs c) (lru c) (hash_table c) (new_chain c) (dhcp_spare c) (cache_inserted c) (cache_live_freed c) v (big_free c) (bignames_left c) (uid c).
Definition with_counts (i l : Z) (c : cache) : cache :=
  Cache (recs c) (lru c) (hash_table c) (new_chain c) (dhcp_spare c) i l (insert_error c) (big_free c) (bignames_left c) (uid c).
Definition with_big (f l : Z) (c : cache) : cache :=
  Cache (recs c) (lru c) (hash_table c) (new_chain c) (dhcp_spare c) (cache_inserted c) (cache_live_freed c) (insert_error c) f l (uid c).
Definition with_uid (v : Z) (c : cache) : cache :=
  Cache (recs c) (lru c) (hash_table c) (new_chain c) (dhcp_spare c) (cache_inserted c) (cache_live_freed c) (insert_error c) (big_free c) (bignames_left c) v.

Definition getr (c : cache) (i : ptr) : comp crec := of_option NullDeref (recs c !! i).
Definition putr (c : cache) (i : ptr) (r : crec) : cache := with_recs (<[i := r]> (recs c)) c.
Definition with_flags (v : Z) (r : crec) : crec := Crec (cr_addr r) (ttd r) (cuid r) v (cname r).

(** [crecp->next = v] *)
Definition set_next (c : cache) (i : ptr) (v : option ptr) : cache :=
  with_lru (Dll (set_ptr (nxt (lru c)) i v) (prv (lru c)) (dhead (lru c)) (dtail (lru c))) c.

(** * Lists and chains *)

(** [mix_tab] is the array [typestr] as bytes, pointers included, which only
    the mixing of the hash function reads. [clobbered] is what a big name reads
    as when it is put on the free list of the given length: the pointer to the
    next name of the list lies over its first bytes. *)
Section table.
Context (mix_tab : Z -> Z) (clobbered : Z -> list Z -> list Z).

Definition hash_step (val ch : Z) : Z :=
  let ch := if isupper ch then ch + 32 else ch in
  u32 (Z.lor (u32 (Z.shiftl val 7)) (Z.shiftr val 25) + Z.lxor (mix_tab (Z.land (u32 (val + ch)) 0x3F)) ch).

(** The index of the bucket; [017465] is 7989. *)
Definition hash_bucket (hash_size : Z) (name : list Z) : Z :=
  let val := fold_left hash_step name 7989 in
  Z.land (Z.lxor val (Z.shiftr val 16)) (hash_size - 1).

Definition hash_size (c : cache) : Z := zlen (hash_table c).

(** [while ( *up && p( *up)) up = &(( *up)->hash_next);]: the records in front of
    the place, and those behind. *)
Fixpoint walk (p : crec -> bool) (rs : gmap ptr crec) (chain : list ptr) : comp (list ptr * list ptr) :=
  match chain with
  | [] => Ok ([], [])
  | j :: chain' =>
      r ← of_option NullDeref (rs !! j);
      if p r then '(a, b) ← walk p rs chain'; mret (j :: a, b) else Ok ([], chain)
  end.

(** Where [cache_hash] puts a record with the given flags. *)
Definition chain_place (flags : Z) (rs : gmap ptr crec) (i : ptr) (chain : list ptr) : comp (list ptr) :=
  if negb (has flags F_REVERSE) then
    '(a, b) ← walk (fun r => has (cflags r) F_REVERSE) rs chain;
    '(a', b') ← (if has flags F_IMMORTAL then walk (fun r => negb (has (cflags r) F_IMMORTAL)) rs b else mret ([], b));
    mret (a ++ a' ++ i :: b')
  else mret (i :: chain).

Definition bucket (c : cache) (k : Z) : list ptr := nth (Z.to_nat k) (hash_table c) [].
Definition set_bucket (c : cache) (k : Z) (l : list ptr) : cache := with_table (<[Z.to_nat k := l]> (hash_table c)) c.

Definition cache_hash (c : cache) (i : ptr) : comp cache :=
  r ← getr c i;
  let k := hash_bucket (hash_size c) (cname r) in
  l ← chain_place (cflags r) (recs c) i (bucket c k);
  mret (set_bucket c k l).

Definition cache_free (c : cache) (i : ptr) : comp cache :=
  r ← getr c i;
  let flags := Z.ldiff (Z.ldiff (cflags r) F_FORWARD) F_REVERSE in
  let big := has flags F_BIGNAME in
  let c := putr c i (Crec (cr_addr r) (ttd r) (uid c) (if big then Z.ldiff flags F_BIGNAME else flags) (cname r)) in
  let c := with_uid (s32 (uid c + 1)) c in
  let c := with_lru (push_tail (lru c) i) c in
  mret (if big then with_big (big_free c + 1) (bignames_left c) c else c).

Definition cache_link (c : cache) (i : ptr) : cache := with_lru (push_head (lru c) i) c.
Definition cache_unlink (c : cache) (i : ptr) : cache := with_lru (unlink (lru c) i) c.

(** [1] when a CNAME's target has gone. *)
Definition is_outdated_cname_pointer (c : cache) (r : crec) : comp bool :=
  if negb (has (cflags r) F_CNAME) then Ok false
  else
    match cr_addr r with
    | CAddr _ => Fault ReadOOB
    | CName None _ => Ok true
    | CName (Some t) u =>
        tr ← getr c t;
        mret (negb (has (cflags tr) (Z.lor (Z.lor F_IPV4 F_IPV6) F_CNAME) && (u =? cuid tr)))
    end.

Definition is_expired (now : Z) (r : crec) : bool :=
  if has (cflags r) F_IMMORTAL then false else negb (now <? ttd r).

(** ** Removing old records *)

Definition fixed (r : crec) : bool := has (cflags r) (Z.lor F_HOSTS F_DHCP).

(** A record that has left its chain goes to the end of the list. *)
Definition recycle (c : cache) (i : ptr) : comp cache := cache_free (cache_unlink c i) i.

(** The name a caller points to may be that of a record: [owner]. A big name
    that is put on the free list has a pointer over its first bytes. *)
Definition name_after (c : cache) (owner : option ptr) (name : list Z) (i : ptr) (r : crec) : list Z :=
  if bool_decide (owner = Some i) && has (cflags r) F_BIGNAME then clobbered (big_free c) name else name.

(** The chain of a name: whether it has no record that must stay, what is left
    of the chain, and the cache. *)
Fixpoint scan_forward (now : Z) (owner : option ptr) (name : list Z) (flags : Z) (chain : list ptr) (c : cache)
  : comp (bool * list ptr * cache) :=
  match chain with
  | [] => Ok (true, [], c)
  | i :: chain' =>
      r ← getr c i;
      out ← (if is_expired now r then mret true else is_outdated_cname_pointer c r);
      if (out : bool) then
        let name := if fixed r then name else name_after c owner name i r in
        c ← (if fixed r then mret c else recycle c i);
        scan_forward now owner name flags chain' c
      else if has (cflags r) F_FORWARD &&
              (has (Z.land flags (cflags r)) F_TYPE || has (Z.lor (cflags r) flags) F_CNAME) &&
              hostname_isequal (cname r) name then
        if fixed r then Ok (false, chain, c)
        else
          let name := name_after c owner name i r in
          c ← recycle c i; scan_forward now owner name flags chain' c
      else
        '(ok, chain', c) ← scan_forward now owner name flags chain' c;
        mret (ok, i :: chain', c)
  end.

(** [memcmp] of the address of a record with the address the caller points to. *)
Definition same_addr (r : crec) (addr : option caddr) : comp bool :=
  match cr_addr r, addr with
  | CAddr a, Some (CAddr b) => Ok (bool_decide (a = b))
  | _, _ => Fault NullDeref
  end.

(** The part of a chain in front of the immortal records. *)
Fixpoint scan_reverse (now : Z) (addr : option caddr) (flags : Z) (chain : list ptr) (c : cache) : comp (list ptr * cache) :=
  match chain with
  | [] => Ok ([], c)
  | i :: chain' =>
      r ← getr c i;
      if negb (has (cflags r) F_REVERSE || negb (has (cflags r) F_IMMORTAL)) then Ok (chain, c)
      else if is_expired now r then
        c ← (if fixed r then mret c else recycle c i);
        scan_reverse now addr flags chain' c
      else
        same ← (if negb (fixed r) && has (Z.land flags (cflags r)) F_REVERSE && has (Z.land flags (cflags r)) (Z.lor F_IPV4 F_IPV6)
                then same_addr r addr else mret false);
        if (same : bool) then c ← recycle c i; scan_reverse now addr flags chain' c
        else '(chain', c) ← scan_reverse now addr flags chain' c; mret (i :: chain', c)
  end.

(** Every bucket, from number [k] on. *)
Fixpoint scan_table (now : Z) (addr : option caddr) (flags : Z) (k : nat) (n : nat) (c : cache) : comp cache :=
  match n with
  | O => Ok c
  | S n' =>
      '(l, c) ← scan_reverse now addr flags (bucket c (Z.of_nat k)) c;
      scan_table now addr flags (S k) n' (set_bucket c (Z.of_nat k) l)
  end.

Definition cache_scan_free (c : cache) (owner : option ptr) (name : option (list Z)) (addr : option caddr) (now flags : Z) : comp (bool * cache) :=
  if has flags F_FORWARD then
    match name with
    | None => Fault NullDeref
    | Some name =>
        let k := hash_bucket (hash_size c) name in
        '(ok, l, c) ← scan_forward now owner name flags (bucket c k) c;
        mret (ok, set_bucket c k l)
    end
  else c ← scan_table now addr flags 0 (length (hash_table c)) c; mret (true, c).

(** * Insertion *)

(** The records of an insertion that was given up. *)
Fixpoint free_chain (fuel : nat) (c : cache) : comp cache :=
  match new_chain c with
  | None => Ok c
  | Some i =>
      match fuel with
      | O => Fault NoFuel
      | S fuel' =>
          let tmp := nxt (lru c) !! i in
          c ← cache_free c i;
          free_chain fuel' (with_chain tmp c)
      end
  end.
Definition cache_start_insert (c : cache) : comp cache :=
  c ← free_chain (S (size (recs c))) c; mret (with_error false (with_chain None c)).

Context (max_cache_ttl : Z).

(** What the loop of [cache_insert] ends with: no record, or one that has been
    taken from the list and whether it has a big name. *)
Inductive grabbed := NoRecord | Grab (i : ptr) (big : bool).

(** [can_malloc] is whether there is memory for one more big name. *)
Fixpoint grab (fuel : nat) (can_malloc : bool) (now : Z) (name : option (list Z)) (freed_all free_avail : bool) (c : cache)
  : comp (grabbed * cache) :=
  match fuel with
  | O => Fault NoFuel
  | S fuel' =>
      match dtail (lru c) with
      | None => Ok (NoRecord, with_error true c)
      | Some new =>
          r ← getr c new;
          if has (cflags r) (Z.lor F_FORWARD F_REVERSE) then
            if free_avail then Ok (NoRecord, with_error true c)
            else if freed_all then
              '(_, c) ← cache_scan_free c (Some new) (Some (cname r)) (Some (cr_addr r)) now (cflags r);
              grab fuel' can_malloc now name freed_all true (with_counts (cache_inserted c) (cache_live_freed c + 1) c)
            else
              '(_, c) ← cache_scan_free c None None None now 0;
              grab fuel' can_malloc now name true free_avail c
          else
            match name with
            | Some s =>
                if SMALLDNAME - 1 <? zlen s then
                  if 0 <? big_free c then Ok (Grab new true, cache_unlink (with_big (big_free c - 1) (bignames_left c) c) new)
                  else if (bignames_left c =? 0) || negb can_malloc then Ok (NoRecord, with_error true c)
                  else Ok (Grab new true, cache_unlink (with_big (big_free c) (bignames_left c - 1) c) new)
                else Ok (Grab new false, cache_unlink c new)
            | None => Ok (Grab new false, cache_unlink c new)
            end
      end
  end.

Definition cache_insert (can_malloc : bool) (c : cache) (name : option (list Z)) (addr : option in_addr) (now ttl flags : Z)
  : comp (option ptr * cache) :=
  let ttl := if negb (max_cache_ttl =? 0) && (max_cache_ttl <? ttl) then max_cache_ttl else ttl in
  if insert_error c then Ok (None, c)
  else
    '(ok, c) ← cache_scan_free c None name (CAddr <$> addr) now flags;
    if negb ok then Ok (None, with_error true c)
    else
      '(g, c) ← grab 4 can_malloc now name (has flags F_REVERSE) false c;
      match g with
      | NoRecord => Ok (None, c)
      | Grab new big =>
          r ← getr c new;
          let flags := if (big : bool) then Z.lor flags F_BIGNAME else flags in
          let c := putr c new (Crec (from_option CAddr (cr_addr r) addr) (s32 (now + s32 ttl)) (cuid r) flags (default [] name)) in
          let c := set_next c new (new_chain c) in
          mret (Some new, with_chain (Some new) c)
      end.

Fixpoint commit (fuel : nat) (c : cache) : comp cache :=
  match new_chain c with
  | None => Ok c
  | Some i =>
      match fuel with
      | O => Fault NoFuel
      | S fuel' =>
          let tmp := nxt (lru c) !! i in
          r ← getr c i;
          out ← is_outdated_cname_pointer c r;
          c ← (if (out : bool) then cache_free c i
               else c ← cache_hash c i; mret (with_counts (cache_inserted c + 1) (cache_live_freed c) (cache_link c i)));
          commit fuel' (with_chain tmp c)
      end
  end.
Definition cache_end_insert (c : cache) : comp cache :=
  if insert_error c then Ok c
  else c ← commit (S (size (recs c))) c; mret (with_chain None c).

(** * Searching *)

(** A place at the end of the answers: the variable, or the last one's
    [next]. *)
Record found := Found { f_ans : option ptr; f_last : option ptr }.
Definition chain_to (c : cache) (f : found) (i : option ptr) : found * cache :=
  match f_last f with
  | None => (Found i (f_last f), c)
  | Some j => (f, set_next c j i)
  end.

(** [fixed] records are chained, the others move to the head of the list. *)
Definition answer (c : cache) (f : found) (i : ptr) (r : crec) : found * cache :=
  if fixed r then let '(f, c) := chain_to c f (Some i) in (Found (f_ans f) (Some i), c)
  else (f, cache_link (cache_unlink c i) i).

(** [done] is the chain in front of the rest, [insert] where in it the next
    answer with the flags [ins_flags] goes. *)
Fixpoint find_name_loop (now : Z) (name : list Z) (prot : Z) (chain done : list ptr) (insert : option (nat * Z)) (f : found) (c : cache)
  : comp (list ptr * found * cache) :=
  match chain with
  | [] => Ok (done, f, c)
  | i :: chain' =>
      r ← getr c i;
      out ← (if is_expired now r then mret true else is_outdated_cname_pointer c r);
      if (out : bool) then
        c ← (if fixed r then mret c else recycle c i);
        find_name_loop now name prot chain' done insert f c
      else if has (cflags r) F_FORWARD && has (cflags r) prot && hostname_isequal (cname r) name then
        let '(f, c) := answer c f i r in
        let cls := Z.land (cflags r) (Z.lor F_REVERSE F_IMMORTAL) in
        match insert with
        | Some (n, ins_flags) =>
            if cls =? ins_flags then
              find_name_loop now name prot chain' (take n done ++ i :: drop n done) (Some (S n, ins_flags)) f c
            else find_name_loop now name prot chain' (done ++ [i]) insert f c
        | None => find_name_loop now name prot chain' (done ++ [i]) (Some (length done, cls)) f c
        end
      else find_name_loop now name prot chain' (done ++ [i]) insert f c
  end.

(** A record counts as an answer when it still matches. *)
Definition name_answer (c : cache) (ans : option ptr) (name : list Z) (prot : Z) : comp (option ptr) :=
  match ans with
  | None => Ok None
  | Some i =>
      r ← getr c i;
      mret (if has (cflags r) F_FORWARD && has (cflags r) prot && hostname_isequal (cname r) name then Some i else None)
  end.

Definition cache_find_by_name (c : cache) (crecp : option ptr) (name : list Z) (now prot : Z) : comp (option ptr * cache) :=
  '(ans, c) ←
    match crecp with
    | Some i => Ok (nxt (lru c) !! i, c)
    | None =>
        let k := hash_bucket (hash_size c) name in
        '(l, f, c) ← find_name_loop now name prot (bucket c k) [] None (Found None None) c;
        let '(f, c) := chain_to (set_bucket c k l) f (dhead (lru c)) in
        mret (f_ans f, c)
    end;
  r ← name_answer c ans name prot;
  mret (r, c).

Fixpoint find_addr_loop (now : Z) (addr : option caddr) (prot : Z) (chain : list ptr) (f : found) (c : cache)
  : comp (list ptr * found * cache) :=
  match chain with
  | [] => Ok ([], f, c)
  | i :: chain' =>
      r ← getr c i;
      if negb (has (cflags r) F_REVERSE) then Ok (chain, f, c)
      else if is_expired now r then
        c ← (if fixed r then mret c else recycle c i);
        find_addr_loop now addr prot chain' f c
      else
        same ← (if has (cflags r) prot then same_addr r addr else mret false);
        let '(f, c) := if (same : bool) then answer c f i r else (f, c) in
        '(l, f, c) ← find_addr_loop now addr prot chain' f c;
        mret (i :: l, f, c)
  end.

Fixpoint find_addr_table (now : Z) (addr : option caddr) (prot : Z) (k n : nat) (f : found) (c : cache) : comp (found * cache) :=
  match n with
  | O => Ok (f, c)
  | S n' =>
      '(l, f, c) ← find_addr_loop now addr prot (bucket c (Z.of_nat k)) f c;
      find_addr_table now addr prot (S k) n' f (set_bucket c (Z.of_nat k) l)
  end.

Definition addr_answer (c : cache) (ans : option ptr) (addr : option caddr) (prot : Z) : comp (option ptr) :=
  match ans with
  | None => Ok None
  | Some i =>
      r ← getr c i;
      if has (cflags r) F_REVERSE && has (cflags r) prot then same ← same_addr r addr; mret (if (same : bool) then Some i else None)
      else mret None
  end.

Definition cache_find_by_addr (c : cache) (crecp : option ptr) (addr : in_addr) (now prot : Z) : comp (option ptr * cache) :=
  '(ans, c) ←
    match crecp with
    | Some i => Ok (nxt (lru c) !! i, c)
    | None =>
        '(f, c) ← find_addr_table now (Some (CAddr addr)) prot 0 (length (hash_table c)) (Found None None) c;
        let '(f, c) := chain_to c f (dhead (lru c)) in
        mret (f_ans f, c)
    end;
  r ← addr_answer c ans (Some (CAddr addr)) prot;
  mret (r, c).

(** * Start *)

(** [for (new_size = 64; new_size < size/10; new_size = new_size << 1);] *)
Fixpoint table_size (fuel : nat) (new_size size : Z) : Z :=
  match fuel with
  | O => new_size
  | S fuel' => if new_size <? size `quot` 10 then table_size fuel' (2 * new_size) size else new_size
  end.

(** The chains of the old table, record by record. *)
Fixpoint rehash_loop (ids : list ptr) (c : cache) : comp cache :=
  match ids with
  | [] => Ok c
  | i :: ids' => c ← cache_hash c i; rehash_loop ids' c
  end.

(** [can_malloc] is whether there is memory for the new table; there is a
    table once [cache_init] has made the first. *)
Definition rehash (can_malloc : bool) (size : Z) (c : cache) : comp cache :=
  let new_size := table_size 25 64 size in
  if negb (hash_size c =? 0) && ((new_size <=? hash_size c) || negb can_malloc) then Ok c
  else rehash_loop (concat (hash_table c)) (with_table (replicate (Z.to_nat new_size) []) c).

(** The records are allocated with [cr_addr], [ttd] and [name] unset. *)
Fixpoint init_loop (n : nat) (i : ptr) (c : cache) : cache :=
  match n with
  | O => c
  | S n' =>
      let c := putr (cache_link c i) i (Crec (CAddr (0, 0, 0, 0)) 0 (uid c) 0 []) in
      init_loop n' (Pos.succ i) (with_uid (s32 (uid c + 1)) c)
  end.

Definition empty_cache : cache := Cache ∅ (Dll ∅ ∅ None None) [] None None 0 0 false 0 0 0.

Definition cache_init (cachesize : Z) : comp cache :=
  rehash true cachesize (init_loop (Z.to_nat cachesize) 1%positive (with_big 0 (cachesize `quot` 10) empty_cache)).
End table.
