(* ===== verification/DmCacheInv.v ===== *)
(** The invariant of dnsmasq's cache and what the scans of its chains do to it:
    which records they remove, that they keep the order of the chains and of
    the list, and that the loop of [cache_insert] ends with an unused record. *)
From stdpp Require Import sorting.
From S2P Require Import Prelude CString Dns Common DmUtil DmName DmPacket DmLru DmCache.
Set Warnings "-clear-no-such-hyp".

(** * The invariant *)

(** Bits. *)
Lemma has_spec flags f : has flags f = true <-> Z.land flags f <> 0.
Proof. unfold has. destruct (Z.land flags f =? 0) eqn:E; zbool; naive_solver. Qed.

Lemma has_bit flags n : 0 <= n -> has flags (2 ^ n) = Z.testbit flags n.
Proof.
  intros Hn. unfold has. destruct (Z.testbit flags n) eqn:E.
  - destruct (Z.land flags (2 ^ n) =? 0) eqn:E0; zbool; [|done].
    apply (f_equal (fun x => Z.testbit x n)) in E0. rewrite Z.land_spec, Z.pow2_bits_true, Z.bits_0, E in E0 by done. done.
  - destruct (Z.land flags (2 ^ n) =? 0) eqn:E0; zbool; [done|]. exfalso. apply E0. apply Z.bits_inj'. intros m Hm.
    rewrite Z.land_spec, Z.bits_0, Z.pow2_bits_eqb by done. destruct (n =? m) eqn:Enm; zbool; [subst; by rewrite E|by rewrite andb_false_r].
Qed.

Lemma has_lor flags f g : has flags (Z.lor f g) = has flags f || has flags g.
Proof.
  unfold has. rewrite Z.land_lor_distr_r. destruct (Z.land flags f =? 0) eqn:E1, (Z.land flags g =? 0) eqn:E2; zbool; cbn.
  - by rewrite E1, E2.
  - rewrite E1, Z.lor_0_l. by apply Z.eqb_neq in E2 as ->.
  - rewrite E2, Z.lor_0_r. by apply Z.eqb_neq in E1 as ->.
  - destruct (Z.lor _ _ =? 0) eqn:E; [|done]. zbool. by apply Z.lor_eq_0_iff in E as [].
Qed.

Lemma lor_has f g h : has (Z.lor f g) h = has f h || has g h.
Proof.
  unfold has. rewrite (Z.land_comm (Z.lor f g)), Z.land_lor_distr_r, !(Z.land_comm h).
  destruct (Z.land f h =? 0) eqn:E1, (Z.land g h =? 0) eqn:E2; zbool; cbn.
  - by rewrite E1, E2.
  - rewrite E1, Z.lor_0_l. by apply Z.eqb_neq in E2 as ->.
  - rewrite E2, Z.lor_0_r. by apply Z.eqb_neq in E1 as ->.
  - destruct (Z.lor _ _ =? 0) eqn:E; [|done]. zbool. by apply Z.lor_eq_0_iff in E as [].
Qed.

Lemma has_ldiff flags f g : Z.land f g = 0 -> has (Z.ldiff flags f) g = has flags g.
Proof.
  intros H. unfold has. do 2 f_equal. apply Z.bits_inj'. intros n Hn. rewrite !Z.land_spec, Z.ldiff_spec.
  apply (f_equal (fun x => Z.testbit x n)) in H. rewrite Z.land_spec, Z.bits_0 in H.
  destruct (Z.testbit flags n), (Z.testbit f n), (Z.testbit g n); done.
Qed.

Lemma has_ldiff_same flags f : has (Z.ldiff flags f) f = false.
Proof.
  unfold has. assert (Z.land (Z.ldiff flags f) f = 0) as ->; [|done]. apply Z.bits_inj'. intros n Hn.
  rewrite Z.land_spec, Z.ldiff_spec, Z.bits_0. by destruct (Z.testbit flags n), (Z.testbit f n).
Qed.

(** The place of a record in its chain: reverse, other or immortal. *)
Definition cls (flags : Z) : nat :=
  if has flags F_REVERSE then 0%nat else if has flags F_IMMORTAL then 2%nat else 1%nat.
Definition rcls (rs : gmap ptr crec) (i : ptr) : nat := from_option (fun r => cls (cflags r)) 0%nat (rs !! i).

Definition used (r : crec) : bool := has (cflags r) (Z.lor F_FORWARD F_REVERSE).

(** The address of a record in the table suits its flags, and no pointer
    dangles. *)
Definition addr_ok (rs : gmap ptr crec) (r : crec) : Prop :=
  if has (cflags r) F_CNAME then
    has (cflags r) F_REVERSE = false /\
    match cr_addr r with CName (Some t) _ => is_Some (rs !! t) | CName None _ => True | CAddr _ => False end
  else if has (cflags r) F_REVERSE then exists a, cr_addr r = CAddr a else True.

(** Nothing is in an empty list. *)
Ltac by_nil := intros; try (intros ?); match goal with H : _ ∈ [] |- _ => by apply elem_of_nil in H end.

Section invariant.
Context (mix_tab : Z -> Z) (clobbered : Z -> list Z -> list Z).

(** [t] is the table, [l] the list of the records in the order of their use,
    [nc] the records of the insertion that is going on. *)
Record wfT (t : list (list ptr)) (c : cache) (l nc : list ptr) : Prop := {
  wf_lru : dll_rep (lru c) l;
  wf_head : new_chain c = head nc;
  wf_links : sseg (nxt (lru c)) nc None;
  wf_nodup : NoDup (nc ++ l);
  wf_size : exists k, 0 <= k /\ zlen t = 2 ^ k;
  wf_same : length (hash_table c) = length t;
  wf_once : NoDup (concat t);
  wf_recs : forall i, i ∈ concat t \/ i ∈ l \/ i ∈ nc -> is_Some (recs c !! i);
  wf_hash : forall n i r, i ∈ nth n t [] -> recs c !! i = Some r -> hash_bucket mix_tab (zlen t) (cname r) = Z.of_nat n;
  wf_hashed : forall i r, recs c !! i = Some r -> i ∈ concat t -> used r = true;
  wf_used : forall i r, recs c !! i = Some r -> i ∈ l -> used r = true -> i ∈ concat t;
  wf_fixed : forall i r, recs c !! i = Some r -> i ∈ concat t -> fixed r = false -> i ∈ l;
  wf_dyn : forall i r, recs c !! i = Some r -> i ∈ l \/ i ∈ nc -> fixed r = false;
  wf_addr : forall i r, recs c !! i = Some r -> i ∈ concat t -> addr_ok (recs c) r;
  wf_new : forall i r, recs c !! i = Some r -> i ∈ nc -> used r = true;
  wf_order : forall n, StronglySorted (fun i j => (rcls (recs c) i <= rcls (recs c) j)%nat) (nth n t []) }.

(** A record is taken out of its chain. *)
Definition removed (t : list (list ptr)) (i : ptr) (t' : list (list ptr)) : Prop :=
  length t' = length t /\ (forall n, nth n t' [] `sublist_of` nth n t []) /\ concat t ≡ₚ i :: concat t'.

(** A record that [cache_free] has emptied. *)
Definition freed (r r' : crec) : Prop :=
  cr_addr r' = cr_addr r /\ cname r' = cname r /\ used r' = false /\ fixed r' = fixed r.

(** What scans do: the records [is] go to the end of the list, one after the
    other, and nothing else changes. *)
Record evolve (c c' : cache) (l l' ids : list ptr) : Prop := {
  ev_table : hash_table c' = hash_table c;
  ev_chain : new_chain c' = new_chain c;
  ev_error : insert_error c' = insert_error c;
  ev_list : l' = filter (fun j => j ∉ ids) l ++ ids;
  ev_keep : forall j, j ∉ ids -> recs c' !! j = recs c !! j;
  ev_freed : forall j, j ∈ ids -> exists r r', recs c !! j = Some r /\ recs c' !! j = Some r' /\ freed r r' }.

Lemma evolve_refl c l : evolve c c l l [].
Proof.
  split; try done; [|intros j Hj; by apply elem_of_nil in Hj].
  rewrite app_nil_r. symmetry. induction l as [|x l IH]; [done|]. rewrite filter_cons, decide_True by set_solver. by rewrite IH.
Qed.

Lemma filter_filter_notin (l a b : list ptr) :
  filter (fun j => j ∉ b) (filter (fun j => j ∉ a) l) = filter (fun j => j ∉ a ++ b) l.
Proof.
  induction l as [|x l IH]; [done|]. rewrite !filter_cons. destruct (decide (x ∉ a)) as [Ha|Ha].
  - rewrite filter_cons. destruct (decide (x ∉ b)) as [Hb|Hb].
    + rewrite decide_True by set_solver. by rewrite IH.
    + rewrite decide_False by set_solver. done.
  - rewrite decide_False by set_solver. done.
Qed.

Lemma filter_notin_all (l b : list ptr) : (forall j, j ∈ l -> j ∉ b) -> filter (fun j => j ∉ b) l = l.
Proof.
  induction l as [|x l IH]; intros H; [done|]. rewrite filter_cons, decide_True by (apply H; by left).
  rewrite IH; [done|]. intros j Hj. apply H. by right.
Qed.

Lemma evolve_trans c c1 c2 l l1 l2 a b : evolve c c1 l l1 a -> evolve c1 c2 l1 l2 b -> (forall j, j ∈ b -> j ∉ a) ->
  evolve c c2 l l2 (a ++ b).
Proof.
  intros [H1 H2 H3 H4 H5 H6] [K1 K2 K3 K4 K5 K6] Hd. split; [by rewrite K1|by rewrite K2|by rewrite K3| | |].
  - rewrite K4, H4, filter_app, filter_filter_notin, (filter_notin_all a b), app_assoc by set_solver. done.
  - intros j Hj. rewrite K5, H5 by set_solver. done.
  - intros j [Hj|Hj]%elem_of_app.
    + destruct (H6 j Hj) as (r & r' & Hr & Hr' & Hf). exists r, r'. split_and!; [done|by rewrite K5 by set_solver|done].
    + destruct (K6 j Hj) as (r & r' & Hr & Hr' & Hf). exists r, r'. split_and!; [by rewrite <- H5 by set_solver|done..].
Qed.

Lemma nth_insert_eq (t : list (list ptr)) n a : (n < length t)%nat -> nth n (<[n := a]> t) [] = a.
Proof. revert t. induction n as [|n IH]; intros [|x t] Hn; cbn in *; try lia; [done|]. apply IH. lia. Qed.
Lemma nth_insert_ne (t : list (list ptr)) n m a : n <> m -> nth m (<[n := a]> t) [] = nth m t [].
Proof. revert t m. induction n as [|n IH]; intros [|x t] [|m] Hn; cbn in *; try done. apply IH. lia. Qed.

Lemma concat_nth (t : list (list ptr)) n : (n < length t)%nat ->
  concat t = concat (take n t) ++ nth n t [] ++ concat (drop (S n) t).
Proof.
  intros Hn. rewrite <- (take_drop n t) at 1. rewrite concat_app.
  destruct (drop n t) as [|x r] eqn:Hd; [apply (f_equal length) in Hd; rewrite length_drop in Hd; cbn in Hd; lia|].
  replace (S n) with (n + 1)%nat by lia. rewrite <- drop_drop, Hd. cbn. do 2 f_equal.
  rewrite <- (take_drop n t), app_nth2, Hd by (rewrite length_take; lia). rewrite length_take, Nat.min_l by lia. by rewrite Nat.sub_diag.
Qed.

Lemma concat_insert (t : list (list ptr)) n a : (n < length t)%nat ->
  concat (<[n := a]> t) = concat (take n t) ++ a ++ concat (drop (S n) t).
Proof. intros Hn. rewrite (concat_nth _ n) by (by rewrite length_insert). by rewrite nth_insert_eq, take_insert_ge, drop_insert_lt by lia. Qed.

Lemma nth_concat (t : list (list ptr)) i : i ∈ concat t <-> exists n, (n < length t)%nat /\ i ∈ nth n t [].
Proof.
  induction t as [|x t IH]; cbn [concat].
  - split; [by intros ?%elem_of_nil|]. intros (n & Hn & _). cbn in Hn. lia.
  - rewrite elem_of_app, IH. split.
    + intros [Hi|(n & Hn & Hi)]; [exists 0%nat; cbn; split; [lia|done]|exists (S n); cbn; split; [lia|done]].
    + intros ([|n] & Hn & Hi); cbn in *; [by left|right; exists n; split; [lia|done]].
Qed.

Lemma removed_at t n a i b : (n < length t)%nat -> nth n t [] = a ++ i :: b -> removed t i (<[n := a ++ b]> t).
Proof.
  intros Hn Ht. split_and!.
  - by rewrite length_insert.
  - intros m. destruct (decide (n = m)) as [<-|Hne].
    + rewrite nth_insert_eq, Ht by done. apply sublist_app; [done|]. by apply sublist_cons.
    + by rewrite nth_insert_ne by done.
  - rewrite (concat_nth t n), concat_insert, Ht by done. solve_Permutation.
Qed.

Lemma removed_in t i t' j : removed t i t' -> j ∈ concat t <-> j = i \/ j ∈ concat t'.
Proof. intros (_ & _ & Hp). rewrite Hp. apply elem_of_cons. Qed.

Lemma StronglySorted_sublist {A} (R : relation A) (l l' : list A) : l' `sublist_of` l -> StronglySorted R l -> StronglySorted R l'.
Proof.
  induction 1 as [|x l' l Hs IH|x l' l Hs IH]; intros H; [done| |]; inversion H as [|? ? Hl Hx]; subst.
  - constructor; [by apply IH|]. rewrite Forall_forall in *. intros y Hy. by eapply Hx, sublist_subseteq.
  - by apply IH.
Qed.

Lemma StronglySorted_ext {A} (R R' : relation A) (l : list A) : (forall a b, a ∈ l -> b ∈ l -> R a b -> R' a b) ->
  StronglySorted R l -> StronglySorted R' l.
Proof.
  induction l as [|x l IH]; intros HR H; [constructor|]. inversion H as [|? ? Hl Hx]; subst. constructor.
  - apply IH; [|done]. intros a b Ha Hb. apply HR; by right.
  - rewrite Forall_forall in *. intros y Hy. apply HR; [by left|by right|auto].
Qed.

(** ** A record is freed *)

Definition emptied (r : crec) (u : Z) : crec :=
  let flags := Z.ldiff (Z.ldiff (cflags r) F_FORWARD) F_REVERSE in
  Crec (cr_addr r) (ttd r) u (if has flags F_BIGNAME then Z.ldiff flags F_BIGNAME else flags) (cname r).

Lemma emptied_freed r u : freed r (emptied r u).
Proof.
  split_and!; [done..| |]; unfold used, fixed, emptied; cbn [cflags]; rewrite !has_lor; destruct (has _ F_BIGNAME).
  - rewrite !(has_ldiff _ F_BIGNAME), has_ldiff_same, (has_ldiff _ F_REVERSE F_FORWARD), has_ldiff_same by done. done.
  - rewrite has_ldiff_same, (has_ldiff _ F_REVERSE F_FORWARD), has_ldiff_same by done. done.
  - by rewrite !has_ldiff by done.
  - by rewrite !has_ldiff by done.
Qed.

Lemma cache_free_eq c i r : recs c !! i = Some r -> exists c',
  cache_free c i = Ok c' /\ recs c' = <[i := emptied r (uid c)]> (recs c) /\ lru c' = push_tail (lru c) i /\
  hash_table c' = hash_table c /\ new_chain c' = new_chain c /\ insert_error c' = insert_error c.
Proof.
  intros Hr. unfold cache_free, getr. rewrite Hr. cbn [of_option mbind comp_bind]. cbv zeta.
  eexists. split; [reflexivity|]. unfold emptied. by destruct (has _ F_BIGNAME).
Qed.

Lemma not_in_both (l nc : list ptr) i : NoDup (nc ++ l) -> i ∈ l -> i ∈ nc -> False.
Proof. intros (_ & Hd & _)%NoDup_app Hl Hn. exact (Hd i Hn Hl). Qed.

Lemma push_tail_links d i l j : dll_rep d l -> j ∉ l -> j <> i -> nxt (push_tail d i) !! j = nxt d !! j.
Proof.
  intros (_ & Ht & _ & _) Hj Hne. unfold push_tail. cbn [nxt]. rewrite lookup_set_ptr, decide_False by done. rewrite Ht.
  destruct (last l) as [x|] eqn:Hl; [|done]. rewrite lookup_set_ptr, decide_False; [done|].
  intros ->. apply Hj. apply last_Some in Hl as [l' ->]. set_solver.
Qed.
Lemma unlink_links d l1 i l2 j : dll_rep d (l1 ++ i :: l2) -> j ∉ l1 ++ i :: l2 -> nxt (unlink d i) !! j = nxt d !! j.
Proof.
  intros (_ & _ & _ & Hs) Hj. apply dll_seg_app in Hs as [_ (Hp & _ & _)]. rewrite last_or_None in Hp.
  unfold unlink. cbn [nxt]. rewrite Hp. destruct (last l1) as [x|] eqn:Hl; [|done]. rewrite lookup_set_ptr, decide_False; [done|].
  intros ->. apply Hj. apply last_Some in Hl as [l' ->]. set_solver.
Qed.
Lemma push_head_links d i l j : dll_rep d l -> j ∉ l -> j <> i -> nxt (push_head d i) !! j = nxt d !! j.
Proof. intros _ _ Hne. unfold push_head. cbn [nxt]. by rewrite lookup_set_ptr, decide_False. Qed.

Lemma filter_middle (l1 l2 : list ptr) i : NoDup (l1 ++ i :: l2) -> filter (fun j => j ∉ [i]) (l1 ++ i :: l2) = l1 ++ l2.
Proof.
  intros (_ & Hd & Hnd)%NoDup_app. apply NoDup_cons in Hnd as [Hi _]. rewrite filter_app, filter_cons, decide_False by set_solver.
  rewrite !filter_notin_all; [done|set_solver|]. intros j Hj ->%list_elem_of_singleton. apply (Hd i Hj). by left.
Qed.

(** Stored flags and addresses of other records matter only through their
    existence. *)
Lemma addr_ok_mono rs rs' r : (forall i, is_Some (rs !! i) -> is_Some (rs' !! i)) -> addr_ok rs r -> addr_ok rs' r.
Proof. intros Hd. unfold addr_ok. destruct (has _ F_CNAME); [|done]. intros [? Ha]. split; [done|]. destruct (cr_addr r) as [|[]]; auto. Qed.

Lemma recycle_links t c l nc t' i r : wfT t c l nc -> removed t i t' -> recs c !! i = Some r -> fixed r = false ->
  exists c' l', recycle c i = Ok c' /\ wfT t' c' l' nc /\ evolve c c' l l' [i] /\ (forall j, j ∉ l -> nxt (lru c') !! j = nxt (lru c) !! j).
Proof.
  intros W Hrem Hr Hf. destruct Hrem as (Hlen & Hsub & Hp). assert (zlen t' = zlen t) as Hzl by (unfold zlen; by rewrite Hlen).
  assert (i ∈ concat t) as Hit by (rewrite Hp; by left).
  assert (i ∉ concat t') as Hit' by (pose proof (wf_once _ _ _ _ W) as Ho; rewrite Hp in Ho; by apply NoDup_cons in Ho as [? _]).
  assert (forall j, j ∈ concat t' -> j ∈ concat t /\ j <> i) as Hin.
  { intros j Hj. split; [rewrite Hp; by right|]. by intros ->. }
  pose proof (wf_fixed _ _ _ _ W i r Hr Hit Hf) as Hil. apply list_elem_of_split in Hil as (l1 & l2 & ->).
  pose proof (wf_lru _ _ _ _ W) as Hd. pose proof (wf_nodup _ _ _ _ W) as Hnd.
  destruct (cache_free_eq (cache_unlink c i) i r) as (c' & Hc' & Hrecs & Hlru & Htab & Hch & Her); [done|].
  cbn [cache_unlink with_lru recs lru hash_table new_chain insert_error uid] in Hrecs, Hlru, Htab, Hch, Her.
  exists c', ((l1 ++ l2) ++ [i]). split; [done|].
  assert (forall j, j ∈ (l1 ++ l2) ++ [i] <-> j ∈ l1 ++ i :: l2) as Hl' by (intros j; rewrite !elem_of_app, elem_of_cons; set_solver).
  assert (forall j, recs c' !! j = if decide (j = i) then Some (emptied r (uid c)) else recs c !! j) as Hrj.
  { intros j. rewrite Hrecs. destruct (decide (j = i)) as [->|]; [by rewrite lookup_insert_eq|by rewrite lookup_insert_ne]. }
  destruct (emptied_freed r (uid c)) as (_ & _ & Hu & Hfx).
  assert (forall j, is_Some (recs c !! j) -> is_Some (recs c' !! j)) as Hdom by (intros j Hj; rewrite Hrj; case_decide; eauto).
  assert (forall j, j ∉ l1 ++ i :: l2 -> nxt (lru c') !! j = nxt (lru c) !! j) as Hnx.
  { intros j Hj. rewrite Hlru.
    rewrite (push_tail_links _ _ (l1 ++ l2)); [by apply (unlink_links _ l1 i l2)|by apply unlink_rep|set_solver|set_solver]. }
  split; [|split; [split; try done|done]].
  - split.
    + rewrite Hlru. by apply demote_rep.
    + rewrite Hch. apply (wf_head _ _ _ _ W).
    + eapply sseg_frame; [|apply (wf_links _ _ _ _ W)]. intros j Hj. apply Hnx. intros Hjl. exact (not_in_both _ _ j Hnd Hjl Hj).
    + rewrite <- (Permutation_middle l1 l2 i) in Hnd. rewrite <- Permutation_cons_append. done.
    + rewrite Hzl. apply (wf_size _ _ _ _ W).
    + rewrite Htab, Hlen. apply (wf_same _ _ _ _ W).
    + pose proof (wf_once _ _ _ _ W) as Ho. rewrite Hp in Ho. by apply NoDup_cons in Ho as [_ ?].
    + intros j Hj. apply Hdom, (wf_recs _ _ _ _ W). rewrite <- Hl'. destruct Hj as [Hj|Hj]; [left; by apply Hin|by right].
    + intros n j rj Hj. assert (j ∈ nth n t []) as Hj' by (eapply sublist_subseteq; [apply Hsub|done]). rewrite Hzl, Hrj. destruct (decide (j = i)) as [->|_]; [intros [= <-]; exact (wf_hash _ _ _ _ W n i r Hj' Hr)|intros Hrj'; exact (wf_hash _ _ _ _ W n j rj Hj' Hrj')].
    + intros j rj Hrj' Hj. destruct (Hin j Hj) as [Hj' Hne]. rewrite Hrj, decide_False in Hrj' by done. by eapply (wf_hashed _ _ _ _ W).
    + intros j rj Hrj' Hj Huj. rewrite Hrj in Hrj'. destruct (decide (j = i)) as [->|Hne]; [injection Hrj' as <-; congruence|].
      apply Hl' in Hj. pose proof (wf_used _ _ _ _ W j rj Hrj' Hj Huj) as Hjt. rewrite Hp in Hjt. apply elem_of_cons in Hjt as [?|?]; done.
    + intros j rj Hrj' Hj Hfj. destruct (Hin j Hj) as [Hj' Hne]. rewrite Hrj, decide_False in Hrj' by done.
      apply Hl'. by eapply (wf_fixed _ _ _ _ W).
    + intros j rj Hrj' Hj. rewrite Hl' in Hj. rewrite Hrj in Hrj'. destruct (decide (j = i)) as [->|Hne]; [injection Hrj' as <-; congruence|].
      by eapply (wf_dyn _ _ _ _ W).
    + intros j rj Hrj' Hj. destruct (Hin j Hj) as [Hj' Hne]. rewrite Hrj, decide_False in Hrj' by done.
      eapply addr_ok_mono; [exact Hdom|]. by eapply (wf_addr _ _ _ _ W).
    + intros j rj Hrj' Hj. assert (j <> i) as Hne by (intros ->; apply (not_in_both _ _ i Hnd); [set_solver|done]).
      rewrite Hrj, decide_False in Hrj' by done. by eapply (wf_new _ _ _ _ W).
    + intros n. assert (i ∉ nth n t' []) as Hni.
      { intros Hni. apply Hit'. destruct (decide (n < length t')%nat) as [Hlt|Hge]; [apply nth_concat; eauto|].
        rewrite nth_overflow in Hni by lia. by apply elem_of_nil in Hni. }
      eapply StronglySorted_ext; [|eapply StronglySorted_sublist; [apply Hsub|apply (wf_order _ _ _ _ W)]].
      intros a b Ha Hb. unfold rcls. rewrite !Hrj, !decide_False by (by intros ->). done.
  - apply NoDup_app in Hnd as (_ & _ & Hnd). by rewrite filter_middle.
  - intros j Hj. rewrite Hrj, decide_False; [done|set_solver].
  - intros j ->%list_elem_of_singleton. exists r, (emptied r (uid c)). split_and!; [done| |apply emptied_freed]. by rewrite Hrj, decide_True.
Qed.

Lemma recycle_ok t c l nc t' i r : wfT t c l nc -> removed t i t' -> recs c !! i = Some r -> fixed r = false ->
  exists c' l', recycle c i = Ok c' /\ wfT t' c' l' nc /\ evolve c c' l l' [i].
Proof. intros W Hrem Hr Hf. destruct (recycle_links t c l nc t' i r W Hrem Hr Hf) as (c' & l' & ? & ? & ? & _). by exists c', l'. Qed.

Lemma insert_same (t : list (list ptr)) n : (n < length t)%nat -> <[n := nth n t []]> t = t.
Proof. revert t. induction n as [|n IH]; intros [|x t] Hn; cbn in *; try lia; [done|]. f_equal. apply IH. lia. Qed.

Lemma drop_fixed t c l nc t' i r : wfT t c l nc -> removed t i t' -> recs c !! i = Some r -> fixed r = true -> wfT t' c l nc.
Proof.
  intros W (Hlen & Hsub & Hp) Hr Hf. assert (zlen t' = zlen t) as Hzl by (unfold zlen; by rewrite Hlen).
  assert (forall j, j ∈ concat t' -> j ∈ concat t) as Hin by (intros j Hj; rewrite Hp; by right).
  split; try apply W.
  - rewrite Hzl. apply W.
  - rewrite Hlen. apply W.
  - pose proof (wf_once _ _ _ _ W) as Ho. rewrite Hp in Ho. by apply NoDup_cons in Ho as [_ ?].
  - intros j Hj. apply (wf_recs _ _ _ _ W). destruct Hj; auto.
  - intros n j rj Hj. rewrite Hzl. apply (wf_hash _ _ _ _ W). eapply sublist_subseteq; [apply Hsub|done].
  - intros j rj Hrj Hj. apply (wf_hashed _ _ _ _ W j); auto.
  - intros j rj Hrj Hj Hu. pose proof (wf_used _ _ _ _ W j rj Hrj Hj Hu) as Hjt. rewrite Hp in Hjt.
    apply elem_of_cons in Hjt as [->|?]; [|done]. exfalso. pose proof (wf_dyn _ _ _ _ W i rj Hrj (or_introl Hj)). congruence.
  - intros j rj Hrj Hj. apply (wf_fixed _ _ _ _ W j); auto.
  - intros j rj Hrj Hj. apply (wf_addr _ _ _ _ W j); auto.
  - intros n. eapply StronglySorted_sublist; [apply Hsub|apply W].
Qed.

Lemma outdated_ok rs c r : recs c = rs -> addr_ok rs r -> exists b, is_outdated_cname_pointer c r = Ok b /\ (b = true -> has (cflags r) F_CNAME = true).
Proof.
  intros <- H. unfold is_outdated_cname_pointer, addr_ok in *. destruct (has (cflags r) F_CNAME); cbn [negb]; [|by exists false].
  destruct H as [_ H]. destruct (cr_addr r) as [|[t|] u]; [done| |by exists true]. destruct H as [tr Ht]. unfold getr. rewrite Ht. cbn. eauto.
Qed.

Definition fwd_match (flags : Z) (name : list Z) (r : crec) : bool :=
  has (cflags r) F_FORWARD && (has (Z.land flags (cflags r)) F_TYPE || has (Z.lor (cflags r) flags) F_CNAME) &&
  hostname_isequal (cname r) name.

(** The chain behind a record, when it is the first of what is left. *)
Lemma in_chain (t : list (list ptr)) n d i chain : (n < length t)%nat -> nth n t [] = d ++ i :: chain -> i ∈ concat t.
Proof. intros Hn Ht. apply nth_concat. exists n. split; [done|]. rewrite Ht. set_solver. Qed.

Lemma scan_forward_ok now owner flags n nc chain : forall t c l name d, wfT t c l nc -> (n < length t)%nat -> nth n t [] = d ++ chain ->
  exists ok kept c' l' ids, scan_forward clobbered now owner name flags chain c = Ok (ok, kept, c') /\
    wfT (<[n := d ++ kept]> t) c' l' nc /\ evolve c c' l l' ids /\ kept `sublist_of` chain /\ (forall j, j ∈ ids -> j ∈ chain /\ j ∉ kept) /\
    (ok = true -> forall j r, j ∈ kept -> recs c !! j = Some r -> owner = None \/ owner = Some j ->
       is_expired now r = false /\ fwd_match flags name r = false) /\
    (owner = None -> forall j r, j ∈ chain -> j ∉ kept -> recs c !! j = Some r ->
       is_expired now r = true \/ has (cflags r) F_CNAME = true \/ fwd_match flags name r = true) /\
    (ok = false -> exists j r, j ∈ chain /\ recs c !! j = Some r /\ fixed r = true /\ has (cflags r) F_FORWARD = true).
Proof.
  induction chain as [|i chain IH]; intros t c l name d W Hn Ht; cbn [scan_forward].
  { exists true, [], c, l, []. split_and!; try done; try by_nil; [by rewrite <- Ht, insert_same|by apply evolve_refl]. }
  pose proof (in_chain t n d i chain Hn Ht) as Hit. destruct (wf_recs _ _ _ _ W i) as [r Hr]; [by left|].
  pose proof (wf_once _ _ _ _ W) as Hnd. rewrite (concat_nth t n), Ht in Hnd by done.
  assert (i ∉ d ++ chain) as Hid.
  { apply NoDup_app in Hnd as (_ & _ & Hnd). apply NoDup_app in Hnd as (Hnd & _ & _). rewrite <- Permutation_middle in Hnd. by apply NoDup_cons in Hnd as [? _]. }
  clear Hnd. unfold getr. rewrite Hr. cbn [of_option mbind comp_bind].
  assert (exists out, (if is_expired now r then mret true else is_outdated_cname_pointer c r) = Ok out /\
    (out = true -> is_expired now r = true \/ has (cflags r) F_CNAME = true) /\ (out = false -> is_expired now r = false)) as (out & -> & Hout & Hnot).
  { destruct (is_expired now r) eqn:E; [by exists true; auto|].
    destruct (outdated_ok (recs c) c r eq_refl) as (b & -> & Hb); [by apply (wf_addr _ _ _ _ W i r Hr)|]. exists b. auto. }
  pose proof (removed_at t n d i chain Hn Ht) as Hrem.
  assert (Hdrop : forall name' t' c1 l1 ids1, t' = <[n := d ++ chain]> t -> wfT t' c1 l1 nc -> evolve c c1 l l1 ids1 -> (forall j, j ∈ ids1 -> j = i) ->
    (owner <> Some i -> name' = name) -> (out = true \/ fwd_match flags name r = true) ->
    exists ok kept c' l' ids, scan_forward clobbered now owner name' flags chain c1 = Ok (ok, kept, c') /\
      wfT (<[n := d ++ kept]> t) c' l' nc /\ evolve c c' l l' ids /\ kept `sublist_of` i :: chain /\ (forall j, j ∈ ids -> j ∈ i :: chain /\ j ∉ kept) /\
      (ok = true -> forall j r, j ∈ kept -> recs c !! j = Some r -> owner = None \/ owner = Some j ->
         is_expired now r = false /\ fwd_match flags name r = false) /\
      (owner = None -> forall j r, j ∈ i :: chain -> j ∉ kept -> recs c !! j = Some r ->
         is_expired now r = true \/ has (cflags r) F_CNAME = true \/ fwd_match flags name r = true) /\
      (ok = false -> exists j r, j ∈ i :: chain /\ recs c !! j = Some r /\ fixed r = true /\ has (cflags r) F_FORWARD = true)).
  { intros name' t' c1 l1 ids1 -> W1 Hev Hids Hname Hwhy.
    destruct (IH _ c1 l1 name' d W1) as (ok & kept & c' & l' & ids & Hs & W' & Hev' & Hsub & Hin & Hk & Hl & Hbad);
      [by rewrite length_insert|by rewrite nth_insert_eq|].
    assert (forall j, j ∈ chain -> recs c1 !! j = recs c !! j) as Hrc.
    { intros j Hj. apply (ev_keep _ _ _ _ _ Hev). intros ->%Hids. set_solver. }
    exists ok, kept, c', l', (ids1 ++ ids). rewrite list_insert_insert_eq in W'. split_and!; [done|done| | | | | |].
    - eapply evolve_trans; [done..|]. intros j Hj ->%Hids. apply Hin in Hj as [Hj _]. set_solver.
    - by apply sublist_cons.
    - intros j [->%Hids|[Hj1 Hj2]%Hin]%elem_of_app; [|by split; [right|]]. split; [by left|]. intros Hk'. apply Hid.
      assert (i ∈ chain); [by eapply sublist_subseteq|set_solver].
    - intros Hok j rj Hj Hrj How. assert (j ∈ chain) as Hjc by (by eapply sublist_subseteq). rewrite <- Hrc in Hrj by done.
      assert (name' = name) as -> by (apply Hname; destruct How as [-> | ->]; [done|]; intros [= ->]; set_solver). by apply (Hk Hok j).
    - intros How j rj [->|Hj]%elem_of_cons Hjk Hrj.
      + assert (rj = r) as -> by congruence. destruct Hwhy as [Hw|Hw]; [destruct (Hout Hw); auto|auto].
      + rewrite <- Hrc in Hrj by done. rewrite Hname in Hl by (by rewrite How). by apply (Hl How j).
    - intros Hok. destruct (Hbad Hok) as (j & rj & Hj & Hrj & Hb). exists j, rj. rewrite <- Hrc by done. split_and!; [by right|done|apply Hb..]. }
  destruct out.
  - destruct (fixed r) eqn:Hf; cbn [mbind comp_bind mret comp_ret]; cbv zeta.
    + apply (Hdrop name _ c l [] eq_refl); [by eapply drop_fixed|by apply evolve_refl|by intros j ?%elem_of_nil|done|by left].
    + destruct (recycle_ok t c l nc _ i r W Hrem Hr Hf) as (c1 & l1 & -> & W1 & Hev). cbn [mbind comp_bind].
      apply (Hdrop _ _ c1 l1 [i] eq_refl); [done|done|by intros j ?%list_elem_of_singleton| |by left].
      intros How. unfold name_after. by rewrite bool_decide_eq_false_2.
  - destruct (has (cflags r) F_FORWARD && _ && _) eqn:Hm.
    + destruct (fixed r) eqn:Hf.
      * exists false, (i :: chain), c, l, []. split_and!; try done; try by_nil.
        -- by rewrite <- Ht, insert_same.
        -- by apply evolve_refl.
        -- intros _. exists i, r. split_and!; [by left|done|done|]. by destruct (has (cflags r) F_FORWARD).
      * destruct (recycle_ok t c l nc _ i r W Hrem Hr Hf) as (c1 & l1 & -> & W1 & Hev). cbn [mbind comp_bind]. cbv zeta.
        apply (Hdrop _ _ c1 l1 [i] eq_refl); [done|done|by intros j ?%list_elem_of_singleton| |by right].
        intros How. unfold name_after. by rewrite bool_decide_eq_false_2.
    + destruct (IH t c l name (d ++ [i]) W Hn) as (ok & kept & c' & l' & ids & Hs & W' & Hev & Hsub & Hin & Hk & Hl & Hbad); [by rewrite <- app_assoc|].
      rewrite Hs. cbn [mbind comp_bind mret comp_ret]. exists ok, (i :: kept), c', l', ids. rewrite <- app_assoc in W'.
      split_and!; [done|done|done|by apply sublist_skip| | | |].
      * intros j Hj. destruct (Hin j Hj) as [Hj1 Hj2]. split; [by right|]. intros [->|?]%elem_of_cons; [set_solver|done].
      * intros Hok j rj [->|Hj]%elem_of_cons Hrj How; [|by apply (Hk Hok j)]. assert (rj = r) as -> by congruence. split; [by apply Hnot|done].
      * intros How j rj [->|Hj]%elem_of_cons Hjk Hrj; [set_solver|]. apply (Hl How j); [done|set_solver|done].
      * intros Hok. destruct (Hbad Hok) as (j & rj & Hj & Hb). exists j, rj. split; [by right|done].
Qed.

Definition rev_match (flags : Z) (addr : option caddr) (r : crec) : bool :=
  negb (fixed r) && has (Z.land flags (cflags r)) F_REVERSE && has (Z.land flags (cflags r)) (Z.lor F_IPV4 F_IPV6) &&
  bool_decide (Some (cr_addr r) = addr).

Lemma has_land_bit flags f n : 0 <= n -> has (Z.land flags f) (2 ^ n) = has flags (2 ^ n) && has f (2 ^ n).
Proof. intros Hn. by rewrite !has_bit, Z.land_spec by done. Qed.
Lemma has_land_r flags f : has (Z.land flags f) F_REVERSE = true -> has f F_REVERSE = true /\ has flags F_REVERSE = true.
Proof. unfold F_REVERSE. rewrite has_land_bit by done. intros [-> ->]%andb_true_iff. done. Qed.

Lemma same_addr_ok rs r a : addr_ok rs r -> has (cflags r) F_REVERSE = true ->
  same_addr r (Some (CAddr a)) = Ok (bool_decide (Some (cr_addr r) = Some (CAddr a))).
Proof.
  unfold addr_ok, same_addr. destruct (has (cflags r) F_CNAME); [intros [H1 _] H2; congruence|]. intros H H2. rewrite H2 in H. destruct H as (b & ->).
  f_equal. apply bool_decide_ext. split; [by intros ->|by intros [= ->]].
Qed.

Lemma fold_rev_match rs flags addr r : addr_ok rs r -> (has flags F_REVERSE = true -> exists a, addr = Some (CAddr a)) ->
  (if negb (fixed r) && has (Z.land flags (cflags r)) F_REVERSE && has (Z.land flags (cflags r)) (Z.lor F_IPV4 F_IPV6)
   then same_addr r addr else mret false) = Ok (rev_match flags addr r).
Proof.
  intros Ha Hf. unfold rev_match. destruct (fixed r); [done|]. cbn [negb andb].
  destruct (has (Z.land flags (cflags r)) F_REVERSE) eqn:E; [|done]. apply has_land_r in E as [Hr Hfl]. cbn [andb].
  destruct (has _ (Z.lor F_IPV4 F_IPV6)); [|done]. destruct (Hf Hfl) as (a & ->). cbn [andb]. by rewrite (same_addr_ok rs).
Qed.

(** Behind the first immortal record of a chain nothing can expire or be found
    by its address. *)
Lemma immortal_rest rs flags addr now i r chain : StronglySorted (fun i j => (rcls rs i <= rcls rs j)%nat) (i :: chain) ->
  rs !! i = Some r -> has (cflags r) F_REVERSE = false -> has (cflags r) F_IMMORTAL = true ->
  forall j s, j ∈ i :: chain -> rs !! j = Some s -> is_expired now s = false /\ rev_match flags addr s = false.
Proof.
  intros Hs Hr Hrev Him j s Hj Hjs. inversion Hs as [|? ? _ Hall]; subst. rewrite Forall_forall in Hall.
  assert (rcls rs i <= rcls rs j)%nat as Hc by (apply elem_of_cons in Hj as [->|Hj]; [lia|by apply Hall]).
  unfold rcls in Hc. rewrite Hr, Hjs in Hc. cbn in Hc. unfold cls in Hc. rewrite Hrev, Him in Hc. unfold is_expired, rev_match.
  destruct (has (cflags s) F_REVERSE) eqn:E1; [lia|]. destruct (has (cflags s) F_IMMORTAL); [|lia]. split; [done|].
  destruct (has (Z.land flags (cflags s)) F_REVERSE) eqn:E2; [|by rewrite andb_false_r].
  apply has_land_r in E2 as [? _]. congruence.
Qed.

Lemma scan_reverse_ok now addr flags n nc chain : (has flags F_REVERSE = true -> exists a, addr = Some (CAddr a)) ->
  forall t c l d, wfT t c l nc -> (n < length t)%nat -> nth n t [] = d ++ chain ->
  exists kept c' l' ids, scan_reverse now addr flags chain c = Ok (kept, c') /\
    wfT (<[n := d ++ kept]> t) c' l' nc /\ evolve c c' l l' ids /\ kept `sublist_of` chain /\ (forall j, j ∈ ids -> j ∈ chain /\ j ∉ kept) /\
    (forall j r, j ∈ kept -> recs c !! j = Some r -> is_expired now r = false /\ rev_match flags addr r = false) /\
    (forall j r, j ∈ chain -> j ∉ kept -> recs c !! j = Some r -> is_expired now r = true \/ rev_match flags addr r = true).
Proof.
  intros Haddr. induction chain as [|i chain IH]; intros t c l d W Hn Ht; cbn [scan_reverse].
  { exists [], c, l, []. split_and!; try done; try by_nil; [by rewrite <- Ht, insert_same|by apply evolve_refl]. }
  pose proof (in_chain t n d i chain Hn Ht) as Hit. destruct (wf_recs _ _ _ _ W i) as [r Hr]; [by left|].
  pose proof (wf_once _ _ _ _ W) as Hnd. rewrite (concat_nth t n), Ht in Hnd by done.
  assert (i ∉ chain) as Hid.
  { apply NoDup_app in Hnd as (_ & _ & Hnd). apply NoDup_app in Hnd as (Hnd & _ & _). apply NoDup_app in Hnd as (_ & _ & Hnd).
    by apply NoDup_cons in Hnd as [? _]. }
  clear Hnd. unfold getr. rewrite Hr. cbn [of_option mbind comp_bind].
  assert (StronglySorted (fun i j => (rcls (recs c) i <= rcls (recs c) j)%nat) (i :: chain)) as Hsort.
  { pose proof (wf_order _ _ _ _ W n) as Ho. rewrite Ht in Ho. eapply StronglySorted_sublist; [|exact Ho]. by apply sublist_inserts_l. }
  destruct (negb (has (cflags r) F_REVERSE || negb (has (cflags r) F_IMMORTAL))) eqn:Estop.
  { apply negb_true_iff, orb_false_iff in Estop as [Er Ei%negb_false_iff].
    exists (i :: chain), c, l, []. split_and!; try done; try by_nil; [by rewrite <- Ht, insert_same|by apply evolve_refl|].
    by apply (immortal_rest (recs c) flags addr now i r). }
  pose proof (removed_at t n d i chain Hn Ht) as Hrem.
  assert (Hdrop : forall t' c1 l1 ids1, t' = <[n := d ++ chain]> t -> wfT t' c1 l1 nc -> evolve c c1 l l1 ids1 -> (forall j, j ∈ ids1 -> j = i) ->
    is_expired now r = true \/ rev_match flags addr r = true ->
    exists kept c' l' ids, scan_reverse now addr flags chain c1 = Ok (kept, c') /\
      wfT (<[n := d ++ kept]> t) c' l' nc /\ evolve c c' l l' ids /\ kept `sublist_of` i :: chain /\ (forall j, j ∈ ids -> j ∈ i :: chain /\ j ∉ kept) /\
      (forall j r, j ∈ kept -> recs c !! j = Some r -> is_expired now r = false /\ rev_match flags addr r = false) /\
      (forall j r, j ∈ i :: chain -> j ∉ kept -> recs c !! j = Some r -> is_expired now r = true \/ rev_match flags addr r = true)).
  { intros t' c1 l1 ids1 -> W1 Hev Hids Hwhy.
    destruct (IH _ c1 l1 d W1) as (kept & c' & l' & ids & Hs & W' & Hev' & Hsub & Hin & Hk & Hl); [by rewrite length_insert|by rewrite nth_insert_eq|].
    assert (forall j, j ∈ chain -> recs c1 !! j = recs c !! j) as Hrc.
    { intros j Hj. apply (ev_keep _ _ _ _ _ Hev). intros ->%Hids. done. }
    exists kept, c', l', (ids1 ++ ids). rewrite list_insert_insert_eq in W'. split_and!; [done|done| | | | |].
    - eapply evolve_trans; [done..|]. intros j Hj ->%Hids. by apply Hin in Hj as [Hj _].
    - by apply sublist_cons.
    - intros j [->%Hids|[Hj1 Hj2]%Hin]%elem_of_app; [|by split; [right|]]. split; [by left|]. intros Hk'. apply Hid. by eapply sublist_subseteq.
    - intros j rj Hj Hrj. assert (j ∈ chain) as Hjc by (by eapply sublist_subseteq). rewrite <- Hrc in Hrj by done. by apply (Hk j).
    - intros j rj [->|Hj]%elem_of_cons Hjk Hrj; [by assert (rj = r) as -> by congruence|]. rewrite <- Hrc in Hrj by done. by apply (Hl j). }
  destruct (is_expired now r) eqn:Eexp.
  - destruct (fixed r) eqn:Hf; cbn [mbind comp_bind mret comp_ret].
    + apply (Hdrop _ c l [] eq_refl); [by eapply drop_fixed|by apply evolve_refl|by intros j ?%elem_of_nil|by left].
    + destruct (recycle_ok t c l nc _ i r W Hrem Hr Hf) as (c1 & l1 & -> & W1 & Hev). cbn [mbind comp_bind].
      apply (Hdrop _ c1 l1 [i] eq_refl); [done|done|by intros j ?%list_elem_of_singleton|by left].
  - rewrite (fold_rev_match (recs c)) by (done || (by apply (wf_addr _ _ _ _ W i r Hr))). cbn [mbind comp_bind].
    destruct (rev_match flags addr r) eqn:Em.
    + assert (fixed r = false) as Hf by (unfold rev_match in Em; by destruct (fixed r)).
      destruct (recycle_ok t c l nc _ i r W Hrem Hr Hf) as (c1 & l1 & -> & W1 & Hev). cbn [mbind comp_bind].
      apply (Hdrop _ c1 l1 [i] eq_refl); [done|done|by intros j ?%list_elem_of_singleton|by right].
    + destruct (IH t c l (d ++ [i]) W Hn) as (kept & c' & l' & ids & Hs & W' & Hev & Hsub & Hin & Hk & Hl); [by rewrite <- app_assoc|].
      rewrite Hs. cbn [mbind comp_bind mret comp_ret]. exists (i :: kept), c', l', ids. rewrite <- app_assoc in W'.
      split_and!; [done|done|done|by apply sublist_skip| | |].
      * intros j Hj. destruct (Hin j Hj) as [Hj1 Hj2]. split; [by right|]. intros [->|?]%elem_of_cons; done.
      * intros j rj [->|Hj]%elem_of_cons Hrj; [by assert (rj = r) as -> by congruence|by apply (Hk j)].
      * intros j rj [->|Hj]%elem_of_cons Hjk Hrj; [set_solver|]. apply (Hl j); [done|set_solver|done].
Qed.

(** ** Whole tables *)

Definition wf (c : cache) (l nc : list ptr) : Prop := wfT (hash_table c) c l nc.

(** [evolve], whatever happened to the table. *)
Definition evolve_mod (c c' : cache) (l l' ids : list ptr) : Prop := evolve c (with_table (hash_table c) c') l l' ids.

Lemma wfT_table t x c l nc : wfT t c l nc -> length x = length t -> wfT t (with_table x c) l nc.
Proof. intros [] Hx. by split. Qed.

Lemma evolve_mod_trans c c1 c2 l l1 l2 a b : evolve_mod c c1 l l1 a -> evolve_mod c1 c2 l1 l2 b -> (forall j, j ∈ b -> j ∉ a) ->
  evolve_mod c c2 l l2 (a ++ b).
Proof.
  intros H1 [K1 K2 K3 K4 K5 K6] Hd. eapply evolve_trans; [exact H1| |done]. by split.
Qed.

Lemma bucket_nth c n : bucket c (Z.of_nat n) = nth n (hash_table c) [].
Proof. unfold bucket. by rewrite Nat2Z.id. Qed.

Lemma wf_set_bucket t c n kept c' l' nc : hash_table c = t -> hash_table c' = t ->
  wfT (<[n := kept]> t) c' l' nc -> wf (set_bucket c' (Z.of_nat n) kept) l' nc.
Proof.
  intros Ht Ht' W. unfold wf, set_bucket. cbn [hash_table with_table]. rewrite Nat2Z.id, Ht'. apply wfT_table; [done|done].
Qed.

Lemma scan_table_ok now addr flags nc m : (has flags F_REVERSE = true -> exists a, addr = Some (CAddr a)) ->
  forall k c l, wf c l nc -> (k + m = length (hash_table c))%nat ->
  exists c' l' ids, scan_table now addr flags k m c = Ok c' /\ wf c' l' nc /\ evolve_mod c c' l l' ids /\
    length (hash_table c') = length (hash_table c) /\
    (forall n, nth n (hash_table c') [] `sublist_of` nth n (hash_table c) []) /\
    (forall j, j ∈ ids -> j ∈ concat (hash_table c) /\ j ∉ concat (hash_table c')) /\
    (forall n j r, (k <= n)%nat -> j ∈ nth n (hash_table c') [] -> recs c !! j = Some r -> is_expired now r = false /\ rev_match flags addr r = false) /\
    (forall j r, j ∈ concat (hash_table c) -> j ∉ concat (hash_table c') -> recs c !! j = Some r ->
      is_expired now r = true \/ rev_match flags addr r = true).
Proof.
  intros Haddr. induction m as [|m IH]; intros k c l W Hkm; cbn [scan_table].
  { exists c, l, []. split_and!; try done; try by_nil; [unfold evolve_mod; destruct c; by apply evolve_refl|].
    intros n j r Hn Hj. rewrite nth_overflow in Hj by lia. by_nil. }
  rewrite bucket_nth.
  destruct (scan_reverse_ok now addr flags k nc (nth k (hash_table c) []) Haddr (hash_table c) c l []) as
    (kept & c1 & l1 & ids1 & -> & W1 & Hev1 & Hsub1 & Hin1 & Hk1 & Hl1); [done|lia|done|]. cbn [mbind comp_bind app] in *.
  pose proof (ev_table _ _ _ _ _ Hev1) as Ht1. set (c2 := set_bucket c1 (Z.of_nat k) kept) in *.
  assert (hash_table c2 = <[k := kept]> (hash_table c)) as Ht2 by (unfold c2, set_bucket; cbn; by rewrite Nat2Z.id, Ht1).
  assert (wf c2 l1 nc) as W2 by (by apply (wf_set_bucket (hash_table c) c)).
  destruct (IH (S k) c2 l1 W2) as (c' & l' & ids & -> & W' & Hev & Hlen & Hsub & Hin & Hk & Hl); [rewrite Ht2, length_insert; lia|].
  rewrite Ht2 in Hsub, Hin, Hl, Hlen. rewrite length_insert in Hlen.
  assert (forall n, nth n (<[k:=kept]> (hash_table c)) [] `sublist_of` nth n (hash_table c) []) as Hsub2.
  { intros n. destruct (decide (k = n)) as [<-|Hne]; [by rewrite nth_insert_eq by lia|by rewrite nth_insert_ne by done]. }
  assert (forall j, j ∈ concat (<[k:=kept]> (hash_table c)) -> j ∉ ids1) as Hnot1.
  { intros j Hj Hj1. destruct (Hin1 j Hj1) as [Hja Hjb]. rewrite concat_insert in Hj by lia.
    pose proof (wf_once _ _ _ _ W) as Ho. rewrite (concat_nth (hash_table c) k) in Ho by lia.
    apply NoDup_app in Ho as (_ & Ho1 & Ho). apply NoDup_app in Ho as (_ & Ho2 & _).
    rewrite !elem_of_app in Hj. destruct Hj as [Hj|[Hj|Hj]]; [|done|].
    - apply (Ho1 j Hj). rewrite elem_of_app. by left.
    - by apply (Ho2 j Hja). }
  assert (forall j, j ∈ concat (<[k:=kept]> (hash_table c)) -> j ∈ concat (hash_table c)) as Hincl.
  { intros j (n & Hn & Hj)%nth_concat. rewrite length_insert in Hn. apply nth_concat. exists n. split; [done|]. eapply sublist_subseteq; [apply Hsub2|done]. }
  assert (forall j, j ∈ concat (hash_table c') -> j ∈ concat (<[k:=kept]> (hash_table c))) as Hincl'.
  { intros j (n & Hn & Hj)%nth_concat. apply nth_concat. exists n. rewrite length_insert. split; [lia|]. eapply sublist_subseteq; [apply Hsub|done]. }
  assert (forall j, j ∉ ids1 -> recs c2 !! j = recs c !! j) as Hrc by apply (ev_keep _ _ _ _ _ Hev1).
  exists c', l', (ids1 ++ ids). split_and!; [done|done| |lia| | | |].
  - eapply evolve_mod_trans; [|exact Hev|intros j [Hj _]%Hin; by apply Hnot1]. unfold evolve_mod. by destruct Hev1; split.
  - intros n. etrans; [apply Hsub|apply Hsub2].
  - intros j [Hj|Hj]%elem_of_app.
    + split; [|intros Hj'%Hincl'; by apply (Hnot1 j)]. apply nth_concat. exists k. split; [lia|]. by apply Hin1.
    + destruct (Hin j Hj) as [Hj1 Hj2]. split; [by apply Hincl|done].
  - intros n j r Hkn Hj Hr. assert (j ∈ nth n (<[k:=kept]> (hash_table c)) []) as Hj2 by (eapply sublist_subseteq; [apply Hsub|done]).
    assert (n < length (hash_table c))%nat as Hnl.
    { destruct (decide (n < length (hash_table c))%nat); [done|]. rewrite nth_overflow in Hj2 by (rewrite length_insert; lia). by_nil. }
    destruct (decide (n = k)) as [->|Hne].
    + rewrite nth_insert_eq in Hj2 by lia. by apply (Hk1 j).
    + apply (Hk n j); [lia|done|]. rewrite Hrc; [done|]. apply Hnot1, nth_concat. exists n. by rewrite length_insert.
  - intros j r Hj Hjn Hr. destruct (decide (j ∈ concat (<[k:=kept]> (hash_table c)))) as [Hj2|Hj2].
    + apply (Hl j); [done|done|]. by rewrite Hrc by (by apply Hnot1).
    + rewrite (concat_nth (hash_table c) k), !elem_of_app in Hj by lia. rewrite concat_insert, !elem_of_app in Hj2 by lia.
      apply (Hl1 j); [tauto|tauto|done].
Qed.

(** ** [cache_scan_free] *)

Lemma hash_step_range v ch : 0 <= hash_step mix_tab v ch < 2 ^ 32.
Proof. unfold hash_step, u32. apply Z.mod_pos_bound. lia. Qed.

Lemma hash_bucket_range k name : 0 <= k -> 0 <= hash_bucket mix_tab (2 ^ k) name < 2 ^ k.
Proof.
  intros Hk. unfold hash_bucket. replace (2 ^ k - 1) with (Z.ones k) by (rewrite Z.ones_equiv; lia). rewrite Z.land_ones by done. apply Z.mod_pos_bound. lia.
Qed.

(** Names that are equal but for letter case have the same bucket. *)
Lemma hash_step_case v a b : tolower a = tolower b -> hash_step mix_tab v a = hash_step mix_tab v b.
Proof. unfold hash_step, tolower. by intros ->. Qed.
Lemma hash_bucket_case size a b : hostname_isequal a b = true -> hash_bucket mix_tab size a = hash_bucket mix_tab size b.
Proof.
  intros H. unfold hash_bucket. assert (forall v, fold_left (hash_step mix_tab) a v = fold_left (hash_step mix_tab) b v) as ->; [|done].
  revert b H. induction a as [|x a IH]; intros [|y b]; try done. cbn [hostname_isequal fold_left]. intros H v.
  destruct (tolower x =? tolower y) eqn:E; [|done]. zbool. rewrite (hash_step_case v x y E). by apply IH.
Qed.

(** What a scan of chains leaves: the records [ids] are out of their chains
    and at the end of the list. *)
Record scanned (c c' : cache) (l l' nc ids : list ptr) : Prop := {
  sc_wf : wf c' l' nc;
  sc_evolve : evolve_mod c c' l l' ids;
  sc_length : length (hash_table c') = length (hash_table c);
  sc_sub : forall n, nth n (hash_table c') [] `sublist_of` nth n (hash_table c) [];
  sc_ids : forall j, j ∈ ids -> j ∈ concat (hash_table c) /\ j ∉ concat (hash_table c') }.

Lemma scanned_in c c' l l' nc ids j : scanned c c' l l' nc ids -> j ∈ concat (hash_table c') -> j ∈ concat (hash_table c).
Proof.
  intros [_ _ Hlen Hsub _] (n & Hn & Hj)%nth_concat. apply nth_concat. exists n. split; [lia|]. eapply sublist_subseteq; [apply Hsub|done].
Qed.

Lemma scanned_size c c' l l' nc ids : scanned c c' l l' nc ids -> hash_size c' = hash_size c.
Proof. intros [_ _ Hlen _ _]. unfold hash_size, zlen. by rewrite Hlen. Qed.

(** One bucket is replaced by what is left of it. *)
Lemma scanned_bucket n c c' kept l l' nc ids : (n < length (hash_table c))%nat -> wf c l nc ->
  wfT (<[n := kept]> (hash_table c)) c' l' nc -> evolve c c' l l' ids -> kept `sublist_of` nth n (hash_table c) [] ->
  (forall j, j ∈ ids -> j ∈ nth n (hash_table c) [] /\ j ∉ kept) ->
  scanned c (set_bucket c' (Z.of_nat n) kept) l l' nc ids /\ hash_table (set_bucket c' (Z.of_nat n) kept) = <[n := kept]> (hash_table c).
Proof.
  intros Hn W W' Hev Hsub Hids. pose proof (ev_table _ _ _ _ _ Hev) as Ht.
  assert (hash_table (set_bucket c' (Z.of_nat n) kept) = <[n := kept]> (hash_table c)) as Ht'
    by (unfold set_bucket; cbn; by rewrite Nat2Z.id, Ht).
  split; [|done]. split.
  - by apply (wf_set_bucket (hash_table c) c).
  - by destruct Hev; split.
  - by rewrite Ht', length_insert.
  - intros m. rewrite Ht'. destruct (decide (n = m)) as [<-|Hne]; [by rewrite nth_insert_eq|by rewrite nth_insert_ne].
  - intros j Hj. destruct (Hids j Hj) as [Hj1 Hj2]. split; [apply nth_concat; eauto|]. rewrite Ht', concat_insert, !elem_of_app by done.
    pose proof (wf_once _ _ _ _ W) as Ho. rewrite (concat_nth (hash_table c) n) in Ho by done.
    apply NoDup_app in Ho as (_ & Ho1 & Ho). apply NoDup_app in Ho as (_ & Ho2 & _).
    intros [Hc|[Hc|Hc]]; [|done|by apply (Ho2 j Hj1)]. apply (Ho1 j Hc). rewrite elem_of_app. by left.
Qed.

Lemma bucket_of c l nc name : wf c l nc -> exists n, (n < length (hash_table c))%nat /\ hash_bucket mix_tab (hash_size c) name = Z.of_nat n.
Proof.
  intros W. destruct (wf_size _ _ _ _ W) as (k & Hk & Hz). unfold hash_size. rewrite Hz.
  pose proof (hash_bucket_range k name Hk) as Hr. exists (Z.to_nat (hash_bucket mix_tab (2 ^ k) name)). unfold zlen in Hz. lia.
Qed.

Lemma scan_free_forward c owner name addr now flags l nc : wf c l nc -> has flags F_FORWARD = true ->
  exists ok c' l' ids, cache_scan_free mix_tab clobbered c owner (Some name) addr now flags = Ok (ok, c') /\ scanned c c' l l' nc ids /\
    let k := Z.to_nat (hash_bucket mix_tab (hash_size c) name) in
    (ok = true -> forall j r, j ∈ nth k (hash_table c') [] -> recs c !! j = Some r -> owner = None \/ owner = Some j ->
       is_expired now r = false /\ fwd_match flags name r = false) /\
    (owner = None -> forall j r, j ∈ concat (hash_table c) -> j ∉ concat (hash_table c') -> recs c !! j = Some r ->
       is_expired now r = true \/ has (cflags r) F_CNAME = true \/ fwd_match flags name r = true) /\
    (ok = false -> exists j r, j ∈ concat (hash_table c) /\ recs c !! j = Some r /\ fixed r = true /\ has (cflags r) F_FORWARD = true).
Proof.
  intros W Hf. unfold cache_scan_free. rewrite Hf. destruct (bucket_of c l nc name W) as (n & Hn & Hk). cbv zeta. rewrite Hk, bucket_nth, Nat2Z.id.
  destruct (scan_forward_ok now owner flags n nc (nth n (hash_table c) []) (hash_table c) c l name []) as
    (ok & kept & c' & l' & ids & -> & W' & Hev & Hsub & Hin & Hkept & Hlost & Hbad); [done..|]. cbn [mbind comp_bind mret comp_ret app] in *.
  destruct (scanned_bucket n c c' kept l l' nc ids Hn W W' Hev Hsub Hin) as [Hsc Ht].
  exists ok, (set_bucket c' (Z.of_nat n) kept), l', ids. split; [done|]. split; [done|]. rewrite Ht, nth_insert_eq by done. split_and!.
  - done.
  - intros How j r Hj Hjn Hr. rewrite (concat_nth (hash_table c) n), !elem_of_app in Hj by done. rewrite concat_insert, !elem_of_app in Hjn by done.
    apply (Hlost How j); [tauto|tauto|done].
  - intros Hok. destruct (Hbad Hok) as (j & r & Hj & Hr). exists j, r. split; [|done]. apply nth_concat; eauto.
Qed.

Lemma scan_free_table c owner name addr now flags l nc : wf c l nc -> has flags F_FORWARD = false ->
  (has flags F_REVERSE = true -> exists a, addr = Some (CAddr a)) ->
  exists c' l' ids, cache_scan_free mix_tab clobbered c owner name addr now flags = Ok (true, c') /\ scanned c c' l l' nc ids /\
    (forall j r, j ∈ concat (hash_table c') -> recs c !! j = Some r -> is_expired now r = false /\ rev_match flags addr r = false) /\
    (forall j r, j ∈ concat (hash_table c) -> j ∉ concat (hash_table c') -> recs c !! j = Some r ->
      is_expired now r = true \/ rev_match flags addr r = true).
Proof.
  intros W Hf Ha. unfold cache_scan_free. rewrite Hf.
  destruct (scan_table_ok now addr flags nc (length (hash_table c)) Ha 0 c l W) as
    (c' & l' & ids & -> & W' & Hev & Hlen & Hsub & Hin & Hk & Hl); [done|]. cbn [mbind comp_bind mret comp_ret].
  exists c', l', ids. split; [done|]. split; [by split|]. split; [|done].
  intros j r (n & Hn & Hj)%nth_concat Hr. apply (Hk n j); [lia|done|done].
Qed.

Lemma scanned_refl c l nc : wf c l nc -> scanned c c l l nc [].
Proof. intros W. split; try done; try by_nil. unfold evolve_mod. destruct c. by apply evolve_refl. Qed.

Lemma scanned_trans c c1 c2 l l1 l2 nc a b : scanned c c1 l l1 nc a -> scanned c1 c2 l1 l2 nc b -> scanned c c2 l l2 nc (a ++ b).
Proof.
  intros S1 S2. assert (forall j, j ∈ b -> j ∉ a) as Hd.
  { intros j Hj Hja. by apply (sc_ids _ _ _ _ _ _ S1 j Hja), (sc_ids _ _ _ _ _ _ S2 j Hj). }
  split.
  - apply S2.
  - by eapply evolve_mod_trans; [apply S1|apply S2|].
  - rewrite (sc_length _ _ _ _ _ _ S2). apply S1.
  - intros n. etrans; [apply S2|apply S1].
  - intros j [Hj|Hj]%elem_of_app.
    + split; [by apply (sc_ids _ _ _ _ _ _ S1)|]. intros Hj2%(scanned_in _ _ _ _ _ _ _ S2). by apply (sc_ids _ _ _ _ _ _ S1 j Hj).
    + destruct (sc_ids _ _ _ _ _ _ S2 j Hj) as [Hj1 Hj2]. split; [by eapply scanned_in|done].
Qed.

(** Records that are still in the table are as they were. *)
Lemma scanned_keep c c' l l' nc ids j : scanned c c' l l' nc ids -> j ∈ concat (hash_table c') -> recs c' !! j = recs c !! j.
Proof. intros Hs Hj. apply (ev_keep _ _ _ _ _ (sc_evolve _ _ _ _ _ _ Hs)). intros Hji. by apply (sc_ids _ _ _ _ _ _ Hs j Hji). Qed.

(** Counters do not matter. *)
Lemma scanned_counts c c' l l' nc ids x y f b : scanned c c' l l' nc ids -> scanned c (with_big f b (with_counts x y c')) l l' nc ids.
Proof. intros [W Hev Hlen Hsub Hids]. split; [by destruct W; split|by destruct Hev; split|done..]. Qed.

(** A record by which the record itself would be found. *)
Definition typed (r : crec) : bool :=
  if has (cflags r) F_FORWARD then has (cflags r) F_TYPE || has (cflags r) F_CNAME else has (cflags r) (Z.lor F_IPV4 F_IPV6).
Definition spillable (c : cache) : Prop := forall j r, j ∈ concat (hash_table c) -> recs c !! j = Some r -> fixed r = false /\ typed r = true.

Lemma spillable_scanned c c' l l' nc ids : scanned c c' l l' nc ids -> spillable c -> spillable c'.
Proof.
  intros Hs Hsp j r Hj Hr. apply (Hsp j); [by eapply scanned_in|]. by rewrite <- (scanned_keep _ _ _ _ _ _ _ Hs Hj).
Qed.

Lemma hostname_refl s : hostname_isequal s s = true.
Proof. induction s as [|x s IH]; [done|]. cbn [hostname_isequal]. by rewrite Z.eqb_refl. Qed.

Lemma last_freed c c' l l' nc ids : scanned c c' l l' nc ids -> ids <> [] -> exists i r, last l' = Some i /\ recs c' !! i = Some r /\ used r = false.
Proof.
  intros Hs Hne. destruct ids as [|i ids _] using rev_ind; [done|]. pose proof (sc_evolve _ _ _ _ _ _ Hs) as Hev.
  destruct (ev_freed _ _ _ _ _ Hev i) as (r & r' & _ & Hr' & _ & _ & Hu & _); [set_solver|]. exists i, r'. cbn in Hr'. split_and!; [|done..].
  rewrite (ev_list _ _ _ _ _ Hev), app_assoc. apply last_snoc.
Qed.

(** The last record of the list is given up, if nothing fixed is in the way. *)
Lemma spill_ok c l nc new r now : wf c l nc -> last l = Some new -> recs c !! new = Some r -> used r = true ->
  exists ok c' l' ids, cache_scan_free mix_tab clobbered c (Some new) (Some (cname r)) (Some (cr_addr r)) now (cflags r) = Ok (ok, c') /\
    scanned c c' l l' nc ids /\ (spillable c -> ids <> []).
Proof.
  intros W Hl Hr Hu. assert (new ∈ l) as Hnl by (apply last_Some in Hl as [? ->]; set_solver).
  pose proof (wf_used _ _ _ _ W new r Hr Hnl Hu) as Hnt.
  assert (forall c' l' ids, scanned c c' l l' nc ids -> new ∉ concat (hash_table c') -> ids <> []) as Hfreed.
  { intros c' l' ids Hs Hn ->. pose proof (sc_evolve _ _ _ _ _ _ Hs) as Hev.
    apply Hn, (wf_used _ _ _ _ (sc_wf _ _ _ _ _ _ Hs) new r); [|rewrite (ev_list _ _ _ _ _ Hev), app_nil_r, filter_notin_all; [done|by_nil]|done].
    rewrite <- Hr. apply (ev_keep _ _ _ _ _ Hev). by_nil. }
  destruct (has (cflags r) F_FORWARD) eqn:Ef.
  - destruct (scan_free_forward c (Some new) (cname r) (Some (cr_addr r)) now (cflags r) l nc W Ef) as
      (ok & c' & l' & ids & Heq & Hs & Hk & _ & Hbad). exists ok, c', l', ids. split; [done|]. split; [done|]. intros Hsp.
    apply (Hfreed c' l' ids Hs). intros Hn'. destruct ok.
    + destruct (bucket_of c l nc (cname r) W) as (n & Hn & Hkn). rewrite Hkn, Nat2Z.id in Hk.
      assert (new ∈ nth n (hash_table c') []) as Hnn.
      { apply nth_concat in Hn' as (m & Hm & Hnm). assert (new ∈ nth m (hash_table c) []) as Hnm'
          by (eapply sublist_subseteq; [apply (sc_sub _ _ _ _ _ _ Hs)|done]).
        pose proof (wf_hash _ _ _ _ W m new r Hnm' Hr) as Hm2. change (zlen (hash_table c)) with (hash_size c) in Hm2.
        rewrite Hkn in Hm2. by apply Nat2Z.inj in Hm2 as ->. }
      destruct (Hk eq_refl new r Hnn Hr (or_intror eq_refl)) as [_ Hm]. unfold fwd_match in Hm.
      destruct (Hsp new r Hnt Hr) as [_ Hty]. unfold typed in Hty. rewrite Ef, Z.land_diag, Z.lor_diag, Hty, hostname_refl in *. done.
    + destruct (Hbad eq_refl) as (j & rj & Hj & Hrj & Hfx & _). destruct (Hsp j rj Hj Hrj). congruence.
  - assert (has (cflags r) F_REVERSE = true) as Er by (unfold used in Hu; by rewrite has_lor, Ef in Hu).
    assert (exists a, cr_addr r = CAddr a) as [a Ha].
    { pose proof (wf_addr _ _ _ _ W new r Hr Hnt) as Hok. unfold addr_ok in Hok. rewrite Er in Hok.
      destruct (has (cflags r) F_CNAME); [by destruct Hok|done]. }
    destruct (scan_free_table c (Some new) (Some (cname r)) (Some (cr_addr r)) now (cflags r) l nc W Ef) as
      (c' & l' & ids & Heq & Hs & Hk & _); [intros _; exists a; by rewrite Ha|].
    exists true, c', l', ids. split; [done|]. split; [done|]. intros Hsp. apply (Hfreed c' l' ids Hs). intros Hn'.
    destruct (Hk new r Hn' Hr) as [_ Hm]. destruct (Hsp new r Hnt Hr) as [Hfx Hty]. unfold typed in Hty. unfold rev_match in Hm.
    rewrite Ef in Hty. rewrite !Z.land_diag, Hfx, Er, Hty, bool_decide_eq_true_2 in Hm by done. done.
Qed.

(** ** The loop of [cache_insert] *)

Definition small (name : option (list Z)) : Prop := zlen (default [] name) < SMALLDNAME.

(** There is room for the name: in the record, on the free list, or in the
    memory that is left for long names. *)
Definition room_for (can_malloc : bool) (c : cache) (name : option (list Z)) : Prop :=
  small name \/ 0 < big_free c \/ (bignames_left c <> 0 /\ can_malloc = true).

Definition ampler (c c' : cache) : Prop := big_free c <= big_free c' /\ bignames_left c' = bignames_left c.

Lemma ampler_refl c : ampler c c.
Proof. by split. Qed.

Lemma ampler_trans c1 c2 c3 : ampler c1 c2 -> ampler c2 c3 -> ampler c1 c3.
Proof. intros [] []. split; [lia|congruence]. Qed.

Lemma room_ampler can_malloc c c' name : ampler c c' -> room_for can_malloc c name -> room_for can_malloc c' name.
Proof. intros [? E] [?|[?|[? ?]]]; [by left|right; left; lia|right; right; by rewrite E]. Qed.

Lemma cache_free_ampler c i c' : cache_free c i = Ok c' -> ampler c c'.
Proof.
  unfold cache_free. destruct (getr c i) as [r|]; [|done]. cbn [mbind comp_bind mret comp_ret]. intros [= <-].
  case_match; split; cbn; lia.
Qed.

Lemma drop_ampler (b : bool) c i c' : (if b then mret c else recycle c i) = Ok c' -> ampler c c'.
Proof. destruct b; [intros [= <-]; apply ampler_refl|]. unfold recycle. intros H%cache_free_ampler. exact H. Qed.

Lemma scan_forward_ampler now owner flags chain : forall name c ok k c',
  scan_forward clobbered now owner name flags chain c = Ok (ok, k, c') -> ampler c c'.
Proof.
  induction chain as [|i chain IH]; intros name c ok k c'; cbn [scan_forward]; [intros [= _ _ <-]; apply ampler_refl|].
  destruct (getr c i) as [r|]; [|done]. cbn [mbind comp_bind]. destruct (if is_expired now r then _ else _) as [out|]; [|done]. cbn [mbind comp_bind].
  destruct out.
  - destruct (if fixed r then mret c else recycle c i) as [c1|] eqn:E; [|done]. cbn [mbind comp_bind]. intros H%IH.
    eapply ampler_trans; [by apply (drop_ampler (fixed r) c i)|done].
  - destruct (_ && _ && _).
    + destruct (fixed r); [intros [= _ _ <-]; apply ampler_refl|]. destruct (recycle c i) as [c1|] eqn:E; [|done]. cbn [mbind comp_bind].
      intros H%IH. eapply ampler_trans; [by apply (drop_ampler false c i)|done].
    + destruct (scan_forward _ _ _ _ _ chain c) as [[[ok1 k1] c1]|] eqn:E; [|done]. cbn [mbind comp_bind mret comp_ret]. intros [= _ _ <-]. by apply IH in E.
Qed.

Lemma scan_reverse_ampler now addr flags chain : forall c k c', scan_reverse now addr flags chain c = Ok (k, c') -> ampler c c'.
Proof.
  induction chain as [|i chain IH]; intros c k c'; cbn [scan_reverse]; [intros [= _ <-]; apply ampler_refl|].
  destruct (getr c i) as [r|]; [|done]. cbn [mbind comp_bind]. case_match; [intros [= _ <-]; apply ampler_refl|]. case_match.
  - destruct (if fixed r then mret c else recycle c i) as [c1|] eqn:E; [|done]. cbn [mbind comp_bind]. intros H1%IH.
    eapply ampler_trans; [by apply (drop_ampler (fixed r) c i)|done].
  - destruct (if _ && _ && _ then _ else _) as [same|]; [|done]. cbn [mbind comp_bind]. destruct same.
    + destruct (recycle c i) as [c1|] eqn:E; [|done]. cbn [mbind comp_bind].
      intros H1%IH. eapply ampler_trans; [by apply (drop_ampler false c i)|done].
    + destruct (scan_reverse now addr flags chain c) as [[k1 c1]|] eqn:E; [|done]. cbn [mbind comp_bind mret comp_ret]. intros [= _ <-]. by apply IH in E.
Qed.

Lemma scan_table_ampler now addr flags m : forall k c c', scan_table now addr flags k m c = Ok c' -> ampler c c'.
Proof.
  induction m as [|m IH]; intros k c c'; cbn [scan_table]; [intros [= <-]; apply ampler_refl|].
  destruct (scan_reverse _ _ _ _ c) as [[l c1]|] eqn:E; [|done]. cbn [mbind comp_bind]. intros [H1 H2]%IH. apply scan_reverse_ampler in E as [? ?].
  cbn in H1, H2. split; [lia|congruence].
Qed.

Lemma scan_free_ampler c owner name addr now flags ok c' :
  cache_scan_free mix_tab clobbered c owner name addr now flags = Ok (ok, c') -> ampler c c'.
Proof.
  unfold cache_scan_free. destruct (has flags F_FORWARD).
  - destruct name as [s|]; [|done]. destruct (scan_forward _ _ _ _ _ _ c) as [[[ok1 k] c1]|] eqn:E; [|done]. cbn [mbind comp_bind mret comp_ret].
    intros [= _ <-]. by apply scan_forward_ampler in E.
  - destruct (scan_table _ _ _ _ _ c) as [c1|] eqn:E; [|done]. cbn [mbind comp_bind mret comp_ret]. intros [= _ <-]. by apply scan_table_ampler in E.
Qed.

(** Its result: either no record, or the last one of the list, which is not
    used any more and has been taken from the list. *)
Definition grab_result (c : cache) (l nc : list ptr) (sure : Prop) (res : comp (grabbed * cache)) : Prop :=
  exists cs l' ids, scanned c cs l l' nc ids /\
    ((res = Ok (NoRecord, with_error true cs) /\ ~ sure) \/
     (exists new big l1 r, res = Ok (Grab new big, cache_unlink cs new) /\ l' = l1 ++ [new] /\ recs cs !! new = Some r /\ used r = false)).

Lemma grab_free fuel can_malloc now name fa fv c l nc new r : wf c l nc -> last l = Some new -> recs c !! new = Some r -> used r = false ->
  grab_result c l nc (room_for can_malloc c name) (grab mix_tab clobbered (S fuel) can_malloc now name fa fv c).
Proof.
  intros W Hl Hr Hu. apply last_Some in Hl as [l1 ->]. cbn [grab].
  assert (dtail (lru c) = Some new) as -> by (destruct (wf_lru _ _ _ _ W) as (_ & -> & _); apply last_snoc).
  unfold getr. rewrite Hr. cbn [of_option mbind comp_bind]. unfold used in Hu. rewrite Hu.
  pose proof (scanned_refl c (l1 ++ [new]) nc W) as Hs.
  assert (forall f b x, scanned c (with_big f b x) (l1 ++ [new]) (l1 ++ [new]) nc [] -> forall big,
    grab_result c (l1 ++ [new]) nc (room_for can_malloc c name) (Ok (Grab new big, cache_unlink (with_big f b x) new)) \/ recs (with_big f b x) <> recs c) as Hgen.
  { intros f b x Hs' big. left. exists (with_big f b x), (l1 ++ [new]), []. split; [done|]. right. exists new, big, l1, r. split_and!; try done.
    rewrite <- Hr. apply (ev_keep _ _ _ _ _ (sc_evolve _ _ _ _ _ _ Hs')). by_nil. }
  assert (grab_result c (l1 ++ [new]) nc (room_for can_malloc c name) (Ok (Grab new false, cache_unlink c new))) as Hplain.
  { exists c, (l1 ++ [new]), []. split; [done|]. right. by exists new, false, l1, r. }
  assert (forall f b, scanned c (with_big f b c) (l1 ++ [new]) (l1 ++ [new]) nc []) as Hbig.
  { intros f b. pose proof (scanned_counts _ _ _ _ _ _ (cache_inserted c) (cache_live_freed c) f b Hs) as H. by destruct c. }
  destruct name as [s|]; [|done]. destruct (SMALLDNAME - 1 <? zlen s) eqn:Es; [|done]. zbool.
  assert (~ small (Some s)) as Hns by (unfold small; cbn; lia).
  destruct (0 <? big_free c) eqn:Eb; zbool.
  - by destruct (Hgen _ _ _ (Hbig (big_free c - 1) (bignames_left c)) true).
  - destruct (_ || _) eqn:Em.
    + exists c, (l1 ++ [new]), []. split; [done|]. left. split; [done|]. intros [?|[?|[? ->]]]; [done|lia|].
      rewrite orb_false_r in Em. by zbool.
    + by destruct (Hgen _ _ _ (Hbig (big_free c) (bignames_left c - 1)) true).
Qed.

Lemma grab_result_trans c c1 l l1 nc ids sure sure' res : scanned c c1 l l1 nc ids -> (sure -> sure') ->
  grab_result c1 l1 nc sure' res -> grab_result c l nc sure res.
Proof.
  intros Hs Hsure (cs & l' & ids' & Hs' & Hres). exists cs, l', (ids ++ ids'). split; [by eapply scanned_trans|].
  destruct Hres as [[-> Hn]|Hres]; [left; split; [done|tauto]|by right].
Qed.

(** The tail of the list, as the loop finds it. *)
Lemma tail_cases c l nc : wf c l nc -> (dtail (lru c) = None /\ l = []) \/
  exists new r, dtail (lru c) = Some new /\ last l = Some new /\ recs c !! new = Some r.
Proof.
  intros W. destruct (wf_lru _ _ _ _ W) as (_ & -> & _). destruct (last l) as [new|] eqn:Hl; [|left; by apply last_None in Hl].
  right. destruct (wf_recs _ _ _ _ W new) as [r Hr]; [right; left; apply last_Some in Hl as [? ->]; set_solver|]. by exists new, r.
Qed.

(** An insertion is sure to find a record: there is room for the name, no
    record of a hosts file or of a lease is in the table, and the list of
    records is not empty. *)
Definition sure_record (can_malloc : bool) (c : cache) (l : list ptr) (name : option (list Z)) : Prop :=
  room_for can_malloc c name /\ spillable c /\ l <> [].

Lemma scanned_nonempty c c' l l' nc ids : scanned c c' l l' nc ids -> wf c l nc -> l <> [] -> l' <> [].
Proof.
  intros Hs W Hne ->. pose proof (ev_list _ _ _ _ _ (sc_evolve _ _ _ _ _ _ Hs)) as He. symmetry in He. apply app_nil in He as [He ->].
  rewrite filter_notin_all in He by by_nil. done.
Qed.

Lemma grab_spill fuel can_malloc now name c l nc : wf c l nc ->
  grab_result c l nc (sure_record can_malloc c l name) (grab mix_tab clobbered (S (S fuel)) can_malloc now name true false c).
Proof.
  intros W. destruct (tail_cases c l nc W) as [[Ht ->]|(new & r & Ht & Hl & Hr)].
  { cbn [grab]. rewrite Ht. exists c, [], []. split; [by apply scanned_refl|]. left. split; [done|]. by intros (_ & _ & ?). }
  destruct (used r) eqn:Hu.
  2: { eapply grab_result_trans; [by apply scanned_refl| |by eapply grab_free]. by intros (? & _). }
  remember (S fuel) as m eqn:Em. cbn [grab]. rewrite Ht. unfold getr. rewrite Hr. cbn [of_option mbind comp_bind]. unfold used in Hu. rewrite Hu.
  destruct (spill_ok c l nc new r now W Hl Hr Hu) as (ok & c' & l' & ids & Heq & Hs & Hids). rewrite Heq. cbn [mbind comp_bind].
  pose proof (scan_free_ampler _ _ _ _ _ _ _ _ Heq) as Hamp.
  subst m. set (c2 := with_counts _ _ c').
  assert (scanned c c2 l l' nc ids) as Hs2.
  { pose proof (scanned_counts _ _ _ _ _ _ (cache_inserted c') (cache_live_freed c' + 1) (big_free c') (bignames_left c') Hs) as H. by destruct c'. }
  destruct (decide (ids = [])) as [->|Hne].
  - assert (~ sure_record can_malloc c l name) as Hns by (intros (_ & Hsp & _); by apply Hids).
    destruct (tail_cases c2 l' nc (sc_wf _ _ _ _ _ _ Hs2)) as [[Ht2 ->]|(new2 & r2 & Ht2 & Hl2 & Hr2)].
    { cbn [grab]. rewrite Ht2. exists c2, [], []. split; [done|]. by left. }
    destruct (used r2) eqn:Hu2.
    + cbn [grab]. rewrite Ht2. unfold getr. rewrite Hr2. cbn [of_option mbind comp_bind]. unfold used in Hu2. rewrite Hu2.
      exists c2, l', []. split; [done|]. by left.
    + eapply grab_result_trans; [exact Hs2| |eapply grab_free; [apply (sc_wf _ _ _ _ _ _ Hs2)|done..]]. intros Hsure. by destruct (Hns Hsure).
  - destruct (last_freed c c2 l l' nc ids Hs2 Hne) as (i & ri & Hli & Hri & Hui).
    eapply grab_result_trans; [exact Hs2| |eapply grab_free; [apply (sc_wf _ _ _ _ _ _ Hs2)|done..]].
    intros (? & _). by apply (room_ampler can_malloc c).
Qed.

Lemma grab_ok can_malloc now name fa c l nc : wf c l nc ->
  grab_result c l nc (sure_record can_malloc c l name) (grab mix_tab clobbered 4 can_malloc now name fa false c).
Proof.
  intros W. destruct fa; [by apply grab_spill|]. destruct (tail_cases c l nc W) as [[Ht ->]|(new & r & Ht & Hl & Hr)].
  { cbn [grab]. rewrite Ht. exists c, [], []. split; [by apply scanned_refl|]. left. split; [done|]. by intros (_ & _ & ?). }
  destruct (used r) eqn:Hu.
  2: { eapply grab_result_trans; [by apply scanned_refl| |by eapply grab_free]. by intros (? & _). }
  remember 3%nat as m eqn:Em. cbn [grab]. rewrite Ht. unfold getr. rewrite Hr. cbn [of_option mbind comp_bind]. unfold used in Hu. rewrite Hu.
  destruct (scan_free_table c None None None now 0 l nc W) as (c' & l' & ids & Heq & Hs & _); [done..|].
  rewrite Heq. cbn [mbind comp_bind]. subst m.
  eapply grab_result_trans; [exact Hs| |apply grab_spill; apply (sc_wf _ _ _ _ _ _ Hs)].
  intros (Hsm & Hsp & Hne). split_and!; [by eapply room_ampler; [eapply scan_free_ampler|]|by eapply spillable_scanned|by eapply scanned_nonempty].
Qed.

End invariant.
