(* ===== verification/DmCacheOps.v ===== *)
(** dnsmasq's cache as its users see it: insertion in three steps, the search
    by name, and what is found after an insertion. *)
From stdpp Require Import sorting.
From S2P Require Import Prelude CString Dns Common DmUtil DmName DmPacket DmLru DmCache DmCacheInv.
Set Warnings "-clear-no-such-hyp,-notation-for-abbreviation".

Section ops.
Context (mix_tab : Z -> Z).
Local Notation wf := (wf mix_tab).
Local Notation wfT := (wfT mix_tab).
Local Notation scanned := (scanned mix_tab).

(** * Insertion *)

(** Records are replaced outside of the table. *)
Lemma unused_free c l nc i r : wf c l nc -> recs c !! i = Some r -> used r = false -> i ∉ concat (hash_table c).
Proof. intros W Hr Hu Hi. pose proof (wf_hashed _ _ _ _ _ W i r Hr Hi). congruence. Qed.

Lemma new_free c l nc i : wf c l nc -> i ∈ nc -> i ∉ concat (hash_table c).
Proof.
  intros W Hi Ht. destruct (wf_recs _ _ _ _ _ W i) as [r Hr]; [by left|].
  pose proof (wf_dyn _ _ _ _ _ W i r Hr (or_intror Hi)) as Hf. pose proof (wf_fixed _ _ _ _ _ W i r Hr Ht Hf) as Hl.
  exact (not_in_both _ _ i (wf_nodup _ _ _ _ _ W) Hl Hi).
Qed.

Lemma rcls_insert (rs : gmap ptr crec) i r j : j <> i -> rcls (<[i := r]> rs) j = rcls rs j.
Proof. intros Hne. unfold rcls. by rewrite lookup_insert_ne. Qed.

Lemma order_insert (rs : gmap ptr crec) i r chain : i ∉ chain ->
  StronglySorted (fun a b => (rcls rs a <= rcls rs b)%nat) chain ->
  StronglySorted (fun a b => (rcls (<[i := r]> rs) a <= rcls (<[i := r]> rs) b)%nat) chain.
Proof.
  intros Hi. apply StronglySorted_ext. intros a b Ha Hb. by rewrite !rcls_insert by (by intros ->).
Qed.

Lemma not_in_bucket (t : list (list ptr)) i n : i ∉ concat t -> i ∉ nth n t [].
Proof.
  intros Hi Hn. apply Hi. destruct (decide (n < length t)%nat) as [Hlt|Hge]; [apply nth_concat; eauto|].
  rewrite nth_overflow in Hn by lia. by_nil.
Qed.

Lemma not_in_bucket_inv (t : list (list ptr)) i n : i ∈ nth n t [] -> i ∈ concat t.
Proof. intros Hi. destruct (decide (i ∈ concat t)) as [|Hn]; [done|]. by destruct (not_in_bucket t i n Hn). Qed.

(** The record that [cache_insert] has taken from the list gets its content
    and becomes the first of the insertion. *)
Lemma install_ok cs l1 new nc r r' : wf cs (l1 ++ [new]) nc -> recs cs !! new = Some r -> used r = false ->
  used r' = true -> fixed r' = false ->
  wf (with_chain (Some new) (set_next (putr (cache_unlink cs new) new r') new (new_chain cs))) l1 (new :: nc).
Proof.
  intros W Hr Hu Hu' Hf'. pose proof (unused_free _ _ _ _ _ W Hr Hu) as Hnt. pose proof (wf_nodup _ _ _ _ _ W) as Hnd.
  pose proof (wf_lru _ _ _ _ _ W) as Hd. assert (new ∉ nc) as Hnn by (intros Hn; apply (not_in_both _ _ new Hnd); [set_solver|done]).
  assert (new ∉ l1) as Hnl.
  { destruct Hd as (_ & _ & Hd & _). apply NoDup_app in Hd as (_ & Hd & _). intros Hl. apply (Hd new Hl). by left. }
  split; unfold with_chain, set_next, putr, with_recs, with_lru, cache_unlink; cbn [recs lru hash_table new_chain nxt prv dhead dtail].
  - apply unlink_rep in Hd. rewrite app_nil_r in Hd. eapply (dll_frame (unlink (lru cs) new)); [exact Hd|].
    intros j Hj. split; [|done]. rewrite lookup_set_ptr, decide_False; [done|]. by intros ->.
  - done.
  - cbn [sseg]. rewrite lookup_set_ptr, decide_True by done. split; [rewrite (wf_head _ _ _ _ _ W); by destruct nc|].
    eapply sseg_frame; [|apply (wf_links _ _ _ _ _ W)]. intros j Hj. rewrite lookup_set_ptr, decide_False by (by intros ->).
    apply (unlink_links _ l1 new []); [done|]. intros Hjl. exact (not_in_both _ _ j Hnd Hjl Hj).
  - assert ((new :: nc) ++ l1 ≡ₚ nc ++ l1 ++ [new]) as -> by solve_Permutation. done.
  - apply W.
  - done.
  - apply W.
  - intros j Hj. destruct (decide (j = new)) as [->|Hne]; [rewrite lookup_insert_eq; eauto|]. rewrite lookup_insert_ne by done.
    apply (wf_recs _ _ _ _ _ W). set_solver.
  - intros n j rj Hj. rewrite lookup_insert_ne by (intros <-; by apply (not_in_bucket _ new n) in Hnt). by apply (wf_hash _ _ _ _ _ W).
  - intros j rj Hrj Hj. rewrite lookup_insert_ne in Hrj by (by intros <-). by apply (wf_hashed _ _ _ _ _ W j).
  - intros j rj Hrj Hj. rewrite lookup_insert_ne in Hrj by (by intros <-). apply (wf_used _ _ _ _ _ W j); [done|set_solver].
  - intros j rj Hrj Hj Hfj. assert (j <> new) as Hne by (by intros ->). rewrite lookup_insert_ne in Hrj by done.
    pose proof (wf_fixed _ _ _ _ _ W j rj Hrj Hj Hfj). set_solver.
  - intros j rj Hrj Hj. destruct (decide (j = new)) as [->|Hne]; [rewrite lookup_insert_eq in Hrj; by injection Hrj as <-|].
    rewrite lookup_insert_ne in Hrj by done. apply (wf_dyn _ _ _ _ _ W j); [done|set_solver].
  - intros j rj Hrj Hj. rewrite lookup_insert_ne in Hrj by (by intros <-).
    eapply addr_ok_mono; [|by apply (wf_addr _ _ _ _ _ W j)]. intros k Hk. destruct (decide (k = new)) as [->|]; [rewrite lookup_insert_eq; eauto|by rewrite lookup_insert_ne].
  - intros j rj Hrj Hj. destruct (decide (j = new)) as [->|Hne]; [rewrite lookup_insert_eq in Hrj; by injection Hrj as <-|].
    rewrite lookup_insert_ne in Hrj by done. apply (wf_new _ _ _ _ _ W j); [done|set_solver].
  - intros n. apply order_insert; [by apply not_in_bucket|apply W].
Qed.

(** ** The start *)

Lemma nodup_size {A} (m : gmap ptr A) (l : list ptr) : NoDup l -> (forall i, i ∈ l -> is_Some (m !! i)) -> (length l <= size m)%nat.
Proof.
  intros Hnd Hl. rewrite <- (size_list_to_set (C := gset ptr) l) by done. rewrite <- size_dom. apply subseteq_size.
  intros i Hi. apply elem_of_list_to_set in Hi. by apply elem_of_dom, Hl.
Qed.

Lemma chain_fuel c l nc : wf c l nc -> (length nc < S (size (recs c)))%nat.
Proof.
  intros W. pose proof (wf_nodup _ _ _ _ _ W) as Hnd. apply NoDup_app in Hnd as (Hnd & _ & _).
  pose proof (nodup_size (recs c) nc Hnd). assert (forall i, i ∈ nc -> is_Some (recs c !! i)) as Hi; [|specialize (H Hi); lia].
  intros i Hi. apply (wf_recs _ _ _ _ _ W). auto.
Qed.

(** The first record of the insertion goes to the end of the list. *)
Lemma give_up_ok c l i nc : wf c l (i :: nc) -> exists c' r, cache_free c i = Ok c' /\ recs c !! i = Some r /\
  nxt (lru c) !! i = head nc /\ wf (with_chain (head nc) c') (l ++ [i]) nc /\ hash_table c' = hash_table c /\
  recs c' = <[i := emptied r (uid c)]> (recs c) /\ insert_error c' = insert_error c.
Proof.
  intros W. destruct (wf_recs _ _ _ _ _ W i) as [r Hr]; [right; right; by left|].
  destruct (cache_free_eq c i r Hr) as (c' & Hc' & Hrecs & Hlru & Htab & Hch & Her). exists c', r. split; [done|]. split; [done|].
  pose proof (wf_links _ _ _ _ _ W) as [Hn Hlinks]. rewrite hd_or_head in Hn. split; [done|].
  pose proof (wf_nodup _ _ _ _ _ W) as Hnd. cbn [app] in Hnd. apply NoDup_cons in Hnd as [Hi Hnd].
  assert ((i ∉ nc) /\ (i ∉ l)) as [Hin Hil] by (split; set_solver).
  assert (i ∉ concat (hash_table c)) as Hit by (apply (new_free _ _ _ _ W); by left).
  destruct (emptied_freed r (uid c)) as (_ & _ & Hu & Hfx).
  pose proof (wf_dyn _ _ _ _ _ W i r Hr (or_intror (list_elem_of_here _ _))) as Hfix.
  assert (forall j, recs c' !! j = if decide (j = i) then Some (emptied r (uid c)) else recs c !! j) as Hrj.
  { intros j. rewrite Hrecs. destruct (decide (j = i)) as [->|]; [by rewrite lookup_insert_eq|by rewrite lookup_insert_ne]. }
  assert (forall j, is_Some (recs c !! j) -> is_Some (recs c' !! j)) as Hdom by (intros j Hj; rewrite Hrj; case_decide; eauto).
  split; [|done]. split; cbn [with_chain recs lru hash_table new_chain].
  - rewrite Hlru. by apply push_tail_rep; [apply W|].
  - done.
  - eapply sseg_frame; [|exact Hlinks]. intros j Hj. rewrite Hlru. apply (push_tail_links _ _ l); [apply W| |by intros ->].
    intros Hjl. apply NoDup_app in Hnd as (_ & Hd & _). by apply (Hd j).
  - rewrite app_assoc, <- Permutation_cons_append. by apply NoDup_cons.
  - rewrite Htab. apply W.
  - done.
  - rewrite Htab. apply W.
  - intros j Hj. rewrite Htab in Hj. apply Hdom, (wf_recs _ _ _ _ _ W). set_solver.
  - intros n j rj. rewrite Htab, Hrj. destruct (decide (j = i)) as [->|_]; [|apply W]. intros Hj. by apply (not_in_bucket _ i n) in Hit.
  - intros j rj. rewrite Htab, Hrj. destruct (decide (j = i)) as [->|_]; [done|apply W].
  - intros j rj. rewrite Htab, Hrj. destruct (decide (j = i)) as [->|Hne]; [intros [= <-] _; congruence|].
    intros Hrj' Hj. apply (wf_used _ _ _ _ _ W j); [done|set_solver].
  - intros j rj. rewrite Htab, Hrj. destruct (decide (j = i)) as [->|Hne]; [done|]. intros Hrj' Hj Hf.
    pose proof (wf_fixed _ _ _ _ _ W j rj Hrj' Hj Hf). set_solver.
  - intros j rj. rewrite Hrj. destruct (decide (j = i)) as [->|Hne]; [intros [= <-] _; congruence|].
    intros Hrj' Hj. apply (wf_dyn _ _ _ _ _ W j); [done|set_solver].
  - intros j rj. rewrite Htab, Hrj. destruct (decide (j = i)) as [->|Hne]; [done|]. intros Hrj' Hj.
    eapply addr_ok_mono; [exact Hdom|]. by apply (wf_addr _ _ _ _ _ W j).
  - intros j rj. rewrite Hrj. destruct (decide (j = i)) as [->|Hne]; [done|]. intros Hrj' Hj. apply (wf_new _ _ _ _ _ W j); [done|by right].
  - intros n. rewrite Htab, Hrecs. apply order_insert; [by apply not_in_bucket|apply W].
Qed.

Lemma free_chain_ok nc : forall fuel c l, wf c l nc -> (length nc < fuel)%nat ->
  exists c', free_chain fuel c = Ok c' /\ wf c' (l ++ nc) [] /\ hash_table c' = hash_table c /\
    (forall j, j ∉ nc -> recs c' !! j = recs c !! j) /\ insert_error c' = insert_error c.
Proof.
  induction nc as [|i nc IH]; intros fuel c l W Hf; destruct fuel as [|fuel]; cbn [length] in Hf; try lia; cbn [free_chain].
  { rewrite (wf_head _ _ _ _ _ W). exists c. by rewrite app_nil_r. }
  rewrite (wf_head _ _ _ _ _ W). cbn [head].
  destruct (give_up_ok c l i nc W) as (c1 & r & -> & Hr & Hn & W1 & Ht & Hrecs & He). cbn [mbind comp_bind]. rewrite Hn.
  destruct (IH fuel _ _ W1) as (c' & -> & W' & Ht' & Hrecs' & He'); [lia|]. exists c'. split; [done|].
  rewrite <- app_assoc in W'. split_and!; [done|by rewrite Ht'| |by rewrite He'].
  intros j Hj. rewrite Hrecs' by set_solver. cbn [with_chain recs]. rewrite Hrecs, lookup_insert_ne by set_solver. done.
Qed.

Lemma wf_with_error b c l nc : wf c l nc -> wf (with_error b c) l nc.
Proof. intros []. by split. Qed.

Lemma start_insert_ok c l nc : wf c l nc -> exists c', cache_start_insert c = Ok c' /\ wf c' (l ++ nc) [] /\
  hash_table c' = hash_table c /\ insert_error c' = false /\ (forall j, j ∉ nc -> recs c' !! j = recs c !! j).
Proof.
  intros W. unfold cache_start_insert.
  destruct (free_chain_ok nc _ c l W (chain_fuel _ _ _ W)) as (c1 & -> & W1 & Ht & Hrecs & _). cbn [mbind comp_bind mret comp_ret].
  eexists. split; [reflexivity|]. split_and!; [|done..].
  assert (with_chain None c1 = c1) as -> by (pose proof (wf_head _ _ _ _ _ W1) as Hh; destruct c1; cbn in *; by rewrite Hh).
  by apply wf_with_error.
Qed.

(** ** The end *)

Lemma walk_ok p rs chain : (forall j, j ∈ chain -> is_Some (rs !! j)) -> exists a b, walk p rs chain = Ok (a, b) /\ chain = a ++ b /\
  (forall j r, j ∈ a -> rs !! j = Some r -> p r = true) /\
  (forall j r, head b = Some j -> rs !! j = Some r -> p r = false).
Proof.
  induction chain as [|j chain IH]; intros Hrs; cbn [walk]; [exists [], []; split_and!; try done; by_nil|].
  destruct (Hrs j) as [r Hr]; [by left|]. rewrite Hr. cbn [of_option mbind comp_bind]. destruct (p r) eqn:Hp.
  - destruct IH as (a & b & -> & -> & Ha & Hb); [intros k Hk; apply Hrs; by right|]. cbn [mbind comp_bind mret comp_ret].
    exists (j :: a), b. split_and!; [done..| |done]. intros k s [->|Hk]%elem_of_cons Hs; [congruence|by apply (Ha k)].
  - exists [], (j :: chain). split_and!; [done..|by_nil|]. intros k s [= <-] Hs. congruence.
Qed.

Lemma sorted_app_inv {A} (R : relation A) (l k : list A) : StronglySorted R (l ++ k) ->
  StronglySorted R l /\ StronglySorted R k /\ (forall x y, x ∈ l -> y ∈ k -> R x y).
Proof.
  induction l as [|x l IH]; intros H; cbn in *; [split_and!; [constructor|done|by_nil]|].
  inversion H as [|? ? Hl Hx]; subst. destruct (IH Hl) as (H1 & H2 & H3). apply Forall_app in Hx as [Hx1 Hx2].
  split_and!; [by constructor|done|]. intros y z [->|Hy]%elem_of_cons Hz; [|by apply H3]. rewrite Forall_forall in Hx2. by apply Hx2.
Qed.

Lemma sorted_app {A} (R : relation A) (l k : list A) : StronglySorted R l -> StronglySorted R k ->
  (forall x y, x ∈ l -> y ∈ k -> R x y) -> StronglySorted R (l ++ k).
Proof.
  induction l as [|x l IH]; intros Hl Hk Hlk; [done|]. inversion Hl as [|? ? Hl' Hx]; subst. cbn. constructor.
  - apply IH; [done..|]. intros y z Hy. apply Hlk. by right.
  - apply Forall_app. split; [done|]. apply Forall_forall. intros y Hy. apply Hlk; [by left|done].
Qed.

Lemma sorted_insert {A} (R : relation A) (l k : list A) i : StronglySorted R (l ++ k) -> (forall x, x ∈ l -> R x i) ->
  (forall y, y ∈ k -> R i y) -> StronglySorted R (l ++ i :: k).
Proof.
  induction l as [|x l IH]; intros H Hl Hk; cbn in *; [constructor; [done|by apply Forall_forall]|].
  inversion H as [|? ? Hs Hx]; subst. constructor; [apply IH; [done| |done]; intros y Hy; apply Hl; by right|].
  apply Forall_app in Hx as [Hx1 Hx2]. apply Forall_app. split; [done|]. constructor; [|done]. apply Hl. by left.
Qed.

(** The first of a sorted rest is the least. *)
Lemma sorted_head_least rs b n : StronglySorted (fun i j => (rcls rs i <= rcls rs j)%nat) b ->
  (forall j, head b = Some j -> (n <= rcls rs j)%nat) -> forall j, j ∈ b -> (n <= rcls rs j)%nat.
Proof.
  intros Hs Hh j Hj. destruct b as [|x b]; [by_nil|]. specialize (Hh x eq_refl). apply elem_of_cons in Hj as [->|Hj]; [done|].
  inversion Hs as [|? ? _ Hx]; subst. rewrite Forall_forall in Hx. specialize (Hx j Hj). cbn in Hx. lia.
Qed.

(** A record goes behind those of a lower class, and in front of those of a
    higher one. *)
Lemma chain_place_ok flags rs i r chain : rs !! i = Some r -> cflags r = flags -> (forall j, j ∈ chain -> is_Some (rs !! j)) ->
  StronglySorted (fun i j => (rcls rs i <= rcls rs j)%nat) chain ->
  exists a b, chain_place flags rs i chain = Ok (a ++ i :: b) /\ chain = a ++ b /\
    StronglySorted (fun i j => (rcls rs i <= rcls rs j)%nat) (a ++ i :: b).
Proof.
  intros Hr Hfl Hrs Hs. assert (rcls rs i = cls flags) as Hi by (unfold rcls; rewrite Hr; cbn; by rewrite Hfl).
  unfold chain_place. destruct (has flags F_REVERSE) eqn:Er; cbn [negb].
  { exists [], chain. split_and!; [done..|]. cbn [app]. constructor; [done|]. apply Forall_forall. intros j Hj. rewrite Hi. unfold cls. rewrite Er. lia. }
  destruct (walk_ok (fun r => has (cflags r) F_REVERSE) rs chain Hrs) as (a & b & -> & -> & Ha & Hb). cbn [mbind comp_bind].
  apply sorted_app_inv in Hs as Hs'. destruct Hs' as (Hsa & Hsb & Hsab).
  assert (forall j, j ∈ a -> (rcls rs j <= 0)%nat) as Ha0.
  { intros j Hj. destruct (Hrs j) as [rj Hrj]; [set_solver|]. unfold rcls. rewrite Hrj. cbn. unfold cls. by rewrite (Ha j rj Hj Hrj). }
  assert (forall j, j ∈ b -> (1 <= rcls rs j)%nat) as Hb1.
  { apply sorted_head_least; [done|]. intros j Hj. destruct (Hrs j) as [rj Hrj]; [destruct b as [|x b]; [done|]; injection Hj as ->; set_solver|].
    unfold rcls. rewrite Hrj. cbn. unfold cls. rewrite (Hb j rj Hj Hrj). case_match; lia. }
  destruct (has flags F_IMMORTAL) eqn:Ei.
  - destruct (walk_ok (fun r => negb (has (cflags r) F_IMMORTAL)) rs b) as (a' & b' & -> & -> & Ha' & Hb'); [intros j Hj; apply Hrs; set_solver|].
    cbn [mbind comp_bind mret comp_ret]. exists (a ++ a'), b'. rewrite <- !app_assoc. split_and!; [done..|]. rewrite app_assoc.
    assert (cls flags = 2%nat) as Hc by (unfold cls; by rewrite Er, Ei).
    apply sorted_insert; [by rewrite <- app_assoc| |].
    + intros j Hj. rewrite Hi, Hc. unfold rcls. destruct (rs !! j) as [rj|]; cbn; [|lia]. unfold cls. repeat case_match; lia.
    + apply sorted_app_inv in Hsb as (_ & Hsb' & _). intros j Hj. rewrite Hi, Hc. revert j Hj. apply sorted_head_least; [done|].
      intros j Hj. assert (j ∈ b') as Hjb by (destruct b' as [|x b']; [done|]; injection Hj as ->; by left).
      destruct (Hrs j) as [rj Hrj]; [set_solver|]. specialize (Hb1 j ltac:(set_solver)). unfold rcls in *. rewrite Hrj in *. cbn in *.
      pose proof (Hb' j rj Hj Hrj) as Him. apply negb_false_iff in Him. unfold cls in *. rewrite Him in *. destruct (has (cflags rj) F_REVERSE); lia.
  - cbn [mbind comp_bind mret comp_ret]. exists a, b. split_and!; [done..|].
    assert (cls flags = 1%nat) as Hc by (unfold cls; by rewrite Er, Ei).
    apply sorted_insert; [done| |]; intros j Hj; rewrite Hi, Hc; [specialize (Ha0 j Hj); lia|by apply Hb1].
Qed.

(** The table with a record more. *)
Lemma added_at (t : list (list ptr)) n a i b : (n < length t)%nat -> nth n t [] = a ++ b ->
  concat (<[n := a ++ i :: b]> t) ≡ₚ i :: concat t.
Proof. intros Hn Ht. rewrite (concat_nth t n), concat_insert, Ht by done. solve_Permutation. Qed.

(** The first record of the insertion enters its chain and the list. *)
Lemma enter_ok c l i nc r : wf c l (i :: nc) -> recs c !! i = Some r -> addr_ok (recs c) r ->
  exists n a b, nth n (hash_table c) [] = a ++ b /\ (n < length (hash_table c))%nat /\ hash_bucket mix_tab (hash_size c) (cname r) = Z.of_nat n /\
    cache_hash mix_tab c i = Ok (with_table (<[n := a ++ i :: b]> (hash_table c)) c) /\
    nxt (lru c) !! i = head nc /\
    wf (with_chain (head nc) (cache_link (with_table (<[n := a ++ i :: b]> (hash_table c)) c) i)) (i :: l) nc.
Proof.
  intros W Hr Ha. destruct (bucket_of _ c l (i :: nc) (cname r) W) as (n & Hn & Hk).
  pose proof (wf_nodup _ _ _ _ _ W) as Hnd. cbn [app] in Hnd. apply NoDup_cons in Hnd as [Hi Hnd].
  assert ((i ∉ nc) /\ (i ∉ l)) as [Hin Hil] by (split; set_solver).
  assert (i ∉ concat (hash_table c)) as Hit by (apply (new_free _ _ _ _ W); by left).
  destruct (chain_place_ok (cflags r) (recs c) i r (nth n (hash_table c) []) Hr eq_refl) as (a & b & Hpl & Hch & Hs);
    [intros j Hj; apply (wf_recs _ _ _ _ _ W); left; apply nth_concat; eauto|apply W|].
  exists n, a, b. split; [done|]. split; [done|]. split; [done|]. split.
  { unfold cache_hash, getr. rewrite Hr. cbn [of_option mbind comp_bind]. rewrite Hk, bucket_nth, Hpl. cbn [mbind comp_bind mret comp_ret].
    unfold set_bucket. by rewrite Nat2Z.id. }
  pose proof (wf_links _ _ _ _ _ W) as [Hnx Hlinks]. rewrite hd_or_head in Hnx. split; [done|].
  pose proof (added_at (hash_table c) n a i b Hn Hch) as Hadd. set (t' := <[n := a ++ i :: b]> (hash_table c)) in *.
  assert (zlen t' = zlen (hash_table c)) as Hz by (unfold t', zlen; by rewrite length_insert).
  pose proof (wf_new _ _ _ _ _ W i r Hr (list_elem_of_here _ _)) as Hu.
  pose proof (wf_dyn _ _ _ _ _ W i r Hr (or_intror (list_elem_of_here _ _))) as Hfx.
  split; cbn [with_chain cache_link with_lru with_table recs lru hash_table new_chain].
  - apply push_head_rep; [apply W|done].
  - done.
  - eapply sseg_frame; [|exact Hlinks]. intros j Hj. apply (push_head_links _ _ l); [apply W| |by intros ->].
    intros Hjl. apply NoDup_app in Hnd as (_ & Hd & _). by apply (Hd j).
  - assert (nc ++ i :: l ≡ₚ i :: nc ++ l) as -> by solve_Permutation. by apply NoDup_cons.
  - rewrite Hz. apply W.
  - done.
  - rewrite Hadd. apply NoDup_cons. split; [done|apply W].
  - intros j. rewrite Hadd. intros Hj. apply (wf_recs _ _ _ _ _ W). set_solver.
  - intros m j rj Hj Hrj. rewrite Hz. unfold t' in Hj. destruct (decide (n = m)) as [<-|Hne].
    + rewrite nth_insert_eq in Hj by done. assert (j = i \/ j ∈ nth n (hash_table c) []) as [->|Hj'] by (rewrite Hch; set_solver).
      * assert (rj = r) as -> by congruence. exact Hk.
      * by apply (wf_hash _ _ _ _ _ W n j).
    + rewrite nth_insert_ne in Hj by done. by apply (wf_hash _ _ _ _ _ W m j).
  - intros j rj Hrj. rewrite Hadd. intros [->|Hj]%elem_of_cons; [congruence|]. by apply (wf_hashed _ _ _ _ _ W j).
  - intros j rj Hrj Hj Huj. rewrite Hadd. apply elem_of_cons in Hj as [->|Hj]; [by left|]. right. by apply (wf_used _ _ _ _ _ W j rj).
  - intros j rj Hrj. rewrite Hadd. intros [->|Hj]%elem_of_cons Hf; [by left|]. right. by apply (wf_fixed _ _ _ _ _ W j rj).
  - intros j rj Hrj Hj. apply (wf_dyn _ _ _ _ _ W j); [done|set_solver].
  - intros j rj Hrj. rewrite Hadd. intros [->|Hj]%elem_of_cons; [assert (rj = r) as -> by congruence; done|]. by apply (wf_addr _ _ _ _ _ W j).
  - intros j rj Hrj Hj. apply (wf_new _ _ _ _ _ W j); [done|by right].
  - intros m. unfold t'. destruct (decide (n = m)) as [<-|Hne]; [by rewrite nth_insert_eq|rewrite nth_insert_ne by done; apply W].
Qed.

(** Targets of the aliases of the insertion are known. *)
Definition linked (c : cache) (nc : list ptr) : Prop := forall i r, i ∈ nc -> recs c !! i = Some r -> addr_ok (recs c) r.

Lemma wf_with_counts x y c l nc : wf c l nc -> wf (with_counts x y c) l nc.
Proof. intros []. by split. Qed.

(** All records that are not dropped as aliases without a target are in their
    chains afterwards. *)
Lemma commit_ok nc : forall fuel c l, wf c l nc -> linked c nc -> (length nc < fuel)%nat ->
  exists c' l', commit mix_tab fuel c = Ok c' /\ wf c' l' [] /\ hash_size c' = hash_size c /\ insert_error c' = insert_error c /\ l' ≡ₚ l ++ nc /\
    (forall j, j ∉ nc -> recs c' !! j = recs c !! j) /\
    (forall n j, j ∈ nth n (hash_table c) [] -> j ∈ nth n (hash_table c') []) /\
    (forall n j, j ∈ nth n (hash_table c') [] -> j ∈ nth n (hash_table c) [] \/ j ∈ nc) /\
    (forall j r, j ∈ nc -> recs c !! j = Some r -> has (cflags r) F_CNAME = false ->
       recs c' !! j = Some r /\ j ∈ nth (Z.to_nat (hash_bucket mix_tab (hash_size c) (cname r))) (hash_table c') []).
Proof.
  induction nc as [|i nc IH]; intros fuel c l W Hlk Hf; destruct fuel as [|fuel]; cbn [length] in Hf; try lia; cbn [commit].
  { rewrite (wf_head _ _ _ _ _ W). exists c, l. split_and!; try done; try by_nil; [by rewrite app_nil_r|auto]. }
  rewrite (wf_head _ _ _ _ _ W). cbn [head]. destruct (wf_recs _ _ _ _ _ W i) as [r Hr]; [right; right; by left|].
  unfold getr. rewrite Hr. cbn [of_option mbind comp_bind]. pose proof (Hlk i r (list_elem_of_here _ _) Hr) as Ha.
  destruct (outdated_ok (recs c) c r eq_refl Ha) as (out & -> & Hout). cbn [mbind comp_bind].
  assert (i ∉ nc) as Hin.
  { pose proof (wf_nodup _ _ _ _ _ W) as Hnd. cbn [app] in Hnd. apply NoDup_cons in Hnd as [Hi _]. set_solver. }
  destruct out.
  - destruct (give_up_ok c l i nc W) as (c1 & r' & -> & Hr' & Hn & W1 & Ht & Hrecs & He). assert (r' = r) as -> by congruence.
    cbn [mbind comp_bind]. rewrite Hn. set (c2 := with_chain (head nc) c1) in *.
    assert (forall j, j <> i -> recs c2 !! j = recs c !! j) as Hrj by (intros j Hj; unfold c2; cbn; by rewrite Hrecs, lookup_insert_ne).
    destruct (IH fuel c2 _ W1) as (c' & l' & -> & W' & Hsz & He' & Hlp & Hk & Hold & Hnew & Hin'); [|lia|].
    { intros j rj Hj Hrj'. rewrite Hrj in Hrj' by (intros ->; done). eapply addr_ok_mono; [|apply (Hlk j); [by right|done]].
      intros k Hk. destruct (decide (k = i)) as [->|Hne]; [unfold c2; cbn; rewrite Hrecs, lookup_insert_eq; eauto|by rewrite Hrj]. }
    assert (hash_table c2 = hash_table c) as Ht2 by done. assert (hash_size c2 = hash_size c) as Hs2 by (unfold hash_size; by rewrite Ht2).
    rewrite Ht2 in Hold, Hnew. rewrite Hs2 in Hsz, Hin'.
    exists c', l'. split_and!; [done|done|done|by rewrite He'|by rewrite Hlp, <- app_assoc| | | |].
    + intros j Hj. rewrite Hk by set_solver. apply Hrj. set_solver.
    + done.
    + intros n j Hj. destruct (Hnew n j Hj); [by left|right; by right].
    + intros j rj [->|Hj]%elem_of_cons Hrj' Hc; [assert (rj = r) as -> by congruence; specialize (Hout eq_refl); congruence|].
      apply Hin'; [done| |done]. rewrite Hrj; [done|]. by intros ->.
  - destruct (enter_ok c l i nc r W Hr Ha) as (n & a & b & Hch & Hn & Hk & -> & Hnx & W1). cbn [mbind comp_bind mret comp_ret]. rewrite Hnx.
    set (c1 := with_table _ c) in *. set (c2 := with_chain (head nc) (with_counts (cache_inserted c1 + 1) (cache_live_freed c1) (cache_link c1 i))).
    assert (wf c2 (i :: l) nc) as W2 by (by apply (wf_with_counts (cache_inserted c1 + 1) (cache_live_freed c1)) in W1).
    assert (hash_table c2 = <[n := a ++ i :: b]> (hash_table c)) as Ht2 by done.
    assert (hash_size c2 = hash_size c) as Hs2 by (unfold hash_size, zlen; by rewrite Ht2, length_insert).
    destruct (IH fuel c2 _ W2) as (c' & l' & -> & W' & Hsz & He' & Hlp & Hkp & Hold & Hnew & Hin'); [|lia|].
    { intros j rj Hj Hrj'. apply (Hlk j); [by right|done]. }
    rewrite Hs2 in Hsz, Hin'. exists c', l'.
    assert (forall m j, j ∈ nth m (hash_table c) [] -> j ∈ nth m (hash_table c2) []) as Hgrow.
    { intros m j Hj. rewrite Ht2. destruct (decide (n = m)) as [<-|Hne]; [rewrite nth_insert_eq by done; rewrite Hch in Hj; set_solver|by rewrite nth_insert_ne]. }
    split_and!; [done|done|done|done|rewrite Hlp; solve_Permutation| | | |].
    + intros j Hj. apply (Hkp j). set_solver.
    + intros m j Hj. by apply Hold, Hgrow.
    + intros m j Hj. destruct (Hnew m j Hj) as [Hj'|Hj']; [|right; by right]. rewrite Ht2 in Hj'. destruct (decide (n = m)) as [<-|Hne].
      * rewrite nth_insert_eq in Hj' by done. rewrite Hch. set_solver.
      * rewrite nth_insert_ne in Hj' by done. by left.
    + intros j rj [->|Hj]%elem_of_cons Hrj Hc; [|by apply Hin']. assert (rj = r) as -> by congruence.
      split; [by rewrite (Hkp i Hin)|]. apply Hold. rewrite Hk, Nat2Z.id, Ht2, nth_insert_eq by done. set_solver.
Qed.

Lemma end_insert_ok c l nc : wf c l nc -> linked c nc -> insert_error c = false ->
  exists c' l', cache_end_insert mix_tab c = Ok c' /\ wf c' l' [] /\ hash_size c' = hash_size c /\ insert_error c' = false /\ l' ≡ₚ l ++ nc /\
    (forall j, j ∉ nc -> recs c' !! j = recs c !! j) /\
    (forall n j, j ∈ nth n (hash_table c) [] -> j ∈ nth n (hash_table c') []) /\
    (forall n j, j ∈ nth n (hash_table c') [] -> j ∈ nth n (hash_table c) [] \/ j ∈ nc) /\
    (forall j r, j ∈ nc -> recs c !! j = Some r -> has (cflags r) F_CNAME = false ->
       recs c' !! j = Some r /\ j ∈ nth (Z.to_nat (hash_bucket mix_tab (hash_size c) (cname r))) (hash_table c') []).
Proof.
  intros W Hlk He. unfold cache_end_insert. rewrite He.
  destruct (commit_ok nc _ c l W Hlk (chain_fuel _ _ _ W)) as (c' & l' & -> & W' & Hsz & He' & H). cbn [mbind comp_bind mret comp_ret].
  assert (with_chain None c' = c') as -> by (pose proof (wf_head _ _ _ _ _ W') as Hh; destruct c'; cbn in *; by rewrite Hh).
  exists c', l'. split_and!; [done|done|done|congruence|apply H..].
Qed.

(** * The search by name *)

Definition name_match (name : list Z) (prot : Z) (r : crec) : bool :=
  has (cflags r) F_FORWARD && has (cflags r) prot && hostname_isequal (cname r) name.

(** Other links of the list. *)
Lemma wfT_lru t c l nc d l' : wfT t c l nc -> dll_rep d l' -> l' ≡ₚ l -> (forall j, j ∈ nc -> nxt d !! j = nxt (lru c) !! j) ->
  wfT t (with_lru d c) l' nc.
Proof.
  intros W Hd Hp Hn. split; cbn [with_lru recs lru hash_table new_chain]; try apply W.
  - done.
  - eapply sseg_frame; [|apply W]. done.
  - rewrite Hp. apply W.
  - intros i. rewrite Hp. apply W.
  - intros i r Hr. rewrite Hp. by apply (wf_used _ _ _ _ _ W).
  - intros i r Hr Hi Hf. rewrite Hp. by apply (wf_fixed _ _ _ _ _ W i r).
  - intros i r Hr. rewrite Hp. by apply (wf_dyn _ _ _ _ _ W).
Qed.

Lemma promote_ok t c l nc i : wfT t c l nc -> i ∈ l ->
  wfT t (cache_link (cache_unlink c i) i) (i :: filter (fun j => j ∉ [i]) l) nc /\
  (forall j, j ∉ l -> nxt (lru (cache_link (cache_unlink c i) i)) !! j = nxt (lru c) !! j).
Proof.
  intros W Hi. apply list_elem_of_split in Hi as (l1 & l2 & ->). pose proof (wf_lru _ _ _ _ _ W) as Hd.
  pose proof (wf_nodup _ _ _ _ _ W) as Hnd. assert (NoDup (l1 ++ i :: l2)) as Hndl by (by apply NoDup_app in Hnd as (_ & _ & ?)).
  rewrite filter_middle by done.
  assert (forall j, j ∉ l1 ++ i :: l2 -> nxt (lru (cache_link (cache_unlink c i) i)) !! j = nxt (lru c) !! j) as Hframe.
  { intros j Hj. unfold cache_link, cache_unlink. cbn [lru with_lru].
    rewrite (push_head_links _ _ (l1 ++ l2)); [by apply (unlink_links _ l1 i l2)|by apply unlink_rep|set_solver|set_solver]. }
  split; [|done]. change (cache_link (cache_unlink c i) i) with (with_lru (push_head (unlink (lru c) i) i) c).
  apply (wfT_lru t c (l1 ++ i :: l2)); [done|by apply promote_rep|solve_Permutation|].
  intros j Hj. apply Hframe. intros Hjl. exact (not_in_both _ _ j Hnd Hjl Hj).
Qed.

Lemma set_next_ok t c l nc i v : wfT t c l nc -> i ∉ l -> i ∉ nc -> wfT t (set_next c i v) l nc.
Proof.
  intros W Hl Hn. unfold set_next. apply (wfT_lru t c l); [done| |done|].
  - eapply dll_frame; [apply W|]. intros j Hj. split; [|done]. rewrite lookup_set_ptr, decide_False; [done|]. by intros ->.
  - intros j Hj. cbn [nxt]. rewrite lookup_set_ptr, decide_False; [done|]. by intros ->.
Qed.

(** The records of a bucket in another order. *)
Lemma wfT_perm t c l nc n x : wfT t c l nc -> (n < length t)%nat -> x ≡ₚ nth n t [] ->
  StronglySorted (fun i j => (rcls (recs c) i <= rcls (recs c) j)%nat) x -> wfT (<[n := x]> t) c l nc.
Proof.
  intros W Hn Hx Hs. assert (concat (<[n := x]> t) ≡ₚ concat t) as Hc by (rewrite concat_insert, (concat_nth t n), Hx by done; done).
  assert (zlen (<[n := x]> t) = zlen t) as Hz by (unfold zlen; by rewrite length_insert).
  split; try apply W.
  - rewrite Hz. apply W.
  - rewrite length_insert. apply W.
  - rewrite Hc. apply W.
  - intros i. rewrite Hc. apply W.
  - intros m i r Hi. rewrite Hz. destruct (decide (n = m)) as [<-|Hne].
    + rewrite nth_insert_eq, Hx in Hi by done. by apply W.
    + rewrite nth_insert_ne in Hi by done. by apply W.
  - intros i r Hr. rewrite Hc. by apply (wf_hashed _ _ _ _ _ W).
  - intros i r Hr. rewrite Hc. by apply (wf_used _ _ _ _ _ W).
  - intros i r Hr. rewrite Hc. by apply (wf_fixed _ _ _ _ _ W).
  - intros i r Hr. rewrite Hc. by apply (wf_addr _ _ _ _ _ W).
  - intros m. destruct (decide (n = m)) as [<-|Hne]; [by rewrite nth_insert_eq|rewrite nth_insert_ne by done; apply W].
Qed.

(** The classes of records with the same flags agree. *)
Lemma cls_flags f g : Z.land f (Z.lor F_REVERSE F_IMMORTAL) = Z.land g (Z.lor F_REVERSE F_IMMORTAL) -> cls f = cls g.
Proof.
  intros H. assert (forall n, 0 <= n -> has (Z.lor F_REVERSE F_IMMORTAL) (2 ^ n) = true -> has f (2 ^ n) = has g (2 ^ n)) as Hb.
  { intros n Hn Hh. pose proof (has_land_bit f (Z.lor F_REVERSE F_IMMORTAL) n Hn) as Hf.
    pose proof (has_land_bit g (Z.lor F_REVERSE F_IMMORTAL) n Hn) as Hg. rewrite H, Hh, andb_true_r in *. congruence. }
  unfold cls. pose proof (Hb 2) as H2. pose proof (Hb 0) as H0. unfold F_REVERSE, F_IMMORTAL in *. by rewrite H2, H0.
Qed.

Lemma sorted_between rs a x b i : StronglySorted (fun i j => (rcls rs i <= rcls rs j)%nat) (a ++ x :: b ++ [i]) -> rcls rs x = rcls rs i ->
  StronglySorted (fun i j => (rcls rs i <= rcls rs j)%nat) (a ++ i :: x :: b).
Proof.
  intros Hs Hx. rewrite app_comm_cons, app_assoc in Hs. apply sorted_app_inv in Hs as (Hs & _ & Hi).
  apply sorted_insert; [done| |].
  - intros y Hy. apply Hi; [set_solver|by left].
  - intros y Hy. apply sorted_app_inv in Hs as (_ & Hs & _). inversion Hs as [|? ? _ Hall]; subst. rewrite Forall_forall in Hall.
    apply elem_of_cons in Hy as [->|Hy]; [lia|]. specialize (Hall y Hy). cbn in Hall. lia.
Qed.

(** ** The answers that never leave the table *)

(** The records point to each other, one after the other. *)
Fixpoint hlinks (n : links) (hs : list ptr) : Prop :=
  match hs with
  | [] => True
  | x :: hs' => (match hs' with y :: _ => n !! x = Some y | [] => True end) /\ hlinks n hs'
  end.

Lemma hlinks_frame n n' hs : (forall i, i ∈ hs -> n' !! i = n !! i) -> hlinks n hs -> hlinks n' hs.
Proof.
  induction hs as [|x hs IH]; intros Hf; [done|]. cbn [hlinks]. intros [Hx Hh]. split.
  - destruct hs; [done|]. by rewrite Hf by (by left).
  - apply IH; [|done]. intros i Hi. apply Hf. by right.
Qed.

Lemma hlinks_snoc n hs x i : hlinks n (hs ++ [x]) -> x ∉ hs -> hlinks (set_ptr n x (Some i)) ((hs ++ [x]) ++ [i]).
Proof.
  induction hs as [|y hs IH]; intros Hh Hx; cbn [app hlinks] in *.
  - split_and!; [|done|done]. by rewrite lookup_set_ptr, decide_True.
  - destruct Hh as [Hy Hh]. split; [|apply IH; [done|set_solver]]. destruct hs as [|z hs]; cbn [app] in *;
      (rewrite lookup_set_ptr, decide_False; [done|set_solver]).
Qed.

(** The answers [hs] hang together from [f_ans] to [f_last]. *)
Record chained (c : cache) (l nc : list ptr) (f : found) (hs : list ptr) : Prop := {
  ch_last : f_last f = last hs;
  ch_ans : hs <> [] -> f_ans f = head hs;
  ch_links : hlinks (nxt (lru c)) hs;
  ch_nodup : NoDup hs;
  ch_out : forall i, i ∈ hs -> (i ∉ l) /\ (i ∉ nc) }.

Lemma chained_frame c c' l l' nc f hs : chained c l nc f hs -> (forall j, j ∈ l' <-> j ∈ l) ->
  (forall j, j ∉ l -> nxt (lru c') !! j = nxt (lru c) !! j) -> chained c' l' nc f hs.
Proof.
  intros [H1 H2 H3 H4 H5] Hl Hn. split; try done.
  - eapply hlinks_frame; [|exact H3]. intros i Hi. apply Hn, H5, Hi.
  - intros i Hi. rewrite Hl. by apply H5.
Qed.

Lemma chain_to_ok t c l nc f hs i : wfT t c l nc -> chained c l nc f hs -> i ∉ hs -> i ∉ l -> i ∉ nc ->
  exists f' c', chain_to c f (Some i) = (f', c') /\ wfT t c' l nc /\ chained c' l nc (Found (f_ans f') (Some i)) (hs ++ [i]) /\
    recs c' = recs c /\ hash_table c' = hash_table c /\ insert_error c' = insert_error c.
Proof.
  intros W [H1 H2 H3 H4 H5] Hi Hl Hn. unfold chain_to. rewrite H1. destruct hs as [|x hs _] using rev_ind; cbn [last].
  - eexists _, c. split; [done|]. split_and!; try done. split; cbn; try done; [by apply NoDup_singleton|by intros j ->%list_elem_of_singleton].
  - rewrite last_snoc. eexists f, _. split; [done|]. destruct (H5 x) as [Hxl Hxn]; [set_solver|].
    split; [by apply set_next_ok|]. split; [|done]. apply NoDup_app in H4 as H4'. destruct H4' as (_ & Hx & _). split; cbn [f_last f_ans].
    + by rewrite last_snoc.
    + intros _. rewrite H2 by (by destruct hs). by destruct hs.
    + apply hlinks_snoc; [done|]. intros Hxh. apply (Hx x Hxh). by left.
    + apply NoDup_app. split_and!; [done| |apply NoDup_singleton]. intros j Hj ->%list_elem_of_singleton. done.
    + intros j [Hj| ->%list_elem_of_singleton]%elem_of_app; [by apply H5|done].
Qed.

(** ** The loop *)

(** What a search does to the list: the answers [ms] are in front, the records
    [ids] that have expired are at the end. *)
Record searched (c c' : cache) (l l' ms ids : list ptr) : Prop := {
  se_list : l' = ms ++ filter (fun j => j ∉ ms ++ ids) l ++ ids;
  se_keep : forall j, j ∉ ids -> recs c' !! j = recs c !! j;
  se_freed : forall j, j ∈ ids -> exists r r', recs c !! j = Some r /\ recs c' !! j = Some r' /\ freed r r';
  se_table : hash_table c' = hash_table c;
  se_error : insert_error c' = insert_error c }.

Lemma searched_refl c c' l : recs c' = recs c -> hash_table c' = hash_table c -> insert_error c' = insert_error c -> searched c c' l l [] [].
Proof. intros H1 H2 H3. split; try done; try by_nil; [by rewrite app_nil_r, filter_notin_all by set_solver|by rewrite H1]. Qed.

Lemma evolve_searched c c' l l' ids : evolve c c' l l' ids -> searched c c' l l' [] ids.
Proof. by intros []; split. Qed.

Lemma searched_trans c c1 c2 l l1 l2 ms1 ids1 ms2 ids2 : searched c c1 l l1 ms1 ids1 -> searched c1 c2 l1 l2 ms2 ids2 ->
  (forall j, j ∈ ms1 ++ ids1 -> j ∉ ms2 ++ ids2) -> searched c c2 l l2 (ms2 ++ ms1) (ids1 ++ ids2).
Proof.
  intros [H1 H2 H3 H4 H5] [K1 K2 K3 K4 K5] Hd. split; [| | |by rewrite K4|by rewrite K5].
  - rewrite K1, H1, !filter_app, filter_filter_notin, (filter_notin_all ms1), (filter_notin_all ids1) by set_solver.
    rewrite <- !app_assoc. do 3 f_equal. apply list_filter_iff. set_solver.
  - intros j Hj. rewrite K2, H2 by set_solver. done.
  - intros j [Hj|Hj]%elem_of_app.
    + destruct (H3 j Hj) as (r & r' & Hr & Hr' & Hf). exists r, r'. split_and!; [done|by rewrite K2 by set_solver|done].
    + destruct (K3 j Hj) as (r & r' & Hr & Hr' & Hf). exists r, r'. split_and!; [by rewrite <- H2 by set_solver|done..].
Qed.

Lemma searched_in c c' l l' ms ids j : searched c c' l l' ms ids -> (forall k, k ∈ ms ++ ids -> k ∈ l) -> j ∈ l' <-> j ∈ l.
Proof.
  intros [-> _ _ _ _] Hin. rewrite !elem_of_app, list_elem_of_filter. split.
  - intros [Hj|[[_ Hj]|Hj]]; [apply Hin; set_solver|done|apply Hin; set_solver].
  - intros Hj. destruct (decide (j ∈ ms)); [by left|]. right. destruct (decide (j ∈ ids)); [by right|]. left. set_solver.
Qed.

(** Where the next answer with the same flags goes: in front of the first. *)
Definition ins_ok (c : cache) (d : list ptr) (insert : option (nat * Z)) : Prop :=
  match insert with
  | None => True
  | Some (k, fl) => exists m r, d !! k = Some m /\ recs c !! m = Some r /\ Z.land (cflags r) (Z.lor F_REVERSE F_IMMORTAL) = fl
  end.

Lemma ins_ok_snoc c d insert i : ins_ok c d insert -> ins_ok c (d ++ [i]) insert.
Proof.
  destruct insert as [[k fl]|]; [|done]. intros (m & r & Hm & Hr). exists m, r. split; [|done]. by apply lookup_app_l_Some.
Qed.
Lemma ins_ok_frame c c' d insert : (forall j, j ∈ d -> recs c' !! j = recs c !! j) -> ins_ok c d insert -> ins_ok c' d insert.
Proof.
  intros Hf. destruct insert as [[k fl]|]; [|done]. intros (m & r & Hm & Hr & Hfl). exists m, r. split; [done|].
  rewrite Hf by (by eapply list_elem_of_lookup_2). done.
Qed.

(** The place of an answer in the chain of records that are kept. *)
Lemma place_ok t c l nc n i r d chain insert : wfT t c l nc -> (n < length t)%nat -> nth n t [] = d ++ i :: chain ->
  recs c !! i = Some r -> ins_ok c d insert ->
  let cl := Z.land (cflags r) (Z.lor F_REVERSE F_IMMORTAL) in
  let res := match insert with
             | Some (k, fl) => if cl =? fl then (take k d ++ i :: drop k d, Some (S k, fl)) else (d ++ [i], insert)
             | None => (d ++ [i], Some (length d, cl))
             end in
  wfT (<[n := res.1 ++ chain]> t) c l nc /\ res.1 ≡ₚ d ++ [i] /\ ins_ok c res.1 res.2.
Proof.
  intros W Hn Ht Hr Hins. assert (<[n := (d ++ [i]) ++ chain]> t = t) as Hsame by (rewrite <- app_assoc; cbn [app]; by rewrite <- Ht, insert_same).
  cbv zeta. destruct insert as [[k fl]|]; cbn [fst snd].
  - destruct (_ =? fl) eqn:E; cbn [fst snd].
    + zbool. destruct Hins as (m & rm & Hm & Hrm & Hfl).
      assert (d = take k d ++ m :: drop (S k) d) as Hd by (symmetry; by apply take_drop_middle).
      assert (drop k d = m :: drop (S k) d) as Hdk by (by apply drop_S).
      assert (take k d ++ i :: drop k d ≡ₚ d ++ [i]) as Hp by (rewrite <- (take_drop k d) at 3; solve_Permutation).
      split_and!; [|done|].
      * apply wfT_perm; [done|done|rewrite Ht, Hp; by rewrite <- app_assoc|].
        pose proof (wf_order _ _ _ _ _ W n) as Hs. rewrite Ht in Hs. replace (d ++ i :: chain) with ((d ++ [i]) ++ chain) in Hs by (by rewrite <- app_assoc).
        apply sorted_app_inv in Hs as (Hs1 & Hs2 & Hs3).
        assert (StronglySorted (fun i j => (rcls (recs c) i <= rcls (recs c) j)%nat) (take k d ++ i :: drop k d)) as Hnew.
        { rewrite Hdk. apply sorted_between; [|unfold rcls; rewrite Hr, Hrm; cbn; apply cls_flags; congruence].
          rewrite Hd in Hs1. rewrite <- app_assoc in Hs1. exact Hs1. }
        apply sorted_app; [done|done|]. intros x y Hx Hy. apply Hs3; [|done]. by rewrite <- Hp.
      * exists m, rm. split; [|done]. rewrite lookup_app_r by (rewrite length_take; lia). rewrite Hdk.
        assert (k < length d)%nat by (by eapply lookup_lt_Some). rewrite length_take, Nat.min_l by lia. by replace (S k - k)%nat with 1%nat by lia.
    + rewrite Hsame. split_and!; [done|done|]. by apply (ins_ok_snoc c d (Some (k, fl)) i).
  - rewrite Hsame. split_and!; [done|done|]. exists i, r. split; [|done]. rewrite lookup_app_r by lia. by rewrite Nat.sub_diag.
Qed.

Lemma answer_ok t c l nc f hs i r : wfT t c l nc -> chained c l nc f hs -> recs c !! i = Some r -> i ∈ concat t -> i ∉ hs ->
  exists f' c' l' ms hs', answer c f i r = (f', c') /\ wfT t c' l' nc /\ searched c c' l l' ms [] /\ chained c' l' nc f' (hs ++ hs') /\
    recs c' = recs c /\ ms ++ hs' = [i] /\ (forall j, j ∈ ms -> j ∈ l).
Proof.
  intros W Hch Hr Hi Hih. unfold answer. destruct (fixed r) eqn:Hf.
  - assert ((i ∉ l) /\ (i ∉ nc)) as [Hil Hin].
    { split; intros Hj; pose proof (wf_dyn _ _ _ _ _ W i r Hr); intuition congruence. }
    destruct (chain_to_ok t c l nc f hs i W Hch Hih Hil Hin) as (f' & c' & -> & W' & Hch' & Hrecs & Ht & He).
    exists (Found (f_ans f') (Some i)), c', l, [], [i]. split_and!; [done|done|by apply searched_refl|done|done|done|by_nil].
  - pose proof (wf_fixed _ _ _ _ _ W i r Hr Hi Hf) as Hil. destruct (promote_ok t c l nc i W Hil) as [W' Hn].
    exists f, (cache_link (cache_unlink c i) i), (i :: filter (fun j => j ∉ [i]) l), [i], []. split_and!; try done.
    + by split; [cbn; by rewrite app_nil_r|done|by_nil|done|done].
    + rewrite app_nil_r. eapply chained_frame; [exact Hch| |exact Hn]. intros j. rewrite elem_of_cons, list_elem_of_filter.
      destruct (decide (j = i)) as [->|Hne]; [tauto|]. set_solver.
    + by intros j ->%list_elem_of_singleton.
Qed.

Record loop_result (now : Z) (name : list Z) (prot : Z) (c c' : cache) (l l' nc : list ptr) (chain d d' : list ptr) (f' : found)
    (hs0 hs ms ids : list ptr) : Prop := {
  lr_searched : searched c c' l l' ms ids;
  lr_chained : chained c' l' nc f' (hs0 ++ hs);
  lr_old : forall j, j ∈ d -> j ∈ d';
  lr_kept : forall j, j ∈ d' -> j ∈ d \/ (j ∈ chain /\ forall r, recs c !! j = Some r ->
    is_expired now r = false /\ (name_match name prot r = true -> j ∈ ms ++ hs));
  lr_answers : forall j, j ∈ ms ++ hs -> j ∈ chain /\ j ∈ d' /\ exists r, recs c !! j = Some r /\ name_match name prot r = true /\ is_expired now r = false;
  lr_freed : forall j, j ∈ ids -> j ∈ chain /\ (j ∉ d');
  lr_stay : forall j r, j ∈ chain -> recs c !! j = Some r -> is_expired now r = false -> has (cflags r) F_CNAME = false -> j ∈ d';
  lr_nodup : NoDup ms;
  lr_dyn : forall j, j ∈ ms ++ ids -> j ∈ l;
  lr_gone : forall j r, j ∈ chain -> j ∉ d' -> recs c !! j = Some r -> fixed r = false -> j ∈ ids }.

Lemma find_loop_ok now name prot n nc chain : forall t c l d insert f hs0,
  wfT t c l nc -> (n < length t)%nat -> nth n t [] = d ++ chain -> ins_ok c d insert -> chained c l nc f hs0 -> (forall j, j ∈ hs0 -> j ∈ d) ->
  exists d' f' c' l' ms hs ids, find_name_loop now name prot chain d insert f c = Ok (d', f', c') /\ wfT (<[n := d']> t) c' l' nc /\
    loop_result now name prot c c' l l' nc chain d d' f' hs0 hs ms ids.
Proof.
  induction chain as [|i chain IH]; intros t c l d insert f hs0 W Hn Ht Hins Hch Hhs; cbn [find_name_loop].
  { rewrite app_nil_r in Ht. exists d, f, c, l, [], [], []. split; [done|]. split; [by rewrite <- Ht, insert_same|].
    split; try done; try by_nil; try (by apply searched_refl); try (by rewrite app_nil_r); try (by constructor); intros j Hj; by apply elem_of_nil in Hj. }
  pose proof (in_chain t n d i chain Hn Ht) as Hit. destruct (wf_recs _ _ _ _ _ W i) as [r Hr]; [by left|].
  assert (NoDup (d ++ i :: chain)) as Hnd.
  { pose proof (wf_once _ _ _ _ _ W) as Hnd. rewrite (concat_nth t n), Ht in Hnd by done.
    apply NoDup_app in Hnd as (_ & _ & Hnd). by apply NoDup_app in Hnd as (Hnd & _ & _). }
  rewrite <- Permutation_middle in Hnd. apply NoDup_cons in Hnd as [Hid Hnd].
  assert ((i ∉ d) /\ (i ∉ chain)) as [Hidd Hic] by (split; set_solver).
  unfold getr. rewrite Hr. cbn [of_option mbind comp_bind].
  assert (exists out, (if is_expired now r then mret true else is_outdated_cname_pointer c r) = Ok out /\
    (out = true -> is_expired now r = true \/ has (cflags r) F_CNAME = true) /\ (out = false -> is_expired now r = false)) as (out & -> & Hout & Hnot).
  { destruct (is_expired now r) eqn:E; [by exists true; auto|].
    destruct (outdated_ok (recs c) c r eq_refl) as (b & -> & Hb); [by apply (wf_addr _ _ _ _ _ W i r Hr)|]. exists b. auto. }
  destruct out.
  - pose proof (removed_at t n d i chain Hn Ht) as Hrem.
    assert (exists c1 l1 ids1, (if fixed r then mret c else recycle c i) = Ok c1 /\ wfT (<[n := d ++ chain]> t) c1 l1 nc /\ evolve c c1 l l1 ids1 /\
      chained c1 l1 nc f hs0 /\ (forall j, j ∈ ids1 -> j = i /\ j ∈ l) /\ (fixed r = false -> i ∈ ids1)) as (c1 & l1 & ids1 & -> & W1 & Hev & Hch1 & Hids & Hgone).
    { destruct (fixed r) eqn:Hf.
      - exists c, l, []. split_and!; [done|by eapply drop_fixed|by apply evolve_refl|done|by_nil|done].
      - pose proof (wf_fixed _ _ _ _ _ W i r Hr Hit Hf) as Hil.
        destruct (recycle_links mix_tab t c l nc _ i r W Hrem Hr Hf) as (c1 & l1 & Hc1 & W1 & Hev & Hn1). exists c1, l1, [i].
        split_and!; [done|done|done| |by intros j ->%list_elem_of_singleton|by left]. eapply chained_frame; [exact Hch| |exact Hn1].
        intros j. rewrite (ev_list _ _ _ _ _ Hev), elem_of_app, list_elem_of_filter, list_elem_of_singleton.
        destruct (decide (j = i)) as [->|]; [tauto|set_solver]. }
    cbn [mbind comp_bind].
    assert (forall j, j ∈ d ++ chain -> recs c1 !! j = recs c !! j) as Hk.
    { intros j Hj. apply (ev_keep _ _ _ _ _ Hev). intros Hji%Hids. destruct Hji as [-> _]. done. }
    destruct (IH _ c1 l1 d insert f hs0 W1) as (d' & f' & c' & l' & ms & hs & ids & -> & W' & R);
      [by rewrite length_insert|by rewrite nth_insert_eq|eapply ins_ok_frame; [|exact Hins]; intros j Hj; apply Hk; set_solver|done|done|].
    rewrite list_insert_insert_eq in W'. exists d', f', c', l', ms, hs, (ids1 ++ ids). split; [done|]. split; [done|].
    destruct R as [R1 R2 R3 R4 R5 R6 R7 R8 R9 R10].
    assert (forall j, j ∈ l1 -> j ∈ l) as Hl1.
    { intros j. rewrite (ev_list _ _ _ _ _ Hev), elem_of_app, list_elem_of_filter. intros [[_ ?]|?%Hids]; tauto. }
    split; try done.
    + rewrite <- (app_nil_r ms). eapply searched_trans; [by apply evolve_searched|exact R1|].
      intros j Hj%Hids. destruct Hj as [-> _]. intros [Hj|Hj]%elem_of_app; [apply Hic, (R5 i); set_solver|by apply Hic, (R6 i)].
    + intros j Hj. destruct (R4 j Hj) as [?|[Hjc Hr4]]; [by left|right]. split; [by right|]. intros rj Hrj. apply Hr4. rewrite Hk; [done|set_solver].
    + intros j Hj. destruct (R5 j Hj) as (Hjc & Hjd & rj & Hrj & Hm). split_and!; [by right|done|]. exists rj. rewrite <- Hk by set_solver. done.
    + intros j [Hj|Hj]%elem_of_app; [|destruct (R6 j Hj); split; [by right|done]]. apply Hids in Hj as [-> _]. split; [by left|].
      intros Hj. destruct (R4 i Hj) as [?|[? _]]; done.
    + intros j rj [->|Hj]%elem_of_cons Hrj He Hc; [assert (rj = r) as -> by congruence; destruct (Hout eq_refl); congruence|].
      apply (R7 j rj); [done| |done|done]. rewrite Hk; [done|set_solver].
    + intros j Hj. rewrite !elem_of_app in Hj. destruct Hj as [Hj|[Hj|Hj]]; [apply Hl1, R9; set_solver|by apply Hids|apply Hl1, R9; set_solver].
    + intros j rj Hj Hjd Hrj Hf. apply elem_of_app. apply elem_of_cons in Hj as [->|Hj]; [left; apply Hgone; congruence|right].
      apply (R10 j rj); [done|done| |done]. rewrite Hk; [done|set_solver].
  - specialize (Hnot eq_refl). destruct (has (cflags r) F_FORWARD && has (cflags r) prot && hostname_isequal (cname r) name) eqn:Hm.
    + destruct (answer_ok t c l nc f hs0 i r W Hch Hr Hit) as (f1 & c1 & l1 & ms1 & hs1 & -> & W1 & Hs1 & Hch1 & Hrecs1 & Hone & Hms1); [by intros ?%Hhs|].
      assert (ins_ok c1 d insert) as Hins1 by (eapply ins_ok_frame; [|exact Hins]; intros; by rewrite Hrecs1).
      assert (recs c1 !! i = Some r) as Hr1 by (by rewrite Hrecs1).
      destruct (place_ok t c1 l1 nc n i r d chain insert W1 Hn Ht Hr1 Hins1) as (W2 & Hp & Hins2). cbv zeta.
      set (cl := Z.land (cflags r) (Z.lor F_REVERSE F_IMMORTAL)) in *.
      set (res := match insert with Some (k, fl) => if cl =? fl then (take k d ++ i :: drop k d, Some (S k, fl)) else (d ++ [i], insert)
                  | None => (d ++ [i], Some (length d, cl)) end) in *.
      assert (match insert with
        | Some (k, ins_flags) => if cl =? ins_flags then find_name_loop now name prot chain (take k d ++ i :: drop k d) (Some (S k, ins_flags)) f1 c1
                                 else find_name_loop now name prot chain (d ++ [i]) insert f1 c1
        | None => find_name_loop now name prot chain (d ++ [i]) (Some (length d, cl)) f1 c1 end =
        find_name_loop now name prot chain res.1 res.2 f1 c1) as -> by (unfold res; destruct insert as [[k fl]|]; [by destruct (cl =? fl)|done]).
      destruct (IH _ c1 l1 res.1 res.2 f1 (hs0 ++ hs1) W2) as (d' & f' & c' & l' & ms & hs & ids & -> & W' & R);
        [by rewrite length_insert|by rewrite nth_insert_eq|done|done| |].
      { intros j [Hj|Hj]%elem_of_app; rewrite Hp; [apply elem_of_app; left; by apply Hhs|]. assert (j ∈ ms1 ++ hs1) as Hj1 by set_solver.
        rewrite Hone in Hj1. set_solver. }
      rewrite list_insert_insert_eq in W'. exists d', f', c', l', (ms ++ ms1), (hs1 ++ hs), ids. split; [done|]. split; [done|].
      destruct R as [R1 R2 R3 R4 R5 R6 R7 R8 R9 R10].
      assert (forall j, j ∈ l1 <-> j ∈ l) as Hl1 by (intros j; apply (searched_in _ _ _ _ _ _ j Hs1); rewrite app_nil_r; done).
      assert (forall j, j ∈ ms1 ++ hs1 <-> j = i) as Hi1 by (intros j; rewrite Hone; apply list_elem_of_singleton).
      assert (i ∈ d') as Hid' by (apply R3; rewrite Hp; set_solver).
      split; try done.
      * rewrite <- (app_nil_l ids). eapply searched_trans; [exact Hs1|exact R1|]. intros j Hj.
        assert (j = i) as -> by (apply Hi1; set_solver). intros [Hj'|Hj']%elem_of_app; [apply Hic, (R5 i); set_solver|by apply Hic, (R6 i)].
      * by rewrite app_assoc.
      * intros j Hj. apply R3. rewrite Hp. set_solver.
      * intros j Hj. destruct (decide (j = i)) as [->|Hne].
        { right. split; [by left|]. intros rj Hrj. assert (rj = r) as -> by congruence. split; [done|]. intros _.
          assert (i ∈ ms1 ++ hs1) by (by apply Hi1). set_solver. }
        destruct (R4 j Hj) as [Hjd|[Hjc Hr4]]; [left; rewrite Hp in Hjd; set_solver|right]. split; [by right|].
        intros rj Hrj. rewrite Hrecs1 in Hr4. destruct (Hr4 rj Hrj) as [He Hmm]. split; [done|]. intros Hx. specialize (Hmm Hx). set_solver.
      * intros j Hj. assert (j = i \/ j ∈ ms ++ hs) as [->|Hj'].
        { rewrite !elem_of_app in Hj. destruct Hj as [[Hj|Hj]|[Hj|Hj]]; [right; set_solver|left; apply Hi1; set_solver|left; apply Hi1; set_solver|right; set_solver]. }
        -- split_and!; [by left|done|]. by exists r.
        -- destruct (R5 j Hj') as (Hjc & Hjd & rj & Hrj & Hx). rewrite Hrecs1 in Hrj. split_and!; [by right|done|by exists rj].
      * intros j Hj. destruct (R6 j Hj). split; [by right|done].
      * intros j rj [->|Hj]%elem_of_cons Hrj He Hc; [done|]. apply (R7 j rj); [done|by rewrite Hrecs1|done|done].
      * apply NoDup_app. split_and!; [done| |].
        -- intros j Hj Hj1. assert (j = i) as -> by (apply Hi1; set_solver). apply Hic, (R5 i). set_solver.
        -- assert (NoDup (ms1 ++ hs1)) as Hnd1 by (rewrite Hone; apply NoDup_singleton). by apply NoDup_app in Hnd1 as [? _].
      * intros j Hj. rewrite !elem_of_app in Hj. destruct Hj as [[Hj|Hj]|Hj]; [apply Hl1, R9; set_solver|by apply Hms1|apply Hl1, R9; set_solver].
      * intros j rj [->|Hj]%elem_of_cons Hjd Hrj Hf; [done|]. apply (R10 j rj); [done|done|by rewrite Hrecs1|done].
    + destruct (IH t c l (d ++ [i]) insert f hs0 W Hn) as (d' & f' & c' & l' & ms & hs & ids & -> & W' & R);
        [by rewrite <- app_assoc|by apply ins_ok_snoc|done|intros j Hj; apply elem_of_app; left; by apply Hhs|].
      exists d', f', c', l', ms, hs, ids. split; [done|]. split; [done|]. destruct R as [R1 R2 R3 R4 R5 R6 R7 R8 R9 R10]. split; try done.
      * intros j Hj. apply R3. set_solver.
      * intros j Hj. destruct (R4 j Hj) as [[Hjd| ->%list_elem_of_singleton]%elem_of_app|[Hjc Hr4]]; [by left| |right; split; [by right|done]].
        right. split; [by left|]. intros rj Hrj. assert (rj = r) as -> by congruence. split; [done|]. unfold name_match. by rewrite Hm.
      * intros j Hj. destruct (R5 j Hj) as (Hjc & Hjd & Hx). split_and!; [by right|done|done].
      * intros j Hj. destruct (R6 j Hj). split; [by right|done].
      * intros j rj [->|Hj]%elem_of_cons Hrj He Hc; [apply R3; set_solver|by apply (R7 j rj)].
      * intros j rj [->|Hj]%elem_of_cons Hjd Hrj Hf; [destruct Hjd; apply R3; set_solver|by apply (R10 j rj)].
Qed.

(** ** All the answers *)

(** [while ((crecp = cache_find_by_name(crecp, name, now, prot)))], as the
    callers have it. *)
Fixpoint find_all (fuel : nat) (c : cache) (crecp : option ptr) (name : list Z) (now prot : Z) : comp (list ptr * cache) :=
  match fuel with
  | O => Fault NoFuel
  | S fuel' =>
      '(r, c) ← cache_find_by_name mix_tab c crecp name now prot;
      match r with
      | None => Ok ([], c)
      | Some i => '(ids, c) ← find_all fuel' c (Some i) name now prot; mret (i :: ids, c)
      end
  end.

Lemma dseg_sseg n v p l q : dseg n v p l q -> sseg n l q.
Proof. revert p. induction l as [|i l IH]; intros p; [done|]. cbn. intros (_ & ? & ?). eauto. Qed.

Lemma sseg_app n l1 l2 q : sseg n l1 (hd_or l2 q) -> sseg n l2 q -> sseg n (l1 ++ l2) q.
Proof. induction l1 as [|i l1 IH]; [done|]. cbn [app sseg]. rewrite hd_or_app. intros [-> ?] ?. eauto. Qed.

Lemma hlinks_close n hs x q : hlinks n (hs ++ [x]) -> x ∉ hs -> sseg (set_ptr n x q) (hs ++ [x]) q.
Proof.
  induction hs as [|y hs IH]; intros Hh Hx; cbn [app hlinks sseg] in *.
  - split; [|done]. by rewrite lookup_set_ptr, decide_True.
  - destruct Hh as [Hy Hh]. split; [|apply IH; [done|set_solver]].
    rewrite lookup_set_ptr, decide_False by set_solver. destruct hs as [|z hs]; cbn [app] in *; by rewrite Hy.
Qed.

(** Steps from an answer to the next one. *)
Lemma name_answer_match c i r name prot : recs c !! i = Some r ->
  name_answer c (Some i) name prot = Ok (if name_match name prot r then Some i else None).
Proof. intros Hr. unfold name_answer, getr. rewrite Hr. cbn. done. Qed.

Lemma find_rest good : forall fuel c i bad name now prot, sseg (nxt (lru c)) (i :: good ++ bad) None -> (length good < fuel)%nat ->
  (forall j, j ∈ good -> exists r, recs c !! j = Some r /\ name_match name prot r = true) ->
  (forall j, head bad = Some j -> exists r, recs c !! j = Some r /\ name_match name prot r = false) ->
  find_all fuel c (Some i) name now prot = Ok (good, c).
Proof.
  induction good as [|j good IH]; intros fuel c i bad name now prot Hs Hf Hg Hb; destruct fuel as [|fuel]; cbn [length] in Hf; try lia;
    cbn [find_all]; unfold cache_find_by_name; cbn [app sseg] in Hs; destruct Hs as [Hn Hs]; rewrite Hn; cbn [mbind comp_bind].
  - destruct bad as [|j bad]; [done|]. cbn [hd_or]. destruct (Hb j eq_refl) as (r & Hr & Hm). by rewrite (name_answer_match c j r), Hm by done.
  - cbn [hd_or]. destruct (Hg j) as (r & Hr & Hm); [by left|]. rewrite (name_answer_match c j r), Hm by done. cbn [mbind comp_bind mret comp_ret].
    rewrite (IH fuel c j bad); [done|done|lia|intros k Hk; apply Hg; by right|done].
Qed.

(** At the end of a search the links of the answers lead into the list. *)
Lemma chain_end_ok c l nc f hs : wf c l nc -> chained c l nc f hs ->
  exists c', chain_to c f (dhead (lru c)) = (Found (head (hs ++ l)) (f_last f), c') /\ wf c' l nc /\
    sseg (nxt (lru c')) (hs ++ l) None /\ recs c' = recs c /\ hash_table c' = hash_table c /\ insert_error c' = insert_error c.
Proof.
  intros W [C1 C2 C3 C4 C5]. destruct (wf_lru _ _ _ _ _ W) as (Hh & _ & _ & Hsg). rewrite Hh. unfold chain_to. rewrite C1.
  destruct hs as [|x hs _] using rev_ind; cbn [last].
  - exists c. cbn [app]. split_and!; [done|done|by eapply dseg_sseg|done|done|done].
  - rewrite last_snoc. destruct (C5 x) as [Hxl Hxn]; [set_solver|]. exists (set_next c x (head l)).
    assert (head ((hs ++ [x]) ++ l) = head (hs ++ [x])) as -> by (by destruct hs).
    rewrite <- C2 by (by destruct hs). split_and!; [rewrite last_snoc in C1; destruct f; cbn in *; by subst|by apply set_next_ok| |done|done|done].
    apply sseg_app; [rewrite hd_or_head; apply hlinks_close; [exact C3|]|].
    + apply NoDup_app in C4 as (_ & C4 & _). intros Hx. apply (C4 x Hx). by left.
    + eapply sseg_frame; [|by eapply dseg_sseg]. intros j Hj. unfold set_next. cbn [lru with_lru nxt].
      rewrite lookup_set_ptr, decide_False; [done|]. by intros ->.
Qed.

(** What a search does to the records that are no answers: the expired ones
    under the hash of the name leave the table, and those that are not of the
    hosts file or of DHCP are free again; the others stay as they are
    (aliases may go, when they have lost their target). *)
Record swept (now : Z) (name : list Z) (c c' : cache) (l' : list ptr) : Prop := {
  sw_expired : forall j r, j ∈ concat (hash_table c) -> recs c !! j = Some r -> is_expired now r = true ->
    hash_bucket mix_tab (hash_size c) (cname r) = hash_bucket mix_tab (hash_size c) name ->
    (j ∉ concat (hash_table c')) /\ (fixed r = false -> j ∈ l' /\ exists r', recs c' !! j = Some r' /\ used r' = false);
  sw_live : forall j r, j ∈ concat (hash_table c) -> recs c !! j = Some r -> is_expired now r = false -> has (cflags r) F_CNAME = false ->
    j ∈ concat (hash_table c') /\ recs c' !! j = Some r;
  sw_only : forall j, j ∈ concat (hash_table c') -> j ∈ concat (hash_table c) /\ recs c' !! j = recs c !! j }.

Lemma swept_ok now name prot c c1 c' l l1 nc n d' f hs ms ids : wf c l nc -> (n < length (hash_table c))%nat ->
  hash_bucket mix_tab (hash_size c) name = Z.of_nat n ->
  loop_result now name prot c c1 l l1 nc (nth n (hash_table c) []) [] d' f [] hs ms ids ->
  hash_table c' = <[n := d']> (hash_table c) -> recs c' = recs c1 -> swept now name c c' l1.
Proof.
  intros W Hn Hk [Hse _ _ Hkept _ Hfreed Hstay _ _ Hgone] Ht Hr.
  assert (forall m j r, j ∈ nth m (hash_table c) [] -> recs c !! j = Some r -> hash_bucket mix_tab (hash_size c) (cname r) = Z.of_nat m) as Hb
    by (intros m j r Hj Hrj; exact (wf_hash _ _ _ _ _ W m j r Hj Hrj)).
  assert (forall m j, j ∈ nth m (hash_table c') [] -> m = n /\ j ∈ d' \/ m <> n /\ j ∈ nth m (hash_table c) []) as Hin.
  { intros m j. rewrite Ht. destruct (decide (m = n)) as [->|Hne]; [rewrite nth_insert_eq by done; auto|rewrite nth_insert_ne by done; auto]. }
  assert (forall j, j ∈ d' -> j ∈ nth n (hash_table c) []) as Hd by (intros j Hj; destruct (Hkept j Hj) as [?|[? _]]; [by_nil|done]).
  assert (forall j, j ∈ ids -> j ∉ concat (hash_table c')) as Hid.
  { intros j Hj (m & _ & Hm)%nth_concat. destruct (Hfreed j Hj) as [Hc Hnd]. destruct (Hin m j Hm) as [[_ ?]|[Hne Hj']]; [done|].
    destruct (wf_recs _ _ _ _ _ W j) as [r Hrj]; [left; apply nth_concat; eauto|]. pose proof (Hb _ _ _ Hc Hrj) as H1.
    rewrite (Hb _ _ _ Hj' Hrj) in H1. by apply Nat2Z.inj in H1. }
  split.
  - intros j r (m & Hm & Hj)%nth_concat Hrj He Hbk. assert (m = n) as -> by (rewrite (Hb m j r Hj Hrj), Hk in Hbk; by apply Nat2Z.inj in Hbk).
    assert (j ∉ d') as Hjd by (intros Hjd; destruct (Hkept j Hjd) as [?|[_ H]]; [by_nil|]; destruct (H r Hrj); congruence).
    split.
    + intros (m & _ & Hjm)%nth_concat. destruct (Hin m j Hjm) as [[_ ?]|[Hne Hj']]; [done|]. pose proof (Hb _ _ _ Hj Hrj) as H1.
      rewrite (Hb _ _ _ Hj' Hrj) in H1. by apply Nat2Z.inj in H1.
    + intros Hf. pose proof (Hgone j r Hj Hjd Hrj Hf) as Hji. split; [rewrite (se_list _ _ _ _ _ _ Hse); set_solver|].
      destruct (se_freed _ _ _ _ _ _ Hse j Hji) as (r0 & r1 & _ & Hr1 & _ & _ & Hu & _). exists r1. by rewrite Hr.
  - intros j r (m & Hm & Hj)%nth_concat Hrj He Hc. assert (j ∈ nth m (hash_table c') []) as Hj'.
    { rewrite Ht. destruct (decide (m = n)) as [->|Hne]; [rewrite nth_insert_eq by done; by apply (Hstay j r)|by rewrite nth_insert_ne]. }
    assert (j ∈ concat (hash_table c')) as Hjc by (apply nth_concat; exists m; rewrite Ht, length_insert, <- Ht; done).
    split; [done|]. rewrite Hr, (se_keep _ _ _ _ _ _ Hse); [done|]. intros Hji. by apply (Hid j).
  - intros j Hj. assert (j ∉ ids) as Hji by (intros Hji; by apply (Hid j)). rewrite Hr, (se_keep _ _ _ _ _ _ Hse) by done. split; [|done].
    apply nth_concat in Hj as (m & Hm & Hj). apply nth_concat. rewrite Ht, length_insert in Hm.
    destruct (Hin m j Hj) as [[-> ?]|[_ ?]]; [exists n|exists m]; auto.
Qed.

(** The state after the first search: the records that may be asked for next
    hang together, the answers in front. *)
Lemma first_search c l nc name now prot : wf c l nc ->
  exists hs ms rest c' l', l' = ms ++ rest /\ wf c' l' nc /\ l' ≡ₚ l /\ sseg (nxt (lru c')) (hs ++ ms ++ rest) None /\ NoDup (hs ++ ms) /\
    cache_find_by_name mix_tab c None name now prot = ('(r) ← name_answer c' (head (hs ++ ms ++ rest)) name prot; mret (r, c')) /\
    insert_error c' = insert_error c /\ hash_size c' = hash_size c /\
    (forall j, j ∈ hs ++ ms -> exists r, recs c !! j = Some r /\ recs c' !! j = Some r /\ j ∈ concat (hash_table c) /\
       name_match name prot r = true /\ is_expired now r = false) /\
    (forall j, head rest = Some j -> exists r, recs c' !! j = Some r /\ name_match name prot r = false) /\
    (forall j r, j ∈ concat (hash_table c) -> recs c !! j = Some r -> name_match name prot r = true -> is_expired now r = false ->
       has (cflags r) F_CNAME = false -> j ∈ hs ++ ms) /\
    swept now name c c' l'.
Proof.
  intros W. destruct (bucket_of _ c l nc name W) as (n & Hn & Hk).
  destruct (find_loop_ok now name prot n nc (nth n (hash_table c) []) (hash_table c) c l [] None (Found None None) []) as
    (d' & f1 & c1 & l1 & ms & hs & ids & Hloop & W1 & R); [done|done|done|done|by split; try done; try by_nil; constructor|by_nil|].
  pose proof R as [Hse Hch _ Hkept Hans Hfreed Hstay Hnd Hdyn _]. cbn [app] in Hch.
  pose proof (se_table _ _ _ _ _ _ Hse) as Ht1. set (c2 := set_bucket c1 (Z.of_nat n) d').
  assert (hash_table c2 = <[n := d']> (hash_table c)) as Ht2 by (unfold c2, set_bucket; cbn; by rewrite Nat2Z.id, Ht1).
  assert (wf c2 l1 nc) as W2 by (by apply (wf_set_bucket mix_tab (hash_table c) c)).
  set (rest := filter (fun j => j ∉ ms ++ ids) l ++ ids).
  assert (l1 = ms ++ rest) as Hl1 by apply (se_list _ _ _ _ _ _ Hse).
  assert (forall j, j ∈ concat (hash_table c) -> forall r, recs c !! j = Some r -> name_match name prot r = true -> j ∈ nth n (hash_table c) []) as Hbk.
  { intros j (m & Hm & Hj)%nth_concat r Hr Hmt. pose proof (wf_hash _ _ _ _ _ W m j r Hj Hr) as Hh. change (zlen (hash_table c)) with (hash_size c) in Hh.
    unfold name_match in Hmt. apply andb_true_iff in Hmt as [_ Hmt]. rewrite (hash_bucket_case _ _ _ _ Hmt), Hk in Hh. by apply Nat2Z.inj in Hh as ->. }
  (* what is behind the answers does not match *)
  assert (forall j, head rest = Some j -> exists r, recs c1 !! j = Some r /\ name_match name prot r = false) as Hrest.
  { intros j Hj. assert (j ∈ rest) as Hjr by (destruct rest; [done|]; injection Hj as ->; by left).
    assert (j ∈ l1) as Hjl by (rewrite Hl1; set_solver). destruct (wf_recs _ _ _ _ _ W2 j) as [r Hr]; [by right; left|].
    change (recs c2) with (recs c1) in Hr. exists r. split; [done|]. destruct (name_match name prot r) eqn:Hmt; [|done]. exfalso.
    assert (used r = true) as Hu by (unfold used; rewrite has_lor; unfold name_match in Hmt; by destruct (has (cflags r) F_FORWARD)).
    pose proof (wf_used _ _ _ _ _ W2 j r Hr Hjl Hu) as Hjt. rewrite Ht2, concat_insert, !elem_of_app in Hjt by done.
    destruct (decide (j ∈ ids)) as [Hji|Hji].
    { destruct (se_freed _ _ _ _ _ _ Hse j Hji) as (r0 & r1 & _ & Hr1 & _ & _ & Hu1 & _). congruence. }
    assert (recs c !! j = Some r) as Hr0 by (by rewrite <- (se_keep _ _ _ _ _ _ Hse) by done).
    assert (j ∈ d') as Hjd.
    { assert (j ∈ concat (hash_table c2)) as Hjt2 by (rewrite Ht2, concat_insert, !elem_of_app by done; exact Hjt).
      apply nth_concat in Hjt2 as (m & Hm & Hjm). pose proof (wf_hash _ _ _ _ _ W2 m j r Hjm Hr) as Hh.
      assert (zlen (hash_table c2) = hash_size c) as Hz by (unfold hash_size, zlen; by rewrite Ht2, length_insert).
      unfold name_match in Hmt. apply andb_true_iff in Hmt as [_ Hmt]. rewrite Hz, (hash_bucket_case _ _ _ _ Hmt), Hk in Hh. apply Nat2Z.inj in Hh as <-.
      by rewrite Ht2, nth_insert_eq in Hjm by done. }
    destruct (Hkept j Hjd) as [?|[_ Hkp]]; [by_nil|]. destruct (Hkp r Hr0) as [_ Hm]. specialize (Hm Hmt).
    apply elem_of_app in Hm as [Hm|Hm].
    - unfold rest in Hjr. rewrite elem_of_app, list_elem_of_filter in Hjr. destruct Hjr as [[Hno _]|]; [set_solver|done].
    - by destruct (ch_out _ _ _ _ _ Hch j Hm). }
  assert (forall j, j ∈ hs -> j ∉ ms) as Hdisj.
  { intros j Hj Hjm. apply (ch_out _ _ _ _ _ Hch j) in Hj as [Hj _]. apply Hj. rewrite Hl1. set_solver. }
  assert (NoDup (hs ++ ms)) as Hndr by (apply NoDup_app; split_and!; [apply Hch|done|done]).
  destruct (chain_end_ok c2 l1 nc f1 hs W2) as (c' & Hto & W' & Hss & Hrecs' & Ht' & He'); [by destruct Hch; split|].
  assert (l1 ≡ₚ l) as Hperm.
  { apply NoDup_Permutation; [by destruct (wf_lru _ _ _ _ _ W1) as (_ & _ & ? & _)|by destruct (wf_lru _ _ _ _ _ W) as (_ & _ & ? & _)|].
    intros j. by apply (searched_in _ _ _ _ _ _ j Hse). }
  exists hs, ms, rest, c', l1. rewrite <- Hl1. split_and!; try done.
  - unfold cache_find_by_name. rewrite Hk, bucket_nth, Hloop. cbn [mbind comp_bind]. fold c2. change (dhead (lru c1)) with (dhead (lru c2)). by rewrite Hto.
  - rewrite He'. apply Hse.
  - unfold hash_size, zlen. by rewrite Ht', Ht2, length_insert.
  - intros j Hj. destruct (Hans j) as (Hj1 & Hj2 & r & Hr & Hm & He); [set_solver|]. exists r. split_and!; [done| |apply nth_concat; eauto|done..].
    rewrite Hrecs', (se_keep _ _ _ _ _ _ Hse); [done|]. intros Hji. by apply (Hfreed j).
  - intros j Hj. rewrite Hrecs'. by apply Hrest.
  - intros j r Hj Hr Hm He Hc. pose proof (Hbk j Hj r Hr Hm) as Hjb. pose proof (Hstay j r Hjb Hr He Hc) as Hjd.
    destruct (Hkept j Hjd) as [?|[_ Hkp]]; [by_nil|]. destruct (Hkp r Hr) as [_ Hmm]. specialize (Hmm Hm). set_solver.
  - apply (swept_ok now name prot c c1 c' l l1 nc n d' f1 hs ms ids); [done..|by rewrite Ht', Ht2|done].
Qed.

Lemma find_all_ok c l nc name now prot : wf c l nc ->
  exists res c' l', find_all (S (S (size (recs c)))) c None name now prot = Ok (res, c') /\ wf c' l' nc /\ l' ≡ₚ l /\ NoDup res /\
    insert_error c' = insert_error c /\
    (forall j, j ∈ res -> exists r, recs c !! j = Some r /\ recs c' !! j = Some r /\ j ∈ concat (hash_table c) /\
       name_match name prot r = true /\ is_expired now r = false) /\
    (forall j r, j ∈ concat (hash_table c) -> recs c !! j = Some r -> name_match name prot r = true -> is_expired now r = false ->
       has (cflags r) F_CNAME = false -> j ∈ res) /\
    swept now name c c' l'.
Proof.
  intros W. destruct (first_search c l nc name now prot W) as (hs & ms & rest & c' & l' & Hl' & W' & Hperm & Hss & Hnd & Heq & He & _ & Hsound & Hrest & Hcompl & Hswept).
  exists (hs ++ ms), c', l'. split_and!; try done. remember (S (size (recs c))) as m eqn:Em. cbn [find_all]. rewrite Heq.
  assert (length (hs ++ ms) <= size (recs c))%nat as Hlen by (apply nodup_size; [done|]; intros j Hj; destruct (Hsound j Hj) as (r & Hr & _); eauto).
  rewrite app_assoc in Hss |- *. destruct (hs ++ ms) as [|i good].
  - cbn [app head]. destruct rest as [|j rest]; [done|]. destruct (Hrest j eq_refl) as (r & Hr & Hm). cbn [head].
    by rewrite (name_answer_match c' j r), Hm by done.
  - cbn [app head]. destruct (Hsound i) as (r & _ & Hr & _ & Hm & _); [by left|]. rewrite (name_answer_match c' i r), Hm by done. cbn [mbind comp_bind mret comp_ret].
    rewrite (find_rest good m c' i rest); [done|done|cbn in Hlen; lia| |done].
    intros j Hj. destruct (Hsound j) as (rj & _ & Hrj & _ & Hmj & _); [by right|]. eauto.
Qed.

(** * The first state *)

Lemma init_loop_ok n : forall i c l, dll_rep (lru c) l -> (forall j, j ∈ l -> (j < i)%positive) ->
  (forall j, j ∈ l -> exists r, recs c !! j = Some r /\ cflags r = 0) ->
  exists c' l', init_loop n i c = c' /\ dll_rep (lru c') l' /\ (forall j, j ∈ l' -> exists r, recs c' !! j = Some r /\ cflags r = 0) /\
    length l' = (n + length l)%nat /\ hash_table c' = hash_table c /\ new_chain c' = new_chain c /\ insert_error c' = insert_error c.
Proof.
  induction n as [|n IH]; intros i c l Hd Hi Hr; cbn [init_loop]; [by exists c, l|].
  match goal with |- context [init_loop n (Pos.succ i) ?x] => set (c1 := x) end.
  destruct (IH (Pos.succ i) c1 (i :: l)) as (c' & l' & -> & Hd' & Hr' & Hl & Ht & Hn & He).
  - cbn. apply push_head_rep; [done|]. intros Hil%Hi. lia.
  - intros j [->|Hj%Hi]%elem_of_cons; lia.
  - intros j [->|Hj]%elem_of_cons; cbn; [rewrite lookup_insert_eq; eauto|]. rewrite lookup_insert_ne; [by apply Hr|].
    intros <-. specialize (Hi i Hj). lia.
  - exists c', l'. split_and!; try done. rewrite Hl. cbn. lia.
Qed.

Lemma table_size_pow fuel : forall k size, 0 <= k -> exists k', k <= k' /\ table_size fuel (2 ^ k) size = 2 ^ k'.
Proof.
  induction fuel as [|fuel IH]; intros k size Hk; cbn [table_size]; [by exists k; lia|]. case_match; [|exists k; lia].
  rewrite <- Z.pow_succ_r by done. destruct (IH (Z.succ k) size) as (k' & Hk' & ->); [lia|]. exists k'. split; [lia|done].
Qed.

Lemma cache_init_ok size : 0 <= size -> exists c l, cache_init mix_tab size = Ok c /\ wf c l [] /\ zlen l = size /\
  insert_error c = false /\ concat (hash_table c) = [].
Proof.
  intros Hsize. unfold cache_init, rehash.
  destruct (init_loop_ok (Z.to_nat size) 1%positive (with_big 0 (size `quot` 10) empty_cache) []) as (c & l & -> & Hd & Hr & Hl & Ht & Hn & He);
    [by split_and!; [done|done|constructor|]|by_nil|by_nil|].
  cbn in Ht, Hn, He. unfold hash_size. rewrite Ht. cbn [zlen length andb negb Z.of_nat Z.eqb concat rehash_loop].
  destruct (table_size_pow 25 6 size) as (k & Hk & Hts); [done|]. change (2 ^ 6) with 64 in Hts. rewrite Hts.
  assert (forall m, nth m (replicate (Z.to_nat (2 ^ k)) []) [] = ([] : list ptr)) as Hnth.
  { generalize (Z.to_nat (2 ^ k)) as z. induction z as [|z IH]; intros [|m]; cbn; auto. }
  assert (concat (replicate (Z.to_nat (2 ^ k)) []) = ([] : list ptr)) as Hcat.
  { generalize (Z.to_nat (2 ^ k)) as z. induction z as [|z IH]; cbn; auto. }
  eexists _, l. split; [reflexivity|]. split_and!; [|unfold zlen; cbn in Hl; lia|done|done].
  split; cbn [with_table recs lru hash_table new_chain].
  - done.
  - by rewrite Hn.
  - done.
  - by destruct Hd as (_ & _ & ? & _).
  - exists k. split; [lia|]. unfold zlen. rewrite length_replicate. assert (0 < 2 ^ k) by lia. lia.
  - done.
  - rewrite Hcat. constructor.
  - intros i. rewrite Hcat. intros [?|[Hi|?]]; [by_nil| |by_nil]. destruct (Hr i Hi) as (r & Hri & _). eauto.
  - intros m i r. rewrite Hnth. by_nil.
  - intros i r _. rewrite Hcat. by_nil.
  - intros i r Hri Hi Hu. destruct (Hr i Hi) as (r' & Hr' & Hf). assert (r' = r) as -> by congruence. unfold used in Hu. by rewrite Hf in Hu.
  - intros i r _. rewrite Hcat. by_nil.
  - intros i r Hri [Hi|?]; [|by_nil]. destruct (Hr i Hi) as (r' & Hr' & Hf). assert (r' = r) as -> by congruence. unfold fixed. by rewrite Hf.
  - intros i r _. rewrite Hcat. by_nil.
  - by_nil.
  - intros m. rewrite Hnth. constructor.
Qed.

Lemma name_match_case name name' prot r : hostname_isequal name name' = true -> name_match name prot r = name_match name' prot r.
Proof.
  rewrite hostname_isequal_fold, strcasecmp0_eq. intros H. unfold name_match. f_equal. rewrite !hostname_isequal_fold.
  apply eq_true_iff_eq. rewrite !strcasecmp0_eq. by rewrite H.
Qed.

(** C15: searching by name finds every record of the table that has the name,
    one of the wanted types and time left to live (aliases apart, which may
    have lost their target), each of them once, and nothing else: the loop of
    the callers ends and follows no dangling pointer. Every expired record
    under the hash of the name has left the table afterwards, whatever its
    name and type, and its memory is free for reuse unless it belongs to the
    hosts file or to DHCP; every record with time left to live is still in
    the table as it was (aliases apart), and nothing has been added. *)
Theorem find_by_name_correct c l nc name now prot : wf c l nc ->
  exists res c' l', find_all (S (S (size (recs c)))) c None name now prot = Ok (res, c') /\ wf c' l' nc /\ NoDup res /\
    (forall i, i ∈ res -> exists r, recs c !! i = Some r /\ recs c' !! i = Some r /\ i ∈ concat (hash_table c) /\
       name_match name prot r = true /\ is_expired now r = false) /\
    (forall i r, i ∈ concat (hash_table c) -> recs c !! i = Some r -> name_match name prot r = true -> is_expired now r = false ->
       has (cflags r) F_CNAME = false -> i ∈ res) /\
    (forall i r, i ∈ concat (hash_table c) -> recs c !! i = Some r -> is_expired now r = true ->
       hash_bucket mix_tab (hash_size c) (cname r) = hash_bucket mix_tab (hash_size c) name ->
       (i ∉ concat (hash_table c')) /\ (fixed r = false -> i ∈ l' /\ exists r', recs c' !! i = Some r' /\ used r' = false)) /\
    (forall i r, i ∈ concat (hash_table c) -> recs c !! i = Some r -> is_expired now r = false -> has (cflags r) F_CNAME = false ->
       i ∈ concat (hash_table c') /\ recs c' !! i = Some r) /\
    (forall i, i ∈ concat (hash_table c') -> i ∈ concat (hash_table c) /\ recs c' !! i = recs c !! i).
Proof.
  intros W. destruct (find_all_ok c l nc name now prot W) as (res & c' & l' & ? & ? & _ & ? & _ & ? & ? & []). by exists res, c', l'.
Qed.

Lemma scanned_perm c c' l l' nc ids : wf c l nc -> scanned c c' l l' nc ids -> l' ≡ₚ l.
Proof.
  intros W Hs. pose proof (sc_evolve _ _ _ _ _ _ _ Hs) as Hev. pose proof (ev_list _ _ _ _ _ Hev) as Hl. pose proof (sc_wf _ _ _ _ _ _ _ Hs) as W'.
  assert (forall j, j ∈ ids -> j ∈ l) as Hids.
  { intros j Hj. destruct (ev_freed _ _ _ _ _ Hev j Hj) as (r & r' & Hr & Hr' & _ & _ & _ & Hf). cbn in Hr'.
    apply (wf_fixed _ _ _ _ _ W j r Hr); [by apply (sc_ids _ _ _ _ _ _ _ Hs)|]. rewrite <- Hf.
    apply (wf_dyn _ _ _ _ _ W' j r' Hr'). left. rewrite Hl. set_solver. }
  apply NoDup_Permutation; [by destruct (wf_lru _ _ _ _ _ W') as (_ & _ & ? & _)|by destruct (wf_lru _ _ _ _ _ W) as (_ & _ & ? & _)|].
  intros j. rewrite Hl, elem_of_app, list_elem_of_filter. split; [intros [[_ ?]|?]; auto|]. intros Hj. destruct (decide (j ∈ ids)); auto.
Qed.

End ops.

Section insertion.
Context (mix_tab : Z -> Z) (clobbered : Z -> list Z -> list Z) (max_cache_ttl : Z).
Local Notation wf := (wf mix_tab).
Local Notation scanned := (scanned mix_tab).

(** What [cache_insert] may be asked to insert. *)
Record insertable (name : option (list Z)) (addr : option in_addr) (flags : Z) : Prop := {
  in_used : has flags (Z.lor F_FORWARD F_REVERSE) = true;
  in_dyn : has flags (Z.lor F_HOSTS F_DHCP) = false;
  in_name : has flags F_FORWARD = true -> is_Some name;
  in_addr_given : has flags F_FORWARD = false -> is_Some addr }.

Definition new_record (name : option (list Z)) (addr : option in_addr) (now ttl flags : Z) (big : bool) (r : crec) : crec :=
  let ttl := if negb (max_cache_ttl =? 0) && (max_cache_ttl <? ttl) then max_cache_ttl else ttl in
  Crec (from_option CAddr (cr_addr r) addr) (s32 (now + s32 ttl)) (cuid r) (if big then Z.lor flags F_BIGNAME else flags) (default [] name).

Lemma has_big flags f : Z.land F_BIGNAME f = 0 -> has (Z.lor flags F_BIGNAME) f = has flags f.
Proof. intros H. rewrite lor_has. unfold has at 2. rewrite H. cbn. by rewrite orb_false_r. Qed.

(** Either nothing is inserted, and the error is noted, or the record is the
    first one of the insertion. *)
Definition insert_result (can_malloc : bool) (c : cache) (l nc : list ptr) (name : option (list Z)) (addr : option in_addr) (now ttl flags : Z)
    (res : comp (option ptr * cache)) : Prop :=
  exists cs l' ids, scanned c cs l l' nc ids /\
    ((res = Ok (None, with_error true cs) /\ ~ sure_record can_malloc c l name) \/
     (exists new big l1 r c', res = Ok (Some new, c') /\ l' = l1 ++ [new] /\ recs cs !! new = Some r /\ used r = false /\
        wf c' l1 (new :: nc) /\ hash_table c' = hash_table cs /\ insert_error c' = false /\
        recs c' = <[new := new_record name addr now ttl flags big r]> (recs cs) /\
        (has flags F_FORWARD = true -> forall j r,
           j ∈ nth (Z.to_nat (hash_bucket mix_tab (hash_size c) (default [] name))) (hash_table cs) [] ->
           recs c !! j = Some r -> is_expired now r = false /\ fwd_match flags (default [] name) r = false))).

Lemma new_record_flags name addr now ttl flags big r f : Z.land F_BIGNAME f = 0 ->
  has (cflags (new_record name addr now ttl flags big r)) f = has flags f.
Proof. intros H. cbn [new_record cflags]. destruct big; [by apply has_big|done]. Qed.

(** The record is taken and filled. *)
Lemma insert_finish can_malloc c0 c l nc name addr now ttl flags ids0 l0 : insertable name addr flags -> insert_error c0 = false ->
  scanned c0 c l0 l nc ids0 ->
  (has flags F_FORWARD = true -> forall j r, j ∈ nth (Z.to_nat (hash_bucket mix_tab (hash_size c0) (default [] name))) (hash_table c) [] ->
     recs c0 !! j = Some r -> is_expired now r = false /\ fwd_match flags (default [] name) r = false) ->
  (sure_record can_malloc c0 l0 name -> sure_record can_malloc c l name) ->
  insert_result can_malloc c0 l0 nc name addr now ttl flags
    ('(g, c) ← grab mix_tab clobbered 4 can_malloc now name (has flags F_REVERSE) false c;
      match g with
      | NoRecord => Ok (None, c)
      | Grab new big =>
          r ← getr c new;
          let c := putr c new (new_record name addr now ttl flags big r) in
          let c := set_next c new (new_chain c) in
          mret (Some new, with_chain (Some new) c)
      end).
Proof.
  intros Hin Herr Hs0 Hdup Hsure.
  destruct (grab_ok mix_tab clobbered can_malloc now name (has flags F_REVERSE) c l nc (sc_wf _ _ _ _ _ _ _ Hs0)) as
    (cs & l' & ids & Hs & [[-> Hns]|(new & big & l1 & r & -> & -> & Hr & Hu)]); cbn [mbind comp_bind].
  - exists cs, l', (ids0 ++ ids). split; [by eapply scanned_trans|]. left. split; [done|]. intros Hc. by apply Hns, Hsure.
  - unfold getr. change (recs (cache_unlink cs new)) with (recs cs). rewrite Hr. cbn [of_option mbind comp_bind mret comp_ret]. cbv zeta.
    pose proof (scanned_trans _ _ _ _ _ _ _ _ _ _ Hs0 Hs) as Hs1.
    exists cs, (l1 ++ [new]), (ids0 ++ ids). split; [done|]. right. eexists new, big, l1, r, _. split; [reflexivity|].
    split_and!; [done|done|done| |done| |done|].
    + apply (install_ok mix_tab cs l1 new nc r); [apply (sc_wf _ _ _ _ _ _ _ Hs)|done|done| |].
      * unfold used. rewrite new_record_flags by done. apply Hin.
      * unfold fixed. rewrite new_record_flags by done. apply Hin.
    + pose proof (ev_error _ _ _ _ _ (sc_evolve _ _ _ _ _ _ _ Hs1)) as He. cbn in He. cbn. congruence.
    + intros Hf j rj Hj Hrj. apply (Hdup Hf j); [|done]. eapply sublist_subseteq; [apply (sc_sub _ _ _ _ _ _ _ Hs)|done].
Qed.

Lemma cache_insert_ok can_malloc c l nc name addr now ttl flags : wf c l nc -> insertable name addr flags -> insert_error c = false ->
  insert_result can_malloc c l nc name addr now ttl flags (cache_insert mix_tab clobbered max_cache_ttl can_malloc c name addr now ttl flags).
Proof.
  intros W Hin Herr. unfold cache_insert. rewrite Herr. cbv zeta.
  destruct (has flags F_FORWARD) eqn:Ef.
  - destruct (in_name _ _ _ Hin Ef) as [s ->].
    destruct (scan_free_forward mix_tab clobbered c None s (CAddr <$> addr) now flags l nc W Ef) as
      (ok & c' & l' & ids & Heq & Hs & Hk & _ & Hbad). rewrite Heq. cbn [mbind comp_bind]. destruct ok; cbn [negb].
    + apply (insert_finish can_malloc c c' l' nc (Some s) addr now ttl flags ids l Hin Herr Hs).
      * intros _ j r Hj Hr. cbn [default] in *. apply (Hk eq_refl j r Hj Hr). by left.
      * intros (Hsm & Hsp & Hne). split_and!; [by eapply room_ampler; [eapply scan_free_ampler|]|by eapply spillable_scanned|by eapply scanned_nonempty].
    + exists c', l', ids. split; [done|]. left. split; [done|]. intros (_ & Hsp & _).
      destruct (Hbad eq_refl) as (j & r & Hj & Hr & Hfx & _). destruct (Hsp j r Hj Hr). congruence.
  - destruct (in_addr_given _ _ _ Hin Ef) as [a ->].
    destruct (scan_free_table mix_tab clobbered c None name (CAddr <$> Some a) now flags l nc W Ef) as
      (c' & l' & ids & Heq & Hs & _ & _); [by exists a|]. rewrite Heq. cbn [mbind comp_bind negb].
    apply (insert_finish can_malloc c c' l' nc name (Some a) now ttl flags ids l Hin Herr Hs); [by rewrite Ef|].
    intros (Hsm & Hsp & Hne). split_and!; [by eapply room_ampler; [eapply scan_free_ampler|]|by eapply spillable_scanned|by eapply scanned_nonempty].
Qed.

(** ** Insertion and search together *)

(** [cache_start_insert], one [cache_insert] and [cache_end_insert]. *)
Definition insert_one (can_malloc : bool) (c : cache) (name : option (list Z)) (addr : option in_addr) (now ttl flags : Z)
  : comp (option ptr * cache) :=
  c ← cache_start_insert c;
  '(r, c) ← cache_insert mix_tab clobbered max_cache_ttl can_malloc c name addr now ttl flags;
  c ← cache_end_insert mix_tab c;
  mret (r, c).

Lemma spillable_keep c c' : hash_table c' = hash_table c -> (forall j, j ∈ concat (hash_table c) -> recs c' !! j = recs c !! j) -> spillable c -> spillable c'.
Proof. intros Ht Hr Hsp j r Hj Hjr. rewrite Ht in Hj. apply (Hsp j); [done|]. by rewrite <- Hr. Qed.

(** The whole insertion of an address. *)
Lemma free_chain_ampler fuel : forall c c', free_chain fuel c = Ok c' -> ampler c c'.
Proof.
  induction fuel as [|fuel IH]; intros c c'; cbn [free_chain]; destruct (new_chain c) as [i|];
    [done|intros [= <-]; apply ampler_refl| |intros [= <-]; apply ampler_refl].
  destruct (cache_free c i) as [c1|] eqn:E; [|done]. cbn [mbind comp_bind]. intros [H1 H2]%IH. apply cache_free_ampler in E as [? ?].
  cbn in H1, H2. split; [lia|congruence].
Qed.

Lemma start_insert_ampler c c' : cache_start_insert c = Ok c' -> ampler c c'.
Proof.
  unfold cache_start_insert. destruct (free_chain _ c) as [c1|] eqn:E; [|done]. cbn [mbind comp_bind mret comp_ret].
  intros [= <-]. apply free_chain_ampler in E. exact E.
Qed.

Lemma insert_one_ok can_malloc c l nc name addr now ttl flags : wf c l nc -> insertable (Some name) (Some addr) flags ->
  room_for can_malloc c (Some name) -> spillable c -> l <> [] -> has flags F_CNAME = false ->
  exists i c' l' r, insert_one can_malloc c (Some name) (Some addr) now ttl flags = Ok (Some i, c') /\ wf c' l' [] /\
    recs c' !! i = Some r /\ i ∈ concat (hash_table c') /\ cname r = name /\ cr_addr r = CAddr addr /\
    (forall f, Z.land F_BIGNAME f = 0 -> has (cflags r) f = has flags f) /\
    ttd r = s32 (now + s32 (if negb (max_cache_ttl =? 0) && (max_cache_ttl <? ttl) then max_cache_ttl else ttl)) /\
    (has flags F_FORWARD = true -> forall j rj, j ∈ concat (hash_table c') -> j <> i -> recs c' !! j = Some rj ->
       hash_bucket mix_tab (hash_size c') (cname rj) = hash_bucket mix_tab (hash_size c') name -> fwd_match flags name rj = false).
Proof.
  intros W Hin Hsm Hsp Hne Hc. unfold insert_one.
  destruct (start_insert_ok mix_tab c l nc W) as (c1 & Heq1 & W1 & Ht1 & He1 & Hk1). rewrite Heq1. cbn [mbind comp_bind].
  pose proof (start_insert_ampler _ _ Heq1) as Hamp.
  assert (spillable c1) as Hsp1.
  { apply (spillable_keep c); [done| |done]. intros j Hj. apply Hk1. intros Hjn. by apply (new_free _ _ _ _ _ W Hjn). }
  assert (l ++ nc <> []) as Hne1 by (by destruct l).
  destruct (cache_insert_ok can_malloc c1 (l ++ nc) [] (Some name) (Some addr) now ttl flags W1 Hin He1) as
    (cs & l2 & ids & Hs & [[_ Hns]|(i & big & l3 & r & c2 & -> & -> & Hr & Hu & W2 & Ht2 & He2 & Hrecs2 & Hdup)]);
    [destruct Hns; split_and!; [by eapply room_ampler|done|done]|]. cbn [mbind comp_bind]. set (r2 := new_record (Some name) (Some addr) now ttl flags big r) in *.
  assert (forall f, Z.land F_BIGNAME f = 0 -> has (cflags r2) f = has flags f) as Hfl by (intros f Hf; by apply new_record_flags).
  assert (linked c2 [i]) as Hlk.
  { intros j rj ->%list_elem_of_singleton Hrj. rewrite Hrecs2, lookup_insert_eq in Hrj. injection Hrj as <-.
    unfold addr_ok. rewrite Hfl, Hc by done. case_match; [|done]. by exists addr. }
  destruct (end_insert_ok mix_tab c2 l3 [i] W2 Hlk He2) as (c3 & l4 & -> & W3 & Hsz & He3 & _ & Hk3 & Hold & Hnew & Hin3). cbn [mbind comp_bind mret comp_ret].
  destruct (Hin3 i r2) as [Hri Hti]; [by left|by rewrite Hrecs2, lookup_insert_eq|by rewrite Hfl|].
  assert (hash_size c2 = hash_size c1) as Hs2 by (unfold hash_size, zlen; rewrite Ht2; by rewrite (sc_length _ _ _ _ _ _ _ Hs)).
  assert (i ∈ concat (hash_table c3)) as Hit3.
  { apply nth_concat. eexists. split; [|exact Hti].
    destruct (decide (Z.to_nat (hash_bucket mix_tab (hash_size c2) (cname r2)) < length (hash_table c3))%nat); [done|].
    rewrite nth_overflow in Hti by lia. by_nil. }
  exists i, c3, l4, r2. split_and!; try done.
  intros Hf j rj Hj Hji Hrj Hb. rewrite Hk3 in Hrj by (intros ->%list_elem_of_singleton; done).
  rewrite Hrecs2, lookup_insert_ne in Hrj by done. apply nth_concat in Hj as (n & Hn & Hj).
  pose proof Hj as Hj3. apply Hnew in Hj as [Hj| ->%list_elem_of_singleton]; [|done]. rewrite Ht2 in Hj.
  assert (j ∈ concat (hash_table cs)) as Hjc by (by apply (not_in_bucket_inv _ j n)).
  assert (recs c3 !! j = Some rj) as Hrj3 by (rewrite Hk3 by (intros ->%list_elem_of_singleton; done); by rewrite Hrecs2, lookup_insert_ne).
  pose proof (wf_hash _ _ _ _ _ W3 n j rj Hj3 Hrj3) as Hh. change (zlen (hash_table c3)) with (hash_size c3) in Hh.
  rewrite Hsz, Hs2 in Hh, Hb. rewrite (scanned_keep _ _ _ _ _ _ _ _ Hs Hjc) in Hrj.
  apply (Hdup Hf j rj); [|done]. change (default [] (Some name)) with name. by rewrite <- Hb, Hh, Nat2Z.id.
Qed.

Lemma small_mods ttl : 0 <= ttl < 2 ^ 31 -> s32 ttl = ttl.
Proof. intros H. unfold s32. rewrite Z.mod_small by lia. lia. Qed.

Definition F_A : Z := Z.lor F_FORWARD F_IPV4.

(** C20: an insertion into a cache with no record of a hosts file or of a
    lease in its table finds a record, however full the table is, provided
    that no insertion of the same reply has failed before, that at least one
    record is left in the list (the cache is not of size 0, and the records
    of this reply have not taken all), and that there is room for the name: it
    is shorter than SMALLDNAME, or a big name is on the free list, or the
    limit of big names is not reached and there is memory for one more. Then
    the branch that was written against a tight loop is not taken, the loop
    ends, and the state is well formed. *)
Theorem insert_finds_room can_malloc c l nc name addr now ttl flags : wf c l nc -> insertable name addr flags ->
  insert_error c = false -> room_for can_malloc c name -> spillable c -> l <> [] ->
  exists i c' l', cache_insert mix_tab clobbered max_cache_ttl can_malloc c name addr now ttl flags = Ok (Some i, c') /\ wf c' l' (i :: nc).
Proof.
  intros W Hin He Hroom Hsp Hne. assert (sure_record can_malloc c l name) as Hsure by (by split_and!).
  destruct (cache_insert_ok can_malloc c l nc name addr now ttl flags W Hin He) as
    (cs & l' & ids & _ & [[_ Hns]|(i & big & l1 & r & c' & -> & _ & _ & _ & W' & _)]); [by destruct Hns|]. by exists i, c', l1.
Qed.

(** C16: an address that has been inserted is found under its name, in any
    letter case, until its time has passed, and it is the only one: what was
    there under the name before is gone. The cache has no record of a hosts
    file or of a lease in its table (such a record of the name would be kept
    instead), its list of records is not empty, there is room for the name, be
    it short or long, and the times are before 2038. *)
Theorem insert_then_find can_malloc c l nc name addr now ttl name' now' : wf c l nc -> spillable c -> l <> [] -> room_for can_malloc c (Some name) ->
  0 <= now <= now' -> 0 <= ttl -> now + ttl < 2 ^ 31 -> 0 <= max_cache_ttl ->
  now' < now + (if max_cache_ttl =? 0 then ttl else Z.min ttl max_cache_ttl) -> hostname_isequal name name' = true ->
  exists i r c1 c2, insert_one can_malloc c (Some name) (Some addr) now ttl F_A = Ok (Some i, c1) /\
    find_all mix_tab (S (S (size (recs c1)))) c1 None name' now' F_IPV4 = Ok ([i], c2) /\
    recs c2 !! i = Some r /\ cr_addr r = CAddr addr /\ cname r = name.
Proof.
  intros W Hsp Hne Hsm Hnow Httl Hov Hmax Hlive Hname.
  destruct (insert_one_ok can_malloc c l nc name addr now ttl F_A W) as (i & c1 & l1 & r & Heq & W1 & Hr & Hi & Hcn & Ha & Hfl & Httd & Hone);
    [by split; eauto|done..|].
  assert (ttd r = now + (if max_cache_ttl =? 0 then ttl else Z.min ttl max_cache_ttl)) as Httd'.
  { rewrite Httd. destruct (max_cache_ttl =? 0) eqn:E0; cbn [negb andb]; zbool; [by rewrite !small_mods by (try rewrite small_mods; lia)|].
    destruct (max_cache_ttl <? ttl) eqn:E1; zbool; rewrite !small_mods by (try rewrite small_mods; lia); lia. }
  assert (is_expired now' r = false) as Hexp.
  { unfold is_expired. rewrite Hfl by done. cbn. apply negb_false_iff, Z.ltb_lt. lia. }
  assert (name_match name' F_IPV4 r = true) as Hm.
  { rewrite <- (name_match_case _ _ _ _ Hname). unfold name_match. rewrite !Hfl, Hcn, hostname_refl by done. done. }
  destruct (find_all_ok mix_tab c1 l1 [] name' now' F_IPV4 W1) as (res & c2 & l2 & Hf & _ & _ & Hnd & _ & Hsound & Hcompl & _).
  assert (i ∈ res) as Hires by (apply (Hcompl i r); [done|done|done|done|by rewrite Hfl]).
  assert (res = [i]) as ->.
  { assert (forall j, j ∈ res -> j = i) as Hall.
    - intros j Hj. destruct (decide (j = i)) as [|Hji]; [done|]. exfalso. destruct (Hsound j Hj) as (rj & Hrj & _ & Hjt & Hmj & _).
      rewrite <- (name_match_case _ _ _ _ Hname) in Hmj. unfold name_match in Hmj.
      apply andb_true_iff in Hmj as [[Hfw H4]%andb_true_iff Heqn].
      assert (fwd_match F_A name rj = false) as Hno by (apply (Hone eq_refl j rj Hjt Hji Hrj); by apply hash_bucket_case).
      unfold fwd_match in Hno. rewrite Hfw, Heqn, andb_true_r in Hno. cbn [andb] in Hno. apply orb_false_iff in Hno as [Hno _].
      unfold F_TYPE in Hno. rewrite !has_lor in Hno. unfold F_IPV4 in Hno, H4. rewrite has_land_bit, H4 in Hno by done. done.
    - destruct res as [|x res]; [by_nil|]. assert (x = i) as -> by (apply Hall; by left). destruct res as [|y res]; [done|].
      assert (y = i) as -> by (apply Hall; right; by left). apply NoDup_cons in Hnd as [Hx _]. exfalso. apply Hx. by left. }
  destruct (Hsound i Hires) as (r' & Hr1 & Hr2 & _). assert (r' = r) as -> by congruence. by exists i, r, c1, c2.
Qed.
End insertion.

(** ** Witnesses *)

Definition demo_mix (i : Z) : Z := (7 * i + 3) `mod` 256.
Definition demo_clobbered (n : Z) (name : list Z) : list Z := [].

Lemma demo_sure c (l : list ptr) : concat (hash_table c) = [] -> zlen l = 2 -> spillable c /\ l <> [].
Proof. intros Ht Hl. split; [intros j r Hj; rewrite Ht in Hj; by_nil|by intros ->]. Qed.

Lemma insert_then_find_witness : exists c i r c1 c2, cache_init demo_mix 2 = Ok c /\
  insert_one demo_mix demo_clobbered 0 true c (Some (lit "a.org")) (Some (1, 2, 3, 4)) 100 60 F_A = Ok (Some i, c1) /\
  find_all demo_mix (S (S (size (recs c1)))) c1 None (lit "A.org") 159 F_IPV4 = Ok ([i], c2) /\
  recs c2 !! i = Some r /\ cr_addr r = CAddr (1, 2, 3, 4).
Proof.
  destruct (cache_init_ok demo_mix 2) as (c & l & Hc & W & Hl & _ & Ht); [lia|]. destruct (demo_sure c l Ht Hl) as [Hsp Hne].
  destruct (insert_then_find demo_mix demo_clobbered 0 true c l [] (lit "a.org") (1, 2, 3, 4) 100 60 (lit "A.org") 159 W Hsp Hne) as
    (i & r & c1 & c2 & H1 & H2 & H3 & H4 & _); [by left; vm_compute|lia|lia|lia|lia|cbn; lia|by vm_compute|].
  exists c, i, r, c1, c2. split_and!; [exact Hc|exact H1|exact H2|exact H3|exact H4].
Defined.

Lemma insert_finds_room_witness : exists c i c' l', cache_init demo_mix 2 = Ok c /\
  cache_insert demo_mix demo_clobbered 0 true c None (Some (1, 2, 3, 4)) 100 60 (Z.lor F_REVERSE F_IPV4) = Ok (Some i, c') /\
  wf demo_mix c' l' [i].
Proof.
  destruct (cache_init_ok demo_mix 2) as (c & l & Hc & W & Hl & He & Ht); [lia|]. destruct (demo_sure c l Ht Hl) as [Hsp Hne].
  destruct (insert_finds_room demo_mix demo_clobbered 0 true c l [] None (Some (1, 2, 3, 4)) 100 60 (Z.lor F_REVERSE F_IPV4) W) as (i & c' & l' & H & W');
    [by split; eauto|exact He|by left|done|done|]. exists c, i, c', l'. split_and!; [exact Hc|exact H|exact W'].
Defined.

Lemma find_by_name_correct_witness : exists c i c1 res c' res' c'', cache_init demo_mix 2 = Ok c /\
  insert_one demo_mix demo_clobbered 0 true c (Some (lit "a.org")) (Some (1, 2, 3, 4)) 100 60 F_A = Ok (Some i, c1) /\
  find_all demo_mix (S (S (size (recs c1)))) c1 None (lit "A.org") 159 F_IPV4 = Ok (res, c') /\ NoDup res /\ i ∈ res /\
  find_all demo_mix (S (S (size (recs c1)))) c1 None (lit "A.org") 160 F_IPV4 = Ok (res', c'') /\ i ∉ concat (hash_table c'').
Proof.
  destruct (cache_init_ok demo_mix 2) as (c & l & Hc & W & Hl & _ & Ht); [lia|]. destruct (demo_sure c l Ht Hl) as [Hsp Hne].
  destruct (insert_one_ok demo_mix demo_clobbered 0 true c l [] (lit "a.org") (1, 2, 3, 4) 100 60 F_A W) as
    (i & c1 & l1 & r & H1 & W1 & Hr & Hi & Hn & _ & Hf & Httd & _); [by split; eauto|by left; vm_compute|exact Hsp|exact Hne|done|].
  assert (ttd r = 160) as Ht' by exact Httd.
  assert (forall now, is_expired now r = negb (now <? 160)) as He by (intros now; unfold is_expired; by rewrite Hf, Ht').
  destruct (find_by_name_correct demo_mix c1 l1 [] (lit "A.org") 159 F_IPV4 W1) as (res & c' & l' & H2 & _ & Hnd & _ & Hcompl & _).
  destruct (find_by_name_correct demo_mix c1 l1 [] (lit "A.org") 160 F_IPV4 W1) as (res' & c'' & l'' & H3 & _ & _ & _ & _ & Hgone & _).
  exists c, i, c1, res, c', res', c''. split_and!; [exact Hc|exact H1|exact H2|exact Hnd| |exact H3|].
  - apply (Hcompl i r Hi Hr); [unfold name_match; by rewrite !Hf, Hn|by rewrite He|by rewrite Hf].
  - apply (Hgone i r Hi Hr); [by rewrite He|by rewrite Hn].
Defined.
