(* ===== verification/DmCacheAddr.v ===== *)
(** dnsmasq's cache.c, searches by address ([cache_find_by_addr]): they go
    through the whole table, bucket by bucket, and stop in each at the first
    record that is not a reverse one. *)
From stdpp Require Import sorting.
From S2P Require Import Prelude CString Dns Common DmUtil DmName DmPacket DmLru DmCache DmCacheInv DmCacheOps.
Set Warnings "-clear-no-such-hyp,-notation-for-abbreviation".

(** What the search takes for an answer. *)
Definition addr_match (a : in_addr) (prot : Z) (r : crec) : bool :=
  has (cflags r) F_REVERSE && has (cflags r) prot && bool_decide (cr_addr r = CAddr a).

Section addr.
Context (mix_tab : Z -> Z) (now : Z) (a : in_addr) (prot : Z).
Local Notation wf := (wf mix_tab).
Local Notation wfT := (wfT mix_tab).
Local Notation wanted r := (addr_match a prot r = true /\ is_expired now r = false).

Lemma fold_addr_match rs r : addr_ok rs r -> has (cflags r) F_REVERSE = true ->
  (if has (cflags r) prot then same_addr r (Some (CAddr a)) else mret false) = Ok (addr_match a prot r).
Proof.
  intros Ha Hr. unfold addr_match. rewrite Hr. destruct (has (cflags r) prot); [|done]. cbn [andb]. rewrite (same_addr_ok rs) by done.
  f_equal. apply bool_decide_ext. split; [by intros [= ->]|by intros ->].
Qed.

(** Behind the first record of a chain that is not a reverse one there are no
    reverse ones. *)
Lemma forward_rest rs i r chain : StronglySorted (fun i j => (rcls rs i <= rcls rs j)%nat) (i :: chain) ->
  rs !! i = Some r -> has (cflags r) F_REVERSE = false -> forall j s, j ∈ i :: chain -> rs !! j = Some s -> addr_match a prot s = false.
Proof.
  intros Hs Hr Hrev j s Hj Hjs. inversion Hs as [|? ? _ Hall]; subst. rewrite Forall_forall in Hall.
  assert (rcls rs i <= rcls rs j)%nat as Hc by (apply elem_of_cons in Hj as [->|Hj]; [lia|by apply Hall]).
  unfold rcls in Hc. rewrite Hr, Hjs in Hc. cbn in Hc. unfold cls in Hc. rewrite Hrev in Hc. unfold addr_match.
  destruct (has (cflags s) F_REVERSE); [|done]. destruct (has (cflags r) F_IMMORTAL); lia.
Qed.

(** What is found in the records [chain], of which [kept] remain. *)
Record addr_result (c c' : cache) (l l' nc chain kept : list ptr) (f' : found) (hs0 hs ms ids : list ptr) : Prop := {
  ar_searched : searched c c' l l' ms ids;
  ar_chained : chained c' l' nc f' (hs0 ++ hs);
  ar_sub : kept `sublist_of` chain;
  ar_answers : forall j, j ∈ ms ++ hs -> j ∈ chain /\ j ∈ kept /\ exists r, recs c !! j = Some r /\ wanted r;
  ar_freed : forall j, j ∈ ids -> j ∈ chain /\ j ∉ kept;
  ar_all : forall j r, j ∈ chain -> recs c !! j = Some r -> wanted r -> j ∈ ms ++ hs;
  ar_fresh : forall j r, j ∈ kept -> recs c !! j = Some r -> addr_match a prot r = true -> is_expired now r = false;
  ar_nodup : NoDup ms;
  ar_dyn : forall j, j ∈ ms ++ ids -> j ∈ l }.

Lemma addr_result_nil c l nc chain f hs0 : chained c l nc f hs0 -> (forall j r, j ∈ chain -> recs c !! j = Some r -> addr_match a prot r = false) ->
  addr_result c c l l nc chain chain f hs0 [] [] [].
Proof.
  intros Hch Hno. split; cbn [app]; try done; try by_nil; [by apply searched_refl|by rewrite app_nil_r| | |by constructor].
  - intros j r Hj Hr [Hm _]. by rewrite (Hno j r) in Hm by done.
  - intros j r Hj Hr Hm. by rewrite (Hno j r) in Hm by done.
Qed.

Lemma searched_keep c c1 l l1 ms ids j : searched c c1 l l1 ms ids -> j ∉ ids -> recs c1 !! j = recs c !! j.
Proof. intros H Hj. by apply (se_keep _ _ _ _ _ _ H). Qed.

(** One stretch of the table after the other. *)
Lemma addr_result_trans c c1 c2 l l1 l2 nc ch1 ch2 k1 k2 f1 f2 hs0 hs1 hs2 ms1 ms2 ids1 ids2 :
  addr_result c c1 l l1 nc ch1 k1 f1 hs0 hs1 ms1 ids1 -> addr_result c1 c2 l1 l2 nc ch2 k2 f2 (hs0 ++ hs1) hs2 ms2 ids2 ->
  (forall j, j ∈ ch1 -> j ∉ ch2) -> addr_result c c2 l l2 nc (ch1 ++ ch2) (k1 ++ k2) f2 hs0 (hs1 ++ hs2) (ms2 ++ ms1) (ids1 ++ ids2).
Proof.
  intros [R1 R2 R3 R4 R5 R6 RF R7 R8] [S1 S2 S3 S4 S5 S6 SF S7 S8] Hd.
  assert (forall j, j ∈ l1 <-> j ∈ l) as Hl1 by (intros j; by apply (searched_in _ _ _ _ _ _ j R1)).
  assert (forall j, j ∈ ch2 -> recs c1 !! j = recs c !! j) as Hk.
  { intros j Hj. apply (searched_keep _ _ _ _ _ _ _ R1). intros [Hi _]%R5. by apply (Hd j). }
  assert (forall j, j ∈ ms1 ++ ids1 -> j ∈ ch1) as Hc1 by (intros j [Hj|Hj]%elem_of_app; [apply (R4 j); set_solver|by apply R5]).
  assert (forall j, j ∈ ms2 ++ ids2 -> j ∈ ch2) as Hc2 by (intros j [Hj|Hj]%elem_of_app; [apply (S4 j); set_solver|by apply S5]).
  assert (forall j, j ∈ ch2 -> j ∉ k1) as Hk1 by (intros j Hj Hj1; apply (Hd j); [by eapply sublist_subseteq|done]).
  split.
  - eapply searched_trans; [exact R1|exact S1|]. intros j Hj%Hc1 Hj2%Hc2. by apply (Hd j).
  - by rewrite app_assoc.
  - by apply sublist_app.
  - intros j Hj. assert (j ∈ ms1 ++ hs1 \/ j ∈ ms2 ++ hs2) as [Hj'|Hj'] by set_solver.
    + destruct (R4 j Hj') as (H1 & H2 & H3). set_solver.
    + destruct (S4 j Hj') as (H1 & H2 & r & Hr & Hw). rewrite Hk in Hr by done. split_and!; [set_solver|set_solver|by exists r].
  - intros j [Hj|Hj]%elem_of_app.
    + destruct (R5 j Hj) as [H1 H2]. split; [set_solver|]. intros [?|Hj2]%elem_of_app; [done|]. apply (Hd j H1). by eapply sublist_subseteq.
    + destruct (S5 j Hj) as [H1 H2]. split; [set_solver|]. intros [?|?]%elem_of_app; [by apply (Hk1 j)|done].
  - intros j r [Hj|Hj]%elem_of_app Hr Hw; [pose proof (R6 j r Hj Hr Hw); set_solver|].
    rewrite <- Hk in Hr by done. pose proof (S6 j r Hj Hr Hw). set_solver.
  - intros j r [Hj|Hj]%elem_of_app Hr; [by apply (RF j r)|]. apply (SF j r); [done|]. rewrite Hk; [done|]. by eapply sublist_subseteq.
  - apply NoDup_app. split_and!; [done| |done]. intros j Hj2 Hj1. apply (Hd j); [apply Hc1; set_solver|apply Hc2; set_solver].
  - intros j Hj. assert (j ∈ ms1 ++ ids1 \/ j ∈ ms2 ++ ids2) as [Hj'|Hj'] by set_solver; [by apply R8|by apply Hl1, S8].
Qed.

Lemma find_addr_loop_ok n nc chain : forall t c l d f hs0,
  wfT t c l nc -> (n < length t)%nat -> nth n t [] = d ++ chain -> chained c l nc f hs0 -> (forall j, j ∈ hs0 -> j ∉ chain) ->
  exists kept f' c' l' ms hs ids, find_addr_loop now (Some (CAddr a)) prot chain f c = Ok (kept, f', c') /\
    wfT (<[n := d ++ kept]> t) c' l' nc /\ addr_result c c' l l' nc chain kept f' hs0 hs ms ids.
Proof.
  induction chain as [|i chain IH]; intros t c l d f hs0 W Hn Ht Hch Hhs; cbn [find_addr_loop].
  { exists [], f, c, l, [], [], []. split; [done|]. split; [by rewrite <- Ht, insert_same|]. apply addr_result_nil; [done|by_nil]. }
  pose proof (in_chain t n d i chain Hn Ht) as Hit. destruct (wf_recs _ _ _ _ _ W i) as [r Hr]; [by left|].
  assert (i ∉ chain) as Hic.
  { pose proof (wf_once _ _ _ _ _ W) as Hnd. rewrite (concat_nth t n), Ht in Hnd by done.
    apply NoDup_app in Hnd as (_ & _ & Hnd). apply NoDup_app in Hnd as (Hnd & _ & _). apply NoDup_app in Hnd as (_ & _ & Hnd).
    by apply NoDup_cons in Hnd as [? _]. }
  unfold getr. rewrite Hr. cbn [of_option mbind comp_bind].
  destruct (has (cflags r) F_REVERSE) eqn:Erev; cbn [negb].
  2: { exists (i :: chain), f, c, l, [], [], []. split; [done|]. split; [by rewrite <- Ht, insert_same|]. apply addr_result_nil; [done|].
    apply (forward_rest (recs c) i r); [|done|done]. pose proof (wf_order _ _ _ _ _ W n) as Ho. rewrite Ht in Ho.
    eapply StronglySorted_sublist; [|exact Ho]. by apply sublist_inserts_l. }
  (* the record in front, which leaves the state [c1], and the rest *)
  assert (forall k1 f1 c1 l1 ms1 hs1 ids1, wfT (<[n := (d ++ k1) ++ chain]> t) c1 l1 nc -> addr_result c c1 l l1 nc [i] k1 f1 hs0 hs1 ms1 ids1 ->
    exists kept f' c' l' ms hs ids, find_addr_loop now (Some (CAddr a)) prot chain f1 c1 = Ok (kept, f', c') /\
      wfT (<[n := d ++ (k1 ++ kept)]> t) c' l' nc /\ addr_result c c' l l' nc (i :: chain) (k1 ++ kept) f' hs0 hs ms ids) as Hstep.
  { intros k1 f1 c1 l1 ms1 hs1 ids1 W1 R1.
    destruct (IH _ c1 l1 (d ++ k1) f1 (hs0 ++ hs1) W1) as (kept & f' & c' & l' & ms & hs & ids & -> & W' & R);
      [by rewrite length_insert|by rewrite nth_insert_eq|apply R1| |].
    - intros j [Hj|Hj]%elem_of_app; [intros Hjc; apply (Hhs j Hj); by right|].
      destruct (ar_answers _ _ _ _ _ _ _ _ _ _ _ _ R1 j) as (->%list_elem_of_singleton & _); [set_solver|done].
    - rewrite list_insert_insert_eq, <- app_assoc in W'. eexists kept, f', c', l', _, _, _. split; [done|]. split; [done|].
      eapply (addr_result_trans c c1 c' l l1 l' nc [i] chain); [exact R1|exact R|]. by intros j ->%list_elem_of_singleton. }
  destruct (is_expired now r) eqn:Eexp.
  - pose proof (removed_at t n d i chain Hn Ht) as Hrem.
    assert (exists c1 l1 ids1, (if fixed r then mret c else recycle c i) = Ok c1 /\ wfT (<[n := d ++ chain]> t) c1 l1 nc /\
      addr_result c c1 l l1 nc [i] [] f hs0 [] [] ids1) as (c1 & l1 & ids1 & -> & W1 & R1).
    { assert (forall j s, j ∈ [i] -> recs c !! j = Some s -> wanted s -> False) as Hno.
      { intros j s ->%list_elem_of_singleton Hs [_ He]. assert (s = r) as -> by congruence. congruence. }
      destruct (fixed r) eqn:Hf.
      - exists c, l, []. split; [done|]. split; [by eapply drop_fixed|]. split; cbn [app]; try done; try by_nil; [by apply searched_refl|by rewrite app_nil_r|by apply sublist_nil_l| |by constructor].
        intros j s Hj Hs Hw. by destruct (Hno j s Hj Hs Hw).
      - pose proof (wf_fixed _ _ _ _ _ W i r Hr Hit Hf) as Hil.
        destruct (recycle_links mix_tab t c l nc _ i r W Hrem Hr Hf) as (c1 & l1 & Hc1 & W1 & Hev & Hn1). exists c1, l1, [i].
        split; [done|]. split; [done|]. split; cbn [app]; try done; try by_nil.
        + by apply evolve_searched.
        + rewrite app_nil_r. eapply chained_frame; [exact Hch| |exact Hn1].
          intros j. rewrite (ev_list _ _ _ _ _ Hev), elem_of_app, list_elem_of_filter, list_elem_of_singleton.
          destruct (decide (j = i)) as [->|]; [tauto|set_solver].
        + apply sublist_nil_l.
        + intros j Hj. split; [exact Hj|by_nil].
        + intros j s Hj Hs Hw. by destruct (Hno j s Hj Hs Hw).
        + constructor.
        + by intros j Hj%list_elem_of_singleton; subst. }
    cbn [mbind comp_bind]. apply (Hstep [] f c1 l1 [] [] ids1); [by rewrite app_nil_r|done].
  - rewrite (fold_addr_match (recs c)) by (done || by apply (wf_addr _ _ _ _ _ W i r Hr)). cbn [mbind comp_bind].
    assert (exists f1 c1 l1 ms1 hs1, (if addr_match a prot r then answer c f i r else (f, c)) = (f1, c1) /\
      wfT (<[n := (d ++ [i]) ++ chain]> t) c1 l1 nc /\ addr_result c c1 l l1 nc [i] [i] f1 hs0 hs1 ms1 []) as (f1 & c1 & l1 & ms1 & hs1 & -> & W1 & R1).
    { rewrite <- app_assoc. cbn [app]. rewrite <- Ht, insert_same by done. destruct (addr_match a prot r) eqn:Em.
      - destruct (answer_ok mix_tab t c l nc f hs0 i r W Hch Hr Hit) as (f1 & c1 & l1 & ms1 & hs1 & Hans & W1 & Hs1 & Hch1 & Hrecs1 & Hone & Hms1);
          [by intros ?%Hhs; set_solver|]. exists f1, c1, l1, ms1, hs1. split; [done|]. split; [done|]. split; cbn [app]; try done; try by_nil.
        + intros j Hj. rewrite Hone in Hj. apply list_elem_of_singleton in Hj as ->. split_and!; [by left|by left|by exists r].
        + intros j s Hj _ _. by rewrite Hone.
        + intros j s ->%list_elem_of_singleton Hs _. by assert (s = r) as -> by congruence.
        + assert (NoDup (ms1 ++ hs1)) as Hnd1 by (rewrite Hone; apply NoDup_singleton). by apply NoDup_app in Hnd1 as [? _].
        + intros j. rewrite app_nil_r. by apply Hms1.
      - exists f, c, l, [], []. split; [done|]. split; [done|]. apply addr_result_nil; [done|].
        intros j s ->%list_elem_of_singleton Hs. by assert (s = r) as -> by congruence. }
    destruct (Hstep [i] f1 c1 l1 ms1 hs1 [] W1 R1) as (kept & f' & c' & l' & ms & hs & ids & -> & W' & R). cbn [mbind comp_bind mret comp_ret].
    by exists (i :: kept), f', c', l', ms, hs, ids.
Qed.

(** The table itself apart. *)
Lemma addr_result_table x c c' l l' nc chain kept f' hs0 hs ms ids :
  addr_result (with_table x c) (with_table x c') l l' nc chain kept f' hs0 hs ms ids ->
  addr_result c (with_table (hash_table c) c') l l' nc chain kept f' hs0 hs ms ids.
Proof. intros [[] [] R3 R4 R5 R6 RF R7 R8]. by split. Qed.

Lemma find_addr_table_ok nc m : forall k c l f hs0, wf c l nc -> (k + m = length (hash_table c))%nat -> chained c l nc f hs0 ->
  (forall j, j ∈ hs0 -> j ∉ concat (drop k (hash_table c))) ->
  exists f' c' l' ms hs ids tl, find_addr_table now (Some (CAddr a)) prot k m f c = Ok (f', c') /\ wf c' l' nc /\
    hash_table c' = take k (hash_table c) ++ tl /\
    addr_result c (with_table (hash_table c) c') l l' nc (concat (drop k (hash_table c))) (concat tl) f' hs0 hs ms ids.
Proof.
  induction m as [|m IH]; intros k c l f hs0 W Hkm Hch Hhs; cbn [find_addr_table].
  { exists f, c, l, [], [], [], []. rewrite drop_ge, take_ge by lia. split_and!; [done|done|by rewrite app_nil_r|].
    apply (addr_result_table (hash_table c)), addr_result_nil; [by destruct Hch|cbn [concat]; by_nil]. }
  destruct (lookup_lt_is_Some_2 (hash_table c) k) as [b Hb]; [lia|]. pose proof (take_drop_middle _ _ _ Hb) as Htab.
  assert (nth k (hash_table c) [] = b) as Hnth by (by apply nth_lookup_Some).
  assert (drop k (hash_table c) = b :: drop (S k) (hash_table c)) as Hdrop by (by apply drop_S). rewrite Hdrop in Hhs |- *. cbn [concat] in *.
  rewrite bucket_nth, Hnth.
  destruct (find_addr_loop_ok k nc b (hash_table c) c l [] f hs0 W) as (kept & f1 & c1 & l1 & ms1 & hs1 & ids1 & -> & W1 & R1);
    [lia|by rewrite Hnth|done|intros j Hj Hjb; apply (Hhs j Hj); set_solver|]. cbn [mbind comp_bind app] in *.
  pose proof (se_table _ _ _ _ _ _ (ar_searched _ _ _ _ _ _ _ _ _ _ _ _ R1)) as Ht1. set (c2 := set_bucket c1 (Z.of_nat k) kept).
  assert (hash_table c2 = take k (hash_table c) ++ kept :: drop (S k) (hash_table c)) as Ht2.
  { unfold c2, set_bucket. cbn. rewrite Nat2Z.id, Ht1. by apply insert_take_drop; lia. }
  assert (wf c2 l1 nc) as W2 by (by apply (wf_set_bucket mix_tab (hash_table c) c)).
  assert (length (take k (hash_table c)) = k) as Hlk by (rewrite length_take; lia).
  assert (drop (S k) (hash_table c2) = drop (S k) (hash_table c)) as Hd2.
  { rewrite Ht2, drop_app_ge, Hlk by lia. replace (S k - k)%nat with 1%nat by lia. done. }
  assert (take (S k) (hash_table c2) = take k (hash_table c) ++ [kept]) as Hk2.
  { rewrite Ht2, take_app_ge, Hlk by lia. replace (S k - k)%nat with 1%nat by lia. done. }
  assert (forall j, j ∈ b -> j ∉ concat (drop (S k) (hash_table c))) as Hdis.
  { pose proof (wf_once _ _ _ _ _ W) as Hnd. rewrite <- Htab, concat_app in Hnd. cbn [concat] in Hnd.
    apply NoDup_app in Hnd as (_ & _ & Hnd). by apply NoDup_app in Hnd as (_ & Hnd & _). }
  destruct (IH (S k) c2 l1 f1 (hs0 ++ hs1) W2) as (f' & c' & l' & ms & hs & ids & tl & -> & W' & Ht' & R).
  - rewrite Ht2, length_app, Hlk. cbn [length]. rewrite length_drop. lia.
  - destruct R1 as [_ [] _ _ _ _ _ _ _]. by split.
  - rewrite Hd2. intros j [Hj|Hj]%elem_of_app Hjd; [apply (Hhs j Hj); set_solver|].
    destruct (ar_answers _ _ _ _ _ _ _ _ _ _ _ _ R1 j) as (Hjb & _); [set_solver|]. by apply (Hdis j).
  - rewrite Hd2 in R. rewrite Hk2, <- app_assoc in Ht'. cbn [app] in Ht'.
    eexists f', c', l', _, _, _, (kept :: tl). split; [done|]. split; [done|]. split; [done|]. cbn [concat].
    eapply addr_result_trans; [exact R1| |done]. rewrite <- Ht1 at 1. apply (addr_result_table (hash_table c2)). exact R.
Qed.

(** ** All the answers *)

(** [while ((crecp = cache_find_by_addr(crecp, &addr, now, prot)))] *)
Fixpoint find_all_addr (fuel : nat) (c : cache) (crecp : option ptr) : comp (list ptr * cache) :=
  match fuel with
  | O => Fault NoFuel
  | S fuel' =>
      '(r, c) ← cache_find_by_addr c crecp a now prot;
      match r with
      | None => Ok ([], c)
      | Some i => '(ids, c) ← find_all_addr fuel' c (Some i); mret (i :: ids, c)
      end
  end.

Lemma addr_answer_match rs c i r : recs c !! i = Some r -> (used r = true -> addr_ok rs r) ->
  addr_answer c (Some i) (Some (CAddr a)) prot = Ok (if addr_match a prot r then Some i else None).
Proof.
  intros Hr Ha. unfold addr_answer, getr. rewrite Hr. cbn [of_option mbind comp_bind]. pose proof (fold_addr_match rs r) as Hf. unfold addr_match in *.
  destruct (has (cflags r) F_REVERSE) eqn:E; [|done]. cbn [andb] in *.
  assert (used r = true) as Hu by (unfold used; by rewrite has_lor, E, orb_true_r). specialize (Hf (Ha Hu) eq_refl).
  destruct (has (cflags r) prot); [|done]. rewrite Hf. done.
Qed.

Lemma find_rest_addr good : forall fuel c i bad, sseg (nxt (lru c)) (i :: good ++ bad) None -> (length good < fuel)%nat ->
  (forall j, j ∈ good -> exists r, recs c !! j = Some r /\ addr_match a prot r = true /\ (used r = true -> addr_ok (recs c) r)) ->
  (forall j, head bad = Some j -> exists r, recs c !! j = Some r /\ addr_match a prot r = false /\ (used r = true -> addr_ok (recs c) r)) ->
  find_all_addr fuel c (Some i) = Ok (good, c).
Proof.
  induction good as [|j good IH]; intros fuel c i bad Hs Hf Hg Hb; destruct fuel as [|fuel]; cbn [length] in Hf; try lia;
    cbn [find_all_addr]; unfold cache_find_by_addr; cbn [app sseg] in Hs; destruct Hs as [Hn Hs]; rewrite Hn; cbn [mbind comp_bind].
  - destruct bad as [|j bad]; [done|]. cbn [hd_or]. destruct (Hb j eq_refl) as (r & Hr & Hm & Ha). by rewrite (addr_answer_match (recs c) c j r), Hm by done.
  - cbn [hd_or]. destruct (Hg j) as (r & Hr & Hm & Ha); [by left|]. rewrite (addr_answer_match (recs c) c j r), Hm by done. cbn [mbind comp_bind mret comp_ret].
    rewrite (IH fuel c j bad); [done|done|lia|intros k Hk; apply Hg; by right|done].
Qed.

(** The state after the first search. *)
Lemma first_search_addr c l nc : wf c l nc ->
  exists hs ms rest c' l', l' = ms ++ rest /\ wf c' l' nc /\ l' ≡ₚ l /\ sseg (nxt (lru c')) (hs ++ ms ++ rest) None /\ NoDup (hs ++ ms) /\
    cache_find_by_addr c None a now prot = ('(r) ← addr_answer c' (head (hs ++ ms ++ rest)) (Some (CAddr a)) prot; mret (r, c')) /\
    (forall j, j ∈ hs ++ ms -> exists r, recs c !! j = Some r /\ recs c' !! j = Some r /\ j ∈ concat (hash_table c) /\ wanted r) /\
    (forall j, head rest = Some j -> exists r, recs c' !! j = Some r /\ addr_match a prot r = false) /\
    (forall j r, j ∈ concat (hash_table c) -> recs c !! j = Some r -> wanted r -> j ∈ hs ++ ms).
Proof.
  intros W. destruct (find_addr_table_ok nc (length (hash_table c)) 0 c l (Found None None) []) as (f1 & c1 & l1 & ms & hs & ids & tl & Hrun & W1 & Ht1 & R);
    [done|done|by split; try done; try by_nil; constructor|by_nil|].
  cbn [take drop app] in Ht1, R. destruct R as [Hse Hch Hsub Hans Hfreed Hall Hfresh Hnd Hdyn]. cbn [app] in Hch.
  destruct (chain_end_ok mix_tab c1 l1 nc f1 hs W1) as (c' & Hto & W' & Hss & Hrecs' & Ht' & He'); [by destruct Hch; split|].
  set (rest := filter (fun j => j ∉ ms ++ ids) l ++ ids). assert (l1 = ms ++ rest) as Hl1 by apply (se_list _ _ _ _ _ _ Hse).
  assert (forall j, j ∉ ids -> recs c1 !! j = recs c !! j) as Hkeep by apply (se_keep _ _ _ _ _ _ Hse).
  assert (forall j, j ∈ hs -> j ∉ ms) as Hdisj.
  { intros j Hj Hjm. apply (ch_out _ _ _ _ _ Hch j) in Hj as [Hj _]. apply Hj. rewrite Hl1. set_solver. }
  exists hs, ms, rest, c', l1. rewrite <- Hl1. split_and!; try done.
  - apply NoDup_Permutation; [by destruct (wf_lru _ _ _ _ _ W1) as (_ & _ & ? & _)|by destruct (wf_lru _ _ _ _ _ W) as (_ & _ & ? & _)|].
    intros j. by apply (searched_in _ _ _ _ _ _ j Hse).
  - apply NoDup_app; split_and!; [apply Hch|done|done].
  - unfold cache_find_by_addr. rewrite Hrun. cbn [mbind comp_bind]. by rewrite Hto.
  - intros j Hj. destruct (Hans j) as (Hj1 & Hj2 & r & Hr & Hw); [set_solver|]. exists r. split_and!; [done| |done|apply Hw|apply Hw].
    rewrite Hrecs', Hkeep; [done|]. intros Hji. by apply (Hfreed j).
  - intros j Hj. rewrite Hrecs'. assert (j ∈ rest) as Hjr by (destruct rest; [done|]; injection Hj as ->; by left).
    assert (j ∈ l1) as Hjl by (rewrite Hl1; set_solver). destruct (wf_recs _ _ _ _ _ W1 j) as [r Hr]; [by right; left|].
    exists r. split; [done|]. destruct (addr_match a prot r) eqn:Hm; [|done]. exfalso.
    assert (used r = true) as Hu by (unfold used; rewrite has_lor; unfold addr_match in Hm; by destruct (has (cflags r) F_REVERSE); rewrite ?orb_true_r).
    pose proof (wf_used _ _ _ _ _ W1 j r Hr Hjl Hu) as Hjt. rewrite Ht1 in Hjt.
    destruct (decide (j ∈ ids)) as [Hji|Hji]; [by apply (Hfreed j)|]. rewrite Hkeep in Hr by done.
    assert (j ∈ ms ++ hs) as Hin.
    { apply (Hall j r); [by eapply sublist_subseteq|done|]. split; [done|]. by apply (Hfresh j r). }
    apply elem_of_app in Hin as [Hin|Hin]; [|by destruct (ch_out _ _ _ _ _ Hch j Hin)].
    unfold rest in Hjr. rewrite elem_of_app, list_elem_of_filter in Hjr. destruct Hjr as [[Hno _]|]; [set_solver|done].
  - intros j r Hj Hr Hw. pose proof (Hall j r Hj Hr Hw). set_solver.
Qed.

Lemma find_all_addr_ok c l nc : wf c l nc ->
  exists res c' l', find_all_addr (S (S (size (recs c)))) c None = Ok (res, c') /\ wf c' l' nc /\ l' ≡ₚ l /\ NoDup res /\
    (forall j, j ∈ res <-> exists r, recs c !! j = Some r /\ j ∈ concat (hash_table c) /\ wanted r).
Proof.
  intros W. destruct (first_search_addr c l nc W) as (hs & ms & rest & c' & l' & Hl' & W' & Hperm & Hss & Hnd & Heq & Hsound & Hrest & Hcompl).
  assert (forall j r, (j ∈ hs ++ ms \/ head rest = Some j) -> recs c' !! j = Some r -> used r = true -> addr_ok (recs c') r) as Haddr.
  { intros j r Hj Hr Hu. destruct (decide (j ∈ l')) as [Hjl|Hjl]; [apply (wf_addr _ _ _ _ _ W' j r Hr); by apply (wf_used _ _ _ _ _ W' j r)|].
    destruct Hj as [Hj|Hj].
    - destruct (Hsound j Hj) as (r' & Hr1 & Hr2 & Hjt & _). assert (r' = r) as -> by congruence.
      pose proof (wf_addr _ _ _ _ _ W j r Hr1 Hjt) as Ha. unfold addr_ok in *. destruct (has (cflags r) F_CNAME) eqn:Ec; [|done].
      destruct Ha as [Hrev _]. destruct (Hsound j Hj) as (r'' & Hr3 & _ & _ & Hm & _). assert (r'' = r) as -> by congruence.
      unfold addr_match in Hm. by rewrite Hrev in Hm.
    - destruct Hjl. rewrite Hl'. apply elem_of_app. right. destruct rest; [done|]. injection Hj as ->. by left. }
  exists (hs ++ ms), c', l'. split_and!; try done.
  2: { intros j. split; [|intros (r & Hr & Hj & Hw); by apply (Hcompl j r)]. intros Hj. destruct (Hsound j Hj) as (r & Hr & _ & Hjt & Hw). by exists r. }
  remember (S (size (recs c))) as m eqn:Em. cbn [find_all_addr]. rewrite Heq.
  assert (length (hs ++ ms) <= size (recs c))%nat as Hlen by (apply nodup_size; [done|]; intros j Hj; destruct (Hsound j Hj) as (r & Hr & _); eauto).
  rewrite app_assoc in Hss |- *. destruct (hs ++ ms) as [|i good].
  - cbn [app head]. destruct rest as [|j rest]; [done|]. destruct (Hrest j eq_refl) as (r & Hr & Hm). cbn [head].
    rewrite (addr_answer_match (recs c') c' j r), Hm; [done|done|]. apply (Haddr j); [by right|done].
  - cbn [app head]. destruct (Hsound i) as (r & _ & Hr & _ & Hm & _); [by left|].
    rewrite (addr_answer_match (recs c') c' i r), Hm; [|done|apply (Haddr i); [left; by left|done]]. cbn [mbind comp_bind mret comp_ret].
    rewrite (find_rest_addr good m c' i rest); [done|done|cbn in Hlen; lia| |].
    + intros j Hj. destruct (Hsound j) as (rj & _ & Hrj & _ & Hmj & _); [by right|]. exists rj. split_and!; [done|done|]. apply (Haddr j); [left; by right|done].
    + intros j Hj. destruct (Hrest j Hj) as (rj & Hrj & Hm'). exists rj. split_and!; [done|done|]. apply (Haddr j); [by right|done].
Qed.
End addr.

(** Searching by address finds the records of the table that have the
    address, are of a wanted type and have time left to live, each of them
    once, and nothing else, whichever bucket they are in; the loop of the
    callers ends, and the cache stays well formed. *)
Theorem find_by_addr_correct mix_tab now a prot c l nc : wf mix_tab c l nc ->
  exists res c' l', find_all_addr now a prot (S (S (size (recs c)))) c None = Ok (res, c') /\ wf mix_tab c' l' nc /\ NoDup res /\
    (forall i, i ∈ res <-> exists r, recs c !! i = Some r /\ i ∈ concat (hash_table c) /\ addr_match a prot r = true /\ is_expired now r = false).
Proof.
  intros W. destruct (find_all_addr_ok mix_tab now a prot c l nc W) as (res & c' & l' & ? & ? & _ & ? & ?). by exists res, c', l'.
Qed.

Lemma find_by_addr_correct_witness : exists c i c1 res c', cache_init demo_mix 2 = Ok c /\
  insert_one demo_mix demo_clobbered 0 true c (Some (lit "a.org")) (Some (1, 2, 3, 4)) 100 60 F_A = Ok (Some i, c1) /\
  find_all_addr 159 (1, 2, 3, 4) F_IPV4 (S (S (size (recs c1)))) c1 None = Ok (res, c') /\ NoDup res.
Proof.
  destruct (cache_init_ok demo_mix 2) as (c & l & Hc & W & Hl & _ & Ht); [lia|]. destruct (demo_sure c l Ht Hl) as [Hsp Hne].
  destruct (insert_one_ok demo_mix demo_clobbered 0 true c l [] (lit "a.org") (1, 2, 3, 4) 100 60 F_A W) as (i & c1 & l1 & r & H1 & W1 & _);
    [by split; eauto|by left; vm_compute|exact Hsp|exact Hne|done|].
  destruct (find_by_addr_correct demo_mix 159 (1, 2, 3, 4) F_IPV4 c1 l1 [] W1) as (res & c' & l' & H2 & _ & Hnd & _).
  exists c, i, c1, res, c'. split_and!; [exact Hc|exact H1|exact H2|exact Hnd].
Defined.

(** A reverse record is found, and is not any longer when it has expired. *)
Example found_by_addr :
  (c ← cache_init demo_mix 2;
   '(_, c) ← insert_one demo_mix demo_clobbered 0 true c (Some (lit "a.org")) (Some (1, 2, 3, 4)) 100 60 (Z.lor F_IPV4 F_REVERSE);
   '(res1, c) ← find_all_addr 159 (1, 2, 3, 4) F_IPV4 9 c None;
   '(res2, _) ← find_all_addr 161 (1, 2, 3, 4) F_IPV4 9 c None; mret (res1, res2)) = Ok ([1%positive], []).
Proof. vm_compute. reflexivity. Qed.
