(* ===== verification/DmAnswer.v ===== *)
(** dnsmasq's rfc1035.c, third part: what a reply leaves in the cache
    ([extract_addresses]), and the addresses that are not believed. *)
From S2P Require Import Prelude CString Dns Common DmUtil DmName DmPacket DmLru DmCache DmCacheInv DmCacheOps.
Set Warnings "-clear-no-such-hyp,-notation-for-abbreviation".

Definition ULONG_MAX : Z := 0xffffffff.

(** * Aliases in the cache *)

Definition with_addr (a : caddr) (r : crec) : crec := Crec a (ttd r) (cuid r) (cflags r) (cname r).

(** [p->addr.cname.cache = i; p->addr.cname.uid = i->uid;] *)
Definition point (c : cache) (p i : ptr) : comp cache :=
  rp ← getr c p; ri ← getr c i; mret (putr c p (with_addr (CName (Some i) (cuid ri)) rp)).

Definition point_opt (c : cache) (cpp newc : option ptr) : comp cache :=
  match newc, cpp with Some i, Some p => point c p i | _, _ => Ok c end.

(** * Replies *)

(** What the loops over the answers change. *)
Record est := Est { e_buf : list Z; e_name : list Z; e_cache : cache; e_cpp : option ptr; e_cttl : Z; e_found : bool }.
Definition set_name (v : list Z) (e : est) : est := Est (e_buf e) v (e_cache e) (e_cpp e) (e_cttl e) (e_found e).

(** How a round over the answers ends: at its end, with a jump back to its
    start, or with the function. *)
Inductive flow := Fall | Again | Ret (v : Z).

Section extract.
Context (mix_tab : Z -> Z) (clobbered : Z -> list Z -> list Z) (max_cache_ttl max_ttl neg_ttl : Z) (doctors : list doctor).
Context (can_malloc : cache -> bool) (log no_neg local_rebind : bool).

Definition insert (c : cache) (name : option (list Z)) (addr : option in_addr) (now ttl flags : Z) : comp (option ptr * cache) :=
  cache_insert mix_tab clobbered max_cache_ttl (can_malloc c) c name addr now ttl flags.

(** An alias: its target is not known yet, and it is the target of the last
    one. *)
Definition insert_alias (c : cache) (cpp : option ptr) (name : list Z) (now ttl : Z) : comp (option ptr * cache) :=
  '(newc, c) ← insert c (Some name) None now ttl (Z.lor F_CNAME F_FORWARD);
  match newc with
  | None => mret (None, c)
  | Some i =>
      r ← getr c i;
      let c := putr c i (with_addr (CName None (match cr_addr r with CName _ u => u | CAddr _ => 0 end)) r) in
      c ← point_opt c cpp (Some i);
      mret (Some i, c)
  end.

Section reply.
Context (qlen now : Z) (is_sign check_rebind : bool).

(** Type, class, lifetime and where the record ends; lifetimes that are too
    long are cut down in the packet. *)
Definition answer_fixed (buf : list Z) (p1 : Z) : comp (Z * Z * Z * Z * list Z) :=
  aqtype ← rd16 buf p1; aqclass ← rd16 buf (p1 + 2); attl ← rd32 buf (p1 + 4);
  buf ← (if negb (max_ttl =? 0) && (max_ttl <? attl) && negb is_sign then PUTLONG buf (p1 + 4) max_ttl else mret buf);
  ardlen ← rd16 buf (p1 + 8);
  mret (aqtype, aqclass, attl, p1 + 10 + ardlen, buf).

(** The answers to a reverse query; [namep] is where its name is. *)
Fixpoint ptr_answers (j : nat) (namep p1 : Z) (addr : in_addr) (name_encoding : Z) (e : est) : comp (flow * est) :=
  match j with
  | O => Ok (Fall, e)
  | S j' =>
      '(r, _, name) ← extract_name (e_buf e) qlen namep (e_name e) true 0;
      if r =? 0 then Ok (Ret 0, set_name name e)
      else
        '(res, p1, name) ← extract_name (e_buf e) qlen p1 name false 10;
        if res =? 0 then Ok (Ret 0, set_name name e)
        else
          '(aqtype, aqclass, attl, endrr, buf) ← answer_fixed (e_buf e) p1;
          let e := Est buf name (e_cache e) (e_cpp e) (Z.min (e_cttl e) attl) (e_found e) in
          '(fl, e) ←
            (if (aqclass =? C_IN) && negb (res =? 2) && ((aqtype =? T_CNAME) || (aqtype =? T_PTR)) then
               '(r, _, name) ← extract_name buf qlen (p1 + 10) name true 0;
               let e := set_name name e in
               if r =? 0 then mret (Ret 0, e)
               else if aqtype =? T_CNAME then mret (Again, e)
               else
                 '(_, c) ← insert (e_cache e) (Some (cstr name)) (Some addr) now (e_cttl e) (Z.lor name_encoding F_REVERSE);
                 mret (Fall, Est buf name c (e_cpp e) (e_cttl e) true)
             else mret (Fall, e));
          match fl with
          | Fall => if negb (CHECK_LEN endrr qlen 0) then Ok (Ret 0, e) else ptr_answers j' namep endrr addr name_encoding e
          | _ => Ok (fl, e)
          end
  end.

(** [cname_loop]; [cname_count] is how often it may still start again. *)
Fixpoint ptr_loop (cname_count : nat) (namep : Z) (addr : in_addr) (name_encoding : Z) (e : est) : comp (flow * est) :=
  p ← skip_questions (e_buf e) qlen;
  match p with
  | None => Ok (Ret 0, e)
  | Some p1 =>
      an ← ancount (e_buf e);
      '(fl, e) ← ptr_answers (Z.to_nat an) namep p1 addr name_encoding e;
      match fl with
      | Again => match cname_count with O => Ok (Ret 0, e) | S cname_count' => ptr_loop cname_count' namep addr name_encoding e end
      | _ => Ok (fl, e)
      end
  end.

(** The answers to a query for addresses; [again] is whether the loop may
    start again. *)
Fixpoint addr_answers (j : nat) (again : bool) (p1 : Z) (flags : Z) (e : est) : comp (flow * est) :=
  match j with
  | O => Ok (Fall, e)
  | S j' =>
      '(res, p1, name) ← extract_name (e_buf e) qlen p1 (e_name e) false 10;
      let e := set_name name e in
      if res =? 0 then Ok (Ret 0, e)
      else
        '(aqtype, aqclass, attl, endrr, buf) ← answer_fixed (e_buf e) p1;
        let e := Est buf name (e_cache e) (e_cpp e) (e_cttl e) (e_found e) in
        '(fl, e) ←
          (if (aqclass =? C_IN) && negb (res =? 2) && ((aqtype =? T_CNAME) || (aqtype =? T_A)) then
             if aqtype =? T_CNAME then
               if negb again then mret (Ret 0, e)
               else
                 '(newc, c) ← insert_alias (e_cache e) (e_cpp e) (cstr name) now attl;
                 '(r, _, name) ← extract_name buf qlen (p1 + 10) name true 0;
                 let e := Est buf name c newc (Z.min (e_cttl e) attl) (e_found e) in
                 mret (if r =? 0 then Ret 0 else Again, e)
             else
               let e := Est buf name (e_cache e) (e_cpp e) (e_cttl e) true in
               if negb (CHECK_LEN (p1 + 10) qlen INADDRSZ) then mret (Ret 0, e)
               else
                 addr ← rd_addr buf (p1 + 10);
                 if check_rebind && has flags F_IPV4 && private_net addr (negb local_rebind) then mret (Ret 1, e)
                 else
                   '(newc, c) ← insert (e_cache e) (Some (cstr name)) (Some addr) now attl (Z.lor flags F_FORWARD);
                   c ← point_opt c (e_cpp e) newc;
                   mret (Fall, Est buf name c None (e_cttl e) true)
           else mret (Fall, e));
        match fl with
        | Fall => if negb (CHECK_LEN endrr qlen 0) then Ok (Ret 0, e) else addr_answers j' again endrr flags e
        | _ => Ok (fl, e)
        end
  end.

(** [cname_loop1] *)
Fixpoint addr_loop (cname_count : nat) (flags : Z) (e : est) : comp (flow * est) :=
  p ← skip_questions (e_buf e) qlen;
  match p with
  | None => Ok (Ret 0, e)
  | Some p1 =>
      an ← ancount (e_buf e);
      '(fl, e) ← addr_answers (Z.to_nat an) (match cname_count with O => false | _ => true end) p1 flags e;
      match fl with
      | Again => match cname_count with O => Ok (Ret 0, e) | S cname_count' => addr_loop cname_count' flags e end
      | _ => Ok (fl, e)
      end
  end.

(** The lifetime of negative answers, which is looked for once. *)
Definition search_soa (searched_soa : bool) (ttl : Z) (e : est) : comp (Z * est) :=
  if searched_soa then Ok (ttl, e)
  else '(ttl, buf, name) ← find_soa doctors qlen neg_ttl (e_buf e) false (e_name e);
       mret (ttl, Est buf name (e_cache e) (e_cpp e) (e_cttl e) (e_found e)).

(** One question; [addr] is what is left there by the last one. *)
Definition do_question (p qtype : Z) (namep : Z) (searched_soa : bool) (ttl : Z) (addr : in_addr) (e : est)
  : comp (flow * bool * Z * in_addr * est) :=
  h4 ← hb4 (e_buf e);
  let flags := if RCODE h4 =? NXDOMAIN then F_NXDOMAIN else 0 in
  if qtype =? T_PTR then
    let '(name_encoding, addr) := in_arpa_name_2_addr (cstr (e_name e)) addr in
    if name_encoding =? 0 then mret (Fall, searched_soa, ttl, addr, e)
    else
      '(fl, e) ← (if negb (has flags F_NXDOMAIN) then ptr_loop 5 namep addr name_encoding e else mret (Fall, e));
      match fl with
      | Fall =>
          if negb (e_found e) && negb no_neg then
            '(ttl, e) ← search_soa searched_soa ttl e;
            c ← (if negb (ttl =? 0)
                 then '(_, c) ← insert (e_cache e) None (Some addr) now ttl (Z.lor (Z.lor name_encoding F_REVERSE) (Z.lor F_NEG flags)); mret c
                 else mret (e_cache e));
            mret (Fall, true, ttl, addr, Est (e_buf e) (e_name e) c (e_cpp e) (e_cttl e) (e_found e))
          else mret (Fall, searched_soa, ttl, addr, e)
      | _ => mret (fl, searched_soa, ttl, addr, e)
      end
  else if qtype =? T_A then
    let flags := Z.lor flags F_IPV4 in
    '(fl, e) ← (if negb (has flags F_NXDOMAIN) then addr_loop 5 flags e else mret (Fall, e));
    match fl with
    | Fall =>
        if negb (e_found e) && negb no_neg then
          '(ttl, e) ← search_soa searched_soa ttl e;
          c ← (if negb (ttl =? 0) || bool_decide (is_Some (e_cpp e)) then
                 '(newc, c) ← insert (e_cache e) (Some (cstr (e_name e))) None now (if negb (ttl =? 0) then ttl else e_cttl e)
                                (Z.lor (Z.lor F_FORWARD F_NEG) flags);
                 point_opt c (e_cpp e) newc
               else mret (e_cache e));
          mret (Fall, true, ttl, addr, Est (e_buf e) (e_name e) c (e_cpp e) (e_cttl e) (e_found e))
        else mret (Fall, searched_soa, ttl, addr, e)
    | _ => mret (fl, searched_soa, ttl, addr, e)
    end
  else mret (Fall, searched_soa, ttl, addr, e).

Fixpoint questions (q : nat) (p : Z) (searched_soa : bool) (ttl : Z) (addr : in_addr) (e : est) : comp (flow * est) :=
  match q with
  | O => Ok (Fall, e)
  | S q' =>
      let namep := p in
      '(r, p, name) ← extract_name (e_buf e) qlen p (e_name e) true 4;
      let e := Est (e_buf e) name (e_cache e) None ULONG_MAX false in
      if r =? 0 then Ok (Ret 0, e)
      else
        qtype ← rd16 (e_buf e) p; qclass ← rd16 (e_buf e) (p + 2);
        let p := p + 4 in
        if negb (qclass =? C_IN) then questions q' p searched_soa ttl addr e
        else
          '(fl, searched_soa, ttl, addr, e) ← do_question p qtype namep searched_soa ttl addr e;
          match fl with
          | Ret v => Ok (Ret v, e)
          | _ => questions q' p searched_soa ttl addr e
          end
  end.

(** What is returned, the packet, the name buffer and the cache. *)
Definition extract_addresses (buf : list Z) (name : list Z) (c : cache) (checking_disabled : bool) : comp (Z * list Z * list Z * cache) :=
  c ← cache_start_insert c;
  let searched_soa := bool_decide (doctors <> []) || log in
  '(ttl, buf, name) ← (if searched_soa then find_soa doctors qlen neg_ttl buf log name else mret (0, buf, name));
  qd ← qdcount buf;
  '(fl, e) ← questions (Z.to_nat qd) HEADER searched_soa ttl (0, 0, 0, 0) (Est buf name c None ULONG_MAX false);
  match fl with
  | Ret v => mret (v, e_buf e, e_name e, e_cache e)
  | _ =>
      h3 ← hb3 (e_buf e); h4 ← hb4 (e_buf e);
      c ← (if negb (has h3 HB3_TC) && negb (has h4 HB4_CD) && has h4 HB4_RA && negb checking_disabled
           then cache_end_insert mix_tab (e_cache e) else mret (e_cache e));
      mret (0, e_buf e, e_name e, c)
  end.
End reply.
End extract.

(** * The cache during an insertion *)

Section cache_side.
Context (mix_tab : Z -> Z) (clobbered : Z -> list Z -> list Z) (max_cache_ttl : Z) (can_malloc : cache -> bool).
Local Notation wf := (wf mix_tab).

(** The cache is well formed, it has [n] records of its own, and the last alias
    of the insertion that is going on is [cpp]. *)
Definition cstate (n : nat) (c : cache) (cpp : option ptr) : Prop :=
  exists l nc, wf c l nc /\ linked c nc /\ length (l ++ nc) = n /\
    (forall p, cpp = Some p -> p ∈ nc /\ exists r, recs c !! p = Some r /\ has (cflags r) F_CNAME = true /\ has (cflags r) F_REVERSE = false).

Lemma cstate_none n c cpp : cstate n c cpp -> cstate n c None.
Proof. intros (l & nc & ? & ? & ? & _). by exists l, nc. Qed.

(** The address of a record of the insertion changes. *)
Lemma set_addr_ok c l nc p rp a : wf c l nc -> p ∈ nc -> recs c !! p = Some rp -> wf (putr c p (with_addr a rp)) l nc.
Proof.
  intros W Hp Hr. pose proof (new_free _ _ _ _ _ W Hp) as Hpt.
  assert (forall j, is_Some (recs c !! j) -> is_Some (<[p := with_addr a rp]> (recs c) !! j)) as Hdom.
  { intros j Hj. destruct (decide (j = p)) as [->|Hne]; [rewrite lookup_insert_eq; eauto|by rewrite lookup_insert_ne]. }
  split; unfold putr, with_recs; cbn [recs lru hash_table new_chain]; try apply W.
  - intros j Hj. by apply Hdom, (wf_recs _ _ _ _ _ W).
  - intros m j rj Hj. rewrite lookup_insert_ne by (intros <-; by apply (not_in_bucket _ p m) in Hpt). by apply W.
  - intros j rj Hrj Hj. rewrite lookup_insert_ne in Hrj by (by intros <-). by apply (wf_hashed _ _ _ _ _ W j).
  - intros j rj Hrj Hj Hu. assert (j <> p) as Hne by (intros ->; exact (not_in_both _ _ p (wf_nodup _ _ _ _ _ W) Hj Hp)).
    rewrite lookup_insert_ne in Hrj by done. by apply (wf_used _ _ _ _ _ W j rj).
  - intros j rj Hrj Hj. rewrite lookup_insert_ne in Hrj by (by intros <-). by apply (wf_fixed _ _ _ _ _ W j).
  - intros j rj Hrj Hj. destruct (decide (j = p)) as [->|Hne].
    + rewrite lookup_insert_eq in Hrj. injection Hrj as <-. by apply (wf_dyn _ _ _ _ _ W p rp).
    + rewrite lookup_insert_ne in Hrj by done. by apply (wf_dyn _ _ _ _ _ W j).
  - intros j rj Hrj Hj. rewrite lookup_insert_ne in Hrj by (by intros <-). eapply addr_ok_mono; [exact Hdom|]. by apply (wf_addr _ _ _ _ _ W j).
  - intros j rj Hrj Hj. destruct (decide (j = p)) as [->|Hne].
    + rewrite lookup_insert_eq in Hrj. injection Hrj as <-. by apply (wf_new _ _ _ _ _ W p rp).
    + rewrite lookup_insert_ne in Hrj by done. by apply (wf_new _ _ _ _ _ W j).
  - intros m. apply order_insert; [by apply not_in_bucket|apply W].
Qed.

(** Records stay known. *)
Lemma known_putr c p rp a : recs c !! p = Some rp -> forall j, is_Some (recs c !! j) -> is_Some (recs (putr c p (with_addr a rp)) !! j).
Proof.
  intros Hr j Hj. unfold putr, with_recs. cbn [recs]. destruct (decide (j = p)) as [->|Hne]; [rewrite lookup_insert_eq; eauto|by rewrite lookup_insert_ne].
Qed.

Lemma set_addr_linked c nc p rp a : linked c nc -> recs c !! p = Some rp -> addr_ok (recs c) (with_addr a rp) ->
  linked (putr c p (with_addr a rp)) nc.
Proof.
  intros Hlk Hr Ha j rj Hj Hrj. eapply addr_ok_mono; [by apply known_putr|]. unfold putr, with_recs in Hrj. cbn [recs] in Hrj.
  destruct (decide (j = p)) as [->|Hne]; [rewrite lookup_insert_eq in Hrj; by injection Hrj as <-|].
  rewrite lookup_insert_ne in Hrj by done. by apply (Hlk j).
Qed.

Lemma point_opt_ok n c cpp newc : cstate n c cpp -> (forall i, newc = Some i -> is_Some (recs c !! i)) ->
  exists c', point_opt c cpp newc = Ok c' /\ cstate n c' cpp /\ (forall j r, recs c !! j = Some r -> exists a, recs c' !! j = Some (with_addr a r)) /\
    (forall l nc, wf c l nc -> linked c nc -> (forall p, cpp = Some p -> p ∈ nc) -> wf c' l nc /\ linked c' nc).
Proof.
  intros (l & nc & W & Hlk & Hn & Hcpp) Hnew.
  assert (forall j r, recs c !! j = Some r -> exists a, recs c !! j = Some (with_addr a r)) as Hid.
  { intros j r Hr. exists (cr_addr r). rewrite Hr. by destruct r. }
  destruct newc as [i|]; [|exists c; split_and!; [done|by exists l, nc|done|done]].
  destruct cpp as [p|]; [|exists c; split_and!; [done|by exists l, nc|done|done]].
  destruct (Hcpp p eq_refl) as (Hp & r & Hr & Hc & Hrev). destruct (Hnew i eq_refl) as [ri Hri].
  cbn [point_opt]. unfold point, getr. rewrite Hr, Hri. cbn [of_option mbind comp_bind mret comp_ret].
  assert (addr_ok (recs c) (with_addr (CName (Some i) (cuid ri)) r)) as Ha by (unfold addr_ok; cbn [with_addr cflags cr_addr]; rewrite Hc; eauto).
  eexists. split; [reflexivity|]. split_and!.
  - exists l, nc. split_and!; [by apply set_addr_ok|by apply set_addr_linked|done|]. intros p' [= <-]. split; [done|].
    eexists. split; [unfold putr, with_recs; cbn [recs]; apply lookup_insert_eq|done].
  - intros j rj Hrj. unfold putr, with_recs. cbn [recs]. destruct (decide (j = p)) as [->|Hne].
    + rewrite lookup_insert_eq. assert (rj = r) as -> by congruence. eauto.
    + rewrite lookup_insert_ne by done. by apply Hid.
  - intros l1 nc1 W1 Hlk1 Hp1. split; [apply set_addr_ok; auto|by apply set_addr_linked].
Qed.

Lemma insert_ok n c cpp name addr now ttl flags : cstate n c cpp -> insertable name addr flags ->
  (has flags F_REVERSE = true -> is_Some addr) ->
  exists newc c', insert mix_tab clobbered max_cache_ttl can_malloc c name addr now ttl flags = Ok (newc, c') /\
    exists l nc, wf c' l (match newc with Some i => i :: nc | None => nc end) /\ linked c' nc /\
      length (l ++ match newc with Some i => i :: nc | None => nc end) = n /\
      (forall p, cpp = Some p -> p ∈ nc /\ exists r, recs c' !! p = Some r /\ has (cflags r) F_CNAME = true /\ has (cflags r) F_REVERSE = false) /\
      (forall i, newc = Some i -> exists r, recs c' !! i = Some r /\ (forall f, Z.land F_BIGNAME f = 0 -> has (cflags r) f = has flags f) /\
        (has flags F_CNAME = false -> addr_ok (recs c') r)).
Proof.
  intros (l & nc & W & Hlk & Hn & Hcpp) Hin Hrev. unfold insert. destruct (insert_error c) eqn:He.
  { exists None, c. split; [unfold cache_insert; by rewrite He|]. exists l, nc. by split_and!. }
  destruct (cache_insert_ok mix_tab clobbered max_cache_ttl (can_malloc c) c l nc name addr now ttl flags W Hin He) as (cs & l' & ids & Hs & Hres).
  pose proof (scanned_perm _ _ _ _ _ _ _ W Hs) as Hperm. pose proof (sc_evolve _ _ _ _ _ _ _ Hs) as Hev.
  assert (forall j, j ∈ nc -> recs cs !! j = recs c !! j) as Hkeep.
  { intros j Hj. apply (ev_keep _ _ _ _ _ Hev). intros Hji. apply (new_free _ _ _ _ _ W Hj), (sc_ids _ _ _ _ _ _ _ Hs j Hji). }
  assert (forall j, is_Some (recs c !! j) -> is_Some (recs cs !! j)) as Hdom.
  { intros j Hj. destruct (decide (j ∈ ids)) as [Hji|Hji]; [destruct (ev_freed _ _ _ _ _ Hev j Hji) as (? & ? & _ & Hr & _); cbn in Hr; eauto|].
    by rewrite (ev_keep _ _ _ _ _ Hev j Hji : recs cs !! j = _). }
  assert (linked cs nc) as Hlks.
  { intros j r Hj Hr. rewrite Hkeep in Hr by done. eapply addr_ok_mono; [exact Hdom|by apply (Hlk j)]. }
  destruct Hres as [[-> _]|(i & big & l1 & r & c' & -> & -> & Hr & Hu & W' & Ht & _ & Hrecs & _)].
  - exists None, (with_error true cs). split; [done|]. exists l', nc. split_and!; [apply wf_with_error, Hs|done| | |done].
    + rewrite length_app, Hperm, <- length_app. done.
    + intros p Hp. destruct (Hcpp p Hp) as (Hpn & rp & Hrp & Hx). split; [done|]. exists rp. split; [|done]. cbn. by rewrite Hkeep.
  - exists (Some i), c'. split; [done|]. exists l1, nc. assert (i ∉ nc) as Hinn.
    { pose proof (wf_nodup _ _ _ _ _ W') as Hnd. cbn [app] in Hnd. apply NoDup_cons in Hnd as [Hnd _]. set_solver. }
    assert (forall j, is_Some (recs cs !! j) -> is_Some (recs c' !! j)) as Hdom'.
    { intros j Hj. rewrite Hrecs. destruct (decide (j = i)) as [->|Hne]; [rewrite lookup_insert_eq; eauto|by rewrite lookup_insert_ne]. }
    split_and!; [done| | | |].
    + intros j rj Hj Hrj. rewrite Hrecs, lookup_insert_ne in Hrj by (by intros ->). eapply addr_ok_mono; [exact Hdom'|by apply (Hlks j)].
    + rewrite <- Hn, !length_app, <- Hperm, length_app. cbn. lia.
    + intros p Hp. destruct (Hcpp p Hp) as (Hpn & rp & Hrp & Hx). split; [done|]. exists rp. split; [|done].
      rewrite Hrecs, lookup_insert_ne by (by intros ->). by rewrite Hkeep.
    + intros i' [= <-]. eexists. split; [rewrite Hrecs; apply lookup_insert_eq|]. split; [intros f Hf; by apply new_record_flags|].
      intros Hc. unfold addr_ok. rewrite !new_record_flags, Hc by done. case_match; [|done]. destruct (Hrev eq_refl) as [a ->]. by exists a.
Qed.

(** A record that is no alias, linked to the last alias or not. *)
Lemma insert_link_ok n c cpp name addr now ttl flags : cstate n c cpp -> insertable name addr flags ->
  (has flags F_REVERSE = true -> is_Some addr) -> has flags F_CNAME = false ->
  exists newc c' c'', insert mix_tab clobbered max_cache_ttl can_malloc c name addr now ttl flags = Ok (newc, c') /\
    point_opt c' cpp newc = Ok c'' /\ cstate n c' cpp /\ cstate n c'' cpp.
Proof.
  intros Hc Hin Hrev Hcn. destruct (insert_ok n c cpp name addr now ttl flags Hc Hin Hrev) as (newc & c' & -> & l & nc & W & Hlk & Hlen & Hcpp & Hnew).
  assert (cstate n c' cpp) as Hc'.
  { exists l, (match newc with Some i => i :: nc | None => nc end). split_and!; [done| |done|].
    - destruct newc as [i|]; [|done]. destruct (Hnew i eq_refl) as (r & Hr & _ & Ha). intros j rj [->|Hj]%elem_of_cons Hrj; [|by apply (Hlk j)].
      assert (rj = r) as -> by congruence. auto.
    - intros p Hp. destruct (Hcpp p Hp) as (Hpn & Hx). split; [|done]. destruct newc; [by right|done]. }
  destruct (point_opt_ok n c' cpp newc Hc') as (c'' & Hpt & Hc'' & _); [intros i ->; destruct (Hnew i eq_refl) as (r & Hr & _); eauto|].
  by exists newc, c', c''.
Qed.

Lemma insert_alias_ok n c cpp name now ttl : cstate n c cpp ->
  exists newc c', insert_alias mix_tab clobbered max_cache_ttl can_malloc c cpp name now ttl = Ok (newc, c') /\ cstate n c' newc.
Proof.
  intros Hc. unfold insert_alias.
  destruct (insert_ok n c cpp (Some name) None now ttl (Z.lor F_CNAME F_FORWARD) Hc) as (newc & c1 & -> & l & nc & W & Hlk & Hlen & Hcpp & Hnew);
    [by split; eauto|done|]. cbn [mbind comp_bind].
  destruct newc as [i|]; [|exists None, c1; split; [done|]; by exists l, nc].
  destruct (Hnew i eq_refl) as (r & Hr & Hfl & _). unfold getr. rewrite Hr. cbn [of_option mbind comp_bind]. cbv zeta.
  set (a := CName None _). set (c2 := putr c1 i (with_addr a r)).
  assert (wf c2 l (i :: nc)) as W2 by (apply set_addr_ok; [done|by left|done]).
  assert (has (cflags r) F_CNAME = true /\ has (cflags r) F_REVERSE = false) as [Hrc Hrr] by (by rewrite !Hfl by done).
  assert (forall j, is_Some (recs c1 !! j) -> is_Some (recs c2 !! j)) as Hdom by (by apply known_putr).
  assert (recs c2 !! i = Some (with_addr a r)) as Hr2 by (unfold c2, putr, with_recs; cbn [recs]; apply lookup_insert_eq).
  assert (linked c2 (i :: nc)) as Hlk2.
  { intros j rj [->|Hj]%elem_of_cons Hrj.
    - assert (rj = with_addr a r) as -> by congruence. unfold addr_ok. cbn [with_addr cflags cr_addr]. rewrite Hrc. done.
    - assert (j <> i) as Hne by (intros ->; pose proof (wf_nodup _ _ _ _ _ W) as Hnd; cbn in Hnd; apply NoDup_cons in Hnd as [Hnd _]; set_solver).
      unfold c2, putr, with_recs in Hrj. cbn [recs] in Hrj. rewrite lookup_insert_ne in Hrj by done.
      eapply addr_ok_mono; [exact Hdom|by apply (Hlk j)]. }
  assert (forall p, cpp = Some p -> p ∈ i :: nc /\ exists r, recs c2 !! p = Some r /\ has (cflags r) F_CNAME = true /\ has (cflags r) F_REVERSE = false) as Hcpp2.
  { intros p Hp. destruct (Hcpp p Hp) as (Hpn & rp & Hrp & Hx). split; [by right|].
    destruct (decide (p = i)) as [->|Hne]; [by exists (with_addr a r)|]. exists rp. split; [|done].
    unfold c2, putr, with_recs. cbn [recs]. by rewrite lookup_insert_ne. }
  assert (cstate n c2 cpp) as Hc2 by (by exists l, (i :: nc)).
  destruct (point_opt_ok n c2 cpp (Some i) Hc2) as (c3 & -> & _ & Hrec3 & Hw3); [intros i' [= <-]; eauto|]. cbn [mbind comp_bind mret comp_ret].
  exists (Some i), c3. split; [done|]. destruct (Hw3 l (i :: nc) W2 Hlk2) as [W3 Hlk3]; [intros p Hp; by apply Hcpp2|].
  exists l, (i :: nc). split_and!; [done..|]. intros p [= <-]. split; [by left|]. destruct (Hrec3 i _ Hr2) as (a3 & Ha3). by exists (with_addr a3 (with_addr a r)).
Qed.
End cache_side.

(** * The packet *)

(** So many bytes behind a message may be looked at, and overwritten. *)
Definition SLACK : Z := 300.

Section packet.
Context (qlen : Z) (Hq : HEADER <= qlen).

(** What may be overwritten: the flags in the header, or from [lo] on. *)
Definition writable (lo i len : Z) : Prop := (2 <= i /\ i + len <= 4) \/ lo <= i.

(** The size of the buffer, and something that is known of its contents, which
    is not changed by writing to the flags of the header, or from [r_low] on;
    the answers lie there. *)
Record region := Region {
  r_size : Z; r_low : Z; r_keep : list Z -> Prop;
  r_nonneg : 0 <= r_low;
  r_wrs : forall buf i bs buf', r_keep buf -> zlen buf = r_size -> writable r_low i (zlen bs) -> wrs buf i bs = Ok buf' -> r_keep buf';
  r_questions : forall buf e, r_keep buf -> bytes buf -> zlen buf = r_size -> qlen <= zlen buf -> skip_questions buf qlen = Ok (Some e) -> r_low <= e }.

(** Nothing is known. *)
Lemma questions_nonneg buf e : bytes buf -> qlen <= zlen buf -> skip_questions buf qlen = Ok (Some e) -> HEADER <= e <= qlen.
Proof.
  intros Hb Hl He. assert (0 <= qlen <= zlen buf) as Hpl by (unfold HEADER in *; lia).
  destruct (skip_questions_safe buf qlen Hb Hpl Hq) as (r & Hr & Hx & _). apply Hx. congruence.
Qed.
Definition whole (size : Z) : region.
Proof.
  refine (Region size 0 (fun _ => True) _ _ _); [done|done|]. intros buf e _ Hb _ Hl He.
  pose proof (questions_nonneg buf e Hb Hl He) as [H _]. unfold HEADER in H. lia.
Defined.

(** The buffer has the size that is stated, and room behind the message. *)
Definition packet_ok (n : region) (buf : list Z) : Prop := bytes buf /\ zlen buf = r_size n /\ qlen + SLACK <= r_size n /\ r_keep n buf.

Lemma packet_rd n buf i : packet_ok n buf -> 0 <= i < qlen + SLACK -> exists b, rd buf i = Ok b /\ is_byte b.
Proof.
  intros (Hb & Hn & Hs & Hk) Hi. destruct (rd_ok buf i) as (b & Hr & _); [lia|]. exists b. split; [done|]. by eapply rd_byte.
Qed.
Lemma packet_rd16 n buf i : packet_ok n buf -> 0 <= i -> i + 2 <= qlen + SLACK -> exists v, rd16 buf i = Ok v /\ is_u16 v.
Proof. intros (Hb & Hn & Hs & Hk) Hi Hi2. apply rd16_ok; [done|done|lia]. Qed.
Lemma packet_rd32 n buf i : packet_ok n buf -> 0 <= i -> i + 4 <= qlen + SLACK -> exists v, rd32 buf i = Ok v /\ 0 <= v.
Proof.
  intros Hp Hi Hi2. unfold rd32. destruct (packet_rd n buf i Hp) as (a & -> & Ha); [lia|]. destruct (packet_rd n buf (i + 1) Hp) as (b & -> & Hb); [lia|].
  destruct (packet_rd n buf (i + 2) Hp) as (c & -> & Hc); [lia|]. destruct (packet_rd n buf (i + 3) Hp) as (d & -> & Hd); [lia|].
  cbn. eexists. split; [done|]. unfold be32, is_byte in *. lia.
Qed.
Lemma packet_rd_addr n buf i : packet_ok n buf -> 0 <= i -> i + 4 <= qlen + SLACK -> exists a b c d,
  rd_addr buf i = Ok (a, b, c, d) /\ bytes [a; b; c; d].
Proof.
  intros Hp Hi Hi2. unfold rd_addr. destruct (packet_rd n buf i Hp) as (a & -> & Ha); [lia|]. destruct (packet_rd n buf (i + 1) Hp) as (b & -> & Hb); [lia|].
  destruct (packet_rd n buf (i + 2) Hp) as (c & -> & Hc); [lia|]. destruct (packet_rd n buf (i + 3) Hp) as (d & -> & Hd); [lia|].
  cbn. exists a, b, c, d. split; [done|]. unfold bytes; by repeat (apply Forall_cons; split).
Qed.

Lemma bytes_blit buf k bs : bytes buf -> bytes bs -> bytes (blit buf k bs).
Proof. intros Hb Hs. unfold blit, bytes. rewrite !Forall_app. split_and!; [by apply Forall_take|done|by apply Forall_drop]. Qed.

Lemma packet_wrs n buf i bs : packet_ok n buf -> bytes bs -> writable (r_low n) i (zlen bs) -> i + zlen bs <= qlen + SLACK ->
  exists buf', wrs buf i bs = Ok buf' /\ packet_ok n buf'.
Proof.
  intros (Hb & Hn & Hs & Hk) Hbs Hi Hl. pose proof (r_nonneg n) as Hlow. assert (0 <= i) as Hi0 by (unfold writable in Hi; lia).
  assert (wrs buf i bs = Ok (blit buf (Z.to_nat i) bs)) as Hw by (apply wrs_ok; lia).
  rewrite Hw. eexists. split; [done|]. split_and!; [by apply bytes_blit|rewrite zlen_blit; lia|done|]. by apply (r_wrs n buf i bs).
Qed.

Lemma packet_name n buf p name extrabytes : packet_ok n buf -> 0 <= extrabytes -> 0 <= p -> MAXDNAME <= zlen name ->
  exists r q name', extract_name buf qlen p name true extrabytes = Ok (r, q, name') /\ zlen name' = zlen name /\
    (r = 0 /\ q = p \/ r = 1 /\ p < q <= qlen /\ extracted name').
Proof. intros (Hb & Hn & Hs & Hk) He Hp Hname. unfold SLACK, HEADER in *. apply decode_safe; [done|lia|done|done|done]. Qed.

Lemma packet_compare n buf p name extrabytes : packet_ok n buf -> 0 <= extrabytes -> 0 <= p -> extracted name ->
  exists r q, extract_name buf qlen p name false extrabytes = Ok (r, q, name) /\
    (r = 0 /\ q = p \/ (r = 1 \/ r = 2) /\ p < q <= qlen).
Proof.
  intros (Hb & Hn & Hs & Hk) He Hp (s & rest & -> & Hs1 & Hs2). unfold SLACK, HEADER in *. apply compare_safe; [done|lia|done|done|].
  eapply Forall_impl; [exact Hs1|]. unfold name_char. intros c Hc. cbn in *. lia.
Qed.

Lemma packet_skip n buf p extrabytes : packet_ok n buf -> 0 <= extrabytes -> 0 <= p -> exists r, skip_name buf p qlen extrabytes = Ok r /\
  (forall q, r = Some q -> p < q /\ q + extrabytes <= qlen).
Proof. intros (Hb & Hn & Hs & Hk) He Hp. unfold SLACK, HEADER in *. apply skip_name_safe; [done|lia|done|done]. Qed.

Lemma packet_questions n buf : packet_ok n buf -> exists r, skip_questions buf qlen = Ok r /\
  (forall e, r = Some e -> HEADER <= e <= qlen /\ r_low n <= e).
Proof.
  intros (Hb & Hn & Hs & Hk). unfold SLACK in *. assert (0 <= qlen <= zlen buf) as Hpl by (unfold HEADER in *; lia).
  destruct (skip_questions_safe buf qlen Hb Hpl Hq) as (r & Hr & He & _). exists r. split; [done|]. intros e ->.
  split; [by apply He|]. apply (r_questions n buf); try done. lia.
Qed.

Lemma packet_header n buf i : packet_ok n buf -> 0 <= i <= 10 -> exists v, rd16 buf i = Ok v /\ is_u16 v.
Proof. intros Hp Hi. apply (packet_rd16 n); [done|lia|]. unfold SLACK, HEADER in *. lia. Qed.

(** ** Rewriting of addresses *)

Definition doctor_ok (d : doctor) : Prop := bytes (addr_bytes (d_in d)) /\ bytes (addr_bytes (d_out d)) /\ bytes (addr_bytes (d_mask d)).

Lemma byte_ops a b : is_byte a -> is_byte b -> is_byte (Z.land a b) /\ is_byte (Z.lor a b).
Proof.
  intros Ha Hb. assert (Forall (fun b => is_byte (Z.land a b) /\ is_byte (Z.lor a b)) (seqZ 0 256)) as H.
  { revert Ha. apply (byte_all (fun a => Forall (fun b => is_byte (Z.land a b) /\ is_byte (Z.lor a b)) (seqZ 0 256))). by vm_compute. }
  rewrite Forall_forall in H. apply H, elem_of_seqZ. unfold is_byte in Hb. lia.
Qed.

Lemma treat_bytes d a : doctor_ok d -> bytes (addr_bytes a) -> bytes (addr_bytes (treat d a)).
Proof.
  destruct d as [[[[i1 i2] i3] i4] e [[[o1 o2] o3] o4] [[[m1 m2] m3] m4]], a as [[[a1 a2] a3] a4].
  unfold doctor_ok, treat, addr_map2, addr_bytes, bytes. cbn [d_in d_out d_mask].
  rewrite !Forall_cons. intros (_ & (? & ? & ? & ? & _) & (? & ? & ? & ? & _)) (? & ? & ? & ? & _).
  split_and!; try done; apply byte_ops; apply byte_ops; try done; unfold is_byte in *; lia.
Qed.

Lemma printable_run_safe n buf k : forall p, packet_ok n buf -> 0 <= p -> p + Z.of_nat k <= qlen + SLACK -> printable_run k buf p = Ok tt.
Proof.
  induction k as [|k IH]; intros p Hp Hp0 Hk; [done|]. cbn [printable_run]. destruct (packet_rd n buf p Hp) as (c & -> & _); [lia|].
  cbn [mbind comp_bind]. case_match; [apply IH; [done|lia|lia]|done].
Qed.

Lemma txt_loop_safe n buf endp : packet_ok n buf -> endp <= qlen -> forall fuel p, 0 <= p -> Z.max 0 (endp - p) < Z.of_nat fuel -> txt_loop fuel buf p endp = Ok tt.
Proof.
  intros Hp He. induction fuel as [|fuel IH]; intros p Hp0 Hf; cbn [txt_loop]; [lia|]. destruct (endp <=? p) eqn:E; zbool; [done|].
  destruct (packet_rd n buf p Hp) as (len & -> & Hl); [unfold SLACK; lia|]. cbn [mbind comp_bind]. unfold is_byte in Hl.
  rewrite (printable_run_safe n) by (done || unfold SLACK; lia). cbn [mbind comp_bind]. apply IH; lia.
Qed.

(** ** Negative answers *)

Lemma doctor_part n buf p doctors : packet_ok n buf -> Forall doctor_ok doctors -> r_low n <= p -> p + 4 <= qlen ->
  exists buf', (addr ← rd_addr buf p;
    match List.find (fun d => doctor_applies d addr) doctors with
    | Some d => h3 ← hb3 buf; buf ← wr buf 2 (Z.land h3 (255 - HB3_AA)); buf ← wrs buf p (addr_bytes (treat d addr)); mret (true, buf)
    | None => mret (true, buf)
    end) = Ok (true, buf') /\ packet_ok n buf'.
Proof.
  intros Hp Hd Hlow Hpl. pose proof (r_nonneg n) as Hp0. destruct (packet_rd_addr n buf p Hp) as (a & b & c & d & -> & Hab); [lia|unfold SLACK; lia|]. cbn [mbind comp_bind].
  destruct (List.find _ doctors) as [doc|] eqn:Hf; [|by exists buf]. apply find_some in Hf as [Hin _].
  rewrite Forall_forall in Hd. specialize (Hd doc (proj2 (list_elem_of_In _ _) Hin)).
  unfold hb3. destruct (packet_rd n buf 2 Hp) as (h3 & -> & Hh3); [unfold SLACK, HEADER in *; lia|]. cbn [mbind comp_bind].
  destruct (packet_wrs n buf 2 [Z.land h3 (255 - HB3_AA)] Hp) as (b1 & Hw & Hp1);
    [apply Forall_singleton, byte_ops; [done|by_decide]|left; change (zlen [_]) with 1; lia|unfold SLACK, HEADER in *; change (zlen [_]) with 1; lia|].
  cbn [wrs] in Hw. destruct (wr buf 2 _) as [b1'|]; [|done]. cbn [mbind comp_bind] in Hw. injection Hw as ->. cbn [mbind comp_bind].
  destruct (packet_wrs n b1 p (addr_bytes (treat doc (a, b, c, d))) Hp1) as (b2 & -> & Hp2).
  - apply treat_bytes; done.
  - by right.
  - destruct (treat doc (a, b, c, d)) as [[[x1 x2] x3] x4]. change (zlen (addr_bytes _)) with 4. unfold SLACK. lia.
  - by exists b2.
Qed.

Lemma do_doctor_safe n doctors count : Forall doctor_ok doctors -> forall buf p log name, packet_ok n buf -> r_low n <= p -> MAXDNAME <= zlen name ->
  exists r buf' name', do_doctor doctors qlen count buf p log name = Ok (r, buf', name') /\ packet_ok n buf' /\ zlen name' = zlen name /\
    (log = false -> name' = name) /\ (forall q, r = Some q -> p <= q /\ (p <= qlen -> q <= qlen)).
Proof.
  intros Hd. induction count as [|count IH]; intros buf p log name Hp Hlow Hname; pose proof (r_nonneg n) as Hnn; assert (0 <= p) as Hp0 by lia; cbn [do_doctor].
  { exists (Some p), buf, name. split_and!; try done. intros q [= <-]. lia. }
  assert (exists q name', (if log then '(r, p, name) ← extract_name buf qlen p name true 10; mret (if r =? 0 then None else Some p, name)
     else r ← skip_name buf p qlen 10; mret (r, name)) = Ok (q, name') /\ zlen name' = zlen name /\ (log = false -> name' = name) /\
     (forall x, q = Some x -> p < x <= qlen)) as (q & name1 & -> & Hl1 & Hlog1 & Hq1).
  { destruct log.
    - destruct (packet_name n buf p name 10 Hp) as (r & q & name' & -> & Hl & Hr); [lia|done|done|]. cbn [mbind comp_bind mret comp_ret].
      eexists _, name'. split; [done|]. split_and!; [done|done|]. intros x. destruct Hr as [[-> ->]|[-> [Hr _]]]; [done|]. cbn. by intros [= <-].
    - destruct (packet_skip n buf p 10 Hp) as (r & -> & Hr); [lia|done|]. cbn [mbind comp_bind mret comp_ret]. exists r, name.
      split_and!; try done. intros x Hx. specialize (Hr x Hx). lia. }
  cbn [mbind comp_bind]. destruct q as [q|]; [|by exists None, buf, name1]. specialize (Hq1 q eq_refl).
  destruct (packet_rd16 n buf q Hp) as (qtype & -> & _); [lia|unfold SLACK; lia|]. destruct (packet_rd16 n buf (q + 2) Hp) as (qclass & -> & _); [lia|unfold SLACK; lia|].
  destruct (packet_rd16 n buf (q + 8) Hp) as (rdlen & -> & Hrd); [lia|unfold SLACK; lia|]. cbn [mbind comp_bind]. cbv zeta. unfold is_u16 in Hrd.
  match goal with |- context [mbind _ ?m] => assert (exists ok buf1, m = Ok (ok, buf1) /\ packet_ok n buf1) as (ok & buf1 & -> & Hp1) end.
  { unfold CHECK_LEN, INADDRSZ. destruct ((qclass =? C_IN) && (qtype =? T_A)).
    - destruct (q + 10 + 4 <=? qlen) eqn:E; zbool; cbn [negb]; [|by exists false, buf].
      destruct (doctor_part n buf (q + 10) doctors Hp Hd) as (b' & -> & Hb'); [lia|lia|]. by exists true, b'.
    - destruct ((qtype =? 16) && log); [|by exists true, buf]. destruct (q + 10 + rdlen <=? qlen) eqn:E; zbool; cbn [negb]; [|by exists false, buf].
      rewrite (txt_loop_safe n) by (done || lia). by exists true, buf. }
  cbn [mbind comp_bind]. destruct ok; cbn [negb]; [|by exists None, buf1, name1].
  unfold ADD_RDLEN, CHECK_LEN. destruct (q + 10 + rdlen <=? qlen) eqn:E; zbool; [|by exists None, buf1, name1].
  destruct (IH buf1 (q + 10 + rdlen) log name1 Hp1) as (r & b' & name' & -> & Hb' & Hl' & Hlog' & Hr'); [lia|lia|].
  exists r, b', name'. split_and!; [done|done|lia|intros Hlog; by rewrite Hlog', Hlog1|]. intros x Hx. specialize (Hr' x Hx). lia.
Qed.

Lemma soa_loop_safe n m buf : packet_ok n buf -> forall p minttl found, 0 <= p <= qlen -> exists r, soa_loop qlen m buf p minttl found = Ok r /\
  (forall q t f, r = Some (q, t, f) -> p <= q <= qlen).
Proof.
  intros Hp. induction m as [|m IH]; intros p minttl found Hp0; cbn [soa_loop]; [eexists; split; [done|]; intros q t f [= <- _ _]; lia|].
  destruct (packet_skip n buf p 10 Hp) as (r & -> & Hr); [lia|lia|]. cbn [mbind comp_bind]. destruct r as [q|]; [|by exists None]. specialize (Hr q eq_refl).
  destruct (packet_rd16 n buf q Hp) as (qtype & -> & _); [lia|unfold SLACK; lia|]. destruct (packet_rd16 n buf (q + 2) Hp) as (qclass & -> & _); [lia|unfold SLACK; lia|].
  destruct (packet_rd32 n buf (q + 4) Hp) as (ttl & -> & _); [lia|unfold SLACK; lia|].
  destruct (packet_rd16 n buf (q + 8) Hp) as (rdlen & -> & Hrd); [lia|unfold SLACK; lia|]. cbn [mbind comp_bind]. cbv zeta. unfold is_u16 in Hrd.
  destruct ((qclass =? C_IN) && (qtype =? T_SOA)).
  - destruct (packet_skip n buf (q + 10) 0 Hp) as (r1 & -> & Hr1); [lia|lia|]. cbn [mbind comp_bind]. destruct r1 as [q1|]; [|by exists None].
    specialize (Hr1 q1 eq_refl). destruct (packet_skip n buf q1 20 Hp) as (r2 & -> & Hr2); [lia|lia|]. cbn [mbind comp_bind].
    destruct r2 as [q2|]; [|by exists None]. specialize (Hr2 q2 eq_refl).
    destruct (packet_rd32 n buf (q2 + 16) Hp) as (t2 & -> & _); [lia|unfold SLACK; lia|]. cbn [mbind comp_bind]. edestruct (IH (q2 + 20)) as (rr & -> & Hrr); [lia|]. exists rr. split; [done|]. intros q' t' f' E. specialize (Hrr q' t' f' E). lia.
  - unfold ADD_RDLEN, CHECK_LEN. destruct (q + 10 + rdlen <=? qlen) eqn:E; zbool; [|by exists None].
    edestruct (IH (q + 10 + rdlen)) as (rr & -> & Hrr); [lia|]. exists rr. split; [done|]. intros q' t' f' E'. specialize (Hrr q' t' f' E'). lia.
Qed.

Lemma find_soa_safe n doctors neg_ttl buf log name : Forall doctor_ok doctors -> packet_ok n buf -> MAXDNAME <= zlen name ->
  exists ttl buf' name', find_soa doctors qlen neg_ttl buf log name = Ok (ttl, buf', name') /\ packet_ok n buf' /\ zlen name' = zlen name /\
    (log = false -> name' = name).
Proof.
  intros Hd Hp Hname. unfold find_soa. destruct (packet_questions n buf Hp) as (r & -> & Hr). cbn [mbind comp_bind].
  destruct r as [p|]; [|by exists 0, buf, name]. destruct (Hr p eq_refl) as [Hr' Hlow]. unfold HEADER in Hr'.
  unfold ancount. destruct (packet_header n buf 6 Hp) as (an & -> & _); [lia|]. cbn [mbind comp_bind].
  destruct (do_doctor_safe n doctors (Z.to_nat an) Hd buf p log name Hp) as (r1 & b1 & n1 & -> & Hp1 & Hl1 & Hlog1 & Hr1); [lia|done|]. cbn [mbind comp_bind].
  destruct r1 as [p1|]; [|by exists 0, b1, n1]. specialize (Hr1 p1 eq_refl).
  unfold nscount. destruct (packet_header n b1 8 Hp1) as (ns & -> & _); [lia|]. cbn [mbind comp_bind].
  destruct (soa_loop_safe n (Z.to_nat ns) b1 Hp1 p1 0xffffffff false) as (r2 & -> & Hr2); [lia|]. cbn [mbind comp_bind].
  destruct r2 as [[[p2 minttl] fnd]|]; [|by exists 0, b1, n1]. specialize (Hr2 _ _ _ eq_refl).
  unfold arcount. destruct (packet_header n b1 10 Hp1) as (ar & -> & _); [lia|]. cbn [mbind comp_bind].
  destruct (do_doctor_safe n doctors (Z.to_nat ar) Hd b1 p2 false n1 Hp1) as (r3 & b3 & n3 & -> & Hp3 & Hl3 & Hlog3 & _); [lia|lia|]. cbn [mbind comp_bind].
  destruct r3 as [p3|]; [by exists (if fnd then minttl else neg_ttl), b3, n1|by exists 0, b3, n1].
Qed.
End packet.

(** * Replies are handled without a fault *)

Section safe.
Context (mix_tab : Z -> Z) (clobbered : Z -> list Z -> list Z) (max_cache_ttl max_ttl neg_ttl : Z) (doctors : list doctor).
Context (can_malloc : cache -> bool) (log no_neg local_rebind : bool) (qlen now : Z) (is_sign check_rebind : bool).
Context (Hq : HEADER <= qlen) (Hdoc : Forall doctor_ok doctors).
Variables (m : nat) (n : region qlen).

(** The state between two answers; [n] is the size of the packet buffer, [m]
    the number of the records of the cache. *)
Record einv (e : est) : Prop := {
  ei_packet : packet_ok qlen n (e_buf e);
  ei_name : MAXDNAME <= zlen (e_name e);
  ei_cache : cstate mix_tab m (e_cache e) (e_cpp e) }.

Lemma extracted_len name : extracted name -> 0 < zlen name.
Proof. intros (s & rest & -> & _). rewrite zlen_app, zlen_cons. pose proof (zlen_nonneg s). pose proof (zlen_nonneg rest). lia. Qed.

Lemma answer_fixed_safe buf p : packet_ok qlen n buf -> r_low qlen n <= p <= qlen -> exists t cl ttl e buf',
  answer_fixed max_ttl is_sign buf p = Ok (t, cl, ttl, e, buf') /\ packet_ok qlen n buf' /\ p + 10 <= e.
Proof.
  intros Hp Hp0'. pose proof (r_nonneg qlen n) as Hnn. assert (0 <= p <= qlen) as Hp0 by lia. unfold answer_fixed.
  destruct (packet_rd16 qlen n buf p Hp) as (t & -> & _); [lia|unfold SLACK; lia|].
  destruct (packet_rd16 qlen n buf (p + 2) Hp) as (cl & -> & _); [lia|unfold SLACK; lia|].
  destruct (packet_rd32 qlen n buf (p + 4) Hp) as (ttl & -> & _); [lia|unfold SLACK; lia|]. cbn [mbind comp_bind].
  assert (exists buf1, (if negb (max_ttl =? 0) && (max_ttl <? ttl) && negb is_sign then PUTLONG buf (p + 4) max_ttl else mret buf) = Ok buf1 /\
    packet_ok qlen n buf1) as (buf1 & -> & Hp1).
  { case_match; [|by exists buf]. unfold PUTLONG. apply (packet_wrs qlen n); [done| |right; lia|change (zlen (put32 max_ttl)) with 4; unfold SLACK; lia].
    unfold put32, bytes. rewrite !Forall_cons. split_and!; try done; [apply Z.mod_pos_bound; lia|apply Z.mod_pos_bound; lia|apply hi8_byte|apply lo8_byte]. }
  cbn [mbind comp_bind]. destruct (packet_rd16 qlen n buf1 (p + 8) Hp1) as (l & -> & Hl); [lia|unfold SLACK; lia|]. cbn [mbind comp_bind mret comp_ret].
  unfold is_u16 in Hl. exists t, cl, ttl, (p + 10 + l), buf1. split_and!; [done|done|lia].
Qed.

(** The flags of the records that replies leave. *)
Lemma ptr_flags name addr : insertable (Some name) (Some addr) (Z.lor F_IPV4 F_REVERSE).
Proof. by split; eauto. Qed.
Definition addr_flags (flags : Z) : Prop := flags = F_IPV4 \/ flags = Z.lor F_NXDOMAIN F_IPV4.
Lemma addr_flags_ok flags name addr : addr_flags flags -> insertable (Some name) addr (Z.lor flags F_FORWARD) /\
  has (Z.lor flags F_FORWARD) F_REVERSE = false /\ has (Z.lor flags F_FORWARD) F_CNAME = false.
Proof. by intros [-> | ->]; split_and!; try done; split; eauto. Qed.

Notation insert := (insert mix_tab clobbered max_cache_ttl can_malloc).
Notation ptr_answers := (ptr_answers mix_tab clobbered max_cache_ttl max_ttl can_malloc qlen now is_sign).
Notation addr_answers := (addr_answers mix_tab clobbered max_cache_ttl max_ttl can_malloc local_rebind qlen now is_sign check_rebind).

Lemma ptr_answers_safe j : forall namep p addr e, einv e -> 0 <= namep -> r_low qlen n <= p <= qlen ->
  exists fl e', ptr_answers j namep p addr F_IPV4 e = Ok (fl, e') /\ einv e'.
Proof.
  induction j as [|j IH]; intros namep p addr e [Hp Hn Hc] Hnp Hp0'; pose proof (r_nonneg qlen n) as Hnn; assert (0 <= p <= qlen) as Hp0 by lia; cbn [DmAnswer.ptr_answers]; [by exists Fall, e|].
  destruct (packet_name qlen Hq n (e_buf e) namep (e_name e) 0 Hp) as (r & q & name & -> & Hl & Hr); [lia|lia|done|]. cbn [mbind comp_bind].
  destruct (r =? 0) eqn:Er; zbool; [eexists _, _; split; [done|split; cbn; [done|lia|done]]|]. destruct Hr as [[? _]|(_ & _ & Hx)]; [done|].
  destruct (packet_compare qlen Hq n (e_buf e) p name 10 Hp) as (res & p1 & -> & Hres); [lia|lia|done|]. cbn [mbind comp_bind].
  destruct (res =? 0) eqn:Eres; zbool; [eexists _, _; split; [done|split; cbn; [done|lia|done]]|]. destruct Hres as [[? _]|[_ Hp1]]; [done|].
  destruct (answer_fixed_safe (e_buf e) p1 Hp) as (t & cl & ttl & endrr & buf & -> & Hp2 & Hend); [lia|]. cbn [mbind comp_bind].
  set (e1 := Est buf name (e_cache e) (e_cpp e) (Z.min (e_cttl e) ttl) (e_found e)). assert (einv e1) as He1 by (split; cbn; [done|lia|done]).
  match goal with |- context [mbind _ ?x] => assert (exists fl e2, x = Ok (fl, e2) /\ einv e2) as (fl & e2 & -> & He2) end.
  { case_match; [|by exists Fall, e1]. destruct (packet_name qlen Hq n buf (p1 + 10) name 0 Hp2) as (r2 & q2 & name2 & -> & Hl2 & _); [lia|lia|lia|].
    cbn [mbind comp_bind]. assert (einv (set_name name2 e1)) as He2 by (split; cbn; [done|lia|done]).
    destruct (r2 =? 0); [by eexists _, _|]. destruct (t =? T_CNAME); [by eexists _, _|].
    destruct (insert_link_ok mix_tab clobbered max_cache_ttl can_malloc m (e_cache e) (e_cpp e) (Some (cstr name2)) (Some addr) now (Z.min (e_cttl e) ttl)
      (Z.lor F_IPV4 F_REVERSE) Hc (ptr_flags _ _)) as (newc & c' & c'' & Hins & _ & Hc' & _); [eauto|done|].
    cbn [set_name e_cache e_cttl e1]. rewrite Hins. cbn [mbind comp_bind mret comp_ret]. eexists _, _. split; [done|]. split; cbn; [done|lia|done]. }
  cbn [mbind comp_bind]. destruct fl; [|by eexists _, _|by eexists _, _]. unfold CHECK_LEN.
  destruct (endrr + 0 <=? qlen) eqn:E; zbool; cbn [negb]; [|by eexists _, _]. apply IH; [done|done|lia].
Qed.

Lemma ptr_loop_safe count : forall namep addr e, einv e -> 0 <= namep ->
  exists fl e', ptr_loop mix_tab clobbered max_cache_ttl max_ttl can_malloc qlen now is_sign count namep addr F_IPV4 e = Ok (fl, e') /\ einv e'.
Proof.
  induction count as [|count IH]; intros namep addr e He Hnp; cbn [ptr_loop]; pose proof (ei_packet _ He) as Hp;
    (destruct (packet_questions qlen Hq n (e_buf e) Hp) as (r & -> & Hr); cbn [mbind comp_bind]; destruct r as [p|]; [|by eexists _, _]);
    specialize (Hr p eq_refl); unfold ancount; (destruct (packet_header qlen Hq n (e_buf e) 6 Hp) as (an & -> & _); [lia|]); cbn [mbind comp_bind];
    (destruct (ptr_answers_safe (Z.to_nat an) namep p addr e He Hnp) as (fl & e' & -> & He'); [unfold HEADER in *; lia|]); cbn [mbind comp_bind];
    destruct fl; try by eexists _, _.
  by apply IH.
Qed.

(** The state [e] and [fl] are the result; a [Ret] says nothing of the name. *)
Ltac ends fl e := exists fl, e; split_and!; [done|done|first [done | let H := fresh in intros H; by edestruct H]].

Lemma addr_answers_safe j again flags : addr_flags flags -> forall p e, einv e -> extracted (e_name e) -> r_low qlen n <= p <= qlen ->
  exists fl e', addr_answers j again p flags e = Ok (fl, e') /\ einv e' /\ ((forall v, fl <> Ret v) -> extracted (e_name e')).
Proof.
  intros Hfl. induction j as [|j IH]; intros p e [Hp Hn Hc] Hx Hp0'; pose proof (r_nonneg qlen n) as Hnn; assert (0 <= p <= qlen) as Hp0 by lia; cbn [DmAnswer.addr_answers]; [by exists Fall, e|].
  destruct (packet_compare qlen Hq n (e_buf e) p (e_name e) 10 Hp) as (res & p1 & -> & Hres); [lia|lia|done|]. cbn [mbind comp_bind]. cbv zeta.
  assert (set_name (e_name e) e = e) as -> by (by destruct e). assert (einv e) as He by done.
  destruct (res =? 0) eqn:Eres; zbool; [ends (Ret 0) e|]. destruct Hres as [[? _]|[_ Hp1]]; [done|].
  destruct (answer_fixed_safe (e_buf e) p1 Hp) as (t & cl & ttl & endrr & buf & -> & Hp2 & Hend); [lia|]. cbn [mbind comp_bind].
  set (e1 := Est buf (e_name e) (e_cache e) (e_cpp e) (e_cttl e) (e_found e)). assert (einv e1) as He1 by (split; cbn; [done|lia|done]).
  match goal with |- context [mbind _ ?x] => assert (exists fl e2, x = Ok (fl, e2) /\ einv e2 /\ ((forall v, fl <> Ret v) -> extracted (e_name e2))) as (fl & e2 & -> & He2 & Hx2) end.
  { case_match; [|by exists Fall, e1]. destruct (t =? T_CNAME).
    - destruct again; cbn [negb]; [|ends (Ret 0) e1].
      destruct (insert_alias_ok mix_tab clobbered max_cache_ttl can_malloc m (e_cache e) (e_cpp e) (cstr (e_name e)) now ttl Hc) as (newc & c' & Hins & Hc').
      cbn [e_cache e_cpp e_name e1]. rewrite Hins. cbn [mbind comp_bind].
      destruct (packet_name qlen Hq n buf (p1 + 10) (e_name e) 0 Hp2) as (r2 & q2 & name2 & -> & Hl2 & Hr2); [lia|lia|lia|]. cbn [mbind comp_bind mret comp_ret].
      eexists _, _. split; [done|]. split; [split; cbn; [done|lia|done]|]. intros Hv. cbn. destruct Hr2 as [[-> _]|(-> & _ & Hx2)]; [by destruct (Hv 0)|done].
    - cbv zeta. set (e2 := Est buf (e_name e) (e_cache e) (e_cpp e) (e_cttl e) true). assert (einv e2) as He2 by (split; cbn; [done|lia|done]).
      unfold CHECK_LEN, INADDRSZ. destruct (p1 + 10 + 4 <=? qlen) eqn:E; cbn [negb]; [apply Z.leb_le in E|ends (Ret 0) e2].
      destruct (packet_rd_addr qlen n buf (p1 + 10) Hp2) as (a & b & c & d & -> & _); [lia|unfold SLACK; lia|]. cbn [mbind comp_bind].
      destruct (check_rebind && _ && _); [ends (Ret 1) e2|].
      set (ad := (a, b, c, d) : in_addr).
      destruct (addr_flags_ok flags (cstr (e_name e)) (Some ad) Hfl) as (Hin & Hrev & Hcn).
      destruct (insert_link_ok mix_tab clobbered max_cache_ttl can_malloc m (e_cache e) (e_cpp e) (Some (cstr (e_name e))) (Some ad) now ttl
        (Z.lor flags F_FORWARD) Hc Hin) as (newc & c' & c'' & Hins & Hpt & _ & Hc''); [congruence|done|].
      cbn [e_cache e_cpp e_name e1]. rewrite Hins. cbn [mbind comp_bind]. rewrite Hpt. cbn [mbind comp_bind mret comp_ret].
      eexists _, _. split; [done|]. split; [split; cbn; [done|lia|by eapply cstate_none]|done]. }
  cbn [mbind comp_bind]. destruct fl as [| |v]; [|ends Again e2|ends (Ret v) e2]. unfold CHECK_LEN.
  destruct (endrr + 0 <=? qlen) eqn:E; zbool; cbn [negb]; [|ends (Ret 0) e2]. apply IH; [done|by apply Hx2|lia].
Qed.

Notation addr_loop := (addr_loop mix_tab clobbered max_cache_ttl max_ttl can_malloc local_rebind qlen now is_sign check_rebind).
Notation do_question := (do_question mix_tab clobbered max_cache_ttl max_ttl neg_ttl doctors can_malloc no_neg local_rebind qlen now is_sign check_rebind).
Notation questions := (questions mix_tab clobbered max_cache_ttl max_ttl neg_ttl doctors can_malloc no_neg local_rebind qlen now is_sign check_rebind).

Lemma addr_loop_safe count flags : addr_flags flags -> forall e, einv e -> extracted (e_name e) ->
  exists fl e', addr_loop count flags e = Ok (fl, e') /\ einv e'.
Proof.
  intros Hfl. induction count as [|count IH]; intros e He Hx; cbn [DmAnswer.addr_loop]; pose proof (ei_packet _ He) as Hp;
    (destruct (packet_questions qlen Hq n (e_buf e) Hp) as (r & -> & Hr); cbn [mbind comp_bind]; destruct r as [p|]; [|by eexists _, _]);
    specialize (Hr p eq_refl); unfold ancount; (destruct (packet_header qlen Hq n (e_buf e) 6 Hp) as (an & -> & _); [lia|]); cbn [mbind comp_bind].
  - destruct (addr_answers_safe (Z.to_nat an) false flags Hfl p e He Hx) as (fl & e' & -> & He' & _); [unfold HEADER in *; lia|]. cbn [mbind comp_bind].
    destruct fl; by eexists _, _.
  - destruct (addr_answers_safe (Z.to_nat an) true flags Hfl p e He Hx) as (fl & e' & -> & He' & Hx'); [unfold HEADER in *; lia|]. cbn [mbind comp_bind].
    destruct fl; try by eexists _, _. apply IH; [done|by apply Hx'].
Qed.

Lemma search_soa_safe searched ttl e : einv e -> exists ttl' e', search_soa neg_ttl doctors qlen searched ttl e = Ok (ttl', e') /\ einv e' /\ e_cpp e' = e_cpp e.
Proof.
  intros He. unfold search_soa. destruct searched; [by exists ttl, e|]. pose proof He as [Hp Hn Hc].
  destruct (find_soa_safe qlen Hq n doctors neg_ttl (e_buf e) false (e_name e) Hdoc Hp Hn) as (t & b & nm & -> & Hp' & Hl & _). cbn [mbind comp_bind mret comp_ret].
  eexists _, _. split; [done|]. split; [split; cbn; [done|lia|done]|done].
Qed.

Lemma in_arpa_flags name addr : (in_arpa_name_2_addr name addr).1 = 0 \/ (in_arpa_name_2_addr name addr).1 = F_IPV4.
Proof. unfold in_arpa_name_2_addr. cbv zeta. repeat case_match; cbn; auto. Qed.

Lemma rcode_flags h : (if RCODE h =? NXDOMAIN then F_NXDOMAIN else 0) = F_NXDOMAIN \/ (if RCODE h =? NXDOMAIN then F_NXDOMAIN else 0) = 0.
Proof. case_match; auto. Qed.

(** The records that say that there is none. *)
Lemma neg_flags_ok flags name addr : flags = F_NXDOMAIN \/ flags = 0 ->
  insertable None (Some addr) (Z.lor (Z.lor F_IPV4 F_REVERSE) (Z.lor F_NEG flags)) /\
  has (Z.lor (Z.lor F_IPV4 F_REVERSE) (Z.lor F_NEG flags)) F_CNAME = false /\
  insertable (Some name) None (Z.lor (Z.lor F_FORWARD F_NEG) (Z.lor flags F_IPV4)) /\
  has (Z.lor (Z.lor F_FORWARD F_NEG) (Z.lor flags F_IPV4)) F_REVERSE = false /\
  has (Z.lor (Z.lor F_FORWARD F_NEG) (Z.lor flags F_IPV4)) F_CNAME = false.
Proof. by intros [-> | ->]; split_and!; try done; split; eauto. Qed.

Lemma do_question_safe p qtype namep searched ttl addr e : einv e -> extracted (e_name e) -> 0 <= namep ->
  exists fl searched' ttl' addr' e', do_question p qtype namep searched ttl addr e = Ok (fl, searched', ttl', addr', e') /\ einv e'.
Proof.
  intros He Hx Hnp. unfold DmAnswer.do_question, hb4. destruct (packet_rd qlen n (e_buf e) 3 (ei_packet _ He)) as (h4 & -> & _); [unfold HEADER, SLACK in *; lia|].
  cbn [mbind comp_bind]. cbv zeta. pose proof (rcode_flags h4) as Hfl. set (flags := if RCODE h4 =? NXDOMAIN then F_NXDOMAIN else 0) in *.
  destruct (qtype =? T_PTR).
  - pose proof (in_arpa_flags (cstr (e_name e)) addr) as Harpa. destruct (in_arpa_name_2_addr (cstr (e_name e)) addr) as [enc addr1]. cbn [fst] in Harpa.
    destruct Harpa as [-> | ->]; [by eexists _, _, _, _, _|]. change (F_IPV4 =? 0) with false. cbv iota.
    match goal with |- context [mbind _ ?x] => assert (exists fl e1, x = Ok (fl, e1) /\ einv e1) as (fl & e1 & -> & He1) end.
    { destruct (negb (has flags F_NXDOMAIN)); [by apply ptr_loop_safe|by exists Fall, e]. }
    cbn [mbind comp_bind]. destruct fl; [|by eexists _, _, _, _, _|by eexists _, _, _, _, _].
    destruct (_ && _); [|by eexists _, _, _, _, _]. destruct (search_soa_safe searched ttl e1 He1) as (ttl' & e2 & -> & [Hp2 Hn2 Hc2] & _). cbn [mbind comp_bind].
    destruct (ttl' =? 0); cbn [negb]; [eexists _, _, _, _, _; split; [done|by split]|].
    destruct (neg_flags_ok flags [] addr1 Hfl) as (Hin & Hcn & _). 
    destruct (insert_link_ok mix_tab clobbered max_cache_ttl can_malloc m (e_cache e2) (e_cpp e2) None (Some addr1) now ttl'
      _ Hc2 Hin) as (newc & c' & c'' & Hins & _ & Hc' & _); [eauto|done|]. rewrite Hins. cbn [mbind comp_bind mret comp_ret].
    eexists _, _, _, _, _. split; [done|by split].
  - destruct (qtype =? T_A); [|by eexists _, _, _, _, _].
    match goal with |- context [mbind _ ?x] => assert (exists fl e1, x = Ok (fl, e1) /\ einv e1) as (fl & e1 & -> & He1) end.
    { destruct (negb _); [|by exists Fall, e]. apply addr_loop_safe; [|done|done]. unfold addr_flags. destruct Hfl as [-> | ->]; auto. }
    cbn [mbind comp_bind]. destruct fl; [|by eexists _, _, _, _, _|by eexists _, _, _, _, _].
    destruct (_ && _); [|by eexists _, _, _, _, _]. destruct (search_soa_safe searched ttl e1 He1) as (ttl' & e2 & -> & [Hp2 Hn2 Hc2] & _). cbn [mbind comp_bind].
    destruct (_ || _); [|eexists _, _, _, _, _; split; [done|by split]].
    destruct (neg_flags_ok flags (cstr (e_name e2)) addr Hfl) as (_ & _ & Hin & Hrev & Hcn).
    edestruct (insert_link_ok mix_tab clobbered max_cache_ttl can_malloc m (e_cache e2) (e_cpp e2) (Some (cstr (e_name e2))) None now)
      as (newc & c' & c'' & Hins & Hpt & _ & Hc''); [exact Hc2|exact Hin|congruence|done|]. rewrite Hins. cbn [mbind comp_bind]. rewrite Hpt. cbn [mbind comp_bind mret comp_ret].
    eexists _, _, _, _, _. split; [done|by split].
Qed.

Lemma questions_safe q : forall p searched ttl addr e, einv e -> 0 <= p ->
  exists fl e', questions q p searched ttl addr e = Ok (fl, e') /\ einv e'.
Proof.
  induction q as [|q IH]; intros p searched ttl addr e [Hp Hn Hc] Hp0; cbn [DmAnswer.questions]; [by exists Fall, e|]. cbv zeta.
  destruct (packet_name qlen Hq n (e_buf e) p (e_name e) 4 Hp) as (r & p1 & name & -> & Hl & Hr); [lia|lia|done|]. cbn [mbind comp_bind].
  set (e1 := Est (e_buf e) name (e_cache e) None ULONG_MAX false). assert (einv e1) as He1 by (split; cbn; [done|lia|by eapply cstate_none]).
  destruct (r =? 0) eqn:Er; zbool; [by eexists _, _|]. destruct Hr as [[? _]|(_ & Hp1 & Hx)]; [done|].
  destruct (packet_rd16 qlen n (e_buf e1) p1 Hp) as (qtype & -> & _); [lia|unfold SLACK; lia|].
  destruct (packet_rd16 qlen n (e_buf e1) (p1 + 2) Hp) as (qclass & -> & _); [lia|unfold SLACK; lia|]. cbn [mbind comp_bind].
  destruct (negb _); [apply IH; [done|lia]|].
  destruct (do_question_safe (p1 + 4) qtype p searched ttl addr e1 He1) as (fl & s' & t' & a' & e' & -> & He'); [done|lia|]. cbn [mbind comp_bind].
  destruct fl; [apply IH; [done|lia]|apply IH; [done|lia]|by eexists _, _].
Qed.

End safe.

Section extract_safe.
Context (mix_tab : Z -> Z) (clobbered : Z -> list Z -> list Z) (max_cache_ttl max_ttl neg_ttl : Z) (doctors : list doctor).
Context (can_malloc : cache -> bool) (log no_neg local_rebind : bool) (qlen now : Z) (is_sign check_rebind : bool).
Context (Hq : HEADER <= qlen) (Hdoc : Forall doctor_ok doctors).
Variable n : region qlen.

(** Whatever a reply says, it is handled without a fault, and the cache is well
    formed afterwards, with as many records as before. *)
Lemma extract_safe buf name c l nc checking_disabled : wf mix_tab c l nc -> packet_ok qlen n buf -> MAXDNAME <= zlen name ->
  exists v buf' name' c' l' nc',
    extract_addresses mix_tab clobbered max_cache_ttl max_ttl neg_ttl doctors can_malloc log no_neg local_rebind qlen now is_sign check_rebind
      buf name c checking_disabled = Ok (v, buf', name', c') /\
    wf mix_tab c' l' nc' /\ length (l' ++ nc') = length (l ++ nc) /\ packet_ok qlen n buf' /\ MAXDNAME <= zlen name'.
Proof.
  intros W Hp Hn. unfold extract_addresses. destruct (start_insert_ok mix_tab c l nc W) as (c1 & -> & W1 & _). cbn [mbind comp_bind]. cbv zeta.
  match goal with |- context [mbind _ ?x] => assert (exists ttl buf1 name1, x = Ok (ttl, buf1, name1) /\ packet_ok qlen n buf1 /\ zlen name1 = zlen name)
    as (ttl & buf1 & name1 & -> & Hp1 & Hn1) end.
  { case_match; [|by exists 0, buf, name].
    destruct (find_soa_safe qlen Hq n doctors neg_ttl buf log name Hdoc Hp Hn) as (t & b & nm & -> & Hp' & Hl & _). by exists t, b, nm. }
  cbn [mbind comp_bind]. unfold qdcount. destruct (packet_header qlen Hq n buf1 4 Hp1) as (qd & -> & _); [lia|]. cbn [mbind comp_bind].
  set (e0 := Est buf1 name1 c1 None ULONG_MAX false). set (m := length (l ++ nc)).
  assert (einv mix_tab qlen m n e0) as He0.
  { split; cbn; [done|lia|]. exists (l ++ nc), []. rewrite app_nil_r. split_and!; [done|intros ? ? Hj; by apply elem_of_nil in Hj|done|done]. }
  match goal with |- context [DmAnswer.questions _ _ _ _ _ _ _ _ _ _ _ _ _ ?q ?p ?s ?t ?a _] =>
    destruct (questions_safe mix_tab clobbered max_cache_ttl max_ttl neg_ttl doctors can_malloc no_neg local_rebind qlen now is_sign check_rebind Hq Hdoc m n
      q p s t a e0 He0) as (fl & e & -> & [Hp2 Hn2 Hc]); [unfold HEADER; lia|] end.
  cbn [mbind comp_bind]. destruct Hc as (l2 & nc2 & W2 & Hlk & Hlen & _).
  assert (exists v c' l' nc', (match fl with
    | Ret v => mret (v, e_buf e, e_name e, e_cache e)
    | _ => h3 ← hb3 (e_buf e); h4 ← hb4 (e_buf e);
        c ← (if negb (has h3 HB3_TC) && negb (has h4 HB4_CD) && has h4 HB4_RA && negb checking_disabled
             then cache_end_insert mix_tab (e_cache e) else mret (e_cache e));
        mret (0, e_buf e, e_name e, c) end) = Ok (v, e_buf e, e_name e, c') /\ wf mix_tab c' l' nc' /\ length (l' ++ nc') = m) as (v & c' & l' & nc' & Hend & W' & Hl').
  { assert (exists c' l' nc', (h3 ← hb3 (e_buf e); h4 ← hb4 (e_buf e);
        c ← (if negb (has h3 HB3_TC) && negb (has h4 HB4_CD) && has h4 HB4_RA && negb checking_disabled
             then cache_end_insert mix_tab (e_cache e) else mret (e_cache e));
        mret (0, e_buf e, e_name e, c)) = Ok (0, e_buf e, e_name e, c') /\ wf mix_tab c' l' nc' /\ length (l' ++ nc') = m) as (c' & l' & nc' & Hend & Hrest).
    2: { destruct fl; [by exists 0, c', l', nc'|by exists 0, c', l', nc'|by exists v, (e_cache e), l2, nc2]. }
    unfold hb3, hb4. destruct (packet_rd qlen n (e_buf e) 2 Hp2) as (h3 & -> & _); [unfold HEADER, SLACK in *; lia|].
    destruct (packet_rd qlen n (e_buf e) 3 Hp2) as (h4 & -> & _); [unfold HEADER, SLACK in *; lia|]. cbn [mbind comp_bind].
    destruct (_ && _); cbn [mbind comp_bind mret comp_ret]; [|by exists (e_cache e), l2, nc2].
    destruct (insert_error (e_cache e)) eqn:Hie.
    - unfold cache_end_insert. rewrite Hie. cbn [mbind comp_bind mret comp_ret]. by exists (e_cache e), l2, nc2.
    - destruct (end_insert_ok mix_tab (e_cache e) l2 nc2 W2 Hlk Hie) as (c' & l' & -> & W' & _ & _ & Hperm & _). cbn [mbind comp_bind mret comp_ret].
      exists c', l', []. rewrite app_nil_r. split_and!; [done|done|]. by rewrite (Permutation_length Hperm). }
  exists v, (e_buf e), (e_name e), c', l', nc'. split_and!; [exact Hend|done|done|done|lia].
Qed.
End extract_safe.
