(* ===== verification/DmRun.v ===== *)
(** dnsmasq's cache in use: replies that come in and searches, in any order,
    from the start of the program on. *)
From S2P Require Import Prelude CString Dns Common DmUtil DmName DmPacket DmLru DmCache DmCacheInv DmCacheOps DmCacheAddr DmAnswer.
Set Warnings "-clear-no-such-hyp,-notation-for-abbreviation".

(** A reply in the packet buffer, of which [qlen] bytes have been received, and
    the loops that look for all records with a name or an address. *)
Inductive event :=
  | Reply (buf : list Z) (qlen now : Z) (is_sign check_rebind checking_disabled : bool)
  | ByName (name : list Z) (now prot : Z)
  | ByAddr (addr : in_addr) (now prot : Z).

Section run.
Context (mix_tab : Z -> Z) (clobbered : Z -> list Z -> list Z) (max_cache_ttl max_ttl neg_ttl : Z) (doctors : list doctor).
Context (can_malloc : cache -> bool) (log no_neg local_rebind : bool).

(** The cache, and [daemon->namebuff]. *)
Record dstate := Dstate { d_cache : cache; d_name : list Z }.

Definition handle (s : dstate) (ev : event) : comp dstate :=
  match ev with
  | Reply buf qlen now is_sign check_rebind checking_disabled =>
      '(_, _, name, c) ← extract_addresses mix_tab clobbered max_cache_ttl max_ttl neg_ttl doctors can_malloc log no_neg local_rebind
        qlen now is_sign check_rebind buf (d_name s) (d_cache s) checking_disabled;
      mret (Dstate c name)
  | ByName name now prot =>
      '(_, c) ← find_all mix_tab (S (S (size (recs (d_cache s))))) (d_cache s) None name now prot; mret (Dstate c (d_name s))
  | ByAddr addr now prot =>
      '(_, c) ← find_all_addr now addr prot (S (S (size (recs (d_cache s))))) (d_cache s) None; mret (Dstate c (d_name s))
  end.

Fixpoint handle_all (s : dstate) (evs : list event) : comp dstate :=
  match evs with [] => Ok s | ev :: evs' => s ← handle s ev; handle_all s evs' end.

Definition start (cachesize : Z) : comp dstate :=
  c ← cache_init mix_tab cachesize; mret (Dstate c (replicate (Z.to_nat MAXDNAME) 0)).

(** What has been received has a header, and the packet buffer goes on behind
    it. *)
Definition event_ok (ev : event) : Prop :=
  match ev with
  | Reply buf qlen _ _ _ _ => HEADER <= qlen /\ bytes buf /\ qlen + SLACK <= zlen buf
  | _ => True
  end.

Definition state_ok (cachesize : Z) (s : dstate) : Prop :=
  MAXDNAME <= zlen (d_name s) /\ exists l nc, wf mix_tab (d_cache s) l nc /\ zlen (l ++ nc) = cachesize.

Lemma start_ok cachesize : 0 <= cachesize -> exists s, start cachesize = Ok s /\ state_ok cachesize s.
Proof.
  intros Hs. unfold start. destruct (cache_init_ok mix_tab cachesize Hs) as (c & l & -> & W & Hl & _). cbn [mbind comp_bind mret comp_ret].
  eexists. split; [done|]. split; [cbn [d_name]; unfold zlen; rewrite length_replicate; unfold MAXDNAME; lia|].
  exists l, []. by rewrite app_nil_r.
Qed.

Lemma handle_ok cachesize s ev : Forall doctor_ok doctors -> event_ok ev -> state_ok cachesize s ->
  exists s', handle s ev = Ok s' /\ state_ok cachesize s'.
Proof.
  intros Hdoc Hev (Hname & l & nc & W & Hsize). destruct ev as [buf qlen now is_sign rebind cd|name now prot|addr now prot]; cbn [handle].
  - destruct Hev as (Hq & Hb & Hlen).
    destruct (extract_safe mix_tab clobbered max_cache_ttl max_ttl neg_ttl doctors can_malloc log no_neg local_rebind qlen now is_sign rebind Hq Hdoc
      (whole qlen Hq (zlen buf)) buf (d_name s) (d_cache s) l nc cd W) as (v & b & nm & c' & l' & nc' & -> & W' & Hl' & _ & Hn'); [by split_and!|done|].
    cbn [mbind comp_bind mret comp_ret]. eexists. split; [done|]. split; [done|]. exists l', nc'. split; [done|]. unfold zlen in *. by rewrite Hl'.
  - destruct (find_all_ok mix_tab (d_cache s) l nc name now prot W) as (res & c' & l' & -> & W' & Hp & _). cbn [mbind comp_bind mret comp_ret].
    eexists. split; [done|]. split; [done|]. exists l', nc. split; [done|]. unfold zlen in *. rewrite length_app, (Permutation_length Hp). by rewrite length_app in Hsize.
  - destruct (find_all_addr_ok mix_tab now addr prot (d_cache s) l nc W) as (res & c' & l' & -> & W' & Hp & _). cbn [mbind comp_bind mret comp_ret].
    eexists. split; [done|]. split; [done|]. exists l', nc. split; [done|]. unfold zlen in *. rewrite length_app, (Permutation_length Hp). by rewrite length_app in Hsize.
Qed.

(** C2: replies that leave room in the packet buffer cannot do harm. When every
    packet that claims to be a reply has a header and ends at least [SLACK]
    (300) bytes in front of the end of the buffer, then from the start of the
    program on, whatever the packets hold and whatever is looked for in
    between, nothing is read or written outside the buffer (behind the packet
    it may be), no pointer dangles, all loops end, and the cache stays well
    formed with the [cachesize] records it was made with: none is lost, none
    is in use twice. The room is needed: the code reads up to ten bytes behind
    a packet that ends in a compression pointer, and the buffer of 4096 bytes
    that is the default has none for a reply of that size. The addresses in
    the alias options consist of bytes. *)
Theorem any_replies_safe cachesize evs : 0 <= cachesize -> Forall doctor_ok doctors -> Forall event_ok evs ->
  exists s s', start cachesize = Ok s /\ handle_all s evs = Ok s' /\ state_ok cachesize s'.
Proof.
  intros Hs Hdoc Hevs. destruct (start_ok cachesize Hs) as (s & -> & Hok). exists s.
  assert (exists s', handle_all s evs = Ok s' /\ state_ok cachesize s') as (s' & ? & ?); [|by exists s'].
  revert s Hok. induction Hevs as [|ev evs Hev _ IH]; intros s Hok; cbn [handle_all]; [by exists s|].
  destruct (handle_ok cachesize s ev Hdoc Hev Hok) as (s1 & -> & H1). by apply IH.
Qed.
End run.

(** * A run *)

(** The answer 1.2.3.4 to a query for the address of [a.org]; the name of the
    record is a pointer to the one of the question. *)
Definition demo_reply : list Z :=
  [0; 7; 0x80; 0x80; 0; 1; 0; 1; 0; 0; 0; 0] ++ [1; 97; 3; 111; 114; 103; 0; 0; 1; 0; 1] ++
  [192; 12; 0; 1; 0; 1; 0; 0; 0; 60; 0; 4; 1; 2; 3; 4] ++ replicate 300 0.

Lemma any_replies_safe_witness : exists s s', start demo_mix 2 = Ok s /\
  handle_all demo_mix demo_clobbered 0 0 0 [] (fun _ => true) false false false s
    [Reply demo_reply 39 100 false true false; ByName (lit "a.org") 120 F_IPV4; ByAddr (1, 2, 3, 4) 160 F_IPV4] = Ok s' /\
  state_ok demo_mix 2 s'.
Proof.
  apply (any_replies_safe demo_mix demo_clobbered 0 0 0 [] (fun _ => true) false false false 2); [lia|by constructor|].
  repeat constructor; try (by vm_compute); apply (bool_decide_unpack (bytes demo_reply)); by vm_compute.
Defined.

(** What the reply says is in the cache until it expires, whatever the case of
    the letters of the name that is asked for. *)
Example reply_then_lookup :
  (s ← start demo_mix 2;
   s ← handle demo_mix demo_clobbered 0 0 0 [] (fun _ => true) false false false s (Reply demo_reply 39 100 false true false);
   '(found, c) ← find_all demo_mix 9 (d_cache s) None (lit "A.Org") 159 F_IPV4;
   '(late, _) ← find_all demo_mix 9 c None (lit "a.org") 160 F_IPV4;
   Ok (map (fun i => option_map cr_addr (recs c !! i)) found, late)) = Ok ([Some (CAddr (1, 2, 3, 4))], []).
Proof. vm_compute. reflexivity. Qed.

(** A reply to a reverse query for 4.3.2.1 whose answer is an alias: the name
    of the question is 4.3.2.1.in-addr.arpa, the alias points to [p.org], and
    that name points to [h.org]. *)
Definition demo_ptr_reply : list Z :=
  [0; 7; 0x80; 0x80; 0; 1; 0; 2; 0; 0; 0; 0] ++
  [1; 52; 1; 51; 1; 50; 1; 49; 7; 105; 110; 45; 97; 100; 100; 114; 4; 97; 114; 112; 97; 0; 0; 12; 0; 1] ++
  [192; 12; 0; 5; 0; 1; 0; 0; 0; 60; 0; 7; 1; 112; 3; 111; 114; 103; 0] ++
  [192; 50; 0; 12; 0; 1; 0; 0; 0; 60; 0; 7; 1; 104; 3; 111; 114; 103; 0] ++ replicate 300 0.

(** The loop that follows aliases reads the name of the question back first, so
    it finds the same alias again until its count is used up: reverse answers
    behind an alias are never kept. *)
Example ptr_alias_never_kept :
  (s ← start demo_mix 2;
   s ← handle demo_mix demo_clobbered 0 0 0 [] (fun _ => true) false false false s (Reply demo_ptr_reply 76 100 false true false);
   '(found, _) ← find_all_addr 110 (1, 2, 3, 4) F_IPV4 9 (d_cache s) None; Ok (found, concat (hash_table (d_cache s)))) = Ok ([], []).
Proof. vm_compute. reflexivity. Qed.

(** A reply that fills the buffer of 4096 bytes, and whose second answer ends
    with its name, a pointer to a zero byte in the header: the type of the
    record is read behind the buffer. A shorter one that leaves 310 bytes of
    the buffer does no harm. *)
Definition full_reply (filling : nat) : list Z :=
  [0; 7; 0x80; 0x80; 0; 1; 0; 2; 0; 0; 0; 0] ++ [1; 97; 3; 111; 114; 103; 0; 0; 1; 0; 1] ++
  [192; 12; 0; 16; 0; 1; 0; 0; 0; 60] ++ put16 (Z.of_nat filling) ++ replicate filling 65 ++ [192; 4].

Example full_buffer_overread : zlen (full_reply 4059) = 4096 /\
  (s ← start demo_mix 2;
   handle demo_mix demo_clobbered 0 0 0 [] (fun _ => true) false false false s (Reply (full_reply 4059) 4096 100 false true false)) = Fault ReadOOB /\
  (s ← start demo_mix 2;
   s ← handle demo_mix demo_clobbered 0 0 0 [] (fun _ => true) false false false s (Reply (full_reply 3749 ++ replicate 310 0) 3786 100 false true false);
   Ok (concat (hash_table (d_cache s)))) = Ok [].
Proof. split_and!; vm_compute; reflexivity. Qed.
