(* ===== verification/DmFrame.v ===== *)
(** What the handling of a reply leaves as it was: the questions of the packet.
    Where they end, and so where [resize_packet] puts the pseudo header back,
    is not changed by what [extract_addresses] writes. *)
From S2P Require Import Prelude CString Dns Common DmUtil DmName DmPacket DmLru DmCache DmCacheInv DmCacheOps DmAnswer.
Set Warnings "-clear-no-such-hyp,-notation-for-abbreviation".

(** * Reading what was not written *)

Lemma rd_wr_other l i v l' j : wr l i v = Ok l' -> j <> i -> rd l' j = rd l j.
Proof.
  unfold wr, setb, rd, getb. destruct ((0 <=? i) && (i <? Z.of_nat (length l))) eqn:E; [|done]. cbn. intros [= <-] Hj. zbool.
  destruct (0 <=? j) eqn:Ej; [|done]. zbool. by rewrite list_lookup_insert_ne by lia.
Qed.

Lemma rd_wrs_other bs : forall l i l' j, wrs l i bs = Ok l' -> j < i \/ i + zlen bs <= j -> rd l' j = rd l j.
Proof.
  induction bs as [|b bs IH]; intros l i l' j; cbn [wrs]; [by intros [= ->]|]. destruct (wr l i b) as [l1|] eqn:E; [|done]. cbn [mbind comp_bind].
  intros H Hj. rewrite zlen_cons in Hj. pose proof (zlen_nonneg bs). rewrite (IH _ _ _ j H) by lia. apply (rd_wr_other _ _ _ _ _ E). lia.
Qed.

Lemma rd_wrs_in bs : forall l i l' k b, wrs l i bs = Ok l' -> 0 <= i -> bs !! k = Some b -> rd l' (i + Z.of_nat k) = Ok b.
Proof.
  induction bs as [|c bs IH]; intros l i l' k b; cbn [wrs]; [done|]. destruct (wr l i c) as [l1|] eqn:E; [|done]. cbn [mbind comp_bind].
  intros H Hi Hk. destruct k as [|k].
  - injection Hk as <-. replace (i + Z.of_nat 0) with i by lia. rewrite (rd_wrs_other _ _ _ _ _ H) by lia. revert E. unfold wr, setb, rd, getb.
    destruct ((0 <=? i) && (i <? Z.of_nat (length l))) eqn:Ei; [|done]. zbool. cbn. intros [= <-].
    rewrite (proj2 (Z.leb_le 0 i)), list_lookup_insert_eq by lia. done.
  - cbn in Hk. replace (i + Z.of_nat (S k)) with (i + 1 + Z.of_nat k) by lia. by apply (IH l1); [|lia|].
Qed.

Lemma rd16_cong a b i : rd a i = rd b i -> rd a (i + 1) = rd b (i + 1) -> rd16 a i = rd16 b i.
Proof. unfold rd16. by intros -> ->. Qed.

(** * Where the questions end *)

(** The number of questions and what lies between the header and [hi]. *)
Definition agree (hi : Z) (a b : list Z) : Prop := rd a 4 = rd b 4 /\ rd a 5 = rd b 5 /\ forall i, HEADER <= i < hi -> rd a i = rd b i.

(** And the whole header but for the flags. *)
Definition agree_head (hi : Z) (a b : list Z) : Prop := agree hi a b /\ (forall i, 0 <= i < 2 \/ 4 <= i < HEADER -> rd a i = rd b i).

Lemma agree_sym hi a b : agree hi a b -> agree hi b a.
Proof. intros (H1 & H2 & H3). split_and!; [done|done|]. intros i Hi. symmetry. by apply H3. Qed.

Lemma agree_wrs hi a b i bs b' : HEADER <= hi -> agree hi a b -> writable hi i (zlen bs) -> wrs b i bs = Ok b' -> agree hi a b'.
Proof.
  intros Hhi (H1 & H2 & H3) Hw Hb. unfold writable, HEADER in *. split_and!.
  - rewrite (rd_wrs_other _ _ _ _ 4 Hb) by lia. done.
  - rewrite (rd_wrs_other _ _ _ _ 5 Hb) by lia. done.
  - intros j Hj. unfold HEADER in Hj. rewrite (rd_wrs_other _ _ _ _ j Hb) by lia. by apply H3.
Qed.

Lemma agree_head_wrs hi a b i bs b' : HEADER <= hi -> agree_head hi a b -> writable hi i (zlen bs) -> wrs b i bs = Ok b' -> agree_head hi a b'.
Proof.
  intros Hhi [H1 H2] Hw Hb. split; [by apply (agree_wrs hi a b i bs)|]. unfold writable, HEADER in *. intros j Hj. rewrite (rd_wrs_other _ _ _ _ j Hb) by lia. by apply H2.
Qed.

Section local.
Context (a b : list Z) (plen : Z) (Ha : bytes a) (Hpl : 0 <= plen <= zlen a).

(** How far a walk has to look. *)
Definition reach (r : option Z) : Z := default plen r.

Lemma skip_local fuel : forall p x r, 0 <= p -> 0 <= x -> Z.max 0 (plen - p) < Z.of_nat fuel ->
  skip_loop fuel a plen x p = Ok r -> (forall i, p <= i < reach r -> rd a i = rd b i) -> skip_loop fuel b plen x p = Ok r.
Proof.
  induction fuel as [|fuel IH]; intros p x r Hp Hx Hf; [lia|]. intros Hs Hag.
  destruct (skip_loop_safe a plen x Ha (proj2 Hpl) Hx (S fuel) p Hp Hf) as (r' & Hr' & Hq). rewrite Hs in Hr'. injection Hr' as <-.
  assert (p + 1 <= plen -> p < reach r) as Hreach by (destruct r as [q|]; cbn; [pose proof (Hq q eq_refl); lia|lia]).
  revert Hs. cbn [skip_loop]; unfold CHECK_LEN, ADD_RDLEN, CHECK_LEN, skip_end, CHECK_LEN.
  destruct (p + 1 <=? plen) eqn:E1; zbool; cbn [negb]; [|done]. rewrite <- (Hag p) by (specialize (Hreach E1); lia).
  destruct (rd_ok a p) as (c & Hc & _); [lia|]. rewrite Hc. pose proof (rd_byte _ _ _ Ha Hc) as Hcb. cbn [mbind comp_bind].
  assert (0 <= Z.land c 63) as Hlen by (apply Z.land_nonneg; lia).
  assert (Hrec : forall q, p < q -> skip_loop fuel a plen x q = Ok r -> skip_loop fuel b plen x q = Ok r).
  { intros q Hpq Hq'. apply IH; [lia|done|lia|done|]. intros i Hi. apply Hag. lia. }
  destruct (label_kind c Hcb) as [[Hk ->]|[[Hk ->]|[[Hk ->]|[Hk ->]]]]; cbv zeta; cbn [Z.eqb Pos.eqb]; [| |done|done].
  - destruct (p + 1 + Z.land c 63 <=? plen) eqn:E2; zbool; [|done]. case_if; [done|]. apply Hrec; lia.
  - destruct (p + 2 <=? plen) eqn:E2; zbool; cbn [negb]; [|done]. destruct (negb (Z.land c 63 =? 1)); [done|].
    destruct (rd_ok a (p + 1)) as (d & Hd & _); [lia|]. pose proof (rd_byte _ _ _ Ha Hd) as Hdb. rewrite Hd. cbn [mbind comp_bind]. intros Hs.
    assert (0 <= (if d =? 0 then 32 else Z.shiftr (d - 1) 3 + 1)) as Hst.
    { case_if; [lia|]. zbool. rewrite Z.shiftr_div_pow2 by lia. unfold is_byte in Hdb. pose proof (Z.div_pos (d - 1) (2 ^ 3)). lia. }
    set (st := if d =? 0 then 32 else Z.shiftr (d - 1) 3 + 1) in *.
    assert (p + 1 < reach r) as Hr1.
    { destruct r as [q|]; cbn; [|lia]. destruct (skip_loop_safe a plen x Ha (proj2 Hpl) Hx fuel (p + 2 + st)) as (r2 & Hr2 & Hq2); [lia|lia|].
      rewrite Hs in Hr2. injection Hr2 as <-. pose proof (Hq2 q eq_refl). lia. }
    rewrite <- (Hag (p + 1)), Hd by lia. cbn [mbind comp_bind]. apply Hrec; [lia|done].
Qed.

Lemma questions_local n : forall p r, 0 <= p -> questions_loop n a plen p = Ok r -> (forall i, p <= i < reach r -> rd a i = rd b i) ->
  questions_loop n b plen p = Ok r.
Proof.
  induction n as [|n IH]; intros p r Hp; cbn [questions_loop]; [done|]. unfold skip_name.
  destruct (skip_name_safe a p plen 4 Ha Hpl) as (s & Hs & Hq); [lia|done|]. unfold skip_name in Hs. rewrite Hs. cbn [mbind comp_bind]. intros Hr Hag.
  assert (reach s <= reach r) as Hle.
  { destruct s as [q|]; cbn [reach default]; [|injection Hr as <-; cbn; lia].
    destruct (Hq q eq_refl) as [H1 H2]. destruct (questions_loop_safe a plen Ha Hpl n (q + 4)) as (r' & Hr' & He & _); [lia|].
    rewrite Hr in Hr'. injection Hr' as <-. destruct r as [e|]; cbn; [|lia]. specialize (He e eq_refl). lia. }
  rewrite (skip_local _ p 4 s) by (done || lia || (intros i Hi; apply Hag; lia)). cbn [mbind comp_bind].
  destruct s as [q|]; [|done]. destruct (Hq q eq_refl) as [H1 H2]. apply IH; [lia|done|]. intros i Hi. apply Hag. lia.
Qed.

Lemma skip_questions_local r : skip_questions a plen = Ok r -> agree (reach r) a b -> skip_questions b plen = Ok r.
Proof.
  unfold skip_questions, qdcount. intros Hr (H4 & H5 & Hag). rewrite <- (rd16_cong a b 4) by done. destruct (rd16 a 4) as [n|]; [|done].
  cbn [mbind comp_bind] in *. by apply questions_local.
Qed.
End local.

(** * The region behind the questions *)

Section region.
Context (qlen : Z) (Hq : HEADER <= qlen) (buf0 : list Z) (Hb0 : bytes buf0) (Hl0 : qlen <= zlen buf0).

(** Where the questions of [buf0] end, or the end of the message when they are
    malformed. *)
Definition question_end : Z := match skip_questions buf0 qlen with Ok (Some e) => e | _ => qlen end.

Lemma question_end_ok : exists r, skip_questions buf0 qlen = Ok r /\ question_end = reach qlen r /\ HEADER <= question_end <= qlen /\
  forall e, r = Some e -> question_end = e.
Proof.
  unfold question_end. destruct (skip_questions_safe buf0 qlen Hb0) as (r & -> & He & _); [unfold HEADER in *; lia|done|].
  exists r. destruct r as [e|]; cbn; [|by split_and!]. specialize (He e eq_refl). split_and!; try done; try lia. congruence.
Qed.

Lemma agree_end buf e : agree question_end buf0 buf -> skip_questions buf qlen = Ok (Some e) -> question_end = e.
Proof.
  destruct question_end_ok as (r & Hr & He & _ & Hx). rewrite He. intros Hag Hs.
  rewrite (skip_questions_local buf0 buf qlen Hb0 ltac:(unfold HEADER in *; lia) r Hr Hag) in Hs. injection Hs as ->. done.
Qed.

Definition behind_questions : region qlen.
Proof.
  refine (Region qlen (zlen buf0) question_end (agree_head question_end buf0) _ _ _).
  - destruct question_end_ok as (r & _ & _ & [H _] & _). unfold HEADER in H. lia.
  - intros buf i bs buf' Hk _ Hw Hs. destruct question_end_ok as (r & _ & _ & [H _] & _). by apply (agree_head_wrs _ _ buf i bs).
  - intros buf e [Hk _] _ _ _ He. rewrite (agree_end buf e Hk He). lia.
Defined.

Lemma behind_ok : qlen + SLACK <= zlen buf0 -> packet_ok qlen behind_questions buf0.
Proof. intros Hs. by split_and!. Qed.
End region.

(** * The pseudo header *)

Section pseudo.
Context (buf : list Z) (plen : Z) (Hb : bytes buf) (Hh : HEADER <= plen) (Hl : plen <= zlen buf).

(** A pseudo header that starts at [lo] at the earliest. *)
Definition pseudo_in (lo : Z) (r : option pseudo) : Prop :=
  forall st len sz, r = Some (st, len, sz) -> lo <= st /\ st < sz /\ sz + 8 <= st + len /\ st + len <= plen.

Lemma additional_safe n want : forall lo p ret sign, 0 <= lo <= p -> pseudo_in lo ret ->
  exists r s, additional_loop n want buf plen p ret sign = Ok (r, s) /\ pseudo_in lo r.
Proof.
  induction n as [|n IH]; intros lo p ret sign Hp Hret; cbn [additional_loop]; [by exists ret, sign|]. cbv zeta. unfold HEADER in *.
  destruct (skip_name_safe buf p plen 10 Hb) as (r & -> & Hr); [lia|done|lia|]. cbn [mbind comp_bind]. destruct r as [q|]; [|by exists None, sign].
  destruct (Hr q eq_refl) as [H1 H2]. destruct (rd16_ok buf q Hb) as (type & -> & _); [lia|lia|]. destruct (rd16_ok buf (q + 2) Hb) as (class & -> & _); [lia|lia|].
  destruct (rd16_ok buf (q + 8) Hb) as (len & -> & Hlen); [lia|lia|]. cbn [mbind comp_bind]. unfold ADD_RDLEN, CHECK_LEN, is_u16 in *.
  destruct (q + 10 + len <=? plen) eqn:E; zbool; [|by exists None, sign].
  destruct (type =? T_OPT); apply IH; try lia; [|done]. intros st ln sz [= <- <- <-]. lia.
Qed.

Lemma section_safe n : forall p, 0 <= p <= plen -> exists r, skip_section n buf plen p = Ok r /\ (forall q, r = Some q -> p <= q <= plen).
Proof.
  intros p Hp. assert (0 <= plen <= zlen buf) as Hpl by (unfold HEADER in *; lia). rewrite (skip_section_rrs buf plen Hb Hpl) by lia.
  destruct (read_rrs_safe buf plen Hb Hpl n p Hp) as (r & -> & Hr). cbn [mbind comp_bind]. eexists. split; [done|].
  destruct r as [[rs e]|]; [|done]. intros q [= <-]. by apply (Hr rs e).
Qed.

Lemma header_field i : 0 <= i <= 10 -> exists v, rd16 buf i = Ok v /\ is_u16 v.
Proof. intros Hi. apply rd16_ok; [done|lia|]. unfold HEADER in *. lia. Qed.

Lemma pseudo_safe want : exists r sign, find_pseudoheader buf plen want = Ok (r, sign) /\ pseudo_in HEADER r /\
  (r <> None -> exists ar, arcount buf = Ok ar /\ ar <> 0) /\
  (forall h3, hb3 buf = Ok h3 -> want = false \/ OPCODE h3 = 0 ->
     exists q, skip_questions buf plen = Ok q /\ match q with Some e => pseudo_in e r | None => r = None end).
Proof.
  assert (0 <= plen <= zlen buf) as Hpl by (unfold HEADER in *; lia). unfold find_pseudoheader, arcount, ancount, nscount, hb3.
  destruct (header_field 10) as (ar & -> & _); [lia|]. cbn [mbind comp_bind]. destruct (rd_ok buf 2) as (h3 & Hh3 & _); [unfold HEADER in *; lia|].
  destruct (skip_questions_safe buf plen Hb Hpl Hh) as (q & Hq & He & Htk).
  assert (forall r sign, r = None -> exists r' sign', (Ok (r, sign) : comp (option pseudo * Z)) = Ok (r', sign') /\ pseudo_in HEADER r' /\
    (r' <> None -> exists ar', Ok ar = Ok ar' /\ ar' <> 0) /\ (forall h3', rd buf 2 = Ok h3' -> want = false \/ OPCODE h3' = 0 ->
      exists q, skip_questions buf plen = Ok q /\ match q with Some e => pseudo_in e r' | None => r' = None end)) as Hnone.
  { intros r sign ->. exists None, sign. split_and!; try done. intros _ _ _. exists q. split; [done|]. by destruct q. }
  match goal with |- context [mbind _ ?x] => assert (exists r sign, x = Ok (r, sign) /\ (forall p, r = Some p -> HEADER <= p <= plen) /\
    (want = false \/ OPCODE h3 = 0 -> r = q)) as (r & sign & -> & Hr & Hrq) end.
  { destruct want.
    - rewrite Hh3. cbn [mbind comp_bind]. destruct (OPCODE h3 =? 0) eqn:Eo; zbool.
      + unfold qdcount in *. destruct (header_field 4) as (n & Hn & _); [lia|]. rewrite Hn. cbn [mbind comp_bind].
        destruct (Htk n Hn) as (s & ->). exists q, s. by split_and!.
      + eexists _, _. split; [reflexivity|]. split; [intros p [= <-]; lia|]. by intros [?|?].
    - rewrite Hq. cbn [mbind comp_bind mret comp_ret]. exists q, 0. by split_and!. }
  cbn [mbind comp_bind]. destruct r as [p|]; [|by apply Hnone]. destruct (ar =? 0) eqn:Ear; zbool; [by apply Hnone|].
  destruct (header_field 6) as (an & -> & _); [lia|]. destruct (header_field 8) as (ns & -> & _); [lia|]. cbn [mbind comp_bind].
  specialize (Hr p eq_refl). destruct (section_safe (Z.to_nat (an + ns)) p) as (s & -> & Hs); [unfold HEADER in *; lia|]. cbn [mbind comp_bind].
  destruct s as [p1|]; [|by apply Hnone]. specialize (Hs p1 eq_refl).
  destruct (additional_safe (Z.to_nat ar) want p p1 None sign) as (r & s & -> & Hres); [unfold HEADER in *; lia|done|]. exists r, s. split; [done|]. split_and!.
  - intros st len sz Hst. destruct (Hres st len sz Hst). lia.
  - intros _. by exists ar.
  - intros h3' Hh3' Hw. assert (h3' = h3) as -> by congruence. specialize (Hrq Hw). exists (Some p). by rewrite Hrq.
Qed.
End pseudo.

(** * The length of a reply *)

(** The pseudo header goes back behind the questions when there is nothing else
    left; it must fit there. *)
Lemma resize_ok buf plen ph hlen : bytes buf -> HEADER <= plen -> plen <= zlen buf ->
  (forall p, ph = Some p -> 0 <= p /\ 0 <= hlen /\ p + hlen <= zlen buf /\
     ((exists ar, arcount buf = Ok ar /\ ar <> 0) \/
      ancount buf = Ok 0 /\ nscount buf = Ok 0 /\ forall e, skip_questions buf plen = Ok (Some e) -> e + hlen <= zlen buf)) ->
  exists nn buf', resize_packet buf plen ph hlen = Ok (nn, buf') /\ bytes buf' /\ zlen buf' = zlen buf /\
    HEADER <= nn /\ (nn <= plen \/ exists p e, ph = Some p /\ skip_questions buf plen = Ok (Some e) /\ nn = e + hlen) /\
    (forall i, 0 <= i < 10 -> rd buf' i = rd buf i).
Proof.
  intros Hb Hh Hl Hph. assert (0 <= plen <= zlen buf) as Hpl by (unfold HEADER in *; lia). unfold resize_packet.
  destruct (skip_questions_safe buf plen Hb Hpl Hh) as (q & Hq & He & _). rewrite Hq. cbn [mbind comp_bind].
  destruct q as [e|]; [|exists plen, buf; split_and!; auto; lia]. specialize (He e eq_refl).
  unfold ancount, nscount, arcount in *. destruct (header_field buf plen Hb Hh Hl 6) as (an & Han & _); [lia|]. destruct (header_field buf plen Hb Hh Hl 8) as (ns & Hns & _); [lia|].
  destruct (header_field buf plen Hb Hh Hl 10) as (ar & Har & _); [lia|]. rewrite Han, Hns, Har. cbn [mbind comp_bind].
  destruct (section_safe buf plen Hb Hh Hl (Z.to_nat (an + ns + ar)) e) as (s & Hs & Hse); [unfold HEADER in *; lia|]. rewrite Hs. cbn [mbind comp_bind].
  destruct s as [e1|]; [|exists plen, buf; split_and!; auto; lia]. specialize (Hse e1 eq_refl).
  assert (exists nn buf', (Ok (e1, buf) : comp (Z * list Z)) = Ok (nn, buf') /\ bytes buf' /\ zlen buf' = zlen buf /\
    HEADER <= nn /\ (nn <= plen \/ exists p e0, ph = Some p /\ Ok (Some e) = Ok (Some e0) /\ nn = e0 + hlen) /\ (forall i, 0 <= i < 10 -> rd buf' i = rd buf i)) as Hkeep.
  { exists e1, buf. split_and!; auto; [lia|left; lia]. }
  destruct ph as [p|]; [|done]. destruct (ar =? 0) eqn:Ear; zbool; [|done]. clear Hkeep.
  destruct (Hph p eq_refl) as (Hp & Hhl & Hphl & [(ar' & Har' & Hne)|(Han0 & Hns0 & Hfit)]); [congruence|].
  assert (an = 0) as -> by congruence. assert (ns = 0) as -> by congruence. subst ar. cbn in Hs. injection Hs as <-. specialize (Hfit e Hq).
  unfold memmove. destruct (zlen buf <? p + hlen) eqn:E; zbool; [lia|]. set (bs := take _ _).
  assert (zlen bs = hlen) as Hbs by (unfold bs, zlen in *; rewrite length_take, length_drop; lia).
  unfold HEADER in *. rewrite wrs_ok by lia. cbn [mbind comp_bind]. set (b1 := blit _ _ _).
  assert (zlen b1 = zlen buf) as Hl1 by (unfold b1; rewrite zlen_blit; lia). assert (bytes b1) as Hb1.
  { apply bytes_blit; [done|]. unfold bs, bytes. by apply Forall_take, Forall_drop. }
  assert (wrs buf e bs = Ok b1) as Hw1 by (by rewrite wrs_ok by lia).
  destruct (wrs b1 10 (put16 1)) as [b2|] eqn:Hw2; [|rewrite wrs_ok in Hw2 by (rewrite ?zlen_put16; lia); done].
  cbn [mbind comp_bind mret comp_ret]. exists (e + hlen), b2.
  assert (b2 = blit b1 10 (put16 1)) as -> by (rewrite wrs_ok in Hw2 by (rewrite ?zlen_put16; lia); by injection Hw2 as <-).
  split_and!; [done| | |lia| |].
  - apply bytes_blit; [done|]. unfold put16, bytes. repeat constructor; apply hi8_byte || apply lo8_byte.
  - rewrite (zlen_blit b1 10) by (rewrite ?zlen_put16; lia). done.
  - right. by exists p, e.
  - intros i Hi. rewrite (rd_wrs_other _ _ _ _ i Hw2) by lia. apply (rd_wrs_other _ _ _ _ i Hw1). lia.
Qed.

(** * Reading the questions, and answering without servers *)

Section whole.
Context (qlen : Z) (Hq : HEADER <= qlen) (n : region qlen).

Lemma crc_loop_safe buf k : packet_ok qlen n buf -> forall p name crc, 0 <= p -> MAXDNAME <= zlen name ->
  exists v name', crc_loop k buf qlen p name crc = Ok (v, name') /\ zlen name' = zlen name.
Proof.
  intros Hp. induction k as [|k IH]; intros p name crc Hp0 Hn; cbn [crc_loop]; [by exists crc, name|].
  destruct (packet_name qlen Hq n buf p name 4 Hp) as (r & q & nm & -> & Hl & Hr); [lia|lia|done|]. cbn [mbind comp_bind].
  destruct (r =? 0) eqn:Er; zbool; [by exists crc, nm|]. destruct Hr as [[? _]|(_ & Hq1 & _)]; [done|]. cbv zeta.
  destruct (packet_rd qlen n buf q Hp) as (b0 & -> & _); [unfold SLACK; lia|]. destruct (packet_rd qlen n buf (q + 1) Hp) as (b1 & -> & _); [unfold SLACK; lia|].
  destruct (packet_rd qlen n buf (q + 2) Hp) as (b2 & -> & _); [unfold SLACK; lia|]. destruct (packet_rd qlen n buf (q + 3) Hp) as (b3 & -> & _); [unfold SLACK; lia|].
  cbn [mbind comp_bind]. destruct (negb _); [by eexists _, nm|]. edestruct IH as (v & nm' & -> & Hl'); [| |exists v, nm'; split; [done|]]; lia.
Qed.

Lemma crc_safe buf name : packet_ok qlen n buf -> MAXDNAME <= zlen name -> exists v name', questions_crc buf qlen name = Ok (v, name') /\ zlen name' = zlen name.
Proof.
  intros Hp Hn. unfold questions_crc, qdcount. destruct (packet_header qlen Hq n buf 4 Hp) as (q & -> & _); [lia|]. cbn [mbind comp_bind].
  by apply crc_loop_safe.
Qed.

Lemma request_safe buf name : packet_ok qlen n buf -> MAXDNAME <= zlen name ->
  exists flags type name', extract_request buf qlen name = Ok (flags, type, name') /\ zlen name' = zlen name.
Proof.
  intros Hp Hn. unfold extract_request, qdcount, hb3. destruct (packet_header qlen Hq n buf 4 Hp) as (q & -> & _); [lia|].
  destruct (packet_rd qlen n buf 2 Hp) as (h3 & -> & _); [unfold HEADER, SLACK in *; lia|]. cbn [mbind comp_bind].
  destruct (_ || _); [by eexists _, _, name|].
  destruct (packet_name qlen Hq n buf HEADER name 4 Hp) as (r & p & nm & -> & Hl & Hr); [lia|done|done|]. cbn [mbind comp_bind].
  destruct (r =? 0) eqn:Er; zbool; [by eexists _, _, nm|]. destruct Hr as [[? _]|(_ & Hp1 & _)]; [done|]. unfold HEADER in Hp1.
  destruct (packet_rd16 qlen n buf p Hp) as (t & -> & _); [lia|unfold SLACK; lia|]. destruct (packet_rd16 qlen n buf (p + 2) Hp) as (c & -> & _); [lia|unfold SLACK; lia|].
  cbn [mbind comp_bind]. by eexists _, _, nm.
Qed.

Lemma put16_all v : Forall is_byte (put16 v).
Proof. unfold put16. repeat constructor; apply hi8_byte || apply lo8_byte. Qed.
Lemma put32_all v : Forall is_byte (put32 v).
Proof. unfold put32. repeat constructor; try apply hi8_byte; try apply lo8_byte; apply Z.mod_pos_bound; lia. Qed.

(** The identifier stays. *)
Lemma setup_safe buf addr flags ttl : bytes buf -> qlen + SLACK <= zlen buf -> (flags = F_IPV4 -> zlen addr = 4 /\ bytes addr) ->
  exists len buf', setup_reply buf qlen addr flags ttl = Ok (len, buf') /\ bytes buf' /\ zlen buf' = zlen buf /\ (forall i, i < 2 -> rd buf' i = rd buf i) /\
    (forall l, len = Some l -> HEADER <= l).
Proof.
  intros Hb Hl Ha. unfold setup_reply, SLACK, HEADER in *.
  destruct (skip_questions_safe buf qlen Hb) as (r & -> & Hr & _); [lia|done|]. cbn [mbind comp_bind]. unfold hb3, hb4.
  destruct (rd_ok buf 2) as (h3 & Hh3 & _); [lia|]. destruct (rd_ok buf 3) as (h4 & Hh4 & _); [lia|]. rewrite Hh3, Hh4. cbn [mbind comp_bind]. cbv zeta.
  pose proof (rd_byte _ _ _ Hb Hh3) as B3. pose proof (rd_byte _ _ _ Hb Hh4) as B4.
  assert (forall b i bs, bytes b -> zlen b = zlen buf -> bytes bs -> 2 <= i -> i + zlen bs <= zlen buf -> (forall i, i < 2 -> rd b i = rd buf i) ->
    exists b', wrs b i bs = Ok b' /\ bytes b' /\ zlen b' = zlen buf /\ (forall i, i < 2 -> rd b' i = rd buf i)) as Hw.
  { intros b i bs Hbb Hlb Hbs Hi Hle Hsame. assert (wrs b i bs = Ok (blit b (Z.to_nat i) bs)) as Hw by (apply wrs_ok; lia). rewrite Hw. eexists. split; [done|].
    split_and!; [by apply bytes_blit|rewrite zlen_blit; lia|]. intros j Hj. rewrite (rd_wrs_other bs b i _ j Hw) by lia. by apply Hsame. }
  edestruct (Hw buf 6 (put16 0 ++ put16 0 ++ put16 0)) as (b1 & -> & Hb1 & Hl1 & S1); [done|done|by_decide|lia|change (zlen (put16 0 ++ put16 0 ++ put16 0)) with 6; lia|done|]. cbn [mbind comp_bind].
  set (known := _ && _). set (code := if flags =? F_NEG then _ else _).
  assert (is_byte code) as Hc by (unfold code; repeat case_if; by_decide).
  edestruct (Hw b1 2 [if known then Z.lor (Z.lor (Z.land h3 (255 - Z.lor HB3_AA HB3_TC)) HB3_QR) HB3_AA else Z.lor (Z.land h3 (255 - Z.lor HB3_AA HB3_TC)) HB3_QR;
    SET_RCODE (Z.lor h4 HB4_RA) code]) as (b2 & -> & Hb2 & Hl2 & S2); [done|done| |lia|rewrite !zlen_cons, zlen_nil; lia|done|].
  { assert (forall x, is_byte x -> is_byte (Z.land x (255 - Z.lor HB3_AA HB3_TC)) /\ is_byte (Z.land x (255 - HB4_RCODE))) as Hm by (intros x Hx; split; apply byte_ops; done || by_decide).
    assert (is_byte (Z.lor (Z.land h3 (255 - Z.lor HB3_AA HB3_TC)) HB3_QR)) as H3 by (apply byte_ops; [by apply Hm|by_decide]).
    unfold bytes. repeat (apply Forall_cons; split); [| |done]; [destruct known; [apply byte_ops; [done|by_decide]|done]|].
    unfold SET_RCODE. apply byte_ops; [|done]. apply Hm. apply byte_ops; [done|by_decide]. }
  cbn [mbind comp_bind]. destruct r as [p|]; [|by exists None, b2]. specialize (Hr p eq_refl). destruct known eqn:Hk; [|exists (Some p), b2; split_and!; try done; intros l [= <-]; unfold HEADER in *; lia].
  assert (flags = F_IPV4) as Hf by (unfold known in Hk; apply andb_true_iff in Hk as [_ Hk]; by apply Z.eqb_eq in Hk). destruct (Ha Hf) as [Ha4 Hab].
  unfold HEADER in Hr.
  edestruct (Hw b2 6 (put16 1)) as (b3 & -> & Hb3 & Hl3 & S3); [done|done|by_decide|lia|rewrite zlen_put16; lia|done|]. cbn [mbind comp_bind].
  rewrite add_record_cases; [|lia|repeat constructor; cbn; unfold INADDRSZ; lia|done]. cbv zeta. rewrite zlen_record.
  assert (args_data [Arg4 addr] = take 4 addr) as Had by (cbn; by rewrite app_nil_r). assert (zlen (take 4 addr) = 4) as Ht4 by (unfold zlen in *; rewrite length_take; lia).
  rewrite Had, Ht4. destruct (zlen b3 <? p + (12 + 4)) eqn:E; zbool; [lia|]. cbn [behind mbind comp_bind mret comp_ret a_pp a_buf].
  set (rec := record_bytes _ _ _ _ _). assert (zlen rec = 16) as Hrec by (unfold rec; rewrite zlen_record, Had; lia).
  destruct (Hw b3 p rec) as (b4 & Hw4 & Hb4 & Hl4 & S4); [done|done| |lia|lia|done|].
  { unfold rec, record_bytes, record_head. rewrite Had. unfold bytes. rewrite !Forall_app. split_and!; try apply put16_all; try apply put32_all. by apply Forall_take. }
  rewrite wrs_ok in Hw4 by lia. injection Hw4 as <-. eexists _, _. split_and!; try done. intros l [= <-]. unfold HEADER in *. lia.
Qed.
End whole.
