(* ===== verification/DmMac.v ===== *)
(** dnsmasq's rfc1035.c: the option with the hardware address of the client
    that is added to a query ([add_mac], [filter_mac]). The table of addresses,
    which [iface_enumerate] gets from the kernel, is an argument. *)
From S2P Require Import Prelude CString Dns Common DmUtil DmName DmPacket DmLru DmCache DmCacheInv DmCacheOps DmAnswer DmFrame.
Set Warnings "-clear-no-such-hyp,-notation-for-abbreviation".

Definition EDNS0_OPTION_MAC : Z := 5.

Record arp := Arp { arp_family : Z; arp_addr : in_addr; arp_mac : list Z }.

(** The options of a pseudo header; [None] when one holds an address
    already. *)
Fixpoint option_loop (fuel : nat) (buf : list Z) (i rdlen p : Z) : comp (option Z) :=
  match fuel with
  | O => Fault NoFuel
  | S fuel' =>
      if i + 4 <? rdlen then
        code ← rd16 buf p; len ← rd16 buf (p + 2);
        if code =? EDNS0_OPTION_MAC then Ok None else option_loop fuel' buf (i + len + 4) rdlen (p + 4 + len)
      else Ok (Some p)
  end.

(** The option itself. *)
Definition put_mac (buf mac : list Z) (p datap lenp : Z) : comp (Z * list Z) :=
  let maclen := zlen mac in
  buf ← PUTSHORT buf p EDNS0_OPTION_MAC; buf ← PUTSHORT buf (p + 2) maclen; buf ← wrs buf (p + 4) mac;
  let p := p + 4 + maclen in
  buf ← PUTSHORT buf lenp (p - datap); mret (p, buf).

(** Whether the enumeration goes on, the length and the packet. *)
Definition filter_mac (buf : list Z) (limit plen : Z) (l3 : mysockaddr) (e : arp) : comp (bool * Z * list Z) :=
  let maclen := zlen (arp_mac e) in
  let match_ := (arp_family e =? sa_family l3) && (arp_family e =? AF_INET) && bool_decide (sin_addr l3 = arp_addr e) in
  if negb match_ then Ok (true, plen, buf)
  else
    ar ← arcount buf;
    if ar =? 0 then
      r ← skip_questions buf plen;
      match r with
      | None => Ok (false, plen, buf)
      | Some p =>
          an ← ancount buf; ns ← nscount buf;
          r ← skip_section (Z.to_nat (an + ns)) buf plen p;
          match r with
          | None => Ok (false, plen, buf)
          | Some p =>
              buf ← wr buf p 0; buf ← PUTSHORT buf (p + 1) T_OPT; buf ← PUTSHORT buf (p + 3) PACKETSZ;
              buf ← PUTLONG buf (p + 5) 0; buf ← PUTSHORT buf (p + 9) 0;
              if limit - (p + 11 + 4) <? maclen then Ok (false, plen, buf)
              else buf ← wrs buf 10 (put16 1); '(plen, buf) ← put_mac buf (arp_mac e) (p + 11) (p + 11) (p + 9); mret (false, plen, buf)
          end
      end
    else if negb (ar =? 1) then Ok (false, plen, buf)
    else
      '(r, is_sign) ← find_pseudoheader buf plen true;
      match r with
      | None => Ok (false, plen, buf)
      | Some (st, _, _) =>
          if negb (is_sign =? 0) then Ok (false, plen, buf)
          else
            r ← skip_name buf st plen 10;
            match r with
            | None => Ok (false, plen, buf)
            | Some p =>
                rdlen ← rd16 buf (p + 8);
                let datap := p + 10 in
                if negb (CHECK_LEN datap plen rdlen) then Ok (false, plen, buf)
                else
                  r ← option_loop (S (Z.to_nat rdlen)) buf 0 rdlen datap;
                  match r with
                  | None => Ok (false, plen, buf)
                  | Some q =>
                      if limit - (q + 4) <? maclen then Ok (false, plen, buf)
                      else '(plen, buf) ← put_mac buf (arp_mac e) q datap (p + 8); mret (false, plen, buf)
                  end
            end
      end.

(** [iface_enumerate] *)
Fixpoint enumerate (es : list arp) (buf : list Z) (limit plen : Z) (l3 : mysockaddr) : comp (Z * list Z) :=
  match es with
  | [] => Ok (plen, buf)
  | e :: es' =>
      '(more, plen, buf) ← filter_mac buf limit plen l3 e;
      if (more : bool) then enumerate es' buf limit plen l3 else mret (plen, buf)
  end.

Definition add_mac (arps : list arp) (buf : list Z) (plen limit : Z) (l3 : mysockaddr) : comp (Z * list Z) :=
  ar ← arcount buf;
  if 1 <? ar then Ok (plen, buf) else enumerate arps buf limit plen l3.

(** * No write outside the buffer *)

(** The fields in front of the number of additional records are the same. *)
Definition same_head (a b : list Z) : Prop := forall j, j < 10 -> rd b j = rd a j.
Lemma same_head_refl a : same_head a a.
Proof. done. Qed.
Lemma same_head_trans a b c : same_head a b -> same_head b c -> same_head a c.
Proof. intros H1 H2 j Hj. by rewrite H2, H1. Qed.

(** A write that stays in the buffer. *)
Lemma wrs_bytes buf i bs : bytes buf -> bytes bs -> 0 <= i -> i + zlen bs <= zlen buf ->
  exists buf', wrs buf i bs = Ok buf' /\ bytes buf' /\ zlen buf' = zlen buf /\ (10 <= i -> same_head buf buf').
Proof.
  intros Hb Hbs Hi Hl. assert (wrs buf i bs = Ok (blit buf (Z.to_nat i) bs)) as Hw by (apply wrs_ok; lia). rewrite Hw. eexists.
  split_and!; [done|by apply bytes_blit|by apply zlen_blit|]. intros H10 j Hj. apply (rd_wrs_other bs buf i); [done|lia].
Qed.

Lemma short_bytes buf p v : bytes buf -> 0 <= p -> p + 2 <= zlen buf -> exists buf', PUTSHORT buf p v = Ok buf' /\ bytes buf' /\ zlen buf' = zlen buf /\ (10 <= p -> same_head buf buf').
Proof. intros. apply wrs_bytes; [done|apply put16_all|done|by rewrite zlen_put16]. Qed.
Lemma long_bytes buf p v : bytes buf -> 0 <= p -> p + 4 <= zlen buf -> exists buf', PUTLONG buf p v = Ok buf' /\ bytes buf' /\ zlen buf' = zlen buf /\ (10 <= p -> same_head buf buf').
Proof. intros. by apply wrs_bytes; [|apply put32_all| |]. Qed.

(** One write after the other. *)
Ltac next_write := 
  match goal with
  | |- context [PUTSHORT ?b ?p ?v] =>
      let b' := fresh "b" in let H1 := fresh in let H2 := fresh in let H3 := fresh "S" in
      destruct (short_bytes b p v) as (b' & -> & H1 & H2 & H3); [assumption|lia|lia|]; specialize (H3 ltac:(lia)); cbn [mbind comp_bind mret comp_ret]
  | |- context [PUTLONG ?b ?p ?v] =>
      let b' := fresh "b" in let H1 := fresh in let H2 := fresh in let H3 := fresh "S" in
      destruct (long_bytes b p v) as (b' & -> & H1 & H2 & H3); [assumption|lia|lia|]; specialize (H3 ltac:(lia)); cbn [mbind comp_bind mret comp_ret]
  end.

Lemma put_mac_safe buf mac p datap lenp : bytes buf -> bytes mac -> 10 <= p -> p + 4 + zlen mac <= zlen buf -> 10 <= lenp -> lenp + 2 <= zlen buf ->
  exists plen buf', put_mac buf mac p datap lenp = Ok (plen, buf') /\ bytes buf' /\ zlen buf' = zlen buf /\ plen = p + 4 + zlen mac /\ same_head buf buf'.
Proof.
  intros Hb Hm Hp Hl Hlp Hll. pose proof (zlen_nonneg mac). unfold put_mac. cbv zeta. do 2 next_write.
  edestruct (wrs_bytes b0 (p + 4) mac) as (b2 & -> & Hb2 & Hl2 & Hs2); [assumption|done|lia|lia|]. specialize (Hs2 ltac:(lia)). cbn [mbind comp_bind].
  next_write. eexists _, _. split_and!; [done|done|congruence|done|]. by repeat (eapply same_head_trans; [eassumption|]).
Qed.

Lemma option_loop_safe buf rdlen base fuel : bytes buf -> 0 <= base -> base + rdlen <= zlen buf -> forall i, 0 <= i -> Z.max 0 (rdlen - i) < Z.of_nat fuel ->
  exists r, option_loop fuel buf i rdlen (base + i) = Ok r /\ (forall q, r = Some q -> base + i <= q).
Proof.
  intros Hb Hbase Hl. induction fuel as [|fuel IH]; intros i Hi Hf; cbn [option_loop]; [lia|].
  destruct (i + 4 <? rdlen) eqn:E; zbool; [|exists (Some (base + i)); split; [done|]; intros q [= <-]; lia].
  destruct (rd16_ok buf (base + i) Hb) as (code & -> & _); [lia|lia|]. destruct (rd16_ok buf (base + i + 2) Hb) as (len & -> & Hlen); [lia|lia|].
  cbn [mbind comp_bind]. unfold is_u16 in Hlen. destruct (code =? EDNS0_OPTION_MAC); [by exists None|].
  replace (base + i + 4 + len) with (base + (i + len + 4)) by lia. destruct (IH (i + len + 4)) as (r & -> & Hr); [lia|lia|].
  exists r. split; [done|]. intros q Hq. specialize (Hr q Hq). lia.
Qed.

(** So many bytes a new pseudo header may take before the limit is looked at. *)
Definition ROOM : Z := 11.

Lemma filter_mac_safe buf limit plen l3 e : bytes buf -> bytes (arp_mac e) -> HEADER <= plen -> plen + ROOM <= zlen buf -> limit <= zlen buf ->
  exists more plen' buf', filter_mac buf limit plen l3 e = Ok (more, plen', buf') /\ bytes buf' /\ zlen buf' = zlen buf /\
    HEADER <= plen' /\ (more = true -> plen' = plen) /\ (plen' = plen \/ plen' <= limit) /\ same_head buf buf'.
Proof.
  intros Hb Hm Hh Hl Hlim. unfold ROOM in *. assert (plen <= zlen buf) as Hpl by lia. pose proof (zlen_nonneg (arp_mac e)) as Hmac.
  assert (forall more b, bytes b -> zlen b = zlen buf -> same_head buf b -> exists more' plen' buf', (Ok (more, plen, b) : comp (bool * Z * list Z)) = Ok (more', plen', buf') /\
    bytes buf' /\ zlen buf' = zlen buf /\ HEADER <= plen' /\ (more' = true -> plen' = plen) /\ (plen' = plen \/ plen' <= limit) /\ same_head buf buf') as Hstop.
  { intros more b ? ? ?. exists more, plen, b. by split_and!; auto. }
  unfold filter_mac. cbv zeta. destruct (negb _); [by apply Hstop|]. unfold arcount, ancount, nscount.
  destruct (header_field buf plen Hb Hh Hpl 10) as (ar & -> & _); [lia|]. cbn [mbind comp_bind]. destruct (ar =? 0).
  - destruct (skip_questions_safe buf plen Hb) as (r & -> & Hr & _); [unfold HEADER in *; lia|done|]. cbn [mbind comp_bind].
    destruct r as [p|]; [|by apply Hstop]. specialize (Hr p eq_refl).
    destruct (header_field buf plen Hb Hh Hpl 6) as (an & -> & _); [lia|]. destruct (header_field buf plen Hb Hh Hpl 8) as (ns & -> & _); [lia|]. cbn [mbind comp_bind].
    destruct (section_safe buf plen Hb Hh Hpl (Z.to_nat (an + ns)) p) as (s & -> & Hs); [unfold HEADER in *; lia|]. cbn [mbind comp_bind].
    destruct s as [p1|]; [|by apply Hstop]. specialize (Hs p1 eq_refl). unfold HEADER in *.
    destruct (wrs_bytes buf p1 [0] Hb) as (b0 & Hw & Hb0 & Hl0 & Hs0); [by constructor|lia|change (zlen [0]) with 1; lia|].
    specialize (Hs0 ltac:(lia)). cbn [wrs] in Hw. destruct (wr buf p1 0) as [b0'|]; [|done]. cbn [mbind comp_bind] in Hw. injection Hw as ->. cbn [mbind comp_bind].
    do 4 next_write. destruct (limit - (p1 + 11 + 4) <? zlen (arp_mac e)) eqn:E; zbool; [apply Hstop; [done|lia|by repeat (eapply same_head_trans; [eassumption|])]|].
    edestruct (wrs_bytes b3 10 (put16 1)) as (b4 & -> & Hb4 & Hl4 & Hs4); [assumption|apply put16_all|lia|rewrite zlen_put16; lia|]. specialize (Hs4 ltac:(lia)). cbn [mbind comp_bind].
    destruct (put_mac_safe b4 (arp_mac e) (p1 + 11) (p1 + 11) (p1 + 9)) as (q & b5 & -> & Hb5 & Hl5 & Hq & Hs5); try done; try lia. cbn [mbind comp_bind mret comp_ret].
    eexists _, _, _. split_and!; [done|done|lia|lia|done|right; lia|]. by repeat (eapply same_head_trans; [eassumption|]).
  - destruct (negb (ar =? 1)); [by apply Hstop|]. destruct (pseudo_safe buf plen Hb Hh Hpl true) as (r & sign & -> & Hr & _). cbn [mbind comp_bind].
    destruct r as [[[st len] sz]|]; [|by apply Hstop]. destruct (Hr st len sz eq_refl) as (H1 & H2 & H3 & H4). destruct (negb _); [by apply Hstop|]. unfold HEADER in *.
    destruct (skip_name_safe buf st plen 10 Hb) as (q & -> & Hq); [lia|done|lia|]. cbn [mbind comp_bind]. destruct q as [p|]; [|by apply Hstop].
    destruct (Hq p eq_refl) as [Hp1 Hp2]. destruct (rd16_ok buf (p + 8) Hb) as (rdlen & -> & Hrd); [lia|lia|]. cbn [mbind comp_bind]. unfold CHECK_LEN.
    destruct (p + 10 + rdlen <=? plen) eqn:E; zbool; cbn [negb]; [|by apply Hstop]. unfold is_u16 in Hrd.
    destruct (option_loop_safe buf rdlen (p + 10) (S (Z.to_nat rdlen)) Hb) with (i := 0) as (o & Ho & Hoq); [lia|lia|lia|lia|].
    rewrite Z.add_0_r in Ho. rewrite Ho. cbn [mbind comp_bind]. destruct o as [o|]; [|by apply Hstop]. specialize (Hoq o eq_refl).
    destruct (limit - (o + 4) <? zlen (arp_mac e)) eqn:E2; zbool; [by apply Hstop|].
    destruct (put_mac_safe buf (arp_mac e) o (p + 10) (p + 8)) as (q2 & b5 & -> & Hb5 & Hl5 & Hq2 & Hs5); try done; try lia. cbn [mbind comp_bind mret comp_ret].
    eexists _, _, _. split_and!; [done|done|lia|lia|done|right; lia|]. by repeat (eapply same_head_trans; [eassumption|]).
Qed.

Lemma add_mac_safe arps buf plen limit l3 : bytes buf -> Forall (fun e => bytes (arp_mac e)) arps -> HEADER <= plen ->
  plen + ROOM <= zlen buf -> limit <= zlen buf ->
  exists plen' buf', add_mac arps buf plen limit l3 = Ok (plen', buf') /\ bytes buf' /\ zlen buf' = zlen buf /\ HEADER <= plen' /\
    (plen' = plen \/ plen' <= limit) /\ same_head buf buf'.
Proof.
  intros Hb Hm Hh Hl Hlim. unfold add_mac, arcount. unfold ROOM in *.
  destruct (header_field buf plen Hb Hh ltac:(lia) 10) as (ar & -> & _); [lia|]. cbn [mbind comp_bind].
  destruct (1 <? ar); [exists plen, buf; by split_and!; auto|]. revert buf Hb Hl Hlim. induction Hm as [|e es He Hm IH]; intros buf Hb Hl Hlim; cbn [enumerate]; [exists plen, buf; by split_and!; auto|].
  destruct (filter_mac_safe buf limit plen l3 e Hb He Hh Hl Hlim) as (more & p & b & -> & Hb1 & Hl1 & Hp & Hmore & Hx & Hs1). cbn [mbind comp_bind].
  destruct more; [|exists p, b; by split_and!; auto]. rewrite Hmore in * by done. destruct (IH b) as (p' & b' & -> & ? & ? & ? & ? & ?); [done|lia|lia|].
  exists p', b'. split_and!; try congruence. by eapply same_head_trans.
Qed.

(** * What is added *)

Definition is_client (l3 : mysockaddr) (e : arp) : bool :=
  (arp_family e =? sa_family l3) && (arp_family e =? AF_INET) && bool_decide (sin_addr l3 = arp_addr e).

(** A pseudo header with the address as its only option. *)
Definition mac_record (mac : list Z) : list Z :=
  ([0] ++ put16 T_OPT ++ put16 PACKETSZ ++ put32 0) ++ put16 (4 + zlen mac) ++ (put16 EDNS0_OPTION_MAC ++ put16 (zlen mac) ++ mac).

Lemma blit_disjoint l p a b : 0 <= p -> 12 <= p -> p + zlen a <= zlen l -> zlen b = 2 ->
  blit (blit l (Z.to_nat p) a) 10 b = blit (blit l 10 b) (Z.to_nat p) a.
Proof.
  intros Hp H12 Hl Hb. unfold zlen in *. apply list_eq. intros k.
  assert (forall m off s, (off + length s <= length m)%nat -> blit m off s !! k =
    if decide (k < off)%nat then m !! k else if decide (k < off + length s)%nat then s !! (k - off)%nat else m !! k) as Hlook.
  { intros m off s Hm. unfold blit. destruct (decide (k < off)%nat); [by rewrite lookup_app_l, lookup_take_lt by (rewrite ?length_take; lia)|].
    rewrite lookup_app_r, length_take, Nat.min_l by (rewrite ?length_take; lia).
    destruct (decide (k < off + length s)%nat); [by rewrite lookup_app_l by lia|]. rewrite lookup_app_r, lookup_drop by lia. f_equal. lia. }
  rewrite !Hlook by (rewrite ?length_blit; lia). repeat case_decide; try lia; done.
Qed.

Lemma put_mac_adds buf p mac : 0 <= p -> 12 <= p -> p + 15 + zlen mac <= zlen buf ->
  (buf ← wr buf p 0; buf ← PUTSHORT buf (p + 1) T_OPT; buf ← PUTSHORT buf (p + 3) PACKETSZ;
   buf ← PUTLONG buf (p + 5) 0; buf ← PUTSHORT buf (p + 9) 0; buf ← wrs buf 10 (put16 1); put_mac buf mac (p + 11) (p + 11) (p + 9)) =
  Ok (p + 15 + zlen mac, blit (blit buf 10 (put16 1)) (Z.to_nat p) (mac_record mac)).
Proof.
  intros Hp H12 Hl. pose proof (zlen_nonneg mac) as Hm.
  assert (forall v, zlen (put16 v) = 2) as H16 by (intros; apply zlen_put16). assert (zlen (put32 0) = 4) as H32 by done.
  assert (wr buf p 0 = Ok (blit buf (Z.to_nat p) [0])) as ->.
  { pose proof (wrs_ok [0] buf p ltac:(lia)) as H. change (zlen [0]) with 1 in H. specialize (H ltac:(lia)). cbn [wrs] in H. destruct (wr buf p 0); done. }
  cbn [mbind comp_bind]. unfold put_mac, PUTSHORT, PUTLONG.
  change (p + 1) with (p + zlen [0]). change (zlen [0]) with 1 at 1.
  set (hd := [0] ++ put16 T_OPT ++ put16 PACKETSZ ++ put32 0). assert (zlen hd = 9) as Hhd by done.
  set (opt := put16 EDNS0_OPTION_MAC ++ put16 (zlen mac) ++ mac). assert (zlen opt = 4 + zlen mac) as Hopt by (unfold opt; rewrite !zlen_app, !H16; lia).
  (* each write continues the last one *)
  assert (forall s t, p + zlen s + zlen t <= zlen buf -> wrs (blit buf (Z.to_nat p) s) (p + zlen s) t = Ok (blit buf (Z.to_nat p) (s ++ t))) as Hw.
  { intros s t Hst. pose proof (zlen_nonneg s). pose proof (zlen_nonneg t). rewrite wrs_ok by (rewrite ?zlen_blit; lia). by rewrite blit_app by lia. }
  rewrite Hw by (rewrite ?H16; change (zlen [0]) with 1; lia). cbn [mbind comp_bind].
  replace (p + 3) with (p + zlen ([0] ++ put16 T_OPT)) by (rewrite zlen_app, H16; change (zlen [0]) with 1; lia).
  rewrite Hw by (rewrite ?H16; change (zlen ([0] ++ put16 T_OPT)) with 3; lia). cbn [mbind comp_bind].
  replace (p + 5) with (p + zlen (([0] ++ put16 T_OPT) ++ put16 PACKETSZ)) by (change (zlen (([0] ++ put16 T_OPT) ++ put16 PACKETSZ)) with 5; lia).
  rewrite Hw by (change (zlen (([0] ++ put16 T_OPT) ++ put16 PACKETSZ)) with 5; lia). cbn [mbind comp_bind].
  rewrite <- !app_assoc. fold hd. replace (p + 9) with (p + zlen hd) by lia. rewrite Hw by (rewrite ?H16; lia). cbn [mbind comp_bind].
  rewrite (wrs_ok (put16 1)) by (rewrite ?zlen_blit; rewrite ?zlen_app, ?H16; lia). cbn [mbind comp_bind].
  change (Z.to_nat 10) with 10%nat. rewrite blit_disjoint by (rewrite ?zlen_app, ?H16; lia).
  set (buf1 := blit buf 10 (put16 1)). assert (zlen buf1 = zlen buf) as Hl1 by (apply (zlen_blit buf 10); [lia|rewrite H16; lia]).
  assert (forall s t q, q = p + zlen s -> q + zlen t <= zlen buf -> wrs (blit buf1 (Z.to_nat p) s) q t = Ok (blit buf1 (Z.to_nat p) (s ++ t))) as Hw1.
  { intros s t q -> Hst. pose proof (zlen_nonneg s). pose proof (zlen_nonneg t). rewrite wrs_ok by (rewrite ?zlen_blit; lia). by rewrite blit_app by lia. }
  rewrite (Hw1 (hd ++ put16 0)) by (rewrite ?zlen_app, ?H16; lia). cbn [mbind comp_bind].
  rewrite Hw1 by (rewrite ?zlen_app, ?H16; lia). cbn [mbind comp_bind]. rewrite Hw1 by (rewrite ?zlen_app, ?H16; lia). cbn [mbind comp_bind].
  rewrite <- !app_assoc. fold opt. rewrite wrs_ok by (rewrite ?zlen_blit; rewrite ?zlen_app, ?H16; lia). cbn [mbind comp_bind mret comp_ret].
  rewrite (blit_over buf1 p hd (put16 0)) by (done || (rewrite ?H16; lia)). unfold mac_record. fold hd opt.
  replace (p + 11 + 4 + zlen mac - (p + 11)) with (4 + zlen mac) by lia. do 2 f_equal. lia.
Qed.

(** C23: a query that has no additional records yet gets a pseudo header behind
    its last record whose only option is the hardware address of the client,
    if the kernel knows it and there is room. *)
Theorem add_mac_appends arps e buf plen limit l3 qd an ns q p :
  List.find (is_client l3) arps = Some e -> counts buf qd an ns 0 ->
  skip_questions buf plen = Ok (Some q) -> skip_section (Z.to_nat (an + ns)) buf plen q = Ok (Some p) ->
  HEADER <= p -> p + 15 + zlen (arp_mac e) <= limit -> limit <= zlen buf ->
  add_mac arps buf plen limit l3 = Ok (p + 15 + zlen (arp_mac e), blit (blit buf 10 (put16 1)) (Z.to_nat p) (mac_record (arp_mac e))).
Proof.
  intros Hf (_ & Han & Hns & Har) Hq Hp Hh Hroom Hlim. unfold add_mac. rewrite Har. cbn [mbind comp_bind]. change (1 <? 0) with false. cbv iota.
  induction arps as [|a arps IH]; [done|]. cbn [List.find] in Hf. cbn [enumerate]. unfold filter_mac. cbv zeta. fold (is_client l3 a).
  destruct (is_client l3 a) eqn:Ha; cbn [negb mbind comp_bind]; [|by apply IH]. injection Hf as ->.
  rewrite Har. cbn [mbind comp_bind]. rewrite Hq. cbn [mbind comp_bind Z.eqb]. rewrite Han, Hns. cbn [mbind comp_bind]. rewrite Hp. cbn [mbind comp_bind].
  pose proof (put_mac_adds buf p (arp_mac e) ltac:(unfold HEADER in *; lia) Hh ltac:(lia)) as Hput.
  assert ((limit - (p + 11 + 4) <? zlen (arp_mac e)) = false) as Hfits by (apply Z.ltb_ge; lia).
  do 5 (match type of Hput with mbind _ ?x = _ => destruct x; cbn [mbind comp_bind] in Hput |- *; [|done] end).
  rewrite Hfits. match type of Hput with mbind _ ?x = _ => destruct x; cbn [mbind comp_bind] in Hput |- *; [|done] end.
  by rewrite Hput.
Qed.

(** A query for [a.] without additional records, in a buffer of 600 bytes. *)
Definition mac_query : list Z := [0; 7; 1; 0; 0; 1; 0; 0; 0; 0; 0; 0] ++ [1; 97; 0; 0; 1; 0; 1] ++ replicate 581 0.
Definition mac_client : mysockaddr := SA AF_INET 53 (10, 0, 0, 2).
Definition mac_table : list arp := [Arp AF_INET (10, 0, 0, 9) [1; 1; 1; 1; 1; 1]; Arp AF_INET (10, 0, 0, 2) [2; 4; 6; 8; 10; 12]].

Lemma add_mac_appends_witness : add_mac mac_table mac_query 19 512 mac_client =
  Ok (40, blit (blit mac_query 10 (put16 1)) 19 (mac_record [2; 4; 6; 8; 10; 12])).
Proof.
  apply (add_mac_appends mac_table (Arp AF_INET (10, 0, 0, 2) [2; 4; 6; 8; 10; 12]) mac_query 19 512 mac_client 1 0 0 19 19); try by vm_compute.
Defined.

(** ** Options that are there already *)

(** A query whose pseudo header has one option, the request for the name of the
    server, which has no data. *)
Definition nsid_query : list Z :=
  [0; 7; 1; 0; 0; 1; 0; 0; 0; 0; 0; 1] ++ [1; 97; 0; 0; 1; 0; 1] ++ [0; 0; 41; 16; 0; 0; 0; 0; 0; 0; 4; 0; 3; 0; 0] ++ replicate 566 0.

(** An option without data at the end is not stepped over: it is overwritten. *)
Example empty_option_overwritten :
  ('(plen, buf) ← add_mac mac_table nsid_query 34 512 mac_client; Ok (plen, take 21 (drop 19 buf))) =
  Ok (40, [0; 0; 41; 16; 0; 0; 0; 0; 0; 0; 10; 0; 5; 0; 6; 2; 4; 6; 8; 10; 12]).
Proof. vm_compute. reflexivity. Qed.

(** A query whose only option claims to be longer than the pseudo header. *)
Definition long_option_query (rest : list Z) : list Z :=
  [0; 7; 1; 0; 0; 1; 0; 0; 0; 0; 0; 1] ++ [1; 97; 0; 0; 1; 0; 1] ++ [0; 0; 41; 16; 0; 0; 0; 0; 0; 0; 5; 0; 3; 1; 0; 0] ++ rest.

(** What an earlier message has left in the buffer becomes part of the query. *)
Example long_option_leaks :
  ('(plen, buf) ← add_mac mac_table (long_option_query (replicate 565 77)) 35 512 mac_client; Ok (plen, take 4 (drop 40 buf))) =
  Ok (300, [77; 77; 77; 77]).
Proof. vm_compute. reflexivity. Qed.

(** ** A query that fills the packet buffer *)

(** [EDNS_PKTSZ] bytes, which is the size of the packet buffer as well: a
    question and a record that takes the rest. *)
Definition full_query : list Z :=
  [0; 7; 1; 0; 0; 1; 0; 1; 0; 0; 0; 0] ++ [1; 97; 0; 0; 1; 0; 1] ++ [0; 0; 16; 0; 1; 0; 0; 0; 0; 15; 226] ++ replicate 4066 0.

(** The pseudo header is written before the limit is looked at. *)
Example full_query_overflows : zlen full_query = 4096 /\ add_mac mac_table full_query 4096 512 mac_client = Fault WriteOOB.
Proof. split; vm_compute; reflexivity. Qed.
