(* ===== verification/DmServers.v ===== *)
(** dnsmasq's forward.c, second part: which server a query is for
    ([search_servers]); and the two functions of rfc1035.c it shares with the
    handling of replies: the names that are known locally and the answers
    that are declared bogus. *)
From S2P Require Import Prelude CString Dns Common DmUtil DmName DmPacket DmLru DmCache DmCacheInv DmCacheOps DmAnswer.
Set Warnings "-clear-no-such-hyp,-notation-for-abbreviation".

(** * Names that are known locally *)

(** The names of the records of the configuration, by kind. *)
Record locals := Locals {
  naptr_names : list (list Z); mx_names : list (list Z); txt_names : list (list Z); int_names : list (list Z); ptr_names : list (list Z) }.

Section locals.
Context (mix_tab : Z -> Z).

Definition check_for_local_domain (lc : locals) (c : cache) (name : list Z) (now : Z) : comp (bool * cache) :=
  '(crecp, c) ← cache_find_by_name mix_tab c None name now (Z.lor (Z.lor F_IPV4 F_IPV6) F_CNAME);
  known ← match crecp with None => mret false | Some i => r ← getr c i; mret (fixed r) end;
  let has_name := existsb (hostname_isequal name) in
  mret ((known : bool) || has_name (naptr_names lc) || has_name (mx_names lc) || has_name (txt_names lc) || has_name (int_names lc) || has_name (ptr_names lc), c).

(** * Bogus answers *)

Context (clobbered : Z -> list Z -> list Z) (max_cache_ttl : Z) (can_malloc : cache -> bool).

(** What is returned, the name buffer and the cache. *)
Fixpoint bogus_loop (n : nat) (buf : list Z) (qlen p : Z) (name : list Z) (baddr : list in_addr) (now : Z) (c : cache) : comp (bool * list Z * cache) :=
  match n with
  | O => Ok (false, name, c)
  | S n' =>
      '(r, p, name) ← extract_name buf qlen p name true 10;
      if r =? 0 then Ok (false, name, c)
      else
        qtype ← rd16 buf p; qclass ← rd16 buf (p + 2); ttl ← rd32 buf (p + 4); rdlen ← rd16 buf (p + 8);
        let p := p + 10 in
        '(stop, found) ←
          (if (qclass =? C_IN) && (qtype =? T_A) then
             if negb (CHECK_LEN p qlen INADDRSZ) then mret (true, false)
             else addr ← rd_addr buf p; mret (false, existsb (fun b => bool_decide (b = addr)) baddr)
           else mret (false, false));
        if (stop : bool) then Ok (false, name, c)
        else if (found : bool) then
          c ← cache_start_insert c;
          '(_, c) ← insert mix_tab clobbered max_cache_ttl can_malloc c (Some (cstr name)) None now ttl
            (Z.lor (Z.lor (Z.lor F_IPV4 F_FORWARD) (Z.lor F_NEG F_NXDOMAIN)) F_CONFIG);
          c ← cache_end_insert mix_tab c;
          mret (true, name, c)
        else
          match ADD_RDLEN p qlen rdlen with
          | None => Ok (false, name, c)
          | Some p => bogus_loop n' buf qlen p name baddr now c
          end
  end.
Definition check_for_bogus_wildcard (buf : list Z) (qlen : Z) (name : list Z) (baddr : list in_addr) (now : Z) (c : cache)
  : comp (bool * list Z * cache) :=
  r ← skip_questions buf qlen;
  match r with
  | None => Ok (false, name, c)
  | Some p => an ← ancount buf; bogus_loop (Z.to_nat an) buf qlen p name baddr now c
  end.
End locals.

(** * Servers *)

Definition SERV_NO_ADDR : Z := 2.
Definition SERV_LITERAL_ADDRESS : Z := 4.
Definition SERV_HAS_DOMAIN : Z := 8.
Definition SERV_FOR_NODOTS : Z := 32.
Definition SERV_WARNED_RECURSIVE : Z := 64.
Definition SERV_TYPE : Z := Z.lor SERV_HAS_DOMAIN SERV_FOR_NODOTS.
Definition SERV_USE_RESOLV : Z := 1024.
Definition SERV_NO_REBIND : Z := 2048.

(** [s_sfd] is the descriptor of [sfd]; a server for one domain has a domain. *)
Record server := Server {
  s_addr : mysockaddr; s_sfd : option Z; s_domain : option (list Z); s_flags : Z; s_queries : Z; s_failed : Z }.

(** What [search_servers] is about to return. *)
Record choice := Choice { c_flags : Z; c_addr : option in_addr; c_type : Z; c_domain : option (list Z); c_norebind : bool; c_match : Z }.

Definition sflag (s : server) : Z := if sa_family (s_addr s) =? AF_INET then F_IPV4 else F_IPV6.

(** A literal address of the right kind is the answer, of the wrong kind there
    is no answer. *)
Definition literal (s : server) (qtype : Z) (ch : choice) : choice :=
  if has (sflag s) qtype then
    Choice (sflag s) (if sa_family (s_addr s) =? AF_INET then Some (sin_addr (s_addr s)) else c_addr ch) (c_type ch) (c_domain ch) (c_norebind ch) (c_match ch)
  else if (c_flags ch =? 0) || has (c_flags ch) F_NXDOMAIN then Choice F_NOERR (c_addr ch) (c_type ch) (c_domain ch) (c_norebind ch) (c_match ch)
  else ch.
Definition set_cflags (v : Z) (ch : choice) : choice := Choice v (c_addr ch) (c_type ch) (c_domain ch) (c_norebind ch) (c_match ch).

(** [strchr (qdomain, '.')] *)
Definition has_dot (s : list Z) : bool := existsb (Z.eqb 46) s.

(** The domain is the name, or ends it behind a dot. *)
Definition in_domain (qdomain d : list Z) : bool :=
  let start := (length qdomain - length d)%nat in
  (zlen d <=? zlen qdomain) && hostname_isequal (drop start qdomain) d &&
  ((zlen d =? 0) || (zlen qdomain =? zlen d) || bool_decide (qdomain !! pred start = Some 46)).

Definition try_server (qtype : Z) (qdomain : list Z) (s : server) (ch : choice) : comp choice :=
  if has (s_flags s) SERV_FOR_NODOTS && negb (c_type ch =? SERV_HAS_DOMAIN) && negb (has_dot qdomain) && negb (zlen qdomain =? 0) then
    let ch := Choice (c_flags ch) (c_addr ch) SERV_FOR_NODOTS (c_domain ch) (c_norebind ch) (c_match ch) in
    mret (if has (s_flags s) SERV_NO_ADDR then set_cflags F_NXDOMAIN ch
          else if has (s_flags s) SERV_LITERAL_ADDRESS then literal s qtype ch else ch)
  else if has (s_flags s) SERV_HAS_DOMAIN then
    d ← of_option NullDeref (s_domain s);
    let domainlen := zlen d in
    if in_domain qdomain d then
      if has (s_flags s) SERV_NO_REBIND then mret (Choice (c_flags ch) (c_addr ch) (c_type ch) (c_domain ch) true (c_match ch))
      else if negb (domainlen =? 0) && (domainlen =? c_match ch) &&
              (if has (s_flags s) SERV_LITERAL_ADDRESS then negb (has (sflag s) qtype) && (c_flags ch =? 0)
               else has (c_flags ch) (Z.lor F_IPV4 F_IPV6))
      then mret ch
      else if c_match ch <=? domainlen then
        let ch := Choice (c_flags ch) (c_addr ch) (Z.land (s_flags s) (Z.lor SERV_HAS_DOMAIN (Z.lor SERV_USE_RESOLV SERV_NO_REBIND)))
                    (Some d) (c_norebind ch) domainlen in
        mret (if has (s_flags s) SERV_NO_ADDR then set_cflags F_NXDOMAIN ch
              else if has (s_flags s) SERV_LITERAL_ADDRESS then literal s qtype ch
              else set_cflags 0 ch)
      else mret ch
    else mret ch
  else mret ch.

Fixpoint try_servers (qtype : Z) (qdomain : list Z) (l : list server) (ch : choice) : comp choice :=
  match l with
  | [] => Ok ch
  | s :: l' => ch ← try_server qtype qdomain s ch; try_servers qtype qdomain l' ch
  end.

Section search.
Context (mix_tab : Z -> Z) (nodots_local : bool).

(** The servers in the order of [daemon->servers]. *)
Definition search_servers (lc : locals) (now qtype : Z) (qdomain : list Z) (l : list server) (c : cache) : comp (choice * cache) :=
  ch ← try_servers qtype qdomain l (Choice 0 None 0 None false 0);
  let ch := if (c_flags ch =? 0) && negb (has qtype F_QUERY) && nodots_local && negb (has_dot qdomain) && negb (zlen qdomain =? 0)
            then set_cflags F_NOERR ch else ch in
  '(ch, c) ← (if c_flags ch =? F_NXDOMAIN then
                '(known, c) ← check_for_local_domain mix_tab lc c qdomain now;
                mret (if (known : bool) then set_cflags F_NOERR ch else ch, c)
              else mret (ch, c));
  mret (if (c_flags ch =? 0) && has (c_type ch) SERV_USE_RESOLV
        then Choice (c_flags ch) (c_addr ch) 0 None (c_norebind ch) (c_match ch) else ch, c).
End search.

(** * Safety *)

Section safe.
Context (mix_tab : Z -> Z) (clobbered : Z -> list Z -> list Z) (max_cache_ttl : Z) (can_malloc : cache -> bool).
Local Notation wf := (wf mix_tab).

(** One search by name. *)
Lemma find_one_ok c l nc name now prot : wf c l nc ->
  exists r c' l', cache_find_by_name mix_tab c None name now prot = Ok (r, c') /\ wf c' l' nc /\ l' ≡ₚ l /\
    (forall i, r = Some i -> exists rec, recs c' !! i = Some rec /\ name_match name prot rec = true).
Proof.
  intros W. destruct (first_search mix_tab c l nc name now prot W) as (hs & ms & rest & c' & l' & Hl' & W' & Hperm & Hss & Hnd & -> & _ & _ & Hsound & Hrest & _ & _).
  rewrite app_assoc. destruct (hs ++ ms) as [|i good].
  - cbn [app]. destruct (head rest) as [j|] eqn:Hj.
    + destruct (Hrest j eq_refl) as (r & Hr & Hm). rewrite (name_answer_match c' j r), Hm by done. cbn [mbind comp_bind mret comp_ret]. by exists None, c', l'.
    + cbn [name_answer mbind comp_bind mret comp_ret]. by exists None, c', l'.
  - cbn [app head]. destruct (Hsound i) as (r & _ & Hr & _ & Hm & _); [by left|]. rewrite (name_answer_match c' i r), Hm by done.
    cbn [mbind comp_bind mret comp_ret]. exists (Some i), c', l'. split_and!; try done. intros j [= <-]. by exists r.
Qed.

Lemma local_domain_ok lc c l nc name now : wf c l nc ->
  exists b c' l', check_for_local_domain mix_tab lc c name now = Ok (b, c') /\ wf c' l' nc /\ l' ≡ₚ l.
Proof.
  intros W. unfold check_for_local_domain. destruct (find_one_ok c l nc name now (Z.lor (Z.lor F_IPV4 F_IPV6) F_CNAME) W) as (r & c' & l' & -> & W' & Hp & Hr).
  cbn [mbind comp_bind]. destruct r as [i|]; [|by eexists _, c', l']. destruct (Hr i eq_refl) as (rec & Hrec & _).
  unfold getr. rewrite Hrec. cbn [of_option mbind comp_bind mret comp_ret]. by eexists _, c', l'.
Qed.

(** The cache is well formed and has so many records of its own. *)
Definition cache_ok (m : nat) (c : cache) : Prop := exists l nc, wf c l nc /\ length (l ++ nc) = m.

Lemma cache_ok_perm m c c' l l' nc : wf c l nc -> length (l ++ nc) = m -> wf c' l' nc -> l' ≡ₚ l -> cache_ok m c'.
Proof. intros _ Hm W' Hp. exists l', nc. split; [done|]. by rewrite length_app, (Permutation_length Hp), <- length_app. Qed.

Lemma local_ok m lc c name now : cache_ok m c -> exists b c', check_for_local_domain mix_tab lc c name now = Ok (b, c') /\ cache_ok m c'.
Proof.
  intros (l & nc & W & Hm). destruct (local_domain_ok lc c l nc name now W) as (b & c' & l' & -> & W' & Hp). exists b, c'.
  split; [done|]. by apply (cache_ok_perm m c c' l l' nc).
Qed.

(** A whole insertion of one record that is no alias. *)
Lemma insert_whole_ok m c name addr now ttl flags : cache_ok m c -> insertable name addr flags ->
  (has flags F_REVERSE = true -> is_Some addr) -> has flags F_CNAME = false ->
  exists c', (c ← cache_start_insert c; '(_, c) ← insert mix_tab clobbered max_cache_ttl can_malloc c name addr now ttl flags;
              cache_end_insert mix_tab c) = Ok c' /\ cache_ok m c'.
Proof.
  intros (l & nc & W & Hm) Hin Hrev Hcn. destruct (start_insert_ok mix_tab c l nc W) as (c1 & -> & W1 & _). cbn [mbind comp_bind].
  assert (cstate mix_tab m c1 None) as Hc1.
  { exists (l ++ nc), []. rewrite app_nil_r. split_and!; [done|intros ? ? Hj; by apply elem_of_nil in Hj|done|done]. }
  destruct (insert_link_ok mix_tab clobbered max_cache_ttl can_malloc m c1 None name addr now ttl flags Hc1 Hin Hrev Hcn) as (newc & c2 & c3 & -> & _ & Hc2 & _).
  cbn [mbind comp_bind]. destruct Hc2 as (l2 & nc2 & W2 & Hlk & Hlen & _). destruct (insert_error c2) eqn:Hie.
  - unfold cache_end_insert. rewrite Hie. exists c2. split; [done|]. by exists l2, nc2.
  - destruct (end_insert_ok mix_tab c2 l2 nc2 W2 Hlk Hie) as (c' & l' & -> & W' & _ & _ & Hperm & _). exists c'. split; [done|].
    exists l', []. rewrite app_nil_r. split; [done|]. by rewrite (Permutation_length Hperm).
Qed.

Context (qlen : Z) (Hq : HEADER <= qlen) (n : region qlen).

Lemma bogus_loop_ok k m buf now baddr : packet_ok qlen n buf -> forall p name c, 0 <= p -> MAXDNAME <= zlen name -> cache_ok m c ->
  exists b name' c', bogus_loop mix_tab clobbered max_cache_ttl can_malloc k buf qlen p name baddr now c = Ok (b, name', c') /\
    MAXDNAME <= zlen name' /\ cache_ok m c'.
Proof.
  intros Hp. induction k as [|k IH]; intros p name c Hp0 Hn Hc; cbn [bogus_loop]; [by exists false, name, c|].
  destruct (packet_name qlen Hq n buf p name 10 Hp) as (r & q & nm & -> & Hl & Hr); [lia|lia|done|]. cbn [mbind comp_bind].
  destruct (r =? 0) eqn:Er; zbool; [exists false, nm, c; split_and!; [done|lia|done]|]. destruct Hr as [[? _]|(_ & Hq1 & _)]; [done|].
  destruct (packet_rd16 qlen n buf q Hp) as (qtype & -> & _); [lia|unfold SLACK; lia|].
  destruct (packet_rd16 qlen n buf (q + 2) Hp) as (qclass & -> & _); [lia|unfold SLACK; lia|].
  destruct (packet_rd32 qlen n buf (q + 4) Hp) as (ttl & -> & _); [lia|unfold SLACK; lia|].
  destruct (packet_rd16 qlen n buf (q + 8) Hp) as (rdlen & -> & Hrd); [lia|unfold SLACK; lia|]. cbn [mbind comp_bind]. cbv zeta. unfold is_u16 in Hrd.
  match goal with |- context [mbind _ ?x] => assert (exists stop found, x = Ok (stop, found)) as (stop & found & ->) end.
  { destruct (_ && _); [|by exists false, false]. destruct (negb _); [by exists true, false|].
    destruct (packet_rd_addr qlen n buf (q + 10) Hp) as (a & b & cc & d & -> & _); [lia|unfold SLACK; lia|]. by eexists _, _. }
  cbn [mbind comp_bind]. destruct stop; [exists false, nm, c; split_and!; [done|lia|done]|]. destruct found.
  - destruct (insert_whole_ok m c (Some (cstr nm)) None now ttl (Z.lor (Z.lor (Z.lor F_IPV4 F_FORWARD) (Z.lor F_NEG F_NXDOMAIN)) F_CONFIG) Hc)
      as (c' & Hins & Hc'); [by split; eauto|done|done|].
    destruct (cache_start_insert c) as [c1|]; [|done]. cbn [mbind comp_bind] in Hins |- *.
    destruct (insert _ _ _ _ _ _ _ _ _ _) as [[x c2]|]; [|done]. cbn [mbind comp_bind] in Hins |- *. rewrite Hins. cbn [mbind comp_bind mret comp_ret].
    exists true, nm, c'. split_and!; [done|lia|done].
  - unfold ADD_RDLEN, CHECK_LEN. destruct (q + 10 + rdlen <=? qlen); [|exists false, nm, c; split_and!; [done|lia|done]]. apply IH; [lia|lia|done].
Qed.

Lemma bogus_wildcard_ok m buf name baddr now c : packet_ok qlen n buf -> MAXDNAME <= zlen name -> cache_ok m c ->
  exists b name' c', check_for_bogus_wildcard mix_tab clobbered max_cache_ttl can_malloc buf qlen name baddr now c = Ok (b, name', c') /\
    MAXDNAME <= zlen name' /\ cache_ok m c'.
Proof.
  intros Hp Hn Hc. unfold check_for_bogus_wildcard. destruct (packet_questions qlen Hq n buf Hp) as (r & -> & Hr). cbn [mbind comp_bind].
  destruct r as [p|]; [|by exists false, name, c]. specialize (Hr p eq_refl). unfold HEADER in Hr. unfold ancount.
  destruct (packet_header qlen Hq n buf 6 Hp) as (an & -> & _); [lia|]. cbn [mbind comp_bind]. apply bogus_loop_ok; [done|lia|done|done].
Qed.
End safe.

(** ** Choosing a server *)

(** A server for one domain has one, and its address consists of bytes. *)
Definition server_ok (s : server) : Prop :=
  (has (s_flags s) SERV_HAS_DOMAIN = true -> is_Some (s_domain s)) /\ bytes (addr_bytes (sin_addr (s_addr s))).

(** What the callers rely on. *)
Record choice_ok (ch : choice) : Prop := {
  co_domain : has (c_type ch) SERV_HAS_DOMAIN = true -> is_Some (c_domain ch);
  co_addr : c_flags ch = F_IPV4 -> is_Some (c_addr ch);
  co_bytes : forall a, c_addr ch = Some a -> bytes (addr_bytes a) }.

Lemma literal_ok s qtype ch : server_ok s -> choice_ok ch -> choice_ok (literal s qtype ch).
Proof.
  intros [_ Hs] [H1 H2 H3]. unfold literal, sflag. destruct (has _ qtype); [|by case_if].
  destruct (sa_family (s_addr s) =? AF_INET); split; try done; cbn; first [by eauto | by intros a [= <-]].
Qed.

Lemma set_cflags_ok v ch : v <> F_IPV4 -> choice_ok ch -> choice_ok (set_cflags v ch).
Proof. intros Hv [H1 H2 H3]. by split. Qed.

Lemma has_domain_mask f : has (Z.land f (Z.lor SERV_HAS_DOMAIN (Z.lor SERV_USE_RESOLV SERV_NO_REBIND))) SERV_HAS_DOMAIN = has f SERV_HAS_DOMAIN.
Proof. change SERV_HAS_DOMAIN with (2 ^ 3) at 2 3. rewrite has_land_bit by lia. by rewrite andb_true_r. Qed.

Lemma try_server_ok qtype qdomain s ch : server_ok s -> choice_ok ch -> exists ch', try_server qtype qdomain s ch = Ok ch' /\ choice_ok ch'.
Proof.
  intros Hs Hch. unfold try_server. case_if.
  - eexists. split; [reflexivity|]. cbv zeta. set (ch1 := Choice _ _ _ _ _ _). assert (choice_ok ch1) as H1 by (destruct Hch; split; [intros H; by vm_compute in H|done|done]).
    repeat case_if; first [done | by apply set_cflags_ok | by apply literal_ok].
  - destruct (has (s_flags s) SERV_HAS_DOMAIN) eqn:Hd; [|by exists ch]. destruct (proj1 Hs Hd) as [d Hdom]. rewrite Hdom. cbn [of_option mbind comp_bind]. cbv zeta.
    destruct (in_domain qdomain d); [|by exists ch].
    destruct (has (s_flags s) SERV_NO_REBIND) eqn:Hnr; [eexists; split; [done|]; destruct Hch; by split|].
    match goal with |- context [if ?b then mret ch else _] => destruct b; [by exists ch|] end. destruct (c_match ch <=? zlen d); [|by exists ch]. eexists. split; [done|].
    set (ch1 := Choice _ _ _ _ _ _). assert (choice_ok ch1) as H1 by (destruct Hch; split; [by eexists|done|done]).
    repeat case_if; first [by apply set_cflags_ok | by apply literal_ok].
Qed.

Lemma try_servers_ok qtype qdomain l : Forall server_ok l -> forall ch, choice_ok ch -> exists ch', try_servers qtype qdomain l ch = Ok ch' /\ choice_ok ch'.
Proof.
  induction 1 as [|s l Hs _ IH]; intros ch Hch; cbn [try_servers]; [by exists ch|].
  destruct (try_server_ok qtype qdomain s ch Hs Hch) as (ch1 & -> & H1). cbn [mbind comp_bind]. by apply IH.
Qed.

Lemma search_servers_ok mix_tab nodots m lc now qtype qdomain l c : Forall server_ok l -> cache_ok mix_tab m c ->
  exists ch c', search_servers mix_tab nodots lc now qtype qdomain l c = Ok (ch, c') /\ choice_ok ch /\ cache_ok mix_tab m c'.
Proof.
  intros Hl Hc. unfold search_servers.
  destruct (try_servers_ok qtype qdomain l Hl (Choice 0 None 0 None false 0)) as (ch & -> & Hch); [by split|]. cbn [mbind comp_bind]. cbv zeta.
  match goal with |- context [c_flags ?x =? F_NXDOMAIN] => set (ch1 := x) end.
  assert (choice_ok ch1) as H1 by (unfold ch1; case_if; [by apply set_cflags_ok|done]).
  match goal with |- context [mbind _ ?x] => assert (exists ch2 c', x = Ok (ch2, c') /\ choice_ok ch2 /\ cache_ok mix_tab m c') as (ch2 & c' & -> & H2 & Hc') end.
  { case_if; [|by exists ch1, c]. destruct (local_ok mix_tab m lc c qdomain now Hc) as (b & c' & -> & Hc'). cbn [mbind comp_bind mret comp_ret].
    eexists _, c'. split; [done|]. split; [|done]. case_if; [by apply set_cflags_ok|done]. }
  cbn [mbind comp_bind mret comp_ret]. eexists _, c'. split; [done|]. split; [|done]. case_if; [|done]. destruct H2. by split.
Qed.

(** ** The longest domain wins *)

(** The servers for domains the name is in, as its forwarders. *)
Definition matching (qdomain : list Z) (s : server) : bool :=
  has (s_flags s) SERV_HAS_DOMAIN && match s_domain s with Some d => in_domain qdomain d | None => false end.
Definition forwarder (qdomain : list Z) (s : server) : bool := matching qdomain s && negb (has (s_flags s) SERV_NO_REBIND).
Definition dom_len (s : server) : Z := from_option zlen 0 (s_domain s).

(** What is known of the servers that have been looked at, in a name with a
    dot. *)
Record searched_for (qdomain : list Z) (l : list server) (ch : choice) : Prop := {
  sf_rebind : c_norebind ch = existsb (fun s => matching qdomain s && has (s_flags s) SERV_NO_REBIND) l;
  sf_none : existsb (forwarder qdomain) l = false -> c_type ch = 0 /\ c_domain ch = None /\ c_flags ch = 0 /\ c_match ch = 0;
  sf_some : existsb (forwarder qdomain) l = true -> exists s d, s ∈ l /\ forwarder qdomain s = true /\ s_domain s = Some d /\
    c_domain ch = Some d /\ c_match ch = zlen d /\
    c_type ch = Z.land (s_flags s) (Z.lor SERV_HAS_DOMAIN (Z.lor SERV_USE_RESOLV SERV_NO_REBIND));
  sf_longest : forall s, s ∈ l -> forwarder qdomain s = true -> dom_len s <= c_match ch }.

Lemma existsb_snoc {A} (f : A -> bool) l x : existsb f (l ++ [x]) = existsb f l || f x.
Proof. rewrite existsb_app. cbn. by rewrite orb_false_r. Qed.

Lemma literal_same s qtype ch : c_type (literal s qtype ch) = c_type ch /\ c_domain (literal s qtype ch) = c_domain ch /\
  c_norebind (literal s qtype ch) = c_norebind ch /\ c_match (literal s qtype ch) = c_match ch.
Proof. unfold literal. by repeat case_match. Qed.

(** What a server for the domain answers itself does not change the choice. *)
Lemma answer_same s qtype ch :
  let ch' := if has (s_flags s) SERV_NO_ADDR then set_cflags F_NXDOMAIN ch
             else if has (s_flags s) SERV_LITERAL_ADDRESS then literal s qtype ch else set_cflags 0 ch in
  c_type ch' = c_type ch /\ c_domain ch' = c_domain ch /\ c_norebind ch' = c_norebind ch /\ c_match ch' = c_match ch.
Proof.
  cbv zeta. pose proof (literal_same s qtype ch) as H. destruct (has (s_flags s) SERV_NO_ADDR); [by split_and!|].
  by destruct (has (s_flags s) SERV_LITERAL_ADDRESS).
Qed.

(** A server changes nothing but what a [NO_REBIND] one is for. *)
Lemma searched_skip qdomain l ch s b : searched_for qdomain l ch -> b = matching qdomain s && has (s_flags s) SERV_NO_REBIND ->
  (forwarder qdomain s = true -> existsb (forwarder qdomain) l = true /\ dom_len s <= c_match ch) ->
  searched_for qdomain (l ++ [s]) (Choice (c_flags ch) (c_addr ch) (c_type ch) (c_domain ch) (c_norebind ch || b) (c_match ch)).
Proof.
  intros [R1 R2 R3 R4] -> Hs. split; cbn.
  - by rewrite existsb_snoc, R1.
  - rewrite existsb_snoc. intros [H _]%orb_false_iff. by apply R2.
  - rewrite existsb_snoc. intros H. assert (existsb (forwarder qdomain) l = true) as He by (apply orb_true_iff in H as [?|?]; [done|by apply Hs]).
    destruct (R3 He) as (s0 & d & Hin & Hrest). exists s0, d. split; [set_solver|done].
  - intros s0 [Hin| ->%list_elem_of_singleton]%elem_of_app Hf; [by apply R4|by apply Hs].
Qed.

Lemma searched_same qdomain l ch s : searched_for qdomain l ch -> matching qdomain s && has (s_flags s) SERV_NO_REBIND = false ->
  (forwarder qdomain s = true -> existsb (forwarder qdomain) l = true /\ dom_len s <= c_match ch) -> searched_for qdomain (l ++ [s]) ch.
Proof.
  intros R Hb Hs. pose proof (searched_skip qdomain l ch s false R (eq_sym Hb) Hs) as H. rewrite orb_false_r in H. by destruct ch.
Qed.

Lemma searched_step qtype qdomain l ch s : searched_for qdomain l ch -> has_dot qdomain = true -> server_ok s ->
  exists ch', try_server qtype qdomain s ch = Ok ch' /\ searched_for qdomain (l ++ [s]) ch'.
Proof.
  intros R Hdot Hs. unfold try_server. rewrite Hdot. cbn [negb]. rewrite andb_false_r. cbn [andb].
  destruct (has (s_flags s) SERV_HAS_DOMAIN) eqn:Hd.
  2:{ exists ch. split; [done|]. apply searched_same; [done|unfold matching; by rewrite Hd|unfold forwarder, matching; by rewrite Hd]. }
  destruct (proj1 Hs Hd) as [d Hdom]. rewrite Hdom. cbn [of_option mbind comp_bind]. cbv zeta.
  assert (matching qdomain s = in_domain qdomain d) as Hm by (unfold matching; by rewrite Hd, Hdom). destruct (in_domain qdomain d) eqn:Hin.
  2:{ exists ch. split; [done|]. apply searched_same; [done|by rewrite Hm|unfold forwarder; by rewrite Hm]. }
  assert (dom_len s = zlen d) as Hlen by (unfold dom_len; by rewrite Hdom). pose proof (zlen_nonneg d) as Hd0.
  assert (forall v, 0 < c_match ch -> v <= c_match ch -> existsb (forwarder qdomain) l = true /\ v <= c_match ch) as Hold.
  { intros v Hpos Hv. split; [|done]. destruct (existsb (forwarder qdomain) l) eqn:He; [done|]. destruct (sf_none _ _ _ R He) as (_ & _ & _ & H0). lia. }
  destruct (has (s_flags s) SERV_NO_REBIND) eqn:Hnr.
  { eexists. split; [done|]. pose proof (searched_skip qdomain l ch s true R) as H. rewrite orb_true_r in H. apply H; [by rewrite Hm, Hnr|].
    unfold forwarder. by rewrite Hnr, andb_false_r. }
  assert (matching qdomain s && has (s_flags s) SERV_NO_REBIND = false) as Hb by (by rewrite Hnr, andb_false_r).
  match goal with |- context [if ?b then mret ch else _] => destruct b eqn:Ec end.
  { exists ch. split; [done|]. apply andb_true_iff in Ec as [[Ec1%negb_true_iff%Z.eqb_neq Ec2%Z.eqb_eq]%andb_true_iff _]. apply searched_same; [done|by rewrite Hm|]. intros _. rewrite Hlen. apply Hold; lia. }
  destruct (c_match ch <=? zlen d) eqn:Ele; [apply Z.leb_le in Ele|apply Z.leb_gt in Ele].
  2:{ exists ch. split; [done|]. apply searched_same; [done|by rewrite Hm|]. intros _. rewrite Hlen. apply Hold; lia. }
  eexists. split; [done|]. set (ch1 := Choice _ _ _ _ _ _). 
  destruct (answer_same s qtype ch1) as (E1 & E2 & E3 & E4).
  assert (forwarder qdomain s = true) as Hf by (unfold forwarder; by rewrite Hm, Hnr). split; rewrite ?E1, ?E2, ?E3, ?E4; cbn.
  - rewrite existsb_snoc, Hm, Hnr. by rewrite orb_false_r, (sf_rebind _ _ _ R).
  - rewrite existsb_snoc, Hf, orb_true_r. done.
  - intros _. exists s, d. split_and!; [set_solver|done..].
  - intros s0 [Hi| ->%list_elem_of_singleton]%elem_of_app Hf0; [|lia]. pose proof (sf_longest _ _ _ R s0 Hi Hf0). lia.
Qed.

Lemma search_all qtype qdomain l2 : Forall server_ok l2 -> has_dot qdomain = true -> forall l1 ch, searched_for qdomain l1 ch ->
  exists ch', try_servers qtype qdomain l2 ch = Ok ch' /\ searched_for qdomain (l1 ++ l2) ch'.
Proof.
  intros Hl Hdot. induction Hl as [|s l Hs _ IH]; intros l1 ch R; cbn [try_servers]; [exists ch; by rewrite app_nil_r|].
  destruct (searched_step qtype qdomain l1 ch s R Hdot Hs) as (ch1 & -> & R1). cbn [mbind comp_bind].
  destruct (IH (l1 ++ [s]) ch1 R1) as (ch' & -> & R'). exists ch'. split; [done|]. by rewrite <- app_assoc in R'.
Qed.

(** C22: a name with a dot that is in none of the domains of the servers is for
    the servers without a domain; otherwise it is for those with the longest
    of these domains, or, when that domain is marked so, for the others again.
    The protection against rebinding is off when the name is in a domain that
    is exempt from it. *)
Theorem search_servers_longest mix_tab nodots lc now qtype qdomain servers c l nc :
  Forall server_ok servers -> has_dot qdomain = true -> wf mix_tab c l nc ->
  exists ch c' l', search_servers mix_tab nodots lc now qtype qdomain servers c = Ok (ch, c') /\ wf mix_tab c' l' nc /\
    c_norebind ch = existsb (fun s => matching qdomain s && has (s_flags s) SERV_NO_REBIND) servers /\
    (existsb (forwarder qdomain) servers = false -> c_flags ch = 0 /\ c_type ch = 0 /\ c_domain ch = None) /\
    (existsb (forwarder qdomain) servers = true -> exists s d, s ∈ servers /\ forwarder qdomain s = true /\ s_domain s = Some d /\
      (forall s', s' ∈ servers -> forwarder qdomain s' = true -> dom_len s' <= zlen d) /\
      (c_domain ch = Some d /\ Z.land (c_type ch) SERV_TYPE = SERV_HAS_DOMAIN \/
       c_flags ch = 0 /\ has (s_flags s) SERV_USE_RESOLV = true /\ c_domain ch = None /\ c_type ch = 0)).
Proof.
  intros Hl Hdot W. unfold search_servers.
  destruct (search_all qtype qdomain servers Hl Hdot [] (Choice 0 None 0 None false 0)) as (ch & -> & [R1 R2 R3 R4]).
  { split; try done; cbn. intros s Hs. by apply elem_of_nil in Hs. }
  cbn [mbind comp_bind app] in *. rewrite Hdot. cbv zeta. cbn [negb]. rewrite andb_false_r. cbn [andb].
  match goal with |- context [mbind _ ?x] => assert (exists ch2 c' l', x = Ok (ch2, c') /\ wf mix_tab c' l' nc /\ (ch2 = ch \/ ch2 = set_cflags F_NOERR ch) /\
    (c_flags ch = 0 <-> c_flags ch2 = 0)) as (ch2 & c' & l' & -> & W' & H2 & H20) end.
  { case_if; [|exists ch, c, l; by split_and!; auto]. destruct (local_domain_ok mix_tab lc c l nc qdomain now W) as (b & c' & l' & -> & W' & _). cbn [mbind comp_bind mret comp_ret].
    eexists _, c', l'. split; [done|]. split; [done|]. zbool. case_if; [|by auto]. split; [by right|]. cbn. split; intros H; [rewrite H in E; done|done]. }
  cbn [mbind comp_bind mret comp_ret].
  assert (c_type ch2 = c_type ch /\ c_domain ch2 = c_domain ch /\ c_norebind ch2 = c_norebind ch) as (Ht & Hd & Hn) by (by destruct H2 as [-> | ->]).
  eexists _, c', l'. split; [done|]. split; [done|]. split_and!.
  - case_if; cbn; congruence.
  - intros He. destruct (R2 He) as (H3 & H4 & H5 & _). case_if; cbn; [zbool; by split_and!|]. split_and!; [by apply H20|congruence|congruence].
  - intros He. destruct (R3 He) as (s & d & Hin & Hf & Hdom & Hcd & Hcm & Hct). exists s, d. rewrite Hcm in R4. split_and!; try done.
    case_if; cbn.
    + right. zbool. split_and!; try done. rewrite Ht, Hct in *. change SERV_USE_RESOLV with (2 ^ 10) in *. 
      match goal with H : has _ (2 ^ 10) = true |- _ => rewrite has_land_bit in H by lia; by apply andb_true_iff in H as [? _] end.
    + left. split; [congruence|]. rewrite Ht, Hct. unfold forwarder, matching in Hf. apply andb_true_iff in Hf as [[Hf _]%andb_true_iff _].
      rewrite <- Z.land_assoc. change (Z.land _ SERV_TYPE) with (2 ^ 3). change SERV_HAS_DOMAIN with (2 ^ 3) in *. rewrite has_bit in Hf by lia.
      apply Z.bits_inj'. intros k Hk. rewrite Z.land_spec, Z.pow2_bits_eqb by lia. destruct (3 =? k) eqn:E3; [apply Z.eqb_eq in E3 as <-; by rewrite Hf|]. by rewrite andb_false_r.
Qed.

(** Two servers for [org] and [a.org]. *)
Definition two_servers : list server :=
  [Server (SA AF_INET 53 (10, 0, 0, 1)) None (Some (lit "a.org")) SERV_HAS_DOMAIN 0 0;
   Server (SA AF_INET 53 (10, 0, 0, 2)) None (Some (lit "org")) SERV_HAS_DOMAIN 0 0].
Definition no_locals : locals := Locals [] [] [] [] [].

Lemma search_servers_longest_witness : exists c l ch c', cache_init demo_mix 2 = Ok c /\ wf demo_mix c l [] /\
  search_servers demo_mix false no_locals 100 F_IPV4 (lit "www.a.org") two_servers c = Ok (ch, c') /\ c_domain ch = Some (lit "a.org").
Proof.
  destruct (cache_init_ok demo_mix 2) as (c & l & Hc & W & _); [lia|]. exists c, l.
  destruct (search_servers_longest demo_mix false no_locals 100 F_IPV4 (lit "www.a.org") two_servers c l []) as (ch & c' & l' & Hs & _ & _ & _ & H);
    [|by vm_compute|done|].
  { repeat constructor; try (by eexists); by vm_compute. }
  destruct (H eq_refl) as (s & d & Hs1 & Hs2 & Hs3 & Hs4 & Hs5). exists ch, c'. split_and!; try done.
  assert (d = lit "a.org") as ->.
  { unfold two_servers in Hs1. apply elem_of_cons in Hs1 as [->|Hs1]; [by injection Hs3 as <-|]. apply list_elem_of_singleton in Hs1 as ->. injection Hs3 as <-.
    specialize (Hs4 (Server (SA AF_INET 53 (10, 0, 0, 1)) None (Some (lit "a.org")) SERV_HAS_DOMAIN 0 0) ltac:(by left) eq_refl). by vm_compute in Hs4. }
  destruct Hs5 as [[? _]|(_ & Hu & _)]; [done|]. exfalso. unfold two_servers in Hs1.
  apply elem_of_cons in Hs1 as [->|Hs1]; [by vm_compute in Hu|]. apply list_elem_of_singleton in Hs1 as ->. by vm_compute in Hu.
Defined.

(** ** Addresses for whole domains *)

(** Builds with IPv6 only: an address of the wrong kind for the longest domain
    does not take back the one of a shorter domain, so the answer for [a.org]
    is not that there is none but the address given for [org]. *)
Example shorter_address_wins :
  try_servers F_IPV4 (lit "a.org")
    [Server (SA AF_INET 0 (1, 2, 3, 4)) None (Some (lit "org")) (Z.lor SERV_HAS_DOMAIN SERV_LITERAL_ADDRESS) 0 0;
     Server (SA 10 0 (0, 0, 0, 0)) None (Some (lit "a.org")) (Z.lor SERV_HAS_DOMAIN SERV_LITERAL_ADDRESS) 0 0]
    (Choice 0 None 0 None false 0) = Ok (Choice F_IPV4 (Some (1, 2, 3, 4)) SERV_HAS_DOMAIN (Some (lit "a.org")) false 5).
Proof. vm_compute. reflexivity. Qed.
