(* ===== verification/DmTable.v ===== *)
(** dnsmasq's forward.c, first part: the table of the queries that have been
    forwarded ([struct frec]), the sockets with random ports they share, and
    the identifiers they are given. *)
From S2P Require Import Prelude CString Dns Common DmUtil DmName DmPacket DmLru.
Set Warnings "-clear-no-such-hyp".

Definition TIMEOUT : Z := 15.
Definition RANDOM_SOCKS : nat := 64.

(** * Data *)

(** [sentto] is the server that was asked last; [None] means that the record
    is free. [rfd4] is the number of a socket in [randomsocks]. *)
Record frec := Frec {
  f_source : mysockaddr; f_dest : in_addr; f_sentto : option ptr; f_rfd4 : option nat; f_iface : Z;
  f_orig_id : Z; f_new_id : Z; f_fd : Z; f_forwardall : Z; f_flags : Z; f_crc : Z; f_time : Z }.

Record randfd := Randfd { r_fd : Z; r_refcount : Z; r_family : Z }.

(** [daemon->frec_list], [daemon->randomsocks], the variable [finger] of
    [allocate_rfd], and the sockets that have been closed. *)
Record ftab := Ftab { frecs : gmap ptr frec; frec_list : list ptr; randomsocks : list randfd; finger : nat; closed : list Z }.

Definition getf (t : ftab) (f : ptr) : comp frec := of_option NullDeref (frecs t !! f).
Definition putf (t : ftab) (f : ptr) (r : frec) : ftab := Ftab (<[f := r]> (frecs t)) (frec_list t) (randomsocks t) (finger t) (closed t).
Definition put_sock (t : ftab) (i : nat) (s : randfd) : ftab := Ftab (frecs t) (frec_list t) (<[i := s]> (randomsocks t)) (finger t) (closed t).
Definition with_finger (v : nat) (t : ftab) : ftab := Ftab (frecs t) (frec_list t) (randomsocks t) v (closed t).
Definition with_time (v : Z) (r : frec) : frec :=
  Frec (f_source r) (f_dest r) (f_sentto r) (f_rfd4 r) (f_iface r) (f_orig_id r) (f_new_id r) (f_fd r) (f_forwardall r) (f_flags r) (f_crc r) v.
Definition with_sentto (v : option ptr) (r : frec) : frec :=
  Frec (f_source r) (f_dest r) v (f_rfd4 r) (f_iface r) (f_orig_id r) (f_new_id r) (f_fd r) (f_forwardall r) (f_flags r) (f_crc r) (f_time r).
Definition with_rfd4 (v : option nat) (r : frec) : frec :=
  Frec (f_source r) (f_dest r) (f_sentto r) v (f_iface r) (f_orig_id r) (f_new_id r) (f_fd r) (f_forwardall r) (f_flags r) (f_crc r) (f_time r).
Definition with_forwardall (v : Z) (r : frec) : frec :=
  Frec (f_source r) (f_dest r) (f_sentto r) (f_rfd4 r) (f_iface r) (f_orig_id r) (f_new_id r) (f_fd r) v (f_flags r) (f_crc r) (f_time r).

(** * Records *)

(** The fields that [malloc] leaves unset are zero here; nothing reads them
    before the record is used. *)
Definition blank_frec (now : Z) : frec := Frec (SA 0 0 (0, 0, 0, 0)) (0, 0, 0, 0) None None 0 0 0 0 0 0 0 now.

(** [mem] is what [malloc] returns. *)
Definition allocate_frec (now : Z) (mem : option ptr) (t : ftab) : option ptr * ftab :=
  match mem with
  | None => (None, t)
  | Some f => (Some f, Ftab (<[f := blank_frec now]> (frecs t)) (f :: frec_list t) (randomsocks t) (finger t) (closed t))
  end.

Definition free_frec (t : ftab) (f : ptr) : comp ftab :=
  r ← getf t f;
  t ← match f_rfd4 r with
      | None => mret t
      | Some i =>
          s ← of_option ReadOOB (randomsocks t !! i);
          let n := u16 (r_refcount s - 1) in
          let t := put_sock t i (Randfd (r_fd s) n (r_family s)) in
          mret (if n =? 0 then Ftab (frecs t) (frec_list t) (randomsocks t) (finger t) (r_fd s :: closed t) else t)
      end;
  mret (putf t f (Frec (f_source r) (f_dest r) None None (f_iface r) (f_orig_id r) (f_new_id r) (f_fd r) (f_forwardall r) 0 (f_crc r) (f_time r))).

(** The walk of [get_new_frec]. *)
Fixpoint scan_frecs (now : Z) (l : list ptr) (oldest target : option ptr) (t : ftab) : comp (option ptr * option ptr * ftab) :=
  match l with
  | [] => Ok (oldest, target, t)
  | f :: l' =>
      r ← getf t f;
      match f_sentto r with
      | None => scan_frecs now l' oldest (Some f) t
      | Some _ =>
          '(target, t) ← (if 4 * TIMEOUT <=? now - f_time r then t ← free_frec t f; mret (Some f, t) else mret (target, t));
          older ← match oldest with None => mret true | Some o => ro ← getf t o; mret (f_time r - f_time ro <=? 0) end;
          scan_frecs now l' (if (older : bool) then Some f else oldest) target t
      end
  end.

(** [wait] is whether the caller only asks how long to wait; the second result
    is what is stored then. *)
Definition get_new_frec (ftabsize now : Z) (wait : bool) (mem : option ptr) (t : ftab) : comp (option ptr * Z * ftab) :=
  '(oldest, target, t) ← scan_frecs now (frec_list t) None None t;
  match target with
  | Some f => r ← getf t f; mret (Some f, 0, putf t f (with_time now r))
  | None =>
      let count := zlen (frec_list t) in
      age ← match oldest with None => mret (-1) | Some o => ro ← getf t o; mret (now - f_time ro) end;
      match oldest with
      | Some o =>
          if TIMEOUT <=? age then
            if (age <? 2 * TIMEOUT) && (count <=? ftabsize) && bool_decide (is_Some mem) then
              let '(f, t) := allocate_frec now mem t in mret (f, 0, t)
            else if wait then mret (Some o, 0, t)
            else t ← free_frec t o; r ← getf t o; mret (Some o, 0, putf t o (with_time now r))
          else if ftabsize <? count then mret (None, TIMEOUT - age, t)
          else let '(f, t) := allocate_frec now mem t in mret (f, if bool_decide (f = None) then 1 else 0, t)
      | None =>
          if ftabsize <? count then mret (None, 0, t)
          else let '(f, t) := allocate_frec now mem t in mret (f, if bool_decide (f = None) then 1 else 0, t)
      end
  end.

(** * Searching *)

Fixpoint find_frec (p : frec -> bool) (l : list ptr) (t : ftab) : comp (option ptr) :=
  match l with
  | [] => Ok None
  | f :: l' => r ← getf t f; if p r then Ok (Some f) else find_frec p l' t
  end.

Definition in_use (r : frec) : bool := bool_decide (is_Some (f_sentto r)).

(** The checksum is all ones when it is not known. *)
Definition lookup_frec (id crc : Z) (t : ftab) : comp (option ptr) :=
  find_frec (fun r => in_use r && (f_new_id r =? id) && ((f_crc r =? crc) || (crc =? 0xffffffff))) (frec_list t) t.

Definition lookup_frec_by_sender (id : Z) (addr : mysockaddr) (crc : Z) (t : ftab) : comp (option ptr) :=
  find_frec (fun r => in_use r && (f_orig_id r =? id) && (f_crc r =? crc) && sockaddr_isequal (f_source r) addr) (frec_list t) t.

Fixpoint free_gone (s : ptr) (l : list ptr) (t : ftab) : comp ftab :=
  match l with
  | [] => Ok t
  | f :: l' => r ← getf t f; t ← (if bool_decide (f_sentto r = Some s) then free_frec t f else mret t); free_gone s l' t
  end.

(** * Identifiers *)

(** Random numbers are drawn until one is not in use with the checksum. *)
Fixpoint get_id (fuel : nat) (crc : Z) (t : ftab) (rng : surf_t) : comp (Z * surf_t) :=
  match fuel with
  | O => Fault NoFuel
  | S fuel' =>
      '(ret, rng) ← rand16 rng;
      r ← lookup_frec ret crc t;
      match r with None => mret (ret, rng) | Some _ => get_id fuel' crc t rng end
  end.

(** * Sockets *)

(** The first slot from [i] on that nothing refers to. *)
Fixpoint free_slot (i : nat) (l : list randfd) : option nat :=
  match l with
  | [] => None
  | s :: l' => if r_refcount s =? 0 then Some i else free_slot (S i) l'
  end.

(** The slots behind [finger], in a circle. *)
Fixpoint shared_slot (n i : nat) (family : Z) (t : ftab) : comp (option nat) :=
  match n with
  | O => Ok None
  | S n' =>
      let j := ((i + finger t) `mod` RANDOM_SOCKS)%nat in
      s ← of_option ReadOOB (randomsocks t !! j);
      if negb (r_refcount s =? 0) && (r_family s =? family) && negb (r_refcount s =? 0xffff) then Ok (Some j)
      else shared_slot n' (S i) family t
  end.

(** [sock] is what [random_sock] returns, -1 as [None]. *)
Definition allocate_rfd (family : Z) (sock : option Z) (t : ftab) : comp (option nat * ftab) :=
  let slot := free_slot 0 (randomsocks t) in
  let share (t : ftab) :=
    j ← shared_slot RANDOM_SOCKS 0 family t;
    match j with
    | None => mret (None, t)
    | Some j => s ← of_option ReadOOB (randomsocks t !! j);
                mret (Some j, put_sock (with_finger j t) j (Randfd (r_fd s) (r_refcount s + 1) (r_family s)))
    end in
  match slot with
  | Some i =>
      s ← of_option ReadOOB (randomsocks t !! i);
      match sock with
      | Some fd => mret (Some i, put_sock t i (Randfd fd 1 family))
      | None => share (put_sock t i (Randfd (-1) (r_refcount s) (r_family s)))
      end
  | None => share t
  end.

(** * The invariant *)

Definition rfd_of (t : ftab) (f : ptr) : option nat := frecs t !! f ≫= f_rfd4.
(** How many records refer to a socket. *)
Definition uses (t : ftab) (i : nat) : Z := zlen (filter (fun f => rfd_of t f = Some i) (frec_list t)).

(** Records in use that have the same identifier have different checksums. *)
Definition ids_distinct (t : ftab) : Prop := forall f g rf rg, f ∈ frec_list t -> g ∈ frec_list t -> f <> g ->
  frecs t !! f = Some rf -> frecs t !! g = Some rg -> in_use rf = true -> in_use rg = true -> f_new_id rf = f_new_id rg -> f_crc rf <> f_crc rg.

(** A free record has no socket, but for the one that a query is being put
    into; a socket is open as long as records refer to it. *)
Record tinv (t : ftab) (busy : option ptr) : Prop := {
  ti_nodup : NoDup (frec_list t);
  ti_known : forall f, f ∈ frec_list t -> is_Some (frecs t !! f);
  ti_socks : length (randomsocks t) = RANDOM_SOCKS;
  ti_free : forall f r, f ∈ frec_list t -> frecs t !! f = Some r -> f_sentto r = None -> busy <> Some f -> f_rfd4 r = None;
  ti_valid : forall f r i, f ∈ frec_list t -> frecs t !! f = Some r -> f_rfd4 r = Some i -> (i < RANDOM_SOCKS)%nat;
  ti_count : forall i s, randomsocks t !! i = Some s -> r_refcount s = uses t i /\ r_refcount s <= 0xffff;
  ti_ids : ids_distinct t }.

Lemma rfd_of_putf t f r g : rfd_of (putf t f r) g = if decide (g = f) then f_rfd4 r else rfd_of t g.
Proof.
  unfold rfd_of, putf. cbn [frecs]. destruct (decide (g = f)) as [->|Hne]; [by rewrite lookup_insert_eq|by rewrite lookup_insert_ne].
Qed.

(** The number of elements of a list with a property that only one element
    changes. *)
Lemma filter_count {A} `{!EqDecision A} (P Q : A -> Prop) `{!forall x, Decision (P x)} `{!forall x, Decision (Q x)} (l : list A) (a : A) :
  NoDup l -> a ∈ l -> (forall x, x <> a -> P x <-> Q x) ->
  zlen (filter P l) = zlen (filter Q l) + (if bool_decide (P a) then 1 else 0) - (if bool_decide (Q a) then 1 else 0).
Proof.
  intros Hnd Ha Hext. apply list_elem_of_split in Ha as (l1 & l2 & ->).
  apply NoDup_app in Hnd as (_ & H1 & Hnd). apply NoDup_cons in Hnd as [H2 _].
  assert (forall l : list A, a ∉ l -> filter P l = filter Q l) as Hsame.
  { intros l Hl. induction l as [|x l IH]; [done|]. rewrite !filter_cons.
    assert (x <> a) as Hx by set_solver. pose proof (Hext x Hx). destruct (decide (P x)), (decide (Q x)); try tauto; rewrite IH by set_solver; done. }
  rewrite !filter_app, !filter_cons, (Hsame l1), (Hsame l2) by set_solver. rewrite !zlen_app.
  destruct (decide (P a)), (decide (Q a)); rewrite ?zlen_cons; repeat case_bool_decide; try done; lia.
Qed.

(** A record changes its socket. *)
Lemma uses_putf t f r i : NoDup (frec_list t) -> f ∈ frec_list t ->
  uses (putf t f r) i = uses t i + (if bool_decide (f_rfd4 r = Some i) then 1 else 0) - (if bool_decide (rfd_of t f = Some i) then 1 else 0).
Proof.
  intros Hnd Hf. unfold uses. cbn [putf frec_list]. rewrite (filter_count _ (fun g => rfd_of t g = Some i) _ f Hnd Hf).
  - rewrite rfd_of_putf, decide_True by done. done.
  - intros g Hg. by rewrite rfd_of_putf, decide_False.
Qed.

Lemma uses_nonneg t i : 0 <= uses t i.
Proof. apply zlen_nonneg. Qed.

(** A record in the list that refers to a socket is counted. *)
Lemma uses_pos t f i : f ∈ frec_list t -> rfd_of t f = Some i -> 1 <= uses t i.
Proof.
  intros Hf Hi. unfold uses. assert (f ∈ filter (fun g => rfd_of t g = Some i) (frec_list t)) as Hin by (by apply list_elem_of_filter).
  destruct (filter _ _) as [|x l]; [by apply elem_of_nil in Hin|]. rewrite zlen_cons. pose proof (zlen_nonneg l). lia.
Qed.

(** One record and the sockets change. *)
Lemma tinv_update t b t' b' f r r' : tinv t b -> f ∈ frec_list t -> frecs t !! f = Some r ->
  frec_list t' = frec_list t -> frecs t' = <[f := r']> (frecs t) -> length (randomsocks t') = RANDOM_SOCKS ->
  (forall i s, randomsocks t' !! i = Some s -> r_refcount s <= 0xffff /\
     r_refcount s = uses t i + (if bool_decide (f_rfd4 r' = Some i) then 1 else 0) - (if bool_decide (f_rfd4 r = Some i) then 1 else 0)) ->
  (f_sentto r' = None -> b' <> Some f -> f_rfd4 r' = None) -> (forall i, f_rfd4 r' = Some i -> (i < RANDOM_SOCKS)%nat) ->
  (forall g, g <> f -> b' <> Some g -> b <> Some g) ->
  (forall g rg, g ∈ frec_list t -> g <> f -> frecs t !! g = Some rg -> in_use r' = true -> in_use rg = true -> f_new_id r' = f_new_id rg -> f_crc r' <> f_crc rg) ->
  tinv t' b'.
Proof.
  intros [I1 I2 I3 I4 I5 I6 I7] Hf Hr Hl Hm Hs Hcnt Hfree Hval Hb Hids.
  assert (forall g rg, frecs t' !! g = Some rg -> (g = f /\ rg = r') \/ (g <> f /\ frecs t !! g = Some rg)) as Hcase.
  { intros g rg. rewrite Hm. destruct (decide (g = f)) as [->|Hne]; [rewrite lookup_insert_eq; intros [= <-]; by left|].
    rewrite lookup_insert_ne by done. by right. }
  split.
  - by rewrite Hl.
  - intros g. rewrite Hl, Hm. intros Hg. destruct (decide (g = f)) as [->|Hne]; [rewrite lookup_insert_eq; eauto|]. rewrite lookup_insert_ne by done. by apply I2.
  - done.
  - intros g rg. rewrite Hl. intros Hg Hrg Hst Hbg. destruct (Hcase g rg Hrg) as [[-> ->]|[Hne Hrg']]; [by apply Hfree|]. apply (I4 g rg); auto.
  - intros g rg i. rewrite Hl. intros Hg Hrg. destruct (Hcase g rg Hrg) as [[-> ->]|[Hne Hrg']]; [by apply Hval|by apply (I5 g)].
  - intros i s Hi. destruct (Hcnt i s Hi) as [Hle Hu]. split; [|done]. rewrite Hu. replace (uses t' i) with (uses (putf t f r') i).
    + rewrite uses_putf by done. unfold rfd_of. by rewrite Hr.
    + unfold uses, rfd_of. cbn [putf frec_list frecs]. by rewrite Hl, Hm.
  - intros g h rg rh. rewrite Hl. intros Hg Hh Hne Hrg Hrh. destruct (Hcase g rg Hrg) as [[-> ->]|[Hgf Hrg']], (Hcase h rh Hrh) as [[-> ->]|[Hhf Hrh']]; try done.
    + intros. by apply (Hids h rh).
    + intros Hu1 Hu2 Hid Hc. by apply (Hids g rg Hg Hgf Hrg' Hu2 Hu1).
    + by apply (I7 g h rg rh).
Qed.

(** Nothing but the query changes. *)
Lemma tinv_putf t b b' f r r' : tinv t b -> f ∈ frec_list t -> frecs t !! f = Some r -> f_rfd4 r' = f_rfd4 r ->
  (f_sentto r' = None -> b' <> Some f -> f_rfd4 r' = None) -> (forall g, g <> f -> b' <> Some g -> b <> Some g) ->
  (forall g rg, g ∈ frec_list t -> g <> f -> frecs t !! g = Some rg -> in_use r' = true -> in_use rg = true -> f_new_id r' = f_new_id rg -> f_crc r' <> f_crc rg) ->
  tinv (putf t f r') b'.
Proof.
  intros I Hf Hr Hrfd Hfree Hb Hids. eapply tinv_update; try done.
  - apply I.
  - intros i s Hs. rewrite Hrfd. destruct (ti_count _ _ I i s Hs) as [-> ?]. split; [done|lia].
  - intros i. rewrite Hrfd. by apply (ti_valid _ _ I f r).
Qed.

Definition freed_frec (r : frec) : frec :=
  Frec (f_source r) (f_dest r) None None (f_iface r) (f_orig_id r) (f_new_id r) (f_fd r) (f_forwardall r) 0 (f_crc r) (f_time r).

Lemma sock_at t b f r i : tinv t b -> f ∈ frec_list t -> frecs t !! f = Some r -> f_rfd4 r = Some i ->
  exists s, randomsocks t !! i = Some s /\ 1 <= r_refcount s <= 0xffff /\ r_refcount s = uses t i.
Proof.
  intros I Hf Hr Hi. destruct (lookup_lt_is_Some_2 (randomsocks t) i) as [s Hs]; [rewrite (ti_socks _ _ I); by apply (ti_valid _ _ I f r)|].
  destruct (ti_count _ _ I i s Hs) as [Hu Hle]. exists s. split; [done|]. assert (1 <= uses t i) by (apply (uses_pos t f); [done|unfold rfd_of; by rewrite Hr]). lia.
Qed.

Lemma free_frec_ok t b f r : tinv t b -> f ∈ frec_list t -> frecs t !! f = Some r ->
  exists t', free_frec t f = Ok t' /\ tinv t' (if decide (b = Some f) then None else b) /\ frec_list t' = frec_list t /\
    frecs t' = <[f := freed_frec r]> (frecs t) /\ finger t' = finger t.
Proof.
  intros I Hf Hr. unfold free_frec, getf. rewrite Hr. cbn [of_option mbind comp_bind].
  assert (forall g, g <> f -> (if decide (b = Some f) then None else b) <> Some g -> b <> Some g) as Hb.
  { intros g Hg. destruct (decide (b = Some f)) as [->|]; [congruence|done]. }
  destruct (f_rfd4 r) as [i|] eqn:Hi.
  - destruct (sock_at t b f r i I Hf Hr Hi) as (s & Hs & Hc & Hu). rewrite Hs. cbn [of_option mbind comp_bind mret comp_ret].
    set (n := u16 (r_refcount s - 1)). assert (n = r_refcount s - 1) as Hn by (unfold n, u16; apply Z.mod_small; lia).
    eexists. split; [reflexivity|].
    assert (forall t0, frecs t0 = frecs t -> frec_list t0 = frec_list t -> randomsocks t0 = <[i := Randfd (r_fd s) n (r_family s)]> (randomsocks t) ->
      tinv (putf t0 f (freed_frec r)) (if decide (b = Some f) then None else b)) as Hinv.
    { intros t0 H1 H2 H3. eapply (tinv_update t b _ _ f r (freed_frec r)); try done.
      - cbn. by rewrite H1.
      - cbn. rewrite H3, length_insert. apply I.
      - cbn. rewrite H3. intros j sj Hj. destruct (decide (j = i)) as [->|Hji].
        + rewrite list_lookup_insert_eq in Hj by (by eapply lookup_lt_Some). injection Hj as <-. cbn. rewrite Hi, (bool_decide_eq_false_2 (None = _)) by done.
          rewrite bool_decide_eq_true_2 by done. lia.
        + rewrite list_lookup_insert_ne in Hj by done. destruct (ti_count _ _ I j sj Hj) as [-> Hle]. rewrite Hi, !bool_decide_eq_false_2 by congruence. lia. }
    destruct (n =? 0); (split; [by apply Hinv|done]).
  - cbn [mbind comp_bind mret comp_ret]. eexists. split; [reflexivity|]. split; [|done].
    eapply (tinv_putf t b _ f r (freed_frec r)); try done.
Qed.

(** ** A record for a new query *)

(** Records that are old enough have been freed, the others are as they
    were. *)
Definition trimmed (now : Z) (t t' : ftab) : Prop :=
  frec_list t' = frec_list t /\ forall f r, frecs t !! f = Some r ->
    frecs t' !! f = Some r \/ (frecs t' !! f = Some (freed_frec r) /\ (f_sentto r = None \/ 4 * TIMEOUT <= now - f_time r)).

Lemma freed_twice r : freed_frec (freed_frec r) = freed_frec r.
Proof. done. Qed.

Lemma trimmed_trans now t t1 t2 : trimmed now t t1 -> trimmed now t1 t2 -> trimmed now t t2.
Proof.
  intros [L1 H1] [L2 H2]. split; [congruence|]. intros f r Hr. destruct (H1 f r Hr) as [Hr1|[Hr1 Hold]].
  - destruct (H2 f r Hr1) as [?|[? ?]]; auto.
  - right. split; [|done]. destruct (H2 f _ Hr1) as [?|[? _]]; [done|]. by rewrite freed_twice in *.
Qed.

Record scan_result (now : Z) (l : list ptr) (t t' : ftab) (oldest' target' : option ptr) : Prop := {
  sr_inv : tinv t' None;
  sr_trim : trimmed now t t';
  sr_oldest : forall o, oldest' = Some o -> o ∈ frec_list t;
  sr_target : forall f, target' = Some f -> f ∈ frec_list t /\ exists r, frecs t' !! f = Some r /\ f_sentto r = None;
  sr_none : target' = None -> t' = t /\ forall f r, f ∈ l -> frecs t !! f = Some r ->
    is_Some (f_sentto r) /\ exists o ro, oldest' = Some o /\ frecs t !! o = Some ro /\ f_time ro <= f_time r }.

Lemma scan_frecs_ok now l : forall t oldest target, tinv t None -> (forall f, f ∈ l -> f ∈ frec_list t) ->
  (forall o, oldest = Some o -> o ∈ frec_list t /\ (target = None -> exists r, frecs t !! o = Some r /\ is_Some (f_sentto r))) ->
  (forall f, target = Some f -> f ∈ frec_list t /\ exists r, frecs t !! f = Some r /\ f_sentto r = None) ->
  exists oldest' target' t', scan_frecs now l oldest target t = Ok (oldest', target', t') /\ scan_result now l t t' oldest' target' /\
    (target' = None -> target = None /\ forall o ro, oldest = Some o -> frecs t !! o = Some ro -> exists o' ro', oldest' = Some o' /\ frecs t !! o' = Some ro' /\
      f_time ro' <= f_time ro).
Proof.
  induction l as [|f l IH]; intros t oldest target I Hl Hold Htgt; cbn [scan_frecs].
  { exists oldest, target, t. split; [done|]. split; [|intros ->; split; [done|]; intros o ro -> Hro; by exists o, ro].
    split; [done|split; [done|auto]|intros o Ho; by destruct (Hold o Ho)|done|]. intros ->. split; [done|]. intros ? ? Hf. by apply elem_of_nil in Hf. }
  destruct (ti_known _ _ I f) as [r Hr]; [apply Hl; by left|]. unfold getf. rewrite Hr. cbn [of_option mbind comp_bind].
  destruct (f_sentto r) as [sv|] eqn:Hsv.
  - assert (f ∈ frec_list t) as Hf by (apply Hl; by left).
    (* the record may be too old *)
    assert (exists target1 t1, (if 4 * TIMEOUT <=? now - f_time r then t0 ← free_frec t f; mret (Some f, t0) else mret (target, t)) = Ok (target1, t1) /\
      tinv t1 None /\ trimmed now t t1 /\ (target1 = None -> target = None /\ t1 = t) /\ (forall g, is_Some (frecs t !! g) -> is_Some (frecs t1 !! g)) /\
      (forall g, target1 = Some g -> g ∈ frec_list t /\ exists r, frecs t1 !! g = Some r /\ f_sentto r = None) /\
      (forall g rg, frecs t1 !! g = Some rg -> exists rg', frecs t !! g = Some rg' /\ f_time rg = f_time rg')) as
      (target1 & t1 & -> & I1 & Htr & Hnone & Hdom & Htgt1 & Htime).
    { destruct (4 * TIMEOUT <=? now - f_time r) eqn:E; zbool.
      - destruct (free_frec_ok t None f r I Hf Hr) as (t1 & -> & I1 & Hl1 & Hm1 & _). cbn [mbind comp_bind mret comp_ret].
        rewrite decide_False in I1 by done. exists (Some f), t1. split_and!; try done.
        + split; [done|]. intros g rg Hg. rewrite Hm1. destruct (decide (g = f)) as [->|Hne].
          * rewrite lookup_insert_eq. right. assert (rg = r) as -> by congruence. split; [done|]. by right.
          * rewrite lookup_insert_ne by done. by left.
        + intros g Hg. rewrite Hm1. destruct (decide (g = f)) as [->|]; [rewrite lookup_insert_eq; eauto|by rewrite lookup_insert_ne].
        + intros g [= <-]. split; [done|]. rewrite Hm1, lookup_insert_eq. eauto.
        + intros g rg. rewrite Hm1. destruct (decide (g = f)) as [->|]; [rewrite lookup_insert_eq; intros [= <-]; by exists r|].
          rewrite lookup_insert_ne by done. eauto.
      - exists target, t. split_and!; try done. + split; [done|auto]. + eauto. }
    cbn [mbind comp_bind].
    assert (exists older, match oldest with None => mret true | Some o => ro ← of_option NullDeref (frecs t1 !! o); mret (f_time r - f_time ro <=? 0) end = Ok older /\
      (forall o, oldest = Some o -> older = false -> exists ro, frecs t1 !! o = Some ro /\ f_time ro <= f_time r) /\
      (forall o ro, oldest = Some o -> older = true -> frecs t1 !! o = Some ro -> f_time r <= f_time ro) /\ (oldest = None -> older = true)) as (older & -> & Hov & Hot & Hon).
    { destruct oldest as [o|]; [|by exists true]. destruct (Hold o eq_refl) as [Ho _]. destruct (Hdom o (ti_known _ _ I o Ho)) as [ro Hro].
      rewrite Hro. cbn [of_option mbind comp_bind mret comp_ret]. eexists. split; [done|]. split_and!; [| |done].
      - intros o' [= <-] E. exists ro. split; [done|]. apply Z.leb_gt in E. lia.
      - intros o' ro' [= <-] E Hro'. apply Z.leb_le in E. assert (ro' = ro) as -> by congruence. lia. }
    cbn [mbind comp_bind].
    destruct (IH t1 (if older then Some f else oldest) target1 I1) as (oldest' & target' & t' & -> & R & Hk).
    + intros g Hg. rewrite (proj1 Htr). apply Hl. by right.
    + intros o Ho. rewrite (proj1 Htr). destruct older.
      * injection Ho as <-. split; [done|]. intros Hn. destruct (Hnone Hn) as [_ ->]. exists r. split; [done|]. rewrite Hsv. eauto.
      * destruct (Hold o Ho) as [H1 H2]. split; [done|]. intros Hn. destruct (Hnone Hn) as [Ht ->]. by apply H2.
    + intros g Hg. rewrite (proj1 Htr). by apply Htgt1.
    + exists oldest', target', t'. split; [done|]. destruct R as [R1 R2 R3 R4 R5]. rewrite (proj1 Htr) in R3, R4. split.
      * split; [done|by eapply trimmed_trans|done|done|]. intros Hn. destruct (Hk Hn) as [Hn1 Hkk]. destruct (R5 Hn) as [-> Hall]. destruct (Hnone Hn1) as [Hn0 ->].
        split; [done|]. intros g rg [->|Hg]%elem_of_cons Hrg; [|by apply (Hall g rg)]. assert (rg = r) as -> by congruence. split; [rewrite Hsv; eauto|].
        destruct older.
        -- destruct (Hkk f r eq_refl Hr) as (o' & ro' & ? & ? & ?). by exists o', ro'.
        -- destruct oldest as [o|]; [|by specialize (Hon eq_refl)]. destruct (Hov o eq_refl eq_refl) as (ro & Hro & Hle).
           destruct (Hkk o ro eq_refl Hro) as (o' & ro' & ? & ? & ?). exists o', ro'. split_and!; [done|done|lia].
      * intros Hn. destruct (Hk Hn) as [Hn1 Hkk]. destruct (Hnone Hn1) as [Hn0 ->]. split; [done|]. intros o ro Ho Hro. destruct older.
        -- destruct (Hkk f r eq_refl Hr) as (o' & ro' & ? & ? & ?). exists o', ro'. pose proof (Hot o ro Ho eq_refl Hro). split_and!; [done|done|lia].
        -- by apply (Hkk o ro Ho Hro).
  - destruct (IH t oldest (Some f) I) as (oldest' & target' & t' & -> & R & Hk).
    + intros g Hg. apply Hl. by right.
    + intros o Ho. destruct (Hold o Ho) as [H1 H2]. by split.
    + intros g [= <-]. split; [apply Hl; by left|]. by exists r.
    + exists oldest', target', t'. split; [done|]. destruct R as [R1 R2 R3 R4 R5].
      assert (target' <> None) as Hne by (intros Hn; by destruct (Hk Hn)). split; [|by intros]. by split.
Qed.

Lemma allocate_ok now f t : tinv t None -> f ∉ frec_list t ->
  tinv (Ftab (<[f := blank_frec now]> (frecs t)) (f :: frec_list t) (randomsocks t) (finger t) (closed t)) None.
Proof.
  intros [I1 I2 I3 I4 I5 I6 I7] Hf.
  assert (forall g r, g ∈ f :: frec_list t -> <[f := blank_frec now]> (frecs t) !! g = Some r ->
    (g = f /\ r = blank_frec now) \/ (g <> f /\ g ∈ frec_list t /\ frecs t !! g = Some r)) as Hcase.
  { intros g r Hg. destruct (decide (g = f)) as [->|Hne]; [rewrite lookup_insert_eq; intros [= <-]; by left|].
    rewrite lookup_insert_ne by done. right. split_and!; [done|set_solver|done]. }
  split; cbn [frec_list frecs randomsocks].
  - by constructor.
  - intros g Hg. destruct (decide (g = f)) as [->|Hne]; [rewrite lookup_insert_eq; eauto|]. rewrite lookup_insert_ne by done. apply I2. set_solver.
  - done.
  - intros g r Hg Hr Hst _. destruct (Hcase g r Hg Hr) as [[-> ->]|(? & ? & ?)]; [done|]. by apply (I4 g r).
  - intros g r i Hg Hr Hi. destruct (Hcase g r Hg Hr) as [[-> ->]|(? & ? & ?)]; [done|]. by apply (I5 g r i).
  - intros i s Hs. destruct (I6 i s Hs) as [-> ?]. split; [|done]. unfold uses, rfd_of. cbn [frec_list frecs].
    rewrite filter_cons, lookup_insert_eq. cbn. f_equal. apply list_filter_iff_in || idtac.
    assert (forall l : list ptr, f ∉ l -> filter (fun g => frecs t !! g ≫= f_rfd4 = Some i) l =
      filter (fun g => <[f := blank_frec now]> (frecs t) !! g ≫= f_rfd4 = Some i) l) as Hs2; [|by apply Hs2].
    intros l Hl. induction l as [|x l IH]; [done|]. rewrite !filter_cons, lookup_insert_ne, IH by set_solver. done.
  - intros g h rg rh Hg Hh Hne Hrg Hrh Hu1 Hu2. destruct (Hcase g rg Hg Hrg) as [[-> ->]|(? & ? & ?)]; [done|].
    destruct (Hcase h rh Hh Hrh) as [[-> ->]|(? & ? & ?)]; [done|]. by apply (I7 g h rg rh).
Qed.

(** The identifiers stay in a record that is freed. *)
Definition kept (r r' : frec) : Prop := f_orig_id r' = f_orig_id r /\ f_new_id r' = f_new_id r /\ (f_sentto r' = None \/ f_sentto r' = f_sentto r).

Lemma kept_refl r : kept r r.
Proof. unfold kept. auto. Qed.
Lemma kept_freed r : kept r (freed_frec r).
Proof. unfold kept. auto. Qed.
Lemma kept_time r r' v : kept r r' -> kept r (with_time v r').
Proof. done. Qed.

(** What [get_new_frec] does for a new query. *)
Record new_frec (ftabsize now : Z) (mem : option ptr) (t t' : ftab) (res : option ptr) : Prop := {
  nf_inv : tinv t' None;
  nf_res : forall f, res = Some f -> f ∈ frec_list t' /\ exists r, frecs t' !! f = Some r /\ f_sentto r = None /\ f_time r = now;
  nf_list : frec_list t' = frec_list t \/ exists f, mem = Some f /\ frec_list t' = f :: frec_list t;
  nf_bound : zlen (frec_list t') <= Z.max (zlen (frec_list t)) (ftabsize + 1);
  nf_young : forall g r, g ∈ frec_list t -> frecs t !! g = Some r -> is_Some (f_sentto r) -> now - f_time r < TIMEOUT -> frecs t' !! g = Some r;
  nf_old : forall g r', g ∈ frec_list t -> frecs t' !! g = Some r' -> is_Some (f_sentto r') -> frecs t !! g = Some r';
  nf_full : res = None -> (mem = None \/ ftabsize < zlen (frec_list t)) /\
    forall g r, g ∈ frec_list t -> frecs t !! g = Some r -> is_Some (f_sentto r) /\ now - f_time r < TIMEOUT;
  nf_new : forall g, g ∈ frec_list t' -> g ∉ frec_list t -> res = Some g;
  nf_keep : forall g r', g ∈ frec_list t' -> frecs t' !! g = Some r' -> r' = blank_frec now \/
    exists r, g ∈ frec_list t /\ frecs t !! g = Some r /\ kept r r' }.

Lemma with_time_ok t f r now : tinv t None -> f ∈ frec_list t -> frecs t !! f = Some r -> f_sentto r = None -> tinv (putf t f (with_time now r)) None.
Proof.
  intros I Hf Hr Hst. eapply (tinv_putf t None None f r (with_time now r)); try done.
  - intros _ _. by apply (ti_free _ _ I f r).
  - intros g rg _ _ _ Hu. unfold in_use in Hu. cbn in Hu. rewrite Hst in Hu. by apply bool_decide_eq_true in Hu as [? ?].
Qed.

Lemma allocate_new ftabsize now mem t : tinv t None -> (forall f, mem = Some f -> f ∉ frec_list t) -> zlen (frec_list t) <= ftabsize ->
  (mem = None -> forall g r, g ∈ frec_list t -> frecs t !! g = Some r -> is_Some (f_sentto r) /\ now - f_time r < TIMEOUT) ->
  exists res t', allocate_frec now mem t = (res, t') /\ res = mem /\ new_frec ftabsize now mem t t' res.
Proof.
  intros I Hmem Hlen Hall. unfold allocate_frec. destruct mem as [f|].
  - eexists _, _. split; [reflexivity|]. split; [done|]. specialize (Hmem f eq_refl). split; cbn [frec_list frecs].
    + by apply allocate_ok.
    + intros g [= <-]. split; [by left|]. exists (blank_frec now). rewrite lookup_insert_eq. done.
    + right. by exists f.
    + rewrite zlen_cons. lia.
    + intros g r Hg Hr _ _. rewrite lookup_insert_ne; [done|]. by intros ->.
    + intros g r' Hg. rewrite lookup_insert_ne; [done|]. by intros ->.
    + done.
    + by intros g [->|?]%elem_of_cons.
    + intros g r' Hg. destruct (decide (g = f)) as [->|Hne]; [rewrite lookup_insert_eq; intros [= <-]; by left|]. rewrite lookup_insert_ne by done.
      intros Hr'. right. exists r'. split_and!; [set_solver|done|apply kept_refl].
  - exists None, t. split; [done|]. split; [done|]. split; try done; [by left|lia| |eauto using kept_refl]. intros _. split; [by left|]. by apply Hall.
Qed.

Lemma get_new_frec_ok ftabsize now mem t : tinv t None -> (forall f, mem = Some f -> f ∉ frec_list t) ->
  exists res v t', get_new_frec ftabsize now false mem t = Ok (res, v, t') /\ new_frec ftabsize now mem t t' res.
Proof.
  intros I Hmem. unfold get_new_frec.
  destruct (scan_frecs_ok now (frec_list t) t None None I) as (oldest & target & t1 & -> & R & _); [done|done|done|]. cbn [mbind comp_bind].
  destruct R as [R1 [L1 R2] R3 R4 R5]. destruct target as [f|].
  - destruct (R4 f eq_refl) as (Hf & r & Hr & Hst). unfold getf. rewrite Hr. cbn [of_option mbind comp_bind mret comp_ret].
    eexists _, _, _. split; [reflexivity|]. split; cbn [putf frec_list frecs]; rewrite ?L1.
    + apply with_time_ok; [done|by rewrite L1|done|done].
    + intros g [= <-]. split; [done|]. exists (with_time now r). rewrite lookup_insert_eq. done.
    + by left.
    + lia.
    + intros g rg Hg Hrg [sv Hsv] Hage. assert (g <> f) as Hne.
      { intros ->. destruct (R2 f rg Hrg) as [Hx|[_ [Hx|Hx]]]; [congruence|congruence|unfold TIMEOUT in *; lia]. }
      rewrite lookup_insert_ne by done. destruct (R2 g rg Hrg) as [?|[_ [Hx|Hx]]]; [done|congruence|unfold TIMEOUT in *; lia].
    + intros g r' Hg. destruct (decide (g = f)) as [->|Hne]; [rewrite lookup_insert_eq; intros [= <-] [? Hx]; cbn in Hx; congruence|].
      rewrite lookup_insert_ne by done. intros Hr' [sv Hsv]. destruct (ti_known _ _ I g Hg) as [rg Hrg].
      destruct (R2 g rg Hrg) as [Hx|[Hx _]]; [congruence|]. assert (r' = freed_frec rg) as -> by congruence. done.
    + done.
    + done.
    + intros g r' Hg Hr'. destruct (ti_known _ _ I g Hg) as [rg Hrg]. right. exists rg. split_and!; [done|done|].
      assert (forall r0, frecs t1 !! g = Some r0 -> kept rg r0) as Hk.
      { intros r0 Hr0. destruct (R2 g rg Hrg) as [Hx|[Hx _]]; [assert (r0 = rg) as -> by congruence; apply kept_refl|assert (r0 = freed_frec rg) as -> by congruence; apply kept_freed]. }
      revert Hr'. destruct (decide (g = f)) as [->|Hne]; [rewrite lookup_insert_eq; intros [= <-]; by apply kept_time, Hk|]. rewrite lookup_insert_ne by done. apply Hk.
  - destruct (R5 eq_refl) as [-> Hall]. clear R1 R2 L1. destruct oldest as [o|].
    + pose proof (R3 o eq_refl) as Ho. destruct (ti_known _ _ I o Ho) as [ro Hro]. unfold getf. rewrite Hro. cbn [of_option mbind comp_bind mret comp_ret].
      assert (forall g r, g ∈ frec_list t -> frecs t !! g = Some r -> is_Some (f_sentto r) /\ f_time ro <= f_time r) as Hmin.
      { intros g r Hg Hr. destruct (Hall g r Hg Hr) as (? & o' & ro' & [= <-] & Hro' & ?). assert (ro' = ro) as -> by congruence. done. }
      set (age := now - f_time ro). destruct (TIMEOUT <=? age) eqn:E1; zbool.
      * destruct ((age <? 2 * TIMEOUT) && (zlen (frec_list t) <=? ftabsize) && bool_decide (is_Some mem)) eqn:E2.
        -- apply andb_true_iff in E2 as [[_ E2%Z.leb_le]%andb_true_iff [f ->]%bool_decide_eq_true].
           destruct (allocate_new ftabsize now (Some f) t I Hmem E2) as (res & t' & -> & -> & N); [done|]. by eexists _, _, _.
        -- destruct (free_frec_ok t None o ro I Ho Hro) as (t1 & -> & I1 & L1 & M1 & _). cbn [mbind comp_bind]. rewrite decide_False in I1 by done.
           assert (frecs t1 !! o = Some (freed_frec ro)) as Hro1 by (by rewrite M1, lookup_insert_eq). rewrite Hro1. cbn [of_option mbind comp_bind mret comp_ret].
           eexists _, _, _. split; [reflexivity|]. split; cbn [putf frec_list frecs]; rewrite ?L1.
           ++ apply with_time_ok; [done|by rewrite L1|done|done].
           ++ intros g [= <-]. split; [done|]. exists (with_time now (freed_frec ro)). by rewrite lookup_insert_eq.
           ++ by left.
           ++ lia.
           ++ intros g rg Hg Hrg _ Hage. assert (g <> o) by (intros ->; assert (rg = ro) as -> by congruence; lia).
              by rewrite lookup_insert_ne, M1, lookup_insert_ne by done.
           ++ intros g r' Hg. destruct (decide (g = o)) as [->|Hne]; [rewrite lookup_insert_eq; intros [= <-] [? ?]; done|].
              by rewrite lookup_insert_ne, M1, lookup_insert_ne by done.
           ++ done.
           ++ done.
           ++ intros g r' Hg. destruct (decide (g = o)) as [->|Hne]; [rewrite lookup_insert_eq; intros [= <-]; right; exists ro; split_and!; auto; apply kept_time, kept_freed|].
              rewrite lookup_insert_ne, M1, lookup_insert_ne by done. intros Hr'. right. exists r'. split_and!; auto; apply kept_refl.
      * assert (forall g r, g ∈ frec_list t -> frecs t !! g = Some r -> is_Some (f_sentto r) /\ now - f_time r < TIMEOUT) as Hyoung.
        { intros g r Hg Hr. destruct (Hmin g r Hg Hr). split; [done|]. lia. }
        destruct (ftabsize <? zlen (frec_list t)) eqn:E3; zbool.
        -- eexists _, _, _. split; [reflexivity|]. split; try done; [by left|lia| |eauto using kept_refl]. intros _. split; [by right|done].
        -- destruct (allocate_new ftabsize now mem t I Hmem E3) as (res & t' & -> & -> & N); [intros _; exact Hyoung|]. by eexists _, _, _.
    + cbn [mbind comp_bind mret comp_ret]. assert (frec_list t = []) as Hnil.
      { destruct (frec_list t) as [|g l] eqn:El; [done|]. destruct (ti_known _ _ I g) as [r Hr]; [rewrite El; by left|].
        destruct (Hall g r) as (_ & ? & ? & ? & _); [by left|done|done]. }
      destruct (ftabsize <? zlen (frec_list t)) eqn:E3; zbool.
      * eexists _, _, _. split; [reflexivity|]. split; try done; [by left|lia| |eauto using kept_refl]. intros _. split; [by right|]. rewrite Hnil. intros ? ? Hg. by apply elem_of_nil in Hg.
      * destruct (allocate_new ftabsize now mem t I Hmem E3) as (res & t' & -> & -> & N).
        { intros _. rewrite Hnil. intros ? ? Hg. by apply elem_of_nil in Hg. } by eexists _, _, _.
Qed.

(** ** Searching *)

Lemma find_frec_ok p l t : (forall f, f ∈ l -> is_Some (frecs t !! f)) ->
  exists res, find_frec p l t = Ok res /\
    match res with
    | Some f => f ∈ l /\ exists r, frecs t !! f = Some r /\ p r = true
    | None => forall f r, f ∈ l -> frecs t !! f = Some r -> p r = false
    end.
Proof.
  induction l as [|f l IH]; intros Hl; cbn [find_frec]; [exists None; split; [done|]; intros ? ? Hf; by apply elem_of_nil in Hf|].
  destruct (Hl f) as [r Hr]; [by left|]. unfold getf. rewrite Hr. cbn [of_option mbind comp_bind]. destruct (p r) eqn:Hp.
  - exists (Some f). split; [done|]. split; [by left|]. by exists r.
  - destruct IH as (res & -> & Hres); [intros g Hg; apply Hl; by right|]. exists res. split; [done|]. destruct res as [g|].
    + destruct Hres as [? ?]. split; [by right|done].
    + intros g rg [->|Hg]%elem_of_cons Hrg; [by assert (rg = r) as -> by congruence|by apply (Hres g)].
Qed.

(** Whom a reply with an identifier and a checksum is for. *)
Definition asked (id crc : Z) (r : frec) : Prop := is_Some (f_sentto r) /\ f_new_id r = id /\ (f_crc r = crc \/ crc = 0xffffffff).

Lemma lookup_frec_ok id crc t b : tinv t b -> exists res, lookup_frec id crc t = Ok res /\
  match res with
  | Some f => f ∈ frec_list t /\ exists r, frecs t !! f = Some r /\ asked id crc r
  | None => forall f r, f ∈ frec_list t -> frecs t !! f = Some r -> ~ asked id crc r
  end.
Proof.
  intros I. unfold lookup_frec. edestruct (find_frec_ok) as (res & -> & Hres); [apply I|]. exists res. split; [done|].
  destruct res as [f|].
  - destruct Hres as (Hf & r & Hr & [[Hu Hid]%andb_true_iff Hc]%andb_true_iff). split; [done|]. exists r. split; [done|].
    apply bool_decide_eq_true in Hu. apply Z.eqb_eq in Hid. split_and!; [done|done|]. apply orb_true_iff in Hc as [?%Z.eqb_eq|?%Z.eqb_eq]; auto.
  - intros f r Hf Hr (Hu & Hid & Hc). specialize (Hres f r Hf Hr). cbn in Hres. unfold in_use in Hres.
    rewrite bool_decide_eq_true_2, (proj2 (Z.eqb_eq _ _) Hid) in Hres by done. cbn [andb] in Hres. apply orb_false_iff in Hres as [H1%Z.eqb_neq H2%Z.eqb_neq]. tauto.
Qed.

(** A checksum that is known leaves one record. *)
Lemma lookup_frec_unique id crc t b f r : tinv t b -> f ∈ frec_list t -> frecs t !! f = Some r ->
  is_Some (f_sentto r) -> f_new_id r = id -> f_crc r = crc -> crc <> 0xffffffff -> lookup_frec id crc t = Ok (Some f).
Proof.
  intros I Hf Hr Hu Hid Hc Hcrc. destruct (lookup_frec_ok id crc t b I) as (res & -> & Hres). destruct res as [g|].
  - destruct Hres as (Hg & rg & Hrg & Hug & Hidg & [Hcg|?]); [|done]. destruct (decide (g = f)) as [->|Hne]; [done|].
    exfalso. apply (ti_ids _ _ I g f rg r Hg Hf Hne Hrg Hr); [by apply bool_decide_eq_true|by apply bool_decide_eq_true|congruence|congruence].
  - exfalso. apply (Hres f r Hf Hr). split_and!; auto.
Qed.

Lemma lookup_sender_ok id addr crc t b : tinv t b -> exists res, lookup_frec_by_sender id addr crc t = Ok res /\
  match res with
  | Some f => f ∈ frec_list t /\ exists r, frecs t !! f = Some r /\ is_Some (f_sentto r) /\ f_orig_id r = id /\ f_crc r = crc /\ sockaddr_isequal (f_source r) addr = true
  | None => forall f r, f ∈ frec_list t -> frecs t !! f = Some r -> is_Some (f_sentto r) -> f_orig_id r = id -> f_crc r = crc ->
      sockaddr_isequal (f_source r) addr = false
  end.
Proof.
  intros I. unfold lookup_frec_by_sender. edestruct (find_frec_ok) as (res & -> & Hres); [apply I|]. exists res. split; [done|].
  destruct res as [f|].
  - destruct Hres as (Hf & r & Hr & [[[Hu Hid]%andb_true_iff Hc]%andb_true_iff Hs]%andb_true_iff). split; [done|]. exists r.
    apply bool_decide_eq_true in Hu. apply Z.eqb_eq in Hid, Hc. by split_and!.
  - intros f r Hf Hr Hu Hid Hc. specialize (Hres f r Hf Hr). cbn in Hres. unfold in_use in Hres.
    rewrite bool_decide_eq_true_2, (proj2 (Z.eqb_eq _ _) Hid), (proj2 (Z.eqb_eq _ _) Hc) in Hres by done. exact Hres.
Qed.

(** ** Identifiers *)

(** The next numbers of the generator. *)
Fixpoint draws (n : nat) (rng : surf_t) : comp (list Z) :=
  match n with O => Ok [] | S n' => '(v, rng) ← rand16 rng; vs ← draws n' rng; mret (v :: vs) end.

(** One of the next numbers is not in use. *)
Definition lucky (n : nat) (crc : Z) (t : ftab) (rng : surf_t) : Prop :=
  exists vs, draws n rng = Ok vs /\ exists v, v ∈ vs /\ forall f r, f ∈ frec_list t -> frecs t !! f = Some r -> ~ asked v crc r.

Lemma get_id_ok n crc t b : tinv t b -> forall rng, surf_ok rng -> lucky n crc t rng ->
  exists id rng', get_id n crc t rng = Ok (id, rng') /\ is_u16 id /\ surf_ok rng' /\
    forall f r, f ∈ frec_list t -> frecs t !! f = Some r -> ~ asked id crc r.
Proof.
  intros I. induction n as [|n IH]; intros rng Hrng (vs & Hvs & v & Hv & Hfree); cbn [draws get_id] in *.
  { injection Hvs as <-. by apply elem_of_nil in Hv. }
  destruct (rand16_ok rng Hrng) as (w & rng1 & Hw & Hw16 & Hrng1 & _). rewrite Hw in Hvs |- *. cbn [mbind comp_bind] in Hvs |- *.
  destruct (lookup_frec_ok w crc t b I) as (res & -> & Hres). cbn [mbind comp_bind]. destruct res as [f|]; [|by exists w, rng1].
  destruct (draws n rng1) as [vs'|] eqn:Hd; cbn in Hvs; [|done]. injection Hvs as <-. apply IH; [done|]. exists vs'. split; [done|]. exists v. split; [|done].
  apply elem_of_cons in Hv as [->|?]; [|done]. destruct Hres as (Hf & r & Hr & Ha). by destruct (Hfree f r Hf Hr).
Qed.

(** ** Sockets *)

Lemma free_slot_ok l : forall i, match free_slot i l with
  | Some j => exists s, (i <= j)%nat /\ l !! (j - i)%nat = Some s /\ r_refcount s = 0
  | None => Forall (fun s => r_refcount s <> 0) l end.
Proof.
  induction l as [|s l IH]; intros i; cbn [free_slot]; [done|]. destruct (r_refcount s =? 0) eqn:E; zbool.
  - exists s. split_and!; [lia|by rewrite Nat.sub_diag|done].
  - specialize (IH (S i)). destruct (free_slot (S i) l) as [j|]; [|by constructor]. destruct IH as (s' & Hj & Hs' & Hc). exists s'. split_and!; [lia| |done].
    by replace (j - i)%nat with (S (j - S i)) by lia.
Qed.

Lemma shared_slot_ok family t b n : tinv t b -> forall i, exists res, shared_slot n i family t = Ok res /\
  forall j, res = Some j -> (j < RANDOM_SOCKS)%nat /\ exists s, randomsocks t !! j = Some s /\ r_refcount s <> 0xffff /\ r_refcount s <> 0 /\ r_family s = family.
Proof.
  intros I. induction n as [|n IH]; intros i; cbn [shared_slot]; [by exists None|]. set (j := ((i + finger t) `mod` RANDOM_SOCKS)%nat).
  assert (j < RANDOM_SOCKS)%nat as Hj by (apply Nat.mod_upper_bound; done).
  destruct (lookup_lt_is_Some_2 (randomsocks t) j) as [s Hs]; [by rewrite (ti_socks _ _ I)|]. rewrite Hs. cbn [of_option mbind comp_bind].
  destruct (negb (r_refcount s =? 0) && (r_family s =? family) && negb (r_refcount s =? 0xffff)) eqn:E; [|apply IH].
  apply andb_true_iff in E as [[E1 E2]%andb_true_iff E3]. zbool. exists (Some j). split; [done|]. intros k [= <-]. split; [done|]. by exists s.
Qed.

(** One more record refers to a socket. *)
Lemma take_sock_ok t f r b t' i s s' : tinv t (Some f) -> f ∈ frec_list t -> frecs t !! f = Some r -> f_rfd4 r = None ->
  b = Some f \/ is_Some (f_sentto r) -> frec_list t' = frec_list t -> frecs t' = frecs t -> randomsocks t' = <[i := s']> (randomsocks t) ->
  randomsocks t !! i = Some s -> r_refcount s' = r_refcount s + 1 -> r_refcount s' <= 0xffff -> tinv (putf t' f (with_rfd4 (Some i) r)) b.
Proof.
  intros I Hf Hr Hnone Hb L1 M1 S1 Hs Hc Hle. pose proof (lookup_lt_Some _ _ _ Hs) as Hi. rewrite (ti_socks _ _ I) in Hi.
  eapply (tinv_update t (Some f) _ b f r (with_rfd4 (Some i) r)); try done.
  - cbn. by rewrite M1.
  - cbn. rewrite S1, length_insert. apply I.
  - cbn. rewrite S1, Hnone. intros j sj Hj. destruct (decide (j = i)) as [->|Hne].
    + rewrite list_lookup_insert_eq in Hj by (by rewrite (ti_socks _ _ I)). injection Hj as <-. destruct (ti_count _ _ I i s Hs) as [Hu _].
      rewrite bool_decide_eq_true_2, bool_decide_eq_false_2 by done. lia.
    + rewrite list_lookup_insert_ne in Hj by done. destruct (ti_count _ _ I j sj Hj) as [-> ?]. rewrite !bool_decide_eq_false_2 by congruence. lia.
  - cbn. intros Hst Hbf. destruct Hb as [->|[sv Hsv]]; [done|congruence].
  - cbn. by intros j [= <-].
  - intros g Hg _. congruence.
  - cbn. intros g rg Hg Hgf Hrg Hu1 Hu2 Hid. by apply (ti_ids _ _ I f g r rg Hf Hg).
Qed.

Lemma lost_sock_ok t b i s : tinv t b -> randomsocks t !! i = Some s -> tinv (put_sock t i (Randfd (-1) (r_refcount s) (r_family s))) b.
Proof.
  intros [I1 I2 I3 I4 I5 I6 I7] Hs. split; try done; cbn [put_sock randomsocks]; [by rewrite length_insert|].
  intros j sj Hj. destruct (decide (j = i)) as [->|Hne]; [|rewrite list_lookup_insert_ne in Hj by done; by apply I6].
  rewrite list_lookup_insert_eq in Hj by (by eapply lookup_lt_Some). injection Hj as <-. by apply (I6 i s).
Qed.

(** A socket for the record of a new query, which has none yet. *)
Lemma allocate_rfd_ok family sock t f r b : tinv t (Some f) -> f ∈ frec_list t -> frecs t !! f = Some r -> f_rfd4 r = None ->
  b = Some f \/ is_Some (f_sentto r) ->
  exists res t', allocate_rfd family sock t = Ok (res, t') /\ frec_list t' = frec_list t /\ frecs t' = frecs t /\
    match res with None => tinv t' (Some f) | Some i => tinv (putf t' f (with_rfd4 (Some i) r)) b end.
Proof.
  intros I Hf Hr Hnone Hb.
  assert (forall t0, tinv t0 (Some f) -> frec_list t0 = frec_list t -> frecs t0 = frecs t ->
    exists res t', (j ← shared_slot RANDOM_SOCKS 0 family t0;
      match j with
      | None => mret (None, t0)
      | Some j => s ← of_option ReadOOB (randomsocks t0 !! j);
                  mret (Some j, put_sock (with_finger j t0) j (Randfd (r_fd s) (r_refcount s + 1) (r_family s)))
      end) = Ok (res, t') /\ frec_list t' = frec_list t /\ frecs t' = frecs t /\
      match res with None => tinv t' (Some f) | Some i => tinv (putf t' f (with_rfd4 (Some i) r)) b end) as Hshare.
  { intros t0 I0 L0 M0. destruct (shared_slot_ok family t0 (Some f) RANDOM_SOCKS I0 0) as (res & -> & Hres). cbn [mbind comp_bind].
    destruct res as [j|]; [|by exists None, t0].
    destruct (Hres j eq_refl) as (Hj & sj & Hsj & Hne & _). rewrite Hsj. cbn [of_option mbind comp_bind mret comp_ret]. eexists (Some j), _. split; [reflexivity|].
    split_and!; [done|done|]. destruct (ti_count _ _ I0 j sj Hsj) as [_ Hle].
    eapply (take_sock_ok t0 f r b _ j sj); try done; [by rewrite L0|by rewrite M0|cbn; lia]. }
  unfold allocate_rfd. cbv zeta. pose proof (free_slot_ok (randomsocks t) 0) as Hslot. destruct (free_slot 0 (randomsocks t)) as [i|]; [|by apply Hshare].
  destruct Hslot as (s & _ & Hs & Hc). rewrite Nat.sub_0_r in Hs. rewrite Hs. cbn [of_option mbind comp_bind]. destruct sock as [fd|].
  - eexists (Some i), _. split; [reflexivity|]. split_and!; [done|done|]. eapply (take_sock_ok t f r b _ i s); try done; cbn; lia.
  - apply Hshare; [by apply lost_sock_ok|done|done].
Qed.

(** ** A server that goes away *)

Lemma free_gone_ok s l : forall t, tinv t None -> (forall f, f ∈ l -> f ∈ frec_list t) ->
  exists t', free_gone s l t = Ok t' /\ tinv t' None /\ frec_list t' = frec_list t /\
    (forall f r, frecs t !! f = Some r -> frecs t' !! f = Some (if bool_decide (f ∈ l /\ f_sentto r = Some s) then freed_frec r else r)).
Proof.
  induction l as [|f l IH]; intros t I Hl; cbn [free_gone].
  { exists t. split_and!; [done|done|done|]. intros f r Hr. rewrite bool_decide_eq_false_2; [done|]. intros [Hf _]. by apply elem_of_nil in Hf. }
  assert (f ∈ frec_list t) as Hf by (apply Hl; by left). destruct (ti_known _ _ I f Hf) as [r Hr]. unfold getf. rewrite Hr. cbn [of_option mbind comp_bind].
  assert (exists t1, (if bool_decide (f_sentto r = Some s) then free_frec t f else mret t) = Ok t1 /\ tinv t1 None /\ frec_list t1 = frec_list t /\
    frecs t1 = <[f := if bool_decide (f_sentto r = Some s) then freed_frec r else r]> (frecs t)) as (t1 & -> & I1 & L1 & M1).
  { case_bool_decide.
    - destruct (free_frec_ok t None f r I Hf Hr) as (t1 & -> & I1 & L1 & M1 & _). by exists t1.
    - exists t. split_and!; [done|done|done|]. by rewrite insert_id. }
  cbn [mbind comp_bind]. destruct (IH t1 I1) as (t' & -> & I' & L' & M'); [intros g Hg; rewrite L1; apply Hl; by right|].
  exists t'. split_and!; [done|done|congruence|]. intros g rg Hrg. destruct (decide (g = f)) as [->|Hne].
  - assert (rg = r) as -> by congruence. rewrite (M' f (if bool_decide (f_sentto r = Some s) then freed_frec r else r)) by (by rewrite M1, lookup_insert_eq).
    f_equal. destruct (decide (f_sentto r = Some s)) as [Hs|Hs].
    + rewrite (bool_decide_eq_true_2 (f_sentto r = Some s)) by done. rewrite (bool_decide_eq_true_2 (f ∈ f :: l /\ _)); [|split; [by left|done]]. rewrite bool_decide_eq_false_2 by (by intros [_ ?]). reflexivity.
    + rewrite (bool_decide_eq_false_2 (f_sentto r = Some s)) by done. rewrite !bool_decide_eq_false_2; [done|intros [_ ?]; done|intros [_ ?]; done].
  - rewrite (M' g rg) by (by rewrite M1, lookup_insert_ne). f_equal.
    rewrite (bool_decide_ext (g ∈ f :: l /\ f_sentto rg = Some s) (g ∈ l /\ f_sentto rg = Some s)); [done|]. rewrite elem_of_cons. tauto.
Qed.

(** * What a new query gets *)

(** C21: a record for a new query. A record is found unless all queries wait
    and none is older than 15 seconds, and the table has more than [ftabsize]
    records or there is no memory; no query that is younger is dropped, none
    that waits afterwards has been changed, and the record is free and has the
    present time. The table stays as long as it is, or grows by one record,
    which is the result, when it has [ftabsize] records at most: it can come
    to have [ftabsize + 1] of them, one more than the number of concurrent
    queries that the manual promises. *)
Theorem new_query_gets_record ftabsize now mem t : tinv t None -> (forall f, mem = Some f -> f ∉ frec_list t) ->
  exists res v t', get_new_frec ftabsize now false mem t = Ok (res, v, t') /\ tinv t' None /\
    match res with
    | Some f => f ∈ frec_list t' /\ exists r, frecs t' !! f = Some r /\ f_sentto r = None /\ f_rfd4 r = None /\ f_time r = now
    | None => (mem = None \/ ftabsize < zlen (frec_list t)) /\
        forall g r, g ∈ frec_list t -> frecs t !! g = Some r -> is_Some (f_sentto r) /\ now - f_time r < TIMEOUT
    end /\
    (forall g r, g ∈ frec_list t -> frecs t !! g = Some r -> is_Some (f_sentto r) -> now - f_time r < TIMEOUT -> frecs t' !! g = Some r) /\
    (forall g r, g ∈ frec_list t -> frecs t' !! g = Some r -> is_Some (f_sentto r) -> frecs t !! g = Some r) /\
    (frec_list t' = frec_list t \/
     exists f, mem = Some f /\ res = Some f /\ frec_list t' = f :: frec_list t /\ zlen (frec_list t) <= ftabsize).
Proof.
  intros I Hmem. destruct (get_new_frec_ok ftabsize now mem t I Hmem) as (res & v & t' & Hg & N). exists res, v, t'. split_and!; try done; try apply N.
  2: { destruct (nf_list _ _ _ _ _ _ N) as [?|(f & Hm & Hl)]; [by left|right]. exists f. split_and!; [done| |done|].
    - apply (nf_new _ _ _ _ _ _ N); [rewrite Hl; by left|by apply Hmem].
    - pose proof (nf_bound _ _ _ _ _ _ N) as Hb. rewrite Hl, zlen_cons in Hb. lia. }
  destruct res as [f|]; [|by apply (nf_full _ _ _ _ _ _ N)]. destruct (nf_res _ _ _ _ _ _ N f eq_refl) as (Hf & r & Hr & Hs & Ht). split; [done|]. exists r. split_and!; try done.
  by apply (ti_free _ _ (nf_inv _ _ _ _ _ _ N) f r).
Qed.

(** A table with one query that has been waiting for twenty seconds. *)
Definition demo_tab : ftab :=
  Ftab {[4%positive := Frec (SA AF_INET 1024 (10, 0, 0, 2)) (10, 0, 0, 1) (Some 9%positive) None 3 7 0x1234 5 0 0 77 80]} [4%positive] (replicate RANDOM_SOCKS (Randfd 0 0 0)) 0 [].

Lemma demo_tinv : tinv demo_tab None.
Proof.
  split; cbn [demo_tab frec_list frecs randomsocks].
  - apply NoDup_singleton.
  - intros f ->%list_elem_of_singleton. by eexists.
  - done.
  - by intros f r ->%list_elem_of_singleton [= <-].
  - by intros f r i ->%list_elem_of_singleton [= <-].
  - intros i s [-> _]%lookup_replicate. done.
  - by intros f g rf rg ->%list_elem_of_singleton ->%list_elem_of_singleton.
Qed.

(** The table is full: the old query gives way. *)
Lemma new_query_gets_record_witness : exists res v t', get_new_frec 0 100 false (Some 5%positive) demo_tab = Ok (res, v, t') /\ frec_list t' = [4%positive].
Proof.
  destruct (new_query_gets_record 0 100 (Some 5%positive) demo_tab demo_tinv) as (res & v & t' & H & _ & _ & _ & _ & Hl).
  - by intros f [= <-] Hf%list_elem_of_singleton.
  - exists res, v, t'. split; [exact H|]. destruct Hl as [Hl|(f & _ & _ & _ & Hl)]; [exact Hl|by destruct Hl].
Defined.

(** [ftabsize] is zero, and yet there is room for a query. *)
Example one_more_than_the_limit :
  ('(f, _, t) ← get_new_frec 0 100 false (Some 5%positive) (Ftab ∅ [] (replicate RANDOM_SOCKS (Randfd 0 0 0)) 0 []); Ok (f, frec_list t)) =
  Ok (Some 5%positive, [5%positive]).
Proof. vm_compute. reflexivity. Qed.

(** There is room for a second one, which is taken only before half a minute
    has passed. *)
Example old_query_kept_or_dropped :
  ('(a, _, t) ← get_new_frec 150 100 false (Some 5%positive) demo_tab; '(b, _, t') ← get_new_frec 150 110 false (Some 5%positive) demo_tab;
   Ok (a, frec_list t, b, frec_list t')) = Ok (Some 5%positive, [5%positive; 4%positive], Some 4%positive, [4%positive]).
Proof. vm_compute. reflexivity. Qed.
