(* ===== verification/DmForward.v ===== *)
(** dnsmasq's forward.c, third part: a query is forwarded ([forward_query]),
    a reply is looked at, changed and sent on ([reply_query], [process_reply]),
    a server goes away ([server_gone]). The sockets, the memory and the success
    of sending are arguments. *)
From S2P Require Import Prelude CString Dns Common DmUtil DmName DmPacket DmLru DmCache DmCacheInv DmCacheOps DmAnswer DmTable DmMac DmServers.
Set Warnings "-clear-no-such-hyp,-notation-for-abbreviation".

Definition HB4_AD : Z := 0x20.
Definition FORWARD_TEST : Z := 50.
Definition FORWARD_TIME : Z := 20.
Definition FREC_NOREBIND : Z := 1.
Definition FREC_CHECKING_DISABLED : Z := 2.

(** * The state *)

(** What has been sent, and where to. For a packet to a client, what is handed
    to [sendmsg]: [source] is the source address that is asked for in the
    control message, [None] when there is none and the kernel chooses it. *)
Inductive sent :=
| ToServer (server : ptr) (fd : Z) (packet : list Z)
| ToClient (fd : Z) (packet : list Z) (to : mysockaddr) (source : option in_addr).

(** The parts of [daemon] that forwarding changes. *)
Record fstate := Fstate {
  tab : ftab; servers : gmap ptr server; serv_list : list ptr; last_server : option ptr; forwardcount : Z; forwardtime : Z;
  fcache : cache; namebuff : list Z; rng : surf_t;
  srv_save : option ptr; packet_len : Z; rfd_save : option nat; outbox : list sent }.

Definition with_tab (v : ftab) (s : fstate) : fstate :=
  Fstate v (servers s) (serv_list s) (last_server s) (forwardcount s) (forwardtime s) (fcache s) (namebuff s) (rng s) (srv_save s) (packet_len s) (rfd_save s) (outbox s).
Definition with_server (p : ptr) (v : server) (s : fstate) : fstate :=
  Fstate (tab s) (<[p := v]> (servers s)) (serv_list s) (last_server s) (forwardcount s) (forwardtime s) (fcache s) (namebuff s) (rng s) (srv_save s) (packet_len s) (rfd_save s) (outbox s).
Definition with_last (v : option ptr) (s : fstate) : fstate :=
  Fstate (tab s) (servers s) (serv_list s) v (forwardcount s) (forwardtime s) (fcache s) (namebuff s) (rng s) (srv_save s) (packet_len s) (rfd_save s) (outbox s).
Definition with_count (n t : Z) (s : fstate) : fstate :=
  Fstate (tab s) (servers s) (serv_list s) (last_server s) n t (fcache s) (namebuff s) (rng s) (srv_save s) (packet_len s) (rfd_save s) (outbox s).
Definition with_cache (v : cache) (s : fstate) : fstate :=
  Fstate (tab s) (servers s) (serv_list s) (last_server s) (forwardcount s) (forwardtime s) v (namebuff s) (rng s) (srv_save s) (packet_len s) (rfd_save s) (outbox s).
Definition with_name (v : list Z) (s : fstate) : fstate :=
  Fstate (tab s) (servers s) (serv_list s) (last_server s) (forwardcount s) (forwardtime s) (fcache s) v (rng s) (srv_save s) (packet_len s) (rfd_save s) (outbox s).
Definition with_rng (v : surf_t) (s : fstate) : fstate :=
  Fstate (tab s) (servers s) (serv_list s) (last_server s) (forwardcount s) (forwardtime s) (fcache s) (namebuff s) v (srv_save s) (packet_len s) (rfd_save s) (outbox s).
Definition with_srv_save (v : option ptr) (len : Z) (s : fstate) : fstate :=
  Fstate (tab s) (servers s) (serv_list s) (last_server s) (forwardcount s) (forwardtime s) (fcache s) (namebuff s) (rng s) v len (rfd_save s) (outbox s).
Definition with_rfd_save (v : option nat) (s : fstate) : fstate :=
  Fstate (tab s) (servers s) (serv_list s) (last_server s) (forwardcount s) (forwardtime s) (fcache s) (namebuff s) (rng s) (srv_save s) (packet_len s) v (outbox s).
Definition send (m : sent) (s : fstate) : fstate :=
  Fstate (tab s) (servers s) (serv_list s) (last_server s) (forwardcount s) (forwardtime s) (fcache s) (namebuff s) (rng s) (srv_save s) (packet_len s) (rfd_save s) (outbox s ++ [m]).

Definition getserv (s : fstate) (p : ptr) : comp server := of_option NullDeref (servers s !! p).

(** [start->next], and back to the start of the list behind its end. *)
Fixpoint next_in (l : list ptr) (p : ptr) : option ptr :=
  match l with [] => None | x :: l' => if decide (x = p) then head l' else next_in l' p end.
Definition next_server (l : list ptr) (p : ptr) : option ptr :=
  match next_in l p with Some q => Some q | None => head l end.

Definition set_failed (v : Z) (sv : server) : server := Server (s_addr sv) (s_sfd sv) (s_domain sv) (s_flags sv) (s_queries sv) v.
Definition set_queries (v : Z) (sv : server) : server := Server (s_addr sv) (s_sfd sv) (s_domain sv) (s_flags sv) v (s_failed sv).
Definition set_sflags (v : Z) (sv : server) : server := Server (s_addr sv) (s_sfd sv) (s_domain sv) v (s_queries sv) (s_failed sv).

(** The configuration, as far as it matters here. [main] sets [o_cleverbind]
    when [o_nowild] is not set. *)
Record fconfig := Fconfig {
  o_nowild : bool; o_cleverbind : bool; o_order : bool; o_all_servers : bool; o_nodots_local : bool; o_no_rebind : bool; o_local_rebind : bool; o_dnssec : bool; o_log : bool; o_no_neg : bool;
  o_add_mac : option (list arp);       (* the kernel's table, when the option is set *)
  ftabsize : Z; local_ttl : Z; edns_pktsz : Z; max_cache_ttl : Z; max_ttl : Z; neg_ttl : Z;
  doctors : list doctor; bogus_addr : list in_addr; cfg_locals : locals }.

(** How a system call ends. [retry_send] says whether to try again. *)
Inductive outcome := Sent | Retry | Failed.

(** What the system calls of one event return: the memory for a record, a
    socket with a random port, and the sending of packets, which succeeds when
    nothing else is said. *)
Record env := Env { e_mem : option ptr; e_sock : option Z; e_sends : list outcome }.

(** [send_from] with the length that [setup_reply] returns; without one the
    system call fails. The packet is for an IPv4 address: the interface is not
    used ([ipi_ifindex] is 0). Both callers ignore whether [sendmsg]
    succeeds. *)
Definition send_from (fd : Z) (nowild : bool) (buf : list Z) (len : option Z) (to : mysockaddr) (source : in_addr) (iface : Z) (s : fstate) : fstate :=
  match len with
  | Some n => send (ToClient fd (take (Z.to_nat n) buf) to (if nowild then None else Some source)) s
  | None => s
  end.

Section forward.
Context (mix_tab : Z -> Z) (clobbered : Z -> list Z -> list Z) (can_malloc : cache -> bool) (id_fuel : nat) (cfg : fconfig).

(** * Forwarding *)

(** The socket a packet is sent from; [None] when there is none. *)
Definition server_fd (e : env) (f : ptr) (sv : server) (s : fstate) : comp (option Z * fstate) :=
  match s_sfd sv with
  | Some fd => Ok (Some fd, s)
  | None =>
      r ← getf (tab s) f;
      '(slot, t) ←
        match f_rfd4 r with
        | Some i => Ok (Some i, tab s)
        | None =>
            '(j, t) ← allocate_rfd AF_INET (e_sock e) (tab s);
            match j with
            | None => Ok (None, t)
            | Some i => Ok (Some i, putf t f (with_rfd4 (Some i) r))
            end
        end;
      match slot with
      | None => Ok (None, with_tab t s)
      | Some i => sk ← of_option ReadOOB (randomsocks t !! i); mret (Some (r_fd sk), with_rfd_save (Some i) (with_tab t s))
      end
  end.

(** Whether a server deals with the domain. *)
Definition deals_with (type : Z) (domain : option (list Z)) (sv : server) : comp bool :=
  if type =? Z.land (s_flags sv) SERV_TYPE then
    same ← (if type =? SERV_HAS_DOMAIN then d ← of_option NullDeref domain; d' ← of_option NullDeref (s_domain sv); mret (hostname_isequal d d') else mret true);
    mret ((same : bool) && negb (has (s_flags sv) SERV_LITERAL_ADDRESS))
  else mret false.

(** A packet has been sent: the books are kept. *)
Definition note_sent (f start : ptr) (fd : Z) (buf : list Z) (plen gotname : Z) (s : fstate) : comp (Z * fstate) :=
  let s := send (ToServer start fd (take (Z.to_nat plen) buf)) (with_srv_save (Some start) plen s) in
  let s := if gotname =? 0 then with_name (blit (namebuff s) 0 (lit "query" ++ [0])) s else s in
  sv ← getserv s start; let s := with_server start (set_queries (u32 (s_queries sv + 1)) sv) s in
  r ← getf (tab s) f;
  mret (f_forwardall r, with_tab (putf (tab s) f (with_sentto (Some start) r)) s).

Fixpoint send_loop (fuel : nat) (e : env) (f : ptr) (buf : list Z) (plen gotname type : Z) (domain : option (list Z)) (first start : ptr)
    (forwarded : bool) (sends : list outcome) (s : fstate) : comp (bool * fstate) :=
  match fuel with
  | O => Fault NoFuel
  | S fuel' =>
      let go_on (forwarded : bool) (sends : list outcome) (s : fstate) :=
        next ← of_option NullDeref (next_server (serv_list s) start);
        if decide (next = first) then Ok (forwarded, s)
        else send_loop fuel' e f buf plen gotname type domain first next forwarded sends s in
      sv ← getserv s start;
      ours ← deals_with type domain sv;
      if negb ours then go_on forwarded sends s
      else
        '(fd, s) ← server_fd e f sv s;
        match fd with
        | None => Ok (forwarded, s)
        | Some fd =>
            match default Sent (head sends) with
            | Retry => send_loop fuel' e f buf plen gotname type domain first start forwarded (tail sends) s
            | Failed => go_on forwarded (tail sends) s
            | Sent =>
                '(all, s) ← note_sent f start fd buf plen gotname s;
                if all =? 0 then Ok (true, s)
                else
                  r ← getf (tab s) f;
                  go_on true (tail sends) (with_tab (putf (tab s) f (with_forwardall (s32 (f_forwardall r + 1)) r)) s)
            end
        end
  end.

(** What is decided before anything is sent. *)
Record plan := Plan { p_forward : option ptr; p_flags : Z; p_addr : option in_addr; p_type : Z; p_domain : option (list Z); p_start : option ptr }.
Definition no_plan (flags : Z) (addr : option in_addr) : plan := Plan None flags addr 0 None None.

(** A query that has been forwarded before goes to the next server, and to all
    the others. *)
Definition plan_retry (f first : ptr) (buf : list Z) (s : fstate) : comp (plan * list Z * fstate) :=
  r ← getf (tab s) f; sp ← of_option NullDeref (f_sentto r); sv ← getserv s sp;
  let s := with_server sp (set_failed (u32 (s_failed sv + 1)) sv) s in
  let s := if negb (o_order cfg) then with_last None (with_tab (putf (tab s) f (with_forwardall 1 r)) s) else s in
  buf ← wrs buf 0 (put16 (f_new_id r));
  start ← of_option NullDeref (next_server (serv_list s) sp);
  mret (Plan (Some f) 0 None (Z.land (s_flags sv) SERV_TYPE) (s_domain sv) (Some start), buf, s).

(** The servers a new query starts with. *)
Definition first_server (type now : Z) (first : ptr) (s : fstate) : ptr * bool * fstate :=
  if type =? 0 then
    if o_order cfg then (first, false, s)
    else
      match last_server s with
      | None => (first, true, with_count 0 now s)
      | Some p =>
          if (FORWARD_TEST <? forwardcount s) || (FORWARD_TIME <? now - forwardtime s) then (first, true, with_count 0 now s)
          else (p, false, with_count (forwardcount s + 1) (forwardtime s) s)
      end
  else (first, negb (o_order cfg), s).

(** The record of a new query. *)
Definition fill_frec (r : frec) (udpaddr : mysockaddr) (dst_addr : in_addr) (dst_iface id new_id udpfd crc : Z) (norebind cd : bool) : frec :=
  let flags := if norebind then Z.lor (f_flags r) FREC_NOREBIND else f_flags r in
  let flags := if cd then Z.lor flags FREC_CHECKING_DISABLED else flags in
  Frec udpaddr dst_addr (f_sentto r) (f_rfd4 r) dst_iface id new_id udpfd 0 flags crc (f_time r).

Definition plan_new (e : env) (udpfd : Z) (udpaddr : mysockaddr) (dst_addr : in_addr) (dst_iface now crc gotname id : Z) (first : ptr)
    (buf : list Z) (s : fstate) : comp (plan * list Z * fstate) :=
  '(ch, s) ←
    (if negb (gotname =? 0) then
       svs ← mapM (getserv s) (serv_list s);
       '(ch, c) ← search_servers mix_tab (o_nodots_local cfg) (cfg_locals cfg) now gotname (cstr (namebuff s)) svs (fcache s);
       mret (ch, with_cache c s)
     else mret (Choice 0 None 0 None false 0, s));
  if negb (c_flags ch =? 0) then mret (no_plan (c_flags ch) (c_addr ch), buf, s)
  else
    '(fwd, _, t) ← get_new_frec (ftabsize cfg) now false (e_mem e) (tab s);
    let s := with_tab t s in
    match fwd with
    | None => mret (no_plan F_NEG (c_addr ch), buf, s)
    | Some f =>
        r ← getf t f;
        '(new_id, rng) ← get_id id_fuel crc t (rng s);
        h4 ← hb4 buf;
        let r := fill_frec r udpaddr dst_addr dst_iface id new_id udpfd crc (c_norebind ch) (has h4 HB4_CD) in
        buf ← wrs buf 0 (put16 new_id);
        let '(start, all, s) := first_server (c_type ch) now first (with_rng rng s) in
        let r := if (all : bool) then with_forwardall 1 r else r in
        mret (Plan (Some f) 0 (c_addr ch) (c_type ch) (c_domain ch) (Some start), buf, with_tab (putf t f r) s)
    end.

(** [udpaddr] and [dst_addr] are null and [udpfd] is -1 when a reply makes a
    query go to the next server, [forward] is its record then. *)
Definition choose_plan (e : env) (udpfd : Z) (udpaddr : option mysockaddr) (dst_addr : option in_addr) (dst_iface now crc gotname id : Z)
    (forward : option ptr) (buf : list Z) (s : fstate) : comp (plan * list Z * fstate) :=
  match head (serv_list s) with
  | None => mret (no_plan 0 None, buf, s)
  | Some first =>
      known ← match forward with
              | Some f => mret (Some f)
              | None => a ← of_option NullDeref udpaddr; lookup_frec_by_sender id a crc (tab s)
              end;
      match known with
      | Some f => plan_retry f first buf s
      | None => a ← of_option NullDeref udpaddr; d ← of_option NullDeref dst_addr;
                plan_new e udpfd a d dst_iface now crc gotname id first buf s
      end
  end.

(** The packet is sent to the servers of the plan; whether it went to one, its
    length and the packet. Otherwise the record is given back. *)
Definition carry_out (e : env) (f : ptr) (p : plan) (udpaddr : option mysockaddr) (buf : list Z) (plen gotname : Z) (s : fstate) : comp (bool * Z * list Z * fstate) :=
  '(plen, buf) ←
    match udpaddr, o_add_mac cfg with
    | Some a, Some arps => add_mac arps buf plen PACKETSZ a
    | _, _ => mret (plen, buf)
    end;
  start ← of_option NullDeref (p_start p);
  '(forwarded, s) ← send_loop (S (length (serv_list s) + length (e_sends e))) e f buf plen gotname (p_type p) (p_domain p) start start
                      false (e_sends e) s;
  if (forwarded : bool) then mret (true, plen, buf, s)
  else
    r ← getf (tab s) f;
    buf ← wrs buf 0 (put16 (f_orig_id r));
    t ← free_frec (tab s) f;
    mret (false, plen, buf, with_tab t s).

(** What is returned, and the packet. *)
Definition forward_query (e : env) (udpfd : Z) (udpaddr : option mysockaddr) (dst_addr : option in_addr) (dst_iface : Z)
    (buf : list Z) (plen now : Z) (forward : option ptr) (s : fstate) : comp (Z * list Z * fstate) :=
  '(crc, name) ← questions_crc buf plen (namebuff s);
  '(gotname, _, name) ← extract_request buf plen name;
  let s := with_name name s in
  h4 ← hb4 buf; buf ← wr buf 3 (Z.land h4 (255 - HB4_AD));
  id ← rd16 buf 0;
  '(p, buf, s) ← choose_plan e udpfd udpaddr dst_addr dst_iface now crc gotname id forward buf s;
  '(done, plen, buf, s) ←
    match p_forward p with
    | None => mret (false, plen, buf, s)
    | Some f => carry_out e f p udpaddr buf plen gotname s
    end;
  if (done : bool) then mret (1, buf, s)
  else if udpfd =? -1 then mret (0, buf, s)
  else
    '(len, buf) ← setup_reply buf plen (match p_addr p with Some a => addr_bytes a | None => [] end) (p_flags p) (local_ttl cfg);
    a ← of_option NullDeref udpaddr; d ← of_option NullDeref dst_addr;
    mret (0, buf, send_from udpfd (o_nowild cfg || o_cleverbind cfg) buf len a d dst_iface s).

(** * Replies *)

(** Where [pheader] points to, and [plen], which is not read without it. *)
Definition ph_start (ph : option pseudo) : option Z := match ph with Some (st, _, _) => Some st | None => None end.
Definition ph_len (ph : option pseudo) : Z := match ph with Some (_, len, _) => len | None => 0 end.

(** A larger packet size than ours is trimmed, the flag AD is cleared. *)
Definition trim_size (buf : list Z) (n : Z) : comp (option pseudo * Z * list Z) :=
  '(ph, is_sign) ← find_pseudoheader buf n true;
  buf ← match ph with
        | Some (_, _, sizep) =>
            if is_sign =? 0 then
              udpsz ← rd16 buf sizep;
              if edns_pktsz cfg <? udpsz then PUTSHORT buf sizep (edns_pktsz cfg) else mret buf
            else mret buf
        | None => mret buf
        end;
  h4 ← hb4 buf;
  buf ← (if (is_sign =? 0) && negb (o_dnssec cfg) then wr buf 3 (Z.land h4 (255 - HB4_AD)) else mret buf);
  mret (ph, is_sign, buf).

(** The server is not recursive. *)
Definition complain (h4 an : Z) (serv : option ptr) (s : fstate) : comp fstate :=
  match serv with
  | Some p =>
      sv ← getserv s p;
      if negb (has h4 HB4_RA) && (RCODE h4 =? NOERROR) && (an =? 0) && negb (has (s_flags sv) SERV_WARNED_RECURSIVE) then
        let s := with_name (blit (namebuff s) 0 (inet_ntoa (sin_addr (s_addr sv)) ++ [0])) s in
        mret (if negb (o_log cfg) then with_server p (set_sflags (Z.lor (s_flags sv) SERV_WARNED_RECURSIVE) sv) s else s)
      else mret s
  | None => mret s
  end.

(** Whether the records of the reply are taken out of it; the cache learns
    them. *)
Definition munge (buf : list Z) (now n is_sign : Z) (check_rebind checking_disabled : bool) (h3 h4 : Z) (s : fstate) : comp (bool * list Z * fstate) :=
  '(bogus, s) ←
    (if bool_decide (bogus_addr cfg <> []) && negb (RCODE h4 =? NXDOMAIN) then
       '(b, name, c) ← check_for_bogus_wildcard mix_tab clobbered (max_cache_ttl cfg) can_malloc buf n (namebuff s) (bogus_addr cfg) now (fcache s);
       mret (b, with_cache c (with_name name s))
     else mret (false, s));
  if (bogus : bool) then
    buf ← wr buf 3 (SET_RCODE h4 NXDOMAIN); buf ← wr buf 2 (Z.land h3 (255 - HB3_AA));
    mret (true, buf, s)
  else
    '(local, s) ←
      (if RCODE h4 =? NXDOMAIN then
         '(got, _, name) ← extract_request buf n (namebuff s);
         let s := with_name name s in
         if negb (got =? 0) then
           '(b, c) ← check_for_local_domain mix_tab (cfg_locals cfg) (fcache s) (cstr (namebuff s)) now; mret (b, with_cache c s)
         else mret (false, s)
       else mret (false, s));
    buf ← (if (local : bool) then buf ← wr buf 2 (Z.lor h3 HB3_AA); wr buf 3 (SET_RCODE h4 NOERROR) else mret buf);
    '(rebind, buf, name, c) ← extract_addresses mix_tab clobbered (max_cache_ttl cfg) (max_ttl cfg) (neg_ttl cfg) (doctors cfg) can_malloc
      (o_log cfg) (o_no_neg cfg) (o_local_rebind cfg) n now (negb (is_sign =? 0)) check_rebind buf (namebuff s) (fcache s) checking_disabled;
    mret ((local : bool) || negb (rebind =? 0), buf, with_cache c (with_name name s)).

(** The length of what is sent on, the packet and the state. *)
Definition process_reply (buf : list Z) (now : Z) (serv : option ptr) (n : Z) (check_rebind checking_disabled : bool) (s : fstate)
  : comp (Z * list Z * fstate) :=
  '(ph, is_sign, buf) ← trim_size buf n;
  h3 ← hb3 buf; h4 ← hb4 buf;
  if negb (OPCODE h3 =? 0) || (negb (RCODE h4 =? NOERROR) && negb (RCODE h4 =? NXDOMAIN)) then mret (n, buf, s)
  else
    an ← ancount buf;
    s ← complain h4 an serv s;
    '(munged, buf, s) ← munge buf now n is_sign check_rebind checking_disabled h3 h4 s;
    buf ← (if (munged : bool) then wrs buf 6 (put16 0 ++ put16 0 ++ put16 0) else mret buf);
    '(nn, buf) ← resize_packet buf n (ph_start ph) (ph_len ph);
    mret (nn, buf, s).

(** The first server with an address, among those without some flags. *)
Fixpoint find_server (s : fstate) (without : Z) (addr : mysockaddr) (l : list ptr) : comp (option ptr) :=
  match l with
  | [] => Ok None
  | p :: l' =>
      sv ← getserv s p;
      if negb (has (s_flags sv) without) && sockaddr_isequal (s_addr sv) addr then Ok (Some p) else find_server s without addr l'
  end.

(** A reply with an error, to be asked of the next server: the query is made
    from it again. [None] when it is signed or empty. *)
Definition remake_query (buf : list Z) (n : Z) : comp (option Z * list Z) :=
  '(ph, is_sign) ← find_pseudoheader buf n true;
  if negb (is_sign =? 0) then Ok (None, buf)
  else
    buf ← wrs buf 6 (put16 0 ++ put16 0 ++ put16 0);
    '(nn, buf) ← resize_packet buf n (ph_start ph) (ph_len ph);
    if nn =? 0 then mret (None, buf)
    else h3 ← hb3 buf; buf ← wr buf 2 (Z.land h3 (255 - Z.lor HB3_QR HB3_TC)); mret (Some nn, buf).

Definition refused (h4 : Z) : bool := (RCODE h4 =? SERVFAIL) || (RCODE h4 =? REFUSED).

(** The server that has answered is remembered. *)
Definition mark_server (serveraddr : mysockaddr) (h4 : Z) (sp : ptr) (s : fstate) : comp (option ptr * fstate) :=
  sv ← getserv s sp;
  if Z.land (s_flags sv) SERV_TYPE =? 0 then
    serv ← (if refused h4 then mret None
            else
              good ← find_server s (Z.lor (Z.lor SERV_LITERAL_ADDRESS SERV_HAS_DOMAIN) (Z.lor SERV_FOR_NODOTS SERV_NO_ADDR)) serveraddr (serv_list s);
              mret (match good with Some p => Some p | None => Some sp end));
    mret (serv, if o_all_servers cfg then s else with_last serv s)
  else mret (Some sp, s).

(** The reply is sent to the client, and the record is free again. *)
Definition deliver (f : ptr) (serv : option ptr) (buf : list Z) (n now : Z) (s : fstate) : comp fstate :=
  r ← getf (tab s) f;
  let check_rebind := o_no_rebind cfg && negb (has (f_flags r) FREC_NOREBIND) in
  '(nn, buf, s) ← process_reply buf now serv n check_rebind (has (f_flags r) FREC_CHECKING_DISABLED) s;
  s ← (if negb (nn =? 0) then
         buf ← wrs buf 0 (put16 (f_orig_id r)); h4 ← hb4 buf; buf ← wr buf 3 (Z.lor h4 HB4_RA);
         mret (send_from (f_fd r) (o_nowild cfg || o_cleverbind cfg) buf (Some nn) (f_source r) (f_dest r) (f_iface r) s)
       else mret s);
  t ← free_frec (tab s) f;
  mret (with_tab t s).

(** [n] bytes have been received from [serveraddr] into the packet buffer. *)
Definition reply_query (e : env) (buf : list Z) (n : Z) (serveraddr : mysockaddr) (now : Z) (s : fstate) : comp fstate :=
  let s := with_srv_save None (packet_len s) s in
  from ← find_server s (Z.lor SERV_LITERAL_ADDRESS SERV_NO_ADDR) serveraddr (serv_list s);
  match from with
  | None => mret s
  | Some _ =>
      if n <? HEADER then mret s
      else
        h3 ← hb3 buf;
        if negb (has h3 HB3_QR) then mret s
        else
          id ← rd16 buf 0;
          '(crc, name) ← questions_crc buf n (namebuff s);
          let s := with_name name s in
          fwd ← lookup_frec id crc (tab s);
          match fwd with
          | None => mret s
          | Some f =>
              r ← getf (tab s) f; h4 ← hb4 buf;
              '(again, buf) ← (if refused h4 && negb (o_order cfg) && (f_forwardall r =? 0) then remake_query buf n else mret (None, buf));
              match again with
              | Some nn => '(_, _, s) ← forward_query e (-1) None None 0 buf nn now (Some f) s; mret s
              | None =>
                  sp ← of_option NullDeref (f_sentto r); h4 ← hb4 buf;
                  '(serv, s) ← mark_server serveraddr h4 sp s;
                  let all := f_forwardall r in
                  let s := if all =? 0 then s else with_tab (putf (tab s) f (with_forwardall (all - 1) r)) s in
                  if (all =? 0) || (all - 1 =? 1) || negb (refused h4) then deliver f serv buf n now s else mret s
              end
          end
  end.

(** * A server goes away *)

Definition server_gone (p : ptr) (s : fstate) : comp fstate :=
  t ← free_gone p (frec_list (tab s)) (tab s);
  let s := with_tab t s in
  let s := if decide (last_server s = Some p) then with_last None s else s in
  mret (if decide (srv_save s = Some p) then with_srv_save None (packet_len s) s else s).
End forward.
