(* ===== verification/DmForwardInv.v ===== *)
(** What holds between two packets that dnsmasq handles, and that forwarding a
    query keeps it. *)
From S2P Require Import Prelude CString Dns Common DmUtil DmName DmPacket DmLru DmCache DmCacheInv DmCacheOps DmAnswer DmFrame DmTable DmMac DmServers DmForward.
Set Warnings "-clear-no-such-hyp,-notation-for-abbreviation".

(** * Lists of servers *)

(** From [start] the walk goes through [rem] and back to [first]. *)
Fixpoint walk_back (l : list ptr) (start : ptr) (rem : list ptr) (first : ptr) : Prop :=
  match rem with
  | [] => next_server l start = Some first
  | x :: rem' => next_server l start = Some x /\ x <> first /\ walk_back l x rem' first
  end.

Lemma next_in_at l1 x l2 : x ∉ l1 -> next_in (l1 ++ x :: l2) x = head l2.
Proof.
  induction l1 as [|y l1 IH]; cbn [app next_in]; intros Hx; [by rewrite decide_True|].
  rewrite decide_False by set_solver. apply IH. set_solver.
Qed.

Lemma next_server_at l1 x l2 : NoDup (l1 ++ x :: l2) -> next_server (l1 ++ x :: l2) x = head (l2 ++ l1 ++ [x]).
Proof.
  intros Hnd. unfold next_server. rewrite next_in_at; [|apply NoDup_app in Hnd as (_ & H & _); intros Hx; apply (H x Hx); by left].
  destruct l2 as [|y l2]; [|done]. cbn. by destruct l1.
Qed.

Lemma next_server_in l p : NoDup l -> p ∈ l -> exists q, next_server l p = Some q /\ q ∈ l.
Proof.
  intros Hnd Hp. apply list_elem_of_split in Hp as (l1 & l2 & ->). rewrite next_server_at by done.
  destruct l2 as [|y l2]; [destruct l1 as [|y l1]|]; cbn; eexists; (split; [reflexivity|]); set_solver.
Qed.

(** The servers in front of [first], and those behind it. *)
Lemma walk_front first l2 q : forall p x, NoDup (p ++ x :: q ++ first :: l2) -> walk_back (p ++ x :: q ++ first :: l2) x q first.
Proof.
  induction q as [|y q IH]; intros p x Hnd; cbn [walk_back]; rewrite next_server_at by done; [done|]. split; [done|].
  replace (p ++ x :: (y :: q) ++ first :: l2) with ((p ++ [x]) ++ y :: q ++ first :: l2) in * by (by rewrite <- app_assoc). split; [|by apply IH].
  intros ->. apply NoDup_app in Hnd as (_ & _ & Hnd). apply NoDup_cons in Hnd as [Hnd _]. set_solver.
Qed.

Lemma walk_tail l1 first b : forall c x, (forall y, y ∈ b -> y <> first) -> NoDup ((l1 ++ c) ++ x :: b) -> head (c ++ [x]) = Some first ->
  walk_back ((l1 ++ c) ++ x :: b) x (b ++ l1) first.
Proof.
  induction b as [|y b IH]; intros c x Hb Hnd Hfirst.
  - change ([] ++ l1) with l1. destruct l1 as [|z l1]; cbn [walk_back]; rewrite next_server_at by done; [done|]. split; [done|]. split.
    + intros ->. rewrite <- app_assoc in Hnd. cbn [app] in Hnd. apply NoDup_cons in Hnd as [Hnd _]. apply Hnd. destruct c as [|c0 c]; cbn in Hfirst; injection Hfirst as ->; set_solver.
    + assert (exists l2, c ++ [x] = first :: l2) as [l2 Hl2] by (destruct (c ++ [x]); [done|]; injection Hfirst as ->; eauto).
      rewrite <- app_assoc, Hl2 in Hnd |- *. by apply (walk_front first l2 l1 [] z).
  - change ((y :: b) ++ l1) with (y :: (b ++ l1)). cbn [walk_back]. rewrite next_server_at by done. split; [done|]. split; [apply Hb; by left|].
    replace ((l1 ++ c) ++ x :: y :: b) with ((l1 ++ (c ++ [x])) ++ y :: b) in * by (by rewrite <- !app_assoc).
    apply IH; [intros z Hz; apply Hb; by right|done|]. by destruct c.
Qed.

Lemma walk_exists l first : NoDup l -> first ∈ l -> exists rem, walk_back l first rem first /\ (length rem < length l)%nat /\ (forall x, x ∈ rem -> x ∈ l).
Proof.
  intros Hnd Hf. apply list_elem_of_split in Hf as (l1 & l2 & ->). exists (l2 ++ l1). split_and!.
  - pose proof (walk_tail l1 first l2 [] first) as H. rewrite app_nil_r in H. apply H; [|done|done].
    intros y Hy ->. apply NoDup_app in Hnd as (_ & _ & Hnd). by apply NoDup_cons in Hnd as [Hnd _].
  - rewrite !length_app. cbn. lia.
  - set_solver.
Qed.

(** * The invariant *)

(** The record of a query: identifiers of 16 bits, and a server that is
    there. *)
Record frec_ok (l : list ptr) (r : frec) : Prop := {
  fo_orig : is_u16 (f_orig_id r);
  fo_new : is_u16 (f_new_id r);
  fo_sent : forall p, f_sentto r = Some p -> p ∈ l }.

Section inv.
Context (mix_tab : Z -> Z).

(** [b] is the record that a query is being put into. *)
Record finv (m : nat) (b : option ptr) (s : fstate) : Prop := {
  fi_tab : tinv (tab s) b;
  fi_frecs : forall f r, f ∈ frec_list (tab s) -> frecs (tab s) !! f = Some r -> frec_ok (serv_list s) r;
  fi_nodup : NoDup (serv_list s);
  fi_known : forall p, p ∈ serv_list s -> exists sv, servers s !! p = Some sv /\ server_ok sv;
  fi_last : forall p, last_server s = Some p -> p ∈ serv_list s;
  fi_cache : cache_ok mix_tab m (fcache s);
  fi_name : MAXDNAME <= zlen (namebuff s);
  fi_rng : surf_ok (rng s) }.

(** The parts of the state that most steps leave alone. *)
Lemma finv_same m b s s' : finv m b s -> tab s' = tab s -> servers s' = servers s -> serv_list s' = serv_list s -> last_server s' = last_server s ->
  fcache s' = fcache s -> namebuff s' = namebuff s -> rng s' = rng s -> finv m b s'.
Proof. intros [] E1 E2 E3 E4 E5 E6 E7. split; rewrite ?E1, ?E2, ?E3, ?E4, ?E5, ?E6, ?E7; done. Qed.

Lemma finv_table m b b' s t : finv m b s -> tinv t b' -> (forall f r, f ∈ frec_list t -> frecs t !! f = Some r -> frec_ok (serv_list s) r) ->
  finv m b' (with_tab t s).
Proof. intros [] Ht Hf. by split. Qed.

Lemma finv_putf m b b' s f r' : finv m b s -> tinv (putf (tab s) f r') b' -> frec_ok (serv_list s) r' -> finv m b' (with_tab (putf (tab s) f r') s).
Proof.
  intros I Ht Hr. apply (finv_table m b b' s _ I Ht). intros g rg Hg. cbn [putf frecs]. destruct (decide (g = f)) as [->|Hne].
  - rewrite lookup_insert_eq. by intros [= <-].
  - rewrite lookup_insert_ne by done. by apply (fi_frecs m b s I).
Qed.

Lemma finv_server m b s p sv : finv m b s -> p ∈ serv_list s -> server_ok sv -> finv m b (with_server p sv s).
Proof.
  intros [] Hp Hsv. split; try done. cbn [with_server servers serv_list]. intros q Hq. destruct (decide (q = p)) as [->|Hne].
  - rewrite lookup_insert_eq. by exists sv.
  - rewrite lookup_insert_ne by done. auto.
Qed.

Lemma finv_name m b s name : finv m b s -> MAXDNAME <= zlen name -> finv m b (with_name name s).
Proof. intros [] Hn. by split. Qed.
Lemma finv_cache m b s c : finv m b s -> cache_ok mix_tab m c -> finv m b (with_cache c s).
Proof. intros [] Hc. by split. Qed.

(** The record that is being filled is in use, or has no socket. *)
Lemma tinv_done t f r : tinv t (Some f) -> frecs t !! f = Some r -> is_Some (f_sentto r) \/ f_rfd4 r = None -> tinv t None.
Proof.
  intros [I1 I2 I3 I4 I5 I6 I7] Hr Hor. split; try done. intros g rg Hg Hrg Hst _. destruct (decide (g = f)) as [->|Hne].
  - assert (rg = r) as -> by congruence. destruct Hor as [[? ?]|?]; [congruence|done].
  - apply (I4 g rg); try done. congruence.
Qed.
Lemma tinv_busy t f : tinv t None -> tinv t (Some f).
Proof. intros [I1 I2 I3 I4 I5 I6 I7]. split; try done. intros g rg Hg Hrg Hst _. by apply (I4 g rg). Qed.

Lemma finv_done m s f r : finv m (Some f) s -> frecs (tab s) !! f = Some r -> is_Some (f_sentto r) -> finv m None s.
Proof. intros I Hr Hs. destruct I. split; try done. apply (tinv_done _ f r); auto. Qed.
Lemma finv_busy m s f : finv m None s -> finv m (Some f) s.
Proof. intros []. split; try done. by apply tinv_busy. Qed.

(** No other query that is waiting has the identifier with the checksum. *)
Definition fresh_id (t : ftab) (f : ptr) (r : frec) : Prop := forall g rg, g ∈ frec_list t -> g <> f -> frecs t !! g = Some rg -> in_use rg = true ->
  f_new_id r = f_new_id rg -> f_crc r <> f_crc rg.

(** * Sending *)

(** One record has been changed in the table. *)
Record only (f : ptr) (r' : frec) (t t' : ftab) : Prop := {
  on_list : frec_list t' = frec_list t;
  on_frecs : frecs t' = <[f := r']> (frecs t) }.

Lemma only_trans f r r' t t1 t2 : only f r t t1 -> only f r' t1 t2 -> only f r' t t2.
Proof. intros [L1 M1] [L2 M2]. split; [congruence|]. by rewrite M2, M1, insert_insert_eq. Qed.

Lemma only_fresh f r r' t t' : only f r' t t' -> f_new_id r' = f_new_id r -> f_crc r' = f_crc r -> fresh_id t f r -> fresh_id t' f r'.
Proof.
  intros [L M] E1 E2 Hf g rg Hg Hne Hrg. rewrite L in Hg. rewrite M, lookup_insert_ne in Hrg by done. rewrite E1, E2. exact (Hf g rg Hg Hne Hrg).
Qed.

Lemma only_lookup f r' t t' : only f r' t t' -> frecs t' !! f = Some r'.
Proof. intros [_ ->]. apply lookup_insert_eq. Qed.

(** Where the record leads to may change, and the socket. *)
Definition same_query (r r' : frec) : Prop :=
  f_source r' = f_source r /\ f_dest r' = f_dest r /\ f_iface r' = f_iface r /\ f_orig_id r' = f_orig_id r /\ f_new_id r' = f_new_id r /\
  f_fd r' = f_fd r /\ f_flags r' = f_flags r /\ f_crc r' = f_crc r /\ f_time r' = f_time r.

Lemma same_query_refl r : same_query r r.
Proof. by split_and!. Qed.
Lemma same_query_trans r1 r2 r3 : same_query r1 r2 -> same_query r2 r3 -> same_query r1 r3.
Proof. unfold same_query. intros (? & ? & ? & ? & ? & ? & ? & ? & ?) (? & ? & ? & ? & ? & ? & ? & ? & ?). split_and!; congruence. Qed.

(** A query that is waiting for its reply. *)
Definition waiting (t : ftab) (f : ptr) (r : frec) : Prop := f ∈ frec_list t /\ frecs t !! f = Some r /\ is_Some (f_sentto r).

(** The queries that wait were waiting before, or [X] holds of them. *)
Definition inherits (t t' : ftab) (X : ptr -> frec -> Prop) : Prop :=
  forall g r', waiting t' g r' -> (exists r, waiting t g r /\ same_query r r') \/ X g r'.

Lemma inherits_refl t X : inherits t t X.
Proof. intros g r Hw. left. exists r. split; [done|apply same_query_refl]. Qed.

Lemma inherits_none t t' X : inherits t t' (fun _ _ => False) -> inherits t t' X.
Proof. intros H g r Hw. destruct (H g r Hw) as [?|[]]. by left. Qed.

Lemma inherits_trans t t1 t2 (X Y : ptr -> frec -> Prop) : inherits t t1 (fun _ _ => False) -> inherits t1 t2 X -> (forall g r, X g r -> Y g r) -> inherits t t2 Y.
Proof.
  intros H1 H2 HXY g r2 Hw. destruct (H2 g r2 Hw) as [(r1 & Hw1 & Q1)|HX]; [|right; auto]. destruct (H1 g r1 Hw1) as [(r & Hw0 & Q0)|[]].
  left. exists r. split; [done|]. by eapply same_query_trans.
Qed.

(** One record has been changed. *)
Lemma only_inherits f r' t t' (X : ptr -> frec -> Prop) : only f r' t t' -> (is_Some (f_sentto r') -> X f r') -> inherits t t' X.
Proof.
  intros [L M] HX g rg (Hg & Hrg & Hu). rewrite L in Hg. rewrite M in Hrg. destruct (decide (g = f)) as [->|Hne].
  - rewrite lookup_insert_eq in Hrg. injection Hrg as <-. right. auto.
  - rewrite lookup_insert_ne in Hrg by done. left. exists rg. split; [by split_and!|apply same_query_refl].
Qed.

Lemma only_same f r r' t t' X : only f r' t t' -> waiting t f r -> same_query r r' -> inherits t t' X.
Proof.
  intros O W Q g rg Hg. destruct (only_inherits f r' t t' (fun g rg => g = f /\ rg = r') O (fun _ => conj eq_refl eq_refl) g rg Hg) as [H|[-> ->]]; [by left|].
  left. by exists r.
Qed.

Lemma freed_inherits t t' f r X : frec_list t' = frec_list t -> frecs t' = <[f := freed_frec r]> (frecs t) -> inherits t t' X.
Proof. intros L M. apply (only_inherits f (freed_frec r)); [by split|]. intros Hu. by destruct Hu. Qed.

Lemma server_fd_ok m e f sv s r : finv m (Some f) s -> f ∈ frec_list (tab s) -> frecs (tab s) !! f = Some r ->
  exists fd s' r', server_fd e f sv s = Ok (fd, s') /\ finv m (Some f) s' /\ only f r' (tab s) (tab s') /\ same_query r r' /\ f_sentto r' = f_sentto r /\
    f_forwardall r' = f_forwardall r /\ serv_list s' = serv_list s /\ servers s' = servers s /\ outbox s' = outbox s.
Proof.
  intros I Hf Hr. pose proof (fi_tab _ _ _ I) as T. unfold server_fd.
  assert (only f r (tab s) (tab s)) as Hrefl by (split; [done|by rewrite insert_id]).
  destruct (s_sfd sv) as [fd|]; [exists (Some fd), s, r; by split_and!|]. unfold getf. rewrite Hr. cbn [of_option mbind comp_bind].
  destruct (f_rfd4 r) as [i|] eqn:Hi.
  - cbn [mbind comp_bind]. destruct (sock_at _ _ f r i T Hf Hr Hi) as (sk & Hsk & _). rewrite Hsk. cbn [of_option mbind comp_bind mret comp_ret].
    eexists _, _, r. split; [reflexivity|]. split_and!; try done. by apply (finv_same m _ s).
  - destruct (allocate_rfd_ok AF_INET (e_sock e) (tab s) f r (Some f) T Hf Hr Hi) as (j & t' & -> & L & M & Hj); [by left|]. cbn [mbind comp_bind].
    destruct j as [i|]; cbn [mbind comp_bind].
    + set (r' := with_rfd4 (Some i) r). assert (only f r' (tab s) (putf t' f r')) as Ho by (split; cbn; [done|by rewrite M]).
      destruct (sock_at _ _ f r' i Hj) as (sk & Hsk & _); [by cbn; rewrite L|by apply (only_lookup f r' (tab s))|done|]. cbn [putf randomsocks] in Hsk |- *. rewrite Hsk. cbn [of_option mbind comp_bind mret comp_ret].
      eexists _, _, r'. split; [reflexivity|]. split_and!; try done. apply (finv_same m _ (with_tab (putf t' f r') s)); try done.
      apply (finv_table m (Some f)); [done|done|]. intros g rg. cbn [putf frec_list frecs]. rewrite L, M. intros Hg. destruct (decide (g = f)) as [->|Hne].
      * rewrite lookup_insert_eq. intros [= <-]. destruct (fi_frecs _ _ _ I f r Hf Hr). by split.
      * rewrite lookup_insert_ne by done. by apply (fi_frecs _ _ _ I).
    + eexists _, _, r. split; [reflexivity|]. split_and!; try done; [|split; cbn; [done|by rewrite M, insert_id]].
      apply (finv_table m (Some f)); [done|done|]. rewrite L, M. apply (fi_frecs _ _ _ I).
Qed.

(** A domain is known when it is compared. *)
Definition target_ok (type : Z) (domain : option (list Z)) : Prop := type = SERV_HAS_DOMAIN -> is_Some domain.

Lemma deals_with_ok type domain sv : target_ok type domain -> server_ok sv -> exists b, deals_with type domain sv = Ok b.
Proof.
  intros Ht [Hs _]. unfold deals_with. destruct (type =? Z.land (s_flags sv) SERV_TYPE) eqn:E; [|by exists false]. zbool.
  destruct (type =? SERV_HAS_DOMAIN) eqn:E2; [|by eexists]. zbool. destruct (Ht E2) as [d ->].
  assert (has (s_flags sv) SERV_HAS_DOMAIN = true) as Hd.
  { change SERV_HAS_DOMAIN with (2 ^ 3) in *. rewrite has_bit by lia. assert (Z.testbit (Z.land (s_flags sv) SERV_TYPE) 3 = true) as H by (by rewrite <- E, E2).
    rewrite Z.land_spec in H. by apply andb_true_iff in H as [H _]. }
  destruct (Hs Hd) as [d' ->]. by eexists.
Qed.

(** Servers with the same data apart from the counters. *)
Definition like (a b : server) : Prop := s_addr a = s_addr b /\ s_sfd a = s_sfd b /\ s_domain a = s_domain b /\ s_flags a = s_flags b.
Definition servers_like (a b : gmap ptr server) : Prop := forall p sv, b !! p = Some sv -> exists sv0, a !! p = Some sv0 /\ like sv0 sv.

Lemma like_refl a : like a a.
Proof. by split_and!. Qed.
Lemma servers_like_refl a : servers_like a a.
Proof. intros p sv Hp. exists sv. split; [done|apply like_refl]. Qed.
Lemma servers_like_trans a b c : servers_like a b -> servers_like b c -> servers_like a c.
Proof.
  intros Hab Hbc p sv Hp. destruct (Hbc p sv Hp) as (s1 & Hs1 & L1 & L2 & L3 & L4). destruct (Hab p s1 Hs1) as (s0 & Hs0 & L5 & L6 & L7 & L8).
  exists s0. split; [done|]. split_and!; congruence.
Qed.
Lemma servers_like_insert a p sv sv' : a !! p = Some sv -> like sv sv' -> servers_like a (<[p := sv']> a).
Proof.
  intros Hp Hl q svq. destruct (decide (q = p)) as [->|Hne]; [rewrite lookup_insert_eq; intros [= <-]; by exists sv|].
  rewrite lookup_insert_ne by done. intros Hq. exists svq. split; [done|apply like_refl].
Qed.
Lemma deals_with_like type domain a b : like a b -> deals_with type domain a = deals_with type domain b.
Proof. intros (_ & _ & Hd & Hf). unfold deals_with. by rewrite Hd, Hf. Qed.
Lemma server_ok_like a b : like a b -> server_ok a -> server_ok b.
Proof. intros (Ha & _ & Hd & Hf) [H1 H2]. unfold server_ok. by rewrite <- Ha, <- Hd, <- Hf. Qed.

(** A packet on its way to a server that deals with the domain. *)
Definition relayed (svs : gmap ptr server) (l : list ptr) (type : Z) (domain : option (list Z)) (packet : list Z) (m : sent) : Prop :=
  exists p fd sv, m = ToServer p fd packet /\ p ∈ l /\ svs !! p = Some sv /\ deals_with type domain sv = Ok true.

Lemma relayed_like a b l type domain packet m : servers_like a b -> relayed b l type domain packet m -> relayed a l type domain packet m.
Proof.
  intros Hab (p & fd & sv & -> & Hp & Hsv & Hd). destruct (Hab p sv Hsv) as (s0 & Hs0 & Hl). exists p, fd, s0. split_and!; try done.
  by rewrite (deals_with_like _ _ s0 sv).
Qed.

Lemma note_sent_ok m f start fd buf plen gotname s r : finv m (Some f) s -> f ∈ frec_list (tab s) -> frecs (tab s) !! f = Some r -> fresh_id (tab s) f r ->
  start ∈ serv_list s ->
  exists s', note_sent f start fd buf plen gotname s = Ok (f_forwardall r, s') /\ finv m (Some f) s' /\ only f (with_sentto (Some start) r) (tab s) (tab s') /\
    serv_list s' = serv_list s /\ servers_like (servers s) (servers s') /\ outbox s' = outbox s ++ [ToServer start fd (take (Z.to_nat plen) buf)].
Proof.
  intros I Hf Hr Hid Hst. destruct (fi_known _ _ _ I start Hst) as (sv & Hsv & Hsok). unfold note_sent.
  set (s1 := send _ _). set (s2 := if gotname =? 0 then _ else s1).
  assert (finv m (Some f) s1) as I1 by (by apply (finv_same m _ s)).
  assert (finv m (Some f) s2 /\ tab s2 = tab s /\ servers s2 = servers s /\ serv_list s2 = serv_list s /\ outbox s2 = outbox s1) as (I2 & E1 & E2 & E3 & E4).
  { unfold s2. destruct (gotname =? 0); [|done]. split; [|done]. apply finv_name; [done|]. pose proof (fi_name _ _ _ I) as Hn. unfold MAXDNAME in *.
    rewrite (zlen_blit (namebuff s1) 0); [done|lia|]. change (namebuff s1) with (namebuff s). change (zlen (lit "query" ++ [0])) with 6. lia. }
  unfold getserv. rewrite E2, Hsv. cbn [of_option mbind comp_bind].
  set (sv' := set_queries _ sv). set (s3 := with_server start sv' s2). change (tab s3) with (tab s2). rewrite E1. unfold getf. rewrite Hr. cbn [of_option mbind comp_bind mret comp_ret].
  assert (like sv sv') as Hlk by (by split_and!).
  assert (finv m (Some f) s3) as I3 by (apply finv_server; [done|by rewrite E3|by apply (server_ok_like sv)]).
  eexists. split; [reflexivity|]. split_and!; [|by split|exact E3| |exact E4].
  - assert (tab s = tab s3) as Et by (by rewrite <- E1). rewrite Et. apply (finv_putf m (Some f)); [done| |].
    + change (tab s3) with (tab s2). rewrite E1. apply (tinv_putf _ (Some f) _ f r); try done; [apply I|]. intros g rg Hg Hne Hrg _ Hu. by apply (Hid g rg).
    + change (serv_list s3) with (serv_list s2). rewrite E3. destruct (fi_frecs _ _ _ I f r Hf Hr). split; [done|done|]. by intros p [= <-].
  - change (servers_like (servers s) (<[start := sv']> (servers s2))). rewrite E2. by apply (servers_like_insert _ _ sv).
Qed.

(** What sending changes: one record, the counters of servers, and what has
    been sent. *)
Record progress (f : ptr) (type : Z) (domain : option (list Z)) (packet : list Z) (s : fstate) (r : frec) (s' : fstate) (r' : frec) (msgs : list sent) : Prop := {
  pg_only : only f r' (tab s) (tab s');
  pg_query : same_query r r';
  pg_list : serv_list s' = serv_list s;
  pg_servers : servers_like (servers s) (servers s');
  pg_out : outbox s' = outbox s ++ msgs;
  pg_msgs : Forall (relayed (servers s) (serv_list s) type domain packet) msgs }.

Lemma progress_refl f type domain packet s r : frecs (tab s) !! f = Some r -> progress f type domain packet s r s r [].
Proof. intros Hr. split; [split; [done|by rewrite insert_id]|apply same_query_refl|done|apply servers_like_refl|by rewrite app_nil_r|done]. Qed.

Lemma progress_trans f type domain packet s r s1 r1 m1 s2 r2 m2 : progress f type domain packet s r s1 r1 m1 -> progress f type domain packet s1 r1 s2 r2 m2 ->
  progress f type domain packet s r s2 r2 (m1 ++ m2).
Proof.
  intros [A1 A2 A3 A4 A5 A6] [B1 B2 B3 B4 B5 B6]. split.
  - by eapply only_trans.
  - by eapply same_query_trans.
  - congruence.
  - by eapply servers_like_trans.
  - by rewrite B5, A5, app_assoc.
  - apply Forall_app. split; [done|]. rewrite A3 in B6. eapply Forall_impl; [exact B6|]. intros msg. by apply relayed_like.
Qed.

Lemma send_loop_ok m e f buf plen gotname type domain first : target_ok type domain -> forall fuel rem start forwarded sends s r,
  (length rem + length sends < fuel)%nat -> walk_back (serv_list s) start rem first -> start ∈ serv_list s -> (forall x, x ∈ rem -> x ∈ serv_list s) ->
  finv m (Some f) s -> f ∈ frec_list (tab s) -> frecs (tab s) !! f = Some r -> fresh_id (tab s) f r -> (forwarded = true -> is_Some (f_sentto r)) ->
  exists fwd s' r' msgs, send_loop fuel e f buf plen gotname type domain first start forwarded sends s = Ok (fwd, s') /\
    finv m (Some f) s' /\ progress f type domain (take (Z.to_nat plen) buf) s r s' r' msgs /\
    (fwd = true -> is_Some (f_sentto r')) /\ (fwd = true <-> forwarded = true \/ msgs <> []).
Proof.
  intros Ht. induction fuel as [|fuel IH]; intros rem start forwarded sends s r Hfuel Hw Hst Hrem I Hf Hr Hid Hfwd; [lia|]. cbn [send_loop].
  set (pkt := take (Z.to_nat plen) buf) in *.
  assert (Hnil : forwarded = true <-> forwarded = true \/ ([] : list sent) <> []) by (split; [by left|by intros [?|?]]).
  (* on to the next server, or to the end *)
  assert (Hgo : forall s1 r1 msgs fwd1 sends1, (length sends1 <= length sends)%nat -> finv m (Some f) s1 -> progress f type domain pkt s r s1 r1 msgs ->
    (fwd1 = true -> is_Some (f_sentto r1)) -> (fwd1 = true <-> forwarded = true \/ msgs <> []) ->
    exists fwd s' r' msgs', (next ← of_option NullDeref (next_server (serv_list s1) start);
      if decide (next = first) then Ok (fwd1, s1) else send_loop fuel e f buf plen gotname type domain first next fwd1 sends1 s1) = Ok (fwd, s') /\
    finv m (Some f) s' /\ progress f type domain pkt s r s' r' msgs' /\ (fwd = true -> is_Some (f_sentto r')) /\ (fwd = true <-> forwarded = true \/ msgs' <> [])).
  { intros s1 r1 msgs fwd1 sends1 Hsends I1 P1 H1 H2. rewrite (pg_list _ _ _ _ _ _ _ _ _ P1). destruct rem as [|x rem]; cbn [walk_back] in Hw.
    - rewrite Hw. cbn [of_option mbind comp_bind]. rewrite decide_True by done. by exists fwd1, s1, r1, msgs.
    - destruct Hw as (-> & Hne & Hw). cbn [of_option mbind comp_bind]. rewrite decide_False by done. pose proof (pg_only _ _ _ _ _ _ _ _ _ P1) as O1.
      destruct (IH rem x fwd1 sends1 s1 r1) as (fwd & s' & r' & msgs' & -> & I' & P' & H3 & H4).
      + cbn [length] in Hfuel. lia.
      + by rewrite (pg_list _ _ _ _ _ _ _ _ _ P1).
      + rewrite (pg_list _ _ _ _ _ _ _ _ _ P1). apply Hrem. by left.
      + intros y Hy. rewrite (pg_list _ _ _ _ _ _ _ _ _ P1). apply Hrem. by right.
      + done.
      + by rewrite (on_list _ _ _ _ O1).
      + by apply (only_lookup f r1 (tab s)).
      + destruct (pg_query _ _ _ _ _ _ _ _ _ P1) as (_ & _ & _ & _ & Hn & _ & _ & Hc & _). by apply (only_fresh f r r1 (tab s)).
      + done.
      + exists fwd, s', r', (msgs ++ msgs'). split_and!; try done; [by eapply progress_trans|]. rewrite H4, H2. destruct msgs; cbn; [|split; [by right|by left; right]]. tauto. }
  destruct (fi_known _ _ _ I start Hst) as (sv & Hsv & Hsok). unfold getserv. rewrite Hsv. cbn [of_option mbind comp_bind].
  destruct (deals_with_ok type domain sv Ht Hsok) as (ours & Hours). rewrite Hours. cbn [mbind comp_bind].
  destruct ours; cbn [negb]; [|by eapply Hgo; [done|done|by apply progress_refl|done|]].
  destruct (server_fd_ok m e f sv s r I Hf Hr) as (fd & s1 & r1 & -> & I1 & O1 & Q1 & S1 & A1 & L1 & V1 & B1). cbn [mbind comp_bind].
  assert (progress f type domain pkt s r s1 r1 []) as P1 by (split; [done|done|done|rewrite V1; apply servers_like_refl|by rewrite app_nil_r|done]).
  assert (forwarded = true -> is_Some (f_sentto r1)) as Hfwd1 by (by rewrite S1).
  assert (f ∈ frec_list (tab s1)) as Hf1 by (by rewrite (on_list _ _ _ _ O1)). pose proof (only_lookup _ _ _ _ O1) as Hr1.
  assert (fresh_id (tab s1) f r1) as Hid1 by (destruct Q1 as (_ & _ & _ & _ & Hn & _ & _ & Hc & _); by apply (only_fresh f r r1 (tab s))).
  destruct fd as [fd|]; [|by exists forwarded, s1, r1, []].
  assert (length (tail sends) <= length sends)%nat as Htl by (destruct sends; cbn; lia).
  destruct (default Sent (head sends)) eqn:Ho.
  - destruct (note_sent_ok m f start fd buf plen gotname s1 r1 I1 Hf1 Hr1 Hid1) as (s2 & -> & I2 & O2 & L2 & V2 & B2); [by rewrite L1|]. cbn [mbind comp_bind].
    set (r2 := with_sentto (Some start) r1) in *.
    assert (progress f type domain pkt s1 r1 s2 r2 [ToServer start fd pkt]) as P2.
    { split; try done. apply Forall_singleton. exists start, fd, sv. split_and!; [done|by rewrite L1|by rewrite V1|done]. }
    pose proof (progress_trans _ _ _ _ _ _ _ _ _ _ _ _ P1 P2) as P12. cbn [app] in P12.
    destruct (f_forwardall r1 =? 0); [exists true, s2, r2, [ToServer start fd pkt]; split; [done|]; split; [done|]; split; [done|]; split; [by eexists|]; split; [by right|done]|].
    pose proof (only_lookup _ _ _ _ O2) as Hr2. unfold getf. rewrite Hr2. cbn [of_option mbind comp_bind]. set (r3 := with_forwardall _ r2). set (s3 := with_tab _ s2).
    assert (f ∈ frec_list (tab s2)) as Hf2 by (by rewrite (on_list _ _ _ _ O2)).
    assert (progress f type domain pkt s2 r2 s3 r3 []) as P3 by (split; try done; [apply servers_like_refl|by rewrite app_nil_r]).
    pose proof (progress_trans _ _ _ _ _ _ _ _ _ _ _ _ P12 P3) as P13. cbn [app] in P13.
    eapply (Hgo s3 r3 [ToServer start fd pkt]); [done| |done|by eexists|split; [by right|done]].
    apply (finv_putf m (Some f)); [done| |].
    + apply (tinv_putf _ (Some f) _ f r2); try done; [apply I2|]. intros g rg Hg Hne Hrg _ Hu.
      assert (fresh_id (tab s2) f r2) as Hid2 by (by apply (only_fresh f r1 r2 (tab s1))). by apply (Hid2 g rg).
    + destruct (fi_frecs _ _ _ I2 f r2 Hf2 Hr2). by split.
  - destruct (IH rem start forwarded (tail sends) s1 r1) as (fwd & s' & r' & msgs' & -> & I' & P' & H3 & H4); try done.
    + destruct sends; cbn in *; [done|lia].
    + by rewrite L1.
    + by rewrite L1.
    + by rewrite L1.
    + exists fwd, s', r', msgs'. split_and!; try done. by apply (progress_trans _ _ _ _ _ _ _ _ _ _ _ _ P1 P').
  - by eapply (Hgo s1 r1 []).
Qed.
End inv.
