(* ===== verification/DmForwardQuery.v ===== *)
(** Forwarding a query: nothing goes wrong, and a query is either sent on under
    a new identifier or answered with an error or a configured address. *)
From S2P Require Import Prelude CString Dns Common DmUtil DmName DmPacket DmLru DmCache DmCacheInv DmCacheOps DmAnswer DmFrame DmTable DmMac DmServers DmForward DmForwardInv.
Set Warnings "-clear-no-such-hyp,-notation-for-abbreviation".

(** * Identifiers in packets *)

Lemma rd16_after buf i v buf' : wrs buf i (put16 v) = Ok buf' -> 0 <= i -> is_u16 v -> rd16 buf' i = Ok v.
Proof.
  intros Hw Hi Hv. unfold rd16. pose proof (rd_wrs_in (put16 v) buf i buf' 0 (hi8 v) Hw Hi eq_refl) as H0. pose proof (rd_wrs_in (put16 v) buf i buf' 1 (lo8 v) Hw Hi eq_refl) as H1.
  replace (i + Z.of_nat 0) with i in H0 by lia. replace (i + Z.of_nat 1) with (i + 1) in H1 by lia. rewrite H0, H1. cbn [mbind comp_bind mret comp_ret].
  by rewrite be16_split.
Qed.

Lemma rd_take (l : list Z) k i : i < Z.of_nat k -> rd (take k l) i = rd l i.
Proof.
  intros Hi. unfold rd, getb. destruct (0 <=? i) eqn:E; [|done]. zbool. by rewrite lookup_take_lt by lia.
Qed.

Lemma rd16_take l k i : i + 1 < Z.of_nat k -> rd16 (take k l) i = rd16 l i.
Proof. intros Hi. unfold rd16. by rewrite !rd_take by lia. Qed.

(** A configuration whose parts consist of bytes. *)
Record config_ok (cfg : fconfig) : Prop := {
  cf_arps : forall arps, o_add_mac cfg = Some arps -> Forall (fun e => bytes (arp_mac e)) arps;
  cf_doctors : Forall doctor_ok (doctors cfg) }.

Section query.
Context (mix_tab : Z -> Z) (clobbered : Z -> list Z -> list Z) (can_malloc : cache -> bool) (id_fuel : nat) (cfg : fconfig) (Hcfg : config_ok cfg).
Local Notation finv := (finv mix_tab).

Lemma mapM_servers m b s : finv m b s -> exists svs, mapM (getserv s) (serv_list s) = Ok svs /\ Forall server_ok svs.
Proof.
  intros I. assert (forall l, (forall p, p ∈ l -> exists sv, servers s !! p = Some sv /\ server_ok sv) -> exists svs, mapM (getserv s) l = Ok svs /\ Forall server_ok svs) as Hall;
    [|apply Hall; apply (fi_known _ _ _ _ I)]. clear I. intros l H. induction l as [|p l IH]; [by exists []|].
  destruct (H p) as (sv & Hsv & Hok); [by left|]. destruct IH as (svs & IH & Hall); [intros q Hq; apply H; by right|].
  exists (sv :: svs). split; [|by constructor]. change (mapM (getserv s) (p :: l)) with (x ← getserv s p; k ← mapM (getserv s) l; mret (x :: k)). assert (getserv s p = Ok sv) as -> by (unfold getserv; by rewrite Hsv). rewrite IH. done.
Qed.

(** Less queries that wait leave more identifiers. *)
Lemma lucky_mono n crc t t' rng : lucky n 0xffffffff t rng ->
  (forall f r, f ∈ frec_list t' -> frecs t' !! f = Some r -> in_use r = true -> f ∈ frec_list t /\ frecs t !! f = Some r) -> lucky n crc t' rng.
Proof.
  intros (vs & Hvs & v & Hv & Hfree) Hsub. exists vs. split; [done|]. exists v. split; [done|]. intros f r Hf Hr (Hu & Hid & _).
  destruct (Hsub f r Hf Hr) as [Hf' Hr']; [by apply bool_decide_eq_true|]. apply (Hfree f r Hf' Hr'). split_and!; auto.
Qed.

(** What is decided for a query. *)
Inductive planned (m : nat) (s s' : fstate) (buf buf' : list Z) (p : plan) : Prop :=
| PlanNone : p_forward p = None -> finv m None s' -> buf' = buf -> (p_flags p = F_IPV4 -> exists a, p_addr p = Some a /\ bytes (addr_bytes a)) ->
    planned m s s' buf buf' p
| PlanSend f r start : p_forward p = Some f -> finv m (Some f) s' -> f ∈ frec_list (tab s') -> frecs (tab s') !! f = Some r -> fresh_id (tab s') f r ->
    target_ok (p_type p) (p_domain p) -> p_start p = Some start -> start ∈ serv_list s' ->
    wrs buf 0 (put16 (f_new_id r)) = Ok buf' -> p_flags p = 0 -> planned m s s' buf buf' p.

Definition same_servers (s s' : fstate) : Prop := serv_list s' = serv_list s /\ servers_like (servers s) (servers s') /\ outbox s' = outbox s.

Lemma type_target (sv : server) : server_ok sv -> target_ok (Z.land (s_flags sv) SERV_TYPE) (s_domain sv).
Proof.
  intros [H _] E. apply H. change SERV_HAS_DOMAIN with (2 ^ 3) in *. rewrite has_bit by lia.
  assert (Z.testbit (Z.land (s_flags sv) SERV_TYPE) 3 = true) as Hb by (by rewrite E). rewrite Z.land_spec in Hb. by apply andb_true_iff in Hb as [Hb _].
Qed.

Lemma plan_retry_ok m s f r first buf : finv m None s -> f ∈ frec_list (tab s) -> frecs (tab s) !! f = Some r -> is_Some (f_sentto r) -> first ∈ serv_list s ->
  2 <= zlen buf -> exists p buf' s', plan_retry cfg f first buf s = Ok (p, buf', s') /\ planned m s s' buf buf' p /\ p_forward p = Some f /\ same_servers s s' /\
    (exists r', only f r' (tab s) (tab s') /\ same_query r r' /\ rng s' = rng s) /\
    exists sp sv, f_sentto r = Some sp /\ servers s !! sp = Some sv /\ p_type p = Z.land (s_flags sv) SERV_TYPE /\ p_domain p = s_domain sv.
Proof.
  intros I Hf Hr [sp Hsp] Hfirst Hbuf. pose proof (fo_sent _ _ (fi_frecs _ _ _ _ I f r Hf Hr) sp Hsp) as Hin.
  destruct (fi_known _ _ _ _ I sp Hin) as (sv & Hsv & Hsok). unfold plan_retry, getf, getserv. rewrite Hr. cbn [of_option mbind comp_bind]. rewrite Hsp. cbn [of_option mbind comp_bind].
  rewrite Hsv. cbn [of_option mbind comp_bind]. set (sv' := set_failed _ sv). assert (like sv sv') as Hlk by (by split_and!).
  set (s1 := with_server sp sv' s). assert (finv m None s1) as I1 by (apply finv_server; [done|done|by apply (server_ok_like sv)]).
  set (s2 := if negb (o_order cfg) then _ else s1).
  assert (exists r', finv m None s2 /\ only f r' (tab s) (tab s2) /\ same_query r r' /\ f_sentto r' = f_sentto r /\ serv_list s2 = serv_list s /\ servers s2 = servers s1 /\
    outbox s2 = outbox s /\ rng s2 = rng s) as (r' & I2 & O2 & Q2 & S2 & L2 & V2 & B2 & R2).
  { unfold s2. destruct (o_order cfg); cbn [negb]; [exists r; split_and!; try done; split; [done|]; cbn; by rewrite insert_id|].
    exists (with_forwardall 1 r). split; [|by split_and!]. set (s3 := with_tab _ s1).
    assert (finv m None s3) as I3.
    { apply (finv_putf _ m None); [done| |].
      - apply (tinv_putf _ None _ f r); try done; [apply I|by apply (ti_free _ _ (fi_tab _ _ _ _ I) f r)|].
        intros g rg Hg Hne Hrg Hu1 Hu2 Hid. by apply (ti_ids _ _ (fi_tab _ _ _ _ I) f g r rg Hf Hg).
      - destruct (fi_frecs _ _ _ _ I f r Hf Hr). by split. }
    destruct I3. by split. }
  destruct (wrs buf 0 (put16 (f_new_id r))) as [buf'|] eqn:Hw; [|by rewrite wrs_ok in Hw by (rewrite ?zlen_put16; lia)]. cbn [mbind comp_bind].
  destruct (next_server_in (serv_list s2) sp) as (start & Hst & Hstin); [apply I2|by rewrite L2|]. rewrite Hst. cbn [of_option mbind comp_bind mret comp_ret].
  eexists _, buf', s2. split; [reflexivity|]. pose proof (only_lookup _ _ _ _ O2) as Hr'. destruct Q2 as (Q21 & Q22 & Q23 & Q24 & Q25 & Q26 & Q27 & Q28 & Q29). split.
  { eapply (PlanSend m s s2 buf buf' _ f r' start); try done; cbn.
    - by apply finv_busy.
    - by rewrite (on_list _ _ _ _ O2).
    - intros g rg Hg Hne Hrg Hu Hid Hc. apply (ti_ids _ _ (fi_tab _ _ _ _ I2) f g r' rg); try done; [by rewrite (on_list _ _ _ _ O2)|]. apply bool_decide_eq_true. rewrite S2, Hsp. by eexists.
    - by apply type_target.
    - by rewrite Q25. }
  split; [done|]. split; [split_and!; [done| |done]; rewrite V2; by apply (servers_like_insert _ _ sv)|]. split; [exists r'; by split_and!|]. by exists sp, sv.
Qed.

Lemma first_server_ok m b type now first s : finv m b s -> first ∈ serv_list s ->
  exists start all s', first_server cfg type now first s = (start, all, s') /\ start ∈ serv_list s /\ finv m b s' /\ tab s' = tab s /\ same_servers s s'.
Proof.
  intros I Hf. assert (forall n, finv m b (with_count n now s)) as Hc by (intros n; by destruct I). assert (same_servers s s) as Hss by (split_and!; done || apply servers_like_refl).
  unfold first_server. destruct (type =? 0); [|by eexists _, _, s]. destruct (o_order cfg); [by eexists _, _, s|].
  destruct (last_server s) as [p|] eqn:Hl; [|by eexists _, _, _]. case_if; [by eexists _, _, _|]. eexists _, _, _. split; [done|].
  split_and!; [by apply (fi_last _ _ _ _ I)|by destruct I|done|done].
Qed.

(** The kind of servers, and the domain, that [search_servers] finds for a name;
    without a name it is not asked. *)
Definition found_for (s : fstate) (now gotname : Z) (name : list Z) (type : Z) (domain : option (list Z)) : Prop :=
  if gotname =? 0 then type = 0 /\ domain = None
  else exists svs ch c, mapM (getserv s) (serv_list s) = Ok svs /\
    search_servers mix_tab (o_nodots_local cfg) (cfg_locals cfg) now gotname (cstr name) svs (fcache s) = Ok (ch, c) /\
    c_flags ch = 0 /\ type = c_type ch /\ domain = c_domain ch.

(** Whose query a record holds. *)
Definition holds (r : frec) (udpaddr : mysockaddr) (dst_addr : in_addr) (dst_iface id udpfd crc : Z) : Prop :=
  f_source r = udpaddr /\ f_dest r = dst_addr /\ f_iface r = dst_iface /\ f_orig_id r = id /\ f_fd r = udpfd /\ f_crc r = crc.

Lemma plan_new_ok m s e udpfd udpaddr dst_addr dst_iface now crc gotname id first buf : finv m None s -> serv_list s <> [] -> first ∈ serv_list s ->
  (forall f, e_mem e = Some f -> f ∉ frec_list (tab s)) -> lucky id_fuel 0xffffffff (tab s) (rng s) -> is_u16 id -> 4 <= zlen buf ->
  exists p buf' s', plan_new mix_tab id_fuel cfg e udpfd udpaddr dst_addr dst_iface now crc gotname id first buf s = Ok (p, buf', s') /\
    planned m s s' buf buf' p /\ same_servers s s' /\ inherits (tab s) (tab s') (fun _ _ => False) /\
    (forall f, p_forward p = Some f -> found_for s now gotname (namebuff s) (p_type p) (p_domain p) /\
       exists r, frecs (tab s') !! f = Some r /\ holds r udpaddr dst_addr dst_iface id udpfd crc).
Proof.
  intros I Hne Hfirst Hmem Hlucky Hid Hbuf. unfold plan_new.
  match goal with |- context [mbind _ ?x] => assert (exists ch s1, x = Ok (ch, s1) /\ choice_ok ch /\ finv m None s1 /\ tab s1 = tab s /\ rng s1 = rng s /\ same_servers s s1 /\
    (c_flags ch = 0 -> found_for s now gotname (namebuff s) (c_type ch) (c_domain ch))) as (ch & s1 & -> & Hch & I1 & T1 & R1 & V1 & Hfor) end.
  { unfold found_for. destruct (gotname =? 0) eqn:Eg; cbn [negb].
    - eexists _, s. split; [reflexivity|]. split; [split; done|]. split; [done|].
      split; [done|]. split; [done|]. split; [split_and!; try done; apply servers_like_refl|done].
    - destruct (mapM_servers m None s I) as (svs & Hsvs & Hall). rewrite Hsvs. cbn [mbind comp_bind].
      destruct (search_servers_ok mix_tab (o_nodots_local cfg) m (cfg_locals cfg) now gotname (cstr (namebuff s)) svs (fcache s) Hall) as (ch & c & Hsearch & Hch & Hc); [apply I|].
      rewrite Hsearch. cbn [mbind comp_bind mret comp_ret]. eexists ch, _. split; [done|]. split; [done|]. split; [by apply finv_cache|].
      split; [done|]. split; [done|]. split; [split_and!; try done; apply servers_like_refl|]. intros Hf. by exists svs, ch, c. }
  cbn [mbind comp_bind]. destruct (c_flags ch =? 0) eqn:Ef; cbn [negb]; zbool.
  2:{ eexists _, buf, s1. split; [done|]. split_and!; try apply V1; [|rewrite T1; apply inherits_refl|by intros f]. apply PlanNone; try done. cbn. intros Hx. destruct (co_addr _ Hch Hx) as [a Ha].
      exists a. split; [done|]. by apply (co_bytes _ Hch). }
  destruct (get_new_frec_ok (ftabsize cfg) now (e_mem e) (tab s1) (fi_tab _ _ _ _ I1)) as (fwd & v & t & -> & N); [by rewrite T1|]. cbn [mbind comp_bind].
  assert (forall f r, f ∈ frec_list t -> frecs t !! f = Some r -> in_use r = true -> f ∈ frec_list (tab s1) /\ frecs (tab s1) !! f = Some r) as Hold.
  { intros f r Hf Hr Hu%bool_decide_eq_true. destruct (decide (f ∈ frec_list (tab s1))) as [Hin|Hin].
    - split; [done|]. by apply (nf_old _ _ _ _ _ _ N).
    - pose proof (nf_new _ _ _ _ _ _ N f Hf Hin) as Hres. destruct (nf_res _ _ _ _ _ _ N f Hres) as (_ & r' & Hr' & Hn & _).
      assert (r' = r) as -> by congruence. destruct Hu; congruence. }
  set (s2 := with_tab t s1). assert (finv m None s2) as I2.
  { apply (finv_table _ m None); [done|by apply N|]. intros f r Hf Hr. destruct (nf_keep _ _ _ _ _ _ N f r Hf Hr) as [->|(r0 & Hf0 & Hr0 & E1 & E2 & E3)]; [by split|].
    destruct (fi_frecs _ _ _ _ I1 f r0 Hf0 Hr0). split; [by rewrite E1|by rewrite E2|]. destruct E3 as [->| ->]; [done|auto]. }
  assert (same_servers s s2) as V2 by done.
  assert (inherits (tab s) t (fun _ _ => False)) as Hinh.
  { intros g r' (Hg & Hr' & Hu). left. destruct (Hold g r' Hg Hr') as [Hg0 Hr0]; [by apply bool_decide_eq_true|]. rewrite T1 in Hg0, Hr0. exists r'. split; [by split_and!|apply same_query_refl]. }
  destruct fwd as [f|].
  2:{ eexists _, buf, s2. split; [done|]. split; [by apply PlanNone|]. split; [done|]. split; [done|]. by intros f. }
  destruct (nf_res _ _ _ _ _ _ N f eq_refl) as (Hf & r & Hr & Hst & Htime). change (tab s2) with t. unfold getf. rewrite Hr. cbn [of_option mbind comp_bind].
  destruct (get_id_ok id_fuel crc t None (fi_tab _ _ _ _ I2) (rng s2) (fi_rng _ _ _ _ I2)) as (new_id & rng' & -> & Hnew & Hrng & Hfree).
  { change (rng s2) with (rng s1). rewrite R1. apply (lucky_mono _ _ (tab s)); [done|]. by rewrite <- T1. }
  cbn [mbind comp_bind]. unfold hb4. destruct (rd_ok buf 3) as (h4 & -> & _); [lia|]. cbn [mbind comp_bind].
  destruct (wrs buf 0 (put16 new_id)) as [buf'|] eqn:Hw; [|by rewrite wrs_ok in Hw by (rewrite ?zlen_put16; lia)]. cbn [mbind comp_bind].
  set (r1 := fill_frec _ _ _ _ _ _ _ _ _ _).
  assert (finv m None (with_rng rng' s2)) as I3 by (by destruct I2).
  destruct (first_server_ok m None (c_type ch) now first (with_rng rng' s2) I3) as (start & all & s3 & -> & Hstart & I4 & T4 & V4).
  { change (serv_list (with_rng rng' s2)) with (serv_list s2). by rewrite (proj1 V2). }
  cbn [mret comp_ret]. set (r2 := if all then _ else r1). assert (holds r2 udpaddr dst_addr dst_iface id udpfd crc) as Hh by (unfold r2; destruct all; by split_and!).
  assert (f_new_id r2 = new_id /\ f_sentto r2 = None /\ f_rfd4 r2 = None) as (Hid2 & Hst2 & Hrfd).
  { pose proof (ti_free _ _ (nf_inv _ _ _ _ _ _ N) f r Hf Hr Hst ltac:(done)). unfold r2. destruct all; by split_and!. }
  change (tab (with_rng rng' s2)) with t in T4. eexists _, buf', _. split; [reflexivity|].
  assert (serv_list s3 = serv_list s) as L3 by (rewrite (proj1 V4); exact (proj1 V2)).
  assert (f_orig_id r2 = id /\ f_crc r2 = crc) as [Ho2 Hc2] by (by destruct Hh as (_ & _ & _ & ? & _ & ?)).
  split; [|split].
  - eapply (PlanSend m s _ buf buf' _ f r2 start); cbn [p_forward p_type p_domain p_start p_flags with_tab tab serv_list]; try done.
    + rewrite <- T4. apply (finv_putf _ m None); [done| |].
      * rewrite T4. apply (tinv_putf _ None _ f r); try done; [apply N| |].
        -- by rewrite Hrfd, (ti_free _ _ (nf_inv _ _ _ _ _ _ N) f r Hf Hr Hst).
        -- intros g rg _ _ _ Hu. unfold in_use in Hu. rewrite Hst2 in Hu. by apply bool_decide_eq_true in Hu as [? ?].
      * split; [by rewrite Ho2|by rewrite Hid2|]. intros p. by rewrite Hst2.
    + cbn. apply lookup_insert_eq.
    + intros g rg Hg Hgf Hrg Hu Hidg Hcg. cbn [putf frec_list frecs] in Hg, Hrg. rewrite lookup_insert_ne in Hrg by done.
      apply (Hfree g rg Hg Hrg). split_and!; [by apply bool_decide_eq_true in Hu|congruence|left; congruence].
    + intros E. apply (co_domain _ Hch). by rewrite E.
    + rewrite L3. change (serv_list (with_rng rng' s2)) with (serv_list s2) in Hstart. by rewrite (proj1 V2) in Hstart.
    + by rewrite Hid2.
  - destruct V2 as (V21 & V22 & V23), V4 as (V41 & V42 & V43). split_and!; [exact L3| |]; cbn; [by apply (servers_like_trans _ (servers s2))|by rewrite V43].
  - split.
    + apply (inherits_trans _ t _ (fun _ _ => False)); [done| |done]. apply (only_inherits f r2); [by split|]. rewrite Hst2. by intros [? ?].
    + intros f' [= <-]. cbn [p_type p_domain]. split; [by apply Hfor|]. exists r2. split; [|done]. cbn. apply lookup_insert_eq.
Qed.

(** ** Carrying out a plan *)

Lemma finv_freed m b s f r : finv m b s -> f ∈ frec_list (tab s) -> frecs (tab s) !! f = Some r -> (b = None \/ b = Some f) ->
  exists t, free_frec (tab s) f = Ok t /\ finv m None (with_tab t s) /\ frec_list t = frec_list (tab s) /\ frecs t = <[f := freed_frec r]> (frecs (tab s)).
Proof.
  intros I Hf Hr Hb. destruct (free_frec_ok (tab s) b f r (fi_tab _ _ _ _ I) Hf Hr) as (t & -> & Ht & L & M & _).
  exists t. split; [done|]. split; [|done]. apply (finv_table _ m b); [done| |].
  - by destruct Hb as [-> | ->]; [|rewrite decide_True in Ht].
  - intros g rg. rewrite L, M. intros Hg. destruct (decide (g = f)) as [->|Hne]; [rewrite lookup_insert_eq|rewrite lookup_insert_ne by done; by apply (fi_frecs _ _ _ _ I)].
    intros [= <-]. destruct (fi_frecs _ _ _ _ I f r Hf Hr). by split.
Qed.

(** What is sent to servers for a record: packets with its new identifier. *)
Definition sent_on (s s' : fstate) (f : ptr) (r : frec) (type : Z) (domain : option (list Z)) : Prop :=
  exists packet msgs, msgs <> [] /\ outbox s' = outbox s ++ msgs /\ rd16 packet 0 = Ok (f_new_id r) /\
    Forall (relayed (servers s) (serv_list s) type domain packet) msgs /\
    exists r', f ∈ frec_list (tab s') /\ frecs (tab s') !! f = Some r' /\ same_query r r' /\ is_Some (f_sentto r').

Lemma carry_out_ok m e f r p start udpaddr buf plen gotname s : finv m (Some f) s -> f ∈ frec_list (tab s) -> frecs (tab s) !! f = Some r -> fresh_id (tab s) f r ->
  target_ok (p_type p) (p_domain p) -> p_start p = Some start -> start ∈ serv_list s -> bytes buf -> HEADER <= plen -> plen + SLACK <= zlen buf -> PACKETSZ + SLACK <= zlen buf ->
  rd16 buf 0 = Ok (f_new_id r) ->
  exists done plen' buf' s', carry_out cfg e f p udpaddr buf plen gotname s = Ok (done, plen', buf', s') /\ finv m None s' /\ bytes buf' /\ zlen buf' = zlen buf /\
    HEADER <= plen' /\ plen' + SLACK <= zlen buf /\ serv_list s' = serv_list s /\ servers_like (servers s) (servers s') /\
    inherits (tab s) (tab s') (fun g r' => done = true /\ g = f /\ same_query r r') /\
    if done : bool then sent_on s s' f r (p_type p) (p_domain p)
    else outbox s' = outbox s /\ rd16 buf' 0 = Ok (f_orig_id r) /\ (o_add_mac cfg = None -> plen' = plen /\ forall i, 2 <= i -> rd buf' i = rd buf i).
Proof.
  intros I Hf Hr Hid Ht Hp Hst Hb Hh Hl Hps Hrd. unfold carry_out.
  match goal with |- context [mbind _ ?x] => assert (exists plen' buf', x = Ok (plen', buf') /\ bytes buf' /\ zlen buf' = zlen buf /\ HEADER <= plen' /\
    plen' + SLACK <= zlen buf /\ same_head buf buf' /\ (o_add_mac cfg = None -> plen' = plen /\ buf' = buf)) as (plen' & buf' & -> & Hb' & Hl' & Hh' & Hs' & Hhd & Hnomac) end.
  { destruct udpaddr as [a|]; [|by exists plen, buf]. destruct (o_add_mac cfg) as [arps|] eqn:Ha; [|by exists plen, buf].
    destruct (add_mac_safe arps buf plen PACKETSZ a) as (p' & b' & -> & ? & ? & ? & Hor & ?); [done|by apply (cf_arps _ Hcfg)|done|unfold ROOM, SLACK in *; lia|unfold SLACK in *; lia|].
    exists p', b'. split_and!; try done. destruct Hor as [->|?]; lia. }
  cbn [mbind comp_bind]. rewrite Hp. cbn [of_option mbind comp_bind].
  destruct (walk_exists (serv_list s) start (fi_nodup _ _ _ _ I) Hst) as (rem & Hw & Hlen & Hin).
  destruct (send_loop_ok mix_tab m e f buf' plen' gotname (p_type p) (p_domain p) start Ht (S (length (serv_list s) + length (e_sends e))) rem start false (e_sends e) s r)
    as (fwd & s1 & r1 & msgs & -> & I1 & P1 & H1 & H2); try done; [lia|]. cbn [mbind comp_bind].
  assert (rd16 buf' 0 = Ok (f_new_id r)) as Hrd' by (rewrite <- Hrd; apply rd16_cong; apply Hhd; lia).
  assert (f ∈ frec_list (tab s1)) as Hf1 by (by rewrite (on_list _ _ _ _ (pg_only _ _ _ _ _ _ _ _ _ P1))).
  pose proof (only_lookup _ _ _ _ (pg_only _ _ _ _ _ _ _ _ _ P1)) as Hr1. destruct fwd.
  - eexists true, plen', buf', s1. split; [reflexivity|]. split_and!; try done; try apply P1; [apply (finv_done _ m s1 f r1); auto|apply (only_inherits f r1); [apply P1|intros _; split_and!; [done|done|apply P1]]|].
    exists (take (Z.to_nat plen') buf'), msgs. split_and!; [by destruct H2 as [[?|?] _]|apply P1| |apply P1|].
    + rewrite rd16_take; [done|]. unfold HEADER in *. lia.
    + exists r1. split_and!; auto. apply P1.
  - unfold getf. rewrite Hr1. cbn [of_option mbind comp_bind].
    destruct (wrs_bytes buf' 0 (put16 (f_orig_id r1)) Hb') as (b2 & Hw2 & Hb2 & Hl2 & _); [apply put16_all|lia|rewrite zlen_put16; unfold SLACK, HEADER in *; lia|].
    rewrite Hw2. cbn [mbind comp_bind]. destruct (finv_freed m (Some f) s1 f r1 I1 Hf1 Hr1) as (t & -> & It & Lt & Mt); [by right|]. cbn [mbind comp_bind mret comp_ret].
    eexists false, plen', b2, _. split; [reflexivity|]. split_and!; try done; try apply P1; [congruence| | | |].
    + cbn [with_tab tab]. destruct P1 as [[PL PM] _ _ _ _ _]. apply (only_inherits f (freed_frec r1)); [split; [congruence|]|by intros [? ?]]. by rewrite Mt, PM, insert_insert_eq.
    + change (outbox (with_tab t s1)) with (outbox s1). rewrite (pg_out _ _ _ _ _ _ _ _ _ P1).
      destruct msgs; [by rewrite app_nil_r|]. by destruct H2 as [_ H2]; discriminate H2; right.
    + pose proof (pg_query _ _ _ _ _ _ _ _ _ P1) as (_ & _ & _ & Ho & _). rewrite (rd16_after buf' 0 (f_orig_id r1) b2 Hw2); [by rewrite Ho|lia|].
      apply (fi_frecs _ _ _ _ I1 f r1 Hf1 Hr1).
    + intros Hm. destruct (Hnomac Hm) as [-> <-]. split; [done|]. intros i Hi. apply (rd_wrs_other _ _ _ _ _ Hw2). rewrite zlen_put16. lia.
Qed.

(** ** A query *)

Lemma sent_on_like s0 s s' f r type domain : serv_list s = serv_list s0 -> servers_like (servers s0) (servers s) -> outbox s = outbox s0 ->
  sent_on s s' f r type domain -> sent_on s0 s' f r type domain.
Proof.
  intros L V B (packet & msgs & H1 & H2 & H3 & H4 & H5). exists packet, msgs. split_and!; try done; [by rewrite <- B|]. rewrite L in H4.
  eapply Forall_impl; [exact H4|]. intros x. by apply relayed_like.
Qed.

(** The source address that is asked for when the client is answered. *)
Definition reply_source (d : in_addr) : option in_addr := if o_nowild cfg || o_cleverbind cfg then None else Some d.

(** An answer that dnsmasq makes itself: [setup_reply] of a buffer with the
    identifier of the query; unless the option to add the hardware address is
    set, that buffer is the query behind its flags. *)
Definition own_answer (buf : list Z) (plen id : Z) (packet : list Z) : Prop :=
  exists b n addr flags len b', setup_reply b n addr flags (local_ttl cfg) = Ok (Some len, b') /\ packet = take (Z.to_nat len) b' /\
    rd16 b 0 = Ok id /\ (o_add_mac cfg = None -> n = plen /\ forall i, 4 <= i -> rd b i = rd buf i).

(** What has come of a query: it has been sent on under the identifier of a
    record with the property [Q] to servers with the property [T], or there is
    at most an answer with the identifier it came with. *)
Definition handled (Q : Z -> Z -> ptr -> frec -> Prop) (T : Z -> Z -> Z -> list Z -> Z -> option (list Z) -> Prop)
    (udpfd : Z) (udpaddr : option mysockaddr) (dst_addr : option in_addr) (buf : list Z) (plen : Z) (s : fstate) (v : Z) (s' : fstate) : Prop :=
  exists id crc name gotname qtype name2, rd16 buf 0 = Ok id /\ questions_crc buf plen (namebuff s) = Ok (crc, name) /\
    extract_request buf plen name = Ok (gotname, qtype, name2) /\
    inherits (tab s) (tab s') (fun f r' => exists r p fd packet, Q id crc f r /\ same_query r r' /\
      ToServer p fd packet ∈ outbox s' /\ rd16 packet 0 = Ok (f_new_id r)) /\
    (v = 1 /\ (exists f r type domain, Q id crc f r /\ T id crc gotname name2 type domain /\ sent_on s s' f r type domain) \/
     v = 0 /\ (outbox s' = outbox s \/
       exists a d packet, udpfd <> -1 /\ udpaddr = Some a /\ dst_addr = Some d /\ rd16 packet 0 = Ok id /\ own_answer buf plen id packet /\
         outbox s' = outbox s ++ [ToClient udpfd packet a (reply_source d)])).

Lemma respond_ok m s buf plen p id udpfd a d dst_iface : finv m None s -> bytes buf -> HEADER <= plen -> plen + SLACK <= zlen buf ->
  (p_flags p = F_IPV4 -> exists x, p_addr p = Some x /\ bytes (addr_bytes x)) -> rd16 buf 0 = Ok id ->
  exists len buf' s', setup_reply buf plen (match p_addr p with Some a => addr_bytes a | None => [] end) (p_flags p) (local_ttl cfg) = Ok (len, buf') /\
    send_from udpfd (o_nowild cfg || o_cleverbind cfg) buf' len a d dst_iface s = s' /\ finv m None s' /\ tab s' = tab s /\ bytes buf' /\ zlen buf' = zlen buf /\ serv_list s' = serv_list s /\ servers s' = servers s /\
    (outbox s' = outbox s \/ exists packet, rd16 packet 0 = Ok id /\
       (exists len, setup_reply buf plen (match p_addr p with Some a => addr_bytes a | None => [] end) (p_flags p) (local_ttl cfg) = Ok (Some len, buf') /\
          packet = take (Z.to_nat len) buf') /\
       outbox s' = outbox s ++ [ToClient udpfd packet a (reply_source d)]).
Proof.
  intros I Hb Hh Hl Hflags Hid. destruct (setup_safe plen Hh buf (match p_addr p with Some a => addr_bytes a | None => [] end) (p_flags p) (local_ttl cfg) Hb Hl)
    as (len & buf' & Heq & Hb' & Hl' & Hsame & Hlen).
  { intros Hf. destruct (Hflags Hf) as (x & -> & Hx). split; [by destruct x as [[[]]]|done]. }
  eexists len, buf', _. split; [done|]. split; [done|]. split; [destruct len; [by destruct I|done]|]. split; [by destruct len|]. split; [done|]. split; [done|]. split; [by destruct len|]. split; [by destruct len|].
  destruct len as [n|]; [right|by left]. exists (take (Z.to_nat n) buf'). split; [|split; [by exists n|done]]. specialize (Hlen n eq_refl). unfold HEADER in *.
  rewrite rd16_take by lia. rewrite <- Hid. apply rd16_cong; apply Hsame; lia.
Qed.

Lemma forward_with_plan (Q : Z -> Z -> ptr -> frec -> Prop) T m e udpfd udpaddr dst_addr dst_iface buf plen now forward s :
  finv m None s -> bytes buf -> HEADER <= plen -> plen + SLACK <= zlen buf -> PACKETSZ + SLACK <= zlen buf ->
  (udpfd <> -1 -> is_Some udpaddr /\ is_Some dst_addr /\ forall id crc f r, Q id crc f r -> f_orig_id r = id) ->
  (forall crc gotname id name buf1, is_u16 id -> zlen buf1 = zlen buf -> finv m None (with_name name s) ->
     exists p buf2 s', choose_plan mix_tab id_fuel cfg e udpfd udpaddr dst_addr dst_iface now crc gotname id forward buf1 (with_name name s) = Ok (p, buf2, s') /\
       planned m (with_name name s) s' buf1 buf2 p /\ same_servers (with_name name s) s' /\ inherits (tab s) (tab s') (fun _ _ => False) /\
       forall f r, p_forward p = Some f -> frecs (tab s') !! f = Some r -> Q id crc f r /\ T id crc gotname name (p_type p) (p_domain p)) ->
  exists v buf' s', forward_query mix_tab id_fuel cfg e udpfd udpaddr dst_addr dst_iface buf plen now forward s = Ok (v, buf', s') /\
    finv m None s' /\ bytes buf' /\ zlen buf' = zlen buf /\ serv_list s' = serv_list s /\ servers_like (servers s) (servers s') /\
    handled Q T udpfd udpaddr dst_addr buf plen s v s'.
Proof.
  intros I Hb Hh Hl Hps Hclient Hplan. assert (packet_ok plen (whole plen Hh (zlen buf)) buf) as Hpk by (by split_and!). unfold forward_query.
  destruct (crc_safe plen Hh (whole plen Hh (zlen buf)) buf (namebuff s) Hpk (fi_name _ _ _ _ I)) as (crc & name & Hcrc & Hn). rewrite Hcrc. cbn [mbind comp_bind].
  destruct (request_safe plen Hh (whole plen Hh (zlen buf)) buf name Hpk) as (gotname & qtype & name2 & Hreq & Hn2); [rewrite Hn; apply (fi_name _ _ _ _ I)|].
  rewrite Hreq. cbn [mbind comp_bind].
  assert (finv m None (with_name name2 s)) as I1 by (apply finv_name; [done|rewrite Hn2, Hn; apply (fi_name _ _ _ _ I)]).
  unfold hb4. destruct (rd_ok buf 3) as (h4 & Hh4 & _); [unfold HEADER, SLACK in *; lia|]. rewrite Hh4. cbn [mbind comp_bind]. pose proof (rd_byte _ _ _ Hb Hh4) as B4.
  destruct (wrs_bytes buf 3 [Z.land h4 (255 - HB4_AD)] Hb) as (b1 & Hw1 & Hb1 & Hl1 & _).
  { repeat constructor; apply byte_ops; done || by_decide. } { lia. } { change (zlen [_]) with 1. unfold HEADER, SLACK in *; lia. }
  cbn [wrs] in Hw1. destruct (wr buf 3 _) as [b1'|] eqn:Hw; [|done]. cbn [mbind comp_bind] in Hw1. injection Hw1 as ->. cbn [mbind comp_bind].
  destruct (rd16_ok b1 0 Hb1) as (id & Hid & Hid16); [lia|unfold HEADER, SLACK in *; lia|]. rewrite Hid. cbn [mbind comp_bind].
  assert (rd16 buf 0 = Ok id) as Hid0.
  { rewrite <- Hid. symmetry. apply rd16_cong; apply (rd_wr_other _ _ _ _ _ Hw); lia. }
  destruct (Hplan crc gotname id name2 b1 Hid16 Hl1 I1) as (p & b2 & s2 & -> & Hp & (L2 & V2 & O2) & Hinh & HQ). cbn [mbind comp_bind].
  change (serv_list (with_name name2 s)) with (serv_list s) in L2. change (servers (with_name name2 s)) with (servers s) in V2. change (outbox (with_name name2 s)) with (outbox s) in O2.
  (* the rest, when nothing has been sent *)
  assert (forall plen3 b3 s3, finv m None s3 -> bytes b3 -> zlen b3 = zlen buf -> HEADER <= plen3 -> plen3 + SLACK <= zlen buf -> serv_list s3 = serv_list s ->
    servers_like (servers s) (servers s3) -> outbox s3 = outbox s -> (p_flags p = F_IPV4 -> exists x, p_addr p = Some x /\ bytes (addr_bytes x)) ->
    (udpfd <> -1 -> rd16 b3 0 = Ok id) -> inherits (tab s) (tab s3) (fun _ _ => False) ->
    (o_add_mac cfg = None -> plen3 = plen /\ forall i, 4 <= i -> rd b3 i = rd buf i) ->
    exists v buf' s', (if udpfd =? -1 then mret (0, b3, s3) else
      '(len, buf0) ← setup_reply b3 plen3 (match p_addr p with Some a => addr_bytes a | None => [] end) (p_flags p) (local_ttl cfg);
      a ← of_option NullDeref udpaddr; d ← of_option NullDeref dst_addr; mret (0, buf0, send_from udpfd (o_nowild cfg || o_cleverbind cfg) buf0 len a d dst_iface s3)) = Ok (v, buf', s') /\
      finv m None s' /\ bytes buf' /\ zlen buf' = zlen buf /\ serv_list s' = serv_list s /\ servers_like (servers s) (servers s') /\
      handled Q T udpfd udpaddr dst_addr buf plen s v s') as Hrest.
  { intros plen3 b3 s3 I3 Hb3 Hl3 Hh3 Hs3 L3 V3 O3 Hf Hid3 Hinh3' Hbody. destruct (udpfd =? -1) eqn:Eu; zbool.
    - exists 0, b3, s3. split_and!; try done. exists id, crc, name, gotname, qtype, name2. split_and!; try done; [by apply inherits_none|].
      right. split; [done|]. by left.
    - destruct (Hclient Eu) as ([a Ha] & [d Hd] & _). destruct (respond_ok m s3 b3 plen3 p id udpfd a d dst_iface I3 Hb3 Hh3) as (len & b4 & s4 & Heq4 & Hs4 & I4 & T4 & Hb4 & Hl4 & L4 & V4 & O4); auto; [lia|].
      rewrite Heq4. cbn [mbind comp_bind]. rewrite Ha, Hd. cbn [of_option mbind comp_bind mret comp_ret]. rewrite Hs4. exists 0, b4, s4. split; [done|]. split; [done|]. split; [done|]. split; [congruence|]. split; [congruence|]. split; [by rewrite V4|].
      exists id, crc, name, gotname, qtype, name2. rewrite T4. split_and!; try done; [by apply inherits_none|].
      right. split; [done|]. rewrite <- O3. destruct O4 as [?|(packet & ? & (k & Hk & Hpk') & ?)]; [by left|right]. exists a, d, packet. split_and!; try done.
      exists b3, plen3, (match p_addr p with Some a => addr_bytes a | None => [] end), (p_flags p), k, b4. split_and!; auto. }
  destruct Hp as [Hnone I2 -> Hflags|f r start Hfwd I2 Hf Hr Hfresh Ht Hstart Hstin Hw2 Hflags].
  - rewrite Hnone. cbn [mbind comp_bind]. apply Hrest; try done. intros _. split; [done|]. intros i Hi. apply (rd_wr_other _ _ _ _ _ Hw). lia.
  - rewrite Hfwd. cbn [mbind comp_bind]. destruct (wrs_bytes b1 0 (put16 (f_new_id r)) Hb1) as (b2' & Hw2' & Hb2 & Hl2 & _); [apply put16_all|lia|rewrite zlen_put16; unfold SLACK, HEADER in *; lia|].
    assert (b2' = b2) as -> by congruence. destruct (HQ f r Hfwd Hr) as [HQf HTf].
    destruct (carry_out_ok m e f r p start udpaddr b2 plen gotname s2) as (done' & plen3 & b3 & s3 & -> & I3 & Hb3 & Hl3 & Hh3 & Hs3 & L3 & V3 & Hinh3 & Hdone); try done; try lia.
    { apply (rd16_after b1); [done|lia|]. apply (fi_frecs _ _ _ _ I2 f r Hf Hr). }
    cbn [mbind comp_bind]. assert (serv_list s3 = serv_list s) as L03 by congruence. assert (servers_like (servers s) (servers s3)) as V03 by (by eapply servers_like_trans).
    destruct done'.
    + eexists 1, b3, s3. split; [reflexivity|]. split_and!; try done; [congruence|].
      pose proof (sent_on_like s s2 s3 f r (p_type p) (p_domain p) L2 V2 O2 Hdone) as Hsent. exists id, crc, name, gotname, qtype, name2. split_and!; try done.
      * apply (inherits_trans _ _ _ _ _ Hinh Hinh3). intros g rg (_ & -> & Hq). destruct Hsent as (packet & msgs & Hne & Ho & Hrd & Hall & _).
        destruct msgs as [|x msgs]; [done|]. apply Forall_cons in Hall as [(q & fd & sv & -> & _) _]. exists r, q, fd, packet. split_and!; try done.
        rewrite Ho. apply elem_of_app. right. by left.
      * left. split; [done|]. by exists f, r, (p_type p), (p_domain p).
    + destruct Hdone as (O3 & Hid3 & Hbody). apply Hrest; try done; try lia; try congruence; [rewrite Hflags; by intros| | |].
      * intros Hu. destruct (Hclient Hu) as (_ & _ & Ho). by rewrite Hid3, (Ho id crc f r HQf).
      * apply (inherits_trans _ _ _ _ _ Hinh Hinh3). by intros g rg [? _].
      * intros Hm. destruct (Hbody Hm) as [-> Hi3]. split; [done|]. intros i Hi. rewrite Hi3, (rd_wrs_other _ _ _ _ _ Hw2'), (rd_wr_other _ _ _ _ _ Hw); [done|lia|rewrite zlen_put16; lia|lia].
Qed.

(** The record of a client's query: a new one, or the one of the same query
    that is waiting already. *)
Definition own_query (t : ftab) (udpfd : Z) (a : mysockaddr) (d : in_addr) (iface id crc : Z) (f : ptr) (r : frec) : Prop :=
  holds r a d iface id udpfd crc \/
  exists r0, waiting t f r0 /\ same_query r0 r /\ f_orig_id r0 = id /\ f_crc r0 = crc /\ sockaddr_isequal (f_source r0) a = true.

Lemma own_query_id t udpfd a d iface id crc f r : own_query t udpfd a d iface id crc f r -> f_orig_id r = id.
Proof. intros [(_ & _ & _ & ? & _)|(r0 & _ & (_ & _ & _ & Ho & _) & ? & _)]; congruence. Qed.

(** What [malloc] and the generator are trusted with: memory that is not in
    use, and an identifier that is not in use among the next numbers. *)
Definition env_ok (e : env) (s : fstate) : Prop :=
  (forall f, e_mem e = Some f -> f ∉ frec_list (tab s)) /\ lucky id_fuel 0xffffffff (tab s) (rng s).

(** The servers a client's query goes to: those of the kind and the domain that
    [search_servers] finds for its name, or, when the same query is waiting
    already, those of the kind and the domain of the server it was sent to
    last. *)
Definition target_for (s : fstate) (now : Z) (a : mysockaddr) (id crc gotname : Z) (name : list Z) (type : Z) (domain : option (list Z)) : Prop :=
  found_for s now gotname name type domain \/
  exists f r sp sv, waiting (tab s) f r /\ f_orig_id r = id /\ f_crc r = crc /\ sockaddr_isequal (f_source r) a = true /\
    f_sentto r = Some sp /\ servers s !! sp = Some sv /\ type = Z.land (s_flags sv) SERV_TYPE /\ domain = s_domain sv.

Lemma choose_client_ok m e udpfd a d dst_iface now crc gotname id buf s : finv m None s -> env_ok e s -> is_u16 id -> 4 <= zlen buf ->
  exists p buf2 s', choose_plan mix_tab id_fuel cfg e udpfd (Some a) (Some d) dst_iface now crc gotname id None buf s = Ok (p, buf2, s') /\
    planned m s s' buf buf2 p /\ same_servers s s' /\ inherits (tab s) (tab s') (fun _ _ => False) /\
    forall f r, p_forward p = Some f -> frecs (tab s') !! f = Some r ->
      own_query (tab s) udpfd a d dst_iface id crc f r /\ target_for s now a id crc gotname (namebuff s) (p_type p) (p_domain p).
Proof.
  intros I [Hmem Hluck] Hid Hb. unfold choose_plan. destruct (head (serv_list s)) as [first|] eqn:Hfirst.
  2:{ exists (no_plan 0 None), buf, s. split; [done|]. split; [by apply PlanNone|]. split; [|split; [apply inherits_refl|by intros f]]. split_and!; [done|apply servers_like_refl|done]. }
  assert (first ∈ serv_list s) as Hin by (by apply head_Some_elem_of). cbn [of_option mbind comp_bind].
  destruct (lookup_sender_ok id a crc (tab s) None (fi_tab _ _ _ _ I)) as (res & -> & Hres). cbn [mbind comp_bind]. destruct res as [f|].
  - destruct Hres as (Hf & r & Hr & Hu & Ho & Hc & Ha).
    destruct (plan_retry_ok m s f r first buf I Hf Hr Hu Hin) as (p & b2 & s' & -> & Hp & Hpf & Hs & (r' & Hon & Hq & _) & sp & sv & Hsp & Hsv & Hty & Hdo); [lia|]. exists p, b2, s'.
    split_and!; try done; try apply Hs; [by apply (only_same f r r')|].
    intros f' r2. rewrite Hpf. intros [= <-]. rewrite (only_lookup _ _ _ _ Hon). intros [= <-]. split; [right; by exists r|]. right. by exists f, r, sp, sv.
  - destruct (plan_new_ok m s e udpfd a d dst_iface now crc gotname id first buf I) as (p & b2 & s' & -> & Hp & Hs & Hinh & Hh); try done; [by destruct (serv_list s)|].
    exists p, b2, s'. split_and!; try done; try apply Hs. intros f r Hpf Hr. destruct (Hh f Hpf) as (Hfor & r' & Hr' & H1).
    assert (r' = r) as -> by congruence. by split; left.
Qed.

Lemma forward_client_ok m e udpfd a d dst_iface buf plen now s : finv m None s -> env_ok e s -> bytes buf -> HEADER <= plen -> plen + SLACK <= zlen buf ->
  PACKETSZ + SLACK <= zlen buf ->
  exists v buf' s', forward_query mix_tab id_fuel cfg e udpfd (Some a) (Some d) dst_iface buf plen now None s = Ok (v, buf', s') /\
    finv m None s' /\ bytes buf' /\ zlen buf' = zlen buf /\ serv_list s' = serv_list s /\ servers_like (servers s) (servers s') /\
    handled (own_query (tab s) udpfd a d dst_iface) (target_for s now a) udpfd (Some a) (Some d) buf plen s v s'.
Proof.
  intros I He Hb Hh Hl Hps. apply (forward_with_plan (own_query (tab s) udpfd a d dst_iface) (target_for s now a) m); try done.
  - intros _. split_and!; [done|done|]. apply own_query_id.
  - intros crc gotname id name buf1 Hid Hl1 I1. apply (choose_client_ok m e udpfd a d dst_iface now crc gotname id buf1 (with_name name s)); try done. unfold HEADER, SLACK in *. lia.
Qed.

(** A reply with an error makes the query go to the next server. *)
Lemma forward_again_ok m e f r buf plen now s : finv m None s -> f ∈ frec_list (tab s) -> frecs (tab s) !! f = Some r -> is_Some (f_sentto r) ->
  bytes buf -> HEADER <= plen -> plen + SLACK <= zlen buf -> PACKETSZ + SLACK <= zlen buf ->
  exists v buf' s', forward_query mix_tab id_fuel cfg e (-1) None None 0 buf plen now (Some f) s = Ok (v, buf', s') /\
    finv m None s' /\ bytes buf' /\ zlen buf' = zlen buf /\ serv_list s' = serv_list s /\ servers_like (servers s) (servers s') /\
    handled (fun _ _ f' r' => f' = f /\ same_query r r') (fun _ _ _ _ _ _ => True) (-1) None None buf plen s v s'.
Proof.
  intros I Hf Hr Hu Hb Hh Hl Hps. apply (forward_with_plan (fun _ _ f' r' => f' = f /\ same_query r r') (fun _ _ _ _ _ _ => True) m); try done.
  intros crc gotname id name buf1 Hid Hl1 I1. unfold choose_plan.
  destruct (fi_frecs _ _ _ _ I f r Hf Hr) as [_ _ Hsp]. destruct Hu as [sp Hu]. specialize (Hsp sp Hu). change (serv_list (with_name name s)) with (serv_list s).
  destruct (serv_list s) as [|first l] eqn:Hl0; [by apply elem_of_nil in Hsp|]. cbn [head mbind comp_bind mret comp_ret].
  destruct (plan_retry_ok m (with_name name s) f r first buf1 I1) as (p & b2 & s' & -> & Hp & Hpf & Hs & (r' & Hon & Hq & _) & _); [done|done|by exists sp| | |].
  - change (serv_list (with_name name s)) with (serv_list s). rewrite Hl0. by left.
  - unfold HEADER, SLACK in *. lia.
  - exists p, b2, s'. split_and!; try done; try apply Hs; [apply (only_same f r r'); [done| |done]; by split_and!; [| |exists sp]|].
    intros f' r2. rewrite Hpf. intros [= <-]. rewrite (only_lookup _ _ _ _ Hon). by intros [= <-].
Qed.
End query.

(** * Queries are sent on, or answered *)


(** * A start *)

Definition demo_rng : surf_t := Surf (replicate 32 7) (replicate 12 5) [1; 2; 3; 4; 5; 6; 7; 0x1234] 8.
Definition demo_server : server := Server (SA AF_INET 53 (9, 9, 9, 9)) None None 0 0 0.
Definition demo_cfg : fconfig :=
  Fconfig false true false false false false false false false false None 150 0 4096 0 0 0 [] [] no_locals.
Definition demo_start (c : cache) : fstate :=
  Fstate (Ftab ∅ [] (replicate RANDOM_SOCKS (Randfd 0 0 0)) 0 []) {[9%positive := demo_server]} [9%positive] None 0 0 c (replicate (Z.to_nat MAXDNAME) 0) demo_rng
    None 0 None [].
Definition demo_env : env := Env (Some 1%positive) (Some 20) [].
(** [a.org], of the address. *)
Definition demo_query : list Z :=
  [0; 7; 1; 0; 0; 1; 0; 0; 0; 0; 0; 0] ++ [1; 97; 3; 111; 114; 103; 0; 0; 1; 0; 1] ++ replicate 900 0.

Lemma demo_finv c l : wf demo_mix c l [] -> finv demo_mix (length (l ++ [])) None (demo_start c).
Proof.
  intros W. split; cbn [demo_start tab servers serv_list last_server fcache namebuff rng]; try done.
  - split; cbn [frec_list frecs randomsocks].
    + constructor.
    + intros f Hf. by apply elem_of_nil in Hf.
    + done.
    + intros f r Hf. by apply elem_of_nil in Hf.
    + intros f r i Hf. by apply elem_of_nil in Hf.
    + intros i s [-> _]%lookup_replicate. done.
    + intros f g rf rg Hf. by apply elem_of_nil in Hf.
  - apply NoDup_singleton.
  - intros p ->%list_elem_of_singleton. exists demo_server. by split; [|split; [|by_decide]].
  - by exists l, [].
Qed.

Lemma demo_config : config_ok demo_cfg.
Proof. split; [done|constructor]. Qed.

Lemma demo_env_ok c : env_ok 8 demo_env (demo_start c).
Proof.
  split; [by intros f _ Hf%elem_of_nil|]. eexists. split; [by vm_compute|]. eexists. split; [by left|]. by intros f r Hf%elem_of_nil.
Qed.


(** The packet to the server carries the new identifier, the name is as it
    was. *)
Example query_is_relayed :
  (c ← cache_init demo_mix 2;
   '(v, _, s) ← forward_query demo_mix 8 demo_cfg demo_env 5 (Some (SA AF_INET 1024 (10, 0, 0, 2))) (Some ((10, 0, 0, 1) : in_addr)) 3 demo_query 23 100 None (demo_start c);
   Ok (v, outbox s)) = Ok (1, [ToServer 9%positive 20 ([0x12; 0x34; 1; 0; 0; 1; 0; 0; 0; 0; 0; 0] ++ [1; 97; 3; 111; 114; 103; 0; 0; 1; 0; 1])]).
Proof. vm_compute. reflexivity. Qed.
