(* ===== verification/DmForwardReply.v ===== *)
(** Replies: whatever a packet that claims to be a reply says, nothing goes
    wrong, and what is sent to the client carries the identifier of its
    query. *)
From S2P Require Import Prelude CString Dns Common DmUtil DmName DmPacket DmLru DmCache DmCacheInv DmCacheOps DmAnswer DmFrame DmTable DmMac DmServers DmForward DmForwardInv DmForwardQuery.
Set Warnings "-clear-no-such-hyp,-notation-for-abbreviation".

Section reply.
Context (mix_tab : Z -> Z) (clobbered : Z -> list Z -> list Z) (can_malloc : cache -> bool) (id_fuel : nat) (cfg : fconfig) (Hcfg : config_ok cfg).
Local Notation finv := (finv mix_tab).

(** * Looking at a reply *)

(** The questions of two buffers that agree on them. *)
Lemma agree_questions n a b e : bytes b -> HEADER <= n -> n <= zlen b -> agree n b a -> skip_questions b n = Ok e -> skip_questions a n = Ok e.
Proof.
  intros Hb Hh Hl Hag He. apply (skip_questions_local b a n Hb ltac:(unfold HEADER in *; lia) e He). destruct Hag as (H1 & H2 & H3). split_and!; [done|done|].
  intros i Hi. apply H3. split; [lia|]. destruct (skip_questions_safe b n Hb ltac:(unfold HEADER in *; lia) Hh) as (r & Hr & Hx & _). rewrite He in Hr. injection Hr as <-.
  destruct e as [q|]; cbn in Hi; [specialize (Hx q eq_refl); lia|lia].
Qed.

(** What is known of the pseudo header. *)
Definition behind_header (n : Z) (buf : list Z) (ph : option pseudo) : Prop :=
  exists q, skip_questions buf n = Ok q /\ match q with Some e => pseudo_in n e ph | None => ph = None end.

Record pseudo_known (n : Z) (buf : list Z) (ph : option pseudo) : Prop := {
  pk_in : pseudo_in n HEADER ph;
  pk_count : ph <> None -> exists ar, arcount buf = Ok ar /\ ar <> 0;
  pk_behind : forall h3, hb3 buf = Ok h3 -> OPCODE h3 = 0 -> behind_header n buf ph }.

Lemma find_known buf n : bytes buf -> HEADER <= n -> n <= zlen buf ->
  exists ph sign, find_pseudoheader buf n true = Ok (ph, sign) /\ pseudo_known n buf ph.
Proof.
  intros Hb Hh Hl. destruct (pseudo_safe buf n Hb Hh Hl true) as (r & sign & -> & H1 & H2 & H3). exists r, sign. split; [done|]. split; [done|done|].
  intros h3 Hh3 Ho. apply (H3 h3 Hh3). by right.
Qed.

(** Writing to the flags, or to the pseudo header, changes nothing of it. *)
Lemma known_wrs buf n ph i bs buf' : bytes buf -> HEADER <= n -> n <= zlen buf -> pseudo_known n buf ph -> wrs buf i bs = Ok buf' ->
  (3 <= i /\ i + zlen bs <= 4 \/ exists st len sz, ph = Some (st, len, sz) /\ sz <= i) -> pseudo_known n buf' ph.
Proof.
  intros Hb Hh Hl [K1 K2 K3] Hw Hi. pose proof (zlen_nonneg bs) as Hn.
  assert (forall j, j < 3 \/ 4 <= j < HEADER -> rd buf' j = rd buf j) as Hhead.
  { intros j Hj. unfold HEADER in *. apply (rd_wrs_other _ _ _ _ j Hw). destruct Hi as [?|(st & len & sz & -> & ?)]; [lia|]. destruct (K1 st len sz eq_refl). lia. }
  split; [done| |].
  - intros Hp. destruct (K2 Hp) as (ar & Har & ?). exists ar. split; [|done]. rewrite <- Har. unfold arcount. apply rd16_cong; apply Hhead; unfold HEADER; lia.
  - intros h3 Hh3 Ho. unfold hb3 in Hh3. rewrite Hhead in Hh3 by lia. destruct (K3 h3 Hh3 Ho) as (q & Hq & Hp). exists q. split; [|done].
    apply (skip_questions_local buf buf' n Hb ltac:(unfold HEADER in *; lia) q Hq). split_and!; [symmetry; apply Hhead; unfold HEADER; lia|symmetry; apply Hhead; unfold HEADER; lia|].
    intros j Hj. symmetry. apply (rd_wrs_other _ _ _ _ j Hw). unfold HEADER in *. destruct Hi as [?|(st & len & sz & -> & ?)]; [lia|].
    destruct q as [e|]; cbn in Hj; [|done]. destruct (Hp st len sz eq_refl). lia.
Qed.

Lemma trim_ok buf n : bytes buf -> HEADER <= n -> n <= zlen buf ->
  exists ph sign buf', trim_size cfg buf n = Ok (ph, sign, buf') /\ bytes buf' /\ zlen buf' = zlen buf /\ pseudo_known n buf' ph.
Proof.
  intros Hb Hh Hl. unfold trim_size. destruct (find_known buf n Hb Hh Hl) as (ph & sign & -> & K). cbn [mbind comp_bind].
  match goal with |- context [mbind _ ?x] => assert (exists b1, x = Ok b1 /\ bytes b1 /\ zlen b1 = zlen buf /\ pseudo_known n b1 ph) as (b1 & -> & Hb1 & Hl1 & K1) end.
  { destruct ph as [[[st len] sz]|]; [|by exists buf]. destruct (sign =? 0); [|by exists buf]. destruct (pk_in _ _ _ K st len sz eq_refl) as (H1 & H2 & H3 & H4). unfold HEADER in *.
    destruct (rd16_ok buf sz Hb) as (u & -> & _); [lia|lia|]. cbn [mbind comp_bind]. case_if; [|by exists buf].
    destruct (wrs_bytes buf sz (put16 (edns_pktsz cfg)) Hb) as (b & Hw & Hbb & Hlb & _); [apply put16_all|lia|rewrite zlen_put16; lia|].
    exists b. split_and!; try done. apply (known_wrs buf n _ sz _ b Hb Hh Hl K Hw). right. by exists st, len, sz. }
  cbn [mbind comp_bind]. unfold hb4. destruct (rd_ok b1 3) as (h4 & Hh4 & _); [unfold HEADER in *; lia|]. rewrite Hh4. pose proof (rd_byte _ _ _ Hb1 Hh4) as B4. cbn [mbind comp_bind].
  case_if; [|cbn [mbind comp_bind mret comp_ret]; by exists ph, sign, b1].
  destruct (wrs_bytes b1 3 [Z.land h4 (255 - HB4_AD)] Hb1) as (b2 & Hw & Hb2 & Hl2 & _).
  { repeat constructor; apply byte_ops; done || by_decide. } { lia. } { change (zlen [_]) with 1. unfold HEADER in *; lia. }
  pose proof Hw as Hw1. cbn [wrs] in Hw1. destruct (wr b1 3 _) as [b2'|]; [|done]. cbn [mbind comp_bind] in Hw1. injection Hw1 as ->. cbn [mbind comp_bind mret comp_ret].
  exists ph, sign, b2. split_and!; try done; [congruence|]. apply (known_wrs b1 n ph 3 _ b2 Hb1 Hh ltac:(lia) K1 Hw). left. change (zlen [_]) with 1. lia.
Qed.

(** * What the rest of the program sees of it *)

(** The table of queries, the list of servers and what has been sent stay. *)
Definition quiet (s s' : fstate) : Prop := tab s' = tab s /\ serv_list s' = serv_list s /\ outbox s' = outbox s.

Lemma quiet_trans a b c : quiet a b -> quiet b c -> quiet a c.
Proof. intros (? & ? & ?) (? & ? & ?). split_and!; congruence. Qed.

Lemma flag_ok sv k : 0 <= k -> k <> 3 -> server_ok sv -> server_ok (set_sflags (Z.lor (s_flags sv) (2 ^ k)) sv).
Proof.
  intros Hk Hne [H1 H2]. split; [|done]. cbn [set_sflags s_flags s_domain]. intros H. apply H1. revert H. change SERV_HAS_DOMAIN with (2 ^ 3).
  rewrite !has_bit, Z.lor_spec by lia. rewrite (Z.pow2_bits_false k 3) by lia. by rewrite orb_false_r.
Qed.

Lemma complain_ok m b h4 an serv s : finv m b s -> (forall p, serv = Some p -> p ∈ serv_list s) ->
  exists s', complain cfg h4 an serv s = Ok s' /\ finv m b s' /\ quiet s s'.
Proof.
  intros I Hs. unfold complain. destruct serv as [p|]; [|by exists s]. destruct (fi_known _ _ _ _ I p (Hs p eq_refl)) as (sv & Hsv & Hok).
  unfold getserv. rewrite Hsv. cbn [of_option mbind comp_bind]. case_if; [|by exists s]. set (s1 := with_name _ s).
  assert (finv m b s1) as I1.
  { apply finv_name; [done|]. pose proof (fi_name _ _ _ _ I) as Hn. pose proof (inet_ntoa_len (sin_addr (s_addr sv))) as Ha. unfold MAXDNAME in *.
    rewrite (zlen_blit (namebuff s) 0); rewrite ?zlen_app; change (zlen [0]) with 1; lia. }
  eexists. split; [reflexivity|]. destruct (o_log cfg); cbn [negb]; [done|]. split; [|done]. apply finv_server; [done|by apply Hs|by apply (flag_ok sv 6)].
Qed.

Section region.
Context (n : Z) (Hh : HEADER <= n) (g : region n).

(** Two bytes of the header, which the caller has read. *)
Lemma flags_writable buf i v : packet_ok n g buf -> 2 <= i < 4 -> is_byte v -> exists buf', wr buf i v = Ok buf' /\ packet_ok n g buf'.
Proof.
  intros Hp Hi Hv. destruct (packet_wrs n g buf i [v] Hp) as (b & Hw & Hpb); [by apply Forall_singleton|left; change (zlen [v]) with 1; lia| |].
  - change (zlen [v]) with 1. unfold HEADER, SLACK in *. lia.
  - cbn [wrs] in Hw. destruct (wr buf i v) as [b'|]; [|done]. cbn [mbind comp_bind] in Hw. injection Hw as ->. by exists b.
Qed.

Lemma rcode_byte h4 v : is_byte h4 -> 0 <= v < 256 -> is_byte (SET_RCODE h4 v).
Proof. intros H4 Hv. unfold SET_RCODE. apply byte_ops; [|done]. apply byte_ops; [done|by_decide]. Qed.

Lemma munge_ok m b buf now is_sign check cd h3 h4 s : finv m b s -> packet_ok n g buf -> is_byte h3 -> is_byte h4 ->
  exists munged buf' s', munge mix_tab clobbered can_malloc cfg buf now n is_sign check cd h3 h4 s = Ok (munged, buf', s') /\ finv m b s' /\ packet_ok n g buf' /\ quiet s s'.
Proof.
  intros I Hp B3 B4. unfold munge.
  match goal with |- context [mbind _ ?x] => assert (exists bogus s1, x = Ok (bogus, s1) /\ finv m b s1 /\ quiet s s1) as (bogus & s1 & -> & I1 & Q1) end.
  { case_if; [|by exists false, s]. destruct (bogus_wildcard_ok mix_tab clobbered (max_cache_ttl cfg) can_malloc n Hh g m buf (namebuff s) (bogus_addr cfg) now (fcache s) Hp)
      as (bg & nm & c & -> & Hn & Hc); [apply I|apply I|]. cbn [mbind comp_bind mret comp_ret]. eexists bg, _. split; [reflexivity|]. split; [|done].
    apply finv_cache; [by apply finv_name|done]. }
  cbn [mbind comp_bind]. assert (0 <= NXDOMAIN < 256 /\ 0 <= NOERROR < 256) as [Hnx Hno] by done. destruct bogus.
  { destruct (flags_writable buf 3 _ Hp ltac:(lia) (rcode_byte h4 NXDOMAIN B4 Hnx)) as (b1 & -> & Hp1). cbn [mbind comp_bind].
    destruct (flags_writable b1 2 (Z.land h3 (255 - HB3_AA)) Hp1 ltac:(lia)) as (b2 & -> & Hp2); [by apply byte_ops; [|by_decide]|]. cbn [mbind comp_bind mret comp_ret]. by eexists true, b2, s1. }
  match goal with |- context [mbind _ ?x] => assert (exists local s2, x = Ok (local, s2) /\ finv m b s2 /\ quiet s s2) as (local & s2 & -> & I2 & Q2) end.
  { case_if; [|by exists false, s1]. destruct (request_safe n Hh g buf (namebuff s1) Hp (fi_name _ _ _ _ I1)) as (got & t & nm & -> & Hn). cbn [mbind comp_bind].
    assert (finv m b (with_name nm s1)) as I2 by (apply finv_name; [done|rewrite Hn; apply I1]). case_if; [|by eexists false, _].
    destruct (local_ok mix_tab m (cfg_locals cfg) (fcache (with_name nm s1)) (cstr (namebuff (with_name nm s1))) now) as (lb & c & -> & Hc); [apply I2|].
    cbn [mbind comp_bind mret comp_ret]. eexists lb, _. split; [reflexivity|]. split; [by apply finv_cache|done]. }
  cbn [mbind comp_bind].
  match goal with |- context [mbind _ ?x] => assert (exists b1, x = Ok b1 /\ packet_ok n g b1) as (b1 & -> & Hp1) end.
  { destruct local; [|by exists buf]. destruct (flags_writable buf 2 (Z.lor h3 HB3_AA) Hp ltac:(lia)) as (b1 & -> & Hp1); [by apply byte_ops; [|by_decide]|]. cbn [mbind comp_bind].
    by destruct (flags_writable b1 3 _ Hp1 ltac:(lia) (rcode_byte h4 NOERROR B4 Hno)) as (b2 & -> & Hp2); exists b2. }
  cbn [mbind comp_bind]. destruct (fi_cache _ _ _ _ I2) as (l & nc & W & Hlen).
  destruct (extract_safe mix_tab clobbered (max_cache_ttl cfg) (max_ttl cfg) (neg_ttl cfg) (doctors cfg) can_malloc (o_log cfg) (o_no_neg cfg) (o_local_rebind cfg) n now
    (negb (is_sign =? 0)) check Hh (cf_doctors _ Hcfg) g b1 (namebuff s2) (fcache s2) l nc cd W Hp1) as (v & b2 & nm & c' & l' & nc' & -> & W' & Hl' & Hp2 & Hn'); [apply I2|].
  cbn [mbind comp_bind mret comp_ret]. eexists _, b2, _. split; [reflexivity|]. split_and!; try done; try apply Q2.
  apply finv_cache; [by apply finv_name|]. exists l', nc'. split; [done|lia].
Qed.
End region.

(** * The length of what is sent on *)

(** The counts of the records are cleared. *)
Lemma clear_counts buf : bytes buf -> HEADER <= zlen buf ->
  exists buf', wrs buf 6 (put16 0 ++ put16 0 ++ put16 0) = Ok buf' /\ bytes buf' /\ zlen buf' = zlen buf /\
    ancount buf' = Ok 0 /\ nscount buf' = Ok 0 /\ (forall i, i < 6 \/ HEADER <= i -> rd buf' i = rd buf i).
Proof.
  intros Hb Hl. unfold HEADER in *. destruct (wrs_bytes buf 6 (put16 0 ++ put16 0 ++ put16 0) Hb) as (b & Hw & Hbb & Hlb & _);
    [by_decide|lia|change (zlen (put16 0 ++ put16 0 ++ put16 0)) with 6; lia|].
  assert (forall k, (k < 6)%nat -> rd b (6 + Z.of_nat k) = Ok 0) as Hz.
  { intros k Hk. apply (rd_wrs_in _ _ _ _ k 0 Hw); [done|]. by do 6 (destruct k as [|k]; [done|]); lia. }
  exists b. split_and!; try done.
  - unfold ancount, rd16. change (6 + 1) with 7. by rewrite (Hz 0%nat ltac:(lia) : rd b 6 = _), (Hz 1%nat ltac:(lia) : rd b 7 = _).
  - unfold nscount, rd16. change (8 + 1) with 9. by rewrite (Hz 2%nat ltac:(lia) : rd b 8 = _), (Hz 3%nat ltac:(lia) : rd b 9 = _).
  - intros i Hi. apply (rd_wrs_other _ _ _ _ i Hw). change (zlen (put16 0 ++ put16 0 ++ put16 0)) with 6. lia.
Qed.

(** The pseudo header fits when it is put back behind the questions. *)
Lemma put_back_ok buf n ph e : bytes buf -> HEADER <= n -> n <= zlen buf -> pseudo_in n HEADER ph ->
  skip_questions buf n = Ok e -> (forall q, e = Some q -> pseudo_in n q ph) ->
  (ph <> None -> (exists ar, arcount buf = Ok ar /\ ar <> 0) \/ ancount buf = Ok 0 /\ nscount buf = Ok 0) ->
  exists nn buf', resize_packet buf n (ph_start ph) (ph_len ph) = Ok (nn, buf') /\
    bytes buf' /\ zlen buf' = zlen buf /\ HEADER <= nn <= n /\ (forall i, 0 <= i < 10 -> rd buf' i = rd buf i).
Proof.
  intros Hb Hh Hl Hin He Hq Hor.
  assert (forall st len sz, ph = Some (st, len, sz) -> 0 <= st /\ 0 <= len /\ st + len <= n /\ forall q, skip_questions buf n = Ok (Some q) -> q <= st) as Hph.
  { intros st len sz Hph. destruct (Hin st len sz Hph). unfold HEADER in *. split_and!; [lia|lia|lia|]. intros q Hs. rewrite He in Hs. injection Hs as ->.
    destruct (Hq q eq_refl st len sz Hph). lia. }
  destruct (resize_ok buf n (ph_start ph) (ph_len ph) Hb Hh Hl)
    as (nn & b & -> & Hbb & Hlb & Hnn & Hle & Hrd).
  - destruct ph as [[[st len] sz]|]; cbn [ph_start ph_len]; [|done]. intros p [= <-]. destruct (Hph st len sz eq_refl) as (H1 & H2 & H3 & H4). split_and!; [lia|lia|lia|].
    destruct Hor as [?|[? ?]]; [done|by left|right]. split_and!; [done|done|]. intros q Hs. specialize (H4 q Hs). lia.
  - exists nn, b. split_and!; try done. destruct Hle as [?|(p & q & Hp & Hs & ->)]; [done|]. destruct ph as [[[st len] sz]|]; cbn [ph_start ph_len] in *; [|done].
    destruct (Hph st len sz eq_refl) as (H1 & H2 & H3 & H4). specialize (H4 q Hs). lia.
Qed.

Lemma process_reply_ok m b buf now serv n check cd s : finv m b s -> bytes buf -> HEADER <= n -> n + SLACK <= zlen buf -> (forall p, serv = Some p -> p ∈ serv_list s) ->
  exists nn buf' s', process_reply mix_tab clobbered can_malloc cfg buf now serv n check cd s = Ok (nn, buf', s') /\ finv m b s' /\ quiet s s' /\
    bytes buf' /\ zlen buf' = zlen buf /\ HEADER <= nn <= n.
Proof.
  intros I Hb Hh Hl Hs. assert (n <= zlen buf) as Hn by (unfold SLACK in *; lia). unfold process_reply.
  destruct (trim_ok buf n Hb Hh Hn) as (ph & sign & b1 & -> & Hb1 & Hl1 & [K1 K2 K3]). cbn [mbind comp_bind]. unfold hb3, hb4, ancount.
  destruct (rd_ok b1 2) as (h3 & Hh3 & _); [unfold HEADER in *; lia|]. destruct (rd_ok b1 3) as (h4 & Hh4 & _); [unfold HEADER in *; lia|]. rewrite Hh3, Hh4. cbn [mbind comp_bind].
  pose proof (rd_byte _ _ _ Hb1 Hh3) as B3. pose proof (rd_byte _ _ _ Hb1 Hh4) as B4.
  destruct (negb (OPCODE h3 =? 0)) eqn:Eo; cbn [orb]; [exists n, b1, s; split_and!; done || lia|]. apply negb_false_iff, Z.eqb_eq in Eo.
  case_if; [exists n, b1, s; split_and!; done || lia|].
  destruct (header_field b1 n Hb1 Hh ltac:(lia) 6) as (an & -> & _); [lia|]. cbn [mbind comp_bind].
  destruct (complain_ok m b h4 an serv s I Hs) as (s1 & -> & I1 & Q1). cbn [mbind comp_bind].
  destruct (munge_ok n Hh (behind_questions n Hh b1 Hb1 ltac:(lia)) m b b1 now sign check cd h3 h4 s1 I1) as (munged & b2 & s2 & -> & I2 & (Hb2 & Hl2 & _ & Hag & Hcnt) & Q2); try done.
  { apply behind_ok. lia. }
  change (zlen b2 = zlen b1) in Hl2. cbn [mbind comp_bind].
  destruct (K3 h3 Hh3 Eo) as (q & Hq & Hbehind).
  destruct (question_end_ok n Hh b1 Hb1 ltac:(lia)) as (r & Hr & Hend & _ & _). assert (r = q) as -> by congruence.
  (* what is read by [resize_packet] *)
  assert (exists b3, (if munged : bool then wrs b2 6 (put16 0 ++ put16 0 ++ put16 0) else mret b2) = Ok b3 /\ bytes b3 /\ zlen b3 = zlen buf /\ skip_questions b3 n = Ok q /\
    (ph <> None -> (exists ar, arcount b3 = Ok ar /\ ar <> 0) \/ ancount b3 = Ok 0 /\ nscount b3 = Ok 0)) as (b3 & -> & Hb3 & Hl3 & Hq3 & Hcase).
  { assert (forall b3, (forall i, i < 6 \/ HEADER <= i -> rd b3 i = rd b2 i) -> skip_questions b3 n = Ok q) as Hskip.
    { intros b3 Hsame. apply (skip_questions_local b1 b3 n Hb1 ltac:(unfold HEADER in *; lia) q Hq). rewrite <- Hend. destruct Hag as (A1 & A2 & A3). unfold HEADER in *.
      split_and!; [rewrite A1; symmetry; apply Hsame; lia|rewrite A2; symmetry; apply Hsame; lia|]. intros i Hi. rewrite A3 by done. symmetry. apply Hsame. unfold HEADER in *. lia. }
    destruct munged.
    - destruct (clear_counts b2 Hb2) as (b3 & -> & Hb3 & Hl3 & Han & Hns & Hsame); [unfold HEADER in *; lia|]. exists b3. split_and!; auto; lia.
    - exists b2. split_and!; auto; [lia|]. intros Hp. left. destruct (K2 Hp) as (ar & Har & ?). exists ar. split; [|done]. rewrite <- Har. unfold arcount. symmetry.
      apply rd16_cong; apply Hcnt; unfold HEADER; lia. }
  cbn [mbind comp_bind]. destruct (put_back_ok b3 n ph q Hb3 Hh ltac:(lia) K1 Hq3) as (nn & b4 & -> & Hb4 & Hl4 & Hnn & _); [|done|].
  { intros e ->. exact Hbehind. }
  cbn [mbind comp_bind mret comp_ret]. exists nn, b4, s2. split_and!; try done; try lia; try apply (quiet_trans _ _ _ Q1 Q2).
Qed.

(** * A query that is asked of the next server *)

(** The buffer is large enough for a reply with an error: when it does not look
    like the reply to a query, the pseudo header is looked for in front of
    where the questions end, and putting it back makes the message longer. *)
Definition room (buf : list Z) (n : Z) : Prop :=
  n + SLACK <= zlen buf /\ PACKETSZ + SLACK <= zlen buf /\ (forall h3, hb3 buf = Ok h3 -> OPCODE h3 = 0 \/ 2 * n + SLACK <= zlen buf).

Lemma remake_ok buf n : bytes buf -> HEADER <= n -> room buf n ->
  exists res buf', remake_query buf n = Ok (res, buf') /\ bytes buf' /\ zlen buf' = zlen buf /\
    match res with Some nn => HEADER <= nn /\ nn + SLACK <= zlen buf | None => forall i, 0 <= i < 4 -> rd buf' i = rd buf i end.
Proof.
  intros Hb Hh (Hl & _ & Hop). assert (n <= zlen buf) as Hn by (unfold SLACK in *; lia). unfold remake_query.
  destruct (find_known buf n Hb Hh Hn) as (ph & sign & -> & [K1 K2 K3]). cbn [mbind comp_bind]. case_if; [by exists None, buf|].
  destruct (clear_counts buf Hb) as (b1 & -> & Hb1 & Hl1 & Han & Hns & Hsame); [unfold HEADER in *; lia|]. cbn [mbind comp_bind].
  assert (forall q, skip_questions buf n = Ok q -> skip_questions b1 n = Ok q) as Hskip.
  { intros q Hq. apply (skip_questions_local buf b1 n Hb ltac:(unfold HEADER in *; lia) q Hq). unfold HEADER in *.
    split_and!; try (symmetry; apply Hsame; lia). intros i Hi. symmetry. apply Hsame. unfold HEADER in *. lia. }
  destruct (rd_ok buf 2) as (h3 & Hh3 & _); [unfold HEADER in *; lia|].
  assert (exists nn b2, resize_packet b1 n (ph_start ph) (ph_len ph) = Ok (nn, b2) /\ bytes b2 /\ zlen b2 = zlen buf /\ HEADER <= nn /\ nn + SLACK <= zlen buf /\
    forall i, 0 <= i < 10 -> rd b2 i = rd b1 i) as (nn & b2 & -> & Hb2 & Hl2 & Hnn & Hfit & Hrd).
  { destruct (Hop h3 Hh3) as [Ho|Hbig].
    - destruct (K3 h3 Hh3 Ho) as (q & Hq & Hbehind).
      destruct (put_back_ok b1 n ph q Hb1 Hh ltac:(lia) K1 (Hskip q Hq)) as (nn & b2 & -> & Hb2 & Hl2 & Hnn & Hrd); [by intros e ->|by right|].
      exists nn, b2. split_and!; try done; lia.
    - destruct (resize_ok b1 n (ph_start ph) (ph_len ph) Hb1 Hh ltac:(lia)) as (nn & b2 & -> & Hb2 & Hl2 & Hnn & Hle & Hrd).
      + destruct ph as [[[st len] sz]|]; cbn [ph_start ph_len]; [|done]. intros p [= <-]. destruct (K1 st len sz eq_refl). unfold HEADER, SLACK in *. split_and!; [lia|lia|lia|]. right.
        split_and!; [done|done|]. intros e He. destruct (skip_questions_safe b1 n Hb1 ltac:(lia) ltac:(unfold HEADER; lia)) as (r & Hr & Hx & _). rewrite He in Hr. injection Hr as <-.
        specialize (Hx e eq_refl). unfold HEADER in *. lia.
      + exists nn, b2. split_and!; try done; [lia|]. destruct Hle as [?|(p & e & Hp & He & ->)]; [lia|].
        destruct ph as [[[st len] sz]|]; cbn [ph_start ph_len] in *; [|done]. destruct (K1 st len sz eq_refl).
        destruct (skip_questions_safe b1 n Hb1 ltac:(unfold HEADER in *; lia) Hh) as (r & Hr & Hx & _). rewrite He in Hr. injection Hr as <-. specialize (Hx e eq_refl). unfold HEADER in *. lia. }
  cbn [mbind comp_bind]. assert ((nn =? 0) = false) as -> by (apply Z.eqb_neq; unfold HEADER in *; lia).
  unfold hb3. destruct (rd_ok b2 2) as (h3' & Hh3' & _); [unfold HEADER in *; lia|]. rewrite Hh3'. cbn [mbind comp_bind]. pose proof (rd_byte _ _ _ Hb2 Hh3') as B3.
  destruct (wrs_bytes b2 2 [Z.land h3' (255 - Z.lor HB3_QR HB3_TC)] Hb2) as (b3 & Hw & Hb3 & Hl3 & _).
  { repeat constructor; apply byte_ops; done || by_decide. } { lia. } { change (zlen [_]) with 1. unfold HEADER in *; lia. }
  cbn [wrs] in Hw. destruct (wr b2 2 _) as [b3'|]; [|done]. cbn [mbind comp_bind] in Hw. injection Hw as ->. cbn [mbind comp_bind mret comp_ret].
  exists (Some nn), b3. split_and!; try done. congruence.
Qed.

(** * The reply and the query *)

Lemma find_server_ok m b s without addr : finv m b s -> forall l, (forall p, p ∈ l -> p ∈ serv_list s) ->
  exists res, find_server s without addr l = Ok res /\
    match res with
    | Some p => p ∈ l /\ exists sv, servers s !! p = Some sv /\ has (s_flags sv) without = false /\ sockaddr_isequal (s_addr sv) addr = true
    | None => forall p sv, p ∈ l -> servers s !! p = Some sv -> has (s_flags sv) without = false -> sockaddr_isequal (s_addr sv) addr = false
    end.
Proof.
  intros I l. induction l as [|p l IH]; intros Hl; cbn [find_server]; [exists None; split; [done|]; intros ? ? Hp; by apply elem_of_nil in Hp|].
  destruct (fi_known _ _ _ _ I p) as (sv & Hsv & _); [apply Hl; by left|]. unfold getserv. rewrite Hsv. cbn [of_option mbind comp_bind].
  destruct (negb (has (s_flags sv) without) && sockaddr_isequal (s_addr sv) addr) eqn:E.
  - apply andb_true_iff in E as [E1%negb_true_iff E2]. exists (Some p). split; [done|]. split; [by left|]. by exists sv.
  - destruct IH as (res & -> & Hres); [intros q Hq; apply Hl; by right|]. exists res. split; [done|]. destruct res as [q|].
    + destruct Hres as [? ?]. split; [by right|done].
    + intros q sq [->|Hq]%elem_of_cons Hsq Hf; [|by apply (Hres q sq)]. assert (sq = sv) as -> by congruence. rewrite Hf in E. exact E.
Qed.

(** A server that is asked has the address. *)
Definition known_server (s : fstate) (addr : mysockaddr) : Prop := exists p sv, p ∈ serv_list s /\ servers s !! p = Some sv /\
  has (s_flags sv) (Z.lor SERV_LITERAL_ADDRESS SERV_NO_ADDR) = false /\ sockaddr_isequal (s_addr sv) addr = true.

(** The reply is taken for the one to the query of a record: it comes from a
    server, and has the identifier and the checksum of the questions. *)
Definition accepted (buf : list Z) (n : Z) (addr : mysockaddr) (s : fstate) (f : ptr) (r : frec) : Prop :=
  known_server s addr /\ HEADER <= n /\ (exists h3, hb3 buf = Ok h3 /\ has h3 HB3_QR = true) /\
  exists id crc name, rd16 buf 0 = Ok id /\ questions_crc buf n (namebuff s) = Ok (crc, name) /\
    f ∈ frec_list (tab s) /\ frecs (tab s) !! f = Some r /\ asked id crc r.

Definition is_refused (buf : list Z) : Prop := exists h4, hb4 buf = Ok h4 /\ refused h4 = true.

(** What comes of a packet that claims to be a reply. *)
Inductive replied (buf : list Z) (n : Z) (addr : mysockaddr) (s s' : fstate) : Prop :=
| Ignored : (forall f r, ~ accepted buf n addr s f r) -> outbox s' = outbox s -> replied buf n addr s s'
| Waits f r : accepted buf n addr s f r -> is_refused buf -> outbox s' = outbox s -> replied buf n addr s s'
| Again f r : accepted buf n addr s f r -> is_refused buf ->
    (outbox s' = outbox s \/ exists r' type domain, same_query r r' /\ sent_on s s' f r' type domain) -> replied buf n addr s s'
| Delivered f r packet : accepted buf n addr s f r -> outbox s' = outbox s ++ [ToClient (f_fd r) packet (f_source r) (reply_source cfg (f_dest r))] ->
    rd16 packet 0 = Ok (f_orig_id r) -> (exists r', frecs (tab s') !! f = Some r' /\ f_sentto r' = None) ->
    replied buf n addr s s'.

Lemma finv_last m b s v : finv m b s -> (forall p, v = Some p -> p ∈ serv_list s) -> finv m b (with_last v s).
Proof. intros [] Hv. by split. Qed.

Lemma mark_ok m b addr h4 sp s : finv m b s -> sp ∈ serv_list s ->
  exists serv s', mark_server cfg addr h4 sp s = Ok (serv, s') /\ finv m b s' /\ quiet s s' /\ (forall p, serv = Some p -> p ∈ serv_list s).
Proof.
  intros I Hsp. destruct (fi_known _ _ _ _ I sp Hsp) as (sv & Hsv & _). unfold mark_server, getserv. rewrite Hsv. cbn [of_option mbind comp_bind].
  case_if; [|exists (Some sp), s; split_and!; try done; by intros p [= <-]].
  match goal with |- context [mbind _ ?x] => assert (exists serv, x = Ok serv /\ forall p, serv = Some p -> p ∈ serv_list s) as (serv & -> & Hserv) end.
  { case_if; [by exists None|]. edestruct (find_server_ok m b s) as (good & -> & Hg); [done|by intros p Hp|]. cbn [mbind comp_bind mret comp_ret]. eexists. split; [done|].
    intros p Hp. destruct good as [q|]; [|by injection Hp as <-]. injection Hp as <-. apply Hg. }
  cbn [mbind comp_bind mret comp_ret]. eexists serv, _. split; [reflexivity|]. destruct (o_all_servers cfg); [done|]. split; [by apply finv_last|done].
Qed.

Lemma finv_forwardall m s f r v : finv m None s -> f ∈ frec_list (tab s) -> frecs (tab s) !! f = Some r -> finv m None (with_tab (putf (tab s) f (with_forwardall v r)) s).
Proof.
  intros I Hf Hr. apply (finv_putf _ m None); [done| |].
  - apply (tinv_putf _ None _ f r); try done; [apply I| |].
    + intros Hst Hb. by apply (ti_free _ _ (fi_tab _ _ _ _ I) f r).
    + intros g rg Hg Hne Hrg Hu1 Hu2 Hid. by apply (ti_ids _ _ (fi_tab _ _ _ _ I) f g r rg Hf Hg).
  - destruct (fi_frecs _ _ _ _ I f r Hf Hr). by split.
Qed.

Lemma deliver_ok m f r serv buf n now s : finv m None s -> f ∈ frec_list (tab s) -> frecs (tab s) !! f = Some r -> bytes buf -> HEADER <= n -> n + SLACK <= zlen buf ->
  (forall p, serv = Some p -> p ∈ serv_list s) ->
  exists packet s', deliver mix_tab clobbered can_malloc cfg f serv buf n now s = Ok s' /\ finv m None s' /\ frec_list (tab s') = frec_list (tab s) /\ frecs (tab s') = <[f := freed_frec r]> (frecs (tab s)) /\
    outbox s' = outbox s ++ [ToClient (f_fd r) packet (f_source r) (reply_source cfg (f_dest r))] /\ rd16 packet 0 = Ok (f_orig_id r).
Proof.
  intros I Hf Hr Hb Hh Hl Hs. unfold deliver, getf. rewrite Hr. cbn [of_option mbind comp_bind]. cbv zeta.
  destruct (process_reply_ok m None buf now serv n (o_no_rebind cfg && negb (has (f_flags r) FREC_NOREBIND)) (has (f_flags r) FREC_CHECKING_DISABLED) s I Hb Hh Hl Hs)
    as (nn & b1 & s1 & -> & I1 & (T1 & L1 & O1) & Hb1 & Hl1 & Hnn). cbn [mbind comp_bind].
  assert ((nn =? 0) = false) as -> by (apply Z.eqb_neq; unfold HEADER in *; lia). cbn [negb].
  destruct (wrs_bytes b1 0 (put16 (f_orig_id r)) Hb1) as (b2 & Hw2 & Hb2 & Hl2 & _); [apply put16_all|lia|rewrite zlen_put16; unfold HEADER, SLACK in *; lia|].
  rewrite Hw2. cbn [mbind comp_bind]. unfold hb4. destruct (rd_ok b2 3) as (h4 & -> & _); [unfold HEADER, SLACK in *; lia|]. cbn [mbind comp_bind].
  destruct (wr b2 3 (Z.lor h4 HB4_RA)) as [b3|] eqn:Hw3; [|rewrite wr_ok in Hw3 by (unfold HEADER, SLACK in *; lia); done]. cbn [mbind comp_bind mret comp_ret].
  set (packet := take (Z.to_nat nn) b3). unfold send_from. fold packet (reply_source cfg (f_dest r)). set (s2 := send _ s1). assert (finv m None s2) as I2 by (by apply (finv_same _ m _ s1)).
  destruct (finv_freed mix_tab m None s2 f r I2) as (t & Ht & It & Lt & Mt); [change (tab s2) with (tab s1); by rewrite T1|change (tab s2) with (tab s1); by rewrite T1|by left|].
  rewrite Ht. cbn [mbind comp_bind mret comp_ret]. change (tab s2) with (tab s1) in Lt, Mt. rewrite T1 in Lt, Mt.
  exists packet, (with_tab t s2). split; [done|]. split; [done|]. split; [exact Lt|]. split; [exact Mt|]. split; [cbn; by rewrite O1|].
  unfold packet. rewrite rd16_take by (unfold HEADER in *; lia). rewrite <- (rd16_after b1 0 (f_orig_id r) b2 Hw2); [|lia|apply (fi_frecs _ _ _ _ I f r Hf Hr)].
  apply rd16_cong; apply (rd_wr_other _ _ _ _ _ Hw3); lia.
Qed.

(** The record stays in use, and the identifiers too. *)
Lemma sent_on_from s0 s s' f r type domain : quiet s0 s -> servers s = servers s0 -> sent_on s s' f r type domain -> sent_on s0 s' f r type domain.
Proof. intros (_ & L & B) V. apply sent_on_like; [done|rewrite V; apply servers_like_refl|done]. Qed.

Lemma reply_query_ok m e buf n addr now s : finv m None s -> bytes buf -> (HEADER <= n -> room buf n) ->
  exists s', reply_query mix_tab clobbered can_malloc id_fuel cfg e buf n addr now s = Ok s' /\ finv m None s' /\ inherits (tab s) (tab s') (fun _ _ => False) /\ replied buf n addr s s'.
Proof.
  intros I Hb Hroom. unfold reply_query. set (s0 := with_srv_save None (packet_len s) s). assert (finv m None s0) as I0 by (by apply (finv_same _ m _ s)).
  assert (forall sx, finv m None sx -> outbox sx = outbox s -> tab sx = tab s -> (forall f r, ~ accepted buf n addr s f r) ->
    exists s', Ok sx = Ok s' /\ finv m None s' /\ inherits (tab s) (tab s') (fun _ _ => False) /\ replied buf n addr s s') as Hno.
  { intros sx Ix Ox Tx Hn. exists sx. rewrite Tx. split_and!; [done|done|apply inherits_refl|by apply Ignored]. }
  edestruct (find_server_ok m None s0) as (from & -> & Hfrom); [exact I0|by intros p Hp|]. cbn [mbind comp_bind].
  destruct from as [p|]; [|apply Hno; try done; intros f r [(p & sv & Hp & Hsv & Hf & Ha) _]; by rewrite (Hfrom p sv Hp Hsv Hf) in Ha].
  assert (known_server s addr) as Hknown by (destruct Hfrom as (Hp & sv & ? & ? & ?); by exists p, sv).
  destruct (n <? HEADER) eqn:En; zbool; [apply Hno; try done; intros f r (_ & ? & _); lia|]. destruct (Hroom En) as (Hl & Hps & Hop). unfold hb3.
  destruct (rd_ok buf 2) as (h3 & Hh3 & _); [unfold HEADER, SLACK in *; lia|]. rewrite Hh3. cbn [mbind comp_bind].
  destruct (has h3 HB3_QR) eqn:Eqr; cbn [negb]; [|apply Hno; try done; intros f r (_ & _ & (h & Hh & Hq) & _); unfold hb3 in Hh; congruence].
  destruct (rd16_ok buf 0 Hb) as (id & Hid & Hid16); [lia|unfold HEADER, SLACK in *; lia|]. rewrite Hid. cbn [mbind comp_bind].
  destruct (crc_safe n En (whole n En (zlen buf)) buf (namebuff s0)) as (crc & name & Hcrc & Hn); [by split_and!|apply (fi_name _ _ _ _ I0)|]. rewrite Hcrc. cbn [mbind comp_bind].
  set (s1 := with_name name s0). assert (finv m None s1) as I1 by (apply finv_name; [done|rewrite Hn; apply (fi_name _ _ _ _ I0)]). change (tab s1) with (tab s).
  destruct (lookup_frec_ok id crc (tab s) None (fi_tab _ _ _ _ I)) as (fwd & -> & Hfwd). cbn [mbind comp_bind].
  destruct fwd as [f|].
  2:{ apply Hno; try done. intros f r (_ & _ & _ & id' & crc' & nm & H1 & H2 & H3 & H4 & H5). assert (id' = id) as -> by congruence.
      change (namebuff s0) with (namebuff s) in Hcrc. assert (crc' = crc) as -> by congruence. by apply (Hfwd f r H3 H4). }
  destruct Hfwd as (Hf & r & Hr & Hasked). unfold getf. rewrite Hr. cbn [of_option mbind comp_bind]. unfold hb4.
  destruct (rd_ok buf 3) as (h4 & Hh4 & _); [unfold HEADER, SLACK in *; lia|]. rewrite Hh4. cbn [mbind comp_bind].
  assert (accepted buf n addr s f r) as Hacc by (split_and!; [done|done|by exists h3|by exists id, crc, name]).
  assert (refused h4 = true -> is_refused buf) as Href by (intros ?; by exists h4).
  match goal with |- context [mbind _ ?x] => assert (exists again b1, x = Ok (again, b1) /\ bytes b1 /\ zlen b1 = zlen buf /\
    match again with Some nn => refused h4 = true /\ HEADER <= nn /\ nn + SLACK <= zlen buf | None => forall i, 0 <= i < 4 -> rd b1 i = rd buf i end)
    as (again & b1 & -> & Hb1 & Hl1 & Hagain) end.
  { destruct (refused h4) eqn:Er; cbn [andb]; [|by exists None, buf]. destruct (negb (o_order cfg)); cbn [andb]; [|by exists None, buf]. destruct (f_forwardall r =? 0); [|by exists None, buf].
    destruct (remake_ok buf n Hb En) as (res & b1 & -> & Hb1 & Hl1 & Hres); [by split_and!|]. exists res, b1. split_and!; try done. by destruct res. }
  cbn [mbind comp_bind]. destruct Hasked as (Husd & Hrest).
  destruct again as [nn|].
  - destruct Hagain as (Er & Hnn & Hfit).
    destruct (forward_again_ok mix_tab id_fuel cfg Hcfg m e f r b1 nn now s1 I1 Hf Hr Husd Hb1 Hnn) as (v & b2 & s2 & -> & I2 & _ & _ & _ & _ & (id2 & crc2 & nm2 & gn2 & qt2 & nm3 & _ & _ & _ & Hinh & Hhand)); [lia|lia|].
    cbn [mbind comp_bind mret comp_ret]. exists s2. split; [done|]. split; [done|]. split.
    { intros g rg Hg. destruct (Hinh g rg Hg) as [?|(r0 & p0 & fd0 & pk0 & [-> Hq] & Hq0 & _)]; [by left|left]. exists r. split; [by split_and!|by eapply same_query_trans]. }
    apply (Again _ _ _ _ _ f r); auto.
    destruct Hhand as [(_ & f2 & r2 & type & domain & [-> Hq] & _ & Hson)|(_ & [Ho|(a & d & packet & Hu & _)])]; [right|by left|done].
    exists r2, type, domain. split; [done|]. by apply (sent_on_from s s1).
  - destruct Husd as [sp Hsp]. rewrite Hsp. cbn [of_option mbind comp_bind].
    pose proof (fo_sent _ _ (fi_frecs _ _ _ _ I f r Hf Hr) sp Hsp) as Hspin.
    rewrite (Hagain 3), Hh4 by lia. cbn [mbind comp_bind].
    destruct (mark_ok m None addr h4 sp s1 I1 Hspin) as (serv & s2 & -> & I2 & (T2 & L2 & O2) & Hserv). cbn [mbind comp_bind]. change (tab s1) with (tab s) in T2. change (outbox s1) with (outbox s) in O2.
    set (all := f_forwardall r). set (s3 := if all =? 0 then s2 else _).
    assert (exists r3, finv m None s3 /\ f ∈ frec_list (tab s3) /\ frecs (tab s3) !! f = Some r3 /\ outbox s3 = outbox s /\ serv_list s3 = serv_list s /\
      (r3 = r \/ exists v, r3 = with_forwardall v r)) as (r3 & I3 & Hf3 & Hr3 & O3 & L3 & Hor).
    { unfold s3. destruct (all =? 0).
      - exists r. split_and!; try done; try (by rewrite T2). by left.
      - exists (with_forwardall (all - 1) r). split_and!; try done.
        + apply finv_forwardall; [done|by rewrite T2|by rewrite T2].
        + cbn. by rewrite T2.
        + cbn. by rewrite lookup_insert_eq.
        + right. by eexists. }
    assert (inherits (tab s) (tab s3) (fun _ _ => False)) as Hinh.
    { unfold s3. destruct (all =? 0); [rewrite T2; apply inherits_refl|]. cbn [with_tab tab]. rewrite T2. apply (only_same f r (with_forwardall (all - 1) r)); [by split|by split_and!; [| |exists sp]|by split_and!]. }
    case_if.
    + destruct (deliver_ok m f r3 serv b1 n now s3 I3 Hf3 Hr3 Hb1 En) as (packet & s4 & -> & I4 & L4 & M4 & O4 & Hid4); [lia|by rewrite L3|].
      exists s4. split; [done|]. split; [done|]. split; [by apply (inherits_trans _ _ _ _ _ Hinh (freed_inherits _ _ f r3 (fun _ _ => False) L4 M4))|]. apply (Delivered _ _ _ _ _ f r packet); [done| | |].
      * rewrite O4, O3. by destruct Hor as [->|[v ->]].
      * rewrite Hid4. by destruct Hor as [->|[v ->]].
      * exists (freed_frec r3). split; [|done]. by rewrite M4, lookup_insert_eq.
    + exists s3. split; [done|]. split; [done|]. split; [done|]. apply (Waits _ _ _ _ _ f r); [done| |done]. apply Href. by destruct (refused h4); [|rewrite orb_true_r in *].
Qed.
End reply.

(** * Replies reach the clients *)


(** ** A query and its reply *)

(** The answer 1.2.3.4 to [demo_query], with the identifier that it was sent
    on with. *)
Definition demo_answer : list Z :=
  [0x12; 0x34; 0x80; 0x80; 0; 1; 0; 1; 0; 0; 0; 0] ++ [1; 97; 3; 111; 114; 103; 0; 0; 1; 0; 1] ++
  [192; 12; 0; 1; 0; 1; 0; 0; 0; 60; 0; 4; 1; 2; 3; 4] ++ replicate 900 0.

(** The state when [demo_query] has been sent on. *)
Definition demo_asked : comp fstate :=
  c ← cache_init demo_mix 2;
  '(_, _, s) ← forward_query demo_mix 8 demo_cfg demo_env 5 (Some (SA AF_INET 1024 (10, 0, 0, 2))) (Some ((10, 0, 0, 1) : in_addr)) 3 demo_query 23 100 None (demo_start c); Ok s.
Definition demo_frec : frec :=
  Frec (SA AF_INET 1024 (10, 0, 0, 2)) (10, 0, 0, 1) (Some 9%positive) (Some 0%nat) 3 7 0x1234 5 2 0 2076402365 100.

(** What the reply is compared with. *)
Definition demo_view (s : fstate) :=
  (frec_list (tab s), frecs (tab s) !! 1%positive, serv_list s, servers s !! 9%positive,
   '(crc, _) ← questions_crc demo_answer 39 (namebuff s); Ok crc).
Lemma demo_asked_view : (s ← demo_asked; Ok (demo_view s)) =
  Ok ([1%positive], Some demo_frec, [9%positive], Some (Server (SA AF_INET 53 (9, 9, 9, 9)) None None 0 1 0), Ok 2076402365).
Proof. vm_compute. reflexivity. Qed.

Lemma bind_ok {A B} (x : comp A) (f : A -> comp B) a : x = Ok a -> mbind f x = f a.
Proof. by intros ->. Qed.

Lemma demo_asked_ok : exists c l v b s m, cache_init demo_mix 2 = Ok c /\ wf demo_mix c l [] /\
  forward_query demo_mix 8 demo_cfg demo_env 5 (Some (SA AF_INET 1024 (10, 0, 0, 2))) (Some ((10, 0, 0, 1) : in_addr)) 3 demo_query 23 100 None (demo_start c) = Ok (v, b, s) /\
  demo_asked = Ok s /\ finv demo_mix m None s.
Proof.
  destruct (cache_init_ok demo_mix 2) as (c & l & Hc & W & _); [lia|].
  destruct (forward_client_ok demo_mix 8 demo_cfg demo_config _ demo_env 5 (SA AF_INET 1024 (10, 0, 0, 2)) (10, 0, 0, 1) 3 demo_query 23 100 (demo_start c) (demo_finv c l W) (demo_env_ok c))
    as (v & b & s & Hf & I & _); [apply (bool_decide_unpack (bytes demo_query)); by vm_compute|by vm_compute..|].
  eexists c, l, v, b, s, _. split; [exact Hc|]. split; [exact W|]. split; [exact Hf|]. split; [|exact I]. unfold demo_asked. etransitivity; [exact (bind_ok _ _ _ Hc)|]. exact (bind_ok _ _ _ Hf).
Qed.

Lemma demo_asked_facts s : demo_asked = Ok s -> known_server s (SA AF_INET 53 (9, 9, 9, 9)) /\ waiting (tab s) 1%positive demo_frec /\
  exists name, questions_crc demo_answer 39 (namebuff s) = Ok (2076402365, name).
Proof.
  intros Hs. pose proof demo_asked_view as Hv. rewrite Hs in Hv. cbn [mbind comp_bind] in Hv. unfold demo_view in Hv. injection Hv as Hl Hr Hsl Hsv Hcrc.
  destruct (questions_crc demo_answer 39 (namebuff s)) as [[crc nm]|] eqn:Hq; [|done]. injection Hcrc as ->. split; [|split].
  - exists 9%positive, (Server (SA AF_INET 53 (9, 9, 9, 9)) None None 0 1 0). split; [rewrite Hsl; by left|]. split; [exact Hsv|by split].
  - split_and!; [rewrite Hl; by left|exact Hr|by eexists].
  - by exists nm.
Qed.

Lemma demo_answer_bytes : bytes demo_answer.
Proof. apply (bool_decide_unpack (bytes demo_answer)). by vm_compute. Qed.
Lemma demo_room : room demo_answer 39.
Proof. split_and!; [by vm_compute..|]. intros h3 [= <-]. by left. Qed.


(** ** Replies that should not get through *)

(** Without questions the checksum is all ones, and then the identifier is all
    that is compared: a packet of twelve bytes is taken for the answer. *)
Definition demo_empty : list Z := [0x12; 0x34; 0x80; 0x80; 0; 0; 0; 0; 0; 0; 0; 0] ++ replicate 900 0.

Example empty_reply_accepted :
  (s ← demo_asked;
   s' ← reply_query demo_mix demo_clobbered (fun _ => true) 8 demo_cfg demo_env demo_empty 12 (SA AF_INET 53 (9, 9, 9, 9)) 101 s;
   Ok (drop (length (outbox s)) (outbox s'))) =
  Ok [ToClient 5 [0; 7; 0x80; 0x80; 0; 0; 0; 0; 0; 0; 0; 0] (SA AF_INET 1024 (10, 0, 0, 2)) None].
Proof. vm_compute. reflexivity. Qed.

(** A refusal that is not the reply to a query by its opcode: the pseudo header
    is looked for at the end of the header, so it may overlap with the
    questions, and putting it back behind them leaves a buffer of the size that
    is allocated. *)
Definition demo_overlap : list Z :=
  [0x12; 0x34; 0x88; 0x82; 3; 2; 0; 0; 0; 0; 0; 1] ++ [0; 0; 41; 0; 0; 0; 0; 0; 0; 15; 0] ++ replicate 4073 0.

Example putting_back_overflows : zlen demo_overlap = 4096 /\ skip_questions demo_overlap 3863 = Ok (Some 3862) /\
  find_pseudoheader demo_overlap 3863 true = Ok (Some (12, 3851, 15), 0) /\ remake_query demo_overlap 3863 = Fault WriteOOB.
Proof. split_and!; vm_compute; reflexivity. Qed.
