(* ===== verification/DmForwardRun.v ===== *)
(** dnsmasq's forwarding in use: queries that are not answered from the cache,
    packets that claim to be replies, and servers that DBus takes away, in any
    order ([server_gone] of forward.c, [mark_dbus] and [cleanup_dbus] of
    dbus.c). *)
From S2P Require Import Prelude CString Dns Common DmUtil DmName DmPacket DmLru DmCache DmCacheInv DmCacheOps DmAnswer DmFrame DmTable DmMac DmServers DmForward DmForwardInv DmForwardQuery DmForwardReply.
Set Warnings "-clear-no-such-hyp,-notation-for-abbreviation".

Definition SERV_FROM_DBUS : Z := 128.
Definition SERV_MARK : Z := 256.

(** * Servers that go away *)

Fixpoint mark_loop (l : list ptr) (s : fstate) : comp fstate :=
  match l with
  | [] => Ok s
  | p :: l' =>
      sv ← getserv s p;
      mark_loop l' (if has (s_flags sv) SERV_FROM_DBUS then with_server p (set_sflags (Z.lor (s_flags sv) SERV_MARK) sv) s else s)
  end.
Definition mark_dbus (s : fstate) : comp fstate := mark_loop (serv_list s) s.

(** [*up = serv->next] and [free]. *)
Definition unlink (p : ptr) (s : fstate) : fstate :=
  Fstate (tab s) (delete p (servers s)) (filter (fun q => q <> p) (serv_list s)) (last_server s) (forwardcount s) (forwardtime s) (fcache s) (namebuff s) (rng s)
    (srv_save s) (packet_len s) (rfd_save s) (outbox s).

Fixpoint cleanup_loop (l : list ptr) (s : fstate) : comp fstate :=
  match l with
  | [] => Ok s
  | p :: l' =>
      sv ← getserv s p;
      if has (s_flags sv) SERV_MARK then s ← server_gone p s; cleanup_loop l' (unlink p s) else cleanup_loop l' s
  end.
Definition cleanup_dbus (s : fstate) : comp fstate := cleanup_loop (serv_list s) s.

(** * Events *)

(** What [receive_query] passes on, what arrives at the sockets for servers,
    and DBus. *)
Inductive fevent :=
| FromClient (e : env) (udpfd : Z) (addr : mysockaddr) (dst : in_addr) (iface : Z) (buf : list Z) (plen now : Z)
| FromServer (e : env) (buf : list Z) (n : Z) (addr : mysockaddr) (now : Z)
| MarkDbus
| CleanupDbus.

Section run.
Context (mix_tab : Z -> Z) (clobbered : Z -> list Z -> list Z) (can_malloc : cache -> bool) (id_fuel : nat) (cfg : fconfig).

Definition react (s : fstate) (ev : fevent) : comp fstate :=
  match ev with
  | FromClient e udpfd addr dst iface buf plen now =>
      '(_, _, s) ← forward_query mix_tab id_fuel cfg e udpfd (Some addr) (Some dst) iface buf plen now None (with_srv_save None (packet_len s) s); mret s
  | FromServer e buf n addr now => reply_query mix_tab clobbered can_malloc id_fuel cfg e buf n addr now s
  | MarkDbus => mark_dbus s
  | CleanupDbus => cleanup_dbus s
  end.

(** * What holds after any events *)

Context (Hcfg : config_ok cfg).
Local Notation finv := (finv mix_tab).

Lemma server_gone_ok m p s : finv m None s -> exists s', server_gone p s = Ok s' /\ finv m None s' /\ servers s' = servers s /\ serv_list s' = serv_list s /\
  outbox s' = outbox s /\ inherits (tab s) (tab s') (fun _ _ => False) /\ last_server s' <> Some p /\
  (forall f r, f ∈ frec_list (tab s') -> frecs (tab s') !! f = Some r -> f_sentto r <> Some p).
Proof.
  intros I. unfold server_gone. destruct (free_gone_ok p (frec_list (tab s)) (tab s) (fi_tab _ _ _ _ I)) as (t & -> & Ht & L & M); [done|]. cbn [mbind comp_bind mret comp_ret].
  assert (forall f r', f ∈ frec_list t -> frecs t !! f = Some r' -> exists r, frecs (tab s) !! f = Some r /\
    (r' = freed_frec r \/ r' = r /\ f_sentto r <> Some p)) as Hcase.
  { intros f r' Hf Hr'. rewrite L in Hf. destruct (ti_known _ _ (fi_tab _ _ _ _ I) f Hf) as [r Hr]. exists r. split; [done|]. specialize (M f r Hr). rewrite M in Hr'. injection Hr' as <-.
    case_bool_decide; [by left|right]. split; [done|]. tauto. }
  set (s1 := with_tab t s). assert (finv m None s1) as I1.
  { apply (finv_table _ m None); [done|done|]. intros f r' Hf Hr'. destruct (Hcase f r' Hf Hr') as (r & Hr & Hor). rewrite L in Hf. pose proof (fi_frecs _ _ _ _ I f r Hf Hr) as [? ? ?].
    destruct Hor as [->|[-> _]]; by split. }
  set (s2 := if decide (last_server s1 = Some p) then _ else s1). assert (finv m None s2 /\ last_server s2 <> Some p) as [I2 Hlast].
  { unfold s2. destruct (decide _); [|done]. split; [by apply finv_last|done]. }
  assert (tab s2 = t /\ servers s2 = servers s /\ serv_list s2 = serv_list s /\ outbox s2 = outbox s) as (E1 & E2 & E3 & E4) by (unfold s2; by destruct (decide _)).
  eexists. split; [reflexivity|]. set (s3 := if decide (srv_save s2 = Some p) then _ else s2).
  assert (finv m None s3) as I3 by (unfold s3; destruct (decide (srv_save s2 = Some p)); [apply (finv_same _ m _ s2 _ I2); reflexivity|done]).
  assert (tab s3 = t /\ servers s3 = servers s /\ serv_list s3 = serv_list s /\ outbox s3 = outbox s /\ last_server s3 = last_server s2) as (F1 & F2 & F3 & F4 & F5)
    by (unfold s3; destruct (decide (srv_save s2 = Some p)); exact (conj E1 (conj E2 (conj E3 (conj E4 eq_refl))))).
  split_and!; try done; [|by rewrite F5|].
  - rewrite F1. intros f r' (Hf & Hr' & Hu). left. destruct (Hcase f r' Hf Hr') as (r & Hr & [->|[-> _]]); [by destruct Hu|]. rewrite L in Hf. exists r. split; [by split_and!|apply same_query_refl].
  - rewrite F1. intros f r' Hf Hr'. destruct (Hcase f r' Hf Hr') as (r & _ & [->|[-> ?]]); done.
Qed.

Lemma unlink_ok m p s : finv m None s -> last_server s <> Some p -> (forall f r, f ∈ frec_list (tab s) -> frecs (tab s) !! f = Some r -> f_sentto r <> Some p) ->
  finv m None (unlink p s).
Proof.
  intros [] Hl Hf. assert (forall q, q ∈ filter (fun q => q <> p) (serv_list s) <-> q <> p /\ q ∈ serv_list s) as Hin by (intros q; by rewrite list_elem_of_filter).
  split; try done; cbn [unlink tab serv_list servers last_server].
  - intros f r Hfl Hr. destruct (fi_frecs f r Hfl Hr) as [H1 H2 H3]. split; [done|done|]. intros q Hq. apply Hin. split; [|auto]. intros ->. by apply (Hf f r Hfl Hr).
  - by apply NoDup_filter.
  - intros q [Hne Hq]%Hin. rewrite lookup_delete_ne by done. auto.
  - intros q Hq. apply Hin. split; [congruence|auto].
Qed.

(** What changes when servers go. *)
Definition loses (s s' : fstate) : Prop := outbox s' = outbox s /\ inherits (tab s) (tab s') (fun _ _ => False).

Lemma cleanup_ok m l : forall s, finv m None s -> NoDup l -> (forall p, p ∈ l -> p ∈ serv_list s) ->
  exists s', cleanup_loop l s = Ok s' /\ finv m None s' /\ loses s s'.
Proof.
  induction l as [|p l IH]; intros s I Hnd Hl; cbn [cleanup_loop]; [exists s; split; [done|]; split; [done|]; split; [done|apply inherits_refl]|].
  apply NoDup_cons in Hnd as [Hp Hnd]. destruct (fi_known _ _ _ _ I p) as (sv & Hsv & _); [apply Hl; by left|]. unfold getserv. rewrite Hsv. cbn [of_option mbind comp_bind]. case_if.
  - destruct (server_gone_ok m p s I) as (s1 & -> & I1 & _ & L1 & O1 & H1 & Hlast & Hf). cbn [mbind comp_bind].
    destruct (IH (unlink p s1)) as (s' & -> & I' & O' & H').
    + by apply unlink_ok.
    + done.
    + intros q Hq. cbn [unlink serv_list]. rewrite list_elem_of_filter, L1. split; [by intros ->|apply Hl; by right].
    + exists s'. split; [done|]. split; [done|]. split; [by rewrite O'|by apply (inherits_trans _ _ _ _ _ H1 H')].
  - apply (IH s); [done|done|]. intros q Hq. apply Hl. by right.
Qed.

Lemma mark_ok_dbus m l : forall s, finv m None s -> (forall p, p ∈ l -> p ∈ serv_list s) ->
  exists s', mark_loop l s = Ok s' /\ finv m None s' /\ loses s s'.
Proof.
  induction l as [|p l IH]; intros s I Hl; cbn [mark_loop]; [exists s; split; [done|]; split; [done|]; split; [done|apply inherits_refl]|].
  assert (p ∈ serv_list s) as Hp by (apply Hl; by left). destruct (fi_known _ _ _ _ I p Hp) as (sv & Hsv & Hok). unfold getserv. rewrite Hsv. cbn [of_option mbind comp_bind].
  assert (forall q, q ∈ l -> q ∈ serv_list s) as Hl' by (intros q Hq; apply Hl; by right). case_if; [|by apply IH].
  edestruct (IH (with_server p (set_sflags (Z.lor (s_flags sv) SERV_MARK) sv) s)) as (s' & -> & I' & O' & H'); [|done|by exists s'].
  apply finv_server; [done|done|by apply (flag_ok sv 8)].
Qed.

(** ** Runs *)

(** What is known of an event: the packets lie in the buffer, and there is an
    identifier for a new query. *)
Definition fevent_ok (ev : fevent) (s : fstate) : Prop :=
  match ev with
  | FromClient e udpfd _ _ _ buf plen _ => env_ok id_fuel e s /\ bytes buf /\ HEADER <= plen /\ plen + SLACK <= zlen buf /\ PACKETSZ + SLACK <= zlen buf
  | FromServer _ buf n _ _ => bytes buf /\ (HEADER <= n -> room buf n)
  | MarkDbus | CleanupDbus => True
  end.

(** Nothing has been asked or sent yet. *)
Record fresh (s : fstate) : Prop := {
  fr_inv : exists m, finv m None s;
  fr_none : frec_list (tab s) = [];
  fr_quiet : outbox s = [] }.

Inductive reaches : list fevent -> fstate -> Prop :=
| Reaches_start s : fresh s -> reaches [] s
| Reaches_step evs s ev s' : reaches evs s -> fevent_ok ev s -> react s ev = Ok s' -> reaches (evs ++ [ev]) s'.

(** A client has asked, at the socket, the address and the interface, a query
    with the identifier whose questions have the checksum. *)
Definition asked_by (evs : list fevent) (fd : Z) (a : mysockaddr) (d : in_addr) (iface : Z) (buf : list Z) (plen id crc : Z) : Prop :=
  exists e now name name', FromClient e fd a d iface buf plen now ∈ evs /\ rd16 buf 0 = Ok id /\ questions_crc buf plen name = Ok (crc, name').

Definition asked_for (evs : list fevent) (fd : Z) (a : mysockaddr) (d : in_addr) (iface id crc : Z) : Prop :=
  exists buf plen, asked_by evs fd a d iface buf plen id crc.

(** A server has been sent a packet with the identifier. *)
Definition sent_under (s : fstate) (id : Z) : Prop := exists p fd packet, ToServer p fd packet ∈ outbox s /\ rd16 packet 0 = Ok id.

(** A packet with these questions has come from the address of a server of that
    time, under an identifier that a server had been sent by then. *)
Definition server_said (evs : list fevent) (crc : Z) : Prop :=
  exists evs1 s1 e buf n addr now evs2 id crc' name name', evs = evs1 ++ FromServer e buf n addr now :: evs2 /\ reaches evs1 s1 /\
    known_server s1 addr /\ rd16 buf 0 = Ok id /\ sent_under s1 id /\
    questions_crc buf n name = Ok (crc', name') /\ (crc = crc' \/ crc' = 0xffffffff).

(** Why a client gets a packet. *)
Definition answers (evs : list fevent) (fd : Z) (packet : list Z) (a : mysockaddr) (src : option in_addr) : Prop :=
  exists d iface buf plen id crc, asked_by evs fd a d iface buf plen id crc /\ src = reply_source cfg d /\ rd16 packet 0 = Ok id /\
    (own_answer cfg buf plen id packet \/ server_said evs crc).

Record run_ok (m : nat) (evs : list fevent) (s : fstate) : Prop := {
  ru_inv : finv m None s;
  ru_reach : reaches evs s;
  ru_waiting : forall f r, waiting (tab s) f r ->
    asked_for evs (f_fd r) (f_source r) (f_dest r) (f_iface r) (f_orig_id r) (f_crc r) /\ sent_under s (f_new_id r);
  ru_sent : forall fd packet a src, ToClient fd packet a src ∈ outbox s -> answers evs fd packet a src }.

Lemma asked_by_more evs ev fd a d iface buf plen id crc : asked_by evs fd a d iface buf plen id crc -> asked_by (evs ++ [ev]) fd a d iface buf plen id crc.
Proof. intros (e & now & nm & nm' & Hin & Hid). exists e, now, nm, nm'. split; [|done]. apply elem_of_app. by left. Qed.

Lemma asked_for_more evs ev fd a d iface id crc : asked_for evs fd a d iface id crc -> asked_for (evs ++ [ev]) fd a d iface id crc.
Proof. intros (buf & plen & H). exists buf, plen. by apply asked_by_more. Qed.

Lemma answers_more evs ev fd packet a src : answers evs fd packet a src -> answers (evs ++ [ev]) fd packet a src.
Proof.
  intros (d & iface & buf & plen & id & crc & H1 & H2 & H3 & H4). exists d, iface, buf, plen, id, crc. split_and!; try done; [by apply asked_by_more|].
  destruct H4 as [?|(evs1 & s1 & e & b & n & addr & now & evs2 & id' & crc' & nm & nm' & -> & H)]; [by left|right].
  exists evs1, s1, e, b, n, addr, now, (evs2 ++ [ev]), id', crc', nm, nm'. split; [by rewrite <- app_assoc|done].
Qed.

Lemma sent_under_more s s' msgs id : outbox s' = outbox s ++ msgs -> sent_under s id -> sent_under s' id.
Proof. intros Ho (p & fd & packet & Hin & Hid). exists p, fd, packet. split; [|done]. rewrite Ho. apply elem_of_app. by left. Qed.

(** Queries go on waiting, and messages to servers are no answers. *)
Lemma run_keeps m evs ev s s' (X : ptr -> frec -> Prop) msgs : run_ok m evs s -> finv m None s' -> reaches (evs ++ [ev]) s' -> inherits (tab s) (tab s') X ->
  (forall f r, X f r -> asked_for (evs ++ [ev]) (f_fd r) (f_source r) (f_dest r) (f_iface r) (f_orig_id r) (f_crc r) /\ sent_under s' (f_new_id r)) ->
  outbox s' = outbox s ++ msgs ->
  (forall fd packet a src, ToClient fd packet a src ∈ msgs -> answers (evs ++ [ev]) fd packet a src) ->
  run_ok m (evs ++ [ev]) s'.
Proof.
  intros [R1 _ R2 R3] I HR Hinh HX Ho Hm. split; [done|done| |].
  - intros f r Hw. destruct (Hinh f r Hw) as [(r0 & Hw0 & Q1 & Q2 & Q3 & Q4 & Q5 & Q6 & _ & Q8 & _)|Hx]; [|exact (HX f r Hx)]. rewrite Q1, Q2, Q3, Q4, Q5, Q6, Q8.
    destruct (R2 f r0 Hw0). split; [by apply asked_for_more|by apply (sent_under_more s s' msgs)].
  - intros fd packet a src. rewrite Ho. intros [Hin|Hin]%elem_of_app; [|by apply Hm]. apply answers_more. by apply R3.
Qed.

Lemma no_answers svs l type domain packet msgs : Forall (relayed svs l type domain packet) msgs -> forall fd pk a src, ToClient fd pk a src ∉ msgs.
Proof. intros Hall fd pk a src Hin. rewrite Forall_forall in Hall. destruct (Hall _ Hin) as (p & fd' & sv & ? & _). done. Qed.

Lemma react_ok m evs s ev : run_ok m evs s -> fevent_ok ev s -> exists s', react s ev = Ok s' /\ run_ok m (evs ++ [ev]) s'.
Proof.
  intros R Hev. cut (exists s', react s ev = Ok s' /\ (reaches (evs ++ [ev]) s' -> run_ok m (evs ++ [ev]) s')).
  { intros (s' & Hs' & Hok). exists s'. split; [done|]. apply Hok. by apply (Reaches_step evs s ev s'); [apply R|..]. }
  pose proof R as [I R1 R2 R3]. destruct ev as [e udpfd a d iface buf plen now|e buf n a now| |]; cbn [react].
  - destruct Hev as (He & Hb & Hh & Hl & Hps). set (s0 := with_srv_save None (packet_len s) s).
    destruct (forward_client_ok mix_tab id_fuel cfg Hcfg m e udpfd a d iface buf plen now s0) as (v & b' & s' & -> & I' & _ & _ & _ & _ &
      (id & crc & nm & gn & qt & nm2 & Hid & Hcrc & _ & Hinh & Hor)); try done.
    { by apply (finv_same _ m _ s). }
    cbn [mbind comp_bind mret comp_ret]. exists s'. split; [done|]. intros HR.
    assert (asked_by (evs ++ [FromClient e udpfd a d iface buf plen now]) udpfd a d iface buf plen id crc) as Hnew
      by (exists e, now, (namebuff s0), nm; split; [set_solver|done]).
    assert (forall f r, (exists r0 p fd packet, own_query (tab s0) udpfd a d iface id crc f r0 /\ same_query r0 r /\ ToServer p fd packet ∈ outbox s' /\ rd16 packet 0 = Ok (f_new_id r0)) ->
      asked_for (evs ++ [FromClient e udpfd a d iface buf plen now]) (f_fd r) (f_source r) (f_dest r) (f_iface r) (f_orig_id r) (f_crc r) /\ sent_under s' (f_new_id r)) as HX.
    { intros f r (r0 & p & fd & packet & Hown & (Q1 & Q2 & Q3 & Q4 & Q5 & Q6 & _ & Q8 & _) & Hin & Hpid). rewrite Q1, Q2, Q3, Q4, Q5, Q6, Q8. split; [|by exists p, fd, packet].
      destruct Hown as [(-> & -> & -> & -> & -> & ->)|(r1 & Hw & (P1 & P2 & P3 & P4 & _ & P6 & _ & P8 & _) & _)]; [by exists buf, plen|].
      rewrite P1, P2, P3, P4, P6, P8. apply asked_for_more. exact (proj1 (R2 f r1 Hw)). }
    destruct Hor as [(_ & f & r & type & domain & _ & _ & packet & msgs & _ & Ho & _ & Hall & _)|(_ & [Ho|(a' & d' & packet & _ & [= <-] & [= <-] & Hpid & Hown & Ho)])].
    + eapply (run_keeps m evs _ s s'); [done|done|exact HR|exact Hinh|exact HX|exact Ho|]. intros fd pk a' src Hin. by apply (no_answers _ _ _ _ _ _ Hall) in Hin.
    + eapply (run_keeps m evs _ s s' _ []); [done|done|exact HR|exact Hinh|exact HX|by rewrite app_nil_r|]. intros ? ? ? ? Hin. by apply elem_of_nil in Hin.
    + eapply (run_keeps m evs _ s s'); [done|done|exact HR|exact Hinh|exact HX|exact Ho|]. intros fd pk a' src [= -> -> -> ->]%list_elem_of_singleton.
      exists d, iface, buf, plen, id, crc. split_and!; try done. by left.
  - destruct Hev as [Hb Hroom]. destruct (reply_query_ok mix_tab clobbered can_malloc id_fuel cfg Hcfg m e buf n a now s I Hb Hroom) as (s' & -> & I' & Hinh & Hrep).
    exists s'. split; [done|]. intros HR. destruct Hrep as [_ Ho|f r _ _ Ho|f r _ _ [Ho|(r' & type & domain & _ & packet & msgs & _ & Ho & _ & Hall & _)]|f r packet Hacc Ho Hid _].
    1-3: eapply (run_keeps m evs _ s s' _ []); [done|done|exact HR|exact Hinh|done|by rewrite app_nil_r|]; intros ? ? ? ? Hin; by apply elem_of_nil in Hin.
    + eapply (run_keeps m evs _ s s'); [done|done|exact HR|exact Hinh|done|exact Ho|]. intros fd pk a' src Hin. by apply (no_answers _ _ _ _ _ _ Hall) in Hin.
    + eapply (run_keeps m evs _ s s'); [done|done|exact HR|exact Hinh|done|exact Ho|]. intros fd pk a' src [= -> -> -> ->]%list_elem_of_singleton.
      destruct Hacc as (Hk & _ & _ & id & crc & nm & Hrd & Hcrc & Hf & Hr & Hu & Hnew & Hsame). destruct (R2 f r) as [(b0 & p0 & Hasked) Hunder]; [by split_and!|].
      exists (f_dest r), (f_iface r), b0, p0, (f_orig_id r), (f_crc r). split_and!; try done; [by apply asked_by_more|]. right.
      exists evs, s, e, buf, n, a, now, [], id, crc, (namebuff s), nm. split_and!; try done. by rewrite <- Hnew.
  - destruct (mark_ok_dbus m (serv_list s) s I) as (s' & H & I' & Ho & Hinh); [done|]. unfold mark_dbus. rewrite H. exists s'. split; [done|]. intros HR.
    eapply (run_keeps m evs _ s s' _ []); [done|done|exact HR|exact Hinh|done|by rewrite app_nil_r|]. intros ? ? ? ? Hin. by apply elem_of_nil in Hin.
  - destruct (cleanup_ok m (serv_list s) s I (fi_nodup _ _ _ _ I)) as (s' & H & I' & Ho & Hinh); [done|]. unfold cleanup_dbus. rewrite H. exists s'. split; [done|]. intros HR.
    eapply (run_keeps m evs _ s s' _ []); [done|done|exact HR|exact Hinh|done|by rewrite app_nil_r|]. intros ? ? ? ? Hin. by apply elem_of_nil in Hin.
Qed.

Lemma reaches_ok evs s : reaches evs s -> exists m, run_ok m evs s.
Proof.
  induction 1 as [s [(m & I) Hn Ho]|evs s ev s' _ (m & R) Hev Hr].
  - exists m. split; [done|by apply Reaches_start; split; [exists m|..]| |].
    + intros f r (Hf & _). rewrite Hn in Hf. by apply elem_of_nil in Hf.
    + intros fd packet a src. rewrite Ho. intros Hin. by apply elem_of_nil in Hin.
  - exists m. destruct (react_ok m evs s ev R Hev) as (s2 & Hr2 & R2). by assert (s2 = s') as -> by congruence.
Qed.
End run.

(** * What forwarding promises *)

(** C3: forwarding goes on without a fault when packets leave room in the
    buffer. Every query has a header and leaves [SLACK] (300) bytes of the
    buffer behind it and behind its first PACKETSZ (512) bytes; every packet
    that claims to be a reply and has a header leaves as much, and, when its
    opcode is not QUERY, another time its own length ([room]: the pseudo header
    of a refusal may be put back behind the buffer otherwise); for a query the
    memory that [malloc] gives is not in use, and an identifier that no waiting
    query has comes among the next [id_fuel] random numbers (the loop for one
    would not end otherwise); the configured hardware addresses and aliases
    consist of bytes. Then, after any queries, packets that claim to be
    replies, and visits of DBus, whatever the packets hold, the next one is
    handled: nothing is read or written outside a buffer, no pointer is null,
    all loops end, and what holds between packets holds again. *)
Theorem forwarding_never_fails mix_tab clobbered can_malloc id_fuel cfg evs s ev : config_ok cfg ->
  reaches mix_tab clobbered can_malloc id_fuel cfg evs s -> fevent_ok id_fuel ev s ->
  exists s', react mix_tab clobbered can_malloc id_fuel cfg s ev = Ok s' /\ reaches mix_tab clobbered can_malloc id_fuel cfg (evs ++ [ev]) s' /\
    exists m, finv mix_tab m None s'.
Proof.
  intros Hcfg Hr Hev. destruct (reaches_ok mix_tab clobbered can_malloc id_fuel cfg Hcfg evs s Hr) as (m & R).
  destruct (react_ok mix_tab clobbered can_malloc id_fuel cfg Hcfg m evs s ev R Hev) as (s' & Hs' & [I _ _ _]). exists s'. split_and!; [done|by eapply Reaches_step|by exists m].
Qed.

(** C4: only those who have asked get answers, and to what they have asked.
    After any run of the kind that C3 deals with (packets leave room in the
    buffer, and there is an identifier for every query), whatever packets claim
    to be replies: every packet that is sent to a client answers a query that
    came from the address and port it goes to at the socket it leaves by, and
    carries the identifier of that query; the source that is asked for is the
    address where the query arrived, or none when OPT_NOWILD or OPT_CLEVERBIND
    is set. It was made by dnsmasq itself from that query ([setup_reply]), or
    a packet has come from the address of a server of that time, with an
    identifier that a server had been sent, and whose questions have the
    checksum of those of the query, or the checksum of all ones that stands
    for questions that cannot be read (such a packet is taken for the
    answer). *)
Theorem answers_match_queries mix_tab clobbered can_malloc id_fuel cfg evs s fd packet a src : config_ok cfg ->
  reaches mix_tab clobbered can_malloc id_fuel cfg evs s -> ToClient fd packet a src ∈ outbox s ->
  exists e d iface buf plen now id crc name name', FromClient e fd a d iface buf plen now ∈ evs /\
    rd16 buf 0 = Ok id /\ rd16 packet 0 = Ok id /\ questions_crc buf plen name = Ok (crc, name') /\ src = reply_source cfg d /\
    (own_answer cfg buf plen id packet \/ server_said mix_tab clobbered can_malloc id_fuel cfg evs crc).
Proof.
  intros Hcfg Hr Hin. destruct (reaches_ok mix_tab clobbered can_malloc id_fuel cfg Hcfg evs s Hr) as (m & [_ _ _ R]).
  destruct (R _ _ _ _ Hin) as (d & iface & buf & plen & id & crc & (e & now & nm & nm' & He & Hb & Hq) & Hsrc & Hid & Hor).
  exists e, d, iface, buf, plen, now, id, crc, nm, nm'. by split_and!.
Qed.

(** ** A run *)

Definition demo_asks : fevent := FromClient demo_env 5 (SA AF_INET 1024 (10, 0, 0, 2)) (10, 0, 0, 1) 3 demo_query 23 100.
Definition demo_answers : fevent := FromServer demo_env demo_answer 39 (SA AF_INET 53 (9, 9, 9, 9)) 101.
Notation demo_reaches := (reaches demo_mix demo_clobbered (fun _ => true) 8 demo_cfg).

Lemma demo_asks_ok c : fevent_ok 8 demo_asks (demo_start c).
Proof. split; [apply demo_env_ok|]. split; [apply (bool_decide_unpack (bytes demo_query)); by vm_compute|]. split_and!; by vm_compute. Qed.

Lemma demo_fresh c l : wf demo_mix c l [] -> fresh demo_mix (demo_start c).
Proof. intros W. split; [eexists; by apply (demo_finv c l)|done|done]. Qed.

Lemma demo_reached : exists s, demo_asked = Ok s /\ demo_reaches [demo_asks] s.
Proof.
  destruct demo_asked_ok as (c & l & v & b & s & m & _ & W & Hf & Hs & _). exists s. split; [exact Hs|].
  apply (Reaches_step _ _ _ _ _ [] (demo_start c)); [by apply Reaches_start, (demo_fresh c l)|apply demo_asks_ok|]. exact (bind_ok _ _ _ Hf).
Qed.

Lemma forwarding_never_fails_witness : exists s s', demo_asked = Ok s /\ demo_reaches ([demo_asks] ++ [demo_answers]) s' /\
  react demo_mix demo_clobbered (fun _ => true) 8 demo_cfg s demo_answers = Ok s'.
Proof.
  destruct demo_reached as (s & Hs & Hr).
  destruct (forwarding_never_fails demo_mix demo_clobbered (fun _ => true) 8 demo_cfg [demo_asks] s demo_answers demo_config Hr) as (s' & H1 & H2 & _).
  - split; [exact demo_answer_bytes|intros _; exact demo_room].
  - exists s, s'. by split_and!.
Defined.

Lemma demo_delivered : exists s packet, demo_reaches ([demo_asks] ++ [demo_answers]) s /\ ToClient 5 packet (SA AF_INET 1024 (10, 0, 0, 2)) None ∈ outbox s.
Proof.
  destruct demo_reached as (s & Hs & Hr). destruct demo_asked_ok as (c & l & v & b & s0 & m & _ & _ & _ & Hs0 & I). assert (s0 = s) as -> by congruence.
  destruct (demo_asked_facts s Hs) as (Hk & Hw & nm & Hq).
  destruct (reply_query_ok demo_mix demo_clobbered (fun _ => true) 8 demo_cfg demo_config m demo_env demo_answer 39 (SA AF_INET 53 (9, 9, 9, 9)) 101 s I demo_answer_bytes (fun _ => demo_room))
    as (s' & Hs' & _ & _ & Hrep). exists s'.
  assert (demo_reaches ([demo_asks] ++ [demo_answers]) s') as Hr'.
  { eapply Reaches_step; [exact Hr|split; [exact demo_answer_bytes|intros _; exact demo_room]|exact Hs']. }
  assert (~ is_refused demo_answer) as Hnot by (intros (h & [= <-] & Hx); by vm_compute in Hx).
  destruct Hrep as [Hno _|f r _ ? _|f r _ ? _|f r packet (_ & _ & _ & id & crc & nm' & _ & _ & Hf & Hrf & _) Ho _ _]; [|by destruct Hnot..|].
  - exfalso. apply (Hno 1%positive demo_frec). split; [exact Hk|]. split; [by vm_compute|]. split; [by exists 0x80|]. exists 0x1234, 2076402365, nm.
    destruct Hw as (H1 & H2 & H3). split; [by vm_compute|]. split; [exact Hq|]. split; [done|]. split; [done|]. split_and!; [done|done|by left].
  - exists packet. split; [done|]. rewrite Ho. assert (r = demo_frec) as ->; [|apply elem_of_app; right; by left].
    pose proof demo_asked_view as Hv. rewrite Hs in Hv. cbn [mbind comp_bind] in Hv. unfold demo_view in Hv. injection Hv as Hl Hrv _ _ _.
    rewrite Hl in Hf. apply list_elem_of_singleton in Hf as ->. assert (Some r = Some demo_frec) as [= H] by (by rewrite <- Hrv, <- Hrf). exact H.
Qed.

Lemma answers_match_queries_witness : exists e d iface buf plen now id, FromClient e 5 (SA AF_INET 1024 (10, 0, 0, 2)) d iface buf plen now ∈ [demo_asks; demo_answers] /\ rd16 buf 0 = Ok id.
Proof.
  destruct demo_delivered as (s & packet & Hr & Hin).
  destruct (answers_match_queries demo_mix demo_clobbered (fun _ => true) 8 demo_cfg _ s 5 packet _ None demo_config Hr Hin) as (e & d & iface & buf & plen & now & id & crc & nm & nm' & H1 & H2 & _).
  by exists e, d, iface, buf, plen, now, id.
Defined.
