(* ===== verification/DmLease.v ===== *)
(** dnsmasq's lease.c: the database of the leases that its DHCP server has
    given, and the events that the script of the user is told. *)
From S2P Require Import Prelude CString Dns Common DmUtil DmName DmPacket DmLru DmCache.
Set Warnings "-clear-no-such-hyp".

Definition DHCP_CHADDR_MAX : Z := 16.
Definition LEASE_NEW : Z := 1.
Definition LEASE_CHANGED : Z := 2.
Definition LEASE_AUX_CHANGED : Z := 4.
Definition LEASE_AUTH_NAME : Z := 8.
Definition LEASE_NA : Z := 32.
Definition LEASE_TA : Z := 64.
Definition ACTION_DEL : Z := 1.
Definition ACTION_OLD_HOSTNAME : Z := 2.
Definition ACTION_OLD : Z := 3.
Definition ACTION_ADD : Z := 4.

(** * Data *)

(** [l_clid] is the block of [clid_len] bytes that [clid] points to. *)
Record lease := Lease {
  l_clid_len : Z; l_clid : option (list Z);
  l_hostname : option (list Z); l_fqdn : option (list Z); l_old_hostname : option (list Z);
  l_flags : Z; l_expires : Z;
  l_hwaddr_len : Z; l_hwaddr_type : Z; l_hwaddr : list Z;
  l_addr : in_addr; l_override : in_addr; l_giaddr : in_addr;
  l_extradata : option (list Z); l_extradata_len : Z; l_extradata_size : Z;
  l_last_interface : Z }.

Definition with_clid (n : Z) (c : option (list Z)) (l : lease) : lease :=
  Lease n c (l_hostname l) (l_fqdn l) (l_old_hostname l) (l_flags l) (l_expires l) (l_hwaddr_len l) (l_hwaddr_type l) (l_hwaddr l)
    (l_addr l) (l_override l) (l_giaddr l) (l_extradata l) (l_extradata_len l) (l_extradata_size l) (l_last_interface l).
Definition with_names (h f o : option (list Z)) (l : lease) : lease :=
  Lease (l_clid_len l) (l_clid l) h f o (l_flags l) (l_expires l) (l_hwaddr_len l) (l_hwaddr_type l) (l_hwaddr l)
    (l_addr l) (l_override l) (l_giaddr l) (l_extradata l) (l_extradata_len l) (l_extradata_size l) (l_last_interface l).
Definition with_lflags (v : Z) (l : lease) : lease :=
  Lease (l_clid_len l) (l_clid l) (l_hostname l) (l_fqdn l) (l_old_hostname l) v (l_expires l) (l_hwaddr_len l) (l_hwaddr_type l) (l_hwaddr l)
    (l_addr l) (l_override l) (l_giaddr l) (l_extradata l) (l_extradata_len l) (l_extradata_size l) (l_last_interface l).
Definition with_expires (v : Z) (l : lease) : lease :=
  Lease (l_clid_len l) (l_clid l) (l_hostname l) (l_fqdn l) (l_old_hostname l) (l_flags l) v (l_hwaddr_len l) (l_hwaddr_type l) (l_hwaddr l)
    (l_addr l) (l_override l) (l_giaddr l) (l_extradata l) (l_extradata_len l) (l_extradata_size l) (l_last_interface l).
Definition with_hwaddr (n t : Z) (h : list Z) (l : lease) : lease :=
  Lease (l_clid_len l) (l_clid l) (l_hostname l) (l_fqdn l) (l_old_hostname l) (l_flags l) (l_expires l) n t h
    (l_addr l) (l_override l) (l_giaddr l) (l_extradata l) (l_extradata_len l) (l_extradata_size l) (l_last_interface l).
Definition with_addr (v : in_addr) (l : lease) : lease :=
  Lease (l_clid_len l) (l_clid l) (l_hostname l) (l_fqdn l) (l_old_hostname l) (l_flags l) (l_expires l) (l_hwaddr_len l) (l_hwaddr_type l) (l_hwaddr l)
    v (l_override l) (l_giaddr l) (l_extradata l) (l_extradata_len l) (l_extradata_size l) (l_last_interface l).
Definition with_relay (giaddr override : in_addr) (l : lease) : lease :=
  Lease (l_clid_len l) (l_clid l) (l_hostname l) (l_fqdn l) (l_old_hostname l) (l_flags l) (l_expires l) (l_hwaddr_len l) (l_hwaddr_type l) (l_hwaddr l)
    (l_addr l) override giaddr (l_extradata l) (l_extradata_len l) (l_extradata_size l) (l_last_interface l).
Definition with_extradata (d : option (list Z)) (n sz : Z) (l : lease) : lease :=
  Lease (l_clid_len l) (l_clid l) (l_hostname l) (l_fqdn l) (l_old_hostname l) (l_flags l) (l_expires l) (l_hwaddr_len l) (l_hwaddr_type l) (l_hwaddr l)
    (l_addr l) (l_override l) (l_giaddr l) d n sz (l_last_interface l).
Definition with_interface (v : Z) (l : lease) : lease :=
  Lease (l_clid_len l) (l_clid l) (l_hostname l) (l_fqdn l) (l_old_hostname l) (l_flags l) (l_expires l) (l_hwaddr_len l) (l_hwaddr_type l) (l_hwaddr l)
    (l_addr l) (l_override l) (l_giaddr l) (l_extradata l) (l_extradata_len l) (l_extradata_size l) v.

Definition or_flags (v : Z) (l : lease) : lease := with_lflags (Z.lor (l_flags l) v) l.

(** The static variables of lease.c. A list of leases is the list of their
    addresses and contents, in the order of the [next] pointers. *)
Record ldb := Ldb {
  leases : list (ptr * lease); old_leases : list (ptr * lease);
  dns_dirty : bool; file_dirty : bool; leases_left : Z }.

Definition with_leases (v : list (ptr * lease)) (s : ldb) : ldb := Ldb v (old_leases s) (dns_dirty s) (file_dirty s) (leases_left s).
Definition with_old (v : list (ptr * lease)) (s : ldb) : ldb := Ldb (leases s) v (dns_dirty s) (file_dirty s) (leases_left s).
Definition dirty_file (s : ldb) : ldb := Ldb (leases s) (old_leases s) (dns_dirty s) true (leases_left s).
Definition dirty_dns (s : ldb) : ldb := Ldb (leases s) (old_leases s) true (file_dirty s) (leases_left s).

Fixpoint assoc (i : ptr) (l : list (ptr * lease)) : option lease :=
  match l with
  | [] => None
  | (j, x) :: l' => if bool_decide (i = j) then Some x else assoc i l'
  end.

Definition getl (s : ldb) (i : ptr) : comp lease := of_option NullDeref (assoc i (leases s)).
Definition set_lease (i : ptr) (x : lease) (l : list (ptr * lease)) : list (ptr * lease) :=
  (fun e => if bool_decide (i = e.1) then (i, x) else e) <$> l.
#[global] Arguments set_lease : simpl never.
Definition putl (i : ptr) (x : lease) (s : ldb) : ldb := with_leases (set_lease i x (leases s)) s.

(** The first [n] bytes behind a pointer, and [memcmp (a, b, n) == 0]. *)
Definition first_bytes (n : Z) (l : list Z) : comp (list Z) :=
  if (n <? 0) || (zlen l <? n) then Fault ReadOOB else Ok (take (Z.to_nat n) l).
Definition memcmp0 (a b : list Z) (n : Z) : comp bool :=
  a ← first_bytes n a; b ← first_bytes n b; mret (bool_decide (a = b)).

(** * Searching *)

Fixpoint find_lease (p : lease -> comp bool) (l : list (ptr * lease)) : comp (option ptr) :=
  match l with
  | [] => Ok None
  | (i, x) :: l' => b ← p x; if (b : bool) then Ok (Some i) else find_lease p l'
  end.

Definition same_clid (clid : list Z) (clid_len : Z) (x : lease) : comp bool :=
  match l_clid x with
  | Some c => if clid_len =? l_clid_len x then memcmp0 clid c clid_len else Ok false
  | None => Ok false
  end.

Definition same_hwaddr (hwaddr : list Z) (hw_len hw_type : Z) (clid : option (list Z)) (x : lease) : comp bool :=
  if (bool_decide (l_clid x = None) || bool_decide (clid = None)) && negb (hw_len =? 0) && (l_hwaddr_len x =? hw_len) && (l_hwaddr_type x =? hw_type)
  then memcmp0 hwaddr (l_hwaddr x) hw_len else Ok false.

Definition lease_find_by_client (hwaddr : list Z) (hw_len hw_type : Z) (clid : option (list Z)) (clid_len : Z) (s : ldb) : comp (option ptr) :=
  r ← match clid with Some c => find_lease (same_clid c clid_len) (leases s) | None => mret None end;
  match r with
  | Some i => mret (Some i)
  | None => find_lease (same_hwaddr hwaddr hw_len hw_type clid) (leases s)
  end.

Fixpoint find_addr (addr : in_addr) (l : list (ptr * lease)) : option ptr :=
  match l with
  | [] => None
  | (i, x) :: l' => if bool_decide (l_addr x = addr) then Some i else find_addr addr l'
  end.
Definition lease_find_by_addr (addr : in_addr) (s : ldb) : option ptr := find_addr addr (leases s).

(** The largest address that is leased in a range; [fixed_range] is whether
    the range is static or for proxies. *)
Fixpoint max_addr (start end_ : in_addr) (addr : in_addr) (l : list (ptr * lease)) : in_addr :=
  match l with
  | [] => addr
  | (_, x) :: l' =>
      let a := l_addr x in
      max_addr start end_ (if (addr_num start <? addr_num a) && (addr_num a <=? addr_num end_) && (addr_num addr <? addr_num a) then a else addr) l'
  end.
Definition lease_find_max_addr (start end_ : in_addr) (fixed_range : bool) (s : ldb) : in_addr :=
  if fixed_range then start else max_addr start end_ start (leases s).

(** * Adding and removing *)

Definition lease_prune (target : option ptr) (now : Z) (s : ldb) : ldb :=
  fold_left (fun s '(i, x) =>
      if (negb (l_expires x =? 0) && (0 <? now - l_expires x)) || bool_decide (target = Some i) then
        Ldb (leases s) ((i, x) :: old_leases s) (dns_dirty s || bool_decide (is_Some (l_hostname x))) true (leases_left s + 1)
      else with_leases (leases s ++ [(i, x)]) s)
    (leases s) (with_leases [] s).

Definition no_addr : in_addr := (0, 0, 0, 0).
Definition blank_lease : lease :=
  Lease 0 None None None None LEASE_NEW 1 0 0 (replicate 16 0) no_addr no_addr no_addr None 0 0 0.

(** [mem] is what [whine_malloc] returns. *)
Definition lease_allocate (mem : option ptr) (s : ldb) : option ptr * ldb :=
  if leases_left s =? 0 then (None, s)
  else match mem with
  | None => (None, s)
  | Some i => (Some i, Ldb ((i, blank_lease) :: leases s) (old_leases s) (dns_dirty s) true (leases_left s - 1))
  end.

Definition lease4_allocate (addr : in_addr) (mem : option ptr) (s : ldb) : comp (ptr * ldb) :=
  match lease_allocate mem s with
  | (None, _) => Fault NullDeref
  | (Some i, s) => x ← getl s i; mret (i, putl i (with_hwaddr 256 (l_hwaddr_type x) (l_hwaddr x) (with_addr addr x)) s)
  end.

(** * Changing a lease *)

Definition lease_set_expires (i : ptr) (len now : Z) (s : ldb) : comp ldb :=
  let exp := if len =? 0xffffffff then 0 else s32 (now + s32 len) in
  x ← getl s i;
  mret (if negb (exp =? l_expires x) then dirty_file (putl i (or_flags LEASE_AUX_CHANGED (with_expires exp x)) (dirty_dns s)) else s).

(** The identifier of the client; [mem] is whether there is memory for it. *)
Definition set_clid (clid : list Z) (clid_len : Z) (mem : bool) (x : lease) : comp (bool * lease) :=
  let n := match l_clid x with None => 0 | Some _ => l_clid_len x end in
  if negb (n =? clid_len) then
    let x := or_flags LEASE_AUX_CHANGED x in
    if mem then c ← first_bytes clid_len clid; mret (true, with_clid clid_len (Some c) x)
    else mret (true, with_clid n None x)
  else
    old ← of_option NullDeref (l_clid x);
    e ← memcmp0 old clid clid_len;
    c ← first_bytes clid_len clid;
    mret (negb e, with_clid clid_len (Some (c ++ drop (Z.to_nat clid_len) old)) (if (e : bool) then x else or_flags LEASE_AUX_CHANGED x)).

Definition lease_set_hwaddr (i : ptr) (hwaddr : list Z) (clid : option (list Z)) (hw_len hw_type clid_len : Z) (mem : bool) (s : ldb) : comp ldb :=
  x ← getl s i;
  differs ← (if negb (hw_len =? l_hwaddr_len x) || negb (hw_type =? l_hwaddr_type x) then mret true
             else if negb (hw_len =? 0) then e ← memcmp0 (l_hwaddr x) hwaddr hw_len; mret (negb e) else mret false);
  '(x, s) ← (if (differs : bool) then
               h ← (if negb (hw_len =? 0) then
                      h ← first_bytes hw_len hwaddr;
                      if DHCP_CHADDR_MAX <? hw_len then Fault WriteOOB else mret (h ++ drop (Z.to_nat hw_len) (l_hwaddr x))
                    else mret (l_hwaddr x));
               mret (or_flags LEASE_CHANGED (with_hwaddr hw_len hw_type h x), dirty_file s)
             else mret (x, s));
  '(x, s) ← match clid with
            | Some c =>
                if negb (clid_len =? 0) then '(changed, x) ← set_clid c clid_len mem x; mret (x, if (changed : bool) then dirty_file s else s)
                else mret (x, s)
            | None => mret (x, s)
            end;
  mret (putl i x s).

Definition kill_name (x : lease) : lease :=
  with_names None None (match l_fqdn x with Some f => Some f | None => l_hostname x end) x.

(** Whether the walk of [lease_set_hostname] stops at a lease [t]: it has the
    name that the lease [x] gets. *)
Definition has_name (fqdn_mode : bool) (new_name new_fqdn : option (list Z)) (x t : lease) : comp bool :=
  let eq a b := match a, b with Some a, Some b => hostname_isequal a b | _, _ => false end in
  if negb (if fqdn_mode then eq (l_fqdn t) new_fqdn else eq (l_hostname t) new_name) then Ok false
  else if has (l_flags x) (Z.lor LEASE_TA LEASE_NA) then
    if negb (has (l_flags t) (Z.lor LEASE_TA LEASE_NA)) then Ok false
    else match l_clid x, l_clid t with
         | Some c, Some d => if l_clid_len x =? l_clid_len t then e ← memcmp0 c d (l_clid_len x); mret (negb e) else Ok true
         | _, _ => Ok true
         end
  else Ok (negb (has (l_flags t) (Z.lor LEASE_TA LEASE_NA))).

(** [mem] and [mem2] are whether there is memory for the name and for the
    name with its domain. *)
Definition lease_set_hostname (fqdn_mode : bool) (i : ptr) (name : option (list Z)) (auth : bool) (domain : option (list Z)) (mem mem2 : bool) (s : ldb)
  : comp ldb :=
  x ← getl s i;
  if match l_hostname x, name with Some h, Some n => hostname_isequal h n | _, _ => false end then
    mret (if auth then putl i (or_flags LEASE_AUTH_NAME x) s else s)
  else if bool_decide (name = None) && bool_decide (l_hostname x = None) then mret s
  else
    let new_name := n ← name; if mem then Some n else None in
    let new_fqdn := n ← new_name; d ← domain; if mem2 then Some (n ++ [46] ++ d) else None in
    t ← match name with None => mret None | Some _ => find_lease (has_name fqdn_mode new_name new_fqdn x) (leases s) end;
    '(refused, s) ← match t with
                    | None => mret (false, s)
                    | Some j => y ← getl s j; if has (l_flags y) LEASE_AUTH_NAME && negb auth then mret (true, s) else mret (false, putl j (kill_name y) s)
                    end;
    if (refused : bool) then mret s
    else
      x ← getl s i;
      let x := match l_hostname x with Some _ => kill_name x | None => x end in
      let x := with_names new_name new_fqdn (l_old_hostname x) x in
      let x := if auth then or_flags LEASE_AUTH_NAME x else x in
      mret (dirty_dns (dirty_file (putl i (or_flags LEASE_CHANGED x) s))).

Definition lease_set_interface (i : ptr) (interface : Z) (s : ldb) : comp ldb :=
  x ← getl s i;
  mret (if l_last_interface x =? interface then s else putl i (or_flags LEASE_CHANGED (with_interface interface x)) s).

Definition rerun_scripts (s : ldb) : ldb := with_leases ((fun e => (e.1, or_flags LEASE_CHANGED e.2)) <$> leases s) s.

(** Data for the script: fields that a delimiter ends. *)
Definition lease_add_extradata (i : ptr) (data : list Z) (len delim : Z) (mem : bool) (s : ldb) : comp ldb :=
  x ← getl s i;
  d ← first_bytes len data;
  let d := cstr d in let len := zlen d in
  x ← (if u32 (l_extradata_size x - l_extradata_len x) <? len + 1 then
         if mem then
           let newsz := l_extradata_len x + len + 100 in
           old ← match l_extradata x with None => mret [] | Some o => first_bytes (l_extradata_len x) o end;
           mret (Some (with_extradata (Some (old ++ replicate (Z.to_nat newsz - length old) 0)) (l_extradata_len x) newsz x))
         else mret None
       else mret (Some x));
  match x with
  | None => mret s
  | Some x =>
      e ← of_option NullDeref (l_extradata x);
      if zlen e <? l_extradata_len x + len + 1 then Fault WriteOOB
      else mret (putl i (with_extradata (Some (blit e (Z.to_nat (l_extradata_len x)) (d ++ [delim]))) (l_extradata_len x + len + 1) (l_extradata_size x) x) s)
  end.

(** * The script *)

(** What [queue_script] gets: the action, the lease as it is then, and a name. *)
Record event := Event { ev_action : Z; ev_lease : lease; ev_name : option (list Z) }.

Definition drop_old (x : lease) : lease := with_names (l_hostname x) (l_fqdn x) None x.
Definition told (x : lease) : lease :=
  with_extradata None (l_extradata_len x) (l_extradata_size x)
    (with_lflags (Z.ldiff (l_flags x) (Z.lor (Z.lor LEASE_NEW LEASE_CHANGED) LEASE_AUX_CHANGED)) x).

Definition to_tell (lease_ro : bool) (x : lease) : bool :=
  has (l_flags x) (Z.lor LEASE_NEW LEASE_CHANGED) || (has (l_flags x) LEASE_AUX_CHANGED && lease_ro).

Fixpoint first_lease (p : lease -> bool) (l : list (ptr * lease)) : option (ptr * lease) :=
  match l with
  | [] => None
  | (i, x) :: l' => if p x then Some (i, x) else first_lease p l'
  end.

(** One event at a time; [None] when there is nothing to do. [lease_ro] is
    the option [OPT_LEASE_RO]. *)
Definition do_script_run (lease_ro : bool) (s : ldb) : option event * ldb :=
  match old_leases s with
  | (i, x) :: rest =>
      match l_old_hostname x with
      | Some o => (Some (Event ACTION_OLD_HOSTNAME x (Some o)), with_old ((i, drop_old x) :: rest) s)
      | None => let x := kill_name x in (Some (Event ACTION_DEL x (l_old_hostname x)), with_old rest s)
      end
  | [] =>
      match first_lease (fun x => bool_decide (is_Some (l_old_hostname x))) (leases s) with
      | Some (i, x) => (Some (Event ACTION_OLD_HOSTNAME x (l_old_hostname x)), putl i (drop_old x) s)
      | None =>
          match first_lease (to_tell lease_ro) (leases s) with
          | Some (i, x) =>
              (Some (Event (if has (l_flags x) LEASE_NEW then ACTION_ADD else ACTION_OLD) x
                       (match l_fqdn x with Some f => Some f | None => l_hostname x end)), putl i (told x) s)
          | None => (None, s)
          end
      end
  end.

(** What the server does with the answer that it has for a client
    (rfc2131.c): the data for the script are made anew. Each field has its
    delimiter and whether there is memory for it. *)
Fixpoint add_fields (i : ptr) (fields : list (list Z * Z * bool)) (s : ldb) : comp ldb :=
  match fields with
  | [] => Ok s
  | (d, delim, mem) :: fields' => s ← lease_add_extradata i d (zlen d) delim mem s; add_fields i fields' s
  end.
Definition new_extradata (i : ptr) (fields : list (list Z * Z * bool)) (s : ldb) : comp ldb :=
  x ← getl s i;
  add_fields i fields (putl i (with_extradata None 0 0 (or_flags LEASE_CHANGED x)) s).

(** * Lists of leases *)

Lemma assoc_in i x l : assoc i l = Some x -> (i, x) ∈ l.
Proof.
  induction l as [|[j y] l IH]; cbn [assoc]; [done|]. case_bool_decide as E; [intros [= ->]; subst; by left|]. intros H. right. auto.
Qed.

Lemma in_assoc i x l : NoDup l.*1 -> (i, x) ∈ l -> assoc i l = Some x.
Proof.
  induction l as [|[j y] l IH]; [by intros _ ?%elem_of_nil|]. rewrite fmap_cons. intros [Hj Hnd]%NoDup_cons Hi. cbn [assoc].
  apply elem_of_cons in Hi as [[= -> ->]|Hi]; [by rewrite bool_decide_eq_true_2|].
  rewrite bool_decide_eq_false_2; [auto|]. intros ->. apply Hj. apply list_elem_of_fmap. by exists (j, x).
Qed.

Lemma assoc_iff i x l : NoDup l.*1 -> assoc i l = Some x <-> (i, x) ∈ l.
Proof. intros. split; [apply assoc_in|by apply in_assoc]. Qed.

Lemma set_lease_keys i x l : (set_lease i x l).*1 = l.*1.
Proof. unfold set_lease. induction l as [|[j y] l IH]; [done|]. cbn. rewrite <-IH. f_equal. by case_bool_decide. Qed.

Lemma set_lease_len i x l : zlen (set_lease i x l) = zlen l.
Proof. unfold set_lease, zlen. by rewrite length_fmap. Qed.

Lemma set_lease_in i x l j y : (j, y) ∈ set_lease i x l -> (j = i /\ y = x) \/ (j <> i /\ (j, y) ∈ l).
Proof.
  unfold set_lease. intros ([k z] & He & Hk)%list_elem_of_fmap. cbn in He. case_bool_decide as E; [by left; simplify_eq|].
  right. injection He as -> ->. split; [congruence|done].
Qed.

Lemma set_lease_other i x l j y : j <> i -> (j, y) ∈ l -> (j, y) ∈ set_lease i x l.
Proof. intros Hj Hi. apply list_elem_of_fmap. exists (j, y). split; [|done]. cbn. by rewrite bool_decide_eq_false_2 by congruence. Qed.

Lemma set_lease_here i x y l : (i, y) ∈ l -> (i, x) ∈ set_lease i x l.
Proof. intros Hi. apply list_elem_of_fmap. exists (i, y). split; [|done]. cbn. by rewrite bool_decide_eq_true_2. Qed.

Lemma set_lease_absent i x l : i ∉ l.*1 -> set_lease i x l = l.
Proof.
  unfold set_lease. intros Hn. induction l as [|[j y] l IH]; [done|]. cbn in *. rewrite bool_decide_eq_false_2 by set_solver. f_equal. apply IH. set_solver.
Qed.

Lemma set_lease_cons i x y l : i ∉ l.*1 -> set_lease i x ((i, y) :: l) = (i, x) :: l.
Proof. intros Hn. rewrite <-(set_lease_absent i x l Hn) at 2. unfold set_lease. cbn. by rewrite bool_decide_eq_true_2. Qed.

Lemma assoc_set i x y l : assoc i l = Some y -> assoc i (set_lease i x l) = Some x.
Proof.
  unfold set_lease. induction l as [|[j z] l IH]; cbn; [done|]. case_bool_decide as E; [subst; cbn; by rewrite bool_decide_eq_true_2|].
  cbn. rewrite bool_decide_eq_false_2 by done. apply IH.
Qed.

Lemma assoc_set_ne i j x l : j <> i -> assoc j (set_lease i x l) = assoc j l.
Proof.
  intros Hj. unfold set_lease. induction l as [|[k z] l IH]; [done|]. cbn. case_bool_decide as E; cbn.
  - subst. rewrite !bool_decide_eq_false_2 by done. apply IH.
  - case_bool_decide; [done|]. apply IH.
Qed.

Lemma find_lease_some p l i : find_lease p l = Ok (Some i) -> exists x, (i, x) ∈ l /\ p x = Ok true.
Proof.
  induction l as [|[j y] l IH]; cbn [find_lease]; [done|]. destruct (p y) as [[]|] eqn:E; cbn; [intros [= ->]; exists y; split; [by left|done]|..|done].
  intros (x & ? & ?)%IH. exists x. split; [by right|done].
Qed.

Lemma find_lease_none p l : find_lease p l = Ok None -> forall i x, (i, x) ∈ l -> p x = Ok false.
Proof.
  induction l as [|[j y] l IH]; cbn [find_lease]; [by intros _ ? ? ?%elem_of_nil|].
  destruct (p y) as [[]|] eqn:E; cbn; [done| |done]. intros H i x [[= -> ->]|Hi]%elem_of_cons; [done|]. by apply (IH H i).
Qed.

Lemma find_lease_ok p l : (forall i x, (i, x) ∈ l -> exists b, p x = Ok b) -> exists r, find_lease p l = Ok r.
Proof.
  induction l as [|[j y] l IH]; intros Hp; cbn [find_lease]; [by eexists|]. destruct (Hp j y) as [b ->]; [by left|]. cbn.
  destruct b; [by eexists|]. apply IH. intros i x Hi. apply (Hp i). by right.
Qed.

Lemma first_bytes_ok n l : 0 <= n <= zlen l -> first_bytes n l = Ok (take (Z.to_nat n) l).
Proof. intros H. unfold first_bytes. destruct (n <? 0) eqn:E1, (zlen l <? n) eqn:E2; zbool; try lia. done. Qed.

Lemma memcmp0_ok a b n : 0 <= n <= zlen a -> n <= zlen b -> memcmp0 a b n = Ok (bool_decide (take (Z.to_nat n) a = take (Z.to_nat n) b)).
Proof. intros. unfold memcmp0. by rewrite !first_bytes_ok by lia. Qed.

Lemma first_lease_some p l i x : first_lease p l = Some (i, x) -> exists l1 l2, l = l1 ++ (i, x) :: l2 /\ p x = true /\ forall e, e ∈ l1 -> p e.2 = false.
Proof.
  induction l as [|[j y] l IH]; cbn [first_lease]; [done|]. destruct (p y) eqn:E.
  - intros [= -> ->]. exists [], l. split_and!; try done. by intros ? ?%elem_of_nil.
  - intros (l1 & l2 & -> & ? & H)%IH. exists ((j, y) :: l1), l2. split_and!; try done. intros e [->|He]%elem_of_cons; auto.
Qed.

Lemma first_lease_none p l : first_lease p l = None -> forall e, e ∈ l -> p e.2 = false.
Proof.
  induction l as [|[j y] l IH]; cbn [first_lease]; [by intros _ ? ?%elem_of_nil|]. destruct (p y) eqn:E; [done|].
  intros H e [->|He]%elem_of_cons; auto.
Qed.

Lemma find_addr_none a l : find_addr a l = None <-> forall i x, (i, x) ∈ l -> l_addr x <> a.
Proof.
  induction l as [|[j y] l IH]; cbn [find_addr]; [split; [by intros _ ? ? ?%elem_of_nil|done]|]. case_bool_decide as E.
  - split; [done|]. intros H. by destruct (H j y (list_elem_of_here _ _)).
  - rewrite IH. split.
    + intros H i x [[= -> ->]|Hi]%elem_of_cons; [done|by apply (H i)].
    + intros H i x Hi. apply (H i). by right.
Qed.

Lemma find_addr_some a l i : find_addr a l = Some i -> exists x, (i, x) ∈ l /\ l_addr x = a.
Proof.
  induction l as [|[j y] l IH]; cbn [find_addr]; [done|]. case_bool_decide as E; [intros [= ->]; exists y; split; [by left|done]|].
  intros (x & ? & ?)%IH. exists x. split; [by right|done].
Qed.

(** ** Leases that end *)

Definition ended (target : option ptr) (now : Z) (e : ptr * lease) : bool :=
  (negb (l_expires e.2 =? 0) && (0 <? now - l_expires e.2)) || bool_decide (target = Some e.1).

Lemma lease_prune_eq target now s :
  leases (lease_prune target now s) = filter (fun e => ended target now e = false) (leases s) /\
  old_leases (lease_prune target now s) = reverse (filter (fun e => ended target now e = true) (leases s)) ++ old_leases s /\
  leases_left (lease_prune target now s) = leases_left s + zlen (filter (fun e => ended target now e = true) (leases s)) /\
  dns_dirty (lease_prune target now s) = dns_dirty s || existsb (fun e => ended target now e && bool_decide (is_Some (l_hostname e.2))) (leases s) /\
  file_dirty (lease_prune target now s) = file_dirty s || existsb (ended target now) (leases s).
Proof.
  unfold lease_prune. generalize (leases s). intros l.
  assert (forall s, let s' := fold_left (fun s '(i, x) =>
      if (negb (l_expires x =? 0) && (0 <? now - l_expires x)) || bool_decide (target = Some i) then
        Ldb (leases s) ((i, x) :: old_leases s) (dns_dirty s || bool_decide (is_Some (l_hostname x))) true (leases_left s + 1)
      else with_leases (leases s ++ [(i, x)]) s) l s in
    leases s' = leases s ++ filter (fun e => ended target now e = false) l /\
    old_leases s' = reverse (filter (fun e => ended target now e = true) l) ++ old_leases s /\
    leases_left s' = leases_left s + zlen (filter (fun e => ended target now e = true) l) /\
    dns_dirty s' = dns_dirty s || existsb (fun e => ended target now e && bool_decide (is_Some (l_hostname e.2))) l /\
    file_dirty s' = file_dirty s || existsb (ended target now) l) as H; [|apply (H (with_leases [] s))].
  induction l as [|[i x] l IH]; intros s0; cbn [fold_left].
  { cbn. rewrite app_nil_r, !orb_false_r, zlen_nil. split_and!; try done. lia. }
  rewrite !filter_cons. change (negb (l_expires x =? 0) && (0 <? now - l_expires x) || bool_decide (target = Some i)) with (ended target now (i, x)).
  cbn [existsb]. destruct (ended target now (i, x)) eqn:E; repeat (case_decide; try done); match goal with |- context [fold_left _ _ ?s] => specialize (IH s) end;
    cbn [leases old_leases dns_dirty file_dirty leases_left with_leases] in IH; cbn zeta in IH; destruct IH as (-> & -> & -> & -> & ->);
    rewrite ?reverse_cons, <-?app_assoc, ?zlen_cons, ?orb_assoc; split_and!; try done; try lia.
  all: cbn; rewrite ?orb_true_r, ?orb_false_r; done.
Qed.
