(* ===== verification/DmLeaseInv.v ===== *)
(** The invariant of dnsmasq's lease database, and that the operations keep
    it: how many leases there are, who has which name, and the sizes of the
    blocks that a lease points to. *)
From S2P Require Import Prelude CString Dns Common DmUtil DmName DmPacket DmLru DmCache DmCacheInv DmLease.
Set Warnings "-clear-no-such-hyp".

(** The name under which a lease is looked for: in the mode of the option
    [OPT_DHCP_FQDN] the one with its domain. *)
Definition key (fqdn_mode : bool) (x : lease) : option (list Z) := if fqdn_mode then l_fqdn x else l_hostname x.
Definition names_equal (a b : option (list Z)) : bool :=
  match a, b with Some a, Some b => hostname_isequal a b | _, _ => false end.

Record lease_ok (x : lease) : Prop := {
  lo_hw : zlen (l_hwaddr x) = DHCP_CHADDR_MAX;
  lo_clid : forall c, l_clid x = Some c -> zlen c = l_clid_len x;
  lo_v4 : has (l_flags x) (Z.lor LEASE_TA LEASE_NA) = false;
  lo_fqdn : is_Some (l_fqdn x) -> is_Some (l_hostname x);
  lo_extra : forall e, l_extradata x = Some e -> zlen e = l_extradata_size x /\ 0 <= l_extradata_len x <= l_extradata_size x }.

Record linv (fqdn_mode : bool) (max : Z) (s : ldb) : Prop := {
  li_nodup : NoDup ((leases s).*1 ++ (old_leases s).*1);
  li_ok : forall e, e ∈ leases s ++ old_leases s -> lease_ok e.2;
  li_count : leases_left s + zlen (leases s) = max;
  li_left : 0 <= leases_left s;
  li_names : forall i x j y, (i, x) ∈ leases s -> (j, y) ∈ leases s -> i <> j -> names_equal (key fqdn_mode x) (key fqdn_mode y) = false }.

Lemma hostname_sym a b : hostname_isequal a b = hostname_isequal b a.
Proof.
  destruct (hostname_isequal a b) eqn:E1, (hostname_isequal b a) eqn:E2; try done.
  - apply hostname_isequal_iff in E1. symmetry in E1. apply hostname_isequal_iff in E1. congruence.
  - apply hostname_isequal_iff in E2. symmetry in E2. apply hostname_isequal_iff in E2. congruence.
Qed.

Lemma names_equal_sym a b : names_equal a b = names_equal b a.
Proof. destruct a, b; try done. apply hostname_sym. Qed.

Lemma names_equal_none a : names_equal a None = false.
Proof. by destruct a. Qed.

(** The addresses that are leased, with their leases. *)
Definition addrs (s : ldb) : list (ptr * in_addr) := (fun e => (e.1, l_addr e.2)) <$> leases s.

Lemma addrs_set i x x' l : NoDup l.*1 -> (i, x) ∈ l -> l_addr x' = l_addr x -> (fun e => (e.1, l_addr e.2)) <$> set_lease i x' l = (fun e => (e.1, l_addr e.2)) <$> l.
Proof.
  intros Hnd Hi Ha. unfold set_lease. rewrite <-list_fmap_compose. apply fmap_ext_in. intros [j y] Hj. cbn. case_bool_decide as E; [|done]. subst j. cbn.
  pose proof (in_assoc i x l Hnd Hi). pose proof (in_assoc i y l Hnd Hj). congruence.
Qed.

Section Invariant.
Context (mode : bool) (max : Z).

Lemma linv_nodup s : linv mode max s -> NoDup (leases s).*1.
Proof. intros I. by apply li_nodup, NoDup_app in I as [? _]. Qed.

Lemma linv_in s i x : linv mode max s -> (i, x) ∈ leases s -> lease_ok x.
Proof. intros I Hi. apply (li_ok _ _ _ I (i, x)). apply elem_of_app. by left. Qed.

Lemma getl_ok s i x : linv mode max s -> (i, x) ∈ leases s -> getl s i = Ok x.
Proof. intros I Hi. unfold getl. by rewrite (in_assoc i x) by (done || by apply linv_nodup). Qed.

(** The flags that say what has to be written do not matter. *)
Lemma linv_dirty s s' : linv mode max s -> leases s' = leases s -> old_leases s' = old_leases s -> leases_left s' = leases_left s -> linv mode max s'.
Proof. intros [I1 I2 I3 I4 I5] E1 E2 E3. split; rewrite ?E1, ?E2, ?E3; done. Qed.

(** A lease changes; it has the same name, none, or one that no other lease
    has. *)
Lemma linv_put s i x x' : linv mode max s -> (i, x) ∈ leases s -> lease_ok x' ->
  (forall j y, (j, y) ∈ leases s -> j <> i -> names_equal (key mode x') (key mode y) = false) -> linv mode max (putl i x' s).
Proof.
  intros [I1 I2 I3 I4 I5] Hi Hok Hk. split; cbn.
  - by rewrite set_lease_keys.
  - intros [j y] [Hj|Hj]%elem_of_app; [|apply I2; apply elem_of_app; by right].
    apply set_lease_in in Hj as [[-> ->]|[_ Hj]]; [done|]. apply I2. apply elem_of_app. by left.
  - by rewrite set_lease_len.
  - done.
  - intros j y k z Hj Hl Hne. apply set_lease_in in Hj as [[-> ->]|[Hj1 Hj]], Hl as [[-> ->]|[Hk1 Hl]]; try done; [by apply (Hk k)| |by apply (I5 j y k z)].
    rewrite names_equal_sym. by apply (Hk j).
Qed.

Lemma linv_put_same s i x x' : linv mode max s -> (i, x) ∈ leases s -> lease_ok x' -> (key mode x' = key mode x \/ key mode x' = None) -> linv mode max (putl i x' s).
Proof.
  intros I Hi Hok [E|E]; apply (linv_put s i x); try done; intros j y Hj Hne; rewrite E; [|by destruct (key mode y)].
  by apply (li_names _ _ _ I i x j y).
Qed.

Lemma putl_in s i x x' : (i, x) ∈ leases s -> (i, x') ∈ leases (putl i x' s).
Proof. intros. by apply (set_lease_here _ _ x). Qed.

Lemma addrs_putl s i x x' : linv mode max s -> (i, x) ∈ leases s -> l_addr x' = l_addr x -> addrs (putl i x' s) = addrs s.
Proof. intros I Hi Ha. apply (addrs_set i x); [by apply linv_nodup|done|done]. Qed.

(** ** Pruning and allocating *)

Lemma linv_prune target now s : linv mode max s -> linv mode max (lease_prune target now s).
Proof.
  intros [I1 I2 I3 I4 I5]. destruct (lease_prune_eq target now s) as (E1 & E2 & E3 & _).
  assert (leases s ≡ₚ filter (fun e => ended target now e = false) (leases s) ++ filter (fun e => ended target now e = true) (leases s)) as Hp.
  { clear. induction (leases s) as [|e l IH]; [done|]. rewrite !filter_cons. destruct (ended target now e); repeat (case_decide; try done).
    - rewrite <-Permutation_middle. by constructor. - cbn. by constructor. }
  split; rewrite ?E1, ?E2, ?E3.
  - rewrite Hp in I1. rewrite fmap_app, <-app_assoc in I1. rewrite fmap_app, fmap_reverse, reverse_Permutation. done.
  - intros e He. apply I2. rewrite Hp. revert He. rewrite !elem_of_app, elem_of_reverse. tauto.
  - pose proof (Permutation_length Hp) as HL. rewrite length_app in HL. unfold zlen in *. lia.
  - unfold zlen. lia.
  - intros i x j y [_ Hi]%list_elem_of_filter [_ Hj]%list_elem_of_filter. by apply (I5 i x j y).
Qed.

Lemma blank_ok : lease_ok blank_lease.
Proof. by split. Qed.

Definition fresh_lease (addr : in_addr) : lease := with_hwaddr 256 0 (replicate 16 0) (with_addr addr blank_lease).

Lemma lease4_allocate_ok addr i s : linv mode max s -> leases_left s <> 0 -> i ∉ (leases s).*1 ++ (old_leases s).*1 ->
  let s' := Ldb ((i, fresh_lease addr) :: leases s) (old_leases s) (dns_dirty s) true (leases_left s - 1) in
  lease4_allocate addr (Some i) s = Ok (i, s') /\ linv mode max s'.
Proof.
  intros [I1 I2 I3 I4 I5] Hleft Hi s'. split.
  - unfold lease4_allocate, lease_allocate. destruct (leases_left s =? 0) eqn:E; zbool; [done|].
    unfold getl. cbn [leases assoc]. rewrite bool_decide_eq_true_2 by done. cbn [of_option mbind comp_bind mret comp_ret].
    unfold putl. cbn [leases]. rewrite set_lease_cons; [done|]. intros ?. apply Hi, elem_of_app. by left.
  - unfold s'. split; cbn [leases old_leases leases_left].
    + cbn. by constructor.
    + intros e [->|He]%elem_of_cons; [|by apply I2]. by split.
    + rewrite zlen_cons. lia.
    + lia.
    + intros k x j y [[= -> ->]|Hk]%elem_of_cons [[= -> ->]|Hj]%elem_of_cons Hne; try done.
      * by destruct mode.
      * rewrite names_equal_sym. by destruct mode.
      * by apply (I5 k x j y).
Qed.

(** ** Changing a lease *)

Lemma lor_v4 x v : lease_ok x -> has v (Z.lor LEASE_TA LEASE_NA) = false -> has (Z.lor (l_flags x) v) (Z.lor LEASE_TA LEASE_NA) = false.
Proof. intros H Hv. rewrite lor_has, Hv, (lo_v4 _ H). done. Qed.

Lemma or_flags_ok x v : lease_ok x -> has v (Z.lor LEASE_TA LEASE_NA) = false -> lease_ok (or_flags v x).
Proof. intros H Hv. destruct H as [H1 H2 H3 H4 H5]. split; try done. cbn. by rewrite lor_has, H3, Hv. Qed.

Lemma key_or v x : key mode (or_flags v x) = key mode x.
Proof. by destruct mode. Qed.

Lemma lease_set_expires_ok i x len now s : linv mode max s -> (i, x) ∈ leases s ->
  exists s', lease_set_expires i len now s = Ok s' /\ linv mode max s' /\ addrs s' = addrs s /\ old_leases s' = old_leases s.
Proof.
  intros I Hi. unfold lease_set_expires. rewrite (getl_ok _ _ _ I Hi). cbn [mbind comp_bind mret comp_ret]. eexists. split; [done|].
  case_match; [|done]. split; [|split; [by apply (addrs_putl s i x)|done]].
  eapply (linv_dirty (putl i _ s)); [|done..]. apply (linv_put_same s i x); [done|done| |left; by destruct mode].
  apply or_flags_ok; [|done]. destruct (linv_in _ _ _ I Hi). by split.
Qed.

Lemma lease_set_interface_ok i x n s : linv mode max s -> (i, x) ∈ leases s ->
  exists s', lease_set_interface i n s = Ok s' /\ linv mode max s' /\ addrs s' = addrs s /\ old_leases s' = old_leases s.
Proof.
  intros I Hi. unfold lease_set_interface. rewrite (getl_ok _ _ _ I Hi). cbn [mbind comp_bind mret comp_ret]. eexists. split; [done|].
  case_match; [done|]. split; [|split; [by apply (addrs_putl s i x)|done]]. apply (linv_put_same s i x); [done|done| |left; by destruct mode].
  apply or_flags_ok; [|done]. destruct (linv_in _ _ _ I Hi). by split.
Qed.

Lemma set_clid_ok c n mem x : lease_ok x -> 0 < n <= zlen c -> exists b x', set_clid c n mem x = Ok (b, x') /\ lease_ok x' /\ key mode x' = key mode x /\ l_addr x' = l_addr x.
Proof.
  intros H Hn. unfold set_clid. case_match eqn:E.
  - destruct mem; [rewrite first_bytes_ok by lia|]; cbn [mbind comp_bind mret comp_ret]; do 2 eexists; (split; [done|]); (split; [|by destruct mode]);
      destruct H as [O1 O2 O3 O4 O5]; split; try done; try (cbn; by rewrite lor_has, O3).
    cbn. intros ? [= <-]. unfold zlen in *. rewrite length_take. lia.
  - zbool. destruct (l_clid x) as [old|] eqn:Hc; [|lia]. cbn [of_option mbind comp_bind]. pose proof (lo_clid _ H _ Hc).
    rewrite memcmp0_ok by lia. rewrite first_bytes_ok by lia. cbn [mbind comp_bind mret comp_ret]. do 2 eexists. split; [done|].
    split; [|destruct mode; by case_match].
    assert (lease_ok (with_clid n (Some (take (Z.to_nat n) c ++ drop (Z.to_nat n) old)) x)) as Hok.
    { destruct H as [O1 O2 O3 O4 O5]. split; try done. cbn. intros ? [= <-]. unfold zlen in *. rewrite length_app, length_take, length_drop. lia. }
    case_match; [done|]. destruct Hok as [O1 O2 O3 O4 O5]. split; try done. cbn in *. by rewrite lor_has, O3.
Qed.

Lemma lease_set_hwaddr_ok i x hwaddr clid hw_len hw_type clid_len mem s : linv mode max s -> (i, x) ∈ leases s ->
  0 <= hw_len <= zlen hwaddr -> hw_len <= DHCP_CHADDR_MAX -> (forall c, clid = Some c -> 0 <= clid_len <= zlen c) ->
  exists s', lease_set_hwaddr i hwaddr clid hw_len hw_type clid_len mem s = Ok s' /\ linv mode max s' /\ addrs s' = addrs s /\ old_leases s' = old_leases s.
Proof.
  intros I Hi Hh1 Hh2 Hc. unfold lease_set_hwaddr. rewrite (getl_ok _ _ _ I Hi). cbn [mbind comp_bind].
  pose proof (linv_in _ _ _ I Hi) as Hok. pose proof (lo_hw _ Hok) as Hhw.
  match goal with |- context [@mbind comp _ _ _ _ ?m] => assert (exists b, m = Ok b) as (differs & ->) end.
  { case_match; [by eexists|]. case_match; [|by eexists]. rewrite memcmp0_ok by lia. by eexists. }
  cbn [mbind comp_bind].
  match goal with |- context [@mbind comp _ _ _ _ ?m] => assert (exists x1 s1, m = Ok (x1, s1) /\
    lease_ok x1 /\ (key mode x1 = key mode x /\ l_addr x1 = l_addr x) /\ leases s1 = leases s /\ old_leases s1 = old_leases s /\ leases_left s1 = leases_left s) as
    (x1 & s1 & -> & Hok1 & [Hk1 Ha1] & E1 & E2 & E3) end.
  { destruct differs; [|by exists x, s].
    assert (exists h, (if negb (hw_len =? 0) then h ← first_bytes hw_len hwaddr;
       if DHCP_CHADDR_MAX <? hw_len then Fault WriteOOB else mret (h ++ drop (Z.to_nat hw_len) (l_hwaddr x)) else mret (l_hwaddr x)) = Ok h /\ zlen h = DHCP_CHADDR_MAX) as (h & -> & Hh).
    { case_match; [|by eexists]. rewrite first_bytes_ok by lia. cbn [mbind comp_bind]. destruct (DHCP_CHADDR_MAX <? hw_len) eqn:E; zbool; [lia|].
      eexists. split; [done|]. unfold zlen, DHCP_CHADDR_MAX in *. rewrite length_app, length_take, length_drop. lia. }
    cbn [mbind comp_bind mret comp_ret]. do 2 eexists. split; [done|]. split; [apply or_flags_ok; [destruct Hok; by split|done]|]. split_and!; try done; by destruct mode. }
  cbn [mbind comp_bind].
  match goal with |- context [@mbind comp _ _ _ _ ?m] => assert (exists x2 s2, m = Ok (x2, s2) /\
    lease_ok x2 /\ (key mode x2 = key mode x /\ l_addr x2 = l_addr x) /\ leases s2 = leases s /\ old_leases s2 = old_leases s /\ leases_left s2 = leases_left s) as
    (x2 & s2 & -> & Hok2 & [Hk2 Ha2] & F1 & F2 & F3) end.
  { destruct clid as [c|]; [|by exists x1, s1]. case_match eqn:E; [|by exists x1, s1]. zbool. specialize (Hc c eq_refl).
    destruct (set_clid_ok c clid_len mem x1 Hok1 ltac:(lia)) as (b & x2 & -> & ? & ? & ?). cbn [mbind comp_bind mret comp_ret].
    exists x2, (if b then dirty_file s1 else s1). split; [done|]. split_and!; try done; [congruence|congruence|by destruct b..]. }
  cbn [mbind comp_bind mret comp_ret]. eexists. split; [done|]. split_and!; [|unfold addrs; cbn; rewrite F1; apply (addrs_set i x); [by eapply linv_nodup|done|done]|done].
  eapply (linv_dirty (putl i x2 s)); [|cbn; by rewrite F1|done..]. by apply (linv_put_same s i x); auto.
Qed.
(** ** Names *)

Lemma names_equal_trans a b c : names_equal a c = true -> names_equal b c = true -> names_equal a b = true.
Proof.
  destruct a, b, c; try done. cbn. rewrite !hostname_isequal_iff. congruence.
Qed.

Lemma kill_name_ok x : lease_ok x -> lease_ok (kill_name x).
Proof. intros [O1 O2 O3 O4 O5]. by split. Qed.

Lemma key_kill x : key mode (kill_name x) = None.
Proof. by destruct mode. Qed.

Definition new_key (n f : option (list Z)) : option (list Z) := if mode then f else n.

Lemma has_name_v4 n f x t : lease_ok x -> lease_ok t -> has_name mode n f x t = Ok (names_equal (key mode t) (new_key n f)).
Proof.
  intros Hx Ht. unfold has_name, new_key, key. rewrite (lo_v4 _ Hx), (lo_v4 _ Ht).
  fold (names_equal (l_fqdn t) f) (names_equal (l_hostname t) n).
  destruct mode; [destruct (names_equal (l_fqdn t) f)|destruct (names_equal (l_hostname t) n)]; done.
Qed.

(** What [lease_set_hostname] makes of a lease. *)
Definition named (n f : option (list Z)) (auth : bool) (x : lease) : lease :=
  let x := match l_hostname x with Some _ => kill_name x | None => x end in
  let x := with_names n f (l_old_hostname x) x in
  or_flags LEASE_CHANGED (if auth then or_flags LEASE_AUTH_NAME x else x).

Lemma named_ok n f auth x : lease_ok x -> (is_Some f -> is_Some n) -> lease_ok (named n f auth x).
Proof.
  intros Hx Hf. apply or_flags_ok; [|done]. assert (lease_ok (match l_hostname x with Some _ => kill_name x | None => x end)) as Hk.
  { case_match; [by apply kill_name_ok|done]. }
  assert (forall y, lease_ok y -> lease_ok (with_names n f (l_old_hostname y) y)) as Hw. { intros y [O1 O2 O3 O4 O5]. split; [exact O1|exact O2|exact O3|exact Hf|exact O5]. }
  destruct auth; [apply or_flags_ok; [|done]|]; by apply Hw.
Qed.

Lemma addr_named n f auth x : l_addr (named n f auth x) = l_addr x.
Proof. unfold named. destruct (l_hostname x), auth; done. Qed.

Lemma key_named n f auth x : key mode (named n f auth x) = new_key n f.
Proof. unfold named, new_key. rewrite key_or. destruct auth; rewrite ?key_or; by destruct mode. Qed.

(** The outcomes: nothing changes but the mark that the name is from the
    configuration; the name is refused; or the lease gets the name and the
    one that had it loses it. *)
Inductive name_outcome (i : ptr) (x : lease) (n f : option (list Z)) (auth : bool) (s s' : ldb) : Prop :=
| NameFree : (forall j y, (j, y) ∈ leases s -> names_equal (key mode y) (new_key n f) = false) ->
    s' = dirty_dns (dirty_file (putl i (named n f auth x) s)) -> name_outcome i x n f auth s s'
| NameMoved j y : (j, y) ∈ leases s -> names_equal (key mode y) (new_key n f) = true -> has (l_flags y) LEASE_AUTH_NAME && negb auth = false -> j <> i ->
    s' = dirty_dns (dirty_file (putl i (named n f auth x) (putl j (kill_name y) s))) -> name_outcome i x n f auth s s'
| NameOwn : names_equal (key mode x) (new_key n f) = true -> has (l_flags x) LEASE_AUTH_NAME && negb auth = false ->
    s' = dirty_dns (dirty_file (putl i (named n f auth (kill_name x)) (putl i (kill_name x) s))) -> name_outcome i x n f auth s s'
| NameRefused j y : (j, y) ∈ leases s -> names_equal (key mode y) (new_key n f) = true -> has (l_flags y) LEASE_AUTH_NAME = true -> auth = false ->
    s' = s -> name_outcome i x n f auth s s'.

Lemma lease_set_hostname_cases i x (name : option (list Z)) auth (domain : option (list Z)) (mem mem2 : bool) s : linv mode max s -> (i, x) ∈ leases s ->
  names_equal (l_hostname x) name = false -> ~ (name = None /\ l_hostname x = None) ->
  let n := n ← name; if mem then Some n else None in
  let f := n ← n; d ← domain; if mem2 then Some (n ++ [46] ++ d) else None in
  exists s', lease_set_hostname mode i name auth domain mem mem2 s = Ok s' /\ name_outcome i x n f auth s s'.
Proof.
  intros I Hi He Hn n f. unfold lease_set_hostname. rewrite (getl_ok _ _ _ I Hi). cbn [mbind comp_bind].
  fold (names_equal (l_hostname x) name). rewrite He.
  destruct (bool_decide (name = None) && bool_decide (l_hostname x = None)) eqn:E.
  { apply andb_true_iff in E as [E1%bool_decide_eq_true E2%bool_decide_eq_true]. by destruct Hn. }
  cbn zeta. fold n. fold f.
  assert (forall j y, (j, y) ∈ leases s -> has_name mode n f x y = Ok (names_equal (key mode y) (new_key n f))) as Hh.
  { intros j y Hj. apply has_name_v4; by eapply linv_in. }
  assert (exists t, match name with None => mret None | Some _ => find_lease (has_name mode n f x) (leases s) end = Ok t /\
    match t with
    | None => forall j y, (j, y) ∈ leases s -> names_equal (key mode y) (new_key n f) = false
    | Some j => exists y, (j, y) ∈ leases s /\ names_equal (key mode y) (new_key n f) = true
    end) as (t & -> & Ht).
  { destruct name as [nm|].
    - destruct (find_lease_ok (has_name mode n f x) (leases s)) as [t Ht]; [intros j y Hj; rewrite (Hh j y Hj); by eexists|].
      exists t. split; [done|]. destruct t as [j|].
      + apply find_lease_some in Ht as (y & Hj & Hy). exists y. rewrite (Hh j y Hj) in Hy. split; [done|congruence].
      + intros j y Hj. pose proof (find_lease_none _ _ Ht j y Hj) as Hy. rewrite (Hh j y Hj) in Hy. congruence.
    - exists None. split; [done|]. intros j y Hj. unfold f, n, new_key. cbn. destruct mode; apply names_equal_none. }
  cbn [mbind comp_bind]. destruct t as [j|]; cbn [mbind comp_bind mret comp_ret].
  - destruct Ht as (y & Hj & Hy). rewrite (getl_ok _ _ _ I Hj). cbn [mbind comp_bind mret comp_ret].
    destruct (has (l_flags y) LEASE_AUTH_NAME && negb auth) eqn:Ha.
    + apply andb_true_iff in Ha as [Ha1 Ha2%negb_true_iff]. eexists. split; [done|]. by apply (NameRefused i x n f auth s s j y).
    + pose proof (linv_put_same s j y (kill_name y) I Hj (kill_name_ok _ (linv_in _ _ _ I Hj)) (or_intror (key_kill y))) as I1.
      destruct (decide (j = i)) as [->|Hne].
      * assert (y = x) as -> by (pose proof (in_assoc i x _ (linv_nodup _ I) Hi); pose proof (in_assoc i y _ (linv_nodup _ I) Hj); congruence).
        cbn [mbind comp_bind mret comp_ret]. rewrite (getl_ok _ _ _ I1 (putl_in _ _ x _ Hi)). cbn [mbind comp_bind mret comp_ret]. eexists. split; [done|]. by apply NameOwn.
      * cbn [mbind comp_bind mret comp_ret]. rewrite (getl_ok _ i x I1) by (by apply set_lease_other). cbn [mbind comp_bind mret comp_ret]. eexists. split; [done|].
        by apply (NameMoved i x n f auth s _ j y).
  - rewrite (getl_ok _ _ _ I Hi). cbn [mbind comp_bind mret comp_ret]. eexists. split; [done|]. by apply NameFree.
Qed.

Lemma name_outcome_ok i x n f auth s s' : linv mode max s -> (i, x) ∈ leases s -> (is_Some f -> is_Some n) -> name_outcome i x n f auth s s' ->
  linv mode max s' /\ addrs s' = addrs s /\ old_leases s' = old_leases s.
Proof.
  intros I Hi Hf. pose proof (linv_in _ _ _ I Hi) as Hok. intros [Hfree ->|j y Hj Hy Ha Hne ->|Hy Ha ->|j y Hj Hy Ha Hn ->]; [| | |done].
  - split; [|split; [apply (addrs_putl s i x); [done|done|apply addr_named]|done]]. eapply (linv_dirty (putl i _ s)); [|done..]. apply (linv_put s i x); [done|done|by apply named_ok|].
    intros k z Hk _. rewrite key_named, names_equal_sym. by apply (Hfree k).
  - pose proof (linv_put_same s j y (kill_name y) I Hj (kill_name_ok _ (linv_in _ _ _ I Hj)) (or_intror (key_kill y))) as I1.
    split; [|split; [|done]].
    2:{ transitivity (addrs (putl j (kill_name y) s)); [|by apply (addrs_putl s j y)].
        apply (addrs_putl (putl j (kill_name y) s) i x); [done|by apply set_lease_other|apply addr_named]. }
    eapply (linv_dirty (putl i _ (putl j (kill_name y) s))); [|done..]. apply (linv_put _ i x); [done|by apply set_lease_other|by apply named_ok|].
    intros k z [[-> ->]|[Hk1 Hk]]%set_lease_in _; [rewrite key_kill; apply names_equal_none|]. rewrite key_named, names_equal_sym.
    destruct (names_equal (key mode z) (new_key n f)) eqn:E; [|done]. pose proof (names_equal_trans _ _ _ E Hy).
    rewrite (li_names _ _ _ I k z j y) in *; done.
  - pose proof (linv_put_same s i x (kill_name x) I Hi (kill_name_ok _ Hok) (or_intror (key_kill x))) as I1.
    split; [|split; [|done]].
    2:{ transitivity (addrs (putl i (kill_name x) s)); [|by apply (addrs_putl s i x)].
        apply (addrs_putl (putl i (kill_name x) s) i (kill_name x)); [done|by apply (putl_in _ _ x)|apply addr_named]. }
    eapply (linv_dirty (putl i _ (putl i (kill_name x) s))); [|done..].
    apply (linv_put _ i (kill_name x)); [done|by apply (putl_in _ _ x)|apply named_ok; [by apply kill_name_ok|done]|].
    intros k z [[-> ->]|[Hk1 Hk]]%set_lease_in Hki; [done|]. rewrite key_named, names_equal_sym.
    destruct (names_equal (key mode z) (new_key n f)) eqn:E; [|done]. pose proof (names_equal_trans _ _ _ E Hy).
    rewrite (li_names _ _ _ I k z i x) in *; done.
Qed.

Lemma lease_set_hostname_ok i x name auth domain mem mem2 s : linv mode max s -> (i, x) ∈ leases s ->
  exists s', lease_set_hostname mode i name auth domain mem mem2 s = Ok s' /\ linv mode max s' /\ addrs s' = addrs s /\ old_leases s' = old_leases s.
Proof.
  intros I Hi. destruct (names_equal (l_hostname x) name) eqn:E1; [|destruct (decide (name = None /\ l_hostname x = None)) as [[-> E2]|Hn]].
  - unfold lease_set_hostname. rewrite (getl_ok _ _ _ I Hi). cbn [mbind comp_bind]. fold (names_equal (l_hostname x) name). rewrite E1.
    eexists. split; [done|]. destruct auth; [|done]. split; [|split; [by apply (addrs_putl s i x)|done]].
    apply (linv_put_same s i x); [done|done|apply or_flags_ok; [by eapply linv_in|done]|left; by apply key_or].
  - unfold lease_set_hostname. rewrite (getl_ok _ _ _ I Hi). cbn [mbind comp_bind]. rewrite E2. cbn. by eexists.
  - destruct (lease_set_hostname_cases i x name auth domain mem mem2 s I Hi E1 Hn) as (s' & -> & Ho). eexists. split; [done|].
    eapply name_outcome_ok; [done..| |done]. intros [? Hs]. destruct name; cbn in *; [|done]. destruct mem; [by eexists|done].
Qed.
End Invariant.
