(* ===== verification/DmLeaseRun.v ===== *)
(** Histories of dnsmasq's lease database: any sequence of the calls that the
    DHCP server makes, and what the script is told. *)
From S2P Require Import Prelude CString Dns Common DmUtil DmName DmPacket DmLru DmCache DmCacheInv DmLease DmLeaseInv.
Set Warnings "-clear-no-such-hyp".

(** * The data for the script *)

(** A lease holds the bytes [acc], or nothing yet. *)
Record extra_holds (x : lease) (acc : list Z) : Prop := {
  eh_len : l_extradata_len x = zlen acc;
  eh_size : 0 <= l_extradata_size x <= zlen acc + 100;
  eh_none : l_extradata x = None -> acc = [] /\ l_extradata_size x = 0;
  eh_some : forall e, l_extradata x = Some e -> zlen e = l_extradata_size x /\ zlen acc <= zlen e /\ take (length acc) e = acc }.

Lemma cstr_zlen d : 0 <= zlen (cstr d) <= zlen d.
Proof.
  induction d as [|c d IH]; cbn [cstr]; [done|]. unfold zlen in *. cbn [length]. destruct (c =? 0); cbn [length]; lia.
Qed.

Lemma blit_prefix e acc d : zlen acc + zlen d <= zlen e -> take (length acc) e = acc ->
  take (length (acc ++ d)) (blit e (Z.to_nat (zlen acc)) d) = acc ++ d.
Proof.
  intros He Ha. unfold blit, zlen in *. rewrite Nat2Z.id, Ha, app_assoc. rewrite take_app_le by done. by rewrite firstn_all.
Qed.

Lemma add_field_ok i x acc d delim mem s : getl s i = Ok x -> extra_holds x acc -> zlen acc + zlen d < 2 ^ 31 ->
  (mem = false /\ lease_add_extradata i d (zlen d) delim mem s = Ok s) \/
  exists x', lease_add_extradata i d (zlen d) delim mem s = Ok (putl i x' s) /\ extra_holds x' (acc ++ cstr d ++ [delim]) /\
    exists e n sz, x' = with_extradata e n sz x.
Proof.
  intros Hx [E1 E2 E3 E4] Hlen. unfold lease_add_extradata. rewrite Hx. cbn [mbind comp_bind]. rewrite first_bytes_ok by (pose proof (zlen_nonneg d); lia).
  cbn [mbind comp_bind]. replace (take (Z.to_nat (zlen d)) d) with d by (unfold zlen; by rewrite Nat2Z.id, firstn_all).
  pose proof (cstr_zlen d) as Hc. pose proof (zlen_nonneg acc) as Ha.
  assert (zlen acc <= l_extradata_size x) as Hle. { destruct (l_extradata x) as [e|]; [destruct (E4 e eq_refl) as (? & ? & ?); lia|destruct (E3 eq_refl) as [-> ->]; done]. }
  rewrite E1. replace (u32 (l_extradata_size x - zlen acc)) with (l_extradata_size x - zlen acc) by (unfold u32; rewrite Z.mod_small; lia).
  assert (forall e sz y, zlen e = sz -> zlen acc + zlen (cstr d) + 1 <= sz -> sz <= zlen acc + zlen (cstr d) + 101 -> take (length acc) e = acc ->
    extra_holds (with_extradata (Some (blit e (Z.to_nat (zlen acc)) (cstr d ++ [delim]))) (zlen acc + zlen (cstr d) + 1) sz y) (acc ++ cstr d ++ [delim])) as Hdone.
  { intros e sz y He H1 H2 H3. assert (zlen (acc ++ cstr d ++ [delim]) = zlen acc + zlen (cstr d) + 1) as Hl by (rewrite !zlen_app, zlen_cons, zlen_nil; lia).
    split; cbn; rewrite ?Hl; try lia; [done|]. intros ? [= <-].
    assert (length (blit e (Z.to_nat (zlen acc)) (cstr d ++ [delim])) = length e) as Hbl. { apply length_blit. rewrite length_app. cbn. unfold zlen in *. lia. }
    split; [unfold zlen in *; lia|]. split; [unfold zlen in *; lia|]. apply blit_prefix; [|done]. rewrite zlen_app, zlen_cons, zlen_nil. lia. }
  destruct (l_extradata_size x - zlen acc <? zlen (cstr d) + 1) eqn:Hroom; zbool.
  - destruct mem; cbn [mbind comp_bind mret comp_ret]; [|by left]. right.
    assert (exists old, match l_extradata x with None => mret [] | Some o => first_bytes (zlen acc) o end = Ok old /\ old = acc) as (old & -> & ->).
    { destruct (l_extradata x) as [o|] eqn:Ho; [|destruct (E3 eq_refl) as [-> _]; by eexists]. destruct (E4 o eq_refl) as (? & ? & Ht).
      rewrite first_bytes_ok by lia. eexists. split; [done|]. unfold zlen. by rewrite Nat2Z.id. }
    cbn [mbind comp_bind mret comp_ret l_extradata l_extradata_len l_extradata_size with_extradata of_option].
    match goal with |- context [zlen ?e <? _] => set (e0 := e) end.
    assert (zlen e0 = zlen acc + zlen (cstr d) + 100) as He0. { unfold e0. rewrite zlen_app. unfold zlen in *. rewrite length_replicate. lia. }
    destruct (zlen e0 <? zlen acc + zlen (cstr d) + 1) eqn:E; zbool; [lia|].
    eexists. split; [done|]. split; [|by do 3 eexists]. apply (Hdone e0 _ x); try lia. unfold e0. by rewrite take_app_length.
  - right. cbn [mbind comp_bind mret comp_ret]. destruct (l_extradata x) as [e|] eqn:He; [|destruct (E3 eq_refl) as [_ Hz]; lia].
    destruct (E4 e eq_refl) as (He1 & He2 & He3). cbn [of_option mbind comp_bind]. rewrite E1.
    destruct (zlen e <? zlen acc + zlen (cstr d) + 1) eqn:E; zbool; [lia|].
    eexists. split; [done|]. split; [|by do 3 eexists]. apply (Hdone e _ x); try done; lia.
Qed.

Fixpoint fields_len (fields : list (list Z * Z * bool)) : Z :=
  match fields with [] => 0 | (d, _, _) :: fields' => zlen d + 1 + fields_len fields' end.
Definition fields_text (fields : list (list Z * Z * bool)) : list Z := concat ((fun '(d, delim, _) => cstr d ++ [delim]) <$> fields).

Lemma fields_len_nonneg fields : 0 <= fields_len fields.
Proof. induction fields as [|[[d ?] ?] ? IH]; cbn; [lia|]. pose proof (zlen_nonneg d). lia. Qed.

Lemma putl_putl i x y s : putl i y (putl i x s) = putl i y s.
Proof.
  unfold putl, with_leases. cbn. f_equal. unfold set_lease. rewrite <-list_fmap_compose. apply list_fmap_ext. intros ? [j z] _. cbn.
  destruct (decide (i = j)) as [->|Hne]; [|by rewrite !(bool_decide_eq_false_2 (i = j))].
  by rewrite !(bool_decide_eq_true_2 (j = j)); cbn; rewrite ?(bool_decide_eq_true_2 (j = j)).
Qed.

Lemma getl_put s i x y : getl s i = Ok y -> getl (putl i x s) i = Ok x.
Proof. unfold getl, putl. cbn. destruct (assoc i (leases s)) eqn:E; [|done]. intros _. by rewrite (assoc_set _ _ _ _ E). Qed.

Lemma add_fields_ok i fields : forall x y acc s, getl s i = Ok y -> extra_holds x acc -> zlen acc + fields_len fields < 2 ^ 31 ->
  exists x' acc', add_fields i fields (putl i x s) = Ok (putl i x' s) /\ extra_holds x' acc' /\ (exists e n sz, x' = with_extradata e n sz x) /\
    (Forall (fun f => f.2 = true) fields -> acc' = acc ++ fields_text fields).
Proof.
  induction fields as [|[[d delim] mem] fields IH]; intros x y acc s Hy He Hl; cbn [add_fields].
  - exists x, acc. split_and!; try done; [by exists (l_extradata x), (l_extradata_len x), (l_extradata_size x); destruct x|]. intros _. by rewrite app_nil_r.
  - cbn [fields_len] in Hl. pose proof (fields_len_nonneg fields). pose proof (zlen_nonneg d). pose proof (cstr_zlen d).
    destruct (add_field_ok i x acc d delim mem (putl i x s)) as [[-> ->]|(x1 & -> & He1 & e1 & n1 & z1 & Hx1)]; [by eapply getl_put|done|lia|..]; cbn [mbind comp_bind].
    + destruct (IH x y acc s) as (x' & acc' & -> & ? & ? & _); [done|done|lia|]. exists x', acc'. split_and!; try done. by intros [? _]%Forall_cons.
    + rewrite putl_putl. destruct (IH x1 y (acc ++ cstr d ++ [delim]) s) as (x' & acc' & -> & ? & (e & n & z & ->) & Hf); [done|done| |].
      * rewrite !zlen_app, zlen_cons, zlen_nil. lia.
      * eexists _, acc'. split_and!; try done; [subst x1; by exists e, n, z|]. intros [_ Hall]%Forall_cons. rewrite (Hf Hall), <-!app_assoc.
        unfold fields_text. cbn. by rewrite <-!app_assoc.
Qed.

(** The data that the script gets are the fields, each with its delimiter. *)
Lemma new_extradata_ok mode max i x fields s : linv mode max s -> (i, x) ∈ leases s -> fields_len fields < 2 ^ 31 ->
  exists x', new_extradata i fields s = Ok (putl i x' s) /\ linv mode max (putl i x' s) /\ l_addr x' = l_addr x /\
    (Forall (fun f => f.2 = true) fields -> fields <> [] -> exists e, l_extradata x' = Some e /\ take (Z.to_nat (l_extradata_len x')) e = fields_text fields).
Proof.
  intros I Hi Hl. unfold new_extradata. rewrite (getl_ok _ _ _ _ _ I Hi). cbn [mbind comp_bind].
  set (x0 := with_extradata None 0 0 (or_flags LEASE_CHANGED x)).
  destruct (add_fields_ok i fields x0 x [] s) as (x' & acc & -> & [E1 E2 E3 E4] & (e & n & z & Hx') & Hf); [by eapply getl_ok|by split|done|].
  exists x'. split; [done|]. split; [|split; [by subst|]].
  - apply (linv_put_same _ _ s i x); [done|done| |left; subst; by destruct mode].
    destruct (linv_in _ _ _ _ _ I Hi) as [O1 O2 O3 O4 O5]. split.
    + by subst.
    + by subst.
    + subst x'. cbn. by rewrite lor_has, O3.
    + by subst.
    + intros e' He'. destruct (E4 e' He') as (? & ? & ?). rewrite E1. pose proof (zlen_nonneg acc). lia.
  - intros Hall Hne. specialize (Hf Hall). cbn in Hf. destruct (l_extradata x') as [e'|] eqn:He'.
    + exists e'. split; [done|]. destruct (E4 e' eq_refl) as (_ & _ & Ht). rewrite E1. unfold zlen. by rewrite Nat2Z.id, Ht.
    + destruct (E3 eq_refl) as [-> _]. destruct fields as [|[[d c] m] ?]; [done|]. unfold fields_text in Hf. cbn in Hf. by destruct (cstr d).
Qed.

(** * What the script is told *)

Definition old_events (e : ptr * lease) : list event :=
  match l_old_hostname e.2 with Some o => [Event ACTION_OLD_HOSTNAME e.2 (Some o)] | None => [] end ++
  (let x := kill_name (drop_old e.2) in [Event ACTION_DEL x (l_old_hostname x)]).
Definition lost_events (e : ptr * lease) : list event :=
  match l_old_hostname e.2 with Some o => [Event ACTION_OLD_HOSTNAME e.2 (Some o)] | None => [] end.
Definition told_events (lease_ro : bool) (e : ptr * lease) : list event :=
  let x := drop_old e.2 in
  if to_tell lease_ro x then
    [Event (if has (l_flags x) LEASE_NEW then ACTION_ADD else ACTION_OLD) x (match l_fqdn x with Some f => Some f | None => l_hostname x end)]
  else [].

(** Everything that is left to tell, in order: the leases that have ended,
    then the names that leases have lost, then the leases that are new or have
    changed. *)
Definition pending (lease_ro : bool) (s : ldb) : list event :=
  concat (old_events <$> old_leases s) ++ concat (lost_events <$> leases s) ++ concat (told_events lease_ro <$> leases s).

(** A lease when all has been told. *)
Definition quiet (lease_ro : bool) (x : lease) : lease := let x := drop_old x in if to_tell lease_ro x then told x else x.

Lemma drop_old_none x : l_old_hostname x = None -> drop_old x = x.
Proof. destruct x. cbn. by intros ->. Qed.

Lemma to_tell_told ro x : to_tell ro (told x) = false.
Proof.
  unfold to_tell, told. cbn. pose proof (has_ldiff_same (l_flags x) (Z.lor (Z.lor LEASE_NEW LEASE_CHANGED) LEASE_AUX_CHANGED)) as H.
  rewrite has_lor in H. apply orb_false_iff in H as [-> ->]. done.
Qed.

Lemma quiet_told ro x : l_old_hostname x = None -> to_tell ro x = true -> quiet ro (told x) = quiet ro x.
Proof.
  intros Ho Ht. unfold quiet. rewrite (drop_old_none x) by done. rewrite (drop_old_none (told x)) by done. by rewrite Ht, to_tell_told.
Qed.

Lemma set_lease_middle i x y l1 l2 : NoDup (l1 ++ (i, x) :: l2).*1 -> set_lease i y (l1 ++ (i, x) :: l2) = l1 ++ (i, y) :: l2.
Proof.
  rewrite fmap_app, fmap_cons. intros (_ & H1 & [H2 _]%NoDup_cons)%NoDup_app.
  unfold set_lease. rewrite fmap_app. fold (set_lease i y l1) (set_lease i y ((i, x) :: l2)). rewrite set_lease_cons by done. rewrite set_lease_absent; [done|].
  intros Hi. apply (H1 i Hi). by left.
Qed.

Lemma concat_nil {A B} (f : A -> list B) l : (forall a, a ∈ l -> f a = []) -> concat (f <$> l) = [].
Proof. induction l as [|a l IH]; intros H; [done|]. cbn. rewrite (H a) by (by left). apply IH. intros b Hb. apply H. by right. Qed.

(** One call tells what is due, and nothing else changes. *)
Lemma script_step mode max ro s : linv mode max s ->
  match do_script_run ro s with
  | (Some ev, s') => pending ro s = ev :: pending ro s' /\ linv mode max s' /\ (prod_map id (quiet ro) <$> leases s') = (prod_map id (quiet ro) <$> leases s)
  | (None, s') => s' = s /\ pending ro s = [] /\ old_leases s = [] /\ (prod_map id (quiet ro) <$> leases s) = leases s
  end.
Proof.
  intros I. unfold do_script_run. destruct (old_leases s) as [|[i x] rest] eqn:Ho.
  - destruct (first_lease (fun x => bool_decide (is_Some (l_old_hostname x))) (leases s)) as [[i x]|] eqn:Hl; [|destruct (first_lease (to_tell ro) (leases s)) as [[i x]|] eqn:Ht].
    + apply first_lease_some in Hl as (l1 & l2 & El & [o Hx]%bool_decide_eq_true & Hl1).
      assert ((i, x) ∈ leases s) as Hi by (rewrite El; apply elem_of_app; right; by left).
      pose proof (linv_nodup _ _ _ I) as Hnd. rewrite El in Hnd. pose proof (set_lease_middle i x (drop_old x) l1 l2 Hnd) as Hset.
      split; [|split].
      * unfold pending. cbn [putl with_leases old_leases leases]. rewrite Ho, El, Hset, !fmap_app, !fmap_cons, !concat_app. cbn [fmap list_fmap concat app].
        rewrite (concat_nil lost_events l1).
        -- unfold lost_events at 1. cbn [snd]. rewrite Hx. done.
        -- intros [j y] Hy. specialize (Hl1 _ Hy). cbn in Hl1. apply bool_decide_eq_false in Hl1. unfold lost_events. cbn.
           destruct (l_old_hostname y); [|done]. by destruct Hl1.
      * apply (linv_put_same _ _ s i x); [done|done| |left; by destruct mode]. by destruct (linv_in _ _ _ _ _ I Hi).
      * cbn [putl with_leases leases]. by rewrite El, Hset, !fmap_app, !fmap_cons.
    + apply first_lease_some in Ht as (l1 & l2 & El & Hx & Hl1).
      assert ((i, x) ∈ leases s) as Hi by (rewrite El; apply elem_of_app; right; by left).
      assert (forall j y, (j, y) ∈ leases s -> l_old_hostname y = None) as Hno.
      { intros j y Hy. pose proof (first_lease_none _ _ Hl _ Hy) as H. cbn in H. apply bool_decide_eq_false in H. by destruct (l_old_hostname y); [destruct H|]. }
      pose proof (linv_nodup _ _ _ I) as Hnd. rewrite El in Hnd. pose proof (set_lease_middle i x (told x) l1 l2 Hnd) as Hset.
      split; [|split].
      * unfold pending. cbn [putl with_leases old_leases leases]. rewrite Ho. cbn [fmap list_fmap concat app].
        rewrite !(concat_nil lost_events); cbn [app].
        -- rewrite El, Hset, !fmap_app, !fmap_cons, !concat_app. cbn [concat]. rewrite !(concat_nil (told_events ro) l1); cbn [app].
           ++ unfold told_events at 1 3. cbn [snd]. rewrite (drop_old_none (told x)) by (exact (Hno i x Hi)). rewrite to_tell_told, (drop_old_none x) by (exact (Hno i x Hi)).
              by rewrite Hx.
           ++ intros [j y] Hy. unfold told_events. cbn. rewrite drop_old_none; [pose proof (Hl1 _ Hy) as Hq; cbn in Hq; by rewrite Hq|]. apply (Hno j). rewrite El. apply elem_of_app. by left.
        -- intros [j y] Hy. unfold lost_events. cbn. apply set_lease_in in Hy as [[-> ->]|[_ Hy]]; [cbn; by rewrite (Hno i x Hi)|by rewrite (Hno j y Hy)].
        -- intros [j y] Hy. unfold lost_events. cbn. by rewrite (Hno j y Hy).
      * apply (linv_put_same _ _ s i x); [done|done| |left; by destruct mode]. destruct (linv_in _ _ _ _ _ I Hi) as [O1 O2 O3 O4 O5]. split; try done.
        cbn. by rewrite has_ldiff.
      * cbn [putl with_leases leases]. rewrite El, Hset, !fmap_app, !fmap_cons. cbn. by rewrite (quiet_told ro x (Hno i x Hi) Hx).
    + assert (forall j y, (j, y) ∈ leases s -> l_old_hostname y = None /\ to_tell ro y = false) as Hno.
      { intros j y Hy. pose proof (first_lease_none _ _ Hl _ Hy) as H. pose proof (first_lease_none _ _ Ht _ Hy). cbn in H. apply bool_decide_eq_false in H.
        split; [|done]. by destruct (l_old_hostname y); [destruct H|]. }
      split_and!; try done.
      * unfold pending. rewrite Ho. cbn [fmap list_fmap concat app]. rewrite (concat_nil lost_events), (concat_nil (told_events ro)); [done|..].
        -- intros [j y] Hy. unfold told_events. cbn. destruct (Hno j y Hy). by rewrite drop_old_none, (proj2 (Hno j y Hy)).
        -- intros [j y] Hy. unfold lost_events. cbn. by rewrite (proj1 (Hno j y Hy)).
      * rewrite <-(list_fmap_id (leases s)) at 2. apply fmap_ext_in. intros [j y] Hy. destruct (Hno j y Hy) as [H1 H2]. cbn. unfold quiet.
        by rewrite drop_old_none, H2.
  - assert (forall y rest', (forall z, lease_ok z -> lease_ok (y z)) -> NoDup ((leases s).*1 ++ rest'.*1) -> (forall e, e ∈ rest' -> e = (i, y x) \/ e ∈ rest) -> linv mode max (with_old rest' s)) as Hinv.
    { intros y rest' Hy Hnd Hin. destruct I as [I1 I2 I3 I4 I5]. split; cbn; try done. intros e [He|He]%elem_of_app; [apply I2, elem_of_app; by left|].
      destruct (Hin e He) as [->|Hr]; [cbn; apply Hy; apply (I2 (i, x))|apply I2]; apply elem_of_app; right; rewrite Ho; [by left|by right]. }
    pose proof (li_nodup _ _ _ I) as Hnd. rewrite Ho in Hnd. cbn in Hnd.
    destruct (l_old_hostname x) as [o|] eqn:Hx.
    + split_and!.
      * unfold pending. cbn [with_old old_leases leases]. rewrite Ho, !fmap_cons. cbn [concat]. unfold old_events at 1 3. cbn [snd]. rewrite Hx. cbn.
        done.
      * apply (Hinv drop_old); [intros z []; by split|done|]. intros e [->|He]%elem_of_cons; auto.
      * done.
    + split_and!.
      * unfold pending. cbn [with_old old_leases leases]. rewrite Ho, !fmap_cons. cbn [concat]. unfold old_events at 1. cbn [snd]. rewrite Hx.
        by rewrite drop_old_none.
      * apply (Hinv id); [done| |auto]. apply NoDup_app in Hnd as (N1 & N2 & [N3 N4]%NoDup_cons). apply NoDup_app. split_and!; try done.
        intros j Hj Hr. apply (N2 j Hj). by right.
      * done.
Qed.

(** The loop of the main program: events until there are none. *)
Fixpoint drain (fuel : nat) (lease_ro : bool) (s : ldb) : list event * ldb :=
  match fuel with
  | O => ([], s)
  | S fuel' =>
      match do_script_run lease_ro s with
      | (Some ev, s) => let '(evs, s) := drain fuel' lease_ro s in (ev :: evs, s)
      | (None, s) => ([], s)
      end
  end.

(** C10: the script is told everything, once and in order, and then there is
    nothing more to tell. The calls of [do_script_run] come to an end; the
    events are, for each lease that has ended, the loss of a name it still
    has to announce and its end, under the last name it had; then the names
    that leases have lost to others; then the leases that are new or have
    changed, under their names. So no name is announced for a lease before its
    loss by another. Afterwards the ended leases are gone and the others are
    as they were, without their marks. *)
Theorem script_told_everything mode max ro s : linv mode max s ->
  exists s', drain (S (length (pending ro s))) ro s = (pending ro s, s') /\ pending ro s' = [] /\ old_leases s' = [] /\ do_script_run ro s' = (None, s') /\
    leases s' = (prod_map id (quiet ro) <$> leases s) /\ linv mode max s'.
Proof.
  remember (pending ro s) as evs eqn:Ep. revert s Ep. induction evs as [|ev evs IH]; intros s Ep I; pose proof (script_step mode max ro s I) as H;
    cbn [drain length]; destruct (do_script_run ro s) as [[ev'|] s1] eqn:E.
  - destruct H as (H & _). congruence.
  - destruct H as (-> & H1 & H2 & H3). exists s. by rewrite H3.
  - destruct H as (H1 & I1 & H3). rewrite <-Ep in H1. injection H1 as -> H1. destruct (IH s1 H1 I1) as (s' & Hd & ? & ? & ? & Hl & ?).
    exists s'. cbn [drain] in Hd. rewrite Hd. split_and!; try done. congruence.
  - destruct H as (_ & H & _). congruence.
Qed.

Lemma script_told_everything_witness : exists s x s', s = Ldb [(1%positive, x)] [] false false 0 /\ drain 2 true s = ([Event ACTION_ADD x (Some (lit "pc"))], s') /\
  do_script_run true s' = (None, s').
Proof.
  pose (x := with_names (Some (lit "pc")) None None blank_lease). pose (s := Ldb [(1%positive, x)] [] false false 0).
  destruct (script_told_everything false 1 true s) as (s' & Hd & _ & _ & Hr & _).
  - split; cbn; [apply (bool_decide_unpack _); by vm_compute| |done|done|].
    + intros e [->|[]%elem_of_nil]%elem_of_cons. by split.
    + intros i y j z [= -> ->]%list_elem_of_singleton [= -> ->]%list_elem_of_singleton Hne. done.
  - exists s, x, s'. by split_and!.
Defined.

(** * Histories *)

(** The calls of the server, with what they are called with. *)
Inductive op :=
| OPrune (target : option ptr) (now : Z)
| OAllocate (addr : in_addr) (mem : option ptr)
| OExpires (i : ptr) (len now : Z)
| OHwaddr (i : ptr) (hwaddr : list Z) (clid : option (list Z)) (hw_len hw_type clid_len : Z) (mem : bool)
| OHostname (i : ptr) (name : option (list Z)) (auth : bool) (domain : option (list Z)) (mem mem2 : bool)
| OInterface (i : ptr) (interface : Z)
| OExtradata (i : ptr) (fields : list (list Z * Z * bool))
| ORerun
| OScript (lease_ro : bool).

Definition do_op (mode : bool) (o : op) (s : ldb) : comp ldb :=
  match o with
  | OPrune target now => Ok (lease_prune target now s)
  | OAllocate addr mem => '(_, s) ← lease4_allocate addr mem s; mret s
  | OExpires i len now => lease_set_expires i len now s
  | OHwaddr i hwaddr clid hw_len hw_type clid_len mem => lease_set_hwaddr i hwaddr clid hw_len hw_type clid_len mem s
  | OHostname i name auth domain mem mem2 => lease_set_hostname mode i name auth domain mem mem2 s
  | OInterface i n => lease_set_interface i n s
  | OExtradata i fields => new_extradata i fields s
  | ORerun => Ok (rerun_scripts s)
  | OScript ro => Ok (do_script_run ro s).2
  end.

(** A lease that is changed is in the database, the buffers are as long as
    the call says, and memory that is new is not in use. *)
Definition ready (o : op) (s : ldb) : Prop :=
  match o with
  | OAllocate _ mem => match mem with Some i => i ∉ (leases s).*1 ++ (old_leases s).*1 | None => True end
  | OExpires i _ _ | OHostname i _ _ _ _ _ | OInterface i _ => i ∈ (leases s).*1
  | OHwaddr i hwaddr clid hw_len _ clid_len _ =>
      i ∈ (leases s).*1 /\ 0 <= hw_len <= zlen hwaddr /\ hw_len <= DHCP_CHADDR_MAX /\ match clid with Some c => 0 <= clid_len <= zlen c | None => True end
  | OExtradata i fields => i ∈ (leases s).*1 /\ fields_len fields < 2 ^ 31
  | OPrune _ _ | ORerun | OScript _ => True
  end.

#[export] Instance ready_dec o s : Decision (ready o s).
Proof.
  destruct o as [| ? [|] | | ? ? [|] | | | | |]; cbn [ready]; try apply _.
Defined.

(** A history goes on as long as the calls are ready; the first one that is
    not ends it. *)
Fixpoint run_ops (mode : bool) (ops : list op) (s : ldb) : comp ldb :=
  match ops with
  | [] => Ok s
  | o :: ops' => if decide (ready o s) then s ← do_op mode o s; run_ops mode ops' s else Ok s
  end.

Lemma keys_in i (l : list (ptr * lease)) : i ∈ l.*1 -> exists x, (i, x) ∈ l.
Proof. intros ([j x] & -> & H)%list_elem_of_fmap. by exists x. Qed.

Lemma linv_rerun mode max s : linv mode max s -> linv mode max (rerun_scripts s).
Proof.
  intros [I1 I2 I3 I4 I5]. unfold rerun_scripts, with_leases. split; cbn.
  - by rewrite <-list_fmap_compose.
  - intros e [He|He]%elem_of_app; [|apply I2, elem_of_app; by right]. apply list_elem_of_fmap in He as (e0 & -> & He). cbn.
    apply or_flags_ok; [|done]. apply I2, elem_of_app. by left.
  - unfold zlen in *. by rewrite length_fmap.
  - done.
  - intros i x j y ([? ?] & [= -> ->] & Hi)%list_elem_of_fmap ([? ?] & [= -> ->] & Hj)%list_elem_of_fmap Hne. rewrite !key_or. by eapply I5.
Qed.

(** A new lease is wanted, but there is none left, or no memory for it. *)
Definition starved (o : op) (s : ldb) : Prop := exists addr mem, o = OAllocate addr mem /\ (leases_left s = 0 \/ mem = None).

#[export] Instance starved_dec o s : Decision (starved o s).
Proof.
  destruct o as [|addr mem| | | | | | |]; try (right; by intros (? & ? & ? & _)).
  destruct (decide (leases_left s = 0 \/ mem = None)) as [H|H]; [left; by exists addr, mem|right]. by intros (? & ? & [= -> ->] & ?).
Defined.

(** [lease4_allocate] writes to the null pointer then, and only then. *)
Lemma starved_crashes mode o s : starved o s -> do_op mode o s = Fault NullDeref.
Proof.
  intros (addr & mem & -> & H). cbn [do_op]. unfold lease4_allocate, lease_allocate. destruct (leases_left s =? 0) eqn:E; [done|]. zbool. by destruct H as [?| ->].
Qed.

Lemma do_op_ok mode max o s : linv mode max s -> ready o s -> ~ starved o s -> exists s', do_op mode o s = Ok s' /\ linv mode max s'.
Proof.
  intros I. destruct o as [target now|addr mem|i len now|i hw clid hl ht cl mem|i name auth domain mem mem2|i n|i fields| |ro]; cbn [do_op ready].
  2: { intros Hi Hn. assert (leases_left s <> 0) as Hl by (intros ?; apply Hn; exists addr, mem; auto).
    destruct mem as [i|]; [|destruct Hn; exists addr, None; auto]. destruct (lease4_allocate_ok mode max addr i s I Hl Hi) as [-> ?]. cbn. by eexists. }
  all: intros Hrdy _; revert Hrdy.
  - intros _. eexists. split; [done|]. by apply linv_prune.
  - intros [x Hx]%keys_in. destruct (lease_set_expires_ok mode max i x len now s I Hx) as (s' & ? & ? & _). by exists s'.
  - intros ([x Hx]%keys_in & H1 & H2 & H3). destruct (lease_set_hwaddr_ok mode max i x hw clid hl ht cl mem s I Hx H1 H2) as (s' & ? & ? & _); [by intros c ->|]. by exists s'.
  - intros [x Hx]%keys_in. destruct (lease_set_hostname_ok mode max i x name auth domain mem mem2 s I Hx) as (s' & ? & ? & _). by exists s'.
  - intros [x Hx]%keys_in. destruct (lease_set_interface_ok mode max i x n s I Hx) as (s' & ? & ? & _). by exists s'.
  - intros [[x Hx]%keys_in Hl]. destruct (new_extradata_ok mode max i x fields s I Hx Hl) as (x' & ? & ? & _). by eexists.
  - intros _. eexists. split; [done|]. by apply linv_rerun.
  - intros _. eexists. split; [done|]. pose proof (script_step mode max ro s I) as H. destruct (do_script_run ro s) as [[ev|] s']; cbn; [apply H|].
    by destruct H as [-> _].
Qed.

Definition start (max : Z) : ldb := Ldb [] [] false false max.

Lemma start_linv mode max : 0 <= max -> linv mode max (start max).
Proof. intros H. split; cbn; [constructor|by intros ? ?%elem_of_nil|rewrite zlen_nil; lia|done|by intros ? ? ? ? ?%elem_of_nil]. Qed.

Lemma run_ops_ok mode max ops : forall s, linv mode max s ->
  match run_ops mode ops s with
  | Ok s' => linv mode max s'
  | Fault f => f = NullDeref /\ exists done o rest s1, ops = done ++ o :: rest /\ run_ops mode done s = Ok s1 /\ linv mode max s1 /\ starved o s1
  end.
Proof.
  induction ops as [|o ops IH]; intros s I; cbn [run_ops]; [done|]. destruct (decide (ready o s)) as [Hr|]; [|done].
  destruct (decide (starved o s)) as [Hs|Hs].
  { rewrite (starved_crashes mode o s Hs). cbn [mbind comp_bind]. split; [done|]. by exists [], o, ops, s. }
  destruct (do_op_ok mode max o s I Hr Hs) as (s1 & E & I1). rewrite E. cbn [mbind comp_bind]. specialize (IH s1 I1). destruct (run_ops mode ops s1) as [s2|f]; [done|].
  destruct IH as (-> & done & o' & rest & s2 & -> & Hd & I2 & Hs2). split; [done|]. exists (o :: done), o', rest, s2. split_and!; try done.
  cbn [run_ops]. rewrite decide_True by done. by rewrite E.
Qed.

(** C13: the lease database is always in order. From an empty database for
    [max] leases, whatever calls the server makes one after the other, on
    leases that it has and with buffers as long as it says: there are never
    more than [max] leases, those that exist and those that may still be given
    add up to [max], and no two leases have the same name, letter case aside
    (with its domain, when that is how leases are told apart). No call reads or
    writes out of bounds or follows a bad pointer, with one exception, which is
    one always: when all leases are given, or there is no memory for the block
    of one, asking for a new lease writes to the null pointer. *)
Theorem lease_database_sound mode max ops : 0 <= max ->
  match run_ops mode ops (start max) with
  | Ok s => linv mode max s /\ zlen (leases s) <= max /\ leases_left s = max - zlen (leases s) /\
      (forall i x j y a b, (i, x) ∈ leases s -> (j, y) ∈ leases s -> key mode x = Some a -> key mode y = Some b -> hostname_isequal a b = true -> i = j) /\
      (forall o, ready o s -> if decide (starved o s) then do_op mode o s = Fault NullDeref else exists s', do_op mode o s = Ok s')
  | Fault f => f = NullDeref /\ exists done addr mem rest s, ops = done ++ OAllocate addr mem :: rest /\ run_ops mode done (start max) = Ok s /\
      (zlen (leases s) = max \/ mem = None)
  end.
Proof.
  intros Hmax. pose proof (start_linv mode max Hmax) as I. pose proof (run_ops_ok mode max ops (start max) I) as H.
  destruct (run_ops mode ops (start max)) as [s|f].
  - pose proof (li_count _ _ _ H). pose proof (li_left _ _ _ H). split_and!; [done|lia|lia| |].
    + intros i x j y a b Hi Hj Ha Hb Heq. destruct (decide (i = j)) as [|Hne]; [done|]. pose proof (li_names _ _ _ H i x j y Hi Hj Hne) as Hk.
      rewrite Ha, Hb in Hk. cbn in Hk. congruence.
    + intros o Ho. destruct (decide (starved o s)); [by apply starved_crashes|]. by destruct (do_op_ok mode max o s) as (s' & ? & _); [..|exists s'].
  - destruct H as (-> & done & o & rest & s & -> & Hr & I' & (addr & mem & -> & Hor)). split; [done|]. exists done, addr, mem, rest, s. split_and!; [done|done|].
    pose proof (li_count _ _ _ I'). destruct Hor; [left; lia|by right].
Qed.

Lemma lease_database_sound_witness : exists s, run_ops false [OAllocate (10, 0, 0, 5) (Some 1%positive); OHostname 1%positive (Some (lit "pc")) false None true true;
     OAllocate (10, 0, 0, 6) (Some 2%positive); OHostname 2%positive (Some (lit "PC")) false None true true] (start 2) = Ok s /\
   (fun e => (e.1, l_hostname e.2, l_old_hostname e.2)) <$> leases s = [(2%positive, Some (lit "PC"), None); (1%positive, None, Some (lit "pc"))] /\ leases_left s = 2 - zlen (leases s) /\
   do_op false (OAllocate (10, 0, 0, 7) (Some 3%positive)) s = Fault NullDeref.
Proof.
  pose proof (lease_database_sound false 2 [OAllocate (10, 0, 0, 5) (Some 1%positive); OHostname 1%positive (Some (lit "pc")) false None true true;
     OAllocate (10, 0, 0, 6) (Some 2%positive); OHostname 2%positive (Some (lit "PC")) false None true true] ltac:(lia)) as H.
  destruct (run_ops false _ (start 2)) as [s|f] eqn:Hs; [|by vm_compute in Hs]. destruct H as (_ & _ & Hl & _ & Ho). exists s. split; [done|].
  assert ((fun e => (e.1, l_hostname e.2, l_old_hostname e.2)) <$> leases s = [(2%positive, Some (lit "PC"), None); (1%positive, None, Some (lit "pc"))] /\
    (leases s).*1 ++ (old_leases s).*1 = [2%positive; 1%positive] /\ leases_left s = 0) as (E1 & E2 & E3) by (revert Hs; vm_compute; by intros [= <-]).
  split_and!; [done|exact Hl|]. assert (starved (OAllocate (10, 0, 0, 7) (Some 3%positive)) s) as Hst by (do 2 eexists; split; [done|by left]).
  specialize (Ho (OAllocate (10, 0, 0, 7) (Some 3%positive))). rewrite decide_True in Ho by done. apply Ho. cbn [ready]. rewrite E2. by_decide.
Defined.

(** There is one lease too few: instead of returning NULL, which its callers
    test for, [lease4_allocate] writes through the null pointer. *)
Theorem full_database_crashes addr mem s : leases_left s = 0 -> lease4_allocate addr mem s = Fault NullDeref.
Proof. intros H. unfold lease4_allocate, lease_allocate. by rewrite H. Qed.

(** A name that the configuration gave ([LEASE_AUTH_NAME]) is the lease's for
    ever: the client sends another name, and the mark stays. *)
Example auth_name_is_kept :
  (s ← run_ops false [OAllocate (10, 0, 0, 5) (Some 1%positive); OHostname 1%positive (Some (lit "pc")) true None true true;
      OHostname 1%positive (Some (lit "other")) false None true true] (start 1);
   mret ((fun e => (l_hostname e.2, has (l_flags e.2) LEASE_AUTH_NAME)) <$> leases s)) = Ok [(Some (lit "other"), true)].
Proof. by vm_compute. Qed.
