(* ===== verification/DmTags.v ===== *)
(** dnsmasq's dhcp-common.c: the tags that are attached to a DHCP request, the
    rules that add more of them, and the choice of the options that a client
    is sent. The nodes of the lists of tags are shared: [run_tag_if] puts
    nodes of the configuration in front of the tags of a request by writing
    to their [next] pointers. *)
From S2P Require Import Prelude CString Dns Common DmUtil DmName DmPacket DmLru DmCache DmCacheInv DmLease.
Set Warnings "-clear-no-such-hyp".

Definition DHOPT_STRING : Z := 2.
Definition DHOPT_ENCAPSULATE : Z := 4.
Definition DHOPT_VENDOR : Z := 256.
Definition DHOPT_HEX : Z := 512.
Definition DHOPT_RFC3925 : Z := 2048.
Definition DHOPT_TAGOK : Z := 4096.

(** * Data *)

(** The nodes of all lists of tags: what [net] points to, and [next]. *)
Record netids := Netids { t_net : gmap ptr (list Z); t_next : links }.

(** [set] is the list of the nodes that a rule adds. *)
Record tag_if := TagIf { ti_set : list ptr; ti_tag : option ptr }.

Record dhcp_opt := DhcpOpt { o_opt : Z; o_len : Z; o_flags : Z; o_mask : Z; o_val : list Z; o_netid : option ptr }.

Definition with_oflags (v : Z) (o : dhcp_opt) : dhcp_opt := DhcpOpt (o_opt o) (o_len o) v (o_mask o) (o_val o) (o_netid o).

(** * Matching tags *)

(** As many steps as there are nodes: a longer walk is in a circle. *)
Definition walk_fuel (h : netids) : nat := S (size (t_net h)).

Fixpoint find_tag (fuel : nat) (h : netids) (pool : option ptr) (name : list Z) : comp bool :=
  match pool, fuel with
  | None, _ => Ok false
  | Some _, O => Fault NoFuel
  | Some i, S fuel' =>
      net ← of_option NullDeref (t_net h !! i);
      if strcmp0 name net then Ok true else find_tag fuel' h (t_next h !! i) name
  end.

Definition negated (net : list Z) : bool := match net with c :: _ => (c =? 33) || (c =? 35) | [] => false end.

Fixpoint match_loop (fuel : nat) (h : netids) (check pool : option ptr) : comp bool :=
  match check, fuel with
  | None, _ => Ok true
  | Some _, O => Fault NoFuel
  | Some i, S fuel' =>
      net ← of_option NullDeref (t_net h !! i);
      if negb (negated net) then
        b ← find_tag (walk_fuel h) h pool net;
        if (b : bool) then match_loop fuel' h (t_next h !! i) pool else Ok false
      else
        b ← find_tag (walk_fuel h) h pool (tail net);
        if (b : bool) then Ok false else match_loop fuel' h (t_next h !! i) pool
  end.

Definition match_netid (h : netids) (check pool : option ptr) (tagnotneeded : bool) : comp bool :=
  if bool_decide (check = None) && negb tagnotneeded then Ok false else match_loop (walk_fuel h) h check pool.

(** * Rules *)

Definition add_set (h : netids) (tags : option ptr) (set_ : list ptr) : netids * option ptr :=
  fold_left (fun '(h, tags) i => (Netids (t_net h) (set_ptr (t_next h) i tags), Some i)) set_ (h, tags).

Fixpoint run_tag_if (exprs : list tag_if) (h : netids) (tags : option ptr) : comp (netids * option ptr) :=
  match exprs with
  | [] => Ok (h, tags)
  | e :: exprs' =>
      b ← match_netid h (ti_tag e) tags true;
      let '(h, tags) := if (b : bool) then add_set h tags (ti_set e) else (h, tags) in
      run_tag_if exprs' h tags
  end.

(** * Options *)

Definition ordinary (o : dhcp_opt) : bool := negb (has (o_flags o) (Z.lor DHOPT_ENCAPSULATE (Z.lor DHOPT_VENDOR DHOPT_RFC3925))).
Definition tag_ok (o : dhcp_opt) : bool := has (o_flags o) DHOPT_TAGOK.
Definition set_ok (o : dhcp_opt) : dhcp_opt := with_oflags (Z.lor (o_flags o) DHOPT_TAGOK) o.
Definition clear_ok (o : dhcp_opt) : dhcp_opt := with_oflags (Z.ldiff (o_flags o) DHOPT_TAGOK) o.

(** The first loop: options that the tags of the request allow. *)
Fixpoint flag_loop (h : netids) (tagif : option ptr) (opts : list dhcp_opt) : comp (list dhcp_opt) :=
  match opts with
  | [] => Ok []
  | o :: opts' =>
      let o := clear_ok o in
      b ← (if ordinary o then match_netid h (o_netid o) tagif false else Ok false);
      rest ← flag_loop h tagif opts';
      mret ((if (b : bool) then set_ok o else o) :: rest)
  end.

(** The second: those that the tags of the range forbid. *)
Fixpoint reset_loop (h : netids) (tagif : option ptr) (opts : list dhcp_opt) : comp (list dhcp_opt) :=
  match opts with
  | [] => Ok []
  | o :: opts' =>
      b ← (if ordinary o && tag_ok o then match_netid h (o_netid o) tagif false else Ok true);
      rest ← reset_loop h tagif opts';
      mret ((if (b : bool) then o else clear_ok o) :: rest)
  end.

Definition taken (num : Z) (opts : list dhcp_opt) : bool := existsb (fun t => (o_opt t =? num) && tag_ok t) opts.

(** The third: those that they allow, where there is none yet. [before] are
    the options that the loop has passed. *)
Fixpoint context_loop (h : netids) (tagif : option ptr) (before opts : list dhcp_opt) : comp (list dhcp_opt) :=
  match opts with
  | [] => Ok before
  | o :: opts' =>
      b ← (if ordinary o && negb (tag_ok o) then match_netid h (o_netid o) tagif false else Ok false);
      let free := negb (bool_decide (is_Some (o_netid o)) && taken (o_opt o) (before ++ o :: opts')) in
      context_loop h tagif (before ++ [if (b : bool) && free then set_ok o else o]) opts'
  end.

(** The last: options without tags, where there is none with one. *)
Fixpoint default_loop (before opts : list dhcp_opt) : list dhcp_opt :=
  match opts with
  | [] => before
  | o :: opts' =>
      let b := ordinary o && negb (tag_ok o) && bool_decide (o_netid o = None) && negb (taken (o_opt o) (before ++ o :: opts')) in
      default_loop (before ++ [if b then set_ok o else o]) opts'
  end.

(** The last node of a list. *)
Fixpoint last_tag (fuel : nat) (h : netids) (i : ptr) : comp ptr :=
  match fuel with
  | O => Fault NoFuel
  | S fuel' =>
      _ ← of_option NullDeref (t_net h !! i);
      match t_next h !! i with None => mret i | Some j => last_tag fuel' h j end
  end.

Definition option_filter (exprs : list tag_if) (h : netids) (tags context_tags : option ptr) (opts : list dhcp_opt)
  : comp (netids * option ptr * list dhcp_opt) :=
  '(h, tagif) ← run_tag_if exprs h tags;
  opts ← flag_loop h tagif opts;
  '(h, tagif, opts) ← match context_tags with
                      | None => mret (h, tagif, opts)
                      | Some c =>
                          l ← last_tag (walk_fuel h) h c;
                          '(h, tagif) ← run_tag_if exprs (Netids (t_net h) (set_ptr (t_next h) l tags)) context_tags;
                          opts ← reset_loop h tagif opts;
                          opts ← context_loop h tagif [] opts;
                          mret (h, tagif, opts)
                      end;
  mret (h, tagif, default_loop [] opts).

(** * Names and values *)

(** The name without its domain, and the domain. *)
Definition strip_hostname (hostname : list Z) : list Z * option (list Z) :=
  match strchr hostname 46 with
  | None => (hostname, None)
  | Some n => (take n hostname, match drop (S n) hostname with [] => None | d => Some d end)
  end.

(** The positions at which the value of an option is looked for. *)
Fixpoint bytes_loop (fuel : nat) (o : dhcp_opt) (p : list Z) (len i : Z) : comp bool :=
  match fuel with
  | O => Fault NoFuel
  | S fuel' =>
      if i <=? len - o_len o then
        e ← memcmp0 (o_val o) (drop (Z.to_nat i) p) (o_len o);
        if (e : bool) then Ok true
        else bytes_loop fuel' o p len (if has (o_flags o) DHOPT_STRING then i + 1 else i + o_len o)
      else Ok false
  end.

Definition match_bytes (o : dhcp_opt) (p : list Z) (len : Z) : comp bool :=
  if len <? o_len o then Ok false
  else if o_len o =? 0 then Ok true
  else if has (o_flags o) DHOPT_HEX then
    n ← memcmp_masked (o_val o) p (Z.to_nat (o_len o)) (o_mask o); mret (negb (n =? 0))
  else bytes_loop (S (Z.to_nat len)) o p len 0.

(** * Lists of tags *)

(** The nodes of a list that ends. *)
Definition chain (h : netids) (p : option ptr) (l : list ptr) : Prop :=
  p = head l /\ sseg (t_next h) l None /\ forall i, i ∈ l -> is_Some (t_net h !! i).

Definition tag_names (h : netids) (l : list ptr) : list (list Z) := (fun i => default [] (t_net h !! i)) <$> l.

(** What a list of wanted tags says of the tags there are. *)
Definition tags_match (check pool : list (list Z)) : bool :=
  forallb (fun t => if negated t then negb (bool_decide (tail t ∈ pool)) else bool_decide (t ∈ pool)) check.

Lemma chain_cons h p i l : chain h p (i :: l) -> p = Some i /\ is_Some (t_net h !! i) /\ chain h (t_next h !! i) l.
Proof.
  intros (-> & Hs & Hn). split; [done|]. split; [apply Hn; by left|]. cbn [sseg] in Hs. destruct Hs as [H1 H2]. split_and!; [|done|intros j Hj; apply Hn; by right].
  rewrite H1. by destruct l.
Qed.

Lemma chain_nil h p : chain h p [] -> p = None.
Proof. by intros (-> & _). Qed.

Lemma chain_unique h p l : forall l', chain h p l -> chain h p l' -> l = l'.
Proof.
  revert p. induction l as [|i l IH]; intros p l' H1 H2.
  - apply chain_nil in H1 as ->. destruct l'; [done|]. by apply chain_cons in H2 as [? _].
  - apply chain_cons in H1 as (-> & _ & H1). destruct l' as [|j l']; [by apply chain_nil in H2|]. apply chain_cons in H2 as ([= ->] & _ & H2). f_equal. by eapply IH.
Qed.

Lemma chain_drop h p l1 l2 : chain h p (l1 ++ l2) -> exists q, chain h q l2.
Proof. revert p. induction l1 as [|i l1 IH]; intros p H; [by exists p|]. apply chain_cons in H as (_ & _ & H). by eapply IH. Qed.

Lemma chain_nodup h p l : chain h p l -> NoDup l.
Proof.
  revert p. induction l as [|i l IH]; intros p H; [constructor|]. pose proof (chain_cons _ _ _ _ H) as (-> & Hi & Hl). constructor; [|by eapply IH].
  intros (l1 & l2 & E)%list_elem_of_split. rewrite E in Hl. destruct (chain_drop h _ l1 (i :: l2) Hl) as [q Hq].
  pose proof (chain_cons _ _ _ _ Hq) as (-> & _). pose proof (chain_unique _ _ _ _ H Hq) as E2. rewrite E in E2. apply (f_equal length) in E2.
  cbn in E2. rewrite length_app in E2. cbn in E2. lia.
Qed.

Lemma tags_fuel h p l : chain h p l -> (length l < walk_fuel h)%nat.
Proof.
  intros H. pose proof (chain_nodup _ _ _ H) as Hnd. destruct H as (_ & _ & Hn). unfold walk_fuel. apply Nat.lt_succ_r.
  rewrite <-(size_list_to_set (C := gset ptr) l Hnd), <-(size_dom (D := gset ptr) (t_net h)). apply subseteq_size.
  intros i Hi. apply elem_of_dom, Hn. by apply elem_of_list_to_set in Hi.
Qed.

Lemma strcmp0_iff a b : strcmp0 a b = true <-> a = b.
Proof.
  revert b. induction a as [|x a IH]; intros [|y b]; cbn; try done. unfold strcmp0 in *. cbn. rewrite andb_true_iff, IH, Z.eqb_eq. naive_solver.
Qed.

Lemma find_tag_ok h name l : forall p fuel, chain h p l -> (length l < fuel)%nat -> find_tag fuel h p name = Ok (bool_decide (name ∈ tag_names h l)).
Proof.
  induction l as [|i l IH]; intros p fuel Hc Hf.
  - apply chain_nil in Hc as ->. destruct fuel; [lia|]. cbn. by rewrite bool_decide_eq_false_2 by (by intros ?%elem_of_nil).
  - apply chain_cons in Hc as (-> & [net Hi] & Hl). destruct fuel as [|fuel]; [lia|]. cbn [find_tag]. rewrite Hi. cbn [of_option mbind comp_bind].
    unfold tag_names. cbn [fmap list_fmap]. rewrite Hi. change (default [] (Some net)) with net. destruct (strcmp0 name net) eqn:E.
    + apply strcmp0_iff in E as ->. rewrite bool_decide_eq_true_2; [done|by left].
    + rewrite (IH _ fuel Hl) by (cbn in Hf; lia). f_equal. apply bool_decide_ext. rewrite elem_of_cons. split; [by right|].
      intros [Hn|?]; [|done]. apply strcmp0_iff in Hn. cbn in Hn. congruence.
Qed.

Lemma match_loop_ok h cs ps pool : chain h pool ps -> forall check fuel, chain h check cs -> (length cs < fuel)%nat ->
  match_loop fuel h check pool = Ok (tags_match (tag_names h cs) (tag_names h ps)).
Proof.
  intros Hp. induction cs as [|i cs IH]; intros check fuel Hc Hf.
  - apply chain_nil in Hc as ->. by destruct fuel.
  - apply chain_cons in Hc as (-> & [net Hi] & Hl). destruct fuel as [|fuel]; [lia|]. cbn [match_loop]. rewrite Hi. cbn [of_option mbind comp_bind].
    unfold tag_names at 1. cbn [fmap list_fmap]. rewrite Hi. change (default [] (Some net)) with net. cbn [tags_match forallb]. fold (tag_names h cs). fold (tags_match (tag_names h cs) (tag_names h ps)).
    rewrite !(find_tag_ok h _ ps pool) by (done || by eapply tags_fuel). cbn [mbind comp_bind].
    rewrite (IH _ fuel Hl) by (cbn in Hf; lia). destruct (negated net); cbn [negb]; case_bool_decide; done.
Qed.

(** All wanted tags are there, and none of those that are not wanted. *)
Lemma match_netid_ok h check pool cs ps b : chain h check cs -> chain h pool ps ->
  match_netid h check pool b = Ok ((b || negb (bool_decide (cs = []))) && tags_match (tag_names h cs) (tag_names h ps)).
Proof.
  intros Hc Hp. unfold match_netid. destruct cs as [|i cs].
  - pose proof (chain_nil _ _ Hc) as ->. rewrite !bool_decide_eq_true_2 by done. by destruct b.
  - rewrite (bool_decide_eq_false_2 (check = None)) by (destruct Hc as [-> _]; done). rewrite bool_decide_eq_false_2 by done. cbn [andb negb]. rewrite orb_true_r.
    cbn [andb]. eapply match_loop_ok; [done..|by eapply tags_fuel].
Qed.

(** ** Rules *)

(** The nodes that rules add are their own: each is in one rule, and in no
    list that is looked at. [css] are the nodes of the lists [tag]. *)
Record rules_ok (h : netids) (exprs : list tag_if) (css : list (list ptr)) : Prop := {
  ru_chains : Forall2 (fun e cs => chain h (ti_tag e) cs) exprs css;
  ru_nodup : NoDup (concat (ti_set <$> exprs));
  ru_known : forall i, i ∈ concat (ti_set <$> exprs) -> is_Some (t_net h !! i);
  ru_own : forall i, i ∈ concat (ti_set <$> exprs) -> i ∉ concat css }.

(** The tags that there are when the rules have been applied. *)
Fixpoint tags_after (h : netids) (exprs : list tag_if) (css : list (list ptr)) (pool : list (list Z)) : list (list Z) :=
  match exprs, css with
  | e :: exprs', cs :: css' => tags_after h exprs' css' (if tags_match (tag_names h cs) pool then reverse (tag_names h (ti_set e)) ++ pool else pool)
  | _, _ => pool
  end.

Lemma chain_frame h h' p l : t_net h' = t_net h -> (forall i, i ∈ l -> t_next h' !! i = t_next h !! i) -> chain h p l -> chain h' p l.
Proof.
  intros Hn Hx (-> & Hs & Hk). split; [done|]. split; [by eapply sseg_frame|]. by rewrite Hn.
Qed.

Lemma chain_push h p l i : chain h p l -> i ∉ l -> is_Some (t_net h !! i) -> chain (Netids (t_net h) (set_ptr (t_next h) i p)) (Some i) (i :: l).
Proof.
  intros H Hi Hk. split; [done|]. destruct (chain_frame h (Netids (t_net h) (set_ptr (t_next h) i p)) p l) as (Hp & Hs & Hn); [done| |done|].
  - intros j Hj. cbn. rewrite lookup_set_ptr, decide_False; [done|]. intros ->. done.
  - split.
    + cbn [sseg t_next]. split; [|done]. rewrite lookup_set_ptr, decide_True by done. rewrite Hp. by destruct l.
    + intros j [->|Hj]%elem_of_cons; [done|by apply Hn].
Qed.

Lemma add_set_ok set_ : forall h p l, chain h p l -> NoDup set_ -> (forall i, i ∈ set_ -> (i ∉ l) /\ is_Some (t_net h !! i)) ->
  exists h' p', add_set h p set_ = (h', p') /\ chain h' p' (reverse set_ ++ l) /\ t_net h' = t_net h /\ (forall i, i ∉ set_ -> t_next h' !! i = t_next h !! i).
Proof.
  unfold add_set. induction set_ as [|i set_ IH]; intros h p l Hc Hnd Hs; cbn [fold_left].
  - exists h, p. by split_and!.
  - apply NoDup_cons in Hnd as [Hi Hnd]. destruct (Hs i) as [Hil Hik]; [by left|].
    destruct (IH _ _ _ (chain_push h p l i Hc Hil Hik) Hnd) as (h' & p' & -> & H1 & H2 & H3).
    + intros j Hj. destruct (Hs j) as [? ?]; [by right|]. split; [|done]. intros [->|?]%elem_of_cons; done.
    + exists h', p'. split_and!; try done; [by rewrite reverse_cons, <-app_assoc|]. intros j Hj. rewrite H3 by (intros ?; apply Hj; by right).
      cbn. rewrite lookup_set_ptr, decide_False; [done|]. intros ->. apply Hj. by left.
Qed.

Lemma tag_names_app h l1 l2 : tag_names h (l1 ++ l2) = tag_names h l1 ++ tag_names h l2.
Proof. apply fmap_app. Qed.

Lemma tag_names_net h h' l : t_net h' = t_net h -> tag_names h' l = tag_names h l.
Proof. unfold tag_names. by intros ->. Qed.

Lemma tags_after_net h h' : t_net h' = t_net h -> forall exprs css pool, tags_after h' exprs css pool = tags_after h exprs css pool.
Proof.
  intros Hn exprs. induction exprs as [|e exprs IH]; intros [|cs css] pool; try done. cbn [tags_after]. by rewrite IH, !(tag_names_net h h') by done.
Qed.

Lemma chains_frame h h' exprs css : t_net h' = t_net h -> (forall i, i ∈ concat css -> t_next h' !! i = t_next h !! i) ->
  Forall2 (fun e cs => chain h (ti_tag e) cs) exprs css -> Forall2 (fun e cs => chain h' (ti_tag e) cs) exprs css.
Proof.
  intros Hn Hx H. induction H as [|e cs exprs css He H IH]; constructor.
  - eapply chain_frame; [done| |done]. intros i Hi. apply Hx, elem_of_app. by left.
  - apply IH. intros i Hi. apply Hx, elem_of_app. by right.
Qed.

(** The rules end; the tags of the request stay at the end of the list, in
    front of them are those that rules have added, each in its turn. *)
Lemma run_tag_if_ok exprs : forall css h p l, rules_ok h exprs css -> chain h p l -> (forall i, i ∈ concat (ti_set <$> exprs) -> i ∉ l) ->
  exists h' p' ext, run_tag_if exprs h p = Ok (h', p') /\ chain h' p' (ext ++ l) /\ t_net h' = t_net h /\
    tag_names h (ext ++ l) = tags_after h exprs css (tag_names h l) /\ (forall i, i ∈ ext -> i ∈ concat (ti_set <$> exprs)) /\
    (forall i, i ∉ concat (ti_set <$> exprs) -> t_next h' !! i = t_next h !! i).
Proof.
  induction exprs as [|e exprs IH]; intros css h p l [R1 R2 R3 R4] Hc Hd; cbn [run_tag_if].
  - exists h, p, []. apply Forall2_nil_inv_l in R1 as ->. by split_and!.
  - apply Forall2_cons_inv_l in R1 as (cs & css' & Hcs & R1 & ->). cbn [fmap list_fmap concat] in *.
    rewrite (match_netid_ok h _ _ cs l true Hcs Hc). cbn [orb andb mbind comp_bind tags_after]. apply NoDup_app in R2 as (R2 & R2' & R2'').
    assert (forall i, i ∈ ti_set e -> i ∉ concat css') as Hown. { intros i Hi Hj. apply (R4 i); apply elem_of_app; [by left|by right]. }
    destruct (tags_match (tag_names h cs) (tag_names h l)).
    + destruct (add_set_ok (ti_set e) h p l Hc R2) as (h1 & p1 & -> & C1 & N1 & X1).
      { intros i Hi. split; [apply Hd|apply R3]; apply elem_of_app; by left. }
      destruct (IH css' h1 p1 (reverse (ti_set e) ++ l)) as (h' & p' & ext & -> & C2 & N2 & T2 & E2 & X2).
      * split.
        -- eapply chains_frame; [done| |done]. intros i Hi. apply X1. intros Hi'. by apply (Hown i).
        -- done.
        -- intros i Hi. rewrite N1. apply R3, elem_of_app. by right.
        -- intros i Hi Hj. apply (R4 i); apply elem_of_app; by right.
      * done.
      * intros i Hi [Hj|Hj]%elem_of_app; [rewrite elem_of_reverse in Hj; exact (R2' i Hj Hi)|]. exact (Hd i (proj2 (elem_of_app _ _ _) (or_intror Hi)) Hj).
      * exists h', p', (ext ++ reverse (ti_set e)). split_and!; try done.
        -- by rewrite <-app_assoc.
        -- congruence.
        -- rewrite <-app_assoc, <-(tag_names_net h h1) by done. rewrite T2. rewrite (tags_after_net h h1) by done. f_equal.
           rewrite (tag_names_net h h1) by done. rewrite tag_names_app. unfold tag_names at 1. by rewrite fmap_reverse.
        -- intros i [Hi|Hi]%elem_of_app; apply elem_of_app; [right; by apply E2|left]. by rewrite elem_of_reverse in Hi.
        -- intros i Hi. rewrite X2 by (intros ?; apply Hi, elem_of_app; by right). apply X1. intros ?. apply Hi, elem_of_app. by left.
    + destruct (IH css' h p l) as (h' & p' & ext & -> & C2 & N2 & T2 & E2 & X2).
      * split; try done; [intros i Hi; apply R3, elem_of_app; by right|]. intros i Hi Hj. apply (R4 i); apply elem_of_app; by right.
      * done.
      * intros i Hi. apply Hd, elem_of_app. by right.
      * exists h', p', ext. split_and!; try done; [intros i Hi; apply elem_of_app; right; by apply E2|].
        intros i Hi. apply X2. intros ?. apply Hi, elem_of_app. by right.
Qed.

(** ** Options *)

(** Both loops that take the first option of a number. *)
Fixpoint greedy (want : dhcp_opt -> bool) (before opts : list dhcp_opt) : list dhcp_opt :=
  match opts with
  | [] => before
  | o :: opts' => greedy want (before ++ [if want o && negb (taken (o_opt o) (before ++ o :: opts')) then set_ok o else o]) opts'
  end.

Lemma default_greedy opts : forall before, default_loop before opts = greedy (fun o => ordinary o && negb (tag_ok o) && bool_decide (o_netid o = None)) before opts.
Proof. induction opts as [|o opts IH]; intros before; [done|]. cbn [default_loop greedy]. by rewrite IH. Qed.

Definition tags_allow (h : netids) (names : list (list Z)) (os : list ptr) : bool := negb (bool_decide (os = [])) && tags_match (tag_names h os) names.

Lemma tag_ok_set o : tag_ok (set_ok o) = true.
Proof. unfold tag_ok, set_ok. cbn. by rewrite lor_has, orb_true_r. Qed.
Lemma tag_ok_clear o : tag_ok (clear_ok o) = false.
Proof. unfold tag_ok, clear_ok. cbn. by rewrite has_ldiff_same. Qed.
Lemma ordinary_set o : ordinary (set_ok o) = ordinary o.
Proof. unfold ordinary, set_ok. cbn. by rewrite lor_has, orb_false_r. Qed.
Lemma ordinary_clear o : ordinary (clear_ok o) = ordinary o.
Proof. unfold ordinary, clear_ok. cbn. by rewrite has_ldiff. Qed.

Lemma taken_app n l1 l2 : taken n (l1 ++ l2) = taken n l1 || taken n l2.
Proof. apply existsb_app. Qed.

Lemma taken_cons n o l : taken n (o :: l) = ((o_opt o =? n) && tag_ok o) || taken n l.
Proof. done. Qed.

Lemma taken_iff n l : taken n l = true <-> exists o, o ∈ l /\ o_opt o = n /\ tag_ok o = true.
Proof.
  unfold taken. rewrite existsb_exists. split; intros (o & H & Ho); exists o; rewrite ?andb_true_iff, ?Z.eqb_eq in *; [by apply list_elem_of_In in H|].
  split; [by apply list_elem_of_In|done].
Qed.

(** No option of the number, among the first [below], is one of [q]. *)
Definition none (q : dhcp_opt -> bool) (opts : list dhcp_opt) (n : Z) (below : nat) : Prop :=
  forall j t, (j < below)%nat -> opts !! j = Some t -> o_opt t = n -> q t = false.

Lemma none_or_first q opts n below : none q opts n below \/
  exists j t, (j < below)%nat /\ opts !! j = Some t /\ o_opt t = n /\ q t = true /\ none q opts n j.
Proof.
  induction below as [|b IH]; [left; intros j t Hj; lia|]. destruct IH as [IH|(j & t & Hj & H)]; [|right; exists j, t; split; [lia|done]].
  destruct (opts !! b) as [t|] eqn:Et.
  - destruct (decide (o_opt t = n)) as [Hn|Hn]; [destruct (q t) eqn:Eq|].
    + right. exists b, t. split_and!; [lia|done..].
    + left. intros j t' Hj Ht Hnum. destruct (decide (j = b)) as [->|]; [congruence|]. apply (IH j); [lia|done|done].
    + left. intros j t' Hj Ht Hnum. destruct (decide (j = b)) as [->|]; [congruence|]. apply (IH j); [lia|done|done].
  - left. intros j t' Hj Ht Hnum. destruct (decide (j = b)) as [->|]; [congruence|]. apply (IH j); [lia|done|done].
Qed.

(** Which options are marked: those that had been, and the first wanted one
    of each number that had none. *)
Definition wanted_in (want : dhcp_opt -> bool) (n : Z) (l : list dhcp_opt) : bool := existsb (fun t => (o_opt t =? n) && want t) l.

Lemma greedy_spec want opts : forall pre before,
  (forall n, taken n (before ++ opts) = taken n (pre ++ opts) || wanted_in want n pre) ->
  exists rest, greedy want before opts = before ++ rest /\ length rest = length opts /\ forall k u, opts !! k = Some u ->
    rest !! k = Some (if want u && negb (taken (o_opt u) (pre ++ opts) || wanted_in want (o_opt u) (pre ++ take k opts)) then set_ok u else u).
Proof.
  induction opts as [|o opts IH]; intros pre before Hinv; cbn [greedy]; [exists []; rewrite app_nil_r; by split_and!|].
  rewrite (Hinv (o_opt o)). set (o' := if want o && negb _ then set_ok o else o). destruct (IH (pre ++ [o]) (before ++ [o'])) as (rest & -> & Hl & Hk).
  - intros n. pose proof (Hinv n) as Hn. unfold wanted_in in Hn |- *. rewrite existsb_app, <-!app_assoc. cbn [app existsb]. rewrite orb_false_r.
    set (E := existsb _ pre) in *. rewrite !taken_app, !taken_cons in Hn |- *. assert (o_opt o' = o_opt o) as -> by (unfold o'; by case_match).
    assert (forall a b c : bool, a || (b || c) = (a || b) || c) as Ha by (by intros [] [] []). rewrite (Ha (taken n pre || _) E). rewrite (taken_cons n o opts), <-Hn. destruct (o_opt o =? n) eqn:En; cbn [andb orb] in *; [|by rewrite orb_false_r].
    zbool. subst n. unfold o', wanted_in. fold E. rewrite !taken_app, !taken_cons, Z.eqb_refl. cbn [andb]. rewrite <-Hn.
    destruct (want o); cbn [andb]; [|by rewrite orb_false_r]. destruct (taken (o_opt o) before || (tag_ok o || taken (o_opt o) opts)) eqn:E1; cbn [negb orb]; [done|].
    rewrite tag_ok_set. by rewrite orb_true_r.
  - exists (o' :: rest). rewrite <-app_assoc. split_and!; [done|cbn; by rewrite Hl|]. intros [|k] u Hu.
    + injection Hu as <-. cbn [take lookup list_lookup]. by rewrite app_nil_r.
    + cbn in Hu. cbn [lookup list_lookup take]. specialize (Hk k u Hu). rewrite <-!app_assoc in Hk. exact Hk.
Qed.

Section Filter.
Context (h : netids) (p : option ptr) (l : list ptr) (Hp : chain h p l).
Context (nodes : option ptr -> list ptr).

(** The nodes of the tags of each option. *)
Definition opts_ok (opts : list dhcp_opt) : Prop := forall o, o ∈ opts -> chain h (o_netid o) (nodes (o_netid o)).
Definition allowed (o : dhcp_opt) : bool := tags_allow h (tag_names h l) (nodes (o_netid o)).

Lemma match_opt opts o : opts_ok opts -> o ∈ opts -> match_netid h (o_netid o) p false = Ok (allowed o).
Proof. intros Ho Hi. by rewrite (match_netid_ok h _ p _ l false (Ho o Hi) Hp). Qed.

Lemma flag_loop_ok opts : opts_ok opts -> flag_loop h p opts = Ok ((fun o => if ordinary o && allowed o then set_ok (clear_ok o) else clear_ok o) <$> opts).
Proof.
  induction opts as [|o opts IH]; intros Ho; cbn [flag_loop]; [done|]. rewrite ordinary_clear. cbn [o_netid clear_ok with_oflags].
  rewrite (match_opt _ o Ho) by (by left). rewrite IH by (intros ? ?; apply Ho; by right). cbn [fmap list_fmap].
  destruct (ordinary o), (allowed o); done.
Qed.

Lemma reset_loop_ok opts : opts_ok opts -> reset_loop h p opts = Ok ((fun o => if ordinary o && tag_ok o && negb (allowed o) then clear_ok o else o) <$> opts).
Proof.
  induction opts as [|o opts IH]; intros Ho; cbn [reset_loop]; [done|].
  rewrite (match_opt _ o Ho) by (by left). rewrite IH by (intros ? ?; apply Ho; by right). cbn [fmap list_fmap].
  destruct (ordinary o), (tag_ok o), (allowed o); done.
Qed.

Lemma context_greedy opts : opts_ok opts -> forall before, context_loop h p before opts = Ok (greedy (fun o => ordinary o && negb (tag_ok o) && allowed o) before opts).
Proof.
  induction opts as [|o opts IH]; intros Ho before; cbn [context_loop greedy]; [done|].
  rewrite (match_opt _ o Ho) by (by left). assert (opts_ok opts) as Ho' by (intros ? ?; apply Ho; by right).
  assert (allowed o = true -> is_Some (o_netid o)) as Hs.
  { unfold allowed, tags_allow. intros H. destruct (Ho o) as [-> _]; [by left|]. destruct (nodes (o_netid o)); [done|by eexists]. }
  destruct (ordinary o && negb (tag_ok o)) eqn:E; cbn [mbind comp_bind andb]; rewrite (IH Ho'); f_equal; f_equal; f_equal; f_equal.
  destruct (allowed o) eqn:Ea; [|done]. cbn [andb]. by rewrite bool_decide_eq_true_2 by auto.
Qed.
End Filter.

Definition same_opt (o o' : dhcp_opt) : Prop := o' = with_oflags (o_flags o') o /\ Z.ldiff (o_flags o') DHOPT_TAGOK = Z.ldiff (o_flags o) DHOPT_TAGOK.

Lemma same_refl o : same_opt o o.
Proof. by destruct o. Qed.
Lemma same_trans o1 o2 o3 : same_opt o1 o2 -> same_opt o2 o3 -> same_opt o1 o3.
Proof. intros [E1 F1] [E2 F2]. split; [|congruence]. rewrite E2, E1. by destruct o1. Qed.
Lemma same_set o : same_opt o (set_ok o).
Proof. split; [done|]. cbn. apply Z.bits_inj_iff'. intros n Hn. rewrite !Z.ldiff_spec, Z.lor_spec. by destruct (Z.testbit (o_flags o) n), (Z.testbit DHOPT_TAGOK n). Qed.
Lemma same_clear o : same_opt o (clear_ok o).
Proof. split; [done|]. cbn. apply Z.bits_inj_iff'. intros n Hn. rewrite !Z.ldiff_spec. by destruct (Z.testbit (o_flags o) n), (Z.testbit DHOPT_TAGOK n). Qed.
Lemma same_chain h nodes opts opts' : Forall2 same_opt opts opts' -> opts_ok h nodes opts -> opts_ok h nodes opts'.
Proof.
  intros H Ho o' Ho'. apply list_elem_of_lookup in Ho' as [k Hk]. destruct (Forall2_lookup_r _ _ _ _ _ H Hk) as (o & Hk' & [-> _]).
  cbn. apply Ho. by eapply list_elem_of_lookup_2.
Qed.

Lemma same_ordinary o u : same_opt o u -> ordinary u = ordinary o.
Proof. intros [E F]. rewrite <-(ordinary_clear u), <-(ordinary_clear o). unfold ordinary, clear_ok. cbn. by rewrite F. Qed.
Lemma same_num o u : same_opt o u -> o_opt u = o_opt o /\ o_netid u = o_netid o.
Proof. by intros [-> _]. Qed.

(** The options [opts] with other marks: those of [g]. *)
Record marks (opts U : list dhcp_opt) (g : nat -> dhcp_opt -> Prop) : Prop := {
  mk_same : Forall2 same_opt opts U;
  mk_tag : forall k o u, opts !! k = Some o -> U !! k = Some u -> tag_ok u = true <-> g k o }.

Lemma marks_impl opts U (g g' : nat -> dhcp_opt -> Prop) : (forall k o, opts !! k = Some o -> g k o <-> g' k o) -> marks opts U g -> marks opts U g'.
Proof. intros Hg [M1 M2]. split; [done|]. intros k o u Ho Hu. rewrite <-(Hg k o Ho). by apply (M2 k o u). Qed.

Lemma marks_map opts U (g g' : nat -> dhcp_opt -> Prop) (f : dhcp_opt -> dhcp_opt) : marks opts U g -> (forall u, same_opt u (f u)) ->
  (forall k o u, opts !! k = Some o -> same_opt o u -> (tag_ok u = true <-> g k o) -> tag_ok (f u) = true <-> g' k o) -> marks opts (f <$> U) g'.
Proof.
  intros [M1 M2] Hf Hg. split.
  - clear -M1 Hf. induction M1; cbn; constructor; [by eapply same_trans|done].
  - intros k o u' Ho Hu'. rewrite list_lookup_fmap in Hu'. destruct (U !! k) as [u|] eqn:Hu; [|done]. injection Hu' as <-.
    destruct (Forall2_lookup_l _ _ _ _ _ M1 Ho) as (u2 & Hu2 & Hs). assert (u2 = u) as -> by congruence. apply (Hg k o u); [done|done|by apply (M2 k o u)].
Qed.

(** Marking the first one of each number that has none. *)
Lemma marks_fill opts U (g : nat -> dhcp_opt -> Prop) want w : marks opts U g -> (forall u, want u = true <-> w u = true /\ tag_ok u = false) ->
  (forall o u, same_opt o u -> w u = w o) ->
  marks opts (greedy want [] U)
    (fun k o => g k o \/ w o = true /\ (forall j t, opts !! j = Some t -> o_opt t = o_opt o -> ~ g j t) /\ none w opts (o_opt o) k).
Proof.
  intros [M1 M2] Hwant Hw. destruct (greedy_spec want U [] []) as (rest & -> & Hl & Hk); [intros n; cbn; by rewrite orb_false_r|]. cbn [app] in *.
  assert (forall j t, opts !! j = Some t -> exists u, U !! j = Some u /\ same_opt t u) as Hto by (intros j t Ht; by apply (Forall2_lookup_l _ _ _ _ _ M1 Ht)).
  assert (forall j u, U !! j = Some u -> exists t, opts !! j = Some t /\ same_opt t u) as Hof by (intros j u Hu; by destruct (Forall2_lookup_r _ _ _ _ _ M1 Hu) as (t & ? & ?); exists t).
  split.
  - apply Forall2_same_length_lookup_2; [rewrite Hl; by eapply Forall2_length|]. intros k o u' Ho Hu'. destruct (Hto k o Ho) as (u & Hu & Hs). rewrite (Hk k u Hu) in Hu'. injection Hu' as <-.
    case_match; [eapply same_trans; [exact Hs|apply same_set]|done].
  - intros k o u' Ho Hu'. destruct (Hto k o Ho) as (u & Hu & Hs). rewrite (Hk k u Hu) in Hu'. injection Hu' as <-. pose proof (M2 k o u Ho Hu) as Hg. destruct (same_num _ _ Hs) as [En _].
    destruct (tag_ok u) eqn:Et.
    { assert (want u = false) as -> by (apply not_true_is_false; rewrite Hwant, Et; by intros [_ ?]). cbn. rewrite Et. split; [intros _; left; by apply Hg|done]. }
    assert (~ g k o) as Hng by (by intros H%Hg). rewrite <-(Hw o u Hs).
    assert (want u = w u) as ->. { apply eq_true_iff_eq. rewrite Hwant, Et. tauto. }
    assert (taken (o_opt u) U = false <-> forall j t, opts !! j = Some t -> o_opt t = o_opt o -> ~ g j t) as Htk.
    { rewrite <-not_true_iff_false, taken_iff. split.
      - intros Hn j t Ht Hnum Hgt. destruct (Hto j t Ht) as (v & Hv & Hsv). destruct (same_num _ _ Hsv) as [Ev _]. apply Hn. exists v. split; [by eapply list_elem_of_lookup_2|]. split; [congruence|]. by apply (M2 j t v).
      - intros Hn (v & [j Hv]%list_elem_of_lookup & Ev & Hvt). destruct (Hof j v Hv) as (t & Ht & Hsv). destruct (same_num _ _ Hsv) as [Ev' _]. apply (Hn j t Ht); [congruence|]. by apply (M2 j t v). }
    assert (taken (o_opt u) U = false -> wanted_in want (o_opt u) (take k U) = false <-> none w opts (o_opt o) k) as Hn.
    { intros Htf. unfold wanted_in. rewrite <-not_true_iff_false, existsb_exists. split.
      - intros Hno j t Hj Ht Hnum. apply not_true_is_false. intros Hwt. destruct (Hto j t Ht) as (v & Hv & Hsv). destruct (same_num _ _ Hsv) as [Ev _]. apply Hno. exists v. split.
        + apply list_elem_of_In. apply list_elem_of_lookup_2 with j. by rewrite lookup_take_lt.
        + apply andb_true_iff. split; [apply Z.eqb_eq; congruence|]. apply Hwant. rewrite (Hw t v Hsv). split; [done|]. apply not_true_is_false. intros Hvt.
          assert (taken (o_opt u) U = true); [|congruence]. apply taken_iff. exists v. split_and!; [by eapply list_elem_of_lookup_2|congruence|done].
      - intros Hno (v & [j Hv]%list_elem_of_In%list_elem_of_lookup & [Ev%Z.eqb_eq Hwv]%andb_true_iff). apply lookup_take_Some in Hv as [Hv Hj].
        destruct (Hof j v Hv) as (t & Ht & Hsv). destruct (same_num _ _ Hsv) as [Ev' _]. apply Hwant in Hwv as [Hwv _]. rewrite (Hw t v Hsv) in Hwv. rewrite (Hno j t Hj Ht) in Hwv; [done|congruence]. }
    destruct (w u) eqn:Ewu; cbn [andb].
    + destruct (taken (o_opt u) U) eqn:Etk; cbn [orb negb].
      * rewrite Et. split; [done|]. intros [?|(_ & Hall & _)]; [done|]. by apply Htk in Hall.
      * specialize (Hn eq_refl). destruct (wanted_in want (o_opt u) (take k U)) eqn:Ewi; cbn [negb].
        -- rewrite Et. split; [done|]. intros [?|(_ & _ & Hnn)]; [done|]. by apply Hn in Hnn.
        -- rewrite tag_ok_set. split; [|done]. intros _. right. split_and!; [done|by apply Htk|by apply Hn].
    + rewrite Et. split; [done|]. by intros [?|(? & _)].
Qed.

(** * Which options are sent *)

(** An ordinary option with tags, all of which match the names. *)
Definition fits (h : netids) (nodes : option ptr -> list ptr) (names : list (list Z)) (o : dhcp_opt) : bool :=
  ordinary o && tags_allow h names (nodes (o_netid o)).
(** An ordinary option without tags. *)
Definition plain (o : dhcp_opt) : bool := ordinary o && bool_decide (o_netid o = None).

(** [own] are the tags of the request, with what rules add to them, and [all]
    are these and those of the range. Of the options of a number, those are
    sent that the request's own tags ask for and that no tag forbids; if there
    are none, the first one that the tags ask for when those of the range
    count, too; if there is none either, the first one without tags. *)
Definition first_class (h : netids) (nodes : option ptr -> list ptr) (own all : list (list Z)) (o : dhcp_opt) : bool := fits h nodes own o && fits h nodes all o.
Definition sent (h : netids) (nodes : option ptr -> list ptr) (own all : list (list Z)) (opts : list dhcp_opt) (k : nat) (o : dhcp_opt) : Prop :=
  first_class h nodes own all o = true \/
  (fits h nodes all o = true /\ none (first_class h nodes own all) opts (o_opt o) (length opts) /\ none (fits h nodes all) opts (o_opt o) k) \/
  (plain o = true /\ none (fits h nodes all) opts (o_opt o) (length opts) /\ none plain opts (o_opt o) k).

Lemma fits_same h nodes names o u : same_opt o u -> fits h nodes names u = fits h nodes names o.
Proof. intros H. destruct (same_num _ _ H) as [_ E]. unfold fits. by rewrite (same_ordinary _ _ H), E. Qed.
Lemma plain_same o u : same_opt o u -> plain u = plain o.
Proof. intros H. destruct (same_num _ _ H) as [_ E]. unfold plain. by rewrite (same_ordinary _ _ H), E. Qed.

Lemma none_all q opts n : none q opts n (length opts) <-> forall j t, opts !! j = Some t -> o_opt t = n -> q t = false.
Proof. split; [|by intros H j t _; apply H]. intros H j t Ht. apply (H j t); [by eapply lookup_lt_Some|done]. Qed.

Lemma none_iff q opts n : none q opts n (length opts) <-> forall j t, opts !! j = Some t -> o_opt t = n -> ~ q t = true.
Proof. rewrite none_all. split; intros H j t Ht Hn; [by rewrite (H j t)|by apply not_true_is_false, (H j t)]. Qed.

(** When a number has an option that the tags ask for, one of them is marked
    before the options without tags are looked at. *)
Lemma before_plain h nodes own all opts n :
  (forall j t, opts !! j = Some t -> o_opt t = n -> ~ (first_class h nodes own all t = true \/ fits h nodes all t = true /\
     none (first_class h nodes own all) opts (o_opt t) (length opts) /\ none (fits h nodes all) opts (o_opt t) j)) <->
  none (fits h nodes all) opts n (length opts).
Proof.
  rewrite none_iff. split.
  - intros H j t Ht Hn Hf. destruct (none_or_first (fits h nodes all) opts n (length opts)) as [Hno|(j' & t' & _ & Ht' & Hn' & Hf' & Hno)].
    + rewrite none_iff in Hno. by apply (Hno j t).
    + apply (H j' t' Ht' Hn'). right. split; [done|]. rewrite Hn'. split; [|done]. apply none_iff. intros i u Hu Hnu Hc. apply (H i u Hu Hnu). by left.
  - intros H j t Ht Hn [Hc|(Hf & _)]; [|by apply (H j t)]. apply (H j t Ht Hn). unfold first_class in Hc. by apply andb_true_iff in Hc as [_ ?].
Qed.

(** ** The filter *)

Lemma last_tag_ok h : forall l i fuel, chain h (Some i) (i :: l) -> (length (i :: l) <= fuel)%nat -> exists j, last_tag fuel h i = Ok j /\ last (i :: l) = Some j.
Proof.
  induction l as [|k l IH]; intros i fuel Hc Hf; (destruct fuel as [|fuel]; [cbn in Hf; lia|]); pose proof (chain_cons _ _ _ _ Hc) as (_ & [net Hi] & Hl); cbn [last_tag];
    rewrite Hi; cbn [of_option mbind comp_bind].
  - rewrite (chain_nil _ _ Hl). by exists i.
  - pose proof (chain_cons _ _ _ _ Hl) as (E & _). rewrite E in *. destruct (IH k fuel Hl) as (j & -> & Hj); [cbn in *; lia|]. by exists j.
Qed.

(** A list is put behind another. *)
Lemma chain_link h p q l1 l2 j : chain h p l1 -> chain h q l2 -> last l1 = Some j -> (forall i, i ∈ l1 -> i ∉ l2) ->
  chain (Netids (t_net h) (set_ptr (t_next h) j q)) p (l1 ++ l2).
Proof.
  revert p. induction l1 as [|i l1 IH]; intros p H1 H2 Hl Hd; [done|]. pose proof (chain_nodup _ _ _ H1) as Hnd. apply NoDup_cons in Hnd as [Hi Hnd].
  pose proof (chain_cons _ _ _ _ H1) as (-> & Hk & H1'). destruct l1 as [|k l1].
  - injection Hl as <-. apply chain_push; [done|apply Hd; by left|done].
  - assert (last (k :: l1) = Some j) as Hl' by done. destruct (IH _ H1' H2 Hl') as (E & Hs & Hn); [intros ? ?; apply Hd; by right|].
    split; [done|]. split.
    + cbn [app sseg t_next]. split; [|exact Hs]. rewrite lookup_set_ptr, decide_False; [by pose proof (chain_cons _ _ _ _ H1') as (-> & _)|].
      intros ->. apply Hi. by apply last_Some_elem_of.
    + intros x [->|Hx]%elem_of_cons; [done|by apply Hn].
Qed.

Lemma rules_frame h h' exprs css : t_net h' = t_net h -> (forall i, i ∈ concat css -> t_next h' !! i = t_next h !! i) -> rules_ok h exprs css -> rules_ok h' exprs css.
Proof. intros Hn Hx [R1 R2 R3 R4]. split; [by eapply chains_frame|done|by rewrite Hn|done]. Qed.

Lemma opts_frame h h' nodes opts : t_net h' = t_net h -> (forall o i, o ∈ opts -> i ∈ nodes (o_netid o) -> t_next h' !! i = t_next h !! i) ->
  opts_ok h nodes opts -> opts_ok h' nodes opts.
Proof. intros Hn Hx Ho o Hi. eapply chain_frame; [done| |by apply Ho]. intros i. by apply Hx. Qed.

Lemma allowed_net h h' l l' nodes o : t_net h' = t_net h -> tag_names h l = tag_names h l' -> allowed h' l nodes o = allowed h l' nodes o.
Proof. intros Hn Hl. unfold allowed, tags_allow. by rewrite !(tag_names_net h h') by done; rewrite Hl. Qed.

(** What is shared: the nodes that rules add and the tags of the range are in
    no other list. *)
Record filter_input (exprs : list tag_if) (css : list (list ptr)) (h : netids) (tags context_tags : option ptr) (l cl : list ptr)
    (nodes : option ptr -> list ptr) (opts : list dhcp_opt) : Prop := {
  fin_rules : rules_ok h exprs css;
  fin_tags : chain h tags l;
  fin_context : chain h context_tags cl;
  fin_opts : opts_ok h nodes opts;
  fin_added : forall i, i ∈ concat (ti_set <$> exprs) -> (i ∉ l) /\ (i ∉ cl) /\ forall o, o ∈ opts -> i ∉ nodes (o_netid o);
  fin_range : forall i, i ∈ cl -> (i ∉ l) /\ (i ∉ concat css) /\ forall o, o ∈ opts -> i ∉ nodes (o_netid o) }.

Lemma marks_all opts : marks opts opts (fun _ o => tag_ok o = true).
Proof. split; [induction opts; constructor; [apply same_refl|done]|]. intros k o u Ho Hu. by assert (u = o) as -> by congruence. Qed.

(** The first loop. *)
Lemma flag_phase h h1 p1 l1 nodes opts : chain h1 p1 l1 -> opts_ok h1 nodes opts -> t_net h1 = t_net h ->
  exists U, flag_loop h1 p1 opts = Ok U /\ marks opts U (fun _ o => fits h nodes (tag_names h l1) o = true).
Proof.
  intros C1 Ho1 N1. eexists. split; [by apply (flag_loop_ok h1 p1 l1 C1 nodes)|]. eapply marks_map; [apply marks_all| |].
  - intros o. case_match; [eapply same_trans; [apply same_clear|apply same_set]|apply same_clear].
  - intros k o u _ Hs _. rewrite <-(fits_same _ _ _ _ _ Hs). unfold fits. change (tags_allow h _ _) with (allowed h l1 nodes u). rewrite <-(allowed_net h h1 l1 l1 nodes u N1 eq_refl).
    case_match; rewrite ?tag_ok_set, ?tag_ok_clear; done.
Qed.

(** The loops that take the tags of the range into account. *)
Lemma context_phase h h3 p3 l3 nodes opts U names1 : chain h3 p3 l3 -> opts_ok h3 nodes opts -> t_net h3 = t_net h ->
  marks opts U (fun _ o => fits h nodes names1 o = true) ->
  exists V W, reset_loop h3 p3 U = Ok V /\ context_loop h3 p3 [] V = Ok W /\
    marks opts W (fun k o => first_class h nodes names1 (tag_names h l3) o = true \/ fits h nodes (tag_names h l3) o = true /\
      none (first_class h nodes names1 (tag_names h l3)) opts (o_opt o) (length opts) /\ none (fits h nodes (tag_names h l3)) opts (o_opt o) k).
Proof.
  intros C3 Ho3 N3 HU. assert (forall u, ordinary u && allowed h3 l3 nodes u = fits h nodes (tag_names h l3) u) as Hfit.
  { intros u. unfold fits. by rewrite (allowed_net h h3 l3 l3 nodes u N3 eq_refl). }
  assert (marks opts ((fun o => if ordinary o && tag_ok o && negb (allowed h3 l3 nodes o) then clear_ok o else o) <$> U)
    (fun _ o => first_class h nodes names1 (tag_names h l3) o = true)) as HV.
  { eapply marks_map; [exact HU| |].
    - intros o. case_match; [apply same_clear|apply same_refl].
    - intros k o u _ Hs Hg. cbn beta in Hg. unfold first_class. rewrite <-!(fits_same _ _ _ _ _ Hs), andb_true_iff. rewrite <-(fits_same _ _ _ _ _ Hs) in Hg. rewrite <-Hg, <-Hfit.
      destruct (tag_ok u) eqn:Et; [|rewrite andb_false_r; cbn; rewrite Et; split; [done|by intros [? _]]].
      assert (ordinary u = true) as -> by (assert (fits h nodes names1 u = true) as H by (by apply Hg); unfold fits in H; by apply andb_true_iff in H as [? _]).
      destruct (allowed h3 l3 nodes u); cbn; rewrite ?tag_ok_clear, ?Et; naive_solver. }
  eexists _, _. split; [apply (reset_loop_ok h3 p3 l3 C3 nodes); eapply same_chain; [apply HU|done]|].
  split; [apply (context_greedy h3 p3 l3 C3 nodes); eapply same_chain; [apply HV|done]|].
  eapply marks_impl; [|apply (marks_fill _ _ _ _ (fits h nodes (tag_names h l3)) HV)].
  - intros k o _. by rewrite none_iff.
  - intros u. rewrite <-Hfit, !andb_true_iff, negb_true_iff. tauto.
  - intros o u. apply fits_same.
Qed.

(** The last loop. *)
Lemma default_phase h nodes own all opts W : marks opts W (fun k o => first_class h nodes own all o = true \/ fits h nodes all o = true /\
      none (first_class h nodes own all) opts (o_opt o) (length opts) /\ none (fits h nodes all) opts (o_opt o) k) ->
  marks opts (default_loop [] W) (sent h nodes own all opts).
Proof.
  intros HW. rewrite default_greedy. eapply marks_impl; [|apply (marks_fill _ _ _ _ plain HW)].
  - intros k o _. unfold sent. rewrite before_plain. tauto.
  - intros u. unfold plain. rewrite !andb_true_iff, negb_true_iff. tauto.
  - intros o u. apply plain_same.
Qed.

(** The tags of the range in front of those of the request, and the rules
    once more. *)
Lemma range_phase exprs css h h1 tags c l cl nodes opts : filter_input exprs css h tags (Some c) l cl nodes opts -> t_net h1 = t_net h ->
  (forall i, i ∉ concat (ti_set <$> exprs) -> t_next h1 !! i = t_next h !! i) ->
  exists j h3 p3 l3, last_tag (walk_fuel h1) h1 c = Ok j /\ run_tag_if exprs (Netids (t_net h1) (set_ptr (t_next h1) j tags)) (Some c) = Ok (h3, p3) /\
    chain h3 p3 l3 /\ t_net h3 = t_net h /\ tag_names h l3 = tags_after h exprs css (tag_names h (cl ++ l)) /\ opts_ok h3 nodes opts.
Proof.
  intros [Hr Ht Hc Ho Ha Hg] N1 X1. destruct cl as [|c' cl]; [by destruct Hc as [? _]|]. pose proof (chain_cons _ _ _ _ Hc) as ([= ->] & _).
  assert (chain h1 (Some c') (c' :: cl)) as Hc1. { eapply chain_frame; [done| |exact Hc]. intros i Hi. apply X1. intros Hs. by apply (proj1 (proj2 (Ha i Hs))). }
  assert (chain h1 tags l) as Ht1. { eapply chain_frame; [done| |exact Ht]. intros i Hi. apply X1. intros Hs. by apply (proj1 (Ha i Hs)). }
  destruct (last_tag_ok h1 cl c' (walk_fuel h1) Hc1) as (j & Hlast & Hj); [pose proof (tags_fuel _ _ _ Hc1); lia|].
  pose proof (chain_link h1 (Some c') tags (c' :: cl) l j Hc1 Ht1 Hj (fun i Hi => proj1 (Hg i Hi))) as C2. set (h2 := Netids _ _) in *.
  assert (t_net h2 = t_net h) as N2 by done.
  assert (j ∈ c' :: cl) as Hjc by (by apply last_Some_elem_of).
  assert (forall i, i <> j -> t_next h2 !! i = t_next h1 !! i) as X2. { intros i Hi. unfold h2. cbn. by rewrite lookup_set_ptr, decide_False. }
  destruct (run_tag_if_ok exprs css h2 (Some c') ((c' :: cl) ++ l)) as (h3 & p3 & ext3 & Hrun & C3 & N3 & T3 & _ & X3).
  { eapply (rules_frame h); [done| |done]. intros i Hi. rewrite X2; [apply X1|].
    - intros Hs. by apply (ru_own _ _ _ Hr i).
    - intros ->. by apply (proj1 (proj2 (Hg j Hjc))). }
  { done. }
  { intros i Hi [H|H]%elem_of_app; destruct (Ha i Hi) as (? & ? & _); done. }
  exists j, h3, p3, (ext3 ++ (c' :: cl) ++ l). split_and!; try done; [congruence| |].
  - rewrite <-!(tag_names_net h h2 _ N2), T3. apply tags_after_net, N2.
  - eapply (opts_frame h); [congruence| |done]. intros o i Hi Hn. rewrite X3, X2; [apply X1|..].
    + intros Hs. by apply (proj2 (proj2 (Ha i Hs)) o).
    + intros ->. by apply (proj2 (proj2 (Hg j Hjc)) o).
    + intros Hs. by apply (proj2 (proj2 (Ha i Hs)) o).
Qed.

(** C11: the options that a client is sent are the right ones, although nodes of
    the configuration are linked into the list of its tags, and into another
    by the next request. The filter ends and gives the tags of the range and of
    the request with those that the rules add; nothing but the mark of options
    changes, and exactly those get it that are to be sent ([sent]). Of the
    options of a number these are the ones that the tags of the request ask
    for, as long as no tag of the range forbids them. Tags of the range are
    second class: only if there are no such options, the first one that they
    make fit is sent. If no option of the number fits, the first one without
    tags is sent. *)
Theorem option_filter_correct exprs css h tags context_tags l cl nodes opts : filter_input exprs css h tags context_tags l cl nodes opts ->
  exists h' p' lf opts', option_filter exprs h tags context_tags opts = Ok (h', p', opts') /\ chain h' p' lf /\
    tag_names h lf = tags_after h exprs css (tag_names h (cl ++ l)) /\ Forall2 same_opt opts opts' /\
    forall k o o', opts !! k = Some o -> opts' !! k = Some o' ->
      tag_ok o' = true <-> sent h nodes (tags_after h exprs css (tag_names h l)) (tag_names h lf) opts k o.
Proof.
  intros Hin. pose proof Hin as [Hr Ht Hc Ho Ha Hg]. unfold option_filter.
  destruct (run_tag_if_ok exprs css h tags l Hr Ht) as (h1 & p1 & ext & -> & C1 & N1 & T1 & _ & X1); [intros i Hi; by apply Ha|]. cbn [mbind comp_bind].
  destruct (flag_phase h h1 p1 (ext ++ l) nodes opts C1) as (U & -> & HU); [|done|].
  { eapply opts_frame; [done| |done]. intros o i Hi Hn. apply X1. intros Hs. by apply (proj2 (proj2 (Ha i Hs)) o). }
  cbn [mbind comp_bind]. rewrite <-T1. destruct context_tags as [c|].
  - destruct (range_phase exprs css h h1 tags c l cl nodes opts Hin N1 X1) as (j & h3 & p3 & l3 & -> & Hrun & C3 & N3 & T3 & Ho3).
    cbn [mbind comp_bind]. rewrite Hrun. cbn [mbind comp_bind].
    destruct (context_phase h h3 p3 l3 nodes opts U _ C3 Ho3 N3 HU) as (V & W & -> & HW & MW). cbn [mbind comp_bind]. rewrite HW. cbn [mbind comp_bind mret comp_ret].
    destruct (default_phase _ _ _ _ _ _ MW) as [M1 M2]. by exists h3, p3, l3, (default_loop [] W).
  - destruct cl as [|c' cl]; [|by apply chain_cons in Hc as [? _]]. cbn [mbind comp_bind mret comp_ret].
    destruct (default_phase h nodes (tag_names h (ext ++ l)) (tag_names h (ext ++ l)) opts U) as [M1 M2].
    { eapply marks_impl; [|exact HU]. intros k o Hk. unfold first_class. rewrite andb_diag. split; [by left|]. by intros [?|(? & _)]. }
    by exists h1, p1, (ext ++ l), (default_loop [] U).
Qed.

(** A rule adds a tag, which an option then has. *)
Definition demo_tags : netids := Netids (list_to_map [(1%positive, lit "lan"); (2%positive, lit "wifi"); (3%positive, lit "lan"); (4%positive, lit "wifi"); (5%positive, lit "office")]) ∅.
Definition demo_rules : list tag_if := [TagIf [2%positive] (Some 3%positive)].
Definition demo_opts : list dhcp_opt := [DhcpOpt 6 4 0 0 [10; 0; 0; 1] None; DhcpOpt 6 4 0 0 [10; 0; 0; 2] (Some 4%positive)].
Definition demo_nodes (p : option ptr) : list ptr := match p with Some i => [i] | None => [] end.

Lemma demo_chain i : is_Some (t_net demo_tags !! i) -> chain demo_tags (Some i) [i].
Proof. intros Hi. split; [done|]. split; [done|]. by intros j ->%list_elem_of_singleton. Qed.

Lemma demo_input : filter_input demo_rules [[3%positive]] demo_tags (Some 1%positive) (Some 5%positive) [1%positive] [5%positive] demo_nodes demo_opts.
Proof.
  assert (rules_ok demo_tags demo_rules [[3%positive]]) as Hr.
  { split.
    - constructor; [|constructor]. apply demo_chain. by eexists.
    - apply (bool_decide_unpack _). by vm_compute.
    - intros i ->%list_elem_of_singleton. by eexists.
    - intros i ->%list_elem_of_singleton. by intros ?%list_elem_of_singleton. }
  split; [done|apply demo_chain; by eexists..| | |].
  - intros o [->|[->|[]%elem_of_nil]%elem_of_cons]%elem_of_cons; [by split_and!; [..|intros ? ?%elem_of_nil]|]. apply demo_chain. by eexists.
  - intros i ->%list_elem_of_singleton. split_and!; [by intros ?%list_elem_of_singleton..|].
    intros o [->|[->|[]%elem_of_nil]%elem_of_cons]%elem_of_cons; [by intros ?%elem_of_nil|by intros ?%list_elem_of_singleton].
  - intros i ->%list_elem_of_singleton. split_and!; [by intros ?%list_elem_of_singleton..|].
    intros o [->|[->|[]%elem_of_nil]%elem_of_cons]%elem_of_cons; [by intros ?%elem_of_nil|by intros ?%list_elem_of_singleton].
Qed.

Lemma demo_filtered : match option_filter demo_rules demo_tags (Some 1%positive) (Some 5%positive) demo_opts with Ok (_, _, opts) => tag_ok <$> opts | Fault _ => [] end = [false; true].
Proof. by vm_compute. Qed.

(** The manual's example: both tags are there, that of the range and that of
    the host, and the option for the host is sent. *)
Example range_is_second_class :
  match option_filter [] demo_tags (Some 1%positive) (Some 5%positive)
    [DhcpOpt 40 7 0 0 (lit "domain1") (Some 5%positive); DhcpOpt 40 7 0 0 (lit "domain2") (Some 3%positive)] with
  | Ok (_, _, opts) => tag_ok <$> opts
  | Fault _ => []
  end = [false; true].
Proof. by vm_compute. Qed.

Lemma option_filter_correct_witness : exists h p opts, option_filter demo_rules demo_tags (Some 1%positive) (Some 5%positive) demo_opts = Ok (h, p, opts) /\
  Forall2 same_opt demo_opts opts /\ tag_ok <$> opts = [false; true].
Proof.
  destruct (option_filter_correct _ _ _ _ _ _ _ _ _ demo_input) as (h & p & lf & opts & H & _ & _ & Hw). exists h, p, opts. split; [done|]. split; [apply Hw|].
  pose proof demo_filtered as E. by rewrite H in E.
Defined.

(** ** Values *)

Definition occurs_at (o : dhcp_opt) (p : list Z) (i : Z) : Prop := take (length (o_val o)) (drop (Z.to_nat i) p) = o_val o.

Lemma bytes_loop_ok o p len : o_len o = zlen (o_val o) -> 0 < o_len o -> len <= zlen p ->
  let step := if has (o_flags o) DHOPT_STRING then 1 else o_len o in
  forall fuel i, 0 <= i -> (Z.to_nat (len - i) < fuel)%nat -> exists b, bytes_loop fuel o p len i = Ok b /\
    (b = true <-> exists k, 0 <= k /\ i + k * step <= len - o_len o /\ occurs_at o p (i + k * step)).
Proof.
  intros Hl Hpos Hlen step. assert (0 < step) as Hst by (unfold step; case_match; lia).
  induction fuel as [|fuel IH]; intros i Hi Hf; [lia|]. cbn [bytes_loop]. destruct (i <=? len - o_len o) eqn:E; zbool.
  - rewrite memcmp0_ok by (try lia; unfold zlen in *; rewrite length_drop; lia). cbn [mbind comp_bind].
    replace (take (Z.to_nat (o_len o)) (o_val o)) with (o_val o) by (rewrite Hl; unfold zlen; by rewrite Nat2Z.id, firstn_all).
    replace (Z.to_nat (o_len o)) with (length (o_val o)) by (rewrite Hl; unfold zlen; lia).
    case_bool_decide as Ho.
    + exists true. split; [done|]. split; [|done]. intros _. exists 0. rewrite Z.mul_0_l, Z.add_0_r. split_and!; [lia|lia|]. by unfold occurs_at.
    + replace (if has (o_flags o) DHOPT_STRING then i + 1 else i + o_len o) with (i + step) by (unfold step; by case_match).
      destruct (IH (i + step)) as (b & -> & Hb); [lia|lia|]. exists b. split; [done|]. rewrite Hb. split.
      * intros (k & ? & ? & Hk). exists (k + 1). replace (i + (k + 1) * step) with (i + step + k * step) by lia. split_and!; [lia|lia|done].
      * intros (k & ? & ? & Hk). destruct (decide (k = 0)) as [->|]; [rewrite Z.mul_0_l, Z.add_0_r in Hk; by destruct Ho|].
        exists (k - 1). replace (i + step + (k - 1) * step) with (i + k * step) by lia. split_and!; [lia|lia|done].
  - exists false. split; [done|]. split; [done|]. intros (k & ? & ? & _). nia.
Qed.

(** A value that is not a pattern is looked for everywhere if it is a string,
    and otherwise at the multiples of its length. *)
Lemma match_bytes_ok o p len : o_len o = zlen (o_val o) -> 0 <= len <= zlen p -> has (o_flags o) DHOPT_HEX = false ->
  exists b, match_bytes o p len = Ok b /\
    (b = true <-> o_val o = [] \/ exists i, 0 <= i <= len - o_len o /\ (has (o_flags o) DHOPT_STRING = true \/ (o_len o | i)) /\ occurs_at o p i).
Proof.
  intros Hl Hlen Hh. pose proof (zlen_nonneg (o_val o)) as Hn. unfold match_bytes. rewrite Hh. destruct (len <? o_len o) eqn:E; zbool.
  { exists false. split; [done|]. split; [done|]. intros [Hv|(i & ? & _)]; [rewrite Hv, zlen_nil in Hl|]; lia. }
  destruct (o_len o =? 0) eqn:E0; zbool.
  { exists true. split; [done|]. split; [|done]. intros _. left. apply length_zero_iff_nil. unfold zlen in *. lia. }
  destruct (bytes_loop_ok o p len Hl ltac:(lia) ltac:(lia) (S (Z.to_nat len)) 0) as (b & -> & Hb); [lia|lia|]. exists b. split; [done|]. rewrite Hb. split.
  - intros (k & ? & ? & Hk). right. exists (0 + k * (if has (o_flags o) DHOPT_STRING then 1 else o_len o)). destruct (has (o_flags o) DHOPT_STRING).
    + split_and!; [lia|lia|by left|done].
    + split_and!; [nia|lia|right; exists k; lia|done].
  - intros [Hv|(i & ? & Hd & Hk)]; [rewrite Hv, zlen_nil in Hl; lia|]. destruct (has (o_flags o) DHOPT_STRING).
    + exists i. replace (0 + i * 1) with i by lia. split_and!; [lia|lia|done].
    + destruct Hd as [?|[k ->]]; [done|]. exists k. rewrite Z.add_0_l. split_and!; [nia|lia|done].
Qed.

Lemma strchr_split s c n : strchr s c = Some n -> s = take n s ++ c :: drop (S n) s /\ c ∉ take n s.
Proof.
  revert n. induction s as [|b s IH]; intros n; cbn [strchr]; [done|]. destruct (b =? c) eqn:E; zbool.
  - intros [= <-]. cbn. subst. split; [done|apply not_elem_of_nil].
  - destruct (strchr s c) as [m|] eqn:Em; cbn; [|done]. intros [= <-]. destruct (IH m eq_refl) as [H1 H2]. cbn. split; [by rewrite H1 at 1|].
    intros [->|?]%elem_of_cons; done.
Qed.

(** The name is cut at its first dot. *)
Lemma strip_hostname_ok s : let '(n, d) := strip_hostname s in (46 ∉ n) /\ match d with Some d => s = n ++ [46] ++ d /\ d <> [] | None => s = n \/ s = n ++ [46] end.
Proof.
  unfold strip_hostname. destruct (strchr s 46) as [n|] eqn:E.
  - destruct (strchr_split _ _ _ E) as [H1 H2]. split; [done|]. destruct (drop (S n) s) eqn:Ed; [right; by rewrite H1 at 1|]. split; [by rewrite H1 at 1|done].
  - split; [|by left]. clear -E. induction s as [|b s IH]; [apply not_elem_of_nil|]. cbn in E. destruct (b =? 46) eqn:Eb; [done|]. zbool.
    intros [Hb|Hin]%elem_of_cons; [congruence|]. revert Hin. apply IH. by destruct (strchr s 46).
Qed.
