(* ===== verification/DmDhcp.v ===== *)
(** dnsmasq's dhcp.c: the ranges of addresses, the configuration of hosts, and
    the search for an address that is free. *)
From S2P Require Import Prelude CString Dns Common DmUtil DmName DmPacket DmLru DmCache DmCacheInv DmLease DmLeaseInv DmTags.
Set Warnings "-clear-no-such-hyp".

Definition CONTEXT_STATIC : Z := 1.
Definition CONTEXT_NETMASK : Z := 2.
Definition CONTEXT_BRDCAST : Z := 4.
Definition CONTEXT_PROXY : Z := 8.
Definition CONFIG_DISABLE : Z := 1.
Definition CONFIG_CLID : Z := 2.
Definition CONFIG_NAME : Z := 16.
Definition CONFIG_ADDR : Z := 32.
Definition CONFIG_DECLINED : Z := 1024.
Definition PING_CACHE_TIME : Z := 30.

(** * Data *)

(** A range of addresses. *)
Record dhcp_context := DhcpContext {
  c_epoch : Z; c_netmask : in_addr; c_broadcast : in_addr; c_local : in_addr; c_router : in_addr;
  c_start : in_addr; c_end : in_addr; c_flags : Z; c_filter : option ptr }.

Record hwaddr_config := HwConfig { hc_len : Z; hc_type : Z; hc_hwaddr : list Z; hc_mask : Z }.

Record dhcp_config := DhcpConfig {
  g_flags : Z; g_clid_len : Z; g_clid : list Z; g_hostname : list Z; g_addr : in_addr; g_decline_time : Z; g_hwaddr : list hwaddr_config }.

Record ping_result := PingResult { p_addr : in_addr; p_time : Z; p_hash : Z }.

Definition with_epoch (v : Z) (c : dhcp_context) : dhcp_context :=
  DhcpContext v (c_netmask c) (c_broadcast c) (c_local c) (c_router c) (c_start c) (c_end c) (c_flags c) (c_filter c).

(** * Ranges *)

Definition fixed_range (c : dhcp_context) : bool := has (c_flags c) (Z.lor CONTEXT_STATIC CONTEXT_PROXY).

(** What [complete_context] makes of one range; [linked] is whether it is on
    the chain of those that may be used already. The second result is whether
    it is put there now. *)
Definition complete_one (local netmask broadcast : in_addr) (here linked : bool) (c : dhcp_context) : dhcp_context * bool :=
  let c := if negb (has (c_flags c) CONTEXT_NETMASK) && (is_same_net local (c_start c) netmask || is_same_net local (c_end c) netmask) then
             DhcpContext (c_epoch c) netmask (c_broadcast c) (c_local c) (c_router c) (c_start c) (c_end c) (c_flags c) (c_filter c) else c in
  if negb (bool_decide (c_netmask c = no_addr)) && is_same_net local (c_start c) (c_netmask c) && is_same_net local (c_end c) (c_netmask c) then
    let link := here && negb linked in
    let c := if link then DhcpContext (c_epoch c) (c_netmask c) (c_broadcast c) local local (c_start c) (c_end c) (c_flags c) (c_filter c) else c in
    (if negb (has (c_flags c) CONTEXT_BRDCAST) then
       let b := if is_same_net broadcast (c_start c) (c_netmask c) then broadcast
                else addr_map2 (fun s m => Z.lor s (255 - m)) (c_start c) (c_netmask c) in
       DhcpContext (c_epoch c) (c_netmask c) b (c_local c) (c_router c) (c_start c) (c_end c) (c_flags c) (c_filter c)
     else c, link)
  else (c, false).

(** All ranges, from the one with number [i] on; the chain is the list of the
    numbers of the ranges on it. [here] is whether the address is one of the
    interface that a request came from. *)
Fixpoint complete_context (local netmask broadcast : in_addr) (here : bool) (i : nat) (l : list dhcp_context) (current : list nat)
  : list dhcp_context * list nat :=
  match l with
  | [] => ([], current)
  | c :: l' =>
      let '(c, link) := complete_one local netmask broadcast here (bool_decide (i ∈ current)) c in
      let '(l', current) := complete_context local netmask broadcast here (S i) l' (if (link : bool) then i :: current else current) in
      (c :: l', current)
  end.

(** From here on the ranges on the chain are a list. A result is a number in
    it. *)
Fixpoint find_range (p : dhcp_context -> comp bool) (i : nat) (l : list dhcp_context) : comp (option nat) :=
  match l with
  | [] => Ok None
  | c :: l' => b ← p c; if (b : bool) then Ok (Some i) else find_range p (S i) l'
  end.

Definition in_range (a : in_addr) (c : dhcp_context) : bool := (addr_num (c_start c) <=? addr_num a) && (addr_num a <=? addr_num (c_end c)).

Definition address_available (h : netids) (context : list dhcp_context) (taddr : in_addr) (tags : option ptr) : comp (option nat) :=
  if match context with [] => false | c :: _ => bool_decide (taddr = c_router c) end then Ok None
  else find_range (fun c => if negb (fixed_range c) && in_range taddr c then match_netid h (c_filter c) tags true else Ok false) 0 context.

Definition narrow_context (h : netids) (context : list dhcp_context) (taddr : in_addr) (tags : option ptr) : comp (option nat) :=
  let on_net c := is_same_net taddr (c_start c) (c_netmask c) in
  r ← address_available h context taddr tags;
  r ← match r with
      | Some i => mret (Some i)
      | None => find_range (fun c => b ← match_netid h (c_filter c) tags true; mret (b && on_net c && has (c_flags c) CONTEXT_STATIC)) 0 context
      end;
  match r with
  | Some i => mret (Some i)
  | None => find_range (fun c => b ← match_netid h (c_filter c) tags true; mret (b && on_net c && negb (has (c_flags c) CONTEXT_PROXY))) 0 context
  end.

(** * Hosts *)

Fixpoint find_config_from (p : dhcp_config -> comp bool) (i : nat) (l : list dhcp_config) : comp (option nat) :=
  match l with
  | [] => Ok None
  | g :: l' => b ← p g; if (b : bool) then Ok (Some i) else find_config_from p (S i) l'
  end.

Fixpoint config_find_by_address (configs : list dhcp_config) (addr : in_addr) (i : nat) : option nat :=
  match configs with
  | [] => None
  | g :: l => if has (g_flags g) CONFIG_ADDR && bool_decide (g_addr g = addr) then Some i else config_find_by_address l addr (S i)
  end.

(** [context] is [None] for the null pointer. *)
Definition is_addr_in_context (context : option (list dhcp_context)) (g : dhcp_config) : bool :=
  match context with
  | None => true
  | Some l => negb (has (g_flags g) CONFIG_ADDR) || existsb (fun c => is_same_net (g_addr g) (c_start c) (c_netmask c)) l
  end.

Fixpoint has_mac (l : list hwaddr_config) (hwaddr : list Z) (len type : Z) : comp bool :=
  match l with
  | [] => Ok false
  | c :: l' =>
      b ← (if (hc_mask c =? 0) && (hc_len c =? len) && ((hc_type c =? type) || (hc_type c =? 0)) then memcmp0 (hc_hwaddr c) hwaddr len else Ok false);
      if (b : bool) then Ok true else has_mac l' hwaddr len type
  end.
Definition config_has_mac (g : dhcp_config) (hwaddr : list Z) (len type : Z) : comp bool := has_mac (g_hwaddr g) hwaddr len type.

(** The identifier itself, or without the zero that some clients put in front
    of it. *)
Definition config_has_clid (context : option (list dhcp_context)) (clid : list Z) (clid_len : Z) (g : dhcp_config) : comp bool :=
  if negb (has (g_flags g) CONFIG_CLID) then Ok false
  else
    e ← (if g_clid_len g =? clid_len then memcmp0 (g_clid g) clid clid_len else Ok false);
    if (e : bool) && is_addr_in_context context g then Ok true
    else
      c ← rd clid 0;
      e ← (if (c =? 0) && (g_clid_len g =? clid_len - 1) then memcmp0 (g_clid g) (tail clid) (clid_len - 1) else Ok false);
      mret (e && is_addr_in_context context g).

(** The number of bytes that a host's patterns match, if it is more than
    [count]. *)
Fixpoint best_mask (l : list hwaddr_config) (hwaddr : list Z) (hw_len hw_type : Z) (count : Z) : comp (bool * Z) :=
  match l with
  | [] => Ok (false, count)
  | c :: l' =>
      n ← (if negb (hc_mask c =? 0) && (hc_len c =? hw_len) && ((hc_type c =? hw_type) || (hc_type c =? 0)) then
             memcmp_masked (hc_hwaddr c) hwaddr (Z.to_nat hw_len) (hc_mask c) else Ok 0);
      '(b, count') ← best_mask l' hwaddr hw_len hw_type (Z.max count n);
      mret (b || (count <? n), count')
  end.

Fixpoint best_config (context : option (list dhcp_context)) (hwaddr : list Z) (hw_len hw_type : Z) (i : nat) (configs : list dhcp_config)
    (count : Z) (candidate : option nat) : comp (option nat) :=
  match configs with
  | [] => Ok candidate
  | g :: l =>
      '(b, count) ← (if is_addr_in_context context g then best_mask (g_hwaddr g) hwaddr hw_len hw_type count else Ok (false, count));
      best_config context hwaddr hw_len hw_type (S i) l count (if (b : bool) then Some i else candidate)
  end.

Definition find_config (configs : list dhcp_config) (context : option (list dhcp_context)) (clid : option (list Z)) (clid_len : Z)
    (hwaddr : list Z) (hw_len hw_type : Z) (hostname : option (list Z)) : comp (option nat) :=
  r ← match clid with Some c => find_config_from (config_has_clid context c clid_len) 0 configs | None => mret None end;
  match r with
  | Some i => mret (Some i)
  | None =>
      r ← find_config_from (fun g => b ← config_has_mac g hwaddr hw_len hw_type; mret (b && is_addr_in_context context g)) 0 configs;
      match r with
      | Some i => mret (Some i)
      | None =>
          r ← match hostname, context with
              | Some hn, Some _ => find_config_from (fun g => mret (has (g_flags g) CONFIG_NAME && hostname_isequal (g_hostname g) hn && is_addr_in_context context g)) 0 configs
              | _, _ => mret None
              end;
          match r with
          | Some i => mret (Some i)
          | None => best_config context hwaddr hw_len hw_type 0 configs 0 None
          end
      end
  end.

(** * A free address *)

(** What has changed so far: the ranges, the remembered addresses, and the
    answers that [icmp_ping] has still to give. *)
Record search := Search { h_context : list dhcp_context; h_results : list ping_result; h_pings : list bool }.

(** [max]: (int) (0.6 * (30.0 / 3.0)) *)
Definition max_pings : Z := 6.

Inductive remembered := Recent | Conflict | Unknown (count : Z) (victim : option nat).

Fixpoint scan_results (consec : bool) (now j : Z) (addr : in_addr) (i : nat) (l : list ping_result) (count : Z) (victim : option nat) : remembered :=
  match l with
  | [] => Unknown count victim
  | r :: l' =>
      if PING_CACHE_TIME <? now - p_time r then scan_results consec now j addr (S i) l' count (Some i)
      else if bool_decide (p_addr r = addr) then if consec && negb (p_hash r =? j) then Conflict else Recent
      else scan_results consec now j addr (S i) l' (count + 1) victim
  end.

Definition IN_CLASSC (n : Z) : bool := Z.land n 0xe0000000 =? 0xc0000000.

(** Neither in use nor reserved. *)
Definition unused (context : list dhcp_context) (configs : list dhcp_config) (s : ldb) (addr : in_addr) : bool :=
  negb (existsb (fun d => bool_decide (addr = c_router d)) context) &&
  bool_decide (lease_find_by_addr addr s = None) && bool_decide (config_find_by_address configs addr 0 = None) &&
  (negb (IN_CLASSC (addr_num addr)) || (negb (Z.land (addr_num addr) 0xff =? 0xff) && negb (Z.land (addr_num addr) 0xff =? 0))).

(** An unused address is tried; [k] is the number of its range. *)
Definition try_addr (consec no_ping mem : bool) (now j : Z) (k : nat) (addr : in_addr) (st : search) : bool * search :=
  match scan_results consec now j addr 0 (h_results st) 0 None with
  | Recent => (true, st)
  | Conflict => (false, st)
  | Unknown count victim =>
      let asks := (count <? max_pings) && negb no_ping in
      let '(answer, st) := if asks then (default false (head (h_pings st)), Search (h_context st) (h_results st) (tail (h_pings st))) else (false, st) in
      if answer : bool then
        (false, if consec then st else Search (alter (fun c => with_epoch (u32 (c_epoch c + 1)) c) k (h_context st)) (h_results st) (h_pings st))
      else
        let r := PingResult addr now j in
        (true, Search (h_context st) (match victim with Some v => <[v := r]> (h_results st) | None => if mem then r :: h_results st else h_results st end) (h_pings st))
  end.

(** The addresses from [addr] on in a circle, until [start] again. *)
Fixpoint try_range (fuel : nat) (consec no_ping mem : bool) (now j : Z) (configs : list dhcp_config) (s : ldb) (k : nat) (first last start addr : in_addr) (st : search)
  : comp (option in_addr * search) :=
  match fuel with
  | O => Fault NoFuel
  | S fuel' =>
      let '(found, st) := if unused (h_context st) configs s addr then try_addr consec no_ping mem now j k addr st else (false, st) in
      if found : bool then Ok (Some addr, st)
      else
        let next := num_addr (u32 (addr_num addr + 1)) in
        let next := if bool_decide (next = num_addr (u32 (addr_num last + 1))) then first else next in
        if bool_decide (next = start) then Ok (None, st)
        else try_range fuel' consec no_ping mem now j configs s k first last start next st
  end.

(** The SDBM hash of the hardware address. *)
Definition sdbm (hwaddr : list Z) : Z := fold_left (fun j b => u32 (j + b + Z.shiftl j 6 + Z.shiftl j 16 - j)) hwaddr 0.

(** Where the search in a range starts. *)
Definition seed (consec : bool) (j : Z) (s : ldb) (c : dhcp_context) : comp in_addr :=
  if consec then Ok (lease_find_max_addr (c_start c) (c_end c) (fixed_range c) s)
  else
    let size := u32 (1 + addr_num (c_end c) - addr_num (c_start c)) in
    if size =? 0 then Fault AssertFail (* a division by zero *)
    else Ok (num_addr (u32 (addr_num (c_start c) + u32 (j + c_epoch c) `mod` size))).

Section Allocate.
Context (h : netids) (consec no_ping mem : bool) (now : Z) (configs : list dhcp_config) (s : ldb) (tags : option ptr) (j : Z).

(** The ranges whose numbers are [ks]. *)
Fixpoint try_ranges (pass : bool) (ks : list nat) (st : search) : comp (option in_addr * search) :=
  match ks with
  | [] => Ok (None, st)
  | k :: ks' =>
      c ← of_option NullDeref (h_context st !! k);
      if fixed_range c then try_ranges pass ks' st
      else
        b ← match_netid h (c_filter c) tags pass;
        if negb b then try_ranges pass ks' st
        else
          start ← seed consec j s c;
          '(r, st) ← try_range (Z.to_nat (addr_num (c_end c) - addr_num (c_start c)) + 1) consec no_ping mem now j configs s k (c_start c) (c_end c) start start st;
          match r with Some a => mret (Some a, st) | None => try_ranges pass ks' st end
  end.
End Allocate.

Definition address_allocate (h : netids) (consec no_ping mem : bool) (hwaddr : list Z) (hw_len : Z) (tags : option ptr) (now : Z)
    (configs : list dhcp_config) (s : ldb) (st : search) : comp (option in_addr * search) :=
  hw ← first_bytes hw_len hwaddr;
  let ks := seq 0 (length (h_context st)) in
  '(r, st) ← try_ranges h consec no_ping mem now configs s tags (sdbm hw) false ks st;
  match r with
  | Some a => mret (Some a, st)
  | None => try_ranges h consec no_ping mem now configs s tags (sdbm hw) true ks st
  end.

(** * Addresses as numbers *)

Definition octets (a : in_addr) : Prop := let '(a, b, c, d) := a in is_byte a /\ is_byte b /\ is_byte c /\ is_byte d.

#[export] Instance octets_dec a : Decision (octets a).
Proof. destruct a as [[[a b] c] d]. unfold octets. apply _. Defined.

Lemma addr_num_range a : octets a -> 0 <= addr_num a < 2 ^ 32.
Proof. destruct a as [[[a b] c] d]. unfold octets, is_byte, addr_num, be32. lia. Qed.

Lemma octets_num n : octets (num_addr n).
Proof. unfold octets, num_addr, is_byte. repeat split; apply Z.mod_pos_bound; lia. Qed.

Lemma addr_num_num n : 0 <= n < 2 ^ 32 -> addr_num (num_addr n) = n.
Proof.
  unfold addr_num, num_addr, be32. intros H. change (2 ^ 24) with 16777216. change (2 ^ 16) with 65536. change (2 ^ 8) with 256.
  Z.to_euclidean_division_equations. lia.
Qed.

Lemma num_addr_num a : octets a -> num_addr (addr_num a) = a.
Proof.
  destruct a as [[[a b] c] d]. unfold octets, is_byte, addr_num, num_addr, be32. change (2 ^ 24) with 16777216. change (2 ^ 16) with 65536. change (2 ^ 8) with 256.
  intros (? & ? & ? & ?). repeat f_equal; Z.to_euclidean_division_equations; lia.
Qed.

Lemma num_addr_inj n m : 0 <= n < 2 ^ 32 -> 0 <= m < 2 ^ 32 -> num_addr n = num_addr m -> n = m.
Proof. intros Hn Hm H. rewrite <-(addr_num_num n Hn), <-(addr_num_num m Hm). by rewrite H. Qed.

Lemma addr_num_inj a b : octets a -> octets b -> addr_num a = addr_num b -> a = b.
Proof. intros Ha Hb H. rewrite <-(num_addr_num a Ha), <-(num_addr_num b Hb). by rewrite H. Qed.

(** * The largest leased address *)

Lemma max_addr_ok first last l : forall addr, octets addr -> (forall i x, (i, x) ∈ l -> octets (l_addr x)) -> addr_num first <= addr_num addr <= addr_num last ->
  octets (max_addr first last addr l) /\ addr_num first <= addr_num (max_addr first last addr l) <= addr_num last.
Proof.
  induction l as [|[i x] l IH]; intros addr Ha Hl Hr; cbn [max_addr]; [done|]. apply IH.
  - case_match; [apply (Hl i); by left|done].
  - intros j y Hj. apply (Hl j). by right.
  - case_match eqn:E; [|done]. zbool. lia.
Qed.

(** * The search in one range *)

Definition same_context (c c' : dhcp_context) : Prop := with_epoch 0 c = with_epoch 0 c'.

Lemma same_context_fields c c' : same_context c c' ->
  c_netmask c' = c_netmask c /\ c_router c' = c_router c /\ c_start c' = c_start c /\ c_end c' = c_end c /\ c_flags c' = c_flags c /\ c_filter c' = c_filter c.
Proof. destruct c, c'. unfold same_context. cbn. by intros [= -> -> -> -> -> -> -> ->]. Qed.

Definition same_contexts (l l' : list dhcp_context) : Prop := with_epoch 0 <$> l = with_epoch 0 <$> l'.

Lemma same_contexts_lookup l l' k c : same_contexts l l' -> l !! k = Some c -> exists c', l' !! k = Some c' /\ same_context c c'.
Proof.
  intros H Hk. apply (f_equal (fun l => l !! k)) in H. rewrite !list_lookup_fmap, Hk in H. destruct (l' !! k) as [c'|]; [|done].
  exists c'. split; [done|]. cbn in H. unfold same_context. congruence.
Qed.

Lemma same_contexts_in l l' c : same_contexts l l' -> c ∈ l' -> exists c', c' ∈ l /\ same_context c' c.
Proof.
  intros H [k Hk]%list_elem_of_lookup. destruct (same_contexts_lookup l' l k c) as (c' & Hc' & Hs); [by symmetry|done|].
  exists c'. split; [by eapply list_elem_of_lookup_2|]. by symmetry.
Qed.

Lemma same_alter l k v : same_contexts l (alter (fun c => with_epoch (v c) c) k l).
Proof.
  unfold same_contexts. revert k. induction l as [|c l IH]; intros [|k]; cbn; try done; f_equal. apply IH.
Qed.

Lemma unused_same l l' configs s a : same_contexts l l' -> unused l' configs s a = unused l configs s a.
Proof.
  intros H. unfold unused. do 4 f_equal. revert l' H. induction l as [|c l IH]; intros [|c' l'] H; try done.
  unfold same_contexts in *. cbn [fmap list_fmap] in H. pose proof (f_equal tail H) as Hl. cbn [tail] in Hl. cbn [existsb]. rewrite (IH l' Hl). apply (f_equal head) in H. cbn in H. destruct c, c'. cbn in *. by injection H as -> -> -> -> -> -> -> ->.
Qed.

(** Nobody answers. *)
Definition silent (no_ping : bool) (st : search) : Prop := no_ping = true \/ Forall (fun b => b = false) (h_pings st).

Lemma try_addr_ok consec no_ping mem now j k addr st :
  let '(found, st') := try_addr consec no_ping mem now j k addr st in
  same_contexts (h_context st) (h_context st') /\ (silent no_ping st -> silent no_ping st') /\ (found = false -> silent no_ping st -> consec = true).
Proof.
  unfold try_addr. destruct (scan_results consec now j addr 0 (h_results st) 0 None) as [| |count victim] eqn:E.
  - split_and!; done.
  - split_and!; try done. intros _ _. revert E. generalize (h_results st) 0%nat 0 (@None nat). intros l. induction l as [|r l IH]; intros i n v; cbn [scan_results]; [done|].
    case_match; [apply IH|]. case_match; [|apply IH]. destruct consec; [done|]. cbn. done.
  - destruct ((count <? max_pings) && negb no_ping) eqn:Ea.
    + destruct (default false (head (h_pings st))) eqn:Eh.
      * split_and!; [destruct consec; [done|apply same_alter]|..].
        -- intros [->|Hs]; [by left|]. destruct (h_pings st) as [|b r]; [done|]. cbn in Eh. subst. by apply Forall_cons in Hs as [? _].
        -- intros _ [->|Hs]; [by rewrite andb_false_r in Ea|]. destruct (h_pings st) as [|b r]; [done|]. cbn in Eh. subst. by apply Forall_cons in Hs as [? _].
      * split_and!; [done| |done]. intros [->|Hs]; [by left|]. right. cbn. destruct (h_pings st) as [|b r]; [done|]. by apply Forall_cons in Hs as [_ ?].
    + split_and!; [done| |done]. intros [->|Hs]; [by left|by right].
Qed.

Section Range.
Context (consec no_ping mem : bool) (now j : Z) (configs : list dhcp_config) (s : ldb) (k : nat) (first last : in_addr).
Context (Hf : octets first) (Hl : octets last) (Hfl : addr_num first <= addr_num last).

Let F := addr_num first.
Let size := addr_num last - F + 1.
Lemma size_eq : size = addr_num last - F + 1.
Proof. done. Qed.

Definition at_pos (n : Z) : in_addr := num_addr (F + n `mod` size).

Lemma pos_range n : 0 <= n `mod` size < size /\ 0 <= F /\ F + n `mod` size <= addr_num last < 2 ^ 32.
Proof. pose proof (addr_num_range _ Hf). pose proof (addr_num_range _ Hl). pose proof (Z.mod_pos_bound n size ltac:(unfold size, F; lia)). unfold size, F in *. lia. Qed.

Lemma at_pos_num n : addr_num (at_pos n) = F + n `mod` size.
Proof. apply addr_num_num. pose proof (pos_range n). lia. Qed.

Lemma next_pos n : (if bool_decide (num_addr (u32 (addr_num (at_pos n) + 1)) = num_addr (u32 (addr_num last + 1))) then first
                    else num_addr (u32 (addr_num (at_pos n) + 1))) = at_pos (n + 1).
Proof.
  rewrite at_pos_num. pose proof (pos_range n) as Hn. pose proof (addr_num_range _ Hl). pose proof size_eq as Hsz.
  assert ((n + 1) `mod` size = if decide (n `mod` size = size - 1) then 0 else n `mod` size + 1) as Hm.
  { rewrite Z.add_mod by lia. case_decide as E.
    - destruct (decide (size = 1)) as [->|]; [by rewrite !Z.mod_1_r|]. rewrite E, (Z.mod_small 1) by lia. replace (size - 1 + 1) with size by lia. apply Z_mod_same_full.
    - destruct (decide (size = 1)) as [E1|]; [lia|]. rewrite (Z.mod_small 1) by lia. apply Z.mod_small. lia. }
  assert (u32 (F + n `mod` size + 1) = u32 (addr_num last + 1) <-> n `mod` size = size - 1) as Hu.
  { unfold u32. split; [|intros ->; f_equal; lia]. intros E. destruct (decide (addr_num last + 1 = 2 ^ 32)) as [E2|E2].
    - rewrite E2, Z_mod_same_full in E. destruct (decide (F + n `mod` size + 1 = 2 ^ 32)); [lia|]. rewrite Z.mod_small in E by lia. lia.
    - rewrite (Z.mod_small (addr_num last + 1)), Z.mod_small in E by lia. lia. }
  unfold at_pos. rewrite Hm. case_bool_decide as E.
  - apply num_addr_inj in E; [|apply Z.mod_pos_bound; lia..]. apply Hu in E. rewrite decide_True by done. rewrite Z.add_0_r. unfold F. by rewrite num_addr_num.
  - rewrite decide_False; [|intros E2; apply E; f_equal; by apply Hu]. f_equal. unfold u32. rewrite Z.mod_small; [lia|].
    assert (n `mod` size <> size - 1) by (intros E2; apply E; f_equal; by apply Hu). lia.
Qed.

Lemma at_pos_eq n m : at_pos n = at_pos m <-> n `mod` size = m `mod` size.
Proof.
  split; [|unfold at_pos; by intros ->]. intros E. apply (f_equal addr_num) in E. rewrite !at_pos_num in E. lia.
Qed.

(** The [t]-th address that is looked at. *)
Lemma try_range_ok n0 fuel : forall t st, 0 <= t < size -> fuel = Z.to_nat (size - t) ->
  exists r st', try_range fuel consec no_ping mem now j configs s k first last (at_pos n0) (at_pos (n0 + t)) st = Ok (r, st') /\
    same_contexts (h_context st) (h_context st') /\ (silent no_ping st -> silent no_ping st') /\
    match r with
    | Some a => octets a /\ F <= addr_num a <= addr_num last /\ unused (h_context st) configs s a = true
    | None => silent no_ping st -> consec = false -> forall t', t <= t' < size -> unused (h_context st) configs s (at_pos (n0 + t')) = false
    end.
Proof.
  induction fuel as [|fuel IH]; intros t st Ht Hfu; [lia|]. cbn [try_range].
  pose proof (pos_range (n0 + t)) as Hp. set (a := at_pos (n0 + t)).
  assert (exists found st1, (if unused (h_context st) configs s a then try_addr consec no_ping mem now j k a st else (false, st)) = (found, st1) /\
    same_contexts (h_context st) (h_context st1) /\ (silent no_ping st -> silent no_ping st1) /\
    (found = true -> unused (h_context st) configs s a = true) /\ (found = false -> silent no_ping st -> consec = false -> unused (h_context st) configs s a = false)) as
    (found & st1 & -> & S1 & Q1 & U1 & U2).
  { destruct (unused (h_context st) configs s a) eqn:Eu.
    - pose proof (try_addr_ok consec no_ping mem now j k a st) as H. destruct (try_addr consec no_ping mem now j k a st) as [found st1].
      destruct H as (H1 & H2 & H3). exists found, st1. split_and!; try done. intros Hfalse Hs Hc. specialize (H3 Hfalse Hs). congruence.
    - exists false, st. by split_and!. }
  destruct found.
  - exists (Some a), st1. split_and!; try done; [apply octets_num|unfold a; rewrite at_pos_num; lia..|auto].
  - unfold a. rewrite next_pos. replace (n0 + t + 1) with (n0 + (t + 1)) by lia.
    assert (at_pos (n0 + (t + 1)) = at_pos n0 <-> t + 1 = size) as Hend.
    { rewrite at_pos_eq. split.
      - intros E. assert ((t + 1) `mod` size = 0) as E2.
        { replace (t + 1) with (n0 + (t + 1) - n0) by lia. rewrite Zminus_mod, E, Z.sub_diag. apply Z.mod_0_l. lia. }
        destruct (decide (t + 1 = size)); [done|]. rewrite Z.mod_small in E2 by lia. lia.
      - intros ->. rewrite <-(Z.mul_1_l size) at 1. by apply Z_mod_plus_full. }
    case_bool_decide as E.
    + apply Hend in E. exists None, st1. split_and!; try done. intros Hs Hc t' Ht'. replace t' with t by lia. by apply U2.
    + assert (t + 1 <> size) by (intros ?; apply E; by apply Hend).
      destruct (IH (t + 1) st1) as (r & st2 & -> & S2 & Q2 & R); [lia|lia|]. exists r, st2. split_and!; try done.
      * unfold same_contexts in *. congruence.
      * auto.
      * destruct r as [b|]; [by rewrite (unused_same (h_context st)) in R|]. intros Hs Hc t' Ht'. destruct (decide (t' = t)) as [->|]; [by apply U2|].
        rewrite <-(unused_same _ (h_context st1)) by done. apply R; auto. lia.
Qed.

(** Every address of the range is looked at. *)
Lemma try_range_all start st : octets start -> F <= addr_num start <= addr_num last ->
  exists r st', try_range (Z.to_nat (addr_num last - F) + 1) consec no_ping mem now j configs s k first last start start st = Ok (r, st') /\
    same_contexts (h_context st) (h_context st') /\ (silent no_ping st -> silent no_ping st') /\
    match r with
    | Some a => octets a /\ F <= addr_num a <= addr_num last /\ unused (h_context st) configs s a = true
    | None => silent no_ping st -> consec = false -> forall a, octets a -> F <= addr_num a <= addr_num last -> unused (h_context st) configs s a = false
    end.
Proof.
  intros Hs Hr. assert (0 < size) by (unfold size; lia).
  assert (forall a, octets a -> F <= addr_num a <= addr_num last -> at_pos (addr_num a - F) = a) as Hat.
  { intros a Ha Har. unfold at_pos. rewrite Z.mod_small by (unfold size; lia). replace (F + (addr_num a - F)) with (addr_num a) by lia. by apply num_addr_num. }
  destruct (try_range_ok (addr_num start - F) (Z.to_nat (addr_num last - F) + 1) 0 st) as (r & st' & Ht & S1 & Q1 & R); [lia|unfold size; lia|].
  rewrite Z.add_0_r, Hat in Ht by done. exists r, st'. split_and!; try done. destruct r as [b|]; [done|]. intros Hq Hc a Ha Har.
  set (n0 := addr_num start - F). set (n := addr_num a - F). specialize (R Hq Hc ((n - n0) `mod` size)). pose proof (Z.mod_pos_bound (n - n0) size ltac:(lia)).
  specialize (R ltac:(lia)). rewrite <-(Hat a Ha Har). fold n. erewrite (proj2 (at_pos_eq n (n0 + (n - n0) `mod` size))); [exact R|].
  rewrite Zplus_mod_idemp_r. f_equal. lia.
Qed.
End Range.

(** * All ranges *)

(** What the configuration makes sure of: a range is not empty, and is not the
    whole address space. *)
Definition range_ok (h : netids) (filters : option ptr -> list ptr) (c : dhcp_context) : Prop :=
  octets (c_start c) /\ octets (c_end c) /\ addr_num (c_start c) <= addr_num (c_end c) /\ addr_num (c_end c) - addr_num (c_start c) < 2 ^ 32 - 1 /\
  chain h (c_filter c) (filters (c_filter c)).

(** A range that addresses may be taken from, with the tags [names]. *)
Definition open_range (h : netids) (filters : option ptr -> list ptr) (names : list (list Z)) (c : dhcp_context) : bool :=
  negb (fixed_range c) && tags_match (tag_names h (filters (c_filter c))) names.

Lemma range_ok_same h filters c c' : same_context c c' -> range_ok h filters c -> range_ok h filters c'.
Proof. intros H. destruct (same_context_fields _ _ H) as (_ & _ & E1 & E2 & _ & E4). unfold range_ok. by rewrite E1, E2, E4. Qed.

Lemma seed_ok consec j s c h filters : range_ok h filters c -> (forall i x, (i, x) ∈ leases s -> octets (l_addr x)) ->
  exists start, seed consec j s c = Ok start /\ octets start /\ addr_num (c_start c) <= addr_num start <= addr_num (c_end c).
Proof.
  intros (H1 & H2 & H3 & H4 & _) Hs. unfold seed. pose proof (addr_num_range _ H1). pose proof (addr_num_range _ H2). destruct consec.
  - eexists. split; [done|]. unfold lease_find_max_addr. destruct (fixed_range c); [split; [done|lia]|]. apply max_addr_ok; [done|done|lia].
  - replace (u32 (1 + addr_num (c_end c) - addr_num (c_start c))) with (1 + addr_num (c_end c) - addr_num (c_start c)) by (unfold u32; rewrite Z.mod_small; lia).
    destruct (_ =? 0) eqn:E; zbool; [lia|]. eexists. split; [done|]. split; [apply octets_num|].
    pose proof (Z.mod_pos_bound (u32 (j + c_epoch c)) (1 + addr_num (c_end c) - addr_num (c_start c)) ltac:(lia)).
    unfold u32 at 1 3. rewrite (Z.mod_small (addr_num (c_start c) + _)) by lia. rewrite addr_num_num by lia. lia.
Qed.

Section AllRanges.
Context (h : netids) (consec no_ping mem : bool) (now : Z) (configs : list dhcp_config) (s : ldb) (tags : option ptr) (l : list ptr) (j : Z).
Context (filters : option ptr -> list ptr) (context : list dhcp_context).
Context (Htags : chain h tags l) (Hctx : forall c, c ∈ context -> range_ok h filters c) (Hs : forall i x, (i, x) ∈ leases s -> octets (l_addr x)).

Lemma try_ranges_ok pass ks : forall st, same_contexts context (h_context st) -> (forall k, k ∈ ks -> (k < length context)%nat) ->
  exists r st', try_ranges h consec no_ping mem now configs s tags j pass ks st = Ok (r, st') /\
    same_contexts context (h_context st') /\ (silent no_ping st -> silent no_ping st') /\
    match r with
    | Some a => octets a /\ unused context configs s a = true /\ exists c, c ∈ context /\ open_range h filters (tag_names h l) c = true /\ in_range a c = true
    | None => silent no_ping st -> consec = false -> forall k c, k ∈ ks -> context !! k = Some c -> open_range h filters (tag_names h l) c = true ->
        pass = true -> forall a, octets a -> in_range a c = true -> unused context configs s a = false
    end.
Proof.
  induction ks as [|k ks IH]; intros st HS Hk; cbn [try_ranges].
  { exists None, st. split_and!; try done. by intros _ _ k c ?%elem_of_nil. }
  destruct (lookup_lt_is_Some_2 context k) as [c0 Hc0]; [apply Hk; by left|]. destruct (same_contexts_lookup _ _ _ _ HS Hc0) as (c & Hc & Hsc).
  rewrite Hc. cbn [of_option mbind comp_bind]. pose proof (Hctx c0 (list_elem_of_lookup_2 _ _ _ Hc0)) as Hr0.
  pose proof (range_ok_same _ _ _ _ Hsc Hr0) as Hr. destruct (same_context_fields _ _ Hsc) as (_ & _ & E1 & E2 & E3 & E4).
  assert (fixed_range c = fixed_range c0) as Efix by (unfold fixed_range; by rewrite E3).
  assert (forall st1, same_contexts context (h_context st1) -> (silent no_ping st -> silent no_ping st1) ->
    (silent no_ping st -> consec = false -> open_range h filters (tag_names h l) c0 = true -> pass = true -> forall a, octets a -> in_range a c0 = true -> unused context configs s a = false) ->
    exists r st', try_ranges h consec no_ping mem now configs s tags j pass ks st1 = Ok (r, st') /\
    same_contexts context (h_context st') /\ (silent no_ping st -> silent no_ping st') /\
    match r with
    | Some a => octets a /\ unused context configs s a = true /\ exists c, c ∈ context /\ open_range h filters (tag_names h l) c = true /\ in_range a c = true
    | None => silent no_ping st -> consec = false -> forall k' c, k' ∈ k :: ks -> context !! k' = Some c -> open_range h filters (tag_names h l) c = true ->
        pass = true -> forall a, octets a -> in_range a c = true -> unused context configs s a = false
    end) as Hnext.
  { intros st1 HS1 Hq Hhere. destruct (IH st1 HS1) as (r & st' & -> & S' & Q' & R'); [intros k' Hk'; apply Hk; by right|]. exists r, st'. split_and!; try done; [auto|].
    destruct r as [a|]; [done|]. intros Hsil Hcons k' c' [->|Hk']%elem_of_cons Hl' Ho; [|by apply (R' (Hq Hsil) Hcons k')]. assert (c' = c0) as -> by congruence. by apply Hhere. }
  rewrite Efix. destruct (fixed_range c0) eqn:Ef.
  { apply Hnext; [done|done|]. intros _ _ Ho. unfold open_range in Ho. by rewrite Ef in Ho. }
  destruct Hr as (R1 & R2 & R3 & R4 & R5). rewrite (match_netid_ok h _ tags _ l pass R5 Htags). cbn [mbind comp_bind]. rewrite E4.
  destruct ((pass || negb (bool_decide (filters (c_filter c0) = []))) && tags_match (tag_names h (filters (c_filter c0))) (tag_names h l)) eqn:Em; cbn [negb].
  - apply andb_true_iff in Em as [_ Em].
    destruct (seed_ok consec j s c h filters) as (start & -> & Hst1 & Hst2); [by split_and!|done|]. cbn [mbind comp_bind].
    destruct (try_range_all consec no_ping mem now j configs s k (c_start c) (c_end c) R1 R2 R3 start st Hst1 Hst2) as (r & st1 & -> & S1 & Q1 & Rr).
    cbn [mbind comp_bind]. assert (same_contexts context (h_context st1)) as HS1 by (unfold same_contexts in *; congruence).
    destruct r as [a|].
    + exists (Some a), st1. destruct Rr as (Ra1 & Ra2 & Ra3). split_and!; try done; [by rewrite <-(unused_same _ _ _ _ _ HS)|]. exists c0. split_and!; [by eapply list_elem_of_lookup_2|..].
      * unfold open_range. by rewrite Ef, Em.
      * unfold in_range. rewrite <-E1, <-E2. apply andb_true_iff. by rewrite !Z.leb_le.
    + apply Hnext; [done|done|]. intros Hsil Hcons _ _ a Ha Hin. rewrite <-(unused_same _ _ _ _ _ HS). apply Rr; [done|done|done|].
      unfold in_range in Hin. rewrite <-E1, <-E2 in Hin. apply andb_true_iff in Hin. by rewrite !Z.leb_le in Hin.
  - apply Hnext; [done|done|]. intros _ _ Ho -> a _ _. unfold open_range in Ho. rewrite Ef in Ho. cbn in Em, Ho. congruence.
Qed.
End AllRanges.

(** The search for an address ends, and gives one that may be given. The
    address is in one of the ranges that are there for the tags of the request,
    and not a static one; it is not that of the server or of a relay, is not
    leased, is not reserved for a host in the configuration, and does not end
    in 0 or 255 where some clients cannot use that. Of the ranges nothing changes
    but where the next search starts. If there is none, and no
    machine has answered to a ping (or none was asked) and addresses are not
    given consecutively, then there is no such address in any of the ranges. *)
Lemma address_allocate_ok h consec no_ping mem hwaddr hw_len tags l now configs s st filters :
  chain h tags l -> (forall c, c ∈ h_context st -> range_ok h filters c) -> (forall i x, (i, x) ∈ leases s -> octets (l_addr x)) -> 0 <= hw_len <= zlen hwaddr ->
  exists r st', address_allocate h consec no_ping mem hwaddr hw_len tags now configs s st = Ok (r, st') /\ same_contexts (h_context st) (h_context st') /\
    match r with
    | Some a => unused (h_context st) configs s a = true /\ exists c, c ∈ h_context st /\ open_range h filters (tag_names h l) c = true /\ in_range a c = true
    | None => silent no_ping st -> consec = false -> forall c, c ∈ h_context st -> open_range h filters (tag_names h l) c = true ->
        forall a, octets a -> in_range a c = true -> unused (h_context st) configs s a = false
    end.
Proof.
  intros Ht Hc Hs Hh. unfold address_allocate. rewrite first_bytes_ok by done. cbn [mbind comp_bind].
  assert (forall k, k ∈ seq 0 (length (h_context st)) -> (k < length (h_context st))%nat) as Hk by (intros k ?%elem_of_seq; lia).
  destruct (try_ranges_ok h consec no_ping mem now configs s tags l (sdbm (take (Z.to_nat hw_len) hwaddr)) filters (h_context st) Ht Hc Hs false _ st eq_refl Hk)
    as (r & st1 & -> & S1 & Q1 & R1). cbn [mbind comp_bind].
  destruct r as [a|].
  - exists (Some a), st1. split; [done|]. split; [done|]. by destruct R1 as (_ & ? & ?).
  - destruct (try_ranges_ok h consec no_ping mem now configs s tags l (sdbm (take (Z.to_nat hw_len) hwaddr)) filters (h_context st) Ht Hc Hs true _ st1 S1 Hk)
      as (r & st2 & -> & S2 & Q2 & R2). exists r, st2. split; [done|]. split; [done|]. destruct r as [a|]; [by destruct R2 as (_ & ? & ?)|].
    intros Hsil Hcons c [k Hkc]%list_elem_of_lookup Ho. apply (R2 (Q1 Hsil) Hcons k c); [|done|done|done].
    apply elem_of_seq. pose proof (lookup_lt_Some _ _ _ Hkc). lia.
Qed.
