(* ===== verification/DmRequest.v ===== *)
(** dnsmasq's rfc2131.c: which address a client is offered, what a request
    for an address does to the leases, and what happens to addresses that are
    given back. The fields of a message, and what has been found out about its
    client (the host of the configuration, the tags, the ranges that are on its
    network) are arguments. *)
From S2P Require Import Prelude CString Dns Common DmUtil DmName DmPacket DmLru DmCache DmCacheInv DmLease DmLeaseInv DmLeaseRun DmTags DmDhcp.
Set Warnings "-clear-no-such-hyp".

Definition DECLINE_BACKOFF : Z := 600.

(** What the server knows: the tags, the hosts, and whether it is the only
    server of the network ([OPT_AUTHORITATIVE]). *)
Record server_conf := ServerConf { v_tags : netids; v_hosts : list dhcp_config; v_authoritative : bool; v_consec : bool; v_no_ping : bool }.

(** [have_config]; the host of a client is a number. *)
Definition have_config (v : server_conf) (config : option nat) (mask : Z) : bool :=
  match config ≫= fun i => v_hosts v !! i with Some g => has (g_flags g) mask | None => false end.
Definition host_of (v : server_conf) (config : option nat) : comp dhcp_config := of_option NullDeref (config ≫= fun i => v_hosts v !! i).

(** A message and its client. [m_set_clid] is the client identifier that is
    recorded: that of the message, that of the lease when the message has none,
    or none when the host of the configuration says so. The last two lines are
    what the lease gets. [m_intr] is whether the server identifier is the
    address of another interface that DHCP runs on. *)
Record message := Message {
  m_chaddr : list Z; m_hlen : Z; m_htype : Z; m_clid : option (list Z); m_clid_len : Z; m_ciaddr : in_addr;
  m_requested : option in_addr; m_server : option in_addr; m_unicast : bool;
  m_ignore : bool; m_config : option nat; m_tags : option ptr; m_context : list dhcp_context; m_override : in_addr; m_fallback : in_addr; m_intr : bool;
  m_emac : list Z; m_emac_len : Z; m_set_clid : option (list Z); m_set_clid_len : Z;
  m_giaddr : in_addr; m_hostname : option (list Z); m_auth : bool; m_domain : option (list Z); m_time : Z; m_iface : Z; m_fields : list (list Z * Z * bool) }.

(** What [whine_malloc] does: the block of a lease, and whether there is
    memory for a client identifier, a name, a name with its domain and a
    remembered address. *)
Record memory := Memory { y_lease : option ptr; y_clid : bool; y_name : bool; y_fqdn : bool; y_ping : bool }.

Definition server_id (context : list dhcp_context) (override fallback : in_addr) : in_addr :=
  if negb (bool_decide (override = no_addr)) then override
  else match context with
       | c :: _ => if negb (bool_decide (c_local c = no_addr)) then c_local c else fallback
       | [] => fallback
       end.

(** * Offers *)

Definition static_address (v : server_conf) (m : message) (now : Z) (lease : option ptr) (s : ldb) : comp (option in_addr) :=
  if have_config v (m_config m) CONFIG_ADDR then
    g ← host_of v (m_config m);
    let ltmp := lease_find_by_addr (g_addr g) s in
    taken ← match ltmp with
            | Some i =>
                if bool_decide (lease = Some i) then Ok false
                else x ← getl s i; b ← config_has_mac g (l_hwaddr x) (l_hwaddr_len x) (l_hwaddr_type x); mret (negb b)
            | None => Ok false
            end;
    if (taken : bool) then mret None
    else if match m_context m with [] => false | c :: _ => bool_decide (c_router c = g_addr g) end then mret None
    else if has (g_flags g) CONFIG_DECLINED && (now - g_decline_time g <? DECLINE_BACKOFF) then mret None
    else mret (if bool_decide (g_addr g = no_addr) then None else Some (g_addr g))
  else Ok None.

Definition reserved (v : server_conf) (a : in_addr) : option nat := config_find_by_address (v_hosts v) a 0.

(** The address of the client's lease, if it may have it still. *)
Definition own_address (v : server_conf) (m : message) (lease : option ptr) (s : ldb) : comp (option in_addr) :=
  match lease with
  | Some i =>
      x ← getl s i; r ← address_available (v_tags v) (m_context m) (l_addr x) (m_tags m);
      mret (if bool_decide (is_Some r) && bool_decide (reserved v (l_addr x) = None) then Some (l_addr x) else None)
  | None => mret None
  end.

(** The address that the client would like. *)
Definition wanted_address (v : server_conf) (m : message) (s : ldb) : comp (option in_addr) :=
  match m_requested m with
  | Some a =>
      r ← address_available (v_tags v) (m_context m) a (m_tags m);
      mret (if bool_decide (is_Some r) && bool_decide (lease_find_by_addr a s = None) && bool_decide (reserved v a = None) then Some a else None)
  | None => mret None
  end.

Definition choose_address (v : server_conf) (m : message) (now : Z) (mem : memory) (lease : option ptr) (st : search) (s : ldb)
  : comp (option in_addr * search) :=
  conf ← static_address v m now lease s;
  match conf with
  | Some a => mret (Some a, st)
  | None =>
      own ← own_address v m lease s;
      match own with
      | Some a => mret (Some a, st)
      | None =>
          wanted ← wanted_address v m s;
          match wanted with
          | Some a => mret (Some a, st)
          | None =>
              if m_emac_len m =? 0 then mret (None, st)
              else address_allocate (v_tags v) (v_consec v) (v_no_ping v) (y_ping mem) (m_emac m) (m_emac_len m) (m_tags m) now (v_hosts v) s st
          end
      end
  end.

(** The address that a DHCPDISCOVER is answered with, and the number of its
    range. *)
Definition dhcp_discover (v : server_conf) (m : message) (now : Z) (mem : memory) (results : list ping_result) (pings : list bool) (s : ldb)
  : comp (option (in_addr * nat) * search) :=
  let st := Search (m_context m) results pings in
  if m_ignore m || have_config v (m_config m) CONFIG_DISABLE then Ok (None, st)
  else
    lease ← lease_find_by_client (m_chaddr m) (m_hlen m) (m_htype m) (m_clid m) (m_clid_len m) s;
    '(a, st) ← choose_address v m now mem lease st s;
    match a with
    | None => mret (None, st)
    | Some a => k ← narrow_context (v_tags v) (h_context st) a (m_tags m); mret ((fun k => (a, k)) <$> k, st)
    end.

(** * Requests *)

Inductive refusal := WrongServer | WrongAddress | LeaseNotFound | WrongNetwork | NotAvailable | StaticAvailable | Reserved | InUse | NoUniqueId.

(** No answer, a DHCPNAK and whether it is broadcast, or a DHCPACK for a lease,
    with the server identifier that overrides others ([no_addr] for none). *)
Inductive answer := Silent | Nak (why : refusal) (broadcast : bool) | Ack (i : ptr) (do_classes : bool) (override : in_addr).

Fixpoint drop_until (p : dhcp_context -> bool) (l : list dhcp_context) : list dhcp_context :=
  match l with [] => [] | c :: l' => if p c then l else drop_until p l' end.

(** The first part: which kind of request it is. No result means that there is
    no answer. *)
Record ask := Ask { k_message : option refusal; k_selecting : bool; k_classes : bool; k_context : list dhcp_context; k_lease : option ptr; k_yiaddr : in_addr; k_override : in_addr }.

Definition request_kind (v : server_conf) (m : message) (now : Z) (lease : option ptr) (s : ldb) : comp (option ask * ldb) :=
  addr ← match lease with Some i => x ← getl s i; mret (Some (l_addr x)) | None => mret None end;
  match m_requested m with
  | Some yiaddr =>
      match m_server m with
      | Some server =>
          let selected why context override :=
            match addr with
            | Some a => if negb (bool_decide (a = yiaddr)) then (Some (Ask why true true context None yiaddr override), lease_prune lease now s)
                        else (Some (Ask why true true context lease yiaddr override), s)
            | None => (Some (Ask why true true context lease yiaddr override), s)
            end in
          if negb (bool_decide (m_override m = no_addr)) then
            Ok (if bool_decide (server = m_override m) then selected None (m_context m) (m_override m) else (None, s))
          else
            match drop_until (fun c => bool_decide (c_local c = server)) (m_context m) with
            | [] => Ok (if m_intr m then selected None [] server else if v_authoritative v then selected (Some WrongServer) [] (m_override m) else (None, s))
            | context => Ok (selected None context (m_override m))
            end
      | None =>
          if bool_decide (lease = None) && negb (v_authoritative v) then Ok (None, s)
          else
            let why := match addr with Some a => if bool_decide (a = yiaddr) then None else Some WrongAddress | None => None end in
            Ok (Some (Ask why false true (m_context m) lease yiaddr (m_override m)), s)
      end
  | None =>
      if match addr with Some a => negb (bool_decide (m_ciaddr m = a)) | None => negb (v_authoritative v) end then
        Ok (if m_unicast m then (Some (Ask (Some LeaseNotFound) false false (m_context m) lease (m_ciaddr m) (m_override m)), s) else (None, s))
      else Ok (Some (Ask None false false (m_context m) lease (m_ciaddr m) (m_override m)), s)
  end.

(** A refusal; [context] is the range that the first parts end with. *)
Definition nak (m : message) (why : refusal) (context : list dhcp_context) : comp answer :=
  let unicast := match why with LeaseNotFound | WrongNetwork => false | _ => m_unicast m end in
  if negb unicast || negb (bool_decide (m_giaddr m = no_addr)) || bool_decide (m_ciaddr m = no_addr) then Ok (Nak why true)
  else match context with
       | [] => Fault NullDeref
       | c :: _ => Ok (Nak why (is_same_net (c_local c) (m_ciaddr m) (c_netmask c)))
       end.

(** The second part: whether the client may have the address. The last result
    is the range that is left. *)
Definition request_verdict (v : server_conf) (m : message) (now : Z) (k : ask) (s : ldb) : comp (option refusal * option ptr * list dhcp_context) :=
  let yiaddr := k_yiaddr k in
  in_use ← (if have_config v (m_config m) CONFIG_ADDR then
              g ← host_of v (m_config m);
              mret (match k_context k with [] => false | c :: _ => bool_decide (c_router c = g_addr g) end)
            else mret false);
  n ← narrow_context (v_tags v) (k_context k) yiaddr (m_tags m);
  match n with
  | None => mret (Some WrongNetwork, k_lease k, [])
  | Some n =>
      c ← of_option NullDeref (k_context k !! n);
      r ← address_available (v_tags v) [c] yiaddr (m_tags m);
      own ← (if have_config v (m_config m) CONFIG_ADDR then g ← host_of v (m_config m); mret (Some g) else mret None);
      if bool_decide (r = None) && match own with Some g => negb (bool_decide (g_addr g = yiaddr)) | None => true end then mret (Some NotAvailable, k_lease k, [c])
      else if match own with
              | Some g =>
                  negb in_use && negb (k_selecting k) && (negb (has (g_flags g) CONFIG_DECLINED) || (DECLINE_BACKOFF <? now - g_decline_time g)) &&
                  negb (bool_decide (g_addr g = yiaddr)) &&
                  match lease_find_by_addr (g_addr g) s with None => true | Some i => bool_decide (k_lease k = Some i) end
              | None => false
              end then mret (Some StaticAvailable, k_lease k, [c])
      else if match reserved v yiaddr with Some i => negb (bool_decide (m_config m = Some i)) | None => false end then mret (Some Reserved, k_lease k, [c])
      else
        match k_lease k, lease_find_by_addr yiaddr s with
        | None, Some i =>
            x ← getl s i;
            b ← match m_config m with
                | Some _ => g ← host_of v (m_config m); config_has_mac g (l_hwaddr x) (l_hwaddr_len x) (l_hwaddr_type x)
                | None => mret false
                end;
            mret (if (b : bool) then (None, Some i) else (Some InUse, None), [c])
        | lease, _ => mret (None, lease, [c])
        end
  end.

Definition dhcp_request (v : server_conf) (m : message) (now : Z) (mem : memory) (s : ldb) : comp (answer * ldb) :=
  lease ← lease_find_by_client (m_chaddr m) (m_hlen m) (m_htype m) (m_clid m) (m_clid_len m) s;
  if m_ignore m || have_config v (m_config m) CONFIG_DISABLE then Ok (Silent, s)
  else
    '(k, s) ← request_kind v m now lease s;
    match k with
    | None => mret (Silent, s)
    | Some k =>
        match k_message k with
        | Some why => ans ← nak m why (k_context k); mret (ans, s)
        | None =>
            '(why, lease, context) ← request_verdict v m now k s;
            match why with
            | Some why => ans ← nak m why context; mret (ans, s)
            | None =>
                if m_emac_len m =? 0 then ans ← nak m NoUniqueId context; mret (ans, s)
                else match lease with
                     | Some i => mret (Ack i (k_classes k) (k_override k), s)
                     | None => '(i, s) ← lease4_allocate (k_yiaddr k) (y_lease mem) s; mret (Ack i true (k_override k), s)
                     end
            end
        end
    end.

(** The address of a relay, and the server identifier that the client uses. *)
Definition set_giaddr (i : ptr) (giaddr : in_addr) (s : ldb) : comp ldb :=
  x ← getl s i; mret (if bool_decide (giaddr = no_addr) then s else putl i (with_relay giaddr (l_override x) x) s).
Definition set_override (i : ptr) (override : in_addr) (s : ldb) : comp ldb :=
  x ← getl s i; mret (if bool_decide (override = no_addr) then s else putl i (with_relay (l_giaddr x) override x) s).

(** What goes with a DHCPACK, when there is a script; [fqdn_mode] is
    [OPT_DHCP_FQDN]. *)
Definition record_lease (fqdn_mode : bool) (m : message) (now : Z) (mem : memory) (i : ptr) (do_classes : bool) (override : in_addr) (s : ldb) : comp ldb :=
  s ← (if do_classes then s ← set_giaddr i (m_giaddr m) s; new_extradata i (m_fields m) s else mret s);
  s ← lease_set_hwaddr i (m_chaddr m) (m_set_clid m) (m_hlen m) (m_htype m) (m_set_clid_len m) (y_clid mem) s;
  s ← match m_hostname m with
      | Some n => lease_set_hostname fqdn_mode i (Some n) (m_auth m) (m_domain m) (y_name mem) (y_fqdn mem) s
      | None => mret s
      end;
  s ← lease_set_expires i (m_time m) now s;
  s ← lease_set_interface i (m_iface m) s;
  set_override i override s.

(** * Addresses that are given back *)

Definition end_lease (lease : option ptr) (a : in_addr) (now : Z) (s : ldb) : comp ldb :=
  match lease with
  | Some i => x ← getl s i; mret (if bool_decide (l_addr x = a) then lease_prune lease now s else s)
  | None => mret s
  end.

Definition dhcp_release (v : server_conf) (m : message) (now : Z) (s : ldb) : comp ldb :=
  lease ← lease_find_by_client (m_chaddr m) (m_hlen m) (m_htype m) (m_clid m) (m_clid_len m) s;
  k ← narrow_context (v_tags v) (m_context m) (m_ciaddr m) (m_tags m);
  match k with
  | None => mret s
  | Some k =>
      if bool_decide (m_server m = Some (server_id (drop k (m_context m)) (m_override m) (m_fallback m))) then end_lease lease (m_ciaddr m) now s
      else mret s
  end.

Definition declined (now : Z) (g : dhcp_config) : dhcp_config :=
  DhcpConfig (Z.lor (g_flags g) CONFIG_DECLINED) (g_clid_len g) (g_clid g) (g_hostname g) (g_addr g) now (g_hwaddr g).

(** The hosts and the ranges change too: a host does not get its address
    for a while, another client gets another one next time. *)
Definition dhcp_decline (v : server_conf) (m : message) (now : Z) (s : ldb) : comp (ldb * list dhcp_config * list dhcp_context) :=
  lease ← lease_find_by_client (m_chaddr m) (m_hlen m) (m_htype m) (m_clid m) (m_clid_len m) s;
  match m_requested m with
  | Some a =>
      if bool_decide (m_server m = Some (server_id (m_context m) (m_override m) (m_fallback m))) then
        s ← end_lease lease a now s;
        own ← (if have_config v (m_config m) CONFIG_ADDR then g ← host_of v (m_config m); mret (bool_decide (g_addr g = a)) else mret false);
        mret (if (own : bool) then (s, match m_config m with Some i => alter (declined now) i (v_hosts v) | None => v_hosts v end, m_context m)
              else (s, v_hosts v, (fun c => with_epoch (u32 (c_epoch c + 1)) c) <$> m_context m))
      else mret (s, v_hosts v, m_context m)
  | None => mret (s, v_hosts v, m_context m)
  end.

(** * Ranges and hosts that are found *)

Lemma find_range_ok p l : forall i, (forall c, c ∈ l -> exists b, p c = Ok b) ->
  exists r, find_range p i l = Ok r /\
    match r with Some n => exists k c, n = (i + k)%nat /\ l !! k = Some c /\ p c = Ok true | None => forall c, c ∈ l -> p c = Ok false end.
Proof.
  induction l as [|c l IH]; intros i Hp; cbn [find_range]; [exists None; split; [done|by intros ? ?%elem_of_nil]|].
  destruct (Hp c) as [b Hb]; [by left|]. rewrite Hb. cbn [mbind comp_bind]. destruct b.
  - exists (Some i). split; [done|]. exists 0%nat, c. split_and!; [lia|done|done].
  - destruct (IH (S i)) as (r & -> & Hr); [intros d Hd; apply Hp; by right|]. exists r. split; [done|]. destruct r as [n|].
    + destruct Hr as (k & d & -> & Hk & Hd). exists (S k), d. split_and!; [lia|done|done].
    + intros d [->|Hd]%elem_of_cons; auto.
Qed.

Section Ranges.
Context (h : netids) (filters : option ptr -> list ptr) (tags : option ptr) (l : list ptr) (Ht : chain h tags l).

Lemma address_available_ok context a : (forall c, c ∈ context -> range_ok h filters c) ->
  exists r, address_available h context a tags = Ok r /\
    match r with
    | Some k => exists c, context !! k = Some c /\ open_range h filters (tag_names h l) c = true /\ in_range a c = true
    | None => (exists c, head context = Some c /\ a = c_router c) \/
        forall c, c ∈ context -> open_range h filters (tag_names h l) c = true -> in_range a c = false
    end.
Proof.
  intros Hc. unfold address_available. destruct (match context with [] => false | c :: _ => bool_decide (a = c_router c) end) eqn:E.
  { exists None. split; [done|]. left. destruct context as [|c ?]; [done|]. apply bool_decide_eq_true in E. by exists c. }
  set (p := fun c : dhcp_context => if negb (fixed_range c) && in_range a c then match_netid h (c_filter c) tags true else Ok false). assert (forall c, c ∈ context -> p c = Ok (open_range h filters (tag_names h l) c && in_range a c)) as Hp.
  { intros c Hi. destruct (Hc c Hi) as (_ & _ & _ & _ & Hf). unfold p, open_range. rewrite (match_netid_ok h _ tags _ l true Hf Ht). cbn [orb andb].
    by destruct (fixed_range c), (in_range a c), (tags_match _ _). }
  destruct (find_range_ok p context 0) as (r & -> & Hr); [intros c Hi; eexists; by apply Hp|]. exists r. split; [done|]. destruct r as [k|].
  - destruct Hr as (k' & c & -> & Hk & H). rewrite Hp in H by (by eapply list_elem_of_lookup_2). injection H as H. apply andb_true_iff in H as [? ?].
    exists c. by split_and!.
  - right. intros c Hi Ho. specialize (Hr c Hi). rewrite Hp, Ho in Hr by done. cbn in Hr. congruence.
Qed.

Lemma narrow_context_ok context a : (forall c, c ∈ context -> range_ok h filters c) ->
  exists r, narrow_context h context a tags = Ok r /\ (forall k, r = Some k -> exists c, context !! k = Some c).
Proof.
  intros Hc. unfold narrow_context. destruct (address_available_ok context a Hc) as (r & -> & Hr). cbn [mbind comp_bind].
  destruct r as [k|]; cbn [mbind comp_bind mret comp_ret].
  { exists (Some k). split; [done|]. intros ? [= <-]. destruct Hr as (c & ? & _). by exists c. }
  assert (forall q : dhcp_context -> bool -> bool, exists r, find_range (fun c => b ← match_netid h (c_filter c) tags true; mret (q c b)) 0 context = Ok r /\
    (forall k, r = Some k -> exists c, context !! k = Some c)) as Hf.
  { intros q. destruct (find_range_ok (fun c => b ← match_netid h (c_filter c) tags true; mret (q c b)) context 0) as (r & -> & Hr').
    - intros c Hi. destruct (Hc c Hi) as (_ & _ & _ & _ & Hf). rewrite (match_netid_ok h _ tags _ l true Hf Ht). by eexists.
    - exists r. split; [done|]. intros k ->. destruct Hr' as (k' & c & -> & ? & _). by exists c. }
  destruct (Hf (fun c b => b && is_same_net a (c_start c) (c_netmask c) && has (c_flags c) CONTEXT_STATIC)) as (r1 & E1 & H1). cbn zeta. rewrite E1. cbn [mbind comp_bind].
  destruct r1 as [k|]; [by exists (Some k)|].
  destruct (Hf (fun c b => b && is_same_net a (c_start c) (c_netmask c) && negb (has (c_flags c) CONTEXT_PROXY))) as (r2 & E2 & H2). rewrite E2. by exists r2.
Qed.
End Ranges.

Lemma lease_client_ok mode max s hwaddr hw_len hw_type clid clid_len : linv mode max s -> 0 <= hw_len <= zlen hwaddr -> hw_len <= DHCP_CHADDR_MAX ->
  (forall c, clid = Some c -> 0 <= clid_len <= zlen c) ->
  exists r, lease_find_by_client hwaddr hw_len hw_type clid clid_len s = Ok r /\ (forall i, r = Some i -> exists x, (i, x) ∈ leases s).
Proof.
  intros I Hh1 Hh2 Hc. unfold lease_find_by_client.
  assert (forall p, (forall i x, (i, x) ∈ leases s -> exists b, p x = Ok b) -> exists r, find_lease p (leases s) = Ok r /\ (forall i, r = Some i -> exists x, (i, x) ∈ leases s)) as Hf.
  { intros p Hp. destruct (find_lease_ok p (leases s) Hp) as [r Hr]. exists r. split; [done|]. intros i ->. apply find_lease_some in Hr as (x & ? & _). by exists x. }
  destruct (Hf (same_hwaddr hwaddr hw_len hw_type clid)) as (r2 & E2 & H2).
  { intros i x Hi. unfold same_hwaddr. case_match; [|by eexists]. rewrite memcmp0_ok; [by eexists|done|]. by rewrite (lo_hw _ (linv_in _ _ _ _ _ I Hi)). }
  destruct clid as [c|]; cbn [mbind comp_bind mret comp_ret]; [|by exists r2].
  destruct (Hf (same_clid c clid_len)) as (r1 & E1 & H1).
  { intros i x Hi. unfold same_clid. destruct (l_clid x) as [d|] eqn:Ed; [|by eexists]. case_match eqn:E; [|by eexists]. zbool.
    pose proof (lo_clid _ (linv_in _ _ _ _ _ I Hi) d Ed). specialize (Hc c eq_refl). rewrite memcmp0_ok by lia. by eexists. }
  rewrite E1. cbn [mbind comp_bind]. destruct r1 as [i|]; [by exists (Some i)|by exists r2].
Qed.

Lemma config_find_some configs a : forall i n, config_find_by_address configs a i = Some n -> exists g, configs !! (n - i)%nat = Some g /\ (i <= n)%nat /\ g_addr g = a.
Proof.
  induction configs as [|g configs IH]; intros i n; cbn [config_find_by_address]; [done|]. case_match eqn:E.
  - intros [= <-]. apply andb_true_iff in E as [_ E%bool_decide_eq_true]. exists g. rewrite Nat.sub_diag. by split_and!.
  - intros (g' & H1 & H2 & H3)%IH. exists g'. split_and!; [|lia|done]. replace (n - i)%nat with (S (n - S i)) by lia. done.
Qed.

(** * One lease for an address *)

Definition apart (s : ldb) : Prop := NoDup (addrs s).*2 /\ Forall octets (addrs s).*2.

Lemma apart_same s s' : addrs s' = addrs s -> apart s -> apart s'.
Proof. unfold apart. by intros ->. Qed.

Lemma addr_in i x s : (i, x) ∈ leases s -> l_addr x ∈ (addrs s).*2.
Proof. intros Hi. unfold addrs. rewrite <-list_fmap_compose. apply list_elem_of_fmap. by exists (i, x). Qed.

Lemma apart_octets s i x : apart s -> (i, x) ∈ leases s -> octets (l_addr x).
Proof. intros [_ H] Hi. rewrite Forall_forall in H. by eapply H, addr_in. Qed.

Lemma apart_unique s i x j y : apart s -> (i, x) ∈ leases s -> (j, y) ∈ leases s -> l_addr x = l_addr y -> i = j.
Proof.
  intros [H _] Hi Hj Ha. unfold addrs in H. rewrite <-list_fmap_compose in H. revert H Hi Hj.
  induction (leases s) as [|e l IH]; [by intros _ ?%elem_of_nil|]. cbn. intros [Hn Hnd]%NoDup_cons Hi Hj.
  apply elem_of_cons in Hi as [<-|Hi], Hj as [Hj|Hj]; [congruence| |subst e|by apply IH]; destruct Hn; cbn.
  - rewrite Ha. apply list_elem_of_fmap. by exists (j, y).
  - rewrite <-Ha. apply list_elem_of_fmap. by exists (i, x).
Qed.

Lemma apart_prune target now s : apart s -> apart (lease_prune target now s).
Proof.
  intros [H1 H2]. destruct (lease_prune_eq target now s) as (E & _). unfold apart, addrs in *. rewrite E. rewrite <-!list_fmap_compose in *. split.
  - eapply sublist_NoDup; [exact H1|]. apply fmap_sublist, sublist_filter.
  - rewrite Forall_forall in *. intros a (e & -> & [_ He]%list_elem_of_filter)%list_elem_of_fmap. apply H2, list_elem_of_fmap. by exists e.
Qed.

Lemma find_by_addr_none s a : lease_find_by_addr a s = None <-> a ∉ (addrs s).*2.
Proof.
  unfold lease_find_by_addr. rewrite find_addr_none. unfold addrs. rewrite <-list_fmap_compose. split.
  - intros H ([i x] & -> & Hi)%list_elem_of_fmap. by apply (H i x).
  - intros H i x Hi Ha. apply H, list_elem_of_fmap. by exists (i, x).
Qed.

Lemma apart_new s i a : apart s -> lease_find_by_addr a s = None -> octets a ->
  apart (Ldb ((i, fresh_lease a) :: leases s) (old_leases s) (dns_dirty s) true (leases_left s - 1)).
Proof. intros [H1 H2] Hn Ha. unfold apart, addrs in *. cbn. split; constructor; try done. by apply find_by_addr_none. Qed.

(** * Requests *)

(** What holds for a message that has been read: the buffers are as long as
    their lengths say, the lists of tags end, there is a range, and a message
    that asks for an address has no other ([ciaddr] is cleared then). *)
Definition host_ok (g : dhcp_config) : Prop := forall c, c ∈ g_hwaddr g -> 0 <= hc_len c <= DHCP_CHADDR_MAX /\ zlen (hc_hwaddr c) = DHCP_CHADDR_MAX.

Record message_ok (v : server_conf) (filters : option ptr -> list ptr) (l : list ptr) (m : message) : Prop := {
  mo_hw : 0 <= m_hlen m <= zlen (m_chaddr m) /\ m_hlen m <= DHCP_CHADDR_MAX;
  mo_clid : forall c, m_clid m = Some c -> 0 <= m_clid_len m <= zlen c;
  mo_set_clid : forall c, m_set_clid m = Some c -> 0 <= m_set_clid_len m <= zlen c;
  mo_emac : 0 <= m_emac_len m <= zlen (m_emac m);
  mo_fields : fields_len (m_fields m) < 2 ^ 31;
  mo_addr : octets (default (m_ciaddr m) (m_requested m));
  mo_tags : chain (v_tags v) (m_tags m) l;
  mo_ranges : forall c, c ∈ m_context m -> range_ok (v_tags v) filters c;
  mo_range : m_context m <> [];
  mo_ciaddr : m_requested m <> None -> m_ciaddr m = no_addr;
  mo_host : forall i, m_config m = Some i -> exists g, v_hosts v !! i = Some g /\ host_ok g }.

Lemma has_mac_ok l hwaddr len type : (forall c, c ∈ l -> 0 <= hc_len c <= DHCP_CHADDR_MAX /\ zlen (hc_hwaddr c) = DHCP_CHADDR_MAX) -> zlen hwaddr = DHCP_CHADDR_MAX ->
  exists b, has_mac l hwaddr len type = Ok b.
Proof.
  intros Hl Hh. induction l as [|c l IH]; cbn [has_mac]; [by eexists|]. destruct (Hl c) as [H1 H2]; [by left|].
  destruct IH as [b Hb]; [intros d Hd; apply Hl; by right|]. rewrite Hb. case_match eqn:E; [|by eexists]. zbool.
  all: rewrite memcmp0_ok by lia; cbn [mbind comp_bind]; case_match; by eexists.
Qed.

Lemma host_of_ok v filters l m mask : message_ok v filters l m -> have_config v (m_config m) mask = true -> exists g, host_of v (m_config m) = Ok g /\ host_ok g.
Proof.
  intros Hm. unfold have_config, host_of. destruct (m_config m) as [i|] eqn:E; [|done]. destruct (mo_host _ _ _ _ Hm i E) as (g & Hg & Hok). cbn. rewrite Hg. by exists g.
Qed.

Definition asked_address (m : message) : in_addr := default (m_ciaddr m) (m_requested m).

Lemma drop_until_sub p l c : c ∈ drop_until p l -> c ∈ l.
Proof. induction l as [|d l IH]; cbn; [done|]. case_match; [done|]. intros Hc. right. auto. Qed.

Section Request.
Context (mode : bool) (max : Z) (v : server_conf) (filters : option ptr -> list ptr) (l : list ptr).

(** The leases are in order, and no address is leased twice. *)
Definition in_order (s : ldb) : Prop := linv mode max s /\ apart s.

Lemma in_order_prune target now s : in_order s -> in_order (lease_prune target now s).
Proof. intros [I A]. split; [by apply linv_prune|by apply apart_prune]. Qed.

(** What is known of a request after its first part. *)
Record kind_ok (m : message) (s s' : ldb) (k : ask) : Prop := {
  ko_addr : k_yiaddr k = asked_address m;
  ko_context : forall c, c ∈ k_context k -> c ∈ m_context m;
  ko_range : m_requested m = None -> k_context k = m_context m;
  ko_lease : forall i, k_lease k = Some i -> k_message k = None -> exists x, (i, x) ∈ leases s' /\ l_addr x = k_yiaddr k }.

Lemma request_kind_ok m now lease s : in_order s -> (forall i, lease = Some i -> exists x, (i, x) ∈ leases s) ->
  exists k s', request_kind v m now lease s = Ok (k, s') /\ in_order s' /\ (s' = s \/ s' = lease_prune lease now s) /\ (forall k', k = Some k' -> kind_ok m s s' k').
Proof.
  intros Hin Hl. unfold request_kind, asked_address.
  assert (exists addr, match lease with Some i => x ← getl s i; mret (Some (l_addr x)) | None => mret None end = Ok addr /\
    (addr = None <-> lease = None) /\ forall i, lease = Some i -> exists x, (i, x) ∈ leases s /\ addr = Some (l_addr x)) as (addr & -> & Hnone & Haddr).
  { destruct lease as [i|]; [|by exists None]. destruct (Hl i eq_refl) as [x Hx]. rewrite (getl_ok _ _ _ _ _ (proj1 Hin) Hx). eexists. split; [done|]. split; [done|].
    intros j [= <-]. by exists x. }
  cbn [mbind comp_bind].
  assert (forall why cl context yiaddr over, m_requested m <> None -> (forall c, c ∈ context -> c ∈ m_context m) -> yiaddr = default (m_ciaddr m) (m_requested m) ->
    exists k s', match addr with
      | Some a => if negb (bool_decide (a = yiaddr)) then (Some (Ask why true cl context None yiaddr over), lease_prune lease now s) else (Some (Ask why true cl context lease yiaddr over), s)
      | None => (Some (Ask why true cl context lease yiaddr over), s) end = (k, s') /\ in_order s' /\ (s' = s \/ s' = lease_prune lease now s) /\ (forall k', k = Some k' -> kind_ok m s s' k')) as Hsel.
  { intros why cl context yiaddr over Hq Hc Hy. destruct addr as [a|].
    - case_bool_decide as E; cbn [negb].
      + do 2 eexists. split_and!; [done|done|by left|]. intros k' [= <-]. split; cbn; [done|done|done|]. intros i Hi _. destruct (Haddr i Hi) as (x & ? & [= ->]). by exists x.
      + do 2 eexists. split_and!; [done|by apply in_order_prune|by right|]. intros k' [= <-]. by split.
    - do 2 eexists. split_and!; [done|done|by left|]. intros k' [= <-]. split; cbn; [done|done|done|]. intros i Hi. by rewrite (proj1 Hnone eq_refl) in Hi. }
  destruct (m_requested m) as [yiaddr|] eqn:Er; cbn in Hsel |- *.
  - destruct (m_server m) as [server|].
    + destruct (negb (bool_decide (m_override m = no_addr))).
      * case_bool_decide; [|do 2 eexists; split_and!; [done|done|by left|done]].
        destruct (Hsel None true (m_context m) yiaddr (m_override m)) as (k & s' & E & H1 & H2 & H3); [done|done|done|]. exists k, s'. by rewrite E.
      * destruct (drop_until _ (m_context m)) as [|c context] eqn:Ed.
        -- destruct (m_intr m); [|destruct (v_authoritative v); [|do 2 eexists; split_and!; [done|done|by left|done]]].
           ++ destruct (Hsel None true [] yiaddr server) as (k & s' & E & H1 & H2 & H3); [done|by intros ? ?%elem_of_nil|done|]. exists k, s'. by rewrite E.
           ++ destruct (Hsel (Some WrongServer) true [] yiaddr (m_override m)) as (k & s' & E & H1 & H2 & H3); [done|by intros ? ?%elem_of_nil|done|]. exists k, s'. by rewrite E.
        -- destruct (Hsel None true (c :: context) yiaddr (m_override m)) as (k & s' & E & H1 & H2 & H3); [done| |done|exists k, s'; by rewrite E].
           intros d Hd. eapply drop_until_sub. by rewrite Ed.
    + destruct (bool_decide (lease = None) && negb (v_authoritative v)); [do 2 eexists; split_and!; [done|done|by left|done]|]. do 2 eexists. split_and!; [done|done|by left|]. intros k' [= <-].
      split; cbn; [unfold asked_address; by rewrite Er|done|by rewrite Er|]. intros i Hi Hm. destruct (Haddr i Hi) as (x & Hx & ->). case_bool_decide; [|done]. by exists x.
  - destruct (match addr with Some a => negb (bool_decide (m_ciaddr m = a)) | None => negb (v_authoritative v) end) eqn:E.
    + destruct (m_unicast m); [|do 2 eexists; split_and!; [done|done|by left|done]]. do 2 eexists. split_and!; [done|done|by left|]. intros k' [= <-]. split; cbn; [unfold asked_address; by rewrite Er|done..].
    + do 2 eexists. split_and!; [done|done|by left|]. intros k' [= <-]. split; cbn; [unfold asked_address; by rewrite Er|done|done|]. intros i Hi _. destruct (Haddr i Hi) as (x & Hx & ->).
      apply negb_false_iff, bool_decide_eq_true in E. by exists x.
Qed.
(** The address is one that the client may have: it is in a range that is
    there for its tags, or is that of its host in the configuration; and it is
    not that of another host. *)
Definition permitted (m : message) (a : in_addr) : Prop :=
  ((exists c, c ∈ m_context m /\ open_range (v_tags v) filters (tag_names (v_tags v) l) c = true /\ in_range a c = true) \/
   (exists i g, m_config m = Some i /\ v_hosts v !! i = Some g /\ g_addr g = a)) /\
  (forall n, reserved v a = Some n -> m_config m = Some n).

Lemma host_case m mask : message_ok v filters l m ->
  exists o, (if have_config v (m_config m) mask then g ← host_of v (m_config m); mret (Some g) else mret None) = Ok o /\
    (forall g, o = Some g -> exists i, m_config m = Some i /\ v_hosts v !! i = Some g).
Proof.
  intros Hm. destruct (have_config v (m_config m) mask) eqn:E; [|by exists None].
  destruct (host_of_ok v filters l m mask Hm E) as (g & Hg & _). rewrite Hg. exists (Some g). split; [done|]. intros g' [= <-].
  unfold host_of in Hg. destruct (m_config m) as [i|]; [|done]. cbn in Hg. destruct (v_hosts v !! i) eqn:Ei; [|done]. exists i. split; [done|]. by injection Hg as ->.
Qed.

Lemma request_verdict_ok m now k s0 s : in_order s -> message_ok v filters l m -> kind_ok m s0 s k -> k_message k = None ->
  exists why lease context, request_verdict v m now k s = Ok (why, lease, context) /\ (why = Some WrongNetwork \/ context <> []) /\
    (why = None -> permitted m (k_yiaddr k) /\ (forall i, lease = Some i -> exists x, (i, x) ∈ leases s /\ l_addr x = k_yiaddr k) /\
       (lease = None -> lease_find_by_addr (k_yiaddr k) s = None)).
Proof.
  intros [I A] Hm [Ka Kc _ Kl] Hmsg. unfold request_verdict.
  assert (exists b, (if have_config v (m_config m) CONFIG_ADDR then g ← host_of v (m_config m); mret (match k_context k with [] => false | c :: _ => bool_decide (c_router c = g_addr g) end)
    else mret false) = Ok b) as (in_use & ->).
  { destruct (have_config v (m_config m) CONFIG_ADDR) eqn:E; [|by eexists]. destruct (host_of_ok v filters l m _ Hm E) as (g & -> & _). by eexists. }
  cbn [mbind comp_bind].
  assert (forall c, c ∈ k_context k -> range_ok (v_tags v) filters c) as Hr by (intros c Hc; by apply (mo_ranges _ _ _ _ Hm), Kc).
  destruct (narrow_context_ok (v_tags v) filters (m_tags m) l (mo_tags _ _ _ _ Hm) (k_context k) (k_yiaddr k) Hr) as (n & -> & Hn). cbn [mbind comp_bind].
  destruct n as [n|]; [|do 3 eexists; (split; [reflexivity|split; [by left|intros [=]]])]. destruct (Hn n eq_refl) as [c Hc]. rewrite Hc. cbn [of_option mbind comp_bind].
  assert (c ∈ m_context m) as Hcm by (by apply Kc; eapply list_elem_of_lookup_2).
  destruct (address_available_ok (v_tags v) filters (m_tags m) l (mo_tags _ _ _ _ Hm) [c] (k_yiaddr k)) as (r & -> & Hav).
  { intros d ->%list_elem_of_singleton. by apply (mo_ranges _ _ _ _ Hm). }
  cbn [mbind comp_bind]. destruct (host_case m CONFIG_ADDR Hm) as (own & -> & Hown). cbn [mbind comp_bind].
  match goal with |- context [if ?b then mret (Some NotAvailable, _, _) else _] => destruct b eqn:E1 end; [do 3 eexists; (split; [reflexivity|split; [by right|intros [=]]])|].
  match goal with |- context [if ?b then mret (Some StaticAvailable, _, _) else _] => destruct b end; [do 3 eexists; (split; [reflexivity|split; [by right|intros [=]]])|].
  match goal with |- context [if ?b then mret (Some Reserved, _, _) else _] => destruct b eqn:E3 end; [do 3 eexists; (split; [reflexivity|split; [by right|intros [=]]])|].
  assert (permitted m (k_yiaddr k)) as Hperm.
  { split.
    - apply andb_false_iff in E1 as [E1|E1].
      + apply bool_decide_eq_false in E1. destruct r as [q|]; [|done]. destruct Hav as (d & Hd & ? & ?). destruct q as [|[|?]]; [|done..]. injection Hd as ->. left. by exists d.
      + destruct own as [g|]; [|done]. apply negb_false_iff, bool_decide_eq_true in E1. right. destruct (Hown g eq_refl) as (i & ? & ?). by exists i, g.
    - intros q Hq. rewrite Hq in E3. by apply negb_false_iff, bool_decide_eq_true in E3. }
  destruct (k_lease k) as [i|] eqn:El.
  { eexists _, _, _. split; [done|]. split; [by right|]. intros _. split_and!; [done| |done]. intros j [= <-]. by apply Kl. }
  destruct (lease_find_by_addr (k_yiaddr k) s) as [i|] eqn:Ef; [|do 3 eexists; split; [reflexivity|]; split; [by right|by intros _]].
  apply find_addr_some in Ef as (x & Hx & Hxa). rewrite (getl_ok _ _ _ _ _ I Hx). cbn [mbind comp_bind].
  assert (exists b, match m_config m with Some _ => g ← host_of v (m_config m); config_has_mac g (l_hwaddr x) (l_hwaddr_len x) (l_hwaddr_type x) | None => mret false end = Ok b) as (b & ->).
  { destruct (m_config m) as [q|] eqn:Eq; [|by eexists]. destruct (mo_host _ _ _ _ Hm q Eq) as (g & Hg & Hok). unfold host_of. cbn. rewrite Hg. cbn.
    apply has_mac_ok; [exact Hok|]. apply lo_hw. by eapply linv_in. }
  cbn [mbind comp_bind mret comp_ret]. destruct b; eexists _, _, _; (split; [done|]); (split; [by right|]); [|done]. intros _. split_and!; [done| |done]. intros j [= <-]. by exists x.
Qed.

Definition fresh (mem : memory) (s : ldb) : Prop :=
  match y_lease mem with Some i => i ∉ (leases s).*1 ++ (old_leases s).*1 | None => True end.

Lemma fresh_prune mem target now s : fresh mem s -> fresh mem (lease_prune target now s).
Proof.
  unfold fresh. destruct (y_lease mem) as [i|]; [|done]. destruct (lease_prune_eq target now s) as (E1 & E2 & _). rewrite E1, E2.
  intros H. rewrite fmap_app, fmap_reverse, !elem_of_app, elem_of_reverse in *. intros [Hi|[Hi|Hi]]; [..|tauto]; apply H; left;
    apply list_elem_of_fmap in Hi as (e & -> & [_ He]%list_elem_of_filter); apply list_elem_of_fmap; by exists e.
Qed.

(** A refusal can be sent. *)
Lemma nak_ok m why context : message_ok v filters l m -> why = WrongNetwork \/ m_requested m <> None \/ context <> [] -> exists b, nak m why context = Ok (Nak why b).
Proof.
  intros Hm H. unfold nak. set (unicast := match why with LeaseNotFound | WrongNetwork => false | _ => m_unicast m end).
  destruct (negb unicast || negb (bool_decide (m_giaddr m = no_addr)) || bool_decide (m_ciaddr m = no_addr)) eqn:E; [by exists true|].
  apply orb_false_iff in E as [[Eu _]%orb_false_iff Ec%bool_decide_eq_false]. destruct H as [->|[Hr|Hc]]; [done| |].
  - destruct Ec. by apply (mo_ciaddr _ _ _ _ Hm).
  - destruct context; [done|]. by eexists.
Qed.

(** What a request does: the leases stay in order, and a DHCPACK is for the
    address that has been asked for, which the client may have; unless a new
    lease is wanted and there is none left, or no memory for it. *)
Lemma dhcp_request_ok m now mem s : in_order s -> message_ok v filters l m -> fresh mem s ->
  match dhcp_request v m now mem s with
  | Ok (ans, s') => in_order s' /\ (forall i cl over, ans = Ack i cl over -> exists x, (i, x) ∈ leases s' /\ l_addr x = asked_address m /\ permitted m (asked_address m))
  | Fault f => f = NullDeref /\ (leases_left s = 0 \/ y_lease mem = None)
  end.
Proof.
  intros Hin Hm Hf. unfold dhcp_request.
  destruct (lease_client_ok mode max s (m_chaddr m) (m_hlen m) (m_htype m) (m_clid m) (m_clid_len m)) as (lease & -> & Hl); [apply Hin|apply (mo_hw _ _ _ _ Hm)..|by apply mo_clid with v filters l|].
  cbn [mbind comp_bind]. destruct (m_ignore m || have_config v (m_config m) CONFIG_DISABLE); [done|].
  destruct (request_kind_ok m now lease s Hin Hl) as (k & s1 & -> & Hin1 & Hs1 & Hk). cbn [mbind comp_bind].
  assert (leases_left s <= leases_left s1) as Hle. { destruct Hs1 as [->| ->]; [lia|]. destruct (lease_prune_eq lease now s) as (_ & _ & -> & _). unfold zlen. lia. }
  assert (fresh mem s1) as Hf1 by (destruct Hs1 as [->| ->]; [done|by apply fresh_prune]).
  destruct k as [k|]; cbn [mret comp_ret]; [|done]. destruct (k_message k) as [why|] eqn:Emsg.
  { destruct (nak_ok m why (k_context k) Hm) as [b ->]; [|done]. destruct (m_requested m) eqn:Er; [by right; left|]. right. right.
    rewrite (ko_range _ _ _ _ (Hk k eq_refl) Er). by apply (mo_range _ _ _ _ Hm). }
  destruct (request_verdict_ok m now k s s1 Hin1 Hm (Hk k eq_refl) Emsg) as (why & lease' & context & -> & Hw & Hv). cbn [mbind comp_bind].
  destruct why as [why|]. { destruct (nak_ok m why context Hm) as [b ->]; [|done]. destruct Hw as [[= ->]|?]; [by left|by right; right]. }
  destruct Hw as [?|Hw]; [done|]. destruct (Hv eq_refl) as (Hp & Hsome & Hnone). rewrite (ko_addr _ _ _ _ (Hk k eq_refl)) in *.
  destruct (m_emac_len m =? 0); [by destruct (nak_ok m NoUniqueId context Hm) as [b ->]; [by right; right|]|]. destruct lease' as [i|]; cbn [mret comp_ret].
  - destruct (Hsome i eq_refl) as (x & ? & ?). split; [done|]. intros i' cl over [= <- <- <-]. by exists x.
  - destruct (decide (leases_left s1 = 0)) as [Hz|Hz].
    { unfold lease4_allocate, lease_allocate. rewrite Hz. cbn. split; [done|]. pose proof (li_left _ _ _ (proj1 Hin)). lia. }
    unfold fresh in Hf1. destruct (y_lease mem) as [i|] eqn:Ey; [|unfold lease4_allocate, lease_allocate; rewrite (proj2 (Z.eqb_neq _ _) Hz); cbn; by auto].
    destruct (lease4_allocate_ok mode max (asked_address m) i s1 (proj1 Hin1) Hz Hf1) as [-> I2]. cbn [mbind comp_bind mret comp_ret].
    split.
    + split; [done|]. apply apart_new; [apply Hin1|by apply Hnone|apply (mo_addr _ _ _ _ Hm)].
    + intros i' cl over [= <- <- <-]. exists (fresh_lease (asked_address m)). split_and!; [by left|done|done].
Qed.

Lemma keep_order s s' : linv mode max s' -> addrs s' = addrs s -> in_order s -> in_order s'.
Proof. intros I E [_ A]. split; [done|by eapply apart_same]. Qed.

(** A lease is still there, with its address. *)
Definition holds (i : ptr) (a : in_addr) (s : ldb) : Prop := (i, a) ∈ addrs s.

Lemma holds_lease i a s : holds i a s -> exists x, (i, x) ∈ leases s /\ l_addr x = a.
Proof. intros ([j x] & [= -> ->] & Hx)%list_elem_of_fmap. by exists x. Qed.

(** A step goes well and leaves the leases and their addresses where they
    were. *)
Definition keeps (A : list (ptr * in_addr)) (c : comp ldb) : Prop := exists s', c = Ok s' /\ linv mode max s' /\ addrs s' = A.

Lemma keeps_same A s : linv mode max s -> addrs s = A -> keeps A (Ok s).
Proof. intros. by exists s. Qed.

Lemma keeps_bind A c (f : ldb -> comp ldb) : keeps A c -> (forall s, linv mode max s -> addrs s = A -> keeps A (f s)) -> keeps A (c ≫= f).
Proof. intros (s & -> & I & E) H. cbn. by apply H. Qed.

Lemma keeps_put i a A s (P : lease -> bool) (f : lease -> lease) : (i, a) ∈ A -> linv mode max s -> addrs s = A ->
  (forall x, lease_ok x -> lease_ok (f x) /\ l_addr (f x) = l_addr x /\ key mode (f x) = key mode x) ->
  keeps A (x ← getl s i; mret (if P x then s else putl i (f x) s)).
Proof.
  intros Hh I <- Hf. destruct (holds_lease _ _ _ Hh) as (x & Hx & _). rewrite (getl_ok _ _ _ _ _ I Hx). cbn [mbind comp_bind mret comp_ret].
  destruct (P x); [by apply keeps_same|]. destruct (Hf x (linv_in _ _ _ _ _ I Hx)) as (H1 & H2 & H3). apply keeps_same.
  - apply (linv_put_same _ _ s i x); [done..|by left].
  - by apply (addrs_putl mode max s i x).
Qed.

Lemma set_giaddr_ok i a A giaddr s : (i, a) ∈ A -> linv mode max s -> addrs s = A -> keeps A (set_giaddr i giaddr s).
Proof. intros. apply (keeps_put i a A s (fun _ => bool_decide (giaddr = no_addr)) (fun x => with_relay giaddr (l_override x) x)); [done..|]. intros x []. by split_and!; [split|..]. Qed.

Lemma set_override_ok i a A over s : (i, a) ∈ A -> linv mode max s -> addrs s = A -> keeps A (set_override i over s).
Proof. intros. apply (keeps_put i a A s (fun _ => bool_decide (over = no_addr)) (fun x => with_relay (l_giaddr x) over x)); [done..|]. intros x []. by split_and!; [split|..]. Qed.

Lemma record_lease_ok m now mem i a cl over s : linv mode max s -> message_ok v filters l m -> holds i a s ->
  keeps (addrs s) (record_lease mode m now mem i cl over s).
Proof.
  intros I Hm Hh. unfold record_lease.
  assert (forall s', addrs s' = addrs s -> exists x, (i, x) ∈ leases s') as Hx. { intros s' E. destruct (holds_lease i a s') as (x & ? & _); [unfold holds; by rewrite E|by exists x]. }
  apply keeps_bind; [destruct cl; [apply keeps_bind; [by apply (set_giaddr_ok i a)|]|by apply keeps_same]|].
  { intros s' I' E. destruct (Hx s' E) as [x Hi]. destruct (new_extradata_ok mode max i x (m_fields m) s' I' Hi (mo_fields _ _ _ _ Hm)) as (x' & -> & ? & ? & _).
    apply keeps_same; [done|]. rewrite <-E. by apply (addrs_putl mode max s' i x). }
  intros s1 I1 E1. apply keeps_bind; [|intros s2 I2 E2; apply keeps_bind; [|intros s3 I3 E3; apply keeps_bind; [|intros s4 I4 E4; apply keeps_bind; [|intros s5 I5 E5]]]].
  - destruct (Hx s1 E1) as [x Hi]. destruct (lease_set_hwaddr_ok mode max i x (m_chaddr m) (m_set_clid m) (m_hlen m) (m_htype m) (m_set_clid_len m) (y_clid mem) s1 I1 Hi)
      as (s2 & -> & I2 & A2 & _); [apply (mo_hw _ _ _ _ Hm)..|by apply mo_set_clid with v filters l|]. apply keeps_same; [done|congruence].
  - destruct (Hx s2 E2) as [x Hi]. destruct (m_hostname m) as [n|]; [|by apply keeps_same].
    destruct (lease_set_hostname_ok mode max i x (Some n) (m_auth m) (m_domain m) (y_name mem) (y_fqdn mem) s2 I2 Hi) as (s3 & -> & ? & ? & _). apply keeps_same; [done|congruence].
  - destruct (Hx s3 E3) as [x Hi]. destruct (lease_set_expires_ok mode max i x (m_time m) now s3 I3 Hi) as (s4 & -> & I4 & A4 & _). apply keeps_same; [done|congruence].
  - destruct (Hx s4 E4) as [x Hi]. destruct (lease_set_interface_ok mode max i x (m_iface m) s4 I4 Hi) as (s5 & -> & I5 & A5 & _). apply keeps_same; [done|congruence].
  - by apply (set_override_ok i a).
Qed.

Lemma end_lease_ok lease a now s : in_order s -> (forall i, lease = Some i -> exists x, (i, x) ∈ leases s) ->
  exists s', end_lease lease a now s = Ok s' /\ in_order s' /\ (s' = s \/ s' = lease_prune lease now s).
Proof.
  intros Hin Hl. destruct lease as [i|]; cbn [end_lease]; [|exists s; split_and!; [done..|by left]]. destruct (Hl i eq_refl) as [x Hx].
  rewrite (getl_ok _ _ _ _ _ (proj1 Hin) Hx). cbn [mbind comp_bind mret comp_ret]. eexists. split; [done|].
  case_bool_decide; (split; [|auto]); [by apply in_order_prune|done].
Qed.

Lemma dhcp_release_ok m now s : in_order s -> message_ok v filters l m -> exists s', dhcp_release v m now s = Ok s' /\ in_order s'.
Proof.
  intros Hin Hm. unfold dhcp_release.
  destruct (lease_client_ok mode max s (m_chaddr m) (m_hlen m) (m_htype m) (m_clid m) (m_clid_len m)) as (r & -> & Hr); [apply Hin|apply (mo_hw _ _ _ _ Hm)..|by apply mo_clid with v filters l|].
  cbn [mbind comp_bind]. destruct (narrow_context_ok (v_tags v) filters (m_tags m) l (mo_tags _ _ _ _ Hm) (m_context m) (m_ciaddr m) (mo_ranges _ _ _ _ Hm)) as (k & -> & _).
  cbn [mbind comp_bind]. destruct k as [k|]; [|by exists s]. case_bool_decide; [|by exists s].
  destruct (end_lease_ok r (m_ciaddr m) now s Hin Hr) as (s' & ? & ? & _). by exists s'.
Qed.

(** An address that is declined is not given to the client again: its lease
    ends; if it is that of the client's host, it is marked. *)
Lemma dhcp_decline_ok m now s : in_order s -> message_ok v filters l m ->
  exists s' hosts context, dhcp_decline v m now s = Ok (s', hosts, context) /\ in_order s' /\ same_contexts (m_context m) context /\
    (hosts = v_hosts v \/ exists i, m_config m = Some i /\ hosts = alter (declined now) i (v_hosts v)).
Proof.
  intros Hin Hm. unfold dhcp_decline.
  destruct (lease_client_ok mode max s (m_chaddr m) (m_hlen m) (m_htype m) (m_clid m) (m_clid_len m)) as (r & -> & Hr); [apply Hin|apply (mo_hw _ _ _ _ Hm)..|by apply mo_clid with v filters l|].
  cbn [mbind comp_bind]. destruct (m_requested m) as [a|]; [|do 3 eexists; split_and!; [done|done|done|by left]].
  case_bool_decide; [|do 3 eexists; split_and!; [done|done|done|by left]].
  destruct (end_lease_ok r a now s Hin Hr) as (s' & -> & Hin' & _). cbn [mbind comp_bind].
  assert (exists own, (if have_config v (m_config m) CONFIG_ADDR then g ← host_of v (m_config m); mret (bool_decide (g_addr g = a)) else mret false) = Ok own) as (own & ->).
  { destruct (have_config v (m_config m) CONFIG_ADDR) eqn:E; [|by eexists]. destruct (host_of_ok v filters l m _ Hm E) as (g & -> & _). by eexists. }
  cbn [mbind comp_bind mret comp_ret]. destruct own; do 3 eexists; (split; [done|]); (split; [done|]); split.
  - done.
  - destruct (m_config m) as [i|]; [right; by exists i|by left].
  - unfold same_contexts. rewrite <-list_fmap_compose. by apply list_fmap_ext.
  - by left.
Qed.

(** Who may be offered an address: its lease, if there is one, is the
    client's, or that of another machine of its host; if it is reserved, it
    is for its host. *)
Definition offered (m : message) (a : in_addr) (s : ldb) : Prop :=
  (forall i x, (i, x) ∈ leases s -> l_addr x = a ->
     lease_find_by_client (m_chaddr m) (m_hlen m) (m_htype m) (m_clid m) (m_clid_len m) s = Ok (Some i) \/
     exists g, host_of v (m_config m) = Ok g /\ g_addr g = a /\ config_has_mac g (l_hwaddr x) (l_hwaddr_len x) (l_hwaddr_type x) = Ok true) /\
  (forall n, reserved v a = Some n -> exists g, host_of v (m_config m) = Ok g /\ g_addr g = a) /\
  ((exists c, c ∈ m_context m /\ open_range (v_tags v) filters (tag_names (v_tags v) l) c = true /\ in_range a c = true) \/
   (exists g, host_of v (m_config m) = Ok g /\ g_addr g = a)).

Lemma static_address_ok m now lease s : in_order s -> message_ok v filters l m ->
  lease_find_by_client (m_chaddr m) (m_hlen m) (m_htype m) (m_clid m) (m_clid_len m) s = Ok lease ->
  exists r, static_address v m now lease s = Ok r /\ (forall a, r = Some a -> offered m a s).
Proof.
  intros [I A] Hm Hl. unfold static_address. destruct (have_config v (m_config m) CONFIG_ADDR) eqn:E; [|by exists None].
  destruct (host_of_ok v filters l m _ Hm E) as (g & Hg & Hgok). rewrite Hg. cbn [mbind comp_bind].
  assert (exists b, match lease_find_by_addr (g_addr g) s with
          | Some i => if bool_decide (lease = Some i) then Ok false else x ← getl s i; b ← config_has_mac g (l_hwaddr x) (l_hwaddr_len x) (l_hwaddr_type x); mret (negb b)
          | None => Ok false end = Ok b /\
    (b = false -> forall i x, (i, x) ∈ leases s -> l_addr x = g_addr g -> lease = Some i \/ config_has_mac g (l_hwaddr x) (l_hwaddr_len x) (l_hwaddr_type x) = Ok true)) as (taken & -> & Ht).
  { destruct (lease_find_by_addr (g_addr g) s) as [i|] eqn:Ef.
    - apply find_addr_some in Ef as (x & Hx & Hxa). assert (forall j y, (j, y) ∈ leases s -> l_addr y = g_addr g -> j = i /\ y = x) as Hu.
      { intros j y Hy Hya. assert (j = i) as -> by (apply (apart_unique s j y i x); [done|done|done|congruence]). split; [done|].
        pose proof (in_assoc i x _ (linv_nodup _ _ _ I) Hx). pose proof (in_assoc i y _ (linv_nodup _ _ _ I) Hy). congruence. }
      case_bool_decide as Eo; [exists false; split; [done|]; intros _ j y Hy Hya; left; by destruct (Hu j y Hy Hya) as [-> _]|].
      rewrite (getl_ok _ _ _ _ _ I Hx). cbn [mbind comp_bind].
      destruct (has_mac_ok (g_hwaddr g) (l_hwaddr x) (l_hwaddr_len x) (l_hwaddr_type x) Hgok) as [b Hb]; [apply lo_hw; by eapply linv_in|].
      unfold config_has_mac in *. rewrite Hb. exists (negb b). split; [done|]. intros Hn j y Hy Hya. right. destruct (Hu j y Hy Hya) as [-> ->]. rewrite Hb. by destruct b.
    - exists false. split; [done|]. intros _ i x Hx Hxa. pose proof (proj1 (find_addr_none _ _) Ef i x Hx). done. }
  cbn [mbind comp_bind]. destruct taken; [by exists None|].
  do 2 (match goal with |- context [if ?b then mret None else _] => destruct b end; [by exists None|]).
  eexists. split; [done|]. intros a Ha. case_bool_decide; [done|]. injection Ha as <-. split; [|split; [intros n _|right]; exists g; by rewrite Hg].
  intros i x Hx Hxa. destruct (Ht eq_refl i x Hx Hxa) as [->|Hmac]; [by left|]. right. exists g. by rewrite Hg.
Qed.

Lemma available m a r : message_ok v filters l m -> address_available (v_tags v) (m_context m) a (m_tags m) = Ok (Some r) ->
  exists c, c ∈ m_context m /\ open_range (v_tags v) filters (tag_names (v_tags v) l) c = true /\ in_range a c = true.
Proof.
  intros Hm H. destruct (address_available_ok (v_tags v) filters (m_tags m) l (mo_tags _ _ _ _ Hm) (m_context m) a (mo_ranges _ _ _ _ Hm)) as (r' & E & Hr).
  rewrite H in E. injection E as <-. destruct Hr as (c & ? & ? & ?). exists c. split_and!; [by eapply list_elem_of_lookup_2|done..].
Qed.

(** An address that the client has, or would like, is offered only when it
    is available. *)
Definition fits (m : message) (s : ldb) (a : in_addr) : Prop :=
  offered m a s /\ exists k, address_available (v_tags v) (m_context m) a (m_tags m) = Ok (Some k).

Lemma own_address_ok m lease s : in_order s -> message_ok v filters l m ->
  lease_find_by_client (m_chaddr m) (m_hlen m) (m_htype m) (m_clid m) (m_clid_len m) s = Ok lease -> (forall i, lease = Some i -> exists x, (i, x) ∈ leases s) ->
  exists r, own_address v m lease s = Ok r /\ (forall a, r = Some a -> fits m s a).
Proof.
  intros [I A] Hm Hl Hlin. destruct lease as [i|]; [|by exists None]. destruct (Hlin i eq_refl) as [x Hx]. unfold own_address. rewrite (getl_ok _ _ _ _ _ I Hx). cbn [mbind comp_bind].
  destruct (address_available_ok (v_tags v) filters (m_tags m) l (mo_tags _ _ _ _ Hm) (m_context m) (l_addr x) (mo_ranges _ _ _ _ Hm)) as (r & E & _). rewrite E.
  cbn [mbind comp_bind mret comp_ret]. eexists. split; [done|]. intros a Ha. destruct r as [q|]; [|done]. rewrite bool_decide_eq_true_2 in Ha by done.
  case_bool_decide as E2; [|done]. injection Ha as <-. split; [|by exists q]. split_and!.
  - intros j y Hy Hya. left. by rewrite (apart_unique s j y i x A Hy Hx Hya).
  - congruence.
  - left. by apply (available m _ q).
Qed.

Lemma wanted_address_ok m s : in_order s -> message_ok v filters l m -> exists r, wanted_address v m s = Ok r /\ (forall a, r = Some a -> fits m s a).
Proof.
  intros [I A] Hm. unfold wanted_address. destruct (m_requested m) as [b|]; [|by exists None].
  destruct (address_available_ok (v_tags v) filters (m_tags m) l (mo_tags _ _ _ _ Hm) (m_context m) b (mo_ranges _ _ _ _ Hm)) as (r & E & _). rewrite E.
  cbn [mbind comp_bind mret comp_ret]. eexists. split; [done|]. intros a Ha. destruct r as [q|]; [|done]. rewrite bool_decide_eq_true_2 in Ha by done.
  case_bool_decide as E2; [|done]. case_bool_decide as E3; [|done]. injection Ha as <-. split; [|by exists q]. split_and!.
  - intros j y Hy Hya. by destruct (proj1 (find_addr_none _ _) E2 j y Hy).
  - congruence.
  - left. by apply (available m _ q).
Qed.

Lemma narrow_available context a k tags : address_available (v_tags v) context a tags = Ok (Some k) -> narrow_context (v_tags v) context a tags = Ok (Some k).
Proof. intros H. unfold narrow_context. by rewrite H. Qed.

Lemma ranges_same m st : message_ok v filters l m -> same_contexts (m_context m) (h_context st) -> forall c, c ∈ h_context st -> range_ok (v_tags v) filters c.
Proof.
  intros Hm HS c Hc. destruct (same_contexts_in _ _ c HS Hc) as (c0 & Hc0 & Hs0). eapply range_ok_same; [exact Hs0|by apply (mo_ranges _ _ _ _ Hm)].
Qed.

Lemma open_same c c' names : same_context c c' -> open_range (v_tags v) filters names c' = open_range (v_tags v) filters names c /\ (forall a, in_range a c' = in_range a c).
Proof. intros H. destruct (same_context_fields _ _ H) as (_ & _ & E1 & E2 & E3 & E4). unfold open_range, fixed_range, in_range. by rewrite E1, E2, E3, E4. Qed.

(** An address from the search is in a range that [narrow_context] finds
    again. *)
Lemma unused_available m s st a c : message_ok v filters l m -> same_contexts (m_context m) (h_context st) -> unused (m_context m) (v_hosts v) s a = true ->
  c ∈ m_context m -> open_range (v_tags v) filters (tag_names (v_tags v) l) c = true -> in_range a c = true ->
  exists k, address_available (v_tags v) (h_context st) a (m_tags m) = Ok (Some k).
Proof.
  intros Hm HS Hu Hc Ho Hi. rewrite <-(unused_same _ _ _ _ _ HS) in Hu.
  destruct (address_available_ok (v_tags v) filters (m_tags m) l (mo_tags _ _ _ _ Hm) (h_context st) a (ranges_same m st Hm HS)) as (r & E & Hr).
  destruct r as [k|]; [by exists k|]. exfalso. destruct Hr as [(d & Hd & ->)|Hr].
  - unfold unused in Hu. apply andb_true_iff in Hu as [[[Hu _]%andb_true_iff _]%andb_true_iff _]. apply negb_true_iff in Hu.
    destruct (h_context st) as [|d' ?]; [done|]. injection Hd as ->. cbn in Hu. by rewrite bool_decide_eq_true_2 in Hu.
  - apply list_elem_of_lookup in Hc as [k Hk]. destruct (same_contexts_lookup _ _ _ _ HS Hk) as (c' & Hk' & Hs). destruct (open_same c c' (tag_names (v_tags v) l) Hs) as [E1 E2].
    specialize (Hr c' (list_elem_of_lookup_2 _ _ _ Hk')). rewrite E1, E2 in Hr. specialize (Hr Ho). congruence.
Qed.

Lemma unused_offered m s a c : unused (m_context m) (v_hosts v) s a = true ->
  c ∈ m_context m -> open_range (v_tags v) filters (tag_names (v_tags v) l) c = true -> in_range a c = true -> offered m a s.
Proof.
  unfold unused. intros [[[_ Hu1%bool_decide_eq_true]%andb_true_iff Hu2%bool_decide_eq_true]%andb_true_iff _]%andb_true_iff Hc Ho Hi. split_and!.
  - intros j y Hy Hya. by destruct (proj1 (find_addr_none _ _) Hu1 j y Hy).
  - unfold reserved. intros n Hn. congruence.
  - left. by exists c.
Qed.

(** Whether any address is free for the client. *)
Definition none_free (m : message) (s : ldb) : Prop :=
  forall c, c ∈ m_context m -> open_range (v_tags v) filters (tag_names (v_tags v) l) c = true ->
    forall a, octets a -> in_range a c = true -> unused (m_context m) (v_hosts v) s a = false.

Lemma choose_address_ok m now mem lease results pings s : in_order s -> message_ok v filters l m ->
  lease_find_by_client (m_chaddr m) (m_hlen m) (m_htype m) (m_clid m) (m_clid_len m) s = Ok lease -> (forall i, lease = Some i -> exists x, (i, x) ∈ leases s) ->
  exists r st, choose_address v m now mem lease (Search (m_context m) results pings) s = Ok (r, st) /\ same_contexts (m_context m) (h_context st) /\
    match r with
    | Some a => offered m a s /\ (have_config v (m_config m) CONFIG_ADDR = false -> exists k, address_available (v_tags v) (h_context st) a (m_tags m) = Ok (Some k))
    | None => m_emac_len m <> 0 -> silent (v_no_ping v) (Search (m_context m) results pings) -> v_consec v = false -> none_free m s
    end.
Proof.
  intros Hin Hm Hl Hlin. unfold choose_address. destruct (static_address_ok m now lease s Hin Hm Hl) as (conf & Ec & Hconf). rewrite Ec. cbn [mbind comp_bind].
  destruct conf as [a|].
  { do 2 eexists. split; [done|]. split; [done|]. split; [by apply Hconf|]. intros Hno. unfold static_address in Ec. by rewrite Hno in Ec. }
  destruct (own_address_ok m lease s Hin Hm Hl Hlin) as (own & -> & Hown). cbn [mbind comp_bind].
  destruct own as [a|]; [do 2 eexists; split; [done|]; split; [done|]; by destruct (Hown a eq_refl)|].
  destruct (wanted_address_ok m s Hin Hm) as (wanted & -> & Hwanted). cbn [mbind comp_bind].
  destruct wanted as [a|]; [do 2 eexists; split; [done|]; split; [done|]; by destruct (Hwanted a eq_refl)|].
  destruct (m_emac_len m =? 0) eqn:E0; zbool; [by do 2 eexists|].
  destruct (address_allocate_ok (v_tags v) (v_consec v) (v_no_ping v) (y_ping mem) (m_emac m) (m_emac_len m) (m_tags m) l now (v_hosts v) s
    (Search (m_context m) results pings) filters (mo_tags _ _ _ _ Hm) (mo_ranges _ _ _ _ Hm) (fun i x => apart_octets s i x (proj2 Hin)) (mo_emac _ _ _ _ Hm)) as (r & st & -> & HS & Hr).
  exists r, st. split; [done|]. split; [done|]. destruct r as [a|].
  - destruct Hr as (Hu & c & Hc & Ho & Hi). split; [by apply (unused_offered m s a c)|]. intros _. by apply (unused_available m s st a c).
  - intros _ Hsil Hcons. exact (Hr Hsil Hcons).
Qed.

Lemma dhcp_discover_ok m now mem results pings s : in_order s -> message_ok v filters l m ->
  exists r st, dhcp_discover v m now mem results pings s = Ok (r, st) /\
    match r with
    | Some (a, k) => offered m a s /\ exists c, m_context m !! k = Some c
    | None => m_ignore m = false -> have_config v (m_config m) CONFIG_DISABLE = false -> have_config v (m_config m) CONFIG_ADDR = false ->
        m_emac_len m <> 0 -> silent (v_no_ping v) (Search (m_context m) results pings) -> v_consec v = false -> none_free m s
    end.
Proof.
  intros Hin Hm. unfold dhcp_discover. destruct (m_ignore m || have_config v (m_config m) CONFIG_DISABLE) eqn:E0.
  { do 2 eexists. split; [done|]. cbn. intros E1 E2. by rewrite E1, E2 in E0. }
  destruct (lease_client_ok mode max s (m_chaddr m) (m_hlen m) (m_htype m) (m_clid m) (m_clid_len m)) as (lease & Hl & Hlin); [apply Hin|apply (mo_hw _ _ _ _ Hm)..|by apply mo_clid with v filters l|].
  rewrite Hl. cbn [mbind comp_bind]. destruct (choose_address_ok m now mem lease results pings s Hin Hm Hl Hlin) as (r & st & -> & HS & Hr). cbn [mbind comp_bind].
  destruct r as [a|]; [|by exists None, st; auto].
  destruct (narrow_context_ok (v_tags v) filters (m_tags m) l (mo_tags _ _ _ _ Hm) (h_context st) a (ranges_same m st Hm HS)) as (k & E & Hk). rewrite E.
  destruct Hr as [Ho Ha]. cbn [mbind comp_bind mret comp_ret]. do 2 eexists. split; [done|]. destruct k as [k|]; cbn.
  - split; [done|]. destruct (Hk k eq_refl) as [c Hc]. destruct (same_contexts_lookup (h_context st) (m_context m) k c) as (c' & ? & _); [by symmetry|done|]. by exists c'.
  - intros _ _ Hno. destruct (Ha Hno) as [k Hk']. rewrite (narrow_available _ _ _ _ Hk') in E. done.
Qed.
End Request.
