(* ===== verification/DmDhcpRun.v ===== *)
(** Histories of dnsmasq's DHCP server: what holds of its leases, its offers
    and its answers after any events. *)
From S2P Require Import Prelude CString Dns Common DmUtil DmName DmPacket DmLru DmCache DmCacheInv DmLease DmLeaseInv DmLeaseRun DmTags DmDhcp DmRequest.
Set Warnings "-clear-no-such-hyp".

(** What happens to the server. [v] is what it knows then: the nodes of tags
    are linked anew for each message, and the configuration may be read again. *)
Inductive dhcp_event :=
| EvDiscover (v : server_conf) (m : message) (now : Z) (mem : memory) (results : list ping_result) (pings : list bool)
| EvRequest (v : server_conf) (m : message) (now : Z) (mem : memory)
| EvRelease (v : server_conf) (m : message) (now : Z)
| EvDecline (v : server_conf) (m : message) (now : Z)
| EvAlarm (now : Z)
| EvRerun
| EvScript (lease_ro : bool).

(** [dhcp_packet] ends what has expired before it looks at a message. *)
Definition handle (mode : bool) (e : dhcp_event) (s : ldb) : comp ldb :=
  match e with
  | EvDiscover v m now mem results pings => let s := lease_prune None now s in _ ← dhcp_discover v m now mem results pings s; mret s
  | EvRequest v m now mem =>
      '(ans, s) ← dhcp_request v m now mem (lease_prune None now s);
      match ans with Ack i cl over => record_lease mode m now mem i cl over s | _ => mret s end
  | EvRelease v m now => dhcp_release v m now (lease_prune None now s)
  | EvDecline v m now => '(s, _, _) ← dhcp_decline v m now (lease_prune None now s); mret s
  | EvAlarm now => mret (lease_prune None now s)
  | EvRerun => mret (rerun_scripts s)
  | EvScript ro => mret (do_script_run ro s).2
  end.

Definition event_ok (e : dhcp_event) (s : ldb) : Prop :=
  match e with
  | EvDiscover v m _ _ _ _ | EvRelease v m _ | EvDecline v m _ => exists filters l, message_ok v filters l m
  | EvRequest v m _ mem => fresh mem s /\ exists filters l, message_ok v filters l m
  | EvAlarm _ | EvRerun | EvScript _ => True
  end.

(** The states that there can be, from an empty database. *)
Inductive reached (mode : bool) (max : Z) : ldb -> Prop :=
| ReachedStart : reached mode max (start max)
| ReachedEvent s e s' : reached mode max s -> event_ok e s -> handle mode e s = Ok s' -> reached mode max s'.

Lemma script_order mode max ro s : in_order mode max s -> in_order mode max (do_script_run ro s).2.
Proof.
  intros [I A]. pose proof (script_step mode max ro s I) as H. destruct (do_script_run ro s) as [[ev|] s'] eqn:E; cbn; [|by destruct H as [-> _]].
  destruct H as (_ & I' & Hq). apply (keep_order mode max s); [done| |done].
  apply (f_equal (map (fun e : ptr * lease => (e.1, l_addr e.2)))) in Hq. unfold addrs.
  assert (forall l, map (fun e : ptr * lease => (e.1, l_addr e.2)) (prod_map id (quiet ro) <$> l) = (fun e => (e.1, l_addr e.2)) <$> l) as Hf; [|by rewrite !Hf in Hq].
  intros l. change (map ?f ?k) with (f <$> k). rewrite <-list_fmap_compose. apply fmap_ext_in. intros [i x] _. cbn. unfold quiet. by case_match.
Qed.

Lemma rerun_order mode max s : in_order mode max s -> in_order mode max (rerun_scripts s).
Proof.
  intros [I A]. split; [by apply linv_rerun|]. apply (apart_same s); [|done]. unfold addrs, rerun_scripts. cbn. rewrite <-list_fmap_compose. apply fmap_ext_in. by intros [i x] _.
Qed.

Lemma prune_left target now s : leases_left s <= leases_left (lease_prune target now s).
Proof. destruct (lease_prune_eq target now s) as (_ & _ & -> & _). unfold zlen. lia. Qed.

(** A request, and what is recorded when it is answered with a DHCPACK. *)
Lemma request_handled mode max v filters l m now mem s : in_order mode max s -> message_ok v filters l m -> fresh mem s ->
  match dhcp_request v m now mem s with
  | Ok (Ack i cl over, s1) => permitted v filters l m (asked_address m) /\ exists s2 x, record_lease mode m now mem i cl over s1 = Ok s2 /\ in_order mode max s2 /\
      (i, x) ∈ leases s2 /\ l_addr x = asked_address m
  | Ok (_, s1) => in_order mode max s1
  | Fault f => f = NullDeref /\ (leases_left s = 0 \/ y_lease mem = None)
  end.
Proof.
  intros Hin Hm Hf. pose proof (dhcp_request_ok mode max v filters l m now mem s Hin Hm Hf) as H.
  destruct (dhcp_request v m now mem s) as [[[|? ?|i cl over] s1]|f]; [apply H..| |done]. destruct H as [Hin1 Hack].
  destruct (Hack i cl over eq_refl) as (x & Hx & Ha & Hp). split; [done|].
  assert (holds i (asked_address m) s1) as Hh by (apply list_elem_of_fmap; exists (i, x); by rewrite <-Ha).
  destruct (record_lease_ok mode max v filters l m now mem i (asked_address m) cl over s1 (proj1 Hin1) Hm Hh) as (s2 & -> & I2 & E2).
  destruct (holds_lease i (asked_address m) s2) as (y & Hy & Hya); [unfold holds; by rewrite E2|]. exists s2, y. split; [done|]. split; [by eapply keep_order|done].
Qed.

(** A request for which there may be no lease left, or no memory for one. *)
Definition starved (e : dhcp_event) (s : ldb) : Prop :=
  exists v m now mem, e = EvRequest v m now mem /\ (leases_left s = 0 \/ y_lease mem = None).

Lemma dhcp_event_handled mode max e s : in_order mode max s -> event_ok e s ->
  match handle mode e s with Ok s' => in_order mode max s' | Fault f => f = NullDeref /\ starved e s end.
Proof.
  intros Hin. assert (forall now, in_order mode max (lease_prune None now s)) as Hpr by (intros now; by apply in_order_prune).
  destruct e as [v m now mem results pings|v m now mem|v m now|v m now|now| |ro]; cbn [handle event_ok].
  - intros (filters & l & Hm). destruct (dhcp_discover_ok mode max v filters l m now mem results pings _ (Hpr now) Hm) as (r & st & -> & _). apply Hpr.
  - intros (Hf & filters & l & Hm). pose proof (request_handled mode max v filters l m now mem _ (Hpr now) Hm ltac:(by apply fresh_prune)) as H.
    destruct (dhcp_request v m now mem (lease_prune None now s)) as [[[|why b|i cl over] s1]|f]; cbn [mbind comp_bind mret comp_ret]; [done..| |].
    + destruct H as (_ & s2 & x & -> & ? & _). done.
    + destruct H as [-> H]. split; [done|]. exists v, m, now, mem. split; [done|]. pose proof (prune_left None now s). pose proof (li_left _ _ _ (proj1 Hin)). destruct H; [left; lia|by right].
  - intros (filters & l & Hm). by destruct (dhcp_release_ok mode max v filters l m now _ (Hpr now) Hm) as (s' & -> & ?).
  - intros (filters & l & Hm). by destruct (dhcp_decline_ok mode max v filters l m now _ (Hpr now) Hm) as (s' & hosts & context & -> & ? & _).
  - intros _. apply Hpr.
  - intros _. by apply rerun_order.
  - intros _. by apply script_order.
Qed.

Lemma reached_order mode max s : 0 <= max -> reached mode max s -> in_order mode max s.
Proof.
  intros Hmax Hr. induction Hr as [|s e s' Hr IH He Hs]; [split; [by apply start_linv|split; constructor]|]. pose proof (dhcp_event_handled mode max e s IH He) as H. by rewrite Hs in H.
Qed.

(** What an address is that may be given to a new client. *)
Lemma unused_not_leased context hosts s a : (forall i x, (i, x) ∈ leases s -> l_addr x <> a) -> config_find_by_address hosts a 0 = None ->
  (forall d, d ∈ context -> c_router d <> a) -> (IN_CLASSC (addr_num a) = true -> Z.land (addr_num a) 0xff <> 0 /\ Z.land (addr_num a) 0xff <> 0xff) ->
  unused context hosts s a = true.
Proof.
  intros Hl Hc Hr Hn. unfold unused. rewrite !andb_true_iff. split_and!.
  - apply negb_true_iff, not_true_is_false. intros (d & Hd & E%bool_decide_eq_true)%existsb_exists. apply (Hr d); [by apply list_elem_of_In|done].
  - apply bool_decide_eq_true. by apply find_addr_none.
  - by apply bool_decide_eq_true.
  - destruct (IN_CLASSC (addr_num a)); [|done]. destruct (Hn eq_refl). cbn. by rewrite !(proj2 (Z.eqb_neq _ _)) by done.
Qed.

(** C7: no address is leased twice, whatever messages arrive. After any offers,
    requests, releases, declined addresses, alarms and calls of the script, from
    an empty database for [max] leases, the leases have different addresses and
    different names, there are at most [max] of them, and those that may still
    be given make up the rest. The next event is dealt with; or it is a request
    for a new lease when all [max] are given, or when there is no memory for the
    block of a lease: then the server follows a null pointer. The messages have
    been parsed: their lengths are those of their buffers, and the client is on
    the network of some range. *)
Theorem dhcp_server_sound mode max s : 0 <= max -> reached mode max s ->
  (forall i x j y, (i, x) ∈ leases s -> (j, y) ∈ leases s -> i <> j -> l_addr x <> l_addr y /\ names_equal (key mode x) (key mode y) = false) /\
  zlen (leases s) <= max /\ leases_left s = max - zlen (leases s) /\
  (forall e, event_ok e s -> (exists s', handle mode e s = Ok s' /\ reached mode max s') \/
     (handle mode e s = Fault NullDeref /\ exists v m now mem, e = EvRequest v m now mem /\ (zlen (leases s) = max \/ y_lease mem = None))).
Proof.
  intros Hmax Hr. pose proof (reached_order mode max s Hmax Hr) as Hin.
  pose proof (li_count _ _ _ (proj1 Hin)). pose proof (li_left _ _ _ (proj1 Hin)). split_and!; [|lia|lia|].
  - intros i x j y Hi Hj Hne. split; [intros Ha; apply Hne; by apply (apart_unique s i x j y (proj2 Hin))|]. by apply (li_names _ _ _ (proj1 Hin) i x j y).
  - intros e He. pose proof (dhcp_event_handled mode max e s Hin He) as H2. destruct (handle mode e s) as [s'|f] eqn:E.
    + left. exists s'. split; [done|]. by eapply ReachedEvent.
    + right. destruct H2 as [-> (v & m & now & mem & -> & Hor)]. split; [done|]. exists v, m, now, mem. split; [done|]. destruct Hor; [left; lia|by right].
Qed.

(** C12: an address that is offered may be had. After any history, a
    DHCPDISCOVER is dealt with without a fault; the address of the offer, if
    there is one, is not leased to somebody else, other than to another machine
    of the same host of the configuration; it is not reserved for another host;
    and it is in a range that is there for the tags of the client, or the
    client's host has it. *)
Theorem offer_is_free mode max s v filters l m now mem results pings : 0 <= max -> reached mode max s -> message_ok v filters l m ->
  exists r st, dhcp_discover v m now mem results pings (lease_prune None now s) = Ok (r, st) /\
    forall a k, r = Some (a, k) -> is_Some (m_context m !! k) /\
      (forall i x, (i, x) ∈ leases (lease_prune None now s) -> l_addr x = a ->
         lease_find_by_client (m_chaddr m) (m_hlen m) (m_htype m) (m_clid m) (m_clid_len m) (lease_prune None now s) = Ok (Some i) \/
         exists g, host_of v (m_config m) = Ok g /\ g_addr g = a /\ config_has_mac g (l_hwaddr x) (l_hwaddr_len x) (l_hwaddr_type x) = Ok true) /\
      (forall n, reserved v a = Some n -> exists g, host_of v (m_config m) = Ok g /\ g_addr g = a) /\
      ((exists c, c ∈ m_context m /\ open_range (v_tags v) filters (tag_names (v_tags v) l) c = true /\ in_range a c = true) \/
       (exists g, host_of v (m_config m) = Ok g /\ g_addr g = a)).
Proof.
  intros Hmax Hr Hm. pose proof (reached_order mode max s Hmax Hr) as Hin.
  destruct (dhcp_discover_ok mode max v filters l m now mem results pings _ (in_order_prune mode max None now s Hin) Hm) as (r & st & E & H).
  exists r, st. split; [done|]. intros a k ->. destruct H as [(H1 & H2 & H3) (c & Hc)]. by split_and!; [exists c|..].
Qed.

(** C8: a client gets an address when there is one. After any history, if the
    client is not to be ignored, has some identifier and no fixed address, no
    machine answers to a ping and addresses are not given consecutively, then it
    is offered an address whenever a range that is there for its tags has one
    that may be given to somebody: that is neither leased nor reserved for a
    host, is not the router of a range, and does not end in 0 or 255 in one of
    the class C networks (which some clients refuse). *)
Theorem free_address_offered mode max s v filters l m now mem results pings c a : 0 <= max -> reached mode max s -> message_ok v filters l m ->
  m_ignore m = false -> have_config v (m_config m) CONFIG_DISABLE = false -> have_config v (m_config m) CONFIG_ADDR = false ->
  m_emac_len m <> 0 -> silent (v_no_ping v) (Search (m_context m) results pings) -> v_consec v = false ->
  c ∈ m_context m -> open_range (v_tags v) filters (tag_names (v_tags v) l) c = true -> octets a -> in_range a c = true ->
  (forall i x, (i, x) ∈ leases (lease_prune None now s) -> l_addr x <> a) -> reserved v a = None ->
  (forall d, d ∈ m_context m -> c_router d <> a) -> (IN_CLASSC (addr_num a) = true -> Z.land (addr_num a) 0xff <> 0 /\ Z.land (addr_num a) 0xff <> 0xff) ->
  exists a' k st, dhcp_discover v m now mem results pings (lease_prune None now s) = Ok (Some (a', k), st).
Proof.
  intros Hmax Hr Hm H1 H2 H3 H4 H5 H6 Hc Ho Ha Hi Hl Hres Hrt Hcl. pose proof (reached_order mode max s Hmax Hr) as Hin.
  destruct (dhcp_discover_ok mode max v filters l m now mem results pings _ (in_order_prune mode max None now s Hin) Hm) as (r & st & E & H).
  destruct r as [[a' k]|]; [by exists a', k, st|]. specialize (H H1 H2 H3 H4 H5 H6 c Hc Ho a Ha Hi).
  assert (unused (m_context m) (v_hosts v) (lease_prune None now s) a = true) as Hu; [|congruence]. by apply unused_not_leased.
Qed.

(** C9: a DHCPACK gives what was asked for. After any history, a request that
    is answered with a DHCPACK is for an address that the client may have: in a
    range that is there for its tags or that of its host, and not reserved for
    another; and when all that goes with the answer is recorded, this lease is
    the one of the address, and the only one. *)
Theorem ack_is_recorded mode max s v filters l m now mem i cl over s1 : 0 <= max -> reached mode max s -> message_ok v filters l m -> fresh mem s ->
  dhcp_request v m now mem (lease_prune None now s) = Ok (Ack i cl over, s1) ->
  permitted v filters l m (asked_address m) /\
  exists s2, handle mode (EvRequest v m now mem) s = Ok s2 /\ lease_find_by_addr (asked_address m) s2 = Some i /\
    (forall j y, (j, y) ∈ leases s2 -> l_addr y = asked_address m -> j = i).
Proof.
  intros Hmax Hr Hm Hf Hreq. pose proof (reached_order mode max s Hmax Hr) as Hin.
  pose proof (request_handled mode max v filters l m now mem _ (in_order_prune mode max None now s Hin) Hm ltac:(by apply fresh_prune)) as H.
  rewrite Hreq in H. destruct H as (Hp & s2 & x & Hrec & [I2 A2] & Hx & Hxa). split; [done|]. exists s2. cbn [handle]. rewrite Hreq. cbn. split; [done|].
  assert (forall j y, (j, y) ∈ leases s2 -> l_addr y = asked_address m -> j = i) as Hu by (intros j y Hy Hya; apply (apart_unique s2 j y i x); [done..|congruence]).
  split; [|done]. destruct (lease_find_by_addr (asked_address m) s2) as [j|] eqn:E.
  - apply find_addr_some in E as (y & Hy & Hya). f_equal. by apply (Hu j y).
  - by destruct (proj1 (find_addr_none _ _) E i x Hx).
Qed.

(** * A network *)

Definition demo_range : dhcp_context :=
  DhcpContext 0 (255, 255, 255, 0) (10, 0, 0, 255) (10, 0, 0, 1) (10, 0, 0, 1) (10, 0, 0, 10) (10, 0, 0, 12) CONTEXT_NETMASK None.
Definition demo_conf : server_conf := ServerConf (Netids ∅ ∅) [] false false true.
Definition demo_mac (n : Z) : list Z := [2; 0; 0; 0; 0; n; 0; 0; 0; 0; 0; 0; 0; 0; 0; 0].

(** A client selects the address of an offer. *)
Definition demo_message (n : Z) (server requested : option in_addr) (name : option (list Z)) : message :=
  Message (demo_mac n) 6 1 None 0 no_addr requested server true false None None [demo_range] no_addr (10, 0, 0, 1) false
    (demo_mac n) 6 None 0 no_addr name false None 3600 1 [].
Definition demo_select (n : Z) : message := demo_message n (Some (10, 0, 0, 1)) (Some (10, 0, 0, 10 + n)) (Some (lit "pc")).
Definition demo_memory (i : ptr) : memory := Memory (Some i) true true true true.
Definition demo_requests : comp ldb :=
  s ← handle false (EvRequest demo_conf (demo_select 1) 100 (demo_memory 1%positive)) (start 3);
  handle false (EvRequest demo_conf (demo_select 2) 100 (demo_memory 2%positive)) s.

Lemma demo_message_ok n server requested name : octets (default no_addr requested) ->
  message_ok demo_conf (fun _ => []) [] (demo_message n server requested name).
Proof.
  intros Ha. split; cbn; try done; try (split; done).
  - split_and!; [done|done|by intros ? ?%elem_of_nil].
  - intros c ->%list_elem_of_singleton. split_and!; [by vm_compute..|]. split_and!; [done|done|by intros ? ?%elem_of_nil].
Qed.

Lemma demo_leases_reached : exists s, demo_requests = Ok s /\ reached false 3 s.
Proof.
  unfold demo_requests. destruct (handle false (EvRequest demo_conf (demo_select 1) 100 (demo_memory 1%positive)) (start 3)) as [s1|f] eqn:E1; [|by vm_compute in E1].
  cbn [mbind comp_bind]. destruct (handle false (EvRequest demo_conf (demo_select 2) 100 (demo_memory 2%positive)) s1) as [s2|f] eqn:E2.
  - exists s2. split; [done|]. eapply ReachedEvent; [eapply ReachedEvent; [apply ReachedStart| |exact E1]| |exact E2].
    + split; [apply (bool_decide_unpack _); by vm_compute|]. do 2 eexists. apply demo_message_ok. apply (bool_decide_unpack _). by vm_compute.
    + split; [|do 2 eexists; apply demo_message_ok; apply (bool_decide_unpack _); by vm_compute].
      revert E1. vm_compute handle. intros [= <-]. apply (bool_decide_unpack _). by vm_compute.
  - exfalso. revert E1 E2. vm_compute handle at 1. intros [= <-]. by vm_compute.
Qed.

Lemma demo_view : (s ← demo_requests; mret ((fun e => (e.1, l_addr e.2, l_hostname e.2)) <$> leases s, leases_left s)) =
  Ok ([(2%positive, (10, 0, 0, 12), Some (lit "pc")); (1%positive, (10, 0, 0, 11), None)], 1).
Proof. by vm_compute. Qed.

(** A third client asks for an offer. *)
Definition demo_discover : message := demo_message 3 None None None.
Definition demo_offer : comp (option (in_addr * nat)) :=
  s ← demo_requests; '(r, _) ← dhcp_discover demo_conf demo_discover 101 (demo_memory 3%positive) [] [] (lease_prune None 101 s); mret r.

Lemma demo_offer_ok : demo_offer = Ok (Some ((10, 0, 0, 10), 0%nat)).
Proof. by vm_compute. Qed.

Lemma demo_free : (s ← demo_requests; mret (lease_find_by_addr (10, 0, 0, 10) (lease_prune None 101 s))) = Ok None.
Proof. by vm_compute. Qed.

Lemma dhcp_server_sound_witness : exists s, demo_requests = Ok s /\ zlen (leases s) <= 3 /\
  forall i x j y, (i, x) ∈ leases s -> (j, y) ∈ leases s -> i <> j -> l_addr x <> l_addr y.
Proof.
  destruct demo_leases_reached as (s & Hs & Hr). exists s. destruct (dhcp_server_sound false 3 s ltac:(lia) Hr) as (H1 & H2 & _). split_and!; [done|done|].
  intros i x j y Hi Hj Hne. by apply (H1 i x j y).
Defined.

Lemma offer_is_free_witness : exists s, demo_requests = Ok s /\ forall i x, (i, x) ∈ leases (lease_prune None 101 s) -> l_addr x = (10, 0, 0, 10) ->
  lease_find_by_client (demo_mac 3) 6 1 None 0 (lease_prune None 101 s) = Ok (Some i).
Proof.
  destruct demo_leases_reached as (s & Hs & Hr). exists s. split; [done|]. pose proof demo_offer_ok as Ho. unfold demo_offer in Ho. rewrite Hs in Ho. cbn [mbind comp_bind] in Ho.
  destruct (offer_is_free false 3 s demo_conf (fun _ => []) [] demo_discover 101 (demo_memory 3%positive) [] [] ltac:(lia) Hr) as (r & st & E & H).
  { apply demo_message_ok. apply (bool_decide_unpack _). by vm_compute. }
  rewrite E in Ho. injection Ho as ->. destruct (H _ _ eq_refl) as (_ & H1 & _). intros i x Hi Hx. destruct (H1 i x Hi Hx) as [?|(g & Hg & _)]; [done|by vm_compute in Hg].
Defined.

Lemma free_address_offered_witness : exists s a k st, demo_requests = Ok s /\
  dhcp_discover demo_conf demo_discover 101 (demo_memory 3%positive) [] [] (lease_prune None 101 s) = Ok (Some (a, k), st).
Proof.
  destruct demo_leases_reached as (s & Hs & Hr). exists s.
  assert (message_ok demo_conf (fun _ => []) [] demo_discover) as Hm by (apply demo_message_ok; apply (bool_decide_unpack _); by vm_compute).
  pose proof demo_free as Hu. rewrite Hs in Hu. cbn [mbind comp_bind mret comp_ret] in Hu. injection Hu as Hu.
  destruct (free_address_offered false 3 s demo_conf (fun _ => []) [] demo_discover 101 (demo_memory 3%positive) [] [] demo_range (10, 0, 0, 10) ltac:(lia) Hr Hm
    eq_refl eq_refl eq_refl ltac:(done) ltac:(by left) eq_refl ltac:(by left) eq_refl ltac:(split_and!; done) eq_refl) as (a & k & st & E).
  - by apply find_addr_none.
  - done.
  - by intros d ->%list_elem_of_singleton.
  - done.
  - by exists a, k, st.
Defined.

Lemma ack_is_recorded_witness : exists s2, handle false (EvRequest demo_conf (demo_select 1) 100 (demo_memory 1%positive)) (start 3) = Ok s2 /\
  lease_find_by_addr (10, 0, 0, 11) s2 = Some 1%positive.
Proof.
  destruct (dhcp_request demo_conf (demo_select 1) 100 (demo_memory 1%positive) (lease_prune None 100 (start 3))) as [[[|? ?|i cl over] s1]|f] eqn:E; try (by vm_compute in E).
  assert (i = 1%positive) as -> by (revert E; vm_compute; by intros [= <- <- <- <-]).
  destruct (ack_is_recorded false 3 (start 3) demo_conf (fun _ => []) [] (demo_select 1) 100 (demo_memory 1%positive) 1%positive cl over s1 ltac:(lia) (ReachedStart false 3)) as (_ & s2 & H1 & H2 & _).
  - apply demo_message_ok. apply (bool_decide_unpack _). by vm_compute.
  - apply (bool_decide_unpack _). by vm_compute.
  - done.
  - by exists s2.
Defined.

(** [address_available] looks only at the first range for the address of the
    server or of a relay: that of another range is taken to be available. *)
Definition demo_relayed : dhcp_context :=
  DhcpContext 0 (255, 255, 255, 0) (10, 0, 1, 255) (10, 0, 1, 1) (10, 0, 1, 1) (10, 0, 1, 1) (10, 0, 1, 12) CONTEXT_NETMASK None.

Example other_router_available :
  address_available (Netids ∅ ∅) [demo_relayed; demo_range] (10, 0, 1, 1) None = Ok None /\
  address_available (Netids ∅ ∅) [demo_range; demo_relayed] (10, 0, 1, 1) None = Ok (Some 1%nat).
Proof. by vm_compute. Qed.

(** A client that knows the server by the address of another of its interfaces
    is refused, whatever it asks for. *)
Example other_interface_refused :
  (let m := demo_message 1 (Some (10, 9, 9, 9)) (Some (10, 0, 0, 11)) None in
   '(r, _) ← dhcp_request demo_conf (Message (m_chaddr m) (m_hlen m) (m_htype m) (m_clid m) (m_clid_len m) (m_ciaddr m) (m_requested m) (m_server m)
     (m_unicast m) (m_ignore m) (m_config m) (m_tags m) (m_context m) (m_override m) (m_fallback m) true (m_emac m) (m_emac_len m) (m_set_clid m)
     (m_set_clid_len m) (m_giaddr m) (m_hostname m) (m_auth m) (m_domain m) (m_time m) (m_iface m) (m_fields m)) 100 (demo_memory 1%positive) (start 3);
   mret r) = Ok (Nak WrongNetwork true).
Proof. by vm_compute. Qed.
