(* ===== verification/DmLeaseFile.v ===== *)
(** dnsmasq's lease file: what [lease_update_file] writes, what [lease_init]
    makes of it when dnsmasq starts again, and that leases survive that. *)
From S2P Require Import Prelude CString Dns Common DmUtil DmName DmPacket DmLru DmCache DmCacheInv DmLease DmLeaseInv DmDhcp.
Set Warnings "-clear-no-such-hyp".

Definition ARPHRD_ETHER : Z := 1.
Definition LEASE_RETRY : Z := 60.

(** * Writing *)

Fixpoint hex_loop (fuel : nat) (n : Z) (acc : list Z) : list Z :=
  match fuel with
  | O => acc
  | S fuel' =>
      let acc := hex_digit (n `mod` 16) :: acc in
      if n <? 16 then acc else hex_loop fuel' (n / 16) acc
  end.
(** [%.2x]: at least two digits; an [int] has at most eight. *)
Definition hex_int (n : Z) : list Z := match hex_loop 8 (u32 n) [] with [c] => [48; c] | s => s end.

(** The line of a lease. [dec] prints the ten digits of an [unsigned long]. *)
Definition lease_line (x : lease) : comp (list Z) :=
  hw ← first_bytes (Z.max 0 (l_hwaddr_len x)) (l_hwaddr x);
  clid ← match l_clid x with
         | Some c => if l_clid_len x =? 0 then mret (lit "*") else c ← first_bytes (l_clid_len x) c; mret (mac_bytes c)
         | None => mret (lit "*")
         end;
  mret (dec (u32 (l_expires x)) ++ [32] ++
        (if negb (l_hwaddr_type x =? ARPHRD_ETHER) || (l_hwaddr_len x =? 0) then hex_int (l_hwaddr_type x) ++ [45] else []) ++ mac_bytes hw ++ [32] ++
        inet_ntoa (l_addr x) ++ [32] ++ default (lit "*") (l_hostname x) ++ [32] ++ clid ++ [10]).

Fixpoint lease_lines (l : list (ptr * lease)) : comp (list Z) :=
  match l with
  | [] => Ok []
  | (_, x) :: l' => t ← lease_line x; r ← lease_lines l'; mret (t ++ r)
  end.

(** When the first lease ends, and ten seconds more; 0 for never. *)
Definition earlier (next e : Z) : Z := if (next =? 0) || (0 <? next - e) then e else next.
Definition next_expiry (l : list (ptr * lease)) : Z :=
  fold_left (fun next e => if l_expires e.2 =? 0 then next else earlier next (s32 (l_expires e.2 + 10))) l 0.

(** [stream] is whether there is a file, [fails] what is in it when writing
    fails. The results are the file, if it has been written, and the time for
    [send_alarm]. *)
Definition lease_update_file (now : Z) (stream : bool) (fails : option (list Z)) (s : ldb) : comp (option (list Z) * Z * ldb) :=
  '(file, err, s) ← (if file_dirty s && stream then
                       t ← lease_lines (leases s);
                       mret (match fails with
                             | None => (Some t, false, Ldb (leases s) (old_leases s) (dns_dirty s) false (leases_left s))
                             | Some t => (Some t, true, s)
                             end)
                     else mret (None, false, s));
  let next := next_expiry (leases s) in
  mret (file, if (err : bool) then earlier next (s32 (LEASE_RETRY + now)) else next, s).

(** * Reading *)

(** [fscanf] with [%255s] and the like: a word of at most [n] characters. *)
Fixpoint take_word (n : nat) (s : list Z) : list Z * list Z :=
  match n, s with
  | S n', c :: s' => if isspace c then ([], s) else let '(w, r) := take_word n' s' in (c :: w, r)
  | _, _ => ([], s)
  end.
Definition read_word (n : nat) (s : list Z) : option (list Z * list Z) :=
  match take_word n (skip_space s) with ([], _) => None | (w, r) => Some (cstr w, r) end.

(** [inet_pton]: four numbers up to 255 without leading zeros. [saw] is whether
    the number that is read has a digit. *)
Fixpoint pton_loop (s : list Z) (saw : bool) (v : Z) (parts : list Z) : option in_addr :=
  match s with
  | [] => match saw, parts with true, [a; b; c] => Some (a, b, c, v) | _, _ => None end
  | c :: s' =>
      if isdigit c then
        let new := v * 10 + (c - 48) in
        if (saw && (v =? 0)) || (255 <? new) then None else pton_loop s' true new parts
      else if (c =? 46) && saw then
        if (3 <=? length parts)%nat then None else pton_loop s' false 0 (parts ++ [v])
      else None
  end.
Definition inet_pton (s : list Z) : option in_addr := pton_loop s false 0 [].

(** [parse_hex] into the buffer of the text itself. It puts NULs for
    separators, and never stores behind the place where it reads. What stands
    behind the bytes that it has stored is not looked at afterwards. *)
Definition parse_hex_here (w : list Z) (maxlen : Z) (want_type : bool) : comp (Z * list Z * Z) :=
  '(n, out, _, t) ← parse_hex w (((fun c => if (c =? 58) || (c =? 45) || (c =? 32) then 0 else c) <$> w) ++ [0]) maxlen want_type;
  mret (n, out, t).

Record cond_domain := CondDomain { cd_domain : list Z; cd_start : in_addr; cd_end : in_addr; cd_is6 : bool }.
Record domains := Domains { cond_domains : list cond_domain; domain_suffix : option (list Z) }.

Fixpoint find_domain (l : list cond_domain) (addr : in_addr) (suffix : option (list Z)) : option (list Z) :=
  match l with
  | [] => suffix
  | c :: l' =>
      if negb (cd_is6 c) && (addr_num (cd_start c) <=? addr_num addr) && (addr_num addr <=? addr_num (cd_end c)) then Some (cd_domain c)
      else find_domain l' addr suffix
  end.
Definition get_domain (d : domains) (addr : in_addr) : option (list Z) := find_domain (cond_domains d) addr (domain_suffix d).

(** One lease; no result when the line has no IPv4 address. [mem] is the block of
    the lease; the blocks of names and identifiers are there. *)
Definition load_lease (fqdn_mode : bool) (d : domains) (mem : option ptr) (w_expires w_hw w_addr w_name w_clid : list Z) (s : ldb) : comp (option ldb) :=
  '(clid_len, clid) ← (if strcmp0 w_clid (lit "*") then mret (0, w_clid) else '(n, out, _) ← parse_hex_here w_clid 255 false; mret (n, out));
  match inet_pton w_addr with
  | None => mret None
  | Some addr =>
      '(i, s) ← lease4_allocate addr mem s;
      '(hw_len, hw, hw_type) ← parse_hex_here w_hw DHCP_CHADDR_MAX true;
      let hw_type := if (hw_type =? 0) && negb (hw_len =? 0) then ARPHRD_ETHER else hw_type in
      s ← lease_set_hwaddr i hw (Some clid) hw_len hw_type clid_len (0 <=? clid_len) s;
      s ← (if strcmp0 w_name (lit "*") then mret s else lease_set_hostname fqdn_mode i (Some w_name) false (get_domain d addr) true true s);
      x ← getl s i;
      mret (Some (putl i (with_lflags (Z.ldiff (l_flags x) (Z.lor LEASE_NEW LEASE_CHANGED)) (with_expires (atoi w_expires) x)) s))
  end.

Fixpoint load_leases (fuel : nat) (fqdn_mode : bool) (d : domains) (mems : list (option ptr)) (text : list Z) (s : ldb) : comp ldb :=
  match fuel with
  | O => Fault NoFuel
  | S fuel' =>
      match read_word 255 text with
      | None => Ok s
      | Some (w_expires, text) =>
          match read_word 255 text with
          | None => Ok s
          | Some (w_hw, text) =>
              match read_word 64 text with
              | None => Ok s
              | Some (w_addr, text) =>
                  match read_word 255 text with
                  | None => Ok s
                  | Some (w_name, text) =>
                      match read_word 764 text with
                      | None => Ok s
                      | Some (w_clid, text) =>
                          r ← load_lease fqdn_mode d (default None (head mems)) w_expires w_hw w_addr w_name w_clid s;
                          match r with None => Ok s | Some s => load_leases fuel' fqdn_mode d (tail mems) text s end
                      end
                  end
              end
          end
      end
  end.

(** [text] is the file, or what the script prints; without either there is no
    database. *)
Definition lease_init (fqdn_mode : bool) (d : domains) (dhcp_max : Z) (mems : list (option ptr)) (text : option (list Z)) (now : Z) : comp ldb :=
  let s := Ldb [] [] false false dhcp_max in
  match text with
  | None => Ok s
  | Some text =>
      s ← load_leases (S (length text)) fqdn_mode d mems text s;
      let s := lease_prune None now (Ldb (leases s) (old_leases s) (dns_dirty s) false (leases_left s)) in
      mret (dirty_dns s)
  end.

(** * Examples *)

(** A line with more digits than a hardware address has: the address is copied
    behind its field of 16 bytes. *)
Example long_hwaddr_overflows :
  lease_init false (Domains [] None) 10 [Some 1%positive] (Some (lit "0 000102030405060708090a0b0c0d0e0f10 10.0.0.5 pc *")) 0 = Fault WriteOOB.
Proof. by vm_compute. Qed.

(** A hardware address that is not hexadecimal: -1 bytes are copied. *)
Example bad_hwaddr_overflows :
  lease_init false (Domains [] None) 10 [Some 1%positive] (Some (lit "0 xyz 10.0.0.5 pc *")) 0 = Fault ReadOOB.
Proof. by vm_compute. Qed.

Example one_line :
  (s ← lease_init true (Domains [] (Some (lit "lan"))) 10 [Some 1%positive] (Some (lit "1700000000 02:00:00:00:00:01 10.0.0.5 pc 01:02:03
")) 0; mret ((fun e => (l_addr e.2, l_expires e.2, l_hostname e.2, l_fqdn e.2)) <$> leases s)) =
  Ok [((10, 0, 0, 5), 1700000000, Some (lit "pc"), Some (lit "pc.lan"))].
Proof. by vm_compute. Qed.

(** * Numbers and words *)

Definition word (w : list Z) : Prop := w <> [] /\ Forall (fun c => isspace c = false /\ c <> 0) w.

Lemma dec_loop_value fuel : forall n acc, 0 <= n < 10 ^ Z.of_nat fuel -> dec_digits 0 (dec_loop fuel n acc) = dec_digits n acc.
Proof.
  induction fuel as [|fuel IH]; intros n acc Hn; cbn [dec_loop].
  - assert (n = 0) as -> by (change (10 ^ Z.of_nat 0) with 1 in Hn; lia). done.
  - pose proof (Z.mod_pos_bound n 10 ltac:(lia)). pose proof (Z.div_mod n 10 ltac:(lia)).
    assert (forall a, dec_digits a ((48 + n `mod` 10) :: acc) = dec_digits (a * 10 + n `mod` 10) acc) as Hd.
    { intros a. cbn [dec_digits]. unfold isdigit. rewrite (proj2 (Z.leb_le 48 _)), (proj2 (Z.leb_le _ 57)) by lia. cbn [andb]. f_equal. lia. }
    case_if; zbool; [rewrite Hd; f_equal; rewrite Z.mod_small; lia|].
    rewrite IH; [rewrite Hd; f_equal; lia|]. split; [apply Z.div_pos; lia|]. apply Z.div_lt_upper_bound; [lia|].
    rewrite Nat2Z.inj_succ, Z.pow_succ_r in Hn by lia. lia.
Qed.

Lemma dec_loop_digits fuel : forall n acc, 0 <= n -> Forall (fun c => isdigit c = true) acc -> Forall (fun c => isdigit c = true) (dec_loop fuel n acc).
Proof.
  induction fuel as [|fuel IH]; intros n acc Hn Ha; cbn [dec_loop]; [done|]. pose proof (Z.mod_pos_bound n 10 ltac:(lia)).
  assert (Forall (fun c => isdigit c = true) ((48 + n `mod` 10) :: acc)). { constructor; [|done]. unfold isdigit. rewrite andb_true_iff, !Z.leb_le. lia. }
  case_if; [done|]. apply IH; [by apply Z.div_pos; lia|done].
Qed.

Lemma dec_loop_ne fuel n acc : acc <> [] \/ fuel <> O -> dec_loop fuel n acc <> [].
Proof. revert n acc. induction fuel as [|fuel IH]; intros n acc H; cbn [dec_loop]; [destruct H; done|]. case_if; [done|]. apply IH. by left. Qed.

Lemma digits_word w : w <> [] -> Forall (fun c => isdigit c = true) w -> word w.
Proof.
  intros Hne H. split; [done|]. eapply Forall_impl; [exact H|]. intros c Hc. cbn. unfold isdigit in Hc. apply andb_true_iff in Hc as [H1 H2]. zbool.
  split; [|lia]. unfold isspace. apply orb_false_iff. split; [by apply Z.eqb_neq; lia|]. apply andb_false_iff. right. apply Z.leb_gt. lia.
Qed.

Lemma dec_word n : 0 <= n -> word (dec n).
Proof.
  intros Hn. unfold dec. rewrite (proj2 (Z.ltb_ge n 0)) by lia. apply digits_word; [apply dec_loop_ne; by right|by apply dec_loop_digits].
Qed.

Lemma dec_short n : 0 <= n -> (length (dec n) <= 255)%nat.
Proof.
  intros Hn. unfold dec. rewrite (proj2 (Z.ltb_ge n 0)) by lia.
  assert (forall fuel n acc, (length (dec_loop fuel n acc) <= fuel + length acc)%nat) as H; [|specialize (H 10%nat n []); cbn [length] in H; lia].
  clear. induction fuel as [|fuel IH]; intros n acc; cbn [dec_loop]; [lia|]. case_if; cbn [length]; [lia|]. specialize (IH (n / 10) ((48 + n `mod` 10) :: acc)). cbn [length] in IH. lia.
Qed.

(** [%lu] and [atol]. *)
Lemma atoi_dec n : 0 <= n < 2 ^ 31 -> atoi (dec (u32 n)) = n.
Proof.
  intros Hn. unfold u32. rewrite Z.mod_small by lia. unfold dec. rewrite (proj2 (Z.ltb_ge n 0)) by lia.
  pose proof (dec_loop_digits 10 n [] ltac:(lia) ltac:(constructor)) as Hd. pose proof (dec_loop_ne 10 n [] ltac:(by right)) as Hne.
  pose proof (dec_loop_value 10 n [] ltac:(cbn; lia)) as Hv. cbn [dec_digits] in Hv. destruct (dec_loop 10 n []) as [|c s]; [done|].
  destruct (digits_word (c :: s) Hne Hd) as [_ [[Hc _] _]%Forall_cons]. apply Forall_cons in Hd as [Hd _]. unfold isdigit in Hd. apply andb_true_iff in Hd as [H1 H2]. zbool.
  unfold atoi. cbn [skip_space]. rewrite Hc.
  assert (match c :: s with 45 :: s' => clamp32 (- dec_digits 0 s') | 43 :: s' => clamp32 (dec_digits 0 s') | s' => clamp32 (dec_digits 0 s') end = clamp32 (dec_digits 0 (c :: s))) as ->.
  { destruct c as [|p|p]; [lia| |lia]. do 6 (destruct p as [p|p|]; try done; try lia). }
  rewrite Hv. unfold clamp32. lia.
Qed.

Lemma hex_int_byte n : is_byte n -> hex_int n = hex2 n.
Proof. apply (byte_all (fun n => hex_int n = hex2 n)). by vm_compute. Qed.

Lemma hex2_word b : is_byte b -> Forall (fun c => isspace c = false /\ c <> 0) (hex2 b).
Proof. apply (byte_all (fun b => Forall (fun c => isspace c = false /\ c <> 0) (hex2 b))). by vm_compute. Qed.

Lemma mac_word mac : bytes mac -> Forall (fun c => isspace c = false /\ c <> 0) (mac_bytes mac).
Proof.
  induction mac as [|b [|c mac] IH]; intros Hb; [constructor|by apply hex2_word; apply Forall_cons in Hb as [? _]|]. apply Forall_cons in Hb as [Hb Hbs].
  change (mac_bytes (b :: c :: mac)) with (hex2 b ++ [58] ++ mac_bytes (c :: mac)). apply Forall_app. split; [by apply hex2_word|]. constructor; [done|by apply IH].
Qed.

Lemma mac_len mac : mac <> [] -> zlen (mac_bytes mac) = 3 * zlen mac - 1.
Proof.
  induction mac as [|b [|c mac] IH]; intros Hne; [done|done|].
  change (mac_bytes (b :: c :: mac)) with (hex2 b ++ [58] ++ mac_bytes (c :: mac)). rewrite !zlen_app, IH by done. rewrite !zlen_cons. unfold zlen. cbn. lia.
Qed.

Lemma dec_byte_word n : is_byte n -> Forall (fun c => isspace c = false /\ c <> 0) (dec_byte n) /\ (1 <= length (dec_byte n) <= 3)%nat.
Proof. apply (byte_all (fun n => Forall (fun c => isspace c = false /\ c <> 0) (dec_byte n) /\ (1 <= length (dec_byte n) <= 3)%nat)). by vm_compute. Qed.

Lemma ntoa_word a : octets a -> word (inet_ntoa a) /\ (length (inet_ntoa a) <= 15)%nat.
Proof.
  destruct a as [[[a b] c] d]. intros (Ha & Hb & Hc & Hd). destruct (dec_byte_word a Ha) as [? ?], (dec_byte_word b Hb) as [? ?], (dec_byte_word c Hc) as [? ?], (dec_byte_word d Hd) as [? ?].
  unfold inet_ntoa. split; [split|].
  - intros E. apply (f_equal length) in E. rewrite length_app in E. cbn in E. lia.
  - rewrite !Forall_app. split_and!; try done; by constructor.
  - rewrite !length_app. cbn [length]. lia.
Qed.

(** [inet_pton] reads what [inet_ntop] prints. *)
Lemma pton_digit d s saw v parts : 0 <= d < 10 -> saw && (v =? 0) = false -> v * 10 + d <= 255 -> pton_loop ((48 + d) :: s) saw v parts = pton_loop s true (v * 10 + d) parts.
Proof.
  intros Hd Hs Hv. cbn [pton_loop]. unfold isdigit. rewrite (proj2 (Z.leb_le 48 _)), (proj2 (Z.leb_le _ 57)) by lia. cbn [andb]. rewrite Hs.
  replace (v * 10 + (48 + d - 48)) with (v * 10 + d) by lia. rewrite (proj2 (Z.ltb_ge 255 _)) by lia. done.
Qed.

Lemma pton_byte n s parts : is_byte n -> pton_loop (dec_byte n ++ s) false 0 parts = pton_loop s true n parts.
Proof.
  unfold is_byte. intros Hn. unfold dec_byte. pose proof (Z.mod_pos_bound n 10 ltac:(lia)). pose proof (Z.div_mod n 10 ltac:(lia)).
  repeat case_if; zbool; cbn [app].
  - rewrite pton_digit by (done || lia). f_equal.
  - assert (1 <= n / 10 < 10) by (split; [apply Z.div_le_lower_bound|apply Z.div_lt_upper_bound]; lia).
    rewrite !pton_digit; try done; try lia. f_equal. lia.
  - pose proof (Z.mod_pos_bound (n / 10) 10 ltac:(lia)). pose proof (Z.div_mod (n / 10) 10 ltac:(lia)).
    assert (n / 10 / 10 = n / 100) as Edd by (by rewrite Z.div_div by lia). assert (1 <= n / 100 < 10) by (split; [apply Z.div_le_lower_bound|apply Z.div_lt_upper_bound]; lia).
    rewrite !pton_digit; try done; try lia. f_equal. lia.
Qed.

Lemma pton_dot n s parts : (length parts < 3)%nat -> pton_loop (46 :: s) true n parts = pton_loop s false 0 (parts ++ [n]).
Proof. intros Hl. cbn [pton_loop]. rewrite (proj2 (Nat.leb_gt 3 _)) by lia. done. Qed.

Lemma pton_ntoa a : octets a -> inet_pton (inet_ntoa a) = Some a.
Proof.
  destruct a as [[[a b] c] d]. intros (Ha & Hb & Hc & Hd). unfold inet_pton, inet_ntoa. cbn [app].
  rewrite pton_byte, pton_dot, pton_byte, pton_dot, pton_byte, pton_dot by (done || cbn; lia).
  rewrite <-(app_nil_r (dec_byte d)), pton_byte by done. done.
Qed.

(** A word and the blank behind it. *)
Lemma take_word_ok w : forall n b rest, Forall (fun c => isspace c = false /\ c <> 0) w -> (length w <= n)%nat -> isspace b = true ->
  take_word n (w ++ b :: rest) = (w, b :: rest).
Proof.
  induction w as [|c w IH]; intros n b rest Hw Hn Hb; [destruct n; cbn; [done|by rewrite Hb]|]. apply Forall_cons in Hw as [[Hc _] Hw].
  destruct n as [|n]; [cbn in Hn; lia|]. cbn [app take_word]. rewrite Hc, IH by (done || cbn in Hn; lia). done.
Qed.

Lemma read_word_ok w n b rest : word w -> (length w <= n)%nat -> isspace b = true -> read_word n (w ++ b :: rest) = Some (w, b :: rest).
Proof.
  intros [Hne Hw] Hn Hb. unfold read_word. assert (skip_space (w ++ b :: rest) = w ++ b :: rest) as ->.
  { destruct w as [|c w]; [done|]. apply Forall_cons in Hw as [[Hc _] _]. cbn. by rewrite Hc. }
  rewrite take_word_ok by done. assert (cstr w = w) as Hw0; [|destruct w; [done|by rewrite Hw0]]. apply cstr_id.
  eapply Forall_impl; [exact Hw|]. by intros ? [_ ?].
Qed.

Lemma read_word_blank n b s : isspace b = true -> read_word n (b :: s) = read_word n s.
Proof. intros Hb. unfold read_word. cbn [skip_space]. by rewrite Hb. Qed.

(** * Hardware addresses and identifiers *)

Lemma mac_bytes_len mac : (length mac <= length (mac_bytes mac))%nat.
Proof.
  destruct mac as [|b mac]; [done|]. pose proof (mac_len (b :: mac) ltac:(done)) as H. rewrite zlen_cons in H. unfold zlen in H. pose proof (Nat2Z.is_nonneg (length mac)). cbn [length]. lia.
Qed.

Lemma blit_front out mac : zlen mac <= zlen out -> exists r, blit out 0 mac = mac ++ r.
Proof. intros _. unfold blit. cbn [take app]. by eexists. Qed.

Lemma parse_hex_plain mac maxlen wt : mac <> [] -> bytes mac -> zlen mac <= maxlen ->
  exists r, parse_hex_here (mac_bytes mac) maxlen wt = Ok (zlen mac, mac ++ r, 0).
Proof.
  intros Hne Hb Hm. unfold parse_hex_here, parse_hex. set (out := (_ <$> mac_bytes mac) ++ [0]).
  pose proof (mac_bytes_len mac) as Hl. assert (zlen mac <= zlen out) as Ho. { unfold out, zlen. rewrite length_app, length_fmap. cbn. lia. }
  destruct (parse_hex_mac mac (S (S (length (mac_bytes mac)))) out maxlen 0 0 wt 0) as (mask & ->); [done|done|lia|lia|lia|lia|].
  destruct (blit_front out mac Ho) as [r Hr]. exists r. cbn [mbind comp_bind mret comp_ret]. change (Z.to_nat 0) with 0%nat. by rewrite Hr.
Qed.

Lemma hex2_dash t rest : is_byte t -> hex_piece (hex2 t ++ 45 :: rest) = Some (hex2 t, Some (45, rest)) /\ hex_digits 0 (hex2 t) = t.
Proof.
  intros Hb. assert (0 <= t / 16 < 16 /\ 0 <= t `mod` 16 < 16) as [H1 H2].
  { unfold is_byte in Hb. split; [split; [apply Z.div_pos; lia|apply Z.div_lt_upper_bound; lia]|apply Z.mod_pos_bound; lia]. }
  destruct (hex_digit_val _ H1) as (V1 & ? & ? & ? & ?), (hex_digit_val _ H2) as (V2 & ? & ? & ? & ?). unfold hex2. split.
  - cbn [app hex_piece]. unfold isxdigit. rewrite V1, V2. repeat rewrite (proj2 (Z.eqb_neq _ _)) by done. done.
  - cbn [hex_digits]. rewrite V1, V2. pose proof (Z.div_mod t 16 ltac:(lia)). unfold is_byte in Hb. lia.
Qed.

Lemma parse_hex_typed t mac : is_byte t -> bytes mac -> zlen mac <= DHCP_CHADDR_MAX ->
  exists r, parse_hex_here (hex2 t ++ [45] ++ mac_bytes mac) DHCP_CHADDR_MAX true = Ok (zlen mac, mac ++ r, t).
Proof.
  intros Ht Hb Hm. unfold parse_hex_here, parse_hex. set (s := hex2 t ++ [45] ++ mac_bytes mac). set (out := (_ <$> s) ++ [0]).
  destruct (hex2_dash t (mac_bytes mac) Ht) as [Hp Hd]. pose proof (mac_bytes_len mac) as Hl.
  assert (length s = 3 + length (mac_bytes mac))%nat as Hs by (unfold s; rewrite !length_app; done).
  assert (zlen mac <= zlen out) as Ho. { unfold out, zlen. rewrite length_app, length_fmap, Hs. cbn. lia. }
  rewrite Hs. change (S (S (3 + length (mac_bytes mac)))) with (S (4 + length (mac_bytes mac))). remember (4 + length (mac_bytes mac))%nat as fuel eqn:Ef.
  cbn [parse_hex_loop]. change s with (hex2 t ++ 45 :: mac_bytes mac). rewrite Hp. cbn [andb orb negb Z.eqb].
  change (negb ((DHCP_CHADDR_MAX =? -1) || (0 <? DHCP_CHADDR_MAX))) with false. cbv iota. rewrite bool_decide_false by done. cbn [andb]. change (45 =? 45) with true. cbn [andb]. rewrite Hd.
  destruct mac as [|b mac].
  - exists out. by rewrite Ef.
  - destruct (parse_hex_mac (b :: mac) fuel out DHCP_CHADDR_MAX 0 0 false t) as (mask & ->); [done|done|lia|lia|lia|lia|].
    destruct (blit_front out (b :: mac) Ho) as [r Hr]. exists r. cbn [mbind comp_bind mret comp_ret]. change (Z.to_nat 0) with 0%nat. by rewrite Hr.
Qed.

(** * Leases that can be saved *)

(** What an IPv4 lease that is in use is like: the hardware address and the
    identifier fit, a hardware address has a type, the lease ends before 2038,
    and the name is a word. [d] gives it its domain. *)
Record saved (d : domains) (x : lease) : Prop := {
  sv_addr : octets (l_addr x);
  sv_expires : 0 <= l_expires x < 2 ^ 31;
  sv_len : 0 <= l_hwaddr_len x <= DHCP_CHADDR_MAX;
  sv_hw : bytes (l_hwaddr x);
  sv_type : is_byte (l_hwaddr_type x) /\ (l_hwaddr_type x = 0 -> l_hwaddr_len x = 0);
  sv_name : forall n, l_hostname x = Some n -> word n /\ (length n <= 255)%nat /\ n <> lit "*";
  sv_fqdn : l_fqdn x = (n ← l_hostname x; dom ← get_domain d (l_addr x); Some (n ++ [46] ++ dom));
  sv_clid : forall c, l_clid x = Some c -> bytes c /\ l_clid_len x <= 255 }.

(** What is kept of a lease. *)
Record view := View { v_addr : in_addr; v_expires : Z; v_name : option (list Z); v_fqdn : option (list Z); v_type : Z; v_hw : list Z; v_clid : option (list Z) }.
Definition view_of (x : lease) : view :=
  View (l_addr x) (l_expires x) (l_hostname x) (l_fqdn x) (l_hwaddr_type x) (take (Z.to_nat (l_hwaddr_len x)) (l_hwaddr x))
    (match l_clid x with Some c => if l_clid_len x =? 0 then None else Some c | None => None end).

Definition hw_word (x : lease) : list Z :=
  (if negb (l_hwaddr_type x =? ARPHRD_ETHER) || (l_hwaddr_len x =? 0) then hex_int (l_hwaddr_type x) ++ [45] else []) ++
  mac_bytes (take (Z.to_nat (l_hwaddr_len x)) (l_hwaddr x)).
Definition clid_word (x : lease) : list Z := match v_clid (view_of x) with Some c => mac_bytes c | None => lit "*" end.

Lemma lease_line_ok d x : saved d x -> lease_ok x ->
  lease_line x = Ok (dec (u32 (l_expires x)) ++ 32 :: hw_word x ++ 32 :: inet_ntoa (l_addr x) ++ 32 :: default (lit "*") (l_hostname x) ++ 32 :: clid_word x ++ [10]).
Proof.
  intros S H. unfold lease_line. pose proof (sv_len _ _ S). pose proof (lo_hw _ H). rewrite first_bytes_ok by lia. cbn [mbind comp_bind].
  rewrite Z.max_r by lia. assert (match l_clid x with
    | Some c => if l_clid_len x =? 0 then mret (lit "*") else c ← first_bytes (l_clid_len x) c; mret (mac_bytes c)
    | None => mret (lit "*") end = Ok (clid_word x)) as ->.
  { unfold clid_word. cbn [v_clid view_of]. destruct (l_clid x) as [c|] eqn:Ec; [|done]. destruct (l_clid_len x =? 0); [done|]. pose proof (lo_clid _ H c Ec) as Hc.
    rewrite first_bytes_ok by (pose proof (zlen_nonneg c); lia). cbn [mbind comp_bind mret comp_ret]. rewrite <-Hc. unfold zlen. by rewrite Nat2Z.id, firstn_all. }
  cbn [mbind comp_bind mret comp_ret]. unfold hw_word. by rewrite <-!app_assoc.
Qed.

Lemma hw_len x : lease_ok x -> 0 <= l_hwaddr_len x <= DHCP_CHADDR_MAX -> zlen (take (Z.to_nat (l_hwaddr_len x)) (l_hwaddr x)) = l_hwaddr_len x.
Proof. intros H Hl. pose proof (lo_hw _ H). unfold zlen in *. rewrite length_take. lia. Qed.

Lemma hw_word_ok d x : saved d x -> lease_ok x -> word (hw_word x) /\ (length (hw_word x) <= 255)%nat /\
  exists r t, parse_hex_here (hw_word x) DHCP_CHADDR_MAX true = Ok (l_hwaddr_len x, take (Z.to_nat (l_hwaddr_len x)) (l_hwaddr x) ++ r, t) /\
    (if (t =? 0) && negb (l_hwaddr_len x =? 0) then ARPHRD_ETHER else t) = l_hwaddr_type x.
Proof.
  intros S H. destruct (sv_type _ _ S) as [Ht Ht0]. pose proof (hw_len x H (sv_len _ _ S)) as Hl. pose proof (sv_len _ _ S) as Hle.
  set (mac := take (Z.to_nat (l_hwaddr_len x)) (l_hwaddr x)) in *.
  assert (bytes mac) as Hb by (apply Forall_take, (sv_hw _ _ S)). pose proof (mac_word mac Hb) as Hw. unfold hw_word. fold mac.
  assert (zlen (mac_bytes mac) <= 47) as Hml. { destruct (decide (mac = [])) as [->|Hne]; [done|]. rewrite mac_len by done. unfold DHCP_CHADDR_MAX in *. lia. }
  destruct (negb (l_hwaddr_type x =? ARPHRD_ETHER) || (l_hwaddr_len x =? 0)) eqn:E.
  - rewrite hex_int_byte by done. rewrite <-app_assoc. split; [|split].
    + split; [done|]. apply Forall_app. split; [by apply hex2_word|]. by constructor.
    + rewrite !length_app. unfold zlen in *. cbn. lia.
    + destruct (parse_hex_typed (l_hwaddr_type x) mac Ht Hb ltac:(lia)) as [r ->]. exists r, (l_hwaddr_type x). split; [by rewrite Hl|].
      destruct (l_hwaddr_type x =? 0) eqn:E0; [|done]. apply Z.eqb_eq in E0. by rewrite (Ht0 E0), E0.
  - apply orb_false_iff in E as [E1 E2]. apply negb_false_iff in E1. zbool. assert (mac <> []) as Hne by (intros Em; rewrite Em, zlen_nil in Hl; lia). cbn [app]. split; [|split].
    + split; [|done]. intros Em. pose proof (mac_len mac Hne) as Hm2. rewrite Em, zlen_nil in Hm2. lia.
    + unfold zlen in *. lia.
    + destruct (parse_hex_plain mac DHCP_CHADDR_MAX true Hne Hb ltac:(lia)) as [r ->]. exists r, 0. split; [by rewrite Hl|]. rewrite (proj2 (Z.eqb_neq (l_hwaddr_len x) 0)) by done. by rewrite E1.
Qed.

Lemma clid_word_ok d x : saved d x -> lease_ok x -> word (clid_word x) /\ (length (clid_word x) <= 764)%nat /\
  exists r n, (if strcmp0 (clid_word x) (lit "*") then mret (0, clid_word x) else '(n, out, _) ← parse_hex_here (clid_word x) 255 false; mret (n, out)) = Ok (n, r) /\
    match v_clid (view_of x) with Some c => n = zlen c /\ 0 < n /\ n <= zlen r /\ take (Z.to_nat n) r = c | None => n = 0 end.
Proof.
  intros S H. unfold clid_word. cbn [v_clid view_of]. destruct (l_clid x) as [c|] eqn:Ec.
  2:{ split; [split; [done|by constructor]|]. split; [cbn; lia|]. by exists (lit "*"), 0. }
  destruct (l_clid_len x =? 0) eqn:E0. { split; [split; [done|by constructor]|]. split; [cbn; lia|]. by exists (lit "*"), 0. }
  zbool. destruct (sv_clid _ _ S c Ec) as [Hb Hl]. pose proof (lo_clid _ H c Ec) as Hc. assert (c <> []) as Hne by (intros ->; rewrite zlen_nil in Hc; lia).
  pose proof (mac_len c Hne) as Hm. pose proof (zlen_nonneg c). assert (1 < zlen (mac_bytes c)) by lia. split; [|split].
  - split; [intros E; rewrite E, zlen_nil in Hm; lia|by apply mac_word].
  - unfold zlen in *. lia.
  - destruct (strcmp0 (mac_bytes c) (lit "*")) eqn:E; [apply str_eqb_eq in E; rewrite E in *; cbn in Hm; unfold zlen in *; cbn in *; lia|].
    destruct (parse_hex_plain c 255 false Hne Hb ltac:(lia)) as [r ->]. cbn [mbind comp_bind mret comp_ret]. exists (c ++ r), (zlen c). split; [done|].
    split_and!; [done|lia|rewrite zlen_app; pose proof (zlen_nonneg r); lia|]. unfold zlen. by rewrite Nat2Z.id, take_app_length.
Qed.

(** * Loading a lease *)

(** A new lease gets its hardware address and identifier. *)
Definition filled (hw clid : list Z) (n t cn : Z) (x : lease) : lease :=
  let x := or_flags LEASE_CHANGED (with_hwaddr n t (take (Z.to_nat n) hw ++ drop (Z.to_nat n) (l_hwaddr x)) x) in
  if cn =? 0 then x else with_clid cn (Some (take (Z.to_nat cn) clid)) (or_flags LEASE_AUX_CHANGED x).

Lemma set_hwaddr_new i a hw clid n t cn s l : leases s = (i, fresh_lease a) :: l -> i ∉ l.*1 -> 0 <= n <= DHCP_CHADDR_MAX -> n <= zlen hw -> 0 <= cn <= zlen clid ->
  exists s', lease_set_hwaddr i hw (Some clid) n t cn (0 <=? cn) s = Ok s' /\ leases s' = (i, filled hw clid n t cn (fresh_lease a)) :: l.
Proof.
  intros Hs Hi Hn Hhw Hc. unfold lease_set_hwaddr, getl. rewrite Hs. cbn [assoc]. rewrite bool_decide_eq_true_2 by done. cbn [of_option mbind comp_bind].
  change (l_hwaddr_len (fresh_lease a)) with 256. rewrite (proj2 (Z.eqb_neq n 256)) by (unfold DHCP_CHADDR_MAX in Hn; lia). cbn [negb orb mret comp_ret mbind comp_bind].
  assert ((if negb (n =? 0) then h ← first_bytes n hw; if DHCP_CHADDR_MAX <? n then Fault WriteOOB else mret (h ++ drop (Z.to_nat n) (l_hwaddr (fresh_lease a))) else mret (l_hwaddr (fresh_lease a)))
    = Ok (take (Z.to_nat n) hw ++ drop (Z.to_nat n) (l_hwaddr (fresh_lease a)))) as ->.
  { destruct (n =? 0) eqn:E; zbool; [by subst|]. cbn [negb]. rewrite first_bytes_ok by lia. cbn [mbind comp_bind]. by rewrite (proj2 (Z.ltb_ge _ _)) by lia. }
  cbn [mbind comp_bind mret comp_ret]. destruct (cn =? 0) eqn:E; zbool; cbn [negb].
  - cbn [mbind comp_bind mret comp_ret]. eexists. split; [done|]. cbn. rewrite Hs, set_lease_cons by done. unfold filled. by rewrite E.
  - unfold set_clid. cbn [l_clid or_flags with_lflags with_hwaddr fresh_lease with_addr blank_lease]. rewrite (proj2 (Z.eqb_neq 0 cn)) by done. cbn [negb].
    rewrite (proj2 (Z.leb_le 0 cn)) by lia. rewrite first_bytes_ok by lia. cbn [mbind comp_bind mret comp_ret]. eexists. split; [done|]. cbn. rewrite Hs, set_lease_cons by done.
    unfold filled. by rewrite (proj2 (Z.eqb_neq cn 0)) by done.
Qed.

Lemma take_filled (hw1 r : list Z) n : zlen hw1 = n -> take (Z.to_nat n) (take (Z.to_nat n) (hw1 ++ r) ++ drop (Z.to_nat n) (replicate 16 0)) = hw1.
Proof. intros <-. unfold zlen. rewrite Nat2Z.id, take_app_length. by rewrite take_app_length. Qed.

Definition loaded (e : Z) (x : lease) : lease := with_lflags (Z.ldiff (l_flags x) (Z.lor LEASE_NEW LEASE_CHANGED)) (with_expires e x).

Lemma filled_ok hw clid n t cn a : 0 <= n <= DHCP_CHADDR_MAX -> n <= zlen hw -> 0 <= cn <= zlen clid -> lease_ok (filled hw clid n t cn (fresh_lease a)).
Proof.
  intros Hn Hhw Hc. assert (zlen (take (Z.to_nat n) hw ++ drop (Z.to_nat n) (replicate 16 0)) = 16) as Hz.
  { unfold zlen, DHCP_CHADDR_MAX in *. rewrite length_app, length_take, length_drop, length_replicate. lia. }
  unfold filled. destruct (cn =? 0); split; try done. cbn. intros c [= <-]. unfold zlen in *. rewrite length_take. lia.
Qed.

Lemma view_loaded d x hw r clid cn : saved d x -> lease_ok x -> hw = take (Z.to_nat (l_hwaddr_len x)) (l_hwaddr x) ++ r ->
  match v_clid (view_of x) with Some c => cn = zlen c /\ 0 < cn /\ cn <= zlen clid /\ take (Z.to_nat cn) clid = c | None => cn = 0 end ->
  forall y, y = filled hw clid (l_hwaddr_len x) (l_hwaddr_type x) cn (fresh_lease (l_addr x)) ->
  view_of (loaded (l_expires x) (with_names (l_hostname x) (l_fqdn x) None y)) = view_of x.
Proof.
  intros S H -> Hc y ->. pose proof (hw_len x H (sv_len _ _ S)) as Hl. unfold filled, view_of, loaded in *. cbn in Hc.
  destruct (cn =? 0) eqn:E; zbool; cbn [l_addr l_expires l_hostname l_fqdn l_hwaddr_type l_hwaddr_len l_hwaddr l_clid l_clid_len with_lflags with_expires with_names
    or_flags with_hwaddr with_clid fresh_lease with_addr blank_lease]; rewrite take_filled by done; f_equal.
  - destruct (l_clid x) as [c|]; [|done]. destruct (l_clid_len x =? 0); [done|]. lia.
  - rewrite (proj2 (Z.eqb_neq cn 0)) by done. destruct (l_clid x) as [c|]; [|done]. destruct (l_clid_len x =? 0); [done|]. by destruct Hc as (_ & _ & _ & ->).
Qed.

Lemma view_flags e n f y v : view_of (loaded e (or_flags v (with_names n f (l_old_hostname y) y))) = view_of (loaded e (with_names n f None y)).
Proof. done. Qed.

Lemma loaded_ok e x : lease_ok x -> lease_ok (loaded e x).
Proof. intros [O1 O2 O3 O4 O5]. split; try done. cbn. by rewrite has_ldiff. Qed.

Lemma filled_names hw clid n t cn a : let y := filled hw clid n t cn (fresh_lease a) in
  l_hostname y = None /\ l_fqdn y = None /\ l_old_hostname y = None /\ l_addr y = a.
Proof. unfold filled. by destruct (cn =? 0). Qed.

(** The name of a lease is set: no other lease has it. *)
Lemma load_name mode max d i x y s l : saved d x -> linv mode max s -> leases s = (i, y) :: l -> i ∉ l.*1 ->
  l_hostname y = None -> l_fqdn y = None -> (forall j z, (j, z) ∈ l -> names_equal (key mode z) (key mode x) = false) ->
  exists s' v, (if strcmp0 (default (lit "*") (l_hostname x)) (lit "*") then mret s
      else lease_set_hostname mode i (Some (default (lit "*") (l_hostname x))) false (get_domain d (l_addr x)) true true s) = Ok s' /\ linv mode max s' /\ old_leases s' = old_leases s /\
    leases s' = (i, or_flags v (with_names (l_hostname x) (l_fqdn x) (l_old_hostname y) y)) :: l.
Proof.
  intros S I Hs Hi Hh Hf Hn. destruct (l_hostname x) as [nm|] eqn:En; cbn [default id].
  2:{ exists s, 0. split; [done|]. split; [done|]. split; [done|]. rewrite Hs. do 2 f_equal. pose proof (sv_fqdn _ _ S) as E. rewrite En in E. cbn in E. rewrite E.
      destruct y. cbn in *. subst. unfold or_flags, with_lflags. cbn. by rewrite Z.lor_0_r. }
  destruct (sv_name _ _ S nm En) as (_ & _ & Hstar). destruct (strcmp0 nm (lit "*")) eqn:E; [by apply str_eqb_eq in E|].
  assert ((i, y) ∈ leases s) as Hiy by (rewrite Hs; by left).
  destruct (lease_set_hostname_cases mode max i y (Some nm) false (get_domain d (l_addr x)) true true s I Hiy) as (s' & Hset & Ho); [by rewrite Hh|by intros [? _]|].
  assert ((n ← Some nm; d0 ← get_domain d (l_addr x); if true then Some (n ++ [46] ++ d0) else None) = l_fqdn x) as Ef by (by rewrite (sv_fqdn _ _ S), En).
  cbn [mbind option_bind] in Ho, Ef. cbn zeta in Ho. rewrite Ef in Ho.
  assert (forall j z, (j, z) ∈ leases s -> names_equal (key mode z) (new_key mode (Some nm) (l_fqdn x)) = false) as Hall.
  { intros j z Hj. assert (new_key mode (Some nm) (l_fqdn x) = key mode x) as -> by (unfold new_key, key; rewrite En; done).
    rewrite Hs in Hj. apply elem_of_cons in Hj as [[= -> ->]|Hj]; [|by apply (Hn j)]. unfold key. rewrite Hh, Hf. by destruct mode. }
  assert (is_Some (l_fqdn x) -> is_Some (Some nm)) as Hsome by (intros _; by eexists).
  destruct (name_outcome_ok mode max i y (Some nm) (l_fqdn x) false s s' I Hiy Hsome Ho) as (I' & _ & O'). exists s', LEASE_CHANGED. split; [exact Hset|]. split; [done|]. split; [done|].
  destruct Ho as [_ ->|j z Hj Hz _ _ _|Hz _ _|j z Hj Hz _ _ _].
  - cbn. rewrite Hs, set_lease_cons by done. unfold named. by rewrite Hh.
  - by rewrite (Hall j z Hj) in Hz.
  - by rewrite (Hall i y Hiy) in Hz.
  - by rewrite (Hall j z Hj) in Hz.
Qed.

Lemma key_loaded mode e v n f o y : key mode (loaded e (or_flags v (with_names n f o y))) = new_key mode n f.
Proof. by destruct mode. Qed.

(** What has been written of a lease is read back. *)
Lemma load_lease_ok mode max d i x s : saved d x -> lease_ok x -> linv mode max s -> leases_left s <> 0 -> i ∉ (leases s).*1 ++ (old_leases s).*1 ->
  (forall j z, (j, z) ∈ leases s -> names_equal (key mode z) (key mode x) = false) ->
  exists s' x', load_lease mode d (Some i) (dec (u32 (l_expires x))) (hw_word x) (inet_ntoa (l_addr x)) (default (lit "*") (l_hostname x)) (clid_word x) s = Ok (Some s') /\
    linv mode max s' /\ leases s' = (i, x') :: leases s /\ old_leases s' = old_leases s /\ view_of x' = view_of x /\ key mode x' = key mode x.
Proof.
  intros S H I Hleft Hi Hn. pose proof (sv_len _ _ S) as Hlen. pose proof (hw_len x H Hlen) as Hl.
  destruct (hw_word_ok d x S H) as (_ & _ & r & t & Hhw & Ht). destruct (clid_word_ok d x S H) as (_ & _ & clid & cn & Hcl & Hv).
  unfold load_lease. rewrite Hcl. cbn [mbind comp_bind]. rewrite pton_ntoa by apply (sv_addr _ _ S).
  destruct (lease4_allocate_ok mode max (l_addr x) i s I Hleft Hi) as [-> I1]. set (s1 := Ldb _ _ _ _ _) in *. cbn [mbind comp_bind]. rewrite Hhw. cbn [mbind comp_bind]. rewrite Ht.
  set (hw := take (Z.to_nat (l_hwaddr_len x)) (l_hwaddr x) ++ r) in *.
  assert (l_hwaddr_len x <= zlen hw) as Hz. { unfold hw. rewrite zlen_app, Hl. pose proof (zlen_nonneg r). lia. }
  assert (0 <= cn <= zlen clid) as Hc. { destruct (v_clid (view_of x)) as [c|]; [lia|]. subst cn. split; [done|apply zlen_nonneg]. }
  assert (i ∉ (leases s).*1) as Hi1 by (intros ?; apply Hi, elem_of_app; by left).
  destruct (set_hwaddr_new i (l_addr x) hw clid (l_hwaddr_len x) (l_hwaddr_type x) cn s1 (leases s) eq_refl Hi1 Hlen Hz Hc) as (s2 & Hset & Hs2). rewrite Hset. cbn [mbind comp_bind].
  destruct (lease_set_hwaddr_ok mode max i (fresh_lease (l_addr x)) hw (Some clid) (l_hwaddr_len x) (l_hwaddr_type x) cn (0 <=? cn) s1 I1 ltac:(by left)) as (s2' & Hset' & I2 & _ & O2);
    [lia|lia|by intros c [= <-]|]. rewrite Hset in Hset'. injection Hset' as <-.
  set (y := filled hw clid (l_hwaddr_len x) (l_hwaddr_type x) cn (fresh_lease (l_addr x))) in *.
  destruct (filled_names hw clid (l_hwaddr_len x) (l_hwaddr_type x) cn (l_addr x)) as (Y1 & Y2 & Y3 & Y4). fold y in Y1, Y2, Y3, Y4.
  destruct (load_name mode max d i x y s2 (leases s) S I2 Hs2 Hi1 Y1 Y2 Hn) as (s3 & v & -> & I3 & O3 & Hs3). cbn [mbind comp_bind].
  set (z := or_flags v (with_names (l_hostname x) (l_fqdn x) (l_old_hostname y) y)) in *.
  assert ((i, z) ∈ leases s3) as Hiz by (rewrite Hs3; by left). rewrite (getl_ok _ _ _ _ _ I3 Hiz). cbn [mbind comp_bind mret comp_ret].
  rewrite atoi_dec by apply (sv_expires _ _ S). fold (loaded (l_expires x) z). eexists _, (loaded (l_expires x) z). split; [done|]. split; [|split; [|split; [|split]]].
  - apply (linv_put_same _ _ s3 i z); [done|done|apply loaded_ok; by eapply linv_in|left; by destruct mode].
  - cbn. by rewrite Hs3, set_lease_cons.
  - cbn. by rewrite O3, O2.
  - unfold z. rewrite view_flags. by apply (view_loaded d x hw r clid cn).
  - unfold z. rewrite key_loaded. by destruct mode.
Qed.

(** * The whole file *)

Lemma line_words d x rest : saved d x -> lease_ok x ->
  let line := dec (u32 (l_expires x)) ++ 32 :: hw_word x ++ 32 :: inet_ntoa (l_addr x) ++ 32 :: default (lit "*") (l_hostname x) ++ 32 :: clid_word x ++ [10] in
  forall fuel mode mems s, load_leases (S fuel) mode d mems (line ++ rest) s =
    r ← load_lease mode d (default None (head mems)) (dec (u32 (l_expires x))) (hw_word x) (inet_ntoa (l_addr x)) (default (lit "*") (l_hostname x)) (clid_word x) s;
    match r with None => Ok s | Some s => load_leases fuel mode d (tail mems) (10 :: rest) s end.
Proof.
  intros S H line fuel mode mems s. pose proof (sv_expires _ _ S) as He.
  assert (word (dec (u32 (l_expires x)))) as W1 by (apply dec_word; unfold u32; rewrite Z.mod_small; lia).
  assert (length (dec (u32 (l_expires x))) <= 255)%nat as L1. { unfold u32. rewrite Z.mod_small by lia. apply dec_short. lia. }
  destruct (hw_word_ok d x S H) as (W2 & L2 & _), (ntoa_word _ (sv_addr _ _ S)) as [W3 L3], (clid_word_ok d x S H) as (W5 & L5 & _).
  assert (word (default (lit "*") (l_hostname x)) /\ (length (default (lit "*") (l_hostname x)) <= 255)%nat) as [W4 L4].
  { destruct (l_hostname x) as [n|] eqn:E; [by destruct (sv_name _ _ S n E) as (? & ? & _)|]. split; [split; [done|by constructor]|cbn; lia]. }
  unfold line. rewrite <-!app_assoc. cbn [app load_leases]. rewrite (read_word_ok _ 255 32) by done.
  rewrite <-!app_assoc. cbn [app]. rewrite read_word_blank, (read_word_ok _ 255 32) by done.
  rewrite <-!app_assoc. cbn [app]. rewrite read_word_blank, (read_word_ok _ 64 32) by (done || lia).
  rewrite <-!app_assoc. cbn [app]. rewrite read_word_blank, (read_word_ok _ 255 32) by done.
  rewrite <-!app_assoc. cbn [app]. by rewrite read_word_blank, (read_word_ok _ 764 10) by done.
Qed.

Lemma load_blank fuel mode d mems text s : load_leases fuel mode d mems (10 :: text) s = load_leases fuel mode d mems text s.
Proof. destruct fuel; [done|]. cbn [load_leases]. by rewrite read_word_blank. Qed.

Definition views (l : list (ptr * lease)) : list view := (fun e => view_of e.2) <$> l.

Lemma load_leases_ok mode max d l : forall ps s fuel text, lease_lines l = Ok text -> (forall e, e ∈ l -> saved d e.2 /\ lease_ok e.2) ->
  NoDup l.*1 -> (forall i x j y, (i, x) ∈ l -> (j, y) ∈ l -> i <> j -> names_equal (key mode x) (key mode y) = false) ->
  linv mode max s -> (forall i x j y, (i, x) ∈ l -> (j, y) ∈ leases s -> names_equal (key mode y) (key mode x) = false) -> zlen l <= leases_left s ->
  (length l <= length ps)%nat -> NoDup ps -> (forall i, i ∈ ps -> i ∉ (leases s).*1 ++ (old_leases s).*1) -> (length l < fuel)%nat ->
  exists s' news, load_leases fuel mode d (Some <$> ps) text s = Ok s' /\ linv mode max s' /\ old_leases s' = old_leases s /\
    leases s' = reverse news ++ leases s /\ views news = views l.
Proof.
  induction l as [|[k x] l IH]; intros ps s fuel text Ht Hl Hnd Hnames I Hx Hleft Hlen Hndi Hfresh Hfuel.
  - injection Ht as <-. exists s, []. destruct fuel; [cbn in Hfuel; lia|]. done.
  - cbn [lease_lines] in Ht. destruct (Hl (k, x)) as [S H]; [by left|]. cbn [snd] in S, H. rewrite (lease_line_ok d x S H) in Ht. cbn [mbind comp_bind] in Ht.
    destruct (lease_lines l) as [rest|] eqn:El; [|done]. injection Ht as <-. destruct ps as [|i ps]; [cbn in Hlen; lia|]. destruct fuel as [|fuel]; [cbn in Hfuel; lia|].
    rewrite (line_words d x rest S H fuel mode _ s). rewrite fmap_cons. change (default None (head (Some i :: (Some <$> ps)))) with (Some i). change (tail (Some i :: (Some <$> ps))) with (Some <$> ps).
    apply NoDup_cons in Hndi as [Hi Hndi]. rewrite fmap_cons in Hnd. apply NoDup_cons in Hnd as [Hk Hnd]. rewrite zlen_cons in Hleft. pose proof (zlen_nonneg l).
    destruct (load_lease_ok mode max d i x s S H I ltac:(lia) (Hfresh i ltac:(by left)) (fun j z Hj => Hx k x j z (list_elem_of_here _ _) Hj)) as (s1 & x' & -> & I1 & E1 & O1 & V1 & K1).
    cbn [mbind comp_bind]. rewrite load_blank.
    assert (leases_left s1 = leases_left s - 1) as Hl1. { pose proof (li_count _ _ _ I). pose proof (li_count _ _ _ I1) as Hc. rewrite E1, zlen_cons in Hc. lia. }
    destruct (IH ps s1 fuel rest eq_refl) as (s' & news & -> & I' & O' & E' & V'); try done.
    + intros e He. apply Hl. by right.
    + intros a y b z Ha Hb. apply Hnames; by right.
    + intros a y b z Ha Hb. rewrite E1 in Hb. apply elem_of_cons in Hb as [[= -> ->]|Hb].
      * rewrite K1. apply (Hnames k x a y); [by left|by right|]. intros ->. apply Hk, list_elem_of_fmap. by exists (a, y).
      * apply (Hx a y b z); [by right|done].
    + lia.
    + cbn in Hlen. lia.
    + intros a Ha. rewrite E1, O1. cbn. intros [->|?]%elem_of_cons; [done|]. apply (Hfresh a); [by right|done].
    + cbn in Hfuel. lia.
    + exists s', ((i, x') :: news). split; [done|]. split; [done|]. split; [congruence|]. split; [by rewrite E', E1, reverse_cons, <-app_assoc|].
      unfold views in *. rewrite !fmap_cons, V'. cbn. by rewrite V1.
Qed.

Lemma lines_ok d l : (forall e, e ∈ l -> saved d e.2 /\ lease_ok e.2) -> exists text, lease_lines l = Ok text /\ (length l <= length text)%nat.
Proof.
  induction l as [|[k x] l IH]; intros Hl; [by exists []|]. destruct (Hl (k, x)) as [S H]; [by left|]. destruct IH as (text & Ht & Hlen); [intros e He; apply Hl; by right|].
  cbn [lease_lines snd] in *. rewrite (lease_line_ok d x S H), Ht. cbn [mbind comp_bind mret comp_ret]. eexists. split; [done|]. rewrite !length_app. cbn. lia.
Qed.

Definition expired (now : Z) (v : view) : bool := negb (v_expires v =? 0) && (0 <? now - v_expires v).

Lemma views_filter now l : views (filter (fun e => ended None now e = false) l) = filter (fun v => expired now v = false) (views l).
Proof.
  unfold views. induction l as [|[i x] l IH]; [done|]. rewrite fmap_cons, !filter_cons. assert (ended None now (i, x) = expired now (view_of x)) as E by (unfold ended; by rewrite bool_decide_eq_false_2, orb_false_r).
  rewrite E. destruct (expired now (view_of x)) eqn:Ee; cbn [snd]; rewrite ?Ee; repeat (case_decide; try done). rewrite fmap_cons. by rewrite IH.
Qed.

Lemma views_reverse l : views (reverse l) = reverse (views l).
Proof. apply fmap_reverse. Qed.

Lemma init_linv mode max : 0 <= max -> linv mode max (Ldb [] [] false false max).
Proof. intros H. split; cbn; [constructor|by intros ? ?%elem_of_nil|rewrite zlen_nil; lia|done|by intros ? ? ? ? ?%elem_of_nil]. Qed.

(** C14: leases survive a restart. The file that [lease_update_file] writes for
    any leases that are in use is one that [lease_init] reads without a fault,
    and gives the same leases, in the opposite order and without those that
    have ended in the meantime: with their addresses, ends, names and domains,
    hardware addresses and identifiers. The configuration gives the same domains
    as before, and there is room for the leases. *)
Theorem leases_survive_restart mode d max max' now now' s ps : linv mode max s -> file_dirty s = true -> (forall i x, (i, x) ∈ leases s -> saved d x) ->
  zlen (leases s) <= max' -> (length (leases s) <= length ps)%nat -> NoDup ps ->
  exists text alarm s1 s2, lease_update_file now true None s = Ok (Some text, alarm, s1) /\ file_dirty s1 = false /\ leases s1 = leases s /\
    lease_init mode d max' (Some <$> ps) (Some text) now' = Ok s2 /\ linv mode max' s2 /\
    views (leases s2) = reverse (filter (fun v => expired now' v = false) (views (leases s))).
Proof.
  intros I Hd Hs Hmax Hlen Hnd. assert (forall e, e ∈ leases s -> saved d e.2 /\ lease_ok e.2) as Hl.
  { intros [i x] Hi. split; [by apply (Hs i)|by eapply linv_in]. }
  destruct (lines_ok d (leases s) Hl) as (text & Ht & Hlt). unfold lease_update_file. rewrite Hd, Ht. cbn [andb mbind comp_bind mret comp_ret].
  pose proof (zlen_nonneg (leases s)). pose proof (init_linv mode max' ltac:(lia)) as I0.
  destruct (load_leases_ok mode max' d (leases s) ps (Ldb [] [] false false max') (S (length text)) text Ht Hl) as (s2 & news & Hload & I2 & O2 & E2 & V2); try done; try lia.
  - by eapply linv_nodup.
  - apply (li_names _ _ _ I).
  - by intros ? ? ? ? _ ?%elem_of_nil.
  - by intros ? _ ?%elem_of_nil.
  - do 4 eexists. split; [done|]. split; [done|]. split; [done|]. unfold lease_init. rewrite Hload. cbn [mbind comp_bind mret comp_ret]. split; [done|].
    set (s3 := Ldb (leases s2) (old_leases s2) (dns_dirty s2) false (leases_left s2)).
    assert (linv mode max' s3) as I3 by (by eapply (linv_dirty _ _ s2)). split.
    + eapply (linv_dirty _ _ (lease_prune None now' s3)); [by apply linv_prune|done..].
    + change (leases (dirty_dns ?q)) with (leases q). destruct (lease_prune_eq None now' s3) as (-> & _). rewrite views_filter. cbn [leases s3].
      rewrite E2. cbn [leases]. rewrite app_nil_r, views_reverse, V2. by rewrite filter_reverse.
Qed.

(** Two leases: a host with an identifier, and one without a name whose lease
    ends while dnsmasq is not running. *)
Definition pc_lease : lease :=
  Lease 3 (Some [1; 2; 3]) (Some (lit "pc")) (Some (lit "pc.lan")) None 0 1700000000 6 ARPHRD_ETHER ([2; 0; 0; 0; 0; 1] ++ replicate 10 0)
    (10, 0, 0, 5) (0, 0, 0, 0) (0, 0, 0, 0) None 0 0 0.
Definition gone_lease : lease :=
  Lease 0 None None None None 0 1600000000 6 ARPHRD_ETHER ([2; 0; 0; 0; 0; 2] ++ replicate 10 0) (10, 0, 0, 6) (0, 0, 0, 0) (0, 0, 0, 0) None 0 0 0.
Definition two_leases : ldb := Ldb [(1%positive, pc_lease); (2%positive, gone_lease)] [] false true 0.

Lemma pc_saved : saved (Domains [] (Some (lit "lan"))) pc_lease.
Proof.
  split; try done.
  - by repeat constructor.
  - intros n [= <-]. split; [split; [done|by repeat constructor]|split; [cbn; lia|done]].
  - intros c [= <-]. split; [by repeat constructor|done].
Qed.

Lemma gone_saved : saved (Domains [] (Some (lit "lan"))) gone_lease.
Proof. split; try done. by repeat constructor. Qed.

Lemma two_linv : linv true 2 two_leases.
Proof.
  assert (lease_ok pc_lease) by (split; cbn; try done; by intros c [= <-]). assert (lease_ok gone_lease) by (split; cbn; try done; by intros [? ?]).
  split; cbn; [apply (bool_decide_unpack _); by vm_compute| |done|done|].
  - by intros e [->|[->|[]%elem_of_nil]%elem_of_cons]%elem_of_cons.
  - by intros i x j y [[= -> ->]|[[= -> ->]|[]%elem_of_nil]%elem_of_cons]%elem_of_cons [[= -> ->]|[[= -> ->]|[]%elem_of_nil]%elem_of_cons]%elem_of_cons ?.
Qed.

Lemma leases_survive_restart_witness : exists text alarm s1 s2, lease_update_file 1500000000 true None two_leases = Ok (Some text, alarm, s1) /\
  lease_init true (Domains [] (Some (lit "lan"))) 2 [Some 3%positive; Some 4%positive] (Some text) 1650000000 = Ok s2 /\ views (leases s2) = [view_of pc_lease].
Proof.
  destruct (leases_survive_restart true (Domains [] (Some (lit "lan"))) 2 2 1500000000 1650000000 two_leases [3%positive; 4%positive])
    as (text & alarm & s1 & s2 & Hw & _ & _ & Hr & _ & Hv).
  - exact two_linv.
  - reflexivity.
  - intros i x [[= -> ->]|[[= -> ->]|[]%elem_of_nil]%elem_of_cons]%elem_of_cons; [exact pc_saved|exact gone_saved].
  - done.
  - cbn; lia.
  - apply (bool_decide_unpack _); by vm_compute.
  - exists text, alarm, s1, s2. split; [exact Hw|]. split; [exact Hr|]. rewrite Hv. by vm_compute.
Defined.
